(* ===== verification/_CoqProject ===== *)
-Q . S2P
Prelude.v
PS2Types.v
RingBuffer.v
RingSpec.v
Controller.v
ControllerLemmas.v
TestBench.v
PortSpec.v
ControllerSpec.v
LineSpec.v
PowerSpec.v
ServiceSpec.v
Bus.v
Touch.v
BusController.v
FocalTech.v
FocalTechDecode.v
FocalTechReport.v
FocalTechInv.v
FocalTechSafe.v
FocalTechRun.v
FocalTechSpec.v
FocalTechPackets.v
FocalTechClick.v
DriverWorld.v
FTE0001.v
FTE0001Safe.v
FTE0001Spec.v
FTE0001Report.v
KeyTables.v
KeyMap.v
OSTypes.v
Keyboard.v
KeyboardRun.v
KeyboardInv.v
KeyboardSafe.v
KeyboardBench.v
KeyboardMacro.v
KeyboardLife.v
KeyboardScan.v
RingLoop.v
Talk.v
Trackpad.v
Motion.v
Mouse.v
MouseSpec.v
MouseReports.v
MouseButtons.v
Sentelic.v
SentelicSpec.v
Config.v
ConfigSpec.v
Elan.v
ElanDriver.v
ElanSafe.v
ElanRun.v
ElanSpec.v
ElanFrames.v
Synaptics.v
SynapticsTouch.v
SynapticsDriver.v
Averages.v
SynapticsLinks.v
SynapticsFingers.v
SynapticsRenumber.v
SynapticsSafe.v
SynapticsRun.v
SynapticsSpec.v
SynapticsCodec.v
Alps.v
AlpsDecode.v
AlpsReport.v
AlpsHardware.v
AlpsDriver.v
AlpsSafe.v
AlpsFound.v
AlpsLife.v
AlpsSpec.v
AlpsCodec.v
