(* ===== verification/Prelude.v ===== *)
(** * VoodooPS2 with FocalTech support: a verification library

    This library models the PS/2 driver stack of the repository, a set of macOS kernel
    extensions written in C++, and proves what its parts promise each other and the
    system.  It covers the controller (src/VoodooPS2Controller), the keyboard
    (src/VoodooPS2Keyboard), the mouse (src/VoodooPS2Mouse), the two FocalTech touchpad
    drivers (src/FocalTech) and the Sentelic, Elan, Synaptics and ALPS touchpad drivers
    (src/VoodooPS2Trackpad).

    ** The program

    An 8042 controller has two lines, or five when it is multiplexed.  The class
    [ApplePS2Controller] owns its two ports: it runs requests (lists of commands) for the
    device drivers, takes the interrupts, hands each byte to the driver installed on its
    line, and looks after power, configuration and messages between drivers.  Each
    device is a nub, [ApplePS2Device], through which one driver talks to the controller.
    A driver has an interrupt routine, which puts bytes into a [RingBuffer], and a
    routine [packetReady] on the work loop, which takes whole packets out of it and
    turns them into events for the HID system or for VoodooInput.  Between the two, the
    driver is started and stopped, put to sleep and woken, and told its settings.

    ** How it is modelled

    C integers are [Z] with the conversions of this file ([u8], [s32], ...) where the code
    stores them; C arrays are lists, and an index outside of one is [None].  Code with
    effects is a computation in the monad [M] of this file over an explicit world: it
    ends with a value ([Ok]), waits for hardware that never answers ([Wait]), or does what
    C++ has no result for ([Crash]): an access outside an array, a null pointer, a
    failed assertion, a lock taken twice.  [wp m Q w] says that [m] does not crash and
    that [Q] holds if it ends; [total m Q w] also says that it ends.  Every definition is
    executable, and witnesses run them on concrete worlds.

    The controller's world (Controller.v) holds the answers the hardware will give to the
    reads still to come, a trace of the port accesses and deliveries, and the controller
    object.  A driver's world ([DrvWorld] of DriverWorld.v) holds the driver object, the
    bus it talks through, the time, and the trace of what it tells others.  The bus is
    any type with the class [PS2Bus] of Bus.v and its laws [PS2BusLaws]: a driver's theorems
    hold over each of them, and BusController.v shows that the controller is one.
    During each call into the controller bytes may arrive, and they are given to the
    driver's interrupt routine ([onController]).

    ** Files

    - Prelude.v: integers, arrays, the monad and its rules, lemmas on bits and lists.
    - PS2Types.v: the constants, commands, requests and messages of ApplePS2Device.h and
      VoodooPS2Controller.h.
    - RingBuffer.v, RingSpec.v: the template [RingBuffer] of ApplePS2Device.h, and its
      refinement of a bounded queue of packets.  RingLoop.v: the loop of [packetReady] as the
      mouse, Sentelic, Elan, Synaptics and ALPS drivers write it, over any driver with a ring
      (classes [PacketRing] and [PacketRingLaws]).
    - Controller.v, ControllerLemmas.v: VoodooPS2Controller.cpp and ApplePS2Device.cpp, operation
      by operation, with their frame and safety.  PortSpec.v (the port routines),
      ControllerSpec.v (requests, safety), LineSpec.v (command byte, multiplexing, interrupt
      lines), PowerSpec.v (sleep and wake), ServiceSpec.v (interrupts, messages, start and stop)
      state what it promises; TestBench.v is a concrete controller for the witnesses.
    - Config.v, ConfigSpec.v: the configuration nodes of VoodooPS2Controller.cpp (platform
      profile, links, the ACPI method RMCF, the merge).  OSTypes.v: the property-list
      objects of libkern as values.
    - Bus.v, BusController.v: the interface of the controller to a driver, and the
      controller as an instance of it.  DriverWorld.v: the world of a driver, and the rules
      by which one is shown to keep an invariant, whatever invariant bytes do not disturb
      (class [Undisturbed]); on a bus where the device is silent while it is spoken to (class
      [SilentBus]) that is every one.  Talk.v: commands and their answers.  Touch.v: the data
      of VoodooInput, and what is said of the contacts in an event.
    - FocalTech*.v: FocalTech/VoodooPS2FocalTech.h and Source/*.part0?.inc.
      FTE0001*.v: FocalTech/FTE0001.h and Source/FTE0001.inc.
    - KeyTables.v and KeyMap.v (the tables of ApplePS2ToADBMap.h and the key map),
      Keyboard.v (state and configuration), KeyboardRun.v (everything else), and their
      theorems in KeyboardInv.v, KeyboardSafe.v, KeyboardMacro.v, KeyboardLife.v and KeyboardScan.v:
      VoodooPS2Keyboard.cpp and .h.  KeyboardBench.v: a concrete host for witnesses.
    - Motion.v (packets of relative motion), Mouse*.v: VoodooPS2Mouse.cpp and .h.
      Sentelic*.v: VoodooPS2SentelicFSP.cpp and .h.
    - Trackpad.v and Averages.v: what the three big touchpad drivers share (settings, force
      touch, attached mice, the running average of VoodooPS2TrackpadCommon.h).
    - Elan.v and ElanDriver.v: VoodooPS2Elan.h and .cpp, all four hardware versions;
      ElanSafe.v and ElanRun.v show that the driver keeps its invariant, ElanSpec.v and
      ElanFrames.v what it promises.
    - Synaptics.v (data and bytes), SynapticsTouch.v (packets and the renumbering of fingers)
      and SynapticsDriver.v (reports, queries, settings, life cycle):
      VoodooPS2SynapticsTouchPad.h and .cpp.  SynapticsLinks.v, SynapticsFingers.v and
      SynapticsRenumber.v show that physical and virtual fingers stay linked one to one,
      SynapticsSafe.v and SynapticsRun.v that the driver keeps its invariant; SynapticsSpec.v and
      SynapticsCodec.v (framing and packets) what it promises.
    - Alps.v (data, tables and bytes), AlpsDecode.v (decoders and bitmaps), AlpsReport.v
      (contacts, buttons, packets), AlpsHardware.v (registers, initialisation of each version,
      identification) and AlpsDriver.v (settings, messages, life cycle):
      VoodooPS2ALPSGlidePoint.h and .cpp.  AlpsSafe.v, AlpsFound.v and AlpsLife.v show that
      the driver keeps its invariant; AlpsSpec.v and AlpsCodec.v (bitmaps and packets) what it
      promises.

    Definitions carry the names of the source.  A function of the source is one definition,
    or a main one with helpers for its loops and branches.

    ** What the theorems show

    - Data structures: the ring buffer is a bounded queue of whole packets under any
      interleaving of its two sides; the tables and the key map are well formed.
    - Safety: the controller, and each of the eight drivers over any bus that keeps its laws,
      never crash, whatever the hardware sends or answers and in whatever order their
      entry points are called; locks are taken and given back in turn.  The Elan
      driver needs packets that name only fingers it has room for, and crashes on
      others; the Synaptics driver is safe outside the quiet time after a key, and
      AlpsSpec.v needs a work loop that keeps up with the bytes, a touchpad that is silent
      while it is spoken to, versions other than 6 and 9 and a pad of more than one bit.
      What happens otherwise is proved too.  Each driver's [probe], [start] and [stop] are included.
    - The controller: the polling routines, their timeouts and their correction of bytes
      that arrive out of order; outcome and order of requests; interrupt lines; the
      multiplexing handshake; a consistent power state; delivery of all pending
      bytes; a configuration with its documented precedence.
    - From bytes to events: encoders of what a device sends, with round trips through
      interrupt routine, ring and work loop: FocalTech packets and contacts, FTE0001
      reports, mouse reports, Sentelic registers, Elan frames, Synaptics and ALPS packets, and
      the keyboard's scan codes, whose interrupt routine is a machine with a set of pressed
      keys.  Bitmaps of touched lines are read as their runs, and running averages are
      averages.
    - Behaviour over time: clicks and the force click, the simulated middle button, and
      macro inversion, which loses and reorders no key.
    - Errors: where the code does not do what it means to, a theorem says so.

    ** Loops

    A loop of the source is structural recursion where it counts; [loop size body] where it
    does not: it runs [body] with as much fuel as [size] of the world it starts in, plus
    one.  For the work loops [size] is the number of waiting elements of the ring, and the
    drain theorems show that this is enough; for the polling loops of the controller the
    source bounds the rounds itself (20000); the drain of the interrupt routine is
    bounded by the answers the hardware still has.  Links between platform profiles are
    followed with [linkFuel], one more than there are names; [links_end_or_loop] shows that
    a search that needs more never ends.  Retries have the source's numbers.

    ** Parameters

    Code and facts outside of src/ are parameters: the answers of the hardware; the clock
    and [absolutetime_to_nanoseconds]; ACPI, the I/O registry, the DSDT and RMCF; the
    matching of services and the SMBus companion of the Synaptics driver; the kernel's boot
    arguments; [VOODOO_INPUT_MAX_TRANSDUCERS], the number of finger types and what
    VoodooInput does with an event; the [NX_] codes of IOKit's HID headers and the Bluetooth class codes;
    bytes of the stack that the code reads before it writes them; and the
    drivers' actions where the controller calls them.  Where a theorem needs something
    of one of them it is a hypothesis or a class law, with a concrete instance in the
    witness.

    ** Not modelled

    The ACPI nub and the SMBus device nub are glue without logic of their own.
    The kernel debugger's keystroke and the watchdog timer are compiled out in the
    project's configuration, as is everything under DEBUG; the log is left out.  Calls
    to [super::] and allocations succeed.  The I/O Kit gates serialise the entry points, so
    an interleaving is a sequence of them, with interrupts inside calls into the
    controller.  Notifications for mice that are attached while a touchpad driver
    registers for them come as events after [start]. *)
From stdpp Require Export base list numbers gmap strings.
From Stdlib Require Export ZArith Lia Bool.

#[global] Open Scope Z_scope.

Declare Scope ps2_scope.
Delimit Scope ps2_scope with ps2.
#[global] Open Scope ps2_scope.

(** ** Machine integers

    Every C integer is a [Z]; the functions below are the conversions the code
    performs implicitly when it stores a value in a variable of that width. *)

(** [UInt8], [UInt16], [UInt32], [UInt64]. *)
Definition u8 (z : Z) : Z := z mod 256.
Definition u16 (z : Z) : Z := z mod 65536.
Definition u32 (z : Z) : Z := z mod 4294967296.
Definition u64 (z : Z) : Z := z mod 18446744073709551616.

(** [SInt8], [SInt16] and [SInt32] (two's complement). *)
Definition s8 (z : Z) : Z := (z + 128) mod 256 - 128.
Definition s16 (z : Z) : Z := (z + 32768) mod 65536 - 32768.
Definition s32 (z : Z) : Z := (z + 2147483648) mod 4294967296 - 2147483648.

(** A value that a [UInt8] can hold. *)
Definition is_byte (z : Z) : Prop := 0 <= z < 256.

(** Bit clearing: C's [a & ~b] on unsigned operands of the same width. *)
Definition clear_bits (a b : Z) : Z := Z.ldiff a b.

(** A C condition on an integer: non-zero is true. *)
Definition nz (z : Z) : bool := negb (z =? 0).

(** Array access [l[i]] with a C index; [None] is an access out of bounds. *)
Definition arr_get {A} (l : list A) (i : Z) : option A :=
  if i <? 0 then None else l !! Z.to_nat i.

(** Array update [l[i] = x]; [None] is a write out of bounds. *)
Definition arr_set {A} (l : list A) (i : Z) (x : A) : option (list A) :=
  if (0 <=? i) && (i <? Z.of_nat (length l)) then Some (<[Z.to_nat i := x]> l) else None.

(** [for (x : l) a = f x a;] where a step may leave an array. *)
Fixpoint fold_opt {A B} (f : B -> A -> option A) (l : list B) (a : A) : option A :=
  match l with
  | [] => Some a
  | x :: l' => a ← f x a; fold_opt f l' a
  end.

(** ** Effects

    A computation over a state [S] ends with a value ([Ok]), stops because it
    polls hardware that has not answered yet ([Wait]), or does something the C++
    code has no defined result for: an access out of bounds, a null pointer, a
    failed assertion or a lock taken twice ([Crash]). *)

Inductive outcome (A : Type) : Type :=
| Ok (a : A)
| Wait
| Crash.
Arguments Ok {A} a.
Arguments Wait {A}.
Arguments Crash {A}.

Definition M (S A : Type) : Type := S -> outcome (S * A).

Definition ret {S A} (a : A) : M S A := fun s => Ok (s, a).

Definition bind {S A B} (m : M S A) (k : A -> M S B) : M S B := fun s =>
  match m s with
  | Ok (s', a) => k a s'
  | Wait => Wait
  | Crash => Crash
  end.

(** [M S] uses stdpp's monadic notations: [x ← m; k] and [m ;; k]. *)
#[export] Instance M_ret (S : Type) : MRet (M S) := fun A a => ret a.
#[export] Instance M_bind (S : Type) : MBind (M S) := fun A B k m => bind m k.

Definition get {S} : M S S := fun s => Ok (s, s).
Definition put {S} (s : S) : M S unit := fun _ => Ok (s, tt).
Definition gets {S A} (f : S -> A) : M S A := fun s => Ok (s, f s).
Definition modify {S} (f : S -> S) : M S unit := fun s => Ok (f s, tt).
Definition crash {S A} : M S A := fun _ => Crash.
Definition wait {S A} : M S A := fun _ => Wait.

(** [if (b) m;] *)
Definition when {S} (b : bool) (m : M S unit) : M S unit := if b then m else ret tt.

(** Dereferencing: a null pointer or an index out of range crashes. *)
Definition deref {S A} (o : option A) : M S A :=
  match o with Some a => ret a | None => crash end.

(** [for (x : l) f x;] *)
Fixpoint for_each {S A} (l : list A) (f : A -> M S unit) : M S unit :=
  match l with
  | [] => ret tt
  | x :: l' => f x ;; for_each l' f
  end.

(** Loops.  The body returns [inl a] to go round again and [inr b] to leave.
    [loop size] allows as many rounds as the state has [size] left; every loop of
    the program consumes something (a hardware answer, a queued packet) in each
    round that continues, and [loop_unfold] then says that the bound is never the
    reason a loop stops. *)
Fixpoint iter {S A B} (fuel : nat) (body : A -> M S (A + B)) (a : A) : M S B := fun s =>
  match fuel with
  | O => Wait
  | Datatypes.S f =>
    match body a s with
    | Ok (s', inl a') => iter f body a' s'
    | Ok (s', inr b) => Ok (s', b)
    | Wait => Wait
    | Crash => Crash
    end
  end.

Definition loop {S A B} (size : S -> nat) (body : A -> M S (A + B)) (a : A) : M S B := fun s =>
  iter (Datatypes.S (size s)) body a s.

(** ** Weakest preconditions

    [wp m Q s]: from [s], [m] does not crash, and if it ends then [Q] holds.
    [total m Q s]: from [s], [m] ends and [Q] holds. *)
Definition wp {S A} (m : M S A) (Q : A -> S -> Prop) (s : S) : Prop :=
  match m s with
  | Ok (s', a) => Q a s'
  | Wait => True
  | Crash => False
  end.

Definition total {S A} (m : M S A) (Q : A -> S -> Prop) (s : S) : Prop :=
  exists s' a, m s = Ok (s', a) /\ Q a s'.

Section Wp.
Context {S : Type}.
Implicit Types (s : S).

Lemma wp_ret {A} (a : A) (Q : A -> S -> Prop) s : Q a s -> wp (ret a) Q s.
Proof. done. Qed.

Lemma wp_bind {A B} (m : M S A) (k : A -> M S B) Q s :
  wp m (fun a s' => wp (k a) Q s') s -> wp (m ≫= k) Q s.
Proof. unfold wp, mbind, M_bind, bind. destruct (m s) as [[s' a]| |]; done. Qed.

Lemma wp_mono {A} (m : M S A) (Q R : A -> S -> Prop) s :
  wp m Q s -> (forall a s', Q a s' -> R a s') -> wp m R s.
Proof. unfold wp. destruct (m s) as [[s' a]| |]; auto. Qed.

Lemma wp_gets {A} (f : S -> A) (Q : A -> S -> Prop) s : Q (f s) s -> wp (gets f) Q s.
Proof. done. Qed.

Lemma wp_modify (f : S -> S) (Q : unit -> S -> Prop) s : Q tt (f s) -> wp (modify f) Q s.
Proof. done. Qed.

Lemma wp_when (b : bool) (m : M S unit) Q s :
  (b = true -> wp m Q s) -> (b = false -> Q tt s) -> wp (when b m) Q s.
Proof. destruct b; unfold when; intros; [auto | apply wp_ret; auto]. Qed.

Lemma wp_deref {A} (o : option A) (Q : A -> S -> Prop) s :
  (exists a, o = Some a /\ Q a s) -> wp (deref o) Q s.
Proof. intros (a & -> & ?). done. Qed.

Lemma wp_for_each {A} (l : list A) (f : A -> M S unit) (I : S -> Prop) s :
  I s -> (forall x s', x ∈ l -> I s' -> wp (f x) (fun _ s'' => I s'') s') ->
  wp (for_each l f) (fun _ s' => I s') s.
Proof.
  revert s. induction l as [|x l IH]; intros s Hs Hf; simpl; [done|].
  apply wp_bind. eapply wp_mono; [apply Hf; [set_solver|done]|].
  intros [] s' Hs'. apply IH; [done|]. intros. apply Hf; set_solver.
Qed.

Lemma wp_conj {A} (m : M S A) Q R s : wp m Q s -> wp m R s -> wp m (fun a s' => Q a s' /\ R a s') s.
Proof. unfold wp. destruct (m s) as [[s' a]| |]; auto. Qed.

(** The outcome of a computation known by [wp]. *)
Lemma wp_ok {A} (m : M S A) Q s s' a : wp m Q s -> m s = Ok (s', a) -> Q a s'.
Proof. unfold wp. intros H E. by rewrite E in H. Qed.

Lemma wp_not_crash {A} (m : M S A) Q s : wp m Q s -> m s <> Crash.
Proof. unfold wp. by destruct (m s). Qed.

Lemma bind_ok {A B} (m : M S A) (k : A -> M S B) s s' a :
  m s = Ok (s', a) -> (m ≫= k) s = k a s'.
Proof. unfold mbind, M_bind, bind. by intros ->. Qed.

Lemma bind_assoc {A B C} (m : M S A) (f : A -> M S B) (g : B -> M S C) s :
  ((m ≫= f) ≫= g) s = (m ≫= (fun a => f a ≫= g)) s.
Proof. unfold mbind, M_bind, bind. by destruct (m s) as [[s' a]| |]. Qed.

Lemma bind_same {A B} (m m' : M S A) (k : A -> M S B) s :
  m s = m' s -> (m ≫= k) s = (m' ≫= k) s.
Proof. unfold mbind, M_bind, bind. by intros ->. Qed.

Lemma bind_ext {A B} (m : M S A) (k k' : A -> M S B) s :
  (forall a s', k a s' = k' a s') -> (m ≫= k) s = (m ≫= k') s.
Proof. intros E. unfold mbind, M_bind, bind. destruct (m s) as [[s' a]| |]; auto. Qed.

Lemma bind_inv {A B} (m : M S A) (k : A -> M S B) s s' b :
  (m ≫= k) s = Ok (s', b) -> exists s1 a, m s = Ok (s1, a) /\ k a s1 = Ok (s', b).
Proof. unfold mbind, M_bind, bind. destruct (m s) as [[s1 a]| |]; [eauto|done|done]. Qed.

Lemma total_bind {A B} (m : M S A) (k : A -> M S B) Q s :
  total m (fun a s' => total (k a) Q s') s -> total (m ≫= k) Q s.
Proof.
  intros (s1 & a & Hm & s2 & b & Hk & HQ). exists s2, b. by rewrite (bind_ok _ _ _ _ _ Hm).
Qed.

Lemma total_ret {A} (a : A) (Q : A -> S -> Prop) s : Q a s -> total (ret a) Q s.
Proof. intros. by exists s, a. Qed.

Lemma total_mono {A} (m : M S A) (Q R : A -> S -> Prop) s :
  total m Q s -> (forall a s', Q a s' -> R a s') -> total m R s.
Proof. intros (s' & a & Hm & HQ) HR. exists s', a. auto. Qed.

Lemma total_gets {A} (f : S -> A) (Q : A -> S -> Prop) s : Q (f s) s -> total (gets f) Q s.
Proof. intros. by exists s, (f s). Qed.

Lemma total_modify (f : S -> S) (Q : unit -> S -> Prop) s : Q tt (f s) -> total (modify f) Q s.
Proof. intros. by exists (f s), tt. Qed.

Lemma total_deref {A} (o : option A) (Q : A -> S -> Prop) s :
  (exists a, o = Some a /\ Q a s) -> total (deref o) Q s.
Proof. intros (a & -> & ?). by exists s, a. Qed.

Lemma total_wp {A} (m : M S A) (Q : A -> S -> Prop) s : total m Q s -> wp m Q s.
Proof. intros (s' & a & H & ?). unfold wp. by rewrite H. Qed.

End Wp.

Section Loop.
Context {S A B : Type} (size : S -> nat) (body : A -> M S (A + B)).

(** Every round that goes on consumes some of the state's [size]. *)
Definition consuming : Prop :=
  forall a s s' a', body a s = Ok (s', inl a') -> (size s' < size s)%nat.

Lemma iter_fuel f1 f2 a s :
  consuming -> (size s < f1)%nat -> (size s < f2)%nat -> iter f1 body a s = iter f2 body a s.
Proof.
  intros Hc. revert f2 a s. induction f1 as [|f1 IH]; intros f2 a s H1 H2; [lia|].
  destruct f2 as [|f2]; [lia|]. simpl.
  destruct (body a s) as [[s' [a'|b]]| |] eqn:E; [|done..].
  apply Hc in E. apply IH; lia.
Qed.

(** A consuming loop is its own unfolding. *)
Lemma loop_unfold a s :
  consuming ->
  loop size body a s =
  match body a s with
  | Ok (s', inl a') => loop size body a' s'
  | Ok (s', inr b) => Ok (s', b)
  | Wait => Wait
  | Crash => Crash
  end.
Proof.
  intros Hc. unfold loop at 1. simpl.
  destruct (body a s) as [[s' [a'|b]]| |] eqn:E; [|done..].
  apply Hc in E. apply iter_fuel; [done|lia|lia].
Qed.

(** Invariants of loops. *)
Lemma wp_loop (I : A -> S -> Prop) (Q : B -> S -> Prop) a s :
  I a s ->
  (forall a s, I a s -> wp (body a) (fun r s' => match r with inl a' => I a' s' | inr b => Q b s' end) s) ->
  wp (loop size body a) Q s.
Proof.
  intros Hi Hb. unfold wp, loop. generalize (Datatypes.S (size s)). intros fuel.
  revert a s Hi. induction fuel as [|f IH]; intros a s Hi; [done|]. simpl.
  specialize (Hb a s Hi). unfold wp in Hb.
  destruct (body a s) as [[s' [a'|b]]| |]; [|done..]. by apply IH.
Qed.

End Loop.

(** Walks through a computation in [wp] form. *)
Ltac wp_step :=
  match goal with
  | |- wp (_ ≫= _) _ _ => apply wp_bind
  | |- wp (ret _) _ _ => apply wp_ret
  | |- wp (gets _) _ _ => apply wp_gets
  | |- wp (modify _) _ _ => apply wp_modify
  | |- wp (when _ _) _ _ => apply wp_when; intros ?
  | |- wp (match ?x with _ => _ end) _ _ => destruct x eqn:?
  end.

(** ** Arithmetic of machine integers *)

Create HintDb ps2.

Lemma u8_range z : 0 <= u8 z < 256.
Proof. unfold u8. apply Z.mod_pos_bound; lia. Qed.

Lemma u32_range z : 0 <= u32 z < 4294967296.
Proof. unfold u32. apply Z.mod_pos_bound; lia. Qed.

Lemma u8_small z : 0 <= z < 256 -> u8 z = z.
Proof. apply Z.mod_small. Qed.

Lemma u16_small z : 0 <= z < 65536 -> u16 z = z.
Proof. apply Z.mod_small. Qed.

Lemma u32_small z : 0 <= z < 4294967296 -> u32 z = z.
Proof. apply Z.mod_small. Qed.

Lemma s32_small z : -2147483648 <= z < 2147483648 -> s32 z = z.
Proof. intros. unfold s32. rewrite Z.mod_small; lia. Qed.

Lemma s16_small z : -32768 <= z < 32768 -> s16 z = z.
Proof. intros. unfold s16. rewrite Z.mod_small; lia. Qed.

Lemma s32_range z : -2147483648 <= s32 z < 2147483648.
Proof. unfold s32. pose proof (Z.mod_pos_bound (z + 2147483648) 4294967296). lia. Qed.

Lemma s8_range z : -128 <= s8 z < 128.
Proof. unfold s8. pose proof (Z.mod_pos_bound (z + 128) 256). lia. Qed.

(** A non-negative value whose bits above [n] are all clear fits in [n] bits. *)
Lemma testbit_bound a n :
  0 <= n -> 0 <= a -> (forall i, n <= i -> Z.testbit a i = false) -> a < 2 ^ n.
Proof.
  intros Hn Ha Hb. destruct (Z.eq_dec a 0) as [->|Hne]; [by apply Z.pow_pos_nonneg|].
  apply Z.log2_lt_pow2; [lia|]. destruct (Z.lt_ge_cases (Z.log2 a) n) as [|Hge]; [done|].
  specialize (Hb _ Hge). rewrite Z.bit_log2 in Hb; [done|lia].
Qed.

Lemma testbit_high a n i : 0 <= a < 2 ^ n -> n <= i -> Z.testbit a i = false.
Proof.
  intros Ha Hi. destruct (Z.eq_dec a 0) as [->|]; [apply Z.testbit_0_l|].
  destruct (Z.lt_ge_cases n 0) as [Hn|Hn].
  { rewrite Z.pow_neg_r in Ha by done. lia. }
  apply Z.bits_above_log2; [lia|].
  apply Z.lt_le_trans with n; [apply Z.log2_lt_pow2; lia|done].
Qed.

Lemma land_bound a b n : 0 <= n -> 0 <= a < 2 ^ n -> 0 <= Z.land a b < 2 ^ n.
Proof.
  intros Hn Ha. split; [apply Z.land_nonneg; lia|].
  apply testbit_bound; [done|apply Z.land_nonneg; lia|].
  intros i Hi. by rewrite Z.land_spec, (testbit_high a n) by done.
Qed.

Lemma lor_bound a b n : 0 <= n -> 0 <= a < 2 ^ n -> 0 <= b < 2 ^ n -> 0 <= Z.lor a b < 2 ^ n.
Proof.
  intros Hn Ha Hb. split; [apply Z.lor_nonneg; lia|].
  apply testbit_bound; [done|apply Z.lor_nonneg; lia|].
  intros i Hi. by rewrite Z.lor_spec, (testbit_high a n), (testbit_high b n).
Qed.

Lemma ldiff_bound a b n : 0 <= n -> 0 <= a < 2 ^ n -> 0 <= Z.ldiff a b < 2 ^ n.
Proof.
  intros Hn Ha. split; [apply Z.ldiff_nonneg; lia|].
  apply testbit_bound; [done|apply Z.ldiff_nonneg; lia|].
  intros i Hi. by rewrite Z.ldiff_spec, (testbit_high a n).
Qed.

(** Packing and extracting bit fields. *)
Lemma lor_shiftl_add a b n : 0 <= n -> 0 <= b < 2 ^ n -> Z.lor (Z.shiftl a n) b = a * 2 ^ n + b.
Proof.
  intros Hn Hb. rewrite <- Z.shiftl_mul_pow2 by done.
  assert (Hl : Z.land (Z.shiftl a n) b = 0).
  { apply Z.bits_inj'. intros i Hi. rewrite Z.land_spec, Z.bits_0.
    destruct (Z.lt_ge_cases i n).
    - by rewrite Z.shiftl_spec_low.
    - rewrite (testbit_high b n) by done. apply andb_false_r. }
  by rewrite <- Z.lxor_lor, Z.add_nocarry_lxor by done.
Qed.

Lemma land_low n a : 0 <= n -> Z.land a (Z.ones n) = a mod 2 ^ n.
Proof. apply Z.land_ones. Qed.

Lemma s8_u8 z : -128 <= z < 128 -> s8 (z mod 256) = z.
Proof.
  intros. unfold s8. pose proof (Z.div_mod z 256 ltac:(lia)).
  replace (z mod 256 + 128) with (z + 128 + (- (z / 256)) * 256) by lia.
  rewrite Z.mod_add by lia. rewrite Z.mod_small; lia.
Qed.

Lemma nz_b2z b : nz (Z.b2z b) = b.
Proof. by destruct b. Qed.

(** ** Arrays *)

Lemma arr_set_length {T} (l l' : list T) i x : arr_set l i x = Some l' -> length l' = length l.
Proof.
  unfold arr_set. destruct (_ && _); [|done]. intros [= <-]. apply length_insert.
Qed.

Lemma arr_set_Some {T} (l : list T) i x :
  0 <= i < Z.of_nat (length l) -> arr_set l i x = Some (<[Z.to_nat i := x]> l).
Proof.
  intros Hi. unfold arr_set.
  rewrite (proj2 (Z.leb_le _ _)), (proj2 (Z.ltb_lt _ _)) by lia. done.
Qed.

Lemma arr_get_Some {T} (l : list T) i :
  0 <= i < Z.of_nat (length l) -> exists x, arr_get l i = Some x /\ l !! Z.to_nat i = Some x.
Proof.
  intros Hi. unfold arr_get. rewrite (proj2 (Z.ltb_ge _ _)) by lia.
  destruct (lookup_lt_is_Some_2 l (Z.to_nat i)) as [x Hx]; [lia|]. eauto.
Qed.

Lemma arr_get_bound {T} (l : list T) i x :
  arr_get l i = Some x -> 0 <= i < Z.of_nat (length l).
Proof.
  unfold arr_get. destruct (Z.ltb_spec i 0); [done|]. intros Hx. apply lookup_lt_Some in Hx. lia.
Qed.

Lemma arr_get_insert {T} (l : list T) i j x :
  0 <= i < Z.of_nat (length l) -> 0 <= j ->
  arr_get (<[Z.to_nat i := x]> l) j = if i =? j then Some x else arr_get l j.
Proof.
  intros Hi Hj. unfold arr_get. rewrite (proj2 (Z.ltb_ge j 0)) by lia.
  destruct (Z.eqb_spec i j) as [->|].
  - apply list_lookup_insert_eq. lia.
  - apply list_lookup_insert_ne. lia.
Qed.

(** An invariant of such a loop, which may depend on what is still to come. *)
Lemma fold_opt_inv {A B} (f : B -> A -> option A) (I : list B -> A -> Prop) l a :
  I l a -> (forall x l a, I (x :: l) a -> exists a', f x a = Some a' /\ I l a') ->
  exists a', fold_opt f l a = Some a' /\ I [] a'.
Proof.
  intros Ha Hf. revert a Ha. induction l as [|x l IH]; intros a Ha; [by exists a|].
  destruct (Hf x l a Ha) as (a1 & E & H1). simpl. rewrite E. by apply IH.
Qed.

(** ... over [start], [start + 1], ... *)
Lemma fold_opt_seqZ {A} (f : Z -> A -> option A) (I : Z -> A -> Prop) start n a :
  0 <= n -> I start a ->
  (forall i a, start <= i < start + n -> I i a -> exists a', f i a = Some a' /\ I (i + 1) a') ->
  exists a', fold_opt f (seqZ start n) a = Some a' /\ I (start + n) a'.
Proof.
  intros Hn. pattern n. revert start a. pattern n. apply natlike_ind; [|clear n Hn; intros n Hn IH|done]; intros start a Ha Hf.
  - exists a. by rewrite Z.add_0_r.
  - rewrite seqZ_cons by lia. destruct (Hf start a) as (a1 & E & H1); [lia|done|]. cbn [fold_opt]. rewrite E, Z.pred_succ.
    replace (start + Z.succ n) with (Z.succ start + n) by lia. apply (IH (Z.succ start) a1 H1).
    intros i b Hi. apply Hf. lia.
Qed.

(** ** Results of loops *)

(** A property of every value the body leaves the loop with. *)
Lemma loop_result {S A B} (size : S -> nat) (body : A -> M S (A + B)) (Q : B -> Prop) a s s' b :
  (forall a s s' b, body a s = Ok (s', inr b) -> Q b) -> loop size body a s = Ok (s', b) -> Q b.
Proof.
  intros Hb. unfold loop. generalize (Datatypes.S (size s)). intros f. revert a s.
  induction f as [|f IH]; intros a s E; simpl in E; [done|].
  destruct (body a s) as [[s1 [a1|b1]]| |] eqn:E1; try done; [by eapply IH|].
  injection E as <- <-. by eapply Hb.
Qed.

(** A check of all small numbers. *)
Lemma for_below (n : Z) (P : Z -> bool) : forallb P (seqZ 0 n) = true -> forall i, 0 <= i < n -> P i = true.
Proof. intros H i Hi. rewrite forallb_forall in H. apply H. apply list_elem_of_In, elem_of_seqZ. lia. Qed.

Lemma last_cons_default {T} (l : list T) (x d : T) : List.last (x :: l) d = List.last l x.
Proof.
  revert x d. induction l as [|y l IH]; intros x d; [done|].
  change (List.last (x :: y :: l) d) with (List.last (y :: l) d). by rewrite !IH.
Qed.
