(* ===== verification/PS2Types.v ===== *)
(** * Commands, requests and messages

    The constants and plain data of VoodooPS2Controller/ApplePS2Device.h and
    VoodooPS2Controller/VoodooPS2Controller.h that the controller and every device
    driver share. *)
From S2P Require Import Prelude.

(** ** Data port (0x60) commands *)
Definition kDP_SetMouseScaling1To1 : Z := 0xE6.
Definition kDP_SetMouseScaling2To1 : Z := 0xE7.
Definition kDP_SetMouseResolution : Z := 0xE8.
Definition kDP_GetMouseInformation : Z := 0xE9.
Definition kDP_SetMouseStreamMode : Z := 0xEA.
Definition kDP_MousePoll : Z := 0xEB.
Definition kDP_MouseResetWrap : Z := 0xEC.
Definition kDP_SetKeyboardLEDs : Z := 0xED.
Definition kDP_TestKeyboardEcho : Z := 0xEE.
Definition kDP_GetSetKeyboardASCs : Z := 0xF0.
Definition kDP_MouseSetPoll : Z := 0xF0.
Definition kDP_GetId : Z := 0xF2.
Definition kDP_SetKeyboardTypematic : Z := 0xF3.
Definition kDP_SetMouseSampleRate : Z := 0xF3.
Definition kDP_Enable : Z := 0xF4.
Definition kDP_SetDefaultsAndDisable : Z := 0xF5.
Definition kDP_SetDefaults : Z := 0xF6.
Definition kDP_SetAllTypematic : Z := 0xF7.
Definition kDP_SetAllMakeRelease : Z := 0xF8.
Definition kDP_SetAllMakeOnly : Z := 0xF9.
Definition kDP_SetAllTypematicMakeRelease : Z := 0xFA.
Definition kDP_SetKeyMakeRelease : Z := 0xFB.
Definition kDP_SetKeyMakeOnly : Z := 0xFC.
Definition kDP_Reset : Z := 0xFF.

(** ** Command port (0x64) commands *)
Definition kCP_GetCommandByte : Z := 0x20.
Definition kCP_ReadControllerRAMBase : Z := 0x21.
Definition kCP_SetCommandByte : Z := 0x60.
Definition kCP_WriteControllerRAMBase : Z := 0x61.
Definition kCP_TransmitToMuxedMouse : Z := 0x90.
Definition kCP_TestPassword : Z := 0xA4.
Definition kCP_GetPassword : Z := 0xA5.
Definition kCP_VerifyPassword : Z := 0xA6.
Definition kCP_DisableMouseClock : Z := 0xA7.
Definition kCP_EnableMouseClock : Z := 0xA8.
Definition kCP_TestMousePort : Z := 0xA9.
Definition kCP_TestController : Z := 0xAA.
Definition kCP_TestKeyboardPort : Z := 0xAB.
Definition kCP_GetControllerDiagnostic : Z := 0xAC.
Definition kCP_DisableKeyboardClock : Z := 0xAD.
Definition kCP_EnableKeyboardClock : Z := 0xAE.
Definition kCP_ReadInputPort : Z := 0xC0.
Definition kCP_PollInputPortLow : Z := 0xC1.
Definition kCP_PollInputPortHigh : Z := 0xC2.
Definition kCP_ReadOutputPort : Z := 0xD0.
Definition kCP_WriteOutputPort : Z := 0xD1.
Definition kCP_WriteKeyboardOutputBuffer : Z := 0xD2.
Definition kCP_WriteMouseOutputBuffer : Z := 0xD3.
Definition kCP_TransmitToMouse : Z := 0xD4.
Definition kCP_ReadTestInputs : Z := 0xE0.
Definition kCP_PulseOutputBitBase : Z := 0xF0.

(** ** Bits of the command byte and of the LED register, special scan codes *)
Definition kCB_EnableKeyboardIRQ : Z := 0x01.
Definition kCB_EnableMouseIRQ : Z := 0x02.
Definition kCB_SystemFlag : Z := 0x04.
Definition kCB_InhibitOverride : Z := 0x08.
Definition kCB_DisableKeyboardClock : Z := 0x10.
Definition kCB_DisableMouseClock : Z := 0x20.
Definition kCB_TranslateMode : Z := 0x40.
Definition kLED_ScrollLock : Z := 0x01.
Definition kLED_NumLock : Z := 0x02.
Definition kLED_CapsLock : Z := 0x04.
Definition kSC_Acknowledge : Z := 0xFA.
Definition kSC_Extend : Z := 0xE0.
Definition kSC_Pause : Z := 0xE1.
Definition kSC_Resend : Z := 0xFE.
Definition kSC_Reset : Z := 0xAA.
Definition kSC_UpBit : Z := 0x80.
Definition kSC_ID : Z := 0x00.
Definition kSC_Alt : Z := 0x38.
Definition kSC_Ctrl : Z := 0x1D.
Definition kSC_ShiftLeft : Z := 0x2A.
Definition kSC_ShiftRight : Z := 0x36.
Definition kSC_WindowsLeft : Z := 0x5B.
Definition kSC_WindowsRight : Z := 0x5C.
Definition kSC_Delete : Z := 0x53.
Definition kSC_NumLock : Z := 0x45.

(** ** The controller's interrupts, ports, status bits and multiplexing *)
Definition kIRQ_Keyboard : Z := 1.
Definition kIRQ_Mouse : Z := 12.
Definition kDataDelay : Z := 7.
Definition kDataPort : Z := 0x60.
Definition kCommandPort : Z := 0x64.
Definition kOutputReady : Z := 0x01.
Definition kInputBusy : Z := 0x02.
Definition kSystemFlag : Z := 0x04.
Definition kCommandLastSent : Z := 0x08.
Definition kKeyboardInhibited : Z := 0x10.
Definition kMouseData : Z := 0x20.
Definition kDP_MuxCmd : Z := 0xF0.
Definition kDP_EnableMuxCmd1 : Z := 0x56.
Definition kDP_GetMuxVersion : Z := 0xA4.
Definition kDP_DisableMuxCmd1 : Z := 0xF6.
Definition kDP_DisableMuxCmd2 : Z := 0xA5.
Definition RESET_CONTROLLER_ON_BOOT : Z := 1.
Definition RESET_CONTROLLER_ON_WAKEUP : Z := 2.
Definition PS2_MUX_PORTS : Z := 4.
Definition PS2_STA_MUX_MASK : Z := 0x03.
Definition PS2_STA_MUX_SHIFT : Z := 0x06.

(** The device slots: the keyboard, and one or four auxiliary ports. *)
Definition kPS2KbdIdx : Z := 0.
Definition kPS2AuxIdx : Z := 1.
Definition kPS2AuxMaxIdx : Z := 2.
Definition kPS2MuxMaxIdx : Z := PS2_MUX_PORTS + 1.

Definition kPS2PowerStateSleep : Z := 0.
Definition kPS2PowerStateDoze : Z := 1.
Definition kPS2PowerStateNormal : Z := 2.

(** [whatToDo] of a power control action. *)
Definition kPS2C_DisableDevice : Z := 0.
Definition kPS2C_EnableDevice : Z := 1.

(** ** Commands *)

Inductive PS2CommandEnum :=
| kPS2C_ReadDataPort
| kPS2C_ReadDataPortAndCompare
| kPS2C_WriteDataPort
| kPS2C_SendCommandAndCompareAck
| kPS2C_FlushDataPort
| kPS2C_SleepMS
| kPS2C_ModifyCommandByte.

#[global] Instance PS2CommandEnum_eq_dec : EqDecision PS2CommandEnum.
Proof. solve_decision. Defined.

(** The union of a command is four bytes of storage, least significant first:
    [inOrOut] and [setBits] are the first byte, [clearBits] the second, [oldBits]
    the third, [inOrOut32] all four. *)
Record PS2Command := mkCommand {
  command : PS2CommandEnum;
  byte0 : Z;
  byte1 : Z;
  byte2 : Z;
  byte3 : Z }.

Definition inOrOut (c : PS2Command) : Z := byte0 c.
Definition setBits (c : PS2Command) : Z := byte0 c.
Definition clearBits (c : PS2Command) : Z := byte1 c.
Definition oldBits (c : PS2Command) : Z := byte2 c.
Definition inOrOut32 (c : PS2Command) : Z :=
  byte0 c + 256 * byte1 c + 65536 * byte2 c + 16777216 * byte3 c.

Definition set_inOrOut (z : Z) (c : PS2Command) : PS2Command := {| c with byte0 := u8 z |}.
Definition set_oldBits (z : Z) (c : PS2Command) : PS2Command := {| c with byte2 := u8 z |}.
Definition set_inOrOut32 (z : Z) (c : PS2Command) : PS2Command :=
  {| c with byte0 := u8 z; byte1 := u8 (z / 256); byte2 := u8 (z / 65536);
            byte3 := u8 (z / 16777216) |}.

(** [c.command = k; c.inOrOut = z;] on storage whose other bytes are zero. *)
Definition cmd (k : PS2CommandEnum) (z : Z) : PS2Command := mkCommand k (u8 z) 0 0 0.
(** [c.command = k; c.inOrOut32 = z;] *)
Definition cmd32 (k : PS2CommandEnum) (z : Z) : PS2Command :=
  set_inOrOut32 z (mkCommand k 0 0 0 0).
(** [c.command = kPS2C_ModifyCommandByte; c.setBits = s; c.clearBits = cl;] *)
Definition cmdModify (s cl : Z) : PS2Command :=
  mkCommand kPS2C_ModifyCommandByte (u8 s) (u8 cl) 0 0.

(** ** Requests *)

Definition kMaxCommands : Z := 30.

(** A completion target: null, the marker of a request on the stack, or an
    object, which a number identifies. *)
Inductive CompletionTarget :=
| NoTarget
| kStackCompletionTarget
| Target (object : Z).

#[global] Instance CompletionTarget_eq_dec : EqDecision CompletionTarget.
Proof. solve_decision. Defined.

(** [completionAction] says whether the pointer is non-null; [commands] has one
    element per allocated command. *)
Record PS2Request := mkRequest {
  port : Z;
  commandsCount : Z;
  completionTarget : CompletionTarget;
  completionAction : bool;
  completionParam : Z;
  commands : list PS2Command }.

(** [TPS2Request<max> r;] filled with [l] and [r.commandsCount = n]. *)
Definition TPS2Request (n : Z) (l : list PS2Command) : PS2Request :=
  mkRequest 0 (u8 n) kStackCompletionTarget false 0 l.

(** ** Results and messages *)

Inductive PS2InterruptResult :=
| kPS2IR_packetReady
| kPS2IR_packetBuffering.

#[global] Instance PS2InterruptResult_eq_dec : EqDecision PS2InterruptResult.
Proof. solve_decision. Defined.

Definition is_packetReady (r : PS2InterruptResult) : bool :=
  match r with kPS2IR_packetReady => true | kPS2IR_packetBuffering => false end.

(** The vendor-specific messages; [kOtherMessage] is any other value. *)
Inductive PS2Message :=
| kPS2M_setDisableTouchpad
| kPS2M_getDisableTouchpad
| kPS2M_notifyKeyPressed
| kPS2M_notifyKeyTime
| kPS2M_resetTouchpad
| kPS2K_setKeyboardStatus
| kPS2K_getKeyboardStatus
| kPS2K_notifyKeystroke
| kOtherMessage (m : Z).

#[global] Instance PS2Message_eq_dec : EqDecision PS2Message.
Proof. solve_decision. Defined.

Record PS2KeyInfo := mkKeyInfo {
  ki_time : Z;
  adbKeyCode : Z;
  goingDown : bool;
  eatKey : bool }.
