(* ===== verification/RingBuffer.v ===== *)
(** * The drivers' ring buffer

    [RingBuffer<T, N>] of VoodooPS2Controller/ApplePS2Device.h: the class every
    driver uses to carry bytes from its interrupt routine to its work loop.
    The first section is the class, operation by operation.  The second gives it
    a queue of single elements as abstract state ([push], [fetch]); the third a
    queue of [P]-byte packets, which is how the drivers use it ([head], then
    [advanceHead P] in the interrupt routine; [tail], then [advanceTail P] in the
    work loop). *)
From S2P Require Import Prelude.

Section Class_.
Context {T : Type}.
Variable N : Z.

Record RingBuffer := mkRing {
  m_buffer : list T;
  m_head : Z;
  m_tail : Z }.

(** The private [count(head, tail)]. *)
Definition count_ (head tail : Z) : Z :=
  if tail <=? head then head - tail else u32 (N - tail + head).

Definition reset (rb : RingBuffer) : RingBuffer :=
  {| rb with m_head := 0; m_tail := 0 |}.

Definition count (rb : RingBuffer) : Z := count_ (m_head rb) (m_tail rb).

(** [None]: the store is out of the array's bounds. *)
Definition push (data : T) (rb : RingBuffer) : option RingBuffer :=
  let new_head := u32 (m_head rb + 1) in
  let new_head := if N <=? new_head then 0 else new_head in
  if negb (new_head =? m_tail rb) then
    b ← arr_set (m_buffer rb) (m_head rb) data;
    Some {| rb with m_buffer := b; m_head := new_head |}
  else Some rb.

Definition fetch (rb : RingBuffer) : option (T * RingBuffer) :=
  result ← arr_get (m_buffer rb) (m_tail rb);
  let t := u32 (m_tail rb + 1) in
  Some (result, {| rb with m_tail := if N <=? t then 0 else t |}).

(** [head()[i] = x] and [tail()[i]]: the pointers are only ever indexed. *)
Definition head_set (i : Z) (x : T) (rb : RingBuffer) : option RingBuffer :=
  b ← arr_set (m_buffer rb) (m_head rb + i) x;
  Some {| rb with m_buffer := b |}.

Definition head_get (i : Z) (rb : RingBuffer) : option T :=
  arr_get (m_buffer rb) (m_head rb + i).

Definition tail_get (i : Z) (rb : RingBuffer) : option T :=
  arr_get (m_buffer rb) (m_tail rb + i).

Definition advanceHead (move : Z) (rb : RingBuffer) : RingBuffer :=
  let new_head := u32 (m_head rb + move) in
  let new_head := if N <=? new_head then u32 (new_head - N) else new_head in
  if count rb <=? count_ new_head (m_tail rb)
  then {| rb with m_head := new_head |} else rb.

Definition advanceTail (move : Z) (rb : RingBuffer) : RingBuffer :=
  let t := u32 (m_tail rb + move) in
  {| rb with m_tail := if N <=? t then u32 (t - N) else t |}.

(** The [n] elements from [tail()] on, in place: what a driver reads through the
    pointer before it calls [advanceTail]. *)
Definition tail_slice (n : Z) (rb : RingBuffer) : list T :=
  take (Z.to_nat n) (drop (Z.to_nat (m_tail rb)) (m_buffer rb)).

(** The elements between tail and head, oldest first. *)
Definition contents (rb : RingBuffer) : list T :=
  if m_tail rb <=? m_head rb
  then take (Z.to_nat (m_head rb - m_tail rb)) (drop (Z.to_nat (m_tail rb)) (m_buffer rb))
  else drop (Z.to_nat (m_tail rb)) (m_buffer rb) ++ take (Z.to_nat (m_head rb)) (m_buffer rb).

(** ** Packets *)
Variable P : Z.

(** The [P] elements at offset [pos]. *)
Definition slot_at (b : list T) (pos : Z) : list T :=
  take (Z.to_nat P) (drop (Z.to_nat pos) b).

(** The packets not yet consumed, oldest first. *)
Definition pending (rb : RingBuffer) : list (list T) :=
  map (fun i => slot_at (m_buffer rb) ((m_tail rb + i * P) mod N)) (seqZ 0 (count rb / P)).

(** Both indices stay inside the array, whose length never changes. *)
Record ring_ok (rb : RingBuffer) : Prop := {
  ok_length : Z.of_nat (length (m_buffer rb)) = N;
  ok_head : 0 <= m_head rb < N;
  ok_tail : 0 <= m_tail rb < N }.

(** ... and, for packet use, are multiples of the packet size. *)
Record aligned (rb : RingBuffer) : Prop := {
  al_ring : ring_ok rb;
  al_head : m_head rb mod P = 0;
  al_tail : m_tail rb mod P = 0 }.

End Class_.
Arguments RingBuffer T : clear implicits.
Arguments mkRing {T}.
#[global] Arguments advanceHead : simpl never.
#[global] Arguments advanceTail : simpl never.

(** ** Elements *)
Section Elements.
Context {T : Type} (N : Z) (HN : 0 < N < 2147483648).
Implicit Types (rb : RingBuffer T).

Lemma count_spec rb : ring_ok N rb -> count N rb = (m_head rb - m_tail rb) mod N.
Proof.
  intros [_ Hh Ht]. unfold count, count_. destruct (Z.leb_spec (m_tail rb) (m_head rb)).
  - symmetry. apply Z.mod_small. lia.
  - rewrite u32_small by lia. apply Z.mod_unique_pos with (-1); lia.
Qed.

Lemma count_range rb : ring_ok N rb -> 0 <= count N rb < N.
Proof. intros H. rewrite count_spec by done. apply Z.mod_pos_bound. lia. Qed.

(** The value both index updates compute: the sum reduced modulo [N]. *)
Lemma wrap_index a m :
  0 <= a < N -> 0 <= m <= N ->
  (if N <=? u32 (a + m) then u32 (u32 (a + m) - N) else u32 (a + m)) = (a + m) mod N.
Proof.
  intros Ha Hm. rewrite (u32_small (a + m)) by lia.
  destruct (Z.leb_spec N (a + m)).
  - rewrite u32_small by lia. apply Z.mod_unique_pos with 1; lia.
  - symmetry. apply Z.mod_small. lia.
Qed.

Lemma reset_ok rb : Z.of_nat (length (m_buffer rb)) = N -> ring_ok N (reset rb).
Proof. intros. split; simpl; lia. Qed.

Lemma advanceTail_tail rb m :
  ring_ok N rb -> 0 <= m <= N -> m_tail (advanceTail N m rb) = (m_tail rb + m) mod N.
Proof. intros [_ _ Ht] Hm. unfold advanceTail; simpl. by apply wrap_index. Qed.

Lemma advanceTail_ok rb m : ring_ok N rb -> 0 <= m <= N -> ring_ok N (advanceTail N m rb).
Proof.
  intros H Hm. split; [apply H|apply H|]. rewrite advanceTail_tail by done.
  apply Z.mod_pos_bound. lia.
Qed.

(** [advanceHead] takes the move exactly when it fits; the ring keeps one element
    free, so a move that would make it full is refused. *)
Lemma advanceHead_spec rb m :
  ring_ok N rb -> 0 < m < N ->
  advanceHead N m rb =
  if count N rb + m <? N then {| rb with m_head := (m_head rb + m) mod N |} else rb.
Proof.
  intros H Hm. unfold advanceHead. rewrite wrap_index by (apply H || lia).
  pose proof (Z.mod_pos_bound (m_head rb + m) N ltac:(lia)) as Hr.
  set (rb' := {| rb with m_head := (m_head rb + m) mod N |}).
  assert (Hok : ring_ok N rb') by (split; [apply H|done|apply H]).
  assert (Hc : count_ N ((m_head rb + m) mod N) (m_tail rb) = (count N rb + m) mod N).
  { change (count_ N _ _) with (count N rb'). rewrite (count_spec rb'), (count_spec rb) by done.
    simpl. rewrite Zminus_mod_idemp_l, Zplus_mod_idemp_l. f_equal. lia. }
  rewrite Hc. pose proof (count_range rb H) as Hcr.
  destruct (Z.ltb_spec (count N rb + m) N) as [Hlt|Hge].
  - rewrite Z.mod_small by lia. by rewrite (proj2 (Z.leb_le _ _)) by lia.
  - replace ((count N rb + m) mod N) with (count N rb + m - N)
      by (apply Z.mod_unique_pos with 1; lia).
    by rewrite (proj2 (Z.leb_gt _ _)) by lia.
Qed.

Lemma length_contents rb : ring_ok N rb -> Z.of_nat (length (contents rb)) = count N rb.
Proof.
  intros [Hl Hh Ht]. unfold contents, count, count_. destruct (Z.leb_spec (m_tail rb) (m_head rb)).
  - rewrite length_take, length_drop. lia.
  - rewrite length_app, length_take, length_drop, u32_small by lia. lia.
Qed.

(** [push] appends to the queue, unless [N - 1] elements wait already: then it
    drops the new element. It never writes out of bounds. *)
Lemma push_spec rb x :
  ring_ok N rb ->
  exists rb', push N x rb = Some rb' /\ ring_ok N rb' /\
    contents rb' = if count N rb + 1 <? N then contents rb ++ [x] else contents rb.
Proof.
  intros H. pose proof (count_spec rb H) as Hc. destruct H as [Hl Hh Ht]. unfold push.
  rewrite (u32_small (m_head rb + 1)) by lia. rewrite arr_set_Some by lia. simpl.
  assert (Hb : forall i, 0 <= i < N -> ring_ok N
    {| m_buffer := <[Z.to_nat (m_head rb):=x]> (m_buffer rb); m_head := i; m_tail := m_tail rb |}).
  { intros i Hi. split; simpl; rewrite ?length_insert; done. }
  assert (Hn : forall i b, (m_head rb <? i) = b -> b = (m_head rb <? i)) by done.
  set (h := m_head rb) in *. set (t := m_tail rb) in *.
  set (nh := if N <=? h + 1 then 0 else h + 1).
  assert (Hnh : 0 <= nh < N) by (subst nh; destruct (Z.leb_spec N (h + 1)); lia).
  destruct (Z.eqb_spec nh t) as [He|He]; simpl.
  - exists rb. split; [done|]. split; [done|].
    rewrite (proj2 (Z.ltb_ge _ _)); [done|]. unfold count, count_. fold h t.
    subst nh. destruct (Z.leb_spec N (h + 1)), (Z.leb_spec t h); rewrite ?u32_small; lia.
  - eexists. split; [done|]. split; [by apply Hb|]. unfold contents at 1. simpl.
    assert (Hlt : count N rb + 1 < N).
    { unfold count, count_. fold h t. subst nh.
      destruct (Z.leb_spec N (h + 1)), (Z.leb_spec t h); rewrite ?u32_small; lia. }
    rewrite (proj2 (Z.ltb_lt _ _)) by done. unfold contents. fold h t.
    assert (Hsnoc : take (S (Z.to_nat h)) (<[Z.to_nat h:=x]> (m_buffer rb)) = take (Z.to_nat h) (m_buffer rb) ++ [x]).
    { rewrite (take_S_r _ _ x) by (apply list_lookup_insert_eq; lia).
      by rewrite take_insert_ge by lia. }
    subst nh. destruct (Z.leb_spec N (h + 1)), (Z.leb_spec t h); try lia.
    + rewrite (proj2 (Z.leb_gt t 0)) by lia. simpl. rewrite app_nil_r.
      rewrite drop_insert_ge by lia.
      replace (Z.to_nat h - Z.to_nat t)%nat with (Z.to_nat (h - t)) by lia.
      rewrite <- (firstn_all (<[_:=x]> _)), length_insert, length_drop.
      replace (length (m_buffer rb) - Z.to_nat t)%nat with (S (Z.to_nat (h - t))) by lia.
      rewrite (take_S_r _ _ x) by (apply list_lookup_insert_eq; rewrite length_drop; lia).
      by rewrite take_insert_ge by lia.
    + rewrite (proj2 (Z.leb_le t (h + 1))) by lia.
      rewrite drop_insert_ge by lia.
      replace (Z.to_nat h - Z.to_nat t)%nat with (Z.to_nat (h - t)) by lia.
      replace (Z.to_nat (h + 1 - t)) with (S (Z.to_nat (h - t))) by lia.
      rewrite (take_S_r _ _ x) by (apply list_lookup_insert_eq; rewrite length_drop; lia).
      by rewrite take_insert_ge by lia.
    + rewrite (proj2 (Z.leb_gt t (h + 1))) by lia.
      rewrite drop_insert_lt by lia. replace (Z.to_nat (h + 1)) with (S (Z.to_nat h)) by lia.
      by rewrite Hsnoc, app_assoc.
Qed.

(** [fetch] takes the oldest element off a queue that is not empty. *)
Lemma fetch_spec rb x l :
  ring_ok N rb -> contents rb = x :: l ->
  exists rb', fetch N rb = Some (x, rb') /\ ring_ok N rb' /\ contents rb' = l.
Proof.
  intros H Hx. pose proof (length_contents rb H) as Hlen. rewrite Hx in Hlen. simpl in Hlen.
  destruct H as [Hl Hh Ht]. unfold fetch, contents, count, count_ in *.
  destruct (arr_get_Some (m_buffer rb) (m_tail rb)) as (y & -> & Hy); [lia|]. simpl.
  rewrite (u32_small (m_tail rb + 1)) by lia.
  set (h := m_head rb) in *. set (t := m_tail rb) in *.
  rewrite (drop_S _ y _ Hy) in Hx.
  destruct (Z.leb_spec t h) as [Hth|Hth].
  - replace (Z.to_nat (h - t)) with (S (Z.to_nat (h - (t + 1)))) in Hx by lia. simpl in Hx.
    injection Hx as -> <-. eexists. split; [done|].
    destruct (Z.leb_spec N (t + 1)); [lia|]. split; [split; simpl; lia|]. simpl.
    rewrite (proj2 (Z.leb_le (t + 1) h)) by lia.
    by replace (Z.to_nat (t + 1)) with (S (Z.to_nat t)) by lia.
  - simpl in Hx. injection Hx as -> <-. eexists. split; [done|].
    destruct (Z.leb_spec N (t + 1)).
    + split; [split; simpl; lia|]. simpl. rewrite (proj2 (Z.leb_le 0 h)) by lia.
      rewrite drop_0, Z.sub_0_r. by rewrite (drop_ge _ (S (Z.to_nat t))) by lia.
    + split; [split; simpl; lia|]. simpl. rewrite (proj2 (Z.leb_gt (t + 1) h)) by lia.
      by replace (Z.to_nat (t + 1)) with (S (Z.to_nat t)) by lia.
Qed.

End Elements.

(** ** Packets *)
Section Packets.
Context {T : Type} (N P : Z) (HP : 0 < P < N) (HN : N < 2147483648) (HPN : N mod P = 0).
Implicit Types (rb : RingBuffer T).

#[local] Abbreviation aligned := (aligned N P).
#[local] Abbreviation pending := (pending N P).

Lemma aligned_diff a b : a mod P = 0 -> b mod P = 0 -> a = b \/ a + P <= b \/ b + P <= a.
Proof.
  intros Ha Hb. rewrite Zmod_divides in Ha, Hb by lia.
  destruct Ha as [x ->], Hb as [y ->]. destruct (Z.lt_trichotomy x y) as [|[->|]]; nia.
Qed.

Lemma aligned_mod a : a mod P = 0 -> (a mod N) mod P = 0.
Proof.
  intros Ha. rewrite Zmod_divides in HPN |- * by lia. destruct HPN as [k Hk].
  rewrite Zmod_divides in Ha by lia. destruct Ha as [x ->].
  exists (x mod k). rewrite Hk. rewrite Zmult_mod_distr_l. done.
Qed.

Lemma aligned_fits a : 0 <= a < N -> a mod P = 0 -> a + P <= N.
Proof. intros Ha Hm. destruct (aligned_diff a N Hm HPN) as [->|[?|?]]; lia. Qed.

Lemma aligned_reset rb : Z.of_nat (length (m_buffer rb)) = N -> aligned (reset rb).
Proof. intros H. split; simpl; [apply reset_ok; [lia|done]|apply Z.mod_0_l; lia..]. Qed.

Lemma count_aligned rb : aligned rb -> count N rb mod P = 0.
Proof.
  intros [H Hh Ht]. rewrite count_spec by (done || lia). apply aligned_mod.
  by rewrite Zminus_mod, Hh, Ht.
Qed.

(** Storing through [head()] stays inside the packet slot being filled ... *)
Lemma head_set_spec rb i x :
  aligned rb -> 0 <= i < P ->
  head_set i x rb = Some {| rb with m_buffer := <[Z.to_nat (m_head rb + i) := x]> (m_buffer rb) |}.
Proof.
  intros [[Hl Hh Ht] Ah At] Hi. unfold head_set.
  pose proof (aligned_fits _ Hh Ah). by rewrite arr_set_Some by lia.
Qed.

Lemma head_set_aligned rb i x rb' :
  aligned rb -> head_set i x rb = Some rb' ->
  aligned rb' /\ m_head rb' = m_head rb /\ m_tail rb' = m_tail rb.
Proof.
  unfold head_set. intros [[Hl Hh Ht] Ah At] Hs.
  destruct (arr_set (m_buffer rb) (m_head rb + i) x) as [b|] eqn:E; [|done].
  injection Hs as <-. apply arr_set_length in E. repeat split; simpl; auto; lia.
Qed.

(** The position of the [i]-th pending packet is not the slot being filled. *)
Lemma pending_pos rb i :
  aligned rb -> 0 <= i < count N rb / P ->
  let q := (m_tail rb + i * P) mod N in
  0 <= q < N /\ q mod P = 0 /\ q <> m_head rb.
Proof.
  intros H Hi q. pose proof (Z.mod_pos_bound (m_tail rb + i * P) N ltac:(lia)) as Hq.
  assert (Aq : q mod P = 0).
  { apply aligned_mod. by rewrite Z.mod_add, (al_tail _ _ _ H) by lia. }
  split; [done|]. split; [done|]. intros Heq.
  pose proof (count_range N ltac:(lia) rb (al_ring _ _ _ H)) as Hc.
  assert (Hip : i * P + P <= count N rb).
  { pose proof (Z.div_mod (count N rb) P ltac:(lia)). rewrite (count_aligned rb H) in *. nia. }
  destruct H as [[Hl Hh Ht] Ah At]. unfold count, count_ in Hip, Hc. subst q.
  destruct (Z.leb_spec (m_tail rb) (m_head rb)).
  - rewrite Z.mod_small in Heq; nia.
  - rewrite u32_small in Hip by lia.
    destruct (Z.lt_ge_cases (m_tail rb + i * P) N).
    + rewrite Z.mod_small in Heq; nia.
    + replace ((m_tail rb + i * P) mod N) with (m_tail rb + i * P - N) in Heq
        by (apply Z.mod_unique_pos with 1; nia). nia.
Qed.

(** ... so the packets that wait are not disturbed by it. *)
Lemma head_set_pending rb i x rb' :
  aligned rb -> 0 <= i < P -> head_set i x rb = Some rb' -> pending rb' = pending rb.
Proof.
  intros H Hi Hs. rewrite (head_set_spec rb i x H Hi) in Hs. injection Hs as <-.
  unfold RingBuffer.pending. change (count N {| rb with m_buffer := _ |}) with (count N rb). simpl.
  apply map_ext_in. intros k Hk. apply list_elem_of_In, elem_of_seqZ in Hk.
  destruct (pending_pos rb k H ltac:(lia)) as (Hq & Aq & Hne).
  destruct H as [[Hl Hh Ht] Ah At].
  set (q := (m_tail rb + k * P) mod N) in *. unfold slot_at.
  destruct (aligned_diff q (m_head rb) Aq Ah) as [?|[?|?]]; [done|..].
  - rewrite drop_insert_ge by lia. by rewrite take_insert_ge by lia.
  - by rewrite drop_insert_lt by lia.
Qed.

(** Reading back the slot that is being filled. *)
Lemma head_set_slot rb i x rb' :
  aligned rb -> 0 <= i < P -> head_set i x rb = Some rb' ->
  slot_at P (m_buffer rb') (m_head rb') = <[Z.to_nat i := x]> (slot_at P (m_buffer rb) (m_head rb)).
Proof.
  intros H Hi Hs. rewrite (head_set_spec rb i x H Hi) in Hs. injection Hs as <-.
  destruct H as [[Hl Hh Ht] Ah At]. unfold slot_at; simpl.
  rewrite drop_insert_ge by lia. rewrite take_insert_lt by lia.
  f_equal. lia.
Qed.

Lemma slot_length rb pos :
  ring_ok N rb -> 0 <= pos < N -> pos mod P = 0 ->
  length (slot_at P (m_buffer rb) pos) = Z.to_nat P.
Proof.
  intros [Hl _ _] Hp Ap. unfold slot_at. pose proof (aligned_fits _ Hp Ap).
  rewrite length_take, length_drop. lia.
Qed.

Lemma tail_slice_slot rb : tail_slice P rb = slot_at P (m_buffer rb) (m_tail rb).
Proof. done. Qed.

Lemma length_pending rb : Z.of_nat (length (pending rb)) = count N rb / P \/ count N rb < 0.
Proof.
  unfold RingBuffer.pending. rewrite length_map, length_seqZ.
  destruct (Z.lt_ge_cases (count N rb) 0); [by right|left].
  rewrite Z2Nat.id; [done|]. apply Z.div_pos; lia.
Qed.

Lemma pending_packet_length rb p : aligned rb -> p ∈ pending rb -> length p = Z.to_nat P.
Proof.
  intros H Hp. unfold RingBuffer.pending in Hp. apply list_elem_of_In, in_map_iff in Hp.
  destruct Hp as (i & <- & Hi). apply list_elem_of_In, elem_of_seqZ in Hi.
  destruct (pending_pos rb i H ltac:(lia)) as (Hq & Aq & _). by apply slot_length; [apply H|..].
Qed.

(** Committing the filled slot appends it to the queue of packets, unless
    [N / P - 1] packets wait already: then the new packet is dropped and the ring
    is unchanged. *)
Lemma advanceHead_aligned rb : aligned rb -> aligned (advanceHead N P rb).
Proof.
  intros H. pose proof (al_ring _ _ _ H) as Hr. rewrite advanceHead_spec by (done || lia).
  destruct (_ <? _); [|done]. destruct H as [[Hl Hh Ht] Ah At].
  repeat split; simpl; auto; try lia; try (apply Z.mod_pos_bound; lia).
  apply aligned_mod. by rewrite <- Zplus_mod_idemp_r, Z_mod_same_full, Z.add_0_r.
Qed.

Lemma advanceHead_pending rb :
  aligned rb ->
  pending (advanceHead N P rb) =
  if count N rb + P <? N then pending rb ++ [slot_at P (m_buffer rb) (m_head rb)] else pending rb.
Proof.
  intros H. pose proof (al_ring _ _ _ H) as Hr.
  pose proof (advanceHead_aligned rb H) as H'. revert H'.
  rewrite advanceHead_spec by (done || lia).
  destruct (Z.ltb_spec (count N rb + P) N) as [Hlt|]; [|done]. intros H'.
  set (rb' := {| rb with m_head := (m_head rb + P) mod N |}) in *.
  assert (Hc : count N rb' = count N rb + P).
  { rewrite (count_spec N ltac:(lia) rb') by apply H'. simpl. rewrite Zminus_mod_idemp_l.
    rewrite (count_spec N ltac:(lia) rb) in * by done.
    rewrite <- (Z.mod_small ((m_head rb - m_tail rb) mod N + P) N).
    - rewrite Zplus_mod_idemp_l. f_equal. lia.
    - pose proof (Z.mod_pos_bound (m_head rb - m_tail rb) N ltac:(lia)). lia. }
  pose proof (count_range N ltac:(lia) rb Hr) as Hcr.
  unfold RingBuffer.pending. rewrite Hc.
  replace ((count N rb + P) / P) with (count N rb / P + 1)
    by (rewrite <- (Z.mul_1_l P) at 2; rewrite Z.div_add by lia; lia).
  rewrite seqZ_app by (try apply Z.div_pos; lia). rewrite map_app. f_equal. simpl.
  f_equal. f_equal.
  assert (Hm : count N rb / P * P = count N rb).
  { pose proof (Z.div_mod (count N rb) P ltac:(lia)). rewrite (count_aligned rb H) in *. lia. }
  transitivity ((m_tail rb + count N rb) mod N); [f_equal; nia|].
  rewrite (count_spec N ltac:(lia) rb) by done. rewrite Zplus_mod_idemp_r.
  rewrite Z.mod_small; [lia|]. destruct Hr; lia.
Qed.

(** [advanceTail] removes the oldest packet, which is the one at [tail()]. *)
Lemma advanceTail_aligned rb : aligned rb -> aligned (advanceTail N P rb).
Proof.
  intros H. pose proof (al_ring _ _ _ H) as Hr. split.
  - apply advanceTail_ok; [lia|done|lia].
  - apply H.
  - rewrite advanceTail_tail by (done || lia). apply aligned_mod.
    by rewrite <- Zplus_mod_idemp_r, Z_mod_same_full, Z.add_0_r, (al_tail _ _ _ H).
Qed.

Lemma advanceTail_count rb :
  aligned rb -> P <= count N rb -> count N (advanceTail N P rb) = count N rb - P.
Proof.
  intros H Hc. pose proof (al_ring _ _ _ H) as Hr.
  rewrite (count_spec N ltac:(lia) (advanceTail N P rb)) by apply (advanceTail_aligned rb H).
  rewrite advanceTail_tail by (done || lia).
  change (m_head (advanceTail N P rb)) with (m_head rb). rewrite Zminus_mod_idemp_r.
  rewrite (count_spec N ltac:(lia) rb) in * by done.
  rewrite <- (Z.mod_small ((m_head rb - m_tail rb) mod N - P) N).
  - rewrite Zminus_mod_idemp_l. f_equal. lia.
  - pose proof (Z.mod_pos_bound (m_head rb - m_tail rb) N ltac:(lia)). lia.
Qed.

Lemma advanceTail_pending rb :
  aligned rb -> P <= count N rb ->
  pending rb = tail_slice P rb :: pending (advanceTail N P rb).
Proof.
  intros H Hc. pose proof (al_ring _ _ _ H) as Hr.
  unfold RingBuffer.pending. rewrite (advanceTail_count rb H Hc), advanceTail_tail by (done || lia).
  replace ((count N rb - P) / P) with (Z.pred (count N rb / P))
    by (replace (count N rb - P) with (count N rb + (-1) * P) by lia; rewrite Z.div_add; lia).
  rewrite seqZ_cons by (apply Z.div_str_pos; lia). simpl. f_equal.
  - unfold slot_at, tail_slice. rewrite Z.add_0_r, Z.mod_small by apply Hr. done.
  - change (Z.succ 0) with (0 + 1). rewrite (Z.add_comm 0 1), <- (fmap_add_seqZ 1 0).
    change (Z.add 1 <$> ?l) with (map (Z.add 1) l). rewrite map_map. apply map_ext. intros i.
    f_equal.
    rewrite Zplus_mod_idemp_l. f_equal. lia.
Qed.

Lemma pending_nil rb : aligned rb -> count N rb < P -> pending rb = [].
Proof.
  intros H Hc. unfold RingBuffer.pending.
  pose proof (count_range N ltac:(lia) rb (al_ring _ _ _ H)).
  by rewrite Z.div_small by lia.
Qed.

End Packets.
