(* ===== verification/RingSpec.v ===== *)
(** * What the ring buffer promises its two sides

    A queue is the specification of [RingBuffer].  The interrupt routine and the
    work loop run interleaved in any order, so the statements are about arbitrary
    sequences of their operations. *)
From S2P Require Import Prelude RingBuffer.

(** ** Element use: [push] and [fetch] *)
Section ElementQueue.
Context {T : Type} (N : Z) (HN : 0 < N < 2147483648).
Implicit Types (rb : RingBuffer T).

Inductive ElementOp := Push (x : T) | Fetch.

(** The code's operations; a driver fetches only when [count()] is not zero. *)
Fixpoint run_elements (ops : list ElementOp) rb : option (RingBuffer T * list T) :=
  match ops with
  | [] => Some (rb, [])
  | Push x :: ops' => rb' ← push N x rb; run_elements ops' rb'
  | Fetch :: ops' =>
    if count N rb =? 0 then run_elements ops' rb else
    '(x, rb') ← fetch N rb; '(rb'', out) ← run_elements ops' rb'; Some (rb'', x :: out)
  end.

(** A queue that holds at most [N - 1] elements and drops what does not fit. *)
Fixpoint run_queue (ops : list ElementOp) (q : list T) : list T * list T :=
  match ops with
  | [] => (q, [])
  | Push x :: ops' =>
    run_queue ops' (if Z.of_nat (length q) + 1 <? N then q ++ [x] else q)
  | Fetch :: ops' =>
    match q with
    | [] => run_queue ops' []
    | x :: q' => let '(q'', out) := run_queue ops' q' in (q'', x :: out)
    end
  end.

(** Used element by element, the ring buffer is a first-in first-out queue of
    capacity [N - 1]: whatever the interleaving of pushes and fetches, no access
    leaves the array, the elements fetched are those a queue gives, in order, and
    what remains is the queue's content; a push into a full ring is dropped. *)
Theorem ring_is_queue ops rb :
  ring_ok N rb ->
  exists rb', run_elements ops rb = Some (rb', (run_queue ops (contents rb)).2) /\
    ring_ok N rb' /\ contents rb' = (run_queue ops (contents rb)).1.
Proof.
  revert rb. induction ops as [|[x|] ops IH]; intros rb H; simpl; [by eexists|..].
  - destruct (push_spec N HN rb x H) as (rb' & -> & H' & Hc). simpl.
    rewrite (length_contents N HN rb H), <- Hc. by apply IH.
  - pose proof (length_contents N HN rb H) as Hlen.
    destruct (contents rb) as [|x q] eqn:Ec; simpl in Hlen.
    + rewrite (proj2 (Z.eqb_eq _ _)) by lia. rewrite <- Ec. by apply IH.
    + rewrite (proj2 (Z.eqb_neq _ _)) by lia.
      destruct (fetch_spec N HN rb x q H Ec) as (rb' & -> & H' & <-). simpl.
      destruct (IH rb' H') as (rb'' & -> & H'' & Hc). simpl.
      destruct (run_queue ops (contents rb')) as [q'' out]. by eexists.
Qed.

End ElementQueue.

Lemma ring_is_queue_witness :
  ring_ok 3 (mkRing [0; 0; 0] 0 0) /\
  exists rb', run_elements 3 [Push 1; Push 2; Push 3; Fetch; Push 4; Fetch; Fetch; Fetch]
                (mkRing [0; 0; 0] 0 0) = Some (rb', [1; 2; 4]) /\
    ring_ok 3 rb' /\ contents rb' = [].
Proof.
  assert (H : ring_ok 3 (mkRing [0; 0; 0] 0 0)) by (split; simpl; lia).
  split; [exact H|]. refine (ring_is_queue 3 _ _ _ H). lia.
Defined.

(** ** Packet use: [head], [advanceHead], [tail], [advanceTail] *)
Section PacketQueue.
Context {T : Type} (N P : Z) (HP : 0 < P < N) (HN : N < 2147483648) (HPN : N mod P = 0).
Implicit Types (rb : RingBuffer T).

(** [Store i x]: the interrupt routine writes byte [i] of the packet it collects;
    [Commit]: it calls [advanceHead(P)]; [Consume]: the work loop, if [count() >= P],
    processes the packet at [tail()] and calls [advanceTail(P)]. *)
Inductive PacketOp := Store (i : Z) (x : T) | Commit | Consume.

Definition packet_op_ok (o : PacketOp) : Prop :=
  match o with Store i _ => 0 <= i < P | _ => True end.

Definition packet_step (o : PacketOp) rb : option (RingBuffer T * list (list T)) :=
  match o with
  | Store i x => rb' ← head_set i x rb; Some (rb', [])
  | Commit => Some (advanceHead N P rb, [])
  | Consume =>
    Some (if P <=? count N rb then (advanceTail N P rb, [tail_slice P rb]) else (rb, []))
  end.

Fixpoint run_packets (ops : list PacketOp) rb : option (RingBuffer T * list (list T)) :=
  match ops with
  | [] => Some (rb, [])
  | o :: ops' =>
    '(rb', out) ← packet_step o rb; '(rb'', out') ← run_packets ops' rb'; Some (rb'', out ++ out')
  end.

(** The specification's state: the packets that wait, and the one being collected. *)
Definition PacketState : Type := list (list T) * list T.

Inductive queue_step : PacketState -> PacketOp -> list (list T) -> PacketState -> Prop :=
| queue_store q cur i x :
    queue_step (q, cur) (Store i x) [] (q, <[Z.to_nat i := x]> cur)
| queue_commit q cur cur' :
    Z.of_nat (length q) + 1 < N / P -> length cur' = Z.to_nat P ->
    queue_step (q, cur) Commit [] (q ++ [cur], cur')
| queue_full q cur :
    N / P <= Z.of_nat (length q) + 1 -> queue_step (q, cur) Commit [] (q, cur)
| queue_consume p q cur : queue_step (p :: q, cur) Consume [p] (q, cur)
| queue_idle cur : queue_step ([], cur) Consume [] ([], cur).

Inductive queue_steps : PacketState -> list PacketOp -> list (list T) -> PacketState -> Prop :=
| queue_nil s : queue_steps s [] [] s
| queue_cons s o out s' ops out' s'' :
    queue_step s o out s' -> queue_steps s' ops out' s'' ->
    queue_steps s (o :: ops) (out ++ out') s''.

(** The specification's state that a ring stands for. *)
Definition packets_of rb : PacketState := (pending N P rb, slot_at P (m_buffer rb) (m_head rb)).

Lemma count_packets rb :
  aligned N P rb -> count N rb = P * Z.of_nat (length (pending N P rb)).
Proof.
  intros H. pose proof (count_range N ltac:(lia) rb (al_ring _ _ _ H)) as Hc.
  destruct (length_pending N P HP rb) as [->|]; [|lia].
  pose proof (Z.div_mod (count N rb) P ltac:(lia)).
  rewrite (count_aligned N P HP HN HPN rb H) in *. lia.
Qed.

Lemma packet_step_refines o rb :
  aligned N P rb -> packet_op_ok o ->
  exists rb' out, packet_step o rb = Some (rb', out) /\ aligned N P rb' /\
    queue_step (packets_of rb) o out (packets_of rb').
Proof.
  intros H Ho. pose proof (count_packets rb H) as Hc.
  assert (HNP : N = P * (N / P)) by (pose proof (Z.div_mod N P ltac:(lia)); lia).
  destruct o as [i x| |]; simpl in *.
  - pose proof (head_set_spec N P HP HN HPN rb i x H Ho) as E. rewrite E. simpl.
    eexists _, _. split; [done|].
    destruct (head_set_aligned N P rb i x _ H E) as [H' _]. split; [done|].
    unfold packets_of. rewrite (head_set_pending N P HP HN HPN rb i x _ H Ho E).
    rewrite (head_set_slot N P HP HN HPN rb i x _ H Ho E). constructor.
  - eexists _, _. split; [done|]. pose proof (advanceHead_aligned N P HP HN HPN rb H) as H'.
    split; [done|]. unfold packets_of at 2. rewrite (advanceHead_pending N P HP HN HPN rb H).
    destruct (Z.ltb_spec (count N rb + P) N) as [Hlt|Hge].
    + apply queue_commit; [nia|].
      by apply (slot_length N P HP HN HPN); [apply H'|apply H'|apply H'].
    + rewrite advanceHead_spec by (apply H || lia).
      rewrite (proj2 (Z.ltb_ge _ _)) by done. apply queue_full. nia.
  - destruct (Z.leb_spec P (count N rb)) as [Hle|Hlt]; (eexists _, _; split; [done|]).
    + split; [by apply advanceTail_aligned|]. unfold packets_of at 1.
      rewrite (advanceTail_pending N P HP HN HPN rb H Hle). apply queue_consume.
    + split; [done|]. unfold packets_of. rewrite (pending_nil N P HP HN rb H Hlt).
      apply queue_idle.
Qed.

(** C1: the interrupt routine and the work loop share the ring as a queue of whole
    packets: under every interleaving of byte stores, commits and consumptions no
    access leaves the array, the two indices stay multiples of the packet size, the
    work loop sees exactly the committed packets in order (a store never changes a
    packet that waits), and a commit is dropped exactly when [N / P - 1] packets
    wait already. *)
Theorem ring_refines_packet_queue ops rb :
  aligned N P rb -> Forall packet_op_ok ops ->
  exists rb' out, run_packets ops rb = Some (rb', out) /\ aligned N P rb' /\
    queue_steps (packets_of rb) ops out (packets_of rb').
Proof.
  intros H Hops. revert rb H. induction Hops as [|o ops Ho _ IH]; intros rb H; simpl.
  - eexists _, _. split; [done|]. split; [done|constructor].
  - destruct (packet_step_refines o rb H Ho) as (rb1 & out & -> & H1 & Hs). simpl.
    destruct (IH rb1 H1) as (rb2 & out' & -> & H2 & Hss). simpl.
    eexists _, _. split; [done|]. split; [done|]. by econstructor.
Qed.

End PacketQueue.

Lemma ring_refines_packet_queue_witness :
  aligned 6 2 (mkRing [0; 0; 0; 0; 0; 0] 0 0) /\
  exists rb' out,
    run_packets 6 2 [Store 0 1; Store 1 2; Commit; Store 0 3; Commit; Store 1 4; Commit; Consume]
      (mkRing [0; 0; 0; 0; 0; 0] 0 0) = Some (rb', out) /\ aligned 6 2 rb' /\
    queue_steps 6 2 (packets_of 6 2 (mkRing [0; 0; 0; 0; 0; 0] 0 0))
      [Store 0 1; Store 1 2; Commit; Store 0 3; Commit; Store 1 4; Commit; Consume] out
      (packets_of 6 2 rb').
Proof.
  assert (H : aligned 6 2 (mkRing [0; 0; 0; 0; 0; 0] 0 0)) by (repeat split; simpl; lia).
  split; [exact H|].
  refine (ring_refines_packet_queue 6 2 _ _ _ _ _ H _); [lia|lia|reflexivity|].
  repeat constructor; simpl; lia.
Defined.
