(* ===== verification/Controller.v ===== *)
(** * The controller: ApplePS2Controller and the device nubs

    VoodooPS2Controller/VoodooPS2Controller.cpp and ApplePS2Device.cpp, operation
    by operation.  The world a computation runs in is the 8042 controller seen
    through its two ports (the answers it will give to the reads still to come,
    and a trace of what the driver did) together with the controller object.
    The list of answers is arbitrary: a statement about every world is a
    statement about every behaviour of the hardware.

    [C] is the type of the clients (the device drivers, which receive bytes at
    interrupt time), [A] the type of the packet and power actions they register. *)
From S2P Require Import Prelude PS2Types.

(** What a message carries: its meaning depends on the message. *)
Inductive MessageData :=
| KeyInfoPtr (i : PS2KeyInfo)
| TimePtr (t : Z)
| OtherPtr (p : Z).

(** Observable effects, in order. *)
Inductive Event :=
| EvOut (ioport byte : Z)
| EvSleep (ms : Z)
| EvDeliver (devicePort byte : Z)
| EvSignal (devicePort : Z)
| EvQueueSignal
| EvRegisterInterrupt (irq : Z)
| EvEnableInterrupt (irq : Z)
| EvDisableInterrupt (irq : Z)
| EvUnregisterInterrupt (irq : Z)
| EvComplete (request : PS2Request)
| EvFree (request : PS2Request)
| EvMessage (service : Z) (message : PS2Message) (data : MessageData)
| EvTimeout (expectedPort : Z)
| EvRegisterService (devicePort : Z)
| EvAckPowerState.

Section State.
Context {C A : Type}.

Record ApplePS2Device := mkDevice {
  _port : Z;
  _interrupt_action : option (Z -> M C PS2InterruptResult);
  _packet_action : option A;
  _power_action : option A;
  _client : option C }.

(** [ApplePS2Device::init] *)
Definition init (p : Z) : ApplePS2Device := mkDevice p None None None None.

(** [_requestQueueLock] and [_cmdbyteLock]: [None] before the lock is allocated,
    [Some held] afterwards.  The notifiers are non-null or null. *)
Record ApplePS2Controller := mkController {
  _requestQueue : list PS2Request;
  _requestQueueLock : option bool;
  _cmdbyteLock : option bool;
  _interruptInstalledKeyboard : bool;
  _interruptInstalledMouse : Z;
  _ignoreInterrupts : Z;
  _ignoreOutOfOrder : Z;
  _devices : list (option ApplePS2Device);
  _publishNotify : bool;
  _terminateNotify : bool;
  _notificationServices : list Z;
  _currentPowerState : Z;
  _hardwareOffline : bool;
  _suppressTimeout : bool;
  _wakedelay : Z;
  _mouseWakeFirst : bool;
  _muxPresent : bool;
  _nubsCount : Z;
  _resetControllerFlag : Z;
  _kbdOnly : bool }.

(** The members' default values, after [ApplePS2Controller::init]. *)
Definition initController : ApplePS2Controller := {|
  _requestQueue := []; _requestQueueLock := None; _cmdbyteLock := Some false;
  _interruptInstalledKeyboard := false; _interruptInstalledMouse := 0;
  _ignoreInterrupts := 0; _ignoreOutOfOrder := 0;
  _devices := replicate (Z.to_nat kPS2MuxMaxIdx) None;
  _publishNotify := false; _terminateNotify := false; _notificationServices := [];
  _currentPowerState := kPS2PowerStateNormal; _hardwareOffline := false;
  _suppressTimeout := false; _wakedelay := 10; _mouseWakeFirst := false;
  _muxPresent := false; _nubsCount := 0;
  _resetControllerFlag := Z.lor RESET_CONTROLLER_ON_BOOT RESET_CONTROLLER_ON_WAKEUP;
  _kbdOnly := false |}.

Record World := mkWorld {
  hw : list Z;
  trace : list Event;
  ctl : ApplePS2Controller }.

End State.
Arguments ApplePS2Device : clear implicits.
Arguments ApplePS2Controller : clear implicits.
Arguments World : clear implicits.

Section Controller.
Context {C A : Type}.
Context (power_action : A -> Z -> M (World C A) unit).
Context (service_message : Z -> PS2Message -> MessageData -> M (World C A) MessageData).

#[local] Abbreviation W := (World C A).
#[local] Abbreviation Ctl := (ApplePS2Controller C A).

(** ** Access to the object and to the ports *)

Definition field {X} (f : Ctl -> X) : M W X := gets (fun w => f (ctl w)).
Definition update (f : Ctl -> Ctl) : M W unit := modify (fun w => {| w with ctl := f (ctl w) |}).
Definition emit (e : Event) : M W unit := modify (fun w => {| w with trace := trace w ++ [e] |}).

(** [inb(port)]: the controller's next answer; the driver waits if there is none. *)
Definition inb (ioport : Z) : M W Z := fun w =>
  match hw w with
  | [] => Wait
  | b :: rest => Ok ({| w with hw := rest |}, u8 b)
  end.

Definition outb (ioport byte : Z) : M W unit := emit (EvOut ioport (u8 byte)).

Definition answers (w : W) : nat := length (hw w).

(** [while (inb(kCommandPort) & kInputBusy) IODelay(kDataDelay);] *)
Definition waitInputFree : M W unit :=
  loop answers (fun _ : unit =>
    status ← inb kCommandPort;
    ret (if nz (Z.land status kInputBusy) then inl tt else inr tt)) tt.

Definition writeDataPort (byte : Z) : M W unit :=
  waitInputFree ;; outb kDataPort byte.

Definition writeCommandPort (byte : Z) : M W unit :=
  waitInputFree ;; outb kCommandPort byte.

(** ** Devices *)

Definition device (p : Z) : M W (ApplePS2Device C A) :=
  ds ← field _devices; o ← deref (arr_get ds p); deref o.

Definition setDevice (p : Z) (d : ApplePS2Device C A) : M W unit :=
  ds ← field _devices; ds' ← deref (arr_set ds p (Some d));
  update (fun c => {| c with _devices := ds' |}).

(** [ApplePS2Device::interruptAction] of the nub in slot [p]. *)
Definition interruptAction (p data : Z) : M W PS2InterruptResult :=
  d ← device p;
  match _client d, _interrupt_action d with
  | Some c, Some f =>
    emit (EvDeliver p (u8 data)) ;;
    match f (u8 data) c with
    | Ok (c', r) => setDevice p {| d with _client := Some c' |} ;; ret r
    | Wait => wait
    | Crash => crash
    end
  | _, _ => ret kPS2IR_packetBuffering
  end.

(** [ApplePS2Device::packetActionInterrupt] *)
Definition packetActionInterrupt (p : Z) : M W unit :=
  device p ;; emit (EvSignal p).

(** [ApplePS2Device::powerAction] *)
Definition powerAction (p whatToDo : Z) : M W unit :=
  d ← device p;
  match _client d, _power_action d with
  | Some _, Some a => power_action a whatToDo
  | _, _ => ret tt
  end.

Definition getPortFromStatus (status : Z) : M W Z :=
  let auxPort := nz (Z.land status kMouseData) in
  let port := if auxPort then kPS2AuxIdx else kPS2KbdIdx in
  mux ← field _muxPresent;
  ret (if mux && auxPort
       then port + Z.land (Z.shiftr status PS2_STA_MUX_SHIFT) PS2_STA_MUX_MASK
       else port).

Definition _dispatchDriverInterrupt (port data : Z) : M W PS2InterruptResult :=
  mouse ← field _interruptInstalledMouse;
  keyboard ← field _interruptInstalledKeyboard;
  if (kPS2AuxIdx <=? port) && nz mouse then interruptAction port data
  else if (kPS2KbdIdx =? port) && keyboard then interruptAction kPS2KbdIdx data
  else ret kPS2IR_packetBuffering.

Definition dispatchDriverInterrupt (port data : Z) : M W unit :=
  result ← _dispatchDriverInterrupt port data;
  when (is_packetReady result) (packetActionInterrupt port).

(** ** Interrupt time *)

(** One round of [handleInterrupt]'s loop. *)
Definition handleInterruptByte (wakePort : list bool) : M W (list bool + list bool) :=
  status ← inb kCommandPort;
  if negb (nz (Z.land status kOutputReady)) then ret (inr wakePort) else
  data ← inb kDataPort;
  port ← getPortFromStatus status;
  result ← _dispatchDriverInterrupt port data;
  if is_packetReady result
  then (wakePort' ← deref (arr_set wakePort port true); ret (inl wakePort'))
  else ret (inl wakePort).

Definition handleInterrupt : M W unit :=
  wakePort ← loop answers handleInterruptByte (replicate (Z.to_nat kPS2MuxMaxIdx) false);
  n ← field _nubsCount;
  for_each (seqZ kPS2KbdIdx n) (fun i =>
    b ← deref (arr_get wakePort i);
    when b (packetActionInterrupt i)).

Definition interruptHandlerMouse : M W unit :=
  n ← field _ignoreInterrupts; if nz n then ret tt else handleInterrupt.

Definition interruptHandlerKeyboard : M W unit :=
  n ← field _ignoreInterrupts; if nz n then ret tt else handleInterrupt.

(** ** Reading the data port *)

(** [while (timeoutCounter && !((status = inb(kCommandPort)) & kOutputReady)) timeoutCounter--;]
    from [(timeoutCounter, status)]. *)
Definition waitOutputReady (timeoutCounter status : Z) : M W (Z * Z) :=
  loop answers (fun '(t, s) =>
    if t =? 0 then ret (inr (t, s)) else
    s' ← inb kCommandPort;
    ret (if nz (Z.land s' kOutputReady) then inr (t, s') else inl (t - 1, s')))
  (timeoutCounter, status).

Definition readDataPortRound (expectedPort : Z) '((timeoutCounter, status) : Z * Z)
  : M W (Z * Z + Z) :=
  '(timeoutCounter, status) ← waitOutputReady timeoutCounter status;
  if timeoutCounter =? 0 then
    suppress ← field _suppressTimeout;
    when (negb suppress) (emit (EvTimeout expectedPort)) ;; ret (inr 0)
  else
  readByte ← inb kDataPort;
  suppress ← field _suppressTimeout;
  if suppress : bool then ret (inr readByte) else
  port ← getPortFromStatus status;
  if expectedPort =? port then ret (inr readByte) else
  dispatchDriverInterrupt port readByte ;; ret (inl (timeoutCounter, status)).

(** [readDataPort(expectedPort)] *)
Definition readDataPort (expectedPort : Z) : M W Z :=
  loop answers (readDataPortRound expectedPort) (20000, 0).

(** [readDataPort(expectedPort, expectedByte)]; the state of the loop is
    [timeoutCounter], [status] and [firstByte] if [firstByteHeld]. *)
Definition readDataPortExpectRound (expectedPort expectedByte : Z)
    '((timeoutCounter, status, firstByte) : Z * Z * option Z) : M W (Z * Z * option Z + Z) :=
  '(timeoutCounter, status) ← waitOutputReady timeoutCounter status;
  if timeoutCounter =? 0 then
    match firstByte with
    | Some b => ret (inr b)
    | None => emit (EvTimeout expectedPort) ;; ret (inr 0)
    end
  else
  readByte ← inb kDataPort;
  port ← getPortFromStatus status;
  ignore ← field _ignoreOutOfOrder;
  if expectedPort =? port then
    if readByte =? expectedByte then
      match firstByte with
      | None => ret (inr readByte)
      | Some b =>
        when (negb (nz ignore)) (dispatchDriverInterrupt expectedPort b) ;; ret (inr readByte)
      end
    else
      match firstByte with
      | None => ret (inl (timeoutCounter, status, Some readByte))
      | Some b =>
        when (negb (nz ignore)) (dispatchDriverInterrupt expectedPort readByte) ;; ret (inr b)
      end
  else
    when (negb (nz ignore)) (dispatchDriverInterrupt port readByte) ;;
    ret (inl (timeoutCounter, status, firstByte)).

Definition readDataPortExpect (expectedPort expectedByte : Z) : M W Z :=
  loop answers (readDataPortExpectRound expectedPort expectedByte) (10000, 0, None).

(** [while (inb(kCommandPort) & kOutputReady) { ++n; inb(kDataPort); }] *)
Definition flushCount (n : Z) : M W Z :=
  loop answers (fun n =>
    status ← inb kCommandPort;
    if nz (Z.land status kOutputReady)
    then (inb kDataPort ;; ret (inl (u32 (n + 1)))) else ret (inr n)) n.

Definition flushDataPort : M W unit := flushCount 0 ;; ret tt.

(** [++_ignoreInterrupts; m; --_ignoreInterrupts;] *)
Definition ignoringInterrupts {X} (m : M W X) : M W X :=
  update (fun c => {| c with _ignoreInterrupts := _ignoreInterrupts c + 1 |}) ;;
  x ← m;
  update (fun c => {| c with _ignoreInterrupts := _ignoreInterrupts c - 1 |}) ;;
  ret x.

(** ** Requests *)

(** Which device a byte written to the data port goes to. *)
Definition transmitTo (devicePort : Z) : M W unit :=
  if kPS2AuxIdx <=? devicePort then
    mux ← field _muxPresent;
    if mux : bool then writeCommandPort (kCP_TransmitToMuxedMouse + (devicePort - kPS2AuxIdx))
    else writeCommandPort kCP_TransmitToMouse
  else ret tt.

(** The [switch] of [processRequest]: the command with its results stored in it,
    and [failed]. *)
Definition processCommand (devicePort : Z) (c : PS2Command) : M W (PS2Command * bool) :=
  match command c with
  | kPS2C_ReadDataPort =>
    byte ← readDataPort devicePort; ret (set_inOrOut byte c, false)
  | kPS2C_ReadDataPortAndCompare =>
    byte ← readDataPortExpect devicePort (inOrOut c);
    ret (set_inOrOut byte c, negb (byte =? inOrOut c))
  | kPS2C_WriteDataPort =>
    transmitTo devicePort ;; writeDataPort (inOrOut c) ;; ret (c, false)
  | kPS2C_SendCommandAndCompareAck =>
    transmitTo devicePort ;; writeDataPort (inOrOut c) ;;
    byte ← readDataPortExpect devicePort kSC_Acknowledge;
    ret (c, negb (byte =? kSC_Acknowledge))
  | kPS2C_FlushDataPort =>
    n ← flushCount 0; ret (set_inOrOut32 n c, false)
  | kPS2C_SleepMS =>
    emit (EvSleep (inOrOut32 c)) ;; ret (c, false)
  | kPS2C_ModifyCommandByte =>
    writeCommandPort kCP_GetCommandByte ;;
    commandByte ← readDataPort kPS2KbdIdx;
    writeCommandPort kCP_SetCommandByte ;;
    writeDataPort (clear_bits (Z.lor commandByte (setBits c)) (clearBits c)) ;;
    ret (set_oldBits commandByte c, false)
  end.

(** [for (; index < commandsCount; index++)], [n] rounds left: the commands
    afterwards, and the index of the command that failed. *)
Fixpoint processCommands (n : nat) (devicePort index : Z) (l : list PS2Command)
  : M W (list PS2Command * option Z) :=
  match n with
  | O => ret (l, None)
  | S n' =>
    c ← deref (arr_get l index);
    '(c', failed) ← processCommand devicePort c;
    l' ← deref (arr_set l index c');
    if failed : bool then ret (l', Some index) else processCommands n' devicePort (index + 1) l'
  end.

(** The completion of a request: its routine is called, or it is freed, or (on
    the stack) neither. *)
Definition completeRequest (request : PS2Request) : M W unit :=
  if negb (bool_decide (completionTarget request = kStackCompletionTarget))
     && negb (bool_decide (completionTarget request = NoTarget)) && completionAction request
  then emit (EvComplete request)
  else when (negb (bool_decide (completionTarget request = kStackCompletionTarget)))
            (emit (EvFree request)).

Definition processRequest (request : PS2Request) : M W PS2Request :=
  offline ← field _hardwareOffline;
  request' ←
    (if offline : bool then ret {| request with commandsCount := 0 |} else
     '(l, failed) ← ignoringInterrupts
       (processCommands (Z.to_nat (commandsCount request)) (port request) 0 (commands request));
     ret {| request with
            commands := l;
            commandsCount := match failed with
                             | Some index => u8 index
                             | None => commandsCount request
                             end |});
  completeRequest request' ;; ret request'.

(** [IOLockLock(_requestQueueLock)]: taking it twice is a deadlock, using it
    before it is allocated a null dereference. *)
Definition lockQueue : M W unit :=
  l ← field _requestQueueLock; held ← deref l;
  if held : bool then crash else update (fun c => {| c with _requestQueueLock := Some true |}).

Definition unlockQueue : M W unit :=
  update (fun c => {| c with _requestQueueLock := Some false |}).

Definition processRequestQueue : M W unit :=
  lockQueue ;;
  localQueue ← field _requestQueue;
  update (fun c => {| c with _requestQueue := [] |}) ;;
  unlockQueue ;;
  for_each localQueue (fun request => processRequest request ;; ret tt).

Definition submitRequest (request : PS2Request) : M W bool :=
  if negb (port request <? kPS2MuxMaxIdx) then crash else
  lockQueue ;;
  update (fun c => {| c with _requestQueue := _requestQueue c ++ [request] |}) ;;
  unlockQueue ;;
  emit EvQueueSignal ;; ret true.

Definition submitRequestAndBlockGated (request : PS2Request) : M W PS2Request :=
  processRequestQueue ;; processRequest request.

(** The request as the caller finds it afterwards. *)
Definition submitRequestAndBlock (request : PS2Request) : M W PS2Request :=
  if negb (port request <? kPS2MuxMaxIdx) then crash else submitRequestAndBlockGated request.

(** ** The command byte *)

Definition setCommandByteGated (request : PS2Request) : M W PS2Request :=
  c ← deref (arr_get (commands request) 0);
  oldCommandByte ← ignoringInterrupts
    (writeCommandPort kCP_GetCommandByte ;; readDataPort kPS2KbdIdx);
  let newCommandByte := u8 (clear_bits (Z.lor oldCommandByte (setBits c)) (clearBits c)) in
  when (negb (oldCommandByte =? newCommandByte))
    (writeCommandPort kCP_SetCommandByte ;; writeDataPort newCommandByte) ;;
  l ← deref (arr_set (commands request) 0 (set_oldBits oldCommandByte c));
  ret {| request with commands := l |}.

Definition setCommandByte (setB clearB : Z) : M W Z :=
  request ← setCommandByteGated (TPS2Request 1 [cmdModify setB clearB]);
  c ← deref (arr_get (commands request) 0);
  ret (oldBits c).

(** ** Interrupt actions *)

Definition enableMuxPorts : M W unit :=
  for_each (seqZ 0 PS2_MUX_PORTS) (fun i =>
    writeCommandPort (kCP_TransmitToMuxedMouse + i) ;;
    writeCommandPort kCP_EnableMouseClock).

(** [ApplePS2Controller::installInterruptAction] *)
Definition installInterruptAction (port : Z) : M W unit :=
  keyboard ← field _interruptInstalledKeyboard;
  if (port =? kPS2KbdIdx) && negb keyboard then
    setCommandByte kCB_EnableKeyboardIRQ 0 ;;
    emit (EvRegisterInterrupt kIRQ_Keyboard) ;;
    emit (EvEnableInterrupt kIRQ_Keyboard) ;;
    update (fun c => {| c with _interruptInstalledKeyboard := true |})
  else when (kPS2KbdIdx <? port) (
    mouse ← field _interruptInstalledMouse;
    when (negb (nz mouse)) (
      mux ← field _muxPresent;
      when mux enableMuxPorts ;;
      setCommandByte kCB_EnableMouseIRQ 0 ;;
      emit (EvRegisterInterrupt kIRQ_Mouse) ;;
      emit (EvEnableInterrupt kIRQ_Mouse)) ;;
    update (fun c => {| c with _interruptInstalledMouse := _interruptInstalledMouse c + 1 |})).

(** [ApplePS2Controller::uninstallInterruptAction] *)
Definition uninstallInterruptAction (port : Z) : M W unit :=
  keyboard ← field _interruptInstalledKeyboard;
  if (port =? kPS2KbdIdx) && keyboard then
    setCommandByte 0 kCB_EnableKeyboardIRQ ;;
    emit (EvDisableInterrupt kIRQ_Keyboard) ;;
    emit (EvUnregisterInterrupt kIRQ_Keyboard) ;;
    update (fun c => {| c with _interruptInstalledKeyboard := false |})
  else when (kPS2KbdIdx <? port) (
    mouse ← field _interruptInstalledMouse;
    if negb (0 <? mouse) then crash else
    update (fun c => {| c with _interruptInstalledMouse := _interruptInstalledMouse c - 1 |}) ;;
    when (mouse - 1 =? 0) (
      setCommandByte 0 kCB_EnableMouseIRQ ;;
      emit (EvDisableInterrupt kIRQ_Mouse) ;;
      emit (EvUnregisterInterrupt kIRQ_Mouse))).

(** [ApplePS2Device::installInterruptAction] of the nub in slot [p]. *)
Definition deviceInstallInterruptAction (p : Z) (target : C)
    (action : Z -> M C PS2InterruptResult) (packet : option A) : M W unit :=
  d ← device p;
  setDevice p {| d with _client := Some target |} ;;
  installInterruptAction (_port d) ;;
  d' ← device p;
  setDevice p {| d' with _interrupt_action := Some action; _packet_action := packet |}.

(** [ApplePS2Device::uninstallInterruptAction] *)
Definition deviceUninstallInterruptAction (p : Z) : M W unit :=
  d ← device p;
  uninstallInterruptAction (_port d) ;;
  d' ← device p;
  setDevice p {| d' with _interrupt_action := None; _packet_action := None; _client := None |}.

(** [ApplePS2Device::installPowerControlAction], [uninstallPowerControlAction] *)
Definition installPowerControlAction (p : Z) (a : A) : M W unit :=
  d ← device p; setDevice p {| d with _power_action := Some a |}.

Definition uninstallPowerControlAction (p : Z) : M W unit :=
  d ← device p; setDevice p {| d with _power_action := None |}.

(** [ApplePS2Device::submitRequest], [submitRequestAndBlock] *)
Definition deviceSubmitRequest (p : Z) (request : PS2Request) : M W bool :=
  d ← device p; submitRequest {| request with port := _port d |}.

Definition deviceSubmitRequestAndBlock (p : Z) (request : PS2Request) : M W PS2Request :=
  d ← device p; submitRequestAndBlock {| request with port := _port d |}.

(** ** Reset and multiplexing *)

Definition resetController : M W unit :=
  update (fun c => {| c with _suppressTimeout := true |}) ;;
  kbdOnly ← field _kbdOnly;
  writeCommandPort kCP_DisableKeyboardClock ;;
  writeCommandPort kCP_DisableMouseClock ;;
  flushDataPort ;;
  when (negb kbdOnly) (writeCommandPort kCP_EnableMouseClock) ;;
  writeCommandPort kCP_EnableKeyboardClock ;;
  writeCommandPort kCP_GetCommandByte ;;
  commandByte ← readDataPort kPS2KbdIdx;
  writeCommandPort kCP_TestController ;;
  readDataPort kPS2KbdIdx ;;
  when (negb kbdOnly) (readDataPort kPS2AuxIdx ;; ret tt) ;;
  writeCommandPort kCP_TestKeyboardPort ;;
  readDataPort kPS2KbdIdx ;;
  when (negb kbdOnly) (writeCommandPort kCP_TestMousePort ;; readDataPort kPS2AuxIdx ;; ret tt) ;;
  update (fun c => {| c with _suppressTimeout := false |}) ;;
  let mask :=
    if negb kbdOnly
    then Z.lor (Z.lor (Z.lor kCB_EnableKeyboardIRQ kCB_EnableMouseIRQ) kCB_DisableMouseClock)
               kCB_DisableKeyboardClock
    else Z.lor (Z.lor kCB_EnableKeyboardIRQ kCB_EnableMouseIRQ) kCB_DisableKeyboardClock in
  writeCommandPort kCP_SetCommandByte ;;
  writeDataPort (Z.lor (clear_bits commandByte mask) kCB_TranslateMode).

Definition resetDevices : M W unit :=
  writeDataPort kDP_SetDefaultsAndDisable ;;
  readDataPort kPS2KbdIdx ;;
  mux ← field _muxPresent;
  kbdOnly ← field _kbdOnly;
  if negb mux then
    when (negb kbdOnly) (
      writeCommandPort kCP_TransmitToMouse ;;
      writeDataPort kDP_SetDefaultsAndDisable ;;
      readDataPort kPS2AuxIdx ;; ret tt)
  else
    for_each (seqZ 0 PS2_MUX_PORTS) (fun i =>
      writeCommandPort (kCP_TransmitToMuxedMouse + i) ;;
      writeDataPort kDP_SetDefaultsAndDisable ;;
      readDataPort (kPS2AuxIdx + i) ;; ret tt).

(** One byte of the multiplexing handshake and its echo. *)
Definition muxExchange (param : Z) : M W Z :=
  writeCommandPort kCP_WriteMouseOutputBuffer ;;
  writeDataPort param ;;
  readDataPort kPS2AuxIdx.

Definition setMuxMode (enable : bool) : M W bool :=
  r ← muxExchange kDP_MuxCmd;
  if negb (r =? kDP_MuxCmd) then ret false else
  let param := if enable then kDP_EnableMuxCmd1 else kDP_DisableMuxCmd1 in
  r ← muxExchange param;
  if negb (r =? param) then ret false else
  let param := if enable then kDP_GetMuxVersion else kDP_DisableMuxCmd2 in
  ver ← muxExchange param;
  ret (negb ((enable && (ver =? param)) || (negb enable && negb (ver =? param)))).

(** ** Start and stop *)

(** The part of [start] that talks to the hardware, before the work loop exists.
    The arguments are the boot arguments [ps2kbdonly] and [ps2rst], if given. *)
Definition startHardware (ps2kbdonly : option bool) (ps2rst : option Z) : M W unit :=
  update (fun c => {| c with _kbdOnly := default (_kbdOnly c) ps2kbdonly |}) ;;
  update (fun c => {| c with _resetControllerFlag := default (_resetControllerFlag c) ps2rst |}) ;;
  flag ← field _resetControllerFlag;
  kbdOnly ← field _kbdOnly;
  let onBoot := nz (Z.land flag RESET_CONTROLLER_ON_BOOT) in
  when onBoot resetController ;;
  (if kbdOnly : bool
   then update (fun c => {| c with _muxPresent := false; _nubsCount := 1 |})
   else
     mux ← setMuxMode true;
     update (fun c => {| c with _muxPresent := mux;
                         _nubsCount := if mux : bool then kPS2MuxMaxIdx else kPS2AuxMaxIdx |})) ;;
  when onBoot (resetDevices ;; flushDataPort).

(** [OSTypeAlloc], [init] and [attach] of the nub in slot [i]; the result says
    whether they succeeded (a nub that failed is released). *)
Definition createNub (attaches : Z -> bool) (i : Z) : M W bool :=
  ds ← field _devices;
  ds' ← deref (arr_set ds i (if attaches i then Some (init i) else None));
  update (fun c => {| c with _devices := ds' |}) ;;
  ret (attaches i).

(** The nubs of the slots [l], in order, until one fails. *)
Fixpoint createNubs (attaches : Z -> bool) (l : list Z) : M W bool :=
  match l with
  | [] => ret true
  | i :: l' =>
    ok ← createNub attaches i;
    if ok : bool then createNubs attaches l' else ret false
  end.

(** [stop]: the assertions, the notifiers, the nubs, then the queued requests,
    which complete as failed at command 0. *)
Definition stop : M W unit :=
  keyboard ← field _interruptInstalledKeyboard;
  mouse ← field _interruptInstalledMouse;
  if keyboard || nz mouse then crash else
  publish ← field _publishNotify;
  terminate ← field _terminateNotify;
  if negb publish || negb terminate then crash else
  update (fun c => {| c with _notificationServices := [];
                      _devices := replicate (Z.to_nat kPS2MuxMaxIdx) None |}) ;;
  l ← field _requestQueueLock;
  match l with
  | Some _ =>
    update (fun c => {| c with _hardwareOffline := true |}) ;;
    processRequestQueue ;;
    update (fun c => {| c with _requestQueueLock := None |})
  | None => ret tt
  end.

(** What the kernel grants to [start]: the work loop, its event sources and the
    thread call; the nubs; the notifications. *)
Record Resources := mkResources {
  res_queueLock : bool;
  res_workLoop : bool;
  res_attaches : Z -> bool;
  res_notifications : bool }.

Definition start (ps2kbdonly : option bool) (ps2rst : option Z) (res : Resources) : M W bool :=
  startHardware ps2kbdonly ps2rst ;;
  if negb (res_queueLock res) then (stop ;; ret false) else
  update (fun c => {| c with _requestQueueLock := Some false |}) ;;
  if negb (res_workLoop res) then (stop ;; ret false) else
  n ← field _nubsCount;
  ok ← createNubs (res_attaches res) (kPS2KbdIdx :: seqZ kPS2AuxIdx (n - kPS2AuxIdx));
  if negb ok then (stop ;; ret false) else
  for_each (seqZ kPS2KbdIdx n) (fun i => device i ;; emit (EvRegisterService i)) ;;
  when (res_notifications res)
    (update (fun c => {| c with _publishNotify := true; _terminateNotify := true |})) ;;
  ret true.

(** ** Power management *)

Definition dispatchDriverPowerControl (whatToDo port : Z) : M W unit :=
  if negb (port <? kPS2AuxMaxIdx) then crash else
  if port =? kPS2KbdIdx then powerAction kPS2KbdIdx whatToDo else
  n ← field _nubsCount;
  for_each (seqZ kPS2AuxIdx (n - kPS2AuxIdx)) (fun i => powerAction i whatToDo).

Definition powerSleep : M W unit :=
  update (fun c => {| c with _ignoreInterrupts := _ignoreInterrupts c + 1 |}) ;;
  setCommandByte 0 (Z.lor kCB_EnableKeyboardIRQ kCB_EnableMouseIRQ) ;;
  dispatchDriverPowerControl kPS2C_DisableDevice kPS2AuxIdx ;;
  dispatchDriverPowerControl kPS2C_DisableDevice kPS2KbdIdx ;;
  update (fun c => {| c with _hardwareOffline := true |}) ;;
  setCommandByte (Z.lor kCB_DisableKeyboardClock kCB_DisableMouseClock) 0 ;; ret tt.

Definition powerWake : M W unit :=
  wakedelay ← field _wakedelay;
  when (nz wakedelay) (emit (EvSleep (u32 wakedelay))) ;;
  flag ← field _resetControllerFlag;
  let onWakeup := nz (Z.land flag RESET_CONTROLLER_ON_WAKEUP) in
  when onWakeup resetController ;;
  mux ← field _muxPresent;
  when mux (setMuxMode true ;; ret tt) ;;
  when onWakeup (resetDevices ;; flushDataPort) ;;
  when mux enableMuxPorts ;;
  kbdOnly ← field _kbdOnly;
  (if negb kbdOnly
   then setCommandByte 0 (Z.lor (Z.lor (Z.lor kCB_DisableKeyboardClock kCB_DisableMouseClock)
                                       kCB_EnableKeyboardIRQ) kCB_EnableMouseIRQ)
   else setCommandByte 0 (Z.lor (Z.lor kCB_DisableKeyboardClock kCB_EnableKeyboardIRQ)
                                kCB_EnableMouseIRQ)) ;;
  update (fun c => {| c with _hardwareOffline := false |}) ;;
  mouseFirst ← field _mouseWakeFirst;
  (if negb mouseFirst then
     dispatchDriverPowerControl kPS2C_EnableDevice kPS2KbdIdx ;;
     dispatchDriverPowerControl kPS2C_EnableDevice kPS2AuxIdx
   else
     dispatchDriverPowerControl kPS2C_EnableDevice kPS2AuxIdx ;;
     dispatchDriverPowerControl kPS2C_EnableDevice kPS2KbdIdx) ;;
  (if negb kbdOnly
   then setCommandByte (Z.lor (Z.lor kCB_EnableKeyboardIRQ kCB_EnableMouseIRQ) kCB_SystemFlag) 0
   else setCommandByte (Z.lor kCB_EnableKeyboardIRQ kCB_SystemFlag) 0) ;;
  update (fun c => {| c with _ignoreInterrupts := _ignoreInterrupts c - 1 |}).

Definition setPowerStateGated (powerState : Z) : M W unit :=
  current ← field _currentPowerState;
  when (negb (current =? powerState)) (
    (if powerState =? kPS2PowerStateSleep then powerSleep
     else when (((powerState =? kPS2PowerStateDoze) || (powerState =? kPS2PowerStateNormal))
                && (current =? kPS2PowerStateSleep)) powerWake) ;;
    update (fun c => {| c with _currentPowerState := powerState |})) ;;
  emit EvAckPowerState.

(** ** Exclusive access *)

(** [lock], [unlock]: the lock is not recursive, and only a holder releases it. *)
Definition lock : M W unit :=
  l ← field _cmdbyteLock; held ← deref l;
  if held : bool then crash else update (fun c => {| c with _cmdbyteLock := Some true |}).

Definition unlock : M W unit :=
  l ← field _cmdbyteLock; held ← deref l;
  if held : bool then update (fun c => {| c with _cmdbyteLock := Some false |}) else crash.

(** ** Messages between drivers *)

Definition notificationHandlerPublishGated (newService : Z) : M W unit :=
  update (fun c => {| c with _notificationServices :=
    if bool_decide (newService ∈ _notificationServices c) then _notificationServices c
    else _notificationServices c ++ [newService] |}).

Definition notificationHandlerTerminateGated (newService : Z) : M W unit :=
  update (fun c => {| c with _notificationServices :=
    filter (fun s => s <> newService) (_notificationServices c) |}).

(** Every service in turn; each may change what [data] points to. *)
Fixpoint messageServices (l : list Z) (message : PS2Message) (data : MessageData)
  : M W MessageData :=
  match l with
  | [] => ret data
  | service :: l' =>
    emit (EvMessage service message data) ;;
    data' ← service_message service message data;
    messageServices l' message data'
  end.

Definition isModifierKey (adb : Z) : bool :=
  bool_decide (adb ∈ [0x38; 0x3c; 0x3b; 0x3e; 0x3a; 0x3d; 0x37; 0x36; 0x3f]).

(** [depth] bounds the recursion of the code, which is never deeper than 2. *)
Fixpoint dispatchMessageGated (depth : nat) (message : PS2Message) (data : MessageData)
  : M W MessageData :=
  match depth with
  | O => crash
  | S depth' =>
    services ← field _notificationServices;
    data ← messageServices services message data;
    if bool_decide (message = kPS2M_notifyKeyPressed) then
      match data with
      | KeyInfoPtr pInfo =>
        if isModifierKey (adbKeyCode pInfo) then ret data else
        r ← dispatchMessageGated depth' kPS2M_notifyKeyTime (TimePtr (ki_time pInfo));
        ret (match r with
             | TimePtr t => KeyInfoPtr {| pInfo with ki_time := t |}
             | _ => data
             end)
      | _ => crash
      end
    else ret data
  end.

End Controller.
