(* ===== verification/ControllerLemmas.v ===== *)
(** * Frame and safety of the controller's operations

    [keeps m]: [m] may deliver bytes to the clients and empty the request queue,
    but leaves every other member of the controller as it finds it.
    [safe P m]: from a well-formed controller that satisfies [P], [m] does not
    crash (no null device, no index out of range, no failed assertion, no
    deadlock) and the controller stays well-formed.  Both are closed under the
    monad's operations and hold of the port routines, for every behaviour of the
    hardware; the hint databases [keeps] and [safe] apply them. *)
From S2P Require Import Prelude PS2Types Controller.

Section Frame.
Context {C A : Type}.
#[local] Abbreviation W := (World C A).
#[local] Abbreviation Ctl := (ApplePS2Controller C A).
#[local] Abbreviation Dev := (ApplePS2Device C A).
Implicit Types (w : W) (c : Ctl).

(** Two states of a device between which only client data changed. *)
Definition same_device (o o' : option Dev) : Prop :=
  match o, o' with
  | None, None => True
  | Some d, Some d' => d' = {| d with _client := _client d' |} /\
                       (is_Some (_client d) <-> is_Some (_client d'))
  | _, _ => False
  end.

Record same_ctl (c c' : Ctl) : Prop := {
  same_fields : c' = {| c with _devices := _devices c'; _requestQueue := _requestQueue c' |};
  same_devices : Forall2 same_device (_devices c) (_devices c') }.

(** ... while answers are consumed and the trace grows. *)
Record evolves (w w' : W) : Prop := {
  ev_ctl : same_ctl (ctl w) (ctl w');
  ev_hw : hw w' `suffix_of` hw w;
  ev_trace : trace w `prefix_of` trace w' }.

Definition keeps {X} (m : M W X) : Prop :=
  forall w w' a, m w = Ok (w', a) -> evolves w w'.

#[export] Instance same_device_preorder : PreOrder same_device.
Proof.
  split.
  - intros [[]|]; simpl; [split; [done|tauto]|done].
  - intros [d1|] [d2|] [d3|]; simpl; try tauto.
    intros [H1 K1] [H2 K2]. rewrite K1. split; [|done]. rewrite H2, H1. done.
Qed.

#[export] Instance same_ctl_preorder : PreOrder same_ctl.
Proof.
  split.
  - intros c. split; [by destruct c|reflexivity].
  - intros c1 c2 c3 [H1 D1] [H2 D2]. split; [rewrite H2, H1; done|by etransitivity].
Qed.

#[export] Instance evolves_preorder : PreOrder evolves.
Proof.
  split; [intros w; split; reflexivity|].
  intros w1 w2 w3 [] []. split; by etransitivity.
Qed.

Lemma keeps_ret {X} (a : X) : keeps (ret a).
Proof. intros w w' b [= <- <-]. reflexivity. Qed.

Lemma keeps_bind {X Y} (m : M W X) (k : X -> M W Y) :
  keeps m -> (forall a, keeps (k a)) -> keeps (m ≫= k).
Proof.
  intros Hm Hk w w' b E. apply bind_inv in E as (w1 & a & E1 & E2).
  etransitivity; [by eapply Hm|by eapply Hk].
Qed.

Lemma keeps_gets {X} (f : W -> X) : keeps (gets f).
Proof. intros w w' b [= <- <-]. reflexivity. Qed.

Lemma keeps_emit (e : Event) : keeps (emit e).
Proof. intros w w' b [= <- <-]. split; simpl; [reflexivity|reflexivity|by eexists]. Qed.

Lemma keeps_crash {X} : keeps (X := X) crash.
Proof. intros w w' b [=]. Qed.

Lemma keeps_wait {X} : keeps (X := X) wait.
Proof. intros w w' b [=]. Qed.

Lemma keeps_when (b : bool) (m : M W unit) : keeps m -> keeps (when b m).
Proof. destruct b; [done|intros _; apply keeps_ret]. Qed.

Lemma keeps_deref {X} (o : option X) : keeps (deref o).
Proof. destruct o; [apply keeps_ret|apply keeps_crash]. Qed.

Lemma keeps_for_each {X} (l : list X) (f : X -> M W unit) :
  (forall x, keeps (f x)) -> keeps (for_each l f).
Proof.
  intros Hf. induction l; simpl; [apply keeps_ret|]. by apply keeps_bind.
Qed.

Lemma keeps_loop {X Y} (size : W -> nat) (body : X -> M W (X + Y)) a :
  (forall a, keeps (body a)) -> keeps (loop size body a).
Proof.
  intros Hb w w'. unfold loop. generalize (Datatypes.S (size w)). intros f. revert a w w'.
  induction f as [|f IH]; intros a w w' b E; simpl in E; [done|].
  destruct (body a w) as [[w1 [a'|b']]| |] eqn:E1; try done.
  - etransitivity; [by eapply Hb|by eapply IH].
  - injection E as <- <-. by eapply Hb.
Qed.

(** A counter incremented around [m] is back at its value afterwards. *)
Lemma keeps_ignoringInterrupts {X} (m : M W X) : keeps m -> keeps (ignoringInterrupts m).
Proof.
  intros Hm w w' b E. apply bind_inv in E as (w1 & [] & [= <-] & E).
  apply bind_inv in E as (w2 & x & E2 & E). injection E as <- <-.
  apply Hm in E2 as [[H D] ? ?]. simpl in *. split; [|done..]. split; [|exact D].
  simpl. rewrite H. simpl. rewrite Z.add_simpl_r. by destruct (ctl w).
Qed.

End Frame.

Create HintDb keeps.
#[export] Hint Resolve keeps_ret keeps_gets keeps_emit keeps_crash keeps_wait keeps_deref : keeps.

(** Walks through a computation that keeps the controller. *)
Ltac keeps_step :=
  match goal with
  | |- keeps (field _) => apply keeps_gets
  | |- keeps (_ ≫= _) => apply keeps_bind; [|intros ?]
  | |- keeps (when _ _) => apply keeps_when
  | |- keeps (for_each _ _) => apply keeps_for_each; intros ?
  | |- keeps (ignoringInterrupts _) => apply keeps_ignoringInterrupts
  | |- keeps (loop _ _ _) => apply keeps_loop; intros ?
  | |- keeps (let '(_, _) := ?x in _) => destruct x
  | |- keeps (if ?b then _ else _) => destruct b
  | |- keeps (match ?x with _ => _ end) => destruct x
  | |- keeps _ => solve [eauto with keeps]
  end.
Ltac keeps := repeat (cbv zeta; keeps_step).

Section Keeps.
Context {C A : Type}.
Context (power_action : A -> Z -> M (World C A) unit).
#[local] Abbreviation W := (World C A).
#[local] Abbreviation Ctl := (ApplePS2Controller C A).
Implicit Types (w : W) (c : Ctl).

Lemma keeps_inb p : keeps (C := C) (A := A) (inb p).
Proof.
  intros w w' b. unfold inb. destruct (hw w) as [|s l] eqn:E; [done|]. intros [= <- <-].
  split; simpl; [reflexivity|rewrite E; by exists [s]|reflexivity].
Qed.
Hint Resolve keeps_inb : keeps.

Lemma keeps_outb p b : keeps (C := C) (A := A) (outb p b).
Proof. apply keeps_emit. Qed.
Hint Resolve keeps_outb : keeps.

Lemma keeps_writeDataPort b : keeps (C := C) (A := A) (writeDataPort b).
Proof. unfold writeDataPort, waitInputFree. keeps. Qed.

Lemma keeps_writeCommandPort b : keeps (C := C) (A := A) (writeCommandPort b).
Proof. unfold writeCommandPort, waitInputFree. keeps. Qed.
Hint Resolve keeps_writeDataPort keeps_writeCommandPort : keeps.

Lemma keeps_device p : keeps (C := C) (A := A) (device p).
Proof. unfold device. keeps. Qed.
Hint Resolve keeps_device : keeps.

(** What [device] and [setDevice] do to the slots. *)
Lemma device_ok p w w' (d : ApplePS2Device C A) :
  device p w = Ok (w', d) -> w' = w /\ arr_get (_devices (ctl w)) p = Some (Some d).
Proof.
  unfold device, field, gets, mbind, M_bind, bind. simpl.
  destruct (arr_get (_devices (ctl w)) p) as [[d'|]|]; simpl; try done. by intros [= <- <-].
Qed.

Lemma setDevice_ok p (d : ApplePS2Device C A) w w' u :
  setDevice p d w = Ok (w', u) ->
  exists l, arr_set (_devices (ctl w)) p (Some d) = Some l /\
    w' = {| w with ctl := {| (ctl w) with _devices := l |} |}.
Proof.
  unfold setDevice, field, gets, mbind, M_bind, bind. simpl.
  destruct (arr_set _ _ _) as [l|] eqn:E; simpl; [|done]. intros [= <- <-]. eauto.
Qed.

Lemma same_ctl_setDevice c p (d d' : ApplePS2Device C A) l :
  arr_get (_devices c) p = Some (Some d) -> arr_set (_devices c) p (Some d') = Some l ->
  same_device (Some d) (Some d') -> same_ctl c {| c with _devices := l |}.
Proof.
  unfold arr_get, arr_set. intros Hg Hs Hd. destruct (p <? 0); [done|].
  destruct (_ && _); [|done]. injection Hs as <-. split; [by destruct c|]. simpl.
  rewrite <- (list_insert_id _ _ _ Hg) at 1. apply Forall2_insert; [reflexivity|done].
Qed.

Lemma keeps_interruptAction p b : keeps (C := C) (A := A) (interruptAction p b).
Proof.
  intros w w' r E. unfold interruptAction in E. apply bind_inv in E as (w1 & d & E1 & E).
  apply device_ok in E1 as [-> Hd].
  destruct (_client d) as [cl|] eqn:Ec; [|injection E as <- <-; reflexivity].
  destruct (_interrupt_action d) as [f|] eqn:Ef; [|injection E as <- <-; reflexivity].
  apply bind_inv in E as (w1 & [] & [= <-] & E).
  destruct (f (u8 b) cl) as [[c' r']| |]; try done.
  apply bind_inv in E as (w2 & [] & E2 & [= <- <-]).
  apply setDevice_ok in E2 as (l & Hl & ->). simpl in *.
  split; [|reflexivity|by eexists]. simpl. eapply same_ctl_setDevice; [done|done|]. simpl. rewrite Ec, ?Ef. split; [done|]. split; intros _; by eexists.
Qed.
Hint Resolve keeps_interruptAction : keeps.

Lemma keeps_packetActionInterrupt p : keeps (C := C) (A := A) (packetActionInterrupt p).
Proof. unfold packetActionInterrupt. keeps. Qed.
Hint Resolve keeps_packetActionInterrupt : keeps.

Lemma keeps_getPortFromStatus s : keeps (C := C) (A := A) (getPortFromStatus s).
Proof. unfold getPortFromStatus. keeps. Qed.
Hint Resolve keeps_getPortFromStatus : keeps.

Lemma keeps__dispatch p b : keeps (C := C) (A := A) (_dispatchDriverInterrupt p b).
Proof. unfold _dispatchDriverInterrupt. keeps. Qed.
Hint Resolve keeps__dispatch : keeps.

Lemma keeps_dispatch p b : keeps (C := C) (A := A) (dispatchDriverInterrupt p b).
Proof. unfold dispatchDriverInterrupt. keeps. Qed.
Hint Resolve keeps_dispatch : keeps.

Lemma keeps_handleInterrupt : keeps (C := C) (A := A) handleInterrupt.
Proof. unfold handleInterrupt, handleInterruptByte. keeps. Qed.

Lemma keeps_waitOutputReady t s : keeps (C := C) (A := A) (waitOutputReady t s).
Proof. unfold waitOutputReady. keeps. Qed.
Hint Resolve keeps_waitOutputReady : keeps.

Lemma keeps_readDataPort p : keeps (C := C) (A := A) (readDataPort p).
Proof. unfold readDataPort, readDataPortRound. keeps. Qed.

Lemma keeps_readDataPortExpect p b : keeps (C := C) (A := A) (readDataPortExpect p b).
Proof. unfold readDataPortExpect, readDataPortExpectRound. keeps. Qed.

Lemma keeps_flushCount n : keeps (C := C) (A := A) (flushCount n).
Proof. unfold flushCount. keeps. Qed.
Hint Resolve keeps_readDataPort keeps_readDataPortExpect keeps_flushCount : keeps.

Lemma keeps_transmitTo p : keeps (C := C) (A := A) (transmitTo p).
Proof. unfold transmitTo. keeps. Qed.
Hint Resolve keeps_transmitTo : keeps.

Lemma keeps_processCommand p cmd : keeps (C := C) (A := A) (processCommand p cmd).
Proof. unfold processCommand. keeps. Qed.
Hint Resolve keeps_processCommand : keeps.

Lemma keeps_processCommands n p i l : keeps (C := C) (A := A) (processCommands n p i l).
Proof. revert i l. induction n; intros i l; simpl; keeps; auto. Qed.
Hint Resolve keeps_processCommands : keeps.

Lemma keeps_completeRequest r : keeps (C := C) (A := A) (completeRequest r).
Proof. unfold completeRequest. keeps. Qed.
Hint Resolve keeps_completeRequest : keeps.

Lemma keeps_processRequest r : keeps (C := C) (A := A) (processRequest r).
Proof. unfold processRequest. keeps. Qed.
Hint Resolve keeps_processRequest : keeps.

Lemma keeps_setCommandByteGated r : keeps (C := C) (A := A) (setCommandByteGated r).
Proof. unfold setCommandByteGated. keeps. Qed.
Hint Resolve keeps_setCommandByteGated : keeps.

Lemma keeps_setCommandByte s cl : keeps (C := C) (A := A) (setCommandByte s cl).
Proof. unfold setCommandByte. keeps. Qed.
Hint Resolve keeps_setCommandByte : keeps.

Lemma keeps_setMuxMode b : keeps (C := C) (A := A) (setMuxMode b).
Proof. unfold setMuxMode, muxExchange. keeps. Qed.

Lemma keeps_enableMuxPorts : keeps (C := C) (A := A) enableMuxPorts.
Proof. unfold enableMuxPorts. keeps. Qed.

Lemma keeps_resetDevices : keeps (C := C) (A := A) resetDevices.
Proof. unfold resetDevices. keeps. Qed.

End Keeps.
#[export] Hint Resolve keeps_inb keeps_outb keeps_writeDataPort keeps_writeCommandPort keeps_device
  keeps_interruptAction keeps_packetActionInterrupt keeps_getPortFromStatus keeps__dispatch
  keeps_dispatch keeps_handleInterrupt keeps_waitOutputReady keeps_readDataPort
  keeps_readDataPortExpect keeps_flushCount keeps_transmitTo keeps_processCommand keeps_processCommands
  keeps_completeRequest keeps_processRequest keeps_setCommandByteGated keeps_setCommandByte
  keeps_setMuxMode keeps_enableMuxPorts keeps_resetDevices : keeps.

(** ** Safety *)
Section Safe.
Context {C A : Type} (Cok : C -> Prop).
#[local] Abbreviation W := (World C A).
#[local] Abbreviation Ctl := (ApplePS2Controller C A).
Implicit Types (w : W) (c : Ctl).

Definition nonnull c (p : Z) : Prop := exists d, arr_get (_devices c) p = Some (Some d).

(** A device whose client keeps its own invariant [Cok] on every byte. *)
Definition client_ok (d : ApplePS2Device C A) : Prop :=
  forall cl f, _client d = Some cl -> _interrupt_action d = Some f ->
  Cok cl /\ forall cl b, Cok cl -> is_byte b -> wp (f b) (fun _ cl' => Cok cl') cl.

(** The ports a status byte can name. *)
Definition port_ok c (p : Z) : Prop :=
  p = kPS2KbdIdx \/ p = kPS2AuxIdx \/
  (_muxPresent c = true /\ kPS2AuxIdx <= p < kPS2MuxMaxIdx).

(** A request never holds fewer commands than it says. *)
Definition request_ok (r : PS2Request) : Prop :=
  0 <= commandsCount r <= Z.of_nat (length (commands r)).

(** Bytes are only dispatched to nubs that exist. *)
Record ctl_ok c : Prop := {
  cok_devices : Z.of_nat (length (_devices c)) = kPS2MuxMaxIdx;
  cok_keyboard : _interruptInstalledKeyboard c = true -> nonnull c kPS2KbdIdx;
  cok_mouse : _interruptInstalledMouse c <> 0 ->
    nonnull c kPS2AuxIdx /\
    (_muxPresent c = true -> forall p, kPS2AuxIdx <= p < kPS2MuxMaxIdx -> nonnull c p);
  cok_nubs : 0 <= _nubsCount c <= kPS2MuxMaxIdx;
  cok_queue : Forall request_ok (_requestQueue c);
  cok_clients : forall p d, arr_get (_devices c) p = Some (Some d) -> client_ok d }.

(** The members no request, interrupt or power change modifies. *)
Record static c c' : Prop := {
  st_mux : _muxPresent c' = _muxPresent c;
  st_nubs : _nubsCount c' = _nubsCount c;
  st_lock : _requestQueueLock c' = _requestQueueLock c;
  st_kbdOnly : _kbdOnly c' = _kbdOnly c;
  st_nonnull : forall p, nonnull c p -> nonnull c' p }.

Lemma same_ctl_nonnull c c' p : same_ctl c c' -> nonnull c p -> nonnull c' p.
Proof.
  intros [_ D] [d Hd]. unfold nonnull, arr_get in *. destruct (p <? 0); [done|].
  destruct (Forall2_lookup_l _ _ _ _ _ D Hd) as ([d'|] & Hd' & H); [by exists d'|done].
Qed.

Lemma same_ctl_static c c' : same_ctl c c' -> static c c'.
Proof.
  intros H. split; [by rewrite (same_fields _ _ H)..|]. intros p. by apply same_ctl_nonnull.
Qed.

Class Framed (P : Ctl -> Prop) := framed c c' : static c c' -> P c -> P c'.

#[export] Instance framed_True : Framed (fun _ => True).
Proof. done. Qed.
#[export] Instance framed_and P Q : Framed P -> Framed Q -> Framed (fun c => P c /\ Q c).
Proof. intros HP HQ c c' H []. split; [by eapply HP|by eapply HQ]. Qed.
#[export] Instance framed_port p : Framed (fun c => port_ok c p).
Proof. intros c c' H. unfold port_ok. by rewrite (st_mux _ _ H). Qed.
#[export] Instance framed_lock o : Framed (fun c => _requestQueueLock c = o).
Proof. intros c c' H. by rewrite (st_lock _ _ H). Qed.
#[export] Instance framed_nonnull p : Framed (fun c => nonnull c p).
Proof. intros c c' H. apply H. Qed.

Definition safe (P : Ctl -> Prop) {X} (m : M W X) : Prop :=
  forall w, ctl_ok (ctl w) -> P (ctl w) -> wp m (fun _ w' => ctl_ok (ctl w')) w.

Lemma safe_bind (P : Ctl -> Prop) `{!Framed P} {X Y} (m : M W X) (k : X -> M W Y) :
  keeps m -> safe P m -> (forall a, safe P (k a)) -> safe P (m ≫= k).
Proof.
  intros Hk Hm Hs w Hw HP. apply wp_bind. pose proof (Hm w Hw HP) as Hm'.
  unfold wp in Hm' |- *. destruct (m w) as [[w1 a]| |] eqn:E; [|done..].
  apply (Hs a w1 Hm'). eapply framed; [|exact HP]. by eapply same_ctl_static, ev_ctl, Hk.
Qed.

Lemma safe_mono (P Q : Ctl -> Prop) {X} (m : M W X) :
  (forall c, Q c -> P c) -> safe P m -> safe Q m.
Proof. intros HPQ Hm w Hw HQ. by apply Hm, HPQ. Qed.

Lemma safe_ret P {X} (a : X) : safe P (ret a).
Proof. intros w Hw _. by apply wp_ret. Qed.

Lemma safe_wait P {X} : safe P (wait (A := X)).
Proof. intros w Hw _. done. Qed.

Lemma safe_gets P {X} (f : W -> X) : safe P (gets f).
Proof. intros w Hw _. done. Qed.

Lemma safe_emit P e : safe P (emit e).
Proof. intros w Hw _. done. Qed.

Lemma safe_when P (b : bool) (m : M W unit) : safe P m -> safe P (when b m).
Proof. destruct b; [done|intros _; apply safe_ret]. Qed.

Lemma safe_for_each (P : Ctl -> Prop) `{!Framed P} {X} (l : list X) (f : X -> M W unit) :
  (forall x, keeps (f x)) -> (forall x, x ∈ l -> safe P (f x)) -> safe P (for_each l f).
Proof.
  intros Hk. induction l as [|x l IH]; intros Hf; simpl; [apply safe_ret|].
  apply safe_bind; [done|done|apply Hf; set_solver|]. intros []. apply IH. set_solver.
Qed.

Lemma safe_loop (P : Ctl -> Prop) `{!Framed P} {X Y} (size : W -> nat)
    (body : X -> M W (X + Y)) a :
  (forall a, keeps (body a)) -> (forall a, safe P (body a)) -> safe P (loop size body a).
Proof.
  intros Hk Hs w Hw HP.
  apply (wp_loop _ _ (fun _ w' => ctl_ok (ctl w') /\ P (ctl w'))); [done|].
  clear w Hw HP. intros a' w [Hw HP]. pose proof (Hs a' w Hw HP) as H. unfold wp in H |- *.
  destruct (body a' w) as [[w1 [a1|b]]| |] eqn:E; [|done..]. split; [done|].
  eapply framed; [|exact HP]. by eapply same_ctl_static, ev_ctl, Hk.
Qed.

(** Updates of members that [ctl_ok] does not mention. *)
Lemma safe_update P (f : Ctl -> Ctl) :
  (forall c, ctl_ok c -> P c -> ctl_ok (f c)) -> safe P (update f).
Proof. intros Hf w Hw HP. apply wp_modify. by apply Hf. Qed.

Lemma ctl_ok_ignore c z : ctl_ok c -> ctl_ok {| c with _ignoreInterrupts := z |}.
Proof. intros []. by split. Qed.

Lemma safe_ignoringInterrupts (P : Ctl -> Prop) `{!Framed P} {X} (m : M W X) :
  safe P m -> safe P (ignoringInterrupts m).
Proof.
  intros Hm w Hw HP. apply wp_bind, wp_modify. apply wp_bind.
  eapply wp_mono; [apply Hm|].
  - by apply ctl_ok_ignore.
  - simpl. eapply framed; [|exact HP]. by split.
  - intros a w1 Hw1. apply wp_bind, wp_modify, wp_ret. by apply ctl_ok_ignore.
Qed.

End Safe.

Create HintDb safe.
#[export] Hint Resolve safe_ret safe_wait safe_gets safe_emit : safe.

(** Walks through a computation that does not crash. *)
Ltac safe_step :=
  match goal with
  | |- safe _ _ (field _) => apply safe_gets
  | |- safe _ _ (_ ≫= _) => apply safe_bind; [apply _|solve [keeps]| |intros ?]
  | |- safe _ _ (when _ _) => apply safe_when
  | |- safe _ _ (for_each _ _) => apply safe_for_each; [apply _|intros ?; solve [keeps]|intros ? ?]
  | |- safe _ _ (loop _ _ _) => apply safe_loop; [apply _|intros ?; solve [keeps]|intros ?]
  | |- safe _ _ (ignoringInterrupts _) => apply safe_ignoringInterrupts; [apply _|]
  | |- safe _ _ (let '(_, _) := ?x in _) => destruct x
  | |- safe _ _ (if ?b then _ else _) => destruct b
  | |- safe _ _ (match ?x with _ => _ end) => destruct x
  | |- safe _ _ _ => solve [eauto with safe]
  end.
Ltac safe := repeat (cbv zeta; safe_step).

Section SafeOps.
Context {C A : Type} (Cok : C -> Prop).
#[local] Abbreviation W := (World C A).
#[local] Abbreviation Ctl := (ApplePS2Controller C A).
#[local] Abbreviation safe := (safe (A := A) Cok).
#[local] Abbreviation ctl_ok := (ctl_ok (A := A) Cok).
Implicit Types (w : W) (c : Ctl) (P : Ctl -> Prop).

Lemma safe_inb P p : safe P (inb p).
Proof. intros w Hw _. unfold wp, inb. by destruct (hw w). Qed.
Hint Resolve safe_inb : safe.

Lemma safe_outb P p b : safe P (outb p b).
Proof. apply safe_emit. Qed.
Hint Resolve safe_outb : safe.

Lemma safe_writeDataPort P `{!Framed P} b : safe P (writeDataPort b).
Proof. unfold writeDataPort, waitInputFree. safe. Qed.

Lemma safe_writeCommandPort P `{!Framed P} b : safe P (writeCommandPort b).
Proof. unfold writeCommandPort, waitInputFree. safe. Qed.
Hint Resolve safe_writeDataPort safe_writeCommandPort : safe.

Lemma device_nonnull w p :
  nonnull (ctl w) p -> exists d, device p w = Ok (w, d) /\
    arr_get (_devices (ctl w)) p = Some (Some d).
Proof.
  intros [d Hd]. exists d. split; [|done].
  unfold device, field, gets, mbind, M_bind, bind. simpl. by rewrite Hd.
Qed.

Lemma safe_device P p : (forall c, P c -> nonnull c p) -> safe P (device p).
Proof.
  intros HP w Hw H. destruct (device_nonnull w p (HP _ H)) as (d & E & _).
  unfold wp. by rewrite E.
Qed.

(** Storing a device whose client is fine into an occupied slot. *)
Lemma setDevice_safe w p d d0 :
  ctl_ok (ctl w) -> arr_get (_devices (ctl w)) p = Some (Some d0) -> client_ok Cok d ->
  wp (setDevice p d) (fun _ w' => ctl_ok (ctl w')) w.
Proof.
  intros [Hlen Hkb Hms Hnubs Hq Hcl] Hg Hd. pose proof (arr_get_bound _ _ _ Hg) as Hb.
  unfold setDevice. apply wp_bind, wp_gets. apply wp_bind, wp_deref.
  eexists. split; [by apply arr_set_Some|]. apply wp_modify.
  set (c' := {| (ctl w) with _devices := _ |}). simpl.
  assert (Hn : forall q, nonnull (ctl w) q -> nonnull c' q).
  { intros q [dq Hdq]. pose proof (arr_get_bound _ _ _ Hdq). unfold nonnull. simpl.
    rewrite arr_get_insert by lia. destruct (p =? q); eauto. }
  split; simpl.
  - by rewrite length_insert.
  - intros H. by apply Hn, Hkb.
  - intros H. destruct (Hms H) as [H1 H2]. split; [by apply Hn|]. intros. by apply Hn, H2.
  - done.
  - done.
  - intros q dq Hg'. pose proof (arr_get_bound _ _ _ Hg'). rewrite arr_get_insert in Hg' by lia.
    destruct (p =? q); [by injection Hg' as <-|by eapply Hcl].
Qed.

Lemma safe_interruptAction P p b :
  (forall c, P c -> nonnull c p) -> safe P (interruptAction p b).
Proof.
  intros HP w Hw H. destruct (device_nonnull w p (HP _ H)) as (d & E & Hd).
  unfold interruptAction. apply wp_bind. unfold wp at 1. rewrite E.
  destruct (_client d) as [cl|] eqn:Ec; [|by apply wp_ret].
  destruct (_interrupt_action d) as [f|] eqn:Ef; [|by apply wp_ret].
  destruct (cok_clients _ _ Hw _ _ Hd cl f Ec Ef) as [Hcl Hf].
  apply wp_bind, wp_modify. pose proof (Hf cl (u8 b) Hcl (u8_range b)) as Hr. unfold wp in Hr.
  destruct (f (u8 b) cl) as [[cl' r]| |]; [|done..].
  apply wp_bind. eapply wp_mono.
  - eapply setDevice_safe; [exact Hw|exact Hd|]. intros cl1 f1 Hc1 Hf1. simpl in *.
    injection Hc1 as <-. by injection Hf1 as <-.
  - intros [] w1 Hw1. by apply wp_ret.
Qed.

Lemma safe__dispatch P p b : (forall c, P c -> port_ok c p) -> safe P (_dispatchDriverInterrupt p b).
Proof.
  intros HP w Hw H. specialize (HP _ H). unfold _dispatchDriverInterrupt.
  apply wp_bind, wp_gets. apply wp_bind, wp_gets.
  destruct ((kPS2AuxIdx <=? p) && nz (_interruptInstalledMouse (ctl w))) eqn:E1.
  - apply andb_prop in E1 as [Ea Em]. unfold nz in Em. apply negb_true_iff in Em.
    destruct (cok_mouse _ _ Hw ltac:(lia)) as [H1 H2].
    apply (safe_interruptAction (fun c => nonnull c p)); [done|done|].
    unfold kPS2AuxIdx in *.
    destruct HP as [->|[->|[Hm Hr]]]; [done|done|by apply H2].
  - destruct ((kPS2KbdIdx =? p) && _interruptInstalledKeyboard (ctl w)) eqn:E2.
    + apply andb_prop in E2 as [_ Ek].
      apply (safe_interruptAction (fun c => nonnull c kPS2KbdIdx)); [done|done|].
      by apply (cok_keyboard _ _ Hw).
    + by apply wp_ret.
Qed.

(** A byte that makes a packet ready was delivered to a device, so the device can
    be signalled. *)
Lemma _dispatch_ready w w' p b r :
  _dispatchDriverInterrupt p b w = Ok (w', r) -> is_packetReady r = true -> nonnull (ctl w') p.
Proof.
  intros E Hr. assert (Hs := ev_ctl _ _ (keeps__dispatch p b w w' r E)).
  eapply same_ctl_nonnull; [exact Hs|]. unfold _dispatchDriverInterrupt in E.
  apply bind_inv in E as (w1 & m & [= <- <-] & E). apply bind_inv in E as (w1 & k & [= <- <-] & E).
  assert (Hi : forall q w' , interruptAction q b w = Ok (w', r) -> nonnull (ctl w) q).
  { intros q w1 Ei. unfold interruptAction in Ei. apply bind_inv in Ei as (w2 & d & Ed & _).
    apply device_ok in Ed as [_ Hd]. by exists d. }
  destruct (_ && nz _); [by eapply Hi|].
  destruct (Z.eqb_spec kPS2KbdIdx p) as [<-|]; simpl in E.
  - destruct (_interruptInstalledKeyboard (ctl w)); [by eapply Hi|by injection E as <- <-].
  - by injection E as <- <-.
Qed.

Lemma safe_dispatch P `{!Framed P} p b :
  (forall c, P c -> port_ok c p) -> safe P (dispatchDriverInterrupt p b).
Proof.
  intros HP w Hw H. apply wp_bind. pose proof (safe__dispatch P p b HP w Hw H) as Hs.
  unfold wp in Hs |- *. destruct (_dispatchDriverInterrupt p b w) as [[w1 r]| |] eqn:E; [|done..].
  destruct (is_packetReady r) eqn:Er; simpl; [|done].
  destruct (device_nonnull w1 p (_dispatch_ready _ _ _ _ _ E Er)) as (d & Ed & _).
  unfold packetActionInterrupt, mbind, M_bind, bind. by rewrite Ed.
Qed.

(** The port of a status byte is one that bytes may be dispatched to. *)
Lemma getPortFromStatus_ok s w w' p :
  getPortFromStatus s w = Ok (w', p) -> w' = w /\ port_ok (ctl w) p.
Proof.
  unfold getPortFromStatus. intros E. apply bind_inv in E as (w1 & mux & [= <- <-] & E).
  injection E as <- <-. split; [done|]. unfold port_ok.
  destruct (nz (Z.land s kMouseData)); [|rewrite andb_false_r; auto].
  destruct (_muxPresent (ctl w)) eqn:Em; simpl; [|auto]. right; right. split; [done|].
  pose proof (land_bound PS2_STA_MUX_MASK (Z.shiftr s PS2_STA_MUX_SHIFT) 2 ltac:(lia) ltac:(done)) as Hl.
  rewrite Z.land_comm in Hl. unfold kPS2AuxIdx, kPS2MuxMaxIdx, PS2_MUX_PORTS. lia.
Qed.

Lemma safe_getPort P `{!Framed P} {X} s (k : Z -> M W X) :
  (forall p, safe (fun c => P c /\ port_ok c p) (k p)) -> safe P (p ← getPortFromStatus s; k p).
Proof.
  intros Hk w Hw HP. apply wp_bind. unfold wp at 1.
  destruct (getPortFromStatus s w) as [[w1 p]| |] eqn:E; [|done|].
  - apply getPortFromStatus_ok in E as [-> Hp]. by apply Hk.
  - unfold getPortFromStatus in E. done.
Qed.
Lemma safe_waitOutputReady P `{!Framed P} t s : safe P (waitOutputReady t s).
Proof. unfold waitOutputReady. safe. Qed.
Hint Resolve safe_waitOutputReady : safe.

Lemma safe_readDataPort P `{!Framed P} p : safe P (readDataPort p).
Proof.
  unfold readDataPort. apply safe_loop; [done|unfold readDataPortRound; intros; keeps|].
  intros [t s]. unfold readDataPortRound. safe_step; [safe|]. destruct a as [t' s'].
  destruct (t' =? 0); [safe|]. safe_step; [safe|]. safe_step; [safe|].
  safe_step; [safe|]. apply safe_getPort; [done|]. intros p'. safe_step; [safe|].
  safe_step; [|safe]. apply safe_dispatch; [apply _|tauto].
Qed.

Lemma safe_readDataPortExpect P `{!Framed P} p b : safe P (readDataPortExpect p b).
Proof.
  unfold readDataPortExpect.
  apply safe_loop; [done|unfold readDataPortExpectRound; intros; keeps|].
  intros [[t s] fb]. unfold readDataPortExpectRound. safe_step; [safe|]. destruct a as [t' s'].
  destruct (t' =? 0); [safe|]. safe_step; [safe|]. apply safe_getPort; [done|]. intros p'.
  safe_step; [safe|]. destruct (Z.eqb_spec p p') as [<-|].
  - safe; apply safe_dispatch; (apply _ || tauto).
  - safe. apply safe_dispatch; [apply _|tauto].
Qed.

Lemma safe_flushCount P `{!Framed P} n : safe P (flushCount n).
Proof. unfold flushCount. safe. Qed.
Hint Resolve safe_readDataPort safe_readDataPortExpect safe_flushCount : safe.

Lemma safe_transmitTo P `{!Framed P} p : safe P (transmitTo p).
Proof. unfold transmitTo. safe. Qed.
Hint Resolve safe_transmitTo : safe.

Lemma safe_processCommand P `{!Framed P} p cmd : safe P (processCommand p cmd).
Proof. unfold processCommand. safe. Qed.
Hint Resolve safe_processCommand : safe.

Lemma safe_processCommands P `{!Framed P} n p i l :
  0 <= i -> i + Z.of_nat n <= Z.of_nat (length l) -> safe P (processCommands n p i l).
Proof.
  revert i l. induction n as [|n IH]; intros i l Hi Hn; simpl; [safe|].
  destruct (arr_get_Some l i) as (c & -> & _); [lia|]. safe_step; [safe|].
  safe_step; [safe|]. destruct a0 as [c' failed]. rewrite arr_set_Some by lia. simpl.
  intros w Hw HP. apply wp_bind, wp_ret. destruct failed; [by apply wp_ret|].
  apply IH; [lia|rewrite length_insert; lia|done|done].
Qed.

Lemma safe_completeRequest P r : safe P (completeRequest r).
Proof. unfold completeRequest. safe. Qed.
Hint Resolve safe_completeRequest : safe.

Lemma safe_processRequest P `{!Framed P} r : request_ok r -> safe P (processRequest r).
Proof.
  intros Hr. unfold request_ok in Hr. unfold processRequest. safe_step; [safe|].
  safe_step; [|safe]. destruct a; [safe|]. safe_step; [|safe].
  apply safe_ignoringInterrupts; [done|]. apply safe_processCommands; [done|lia|lia].
Qed.

(** [setCommandByte] without the request that carries its arguments. *)
Definition readCommandByte : M W Z :=
  ignoringInterrupts (writeCommandPort kCP_GetCommandByte ;; readDataPort kPS2KbdIdx).
Definition writeCommandByte (old set clear : Z) : M W unit :=
  let new := u8 (clear_bits (Z.lor old set) clear) in
  when (negb (old =? new)) (writeCommandPort kCP_SetCommandByte ;; writeDataPort new).

Lemma setCommandByte_unfold s cl w :
  setCommandByte s cl w =
  (old ← readCommandByte; writeCommandByte old (u8 s) (u8 cl) ;; ret (u8 old)) w.
Proof.
  unfold setCommandByte, setCommandByteGated, writeCommandByte. cbv zeta.
  fold readCommandByte. unfold mbind, M_bind, bind. simpl.
  destruct (readCommandByte w) as [[w1 old]| |]; [|done..].
  cbn [setBits clearBits cmdModify byte0 byte1].
  destruct (when _ _ w1) as [[w2 []]| |]; done.
Qed.

Lemma safe_setCommandByte P `{!Framed P} s cl : safe P (setCommandByte s cl).
Proof.
  assert (Hs : safe P (old ← readCommandByte; writeCommandByte old (u8 s) (u8 cl) ;; ret (u8 old)))
    by (unfold readCommandByte, writeCommandByte; safe).
  intros w Hw HP. unfold wp. rewrite setCommandByte_unfold. by apply Hs.
Qed.
Hint Resolve safe_setCommandByte : safe.

Lemma safe_setMuxMode P `{!Framed P} b : safe P (setMuxMode b).
Proof. unfold setMuxMode, muxExchange. safe. Qed.

Lemma safe_enableMuxPorts P `{!Framed P} : safe P enableMuxPorts.
Proof. unfold enableMuxPorts. safe. Qed.

Lemma safe_resetDevices P `{!Framed P} : safe P resetDevices.
Proof. unfold resetDevices. safe. Qed.
Hint Resolve safe_setMuxMode safe_enableMuxPorts safe_resetDevices : safe.

(** The request queue is emptied under its lock, then processed. *)
Lemma processRequestQueue_unfold w :
  _requestQueueLock (ctl w) = Some false ->
  processRequestQueue w =
  for_each (_requestQueue (ctl w)) (fun r => processRequest r ;; ret tt)
           {| w with ctl := {| (ctl w) with _requestQueue := [] |} |}.
Proof.
  intros Hl. unfold processRequestQueue, lockQueue, unlockQueue, field, update, gets, modify,
    mbind, M_bind, bind. rewrite Hl. simpl. by repeat f_equal.
Qed.

Lemma processRequestQueue_lock w w' u :
  processRequestQueue w = Ok (w', u) -> _requestQueueLock (ctl w) = Some false.
Proof.
  unfold processRequestQueue, lockQueue, field, gets, mbind, M_bind, bind. simpl.
  by destruct (_requestQueueLock (ctl w)) as [[|]|].
Qed.

Lemma keeps_processRequestQueue : keeps (C := C) (A := A) processRequestQueue.
Proof.
  intros w w' u E. pose proof (processRequestQueue_lock _ _ _ E) as Hl.
  rewrite processRequestQueue_unfold in E by done.
  transitivity {| w with ctl := {| (ctl w) with _requestQueue := [] |} |}; [by split; [by split|..]|].
  assert (K : keeps (C := C) (A := A)
    (for_each (_requestQueue (ctl w)) (fun r => processRequest r ;; ret tt))) by keeps.
  exact (K _ _ _ E).
Qed.
Hint Resolve keeps_processRequestQueue : keeps.

Lemma keeps_submitRequestAndBlock r : keeps (C := C) (A := A) (submitRequestAndBlock r).
Proof. unfold submitRequestAndBlock, submitRequestAndBlockGated. keeps. Qed.

Definition queue_unlocked c : Prop := _requestQueueLock c = Some false.
#[export] Instance framed_queue_unlocked : Framed queue_unlocked := framed_lock (Some false).

Lemma safe_processRequestQueue : safe queue_unlocked processRequestQueue.
Proof.
  intros w Hw HP. unfold wp. rewrite processRequestQueue_unfold by done.
  pose proof (cok_queue _ _ Hw) as Hq. rewrite Forall_forall in Hq.
  apply (safe_for_each Cok (fun _ => True)); [intros; keeps| |by destruct Hw|done].
  intros r Hr. safe_step; [|safe]. apply safe_processRequest; [apply _|by apply Hq].
Qed.

Lemma safe_submitRequestAndBlock r :
  request_ok r -> port r < kPS2MuxMaxIdx -> safe queue_unlocked (submitRequestAndBlock r).
Proof.
  intros Hr Hp. unfold submitRequestAndBlock. rewrite (proj2 (Z.ltb_lt _ _)) by done. simpl.
  unfold submitRequestAndBlockGated. safe_step; [apply safe_processRequestQueue|].
  apply safe_processRequest; [apply _|done].
Qed.

(** What is known after a safe computation that keeps the controller. *)
Lemma wp_safe P {X} (m : M W X) w :
  safe P m -> keeps m -> ctl_ok (ctl w) -> P (ctl w) ->
  wp m (fun a w' => ctl_ok (ctl w') /\ same_ctl (ctl w) (ctl w') /\ m w = Ok (w', a)) w.
Proof.
  intros Hs Hk Hw HP. specialize (Hs w Hw HP). unfold wp in *.
  destruct (m w) as [[w' a]| |] eqn:E; [|done..]. split; [done|]. split; [by eapply ev_ctl, Hk|done].
Qed.

(** The ports recorded in [wakePort] have devices. *)
Definition wake_ok c (wake : list bool) : Prop :=
  Z.of_nat (length wake) = kPS2MuxMaxIdx /\ forall i, arr_get wake i = Some true -> nonnull c i.

Lemma wake_ok_same c c' wake : same_ctl c c' -> wake_ok c wake -> wake_ok c' wake.
Proof. intros H [? Hw]. split; [done|]. intros i Hi. by eapply same_ctl_nonnull, Hw. Qed.

Lemma handleInterruptByte_ok w wake :
  ctl_ok (ctl w) -> wake_ok (ctl w) wake ->
  wp (handleInterruptByte wake) (fun r w' => ctl_ok (ctl w') /\
    match r with inl wake' | inr wake' => wake_ok (ctl w') wake' end) w.
Proof.
  intros Hw Hk. unfold handleInterruptByte. apply wp_bind.
  eapply wp_mono; [apply (wp_safe (fun _ => True)); eauto with safe keeps|].
  intros s w1 (Hw1 & K1 & _). apply (wake_ok_same _ _ _ K1) in Hk. clear w Hw K1.
  destruct (negb _); [by apply wp_ret|]. apply wp_bind.
  eapply wp_mono; [apply (wp_safe (fun _ => True)); eauto with safe keeps|].
  intros b w2 (Hw2 & K2 & _). apply (wake_ok_same _ _ _ K2) in Hk. clear w1 Hw1 K2.
  apply wp_bind. unfold wp at 1. destruct (getPortFromStatus s w2) as [[w3 p]| |] eqn:Ep; [|done|].
  2: { unfold getPortFromStatus in Ep. done. }
  apply getPortFromStatus_ok in Ep as [-> Hp]. apply wp_bind.
  eapply wp_mono; [apply (wp_safe (fun c => port_ok c p)); eauto with safe keeps|].
  { apply safe__dispatch. tauto. }
  intros r w3 (Hw3 & K3 & E3). apply (wake_ok_same _ _ _ K3) in Hk.
  destruct (is_packetReady r) eqn:Er; [|by apply wp_ret].
  pose proof (_dispatch_ready _ _ _ _ _ E3 Er) as Hn. destruct Hk as [Hlen Hk].
  assert (Hb : 0 <= p < Z.of_nat (length wake)).
  { destruct Hn as [d Hd]. apply arr_get_bound in Hd. rewrite (cok_devices _ _ Hw3) in Hd. lia. }
  apply wp_bind, wp_deref. eexists. split; [by apply arr_set_Some|]. apply wp_ret.
  split; [done|]. split; [by rewrite length_insert|]. intros i Hi.
  pose proof (arr_get_bound _ _ _ Hi). rewrite arr_get_insert in Hi by lia.
  destruct (Z.eqb_spec p i) as [->|]; [done|by apply Hk].
Qed.

Lemma safe_handleInterrupt P : safe P handleInterrupt.
Proof.
  intros w Hw _. unfold handleInterrupt. apply wp_bind.
  apply wp_loop with (I := fun wake w' => ctl_ok (ctl w') /\ wake_ok (ctl w') wake).
  - split; [done|]. split; [done|]. intros i Hi. exfalso. unfold arr_get in Hi.
    destruct (i <? 0); [done|]. apply lookup_replicate in Hi. by destruct Hi.
  - clear w Hw. intros wake w [Hw Hk].
    eapply wp_mono; [by apply handleInterruptByte_ok|].
    intros [wake'|wake'] w' [Hw' Hk']; [done|]. apply wp_bind, wp_gets.
    pose proof (cok_nubs _ _ Hw') as Hn.
    eapply wp_mono; [apply wp_for_each with (I := fun w => ctl_ok (ctl w) /\ wake_ok (ctl w) wake')|].
    + done.
    + intros i w1 Hi [Hw1 [Hlen Hk1]]. apply elem_of_seqZ in Hi.
      destruct (arr_get_Some wake' i) as (b & Hb & _); [unfold kPS2KbdIdx in *; lia|].
      apply wp_bind, wp_deref. exists b. split; [done|]. apply wp_when; intros ->; [|done].
      destruct (device_nonnull w1 i (Hk1 i Hb)) as (d & Ed & _).
      unfold packetActionInterrupt. apply wp_bind. unfold wp at 1. by rewrite Ed.
    + by intros [] w1 [? ?].
Qed.

Lemma safe_interruptHandlerMouse P `{!Framed P} : safe P interruptHandlerMouse.
Proof. unfold interruptHandlerMouse. safe. apply safe_handleInterrupt. Qed.

End SafeOps.
#[export] Hint Resolve safe_inb safe_outb safe_writeDataPort safe_writeCommandPort
  safe_waitOutputReady safe_readDataPort safe_readDataPortExpect safe_flushCount safe_transmitTo
  safe_processCommand safe_completeRequest safe_setCommandByte safe_setMuxMode safe_enableMuxPorts
  safe_resetDevices : safe.
#[export] Hint Extern 0 (Framed _) => apply _ : safe.
#[export] Hint Resolve keeps_processRequestQueue keeps_submitRequestAndBlock : keeps.
