(* ===== verification/TestBench.v ===== *)
(** * A concrete controller

    A world with two nubs whose clients record the bytes they are given: the
    instance on which the statements about arbitrary controllers are evaluated. *)
From S2P Require Import Prelude PS2Types Controller ControllerLemmas.

Definition record_action (b : Z) : M (list Z) PS2InterruptResult :=
  fun l => Ok (l ++ [b], kPS2IR_packetReady).

Definition bench_device (p : Z) : ApplePS2Device (list Z) PS2Request :=
  mkDevice p (Some record_action) None None (Some []).

Definition bench_controller : ApplePS2Controller (list Z) PS2Request :=
  let c : ApplePS2Controller (list Z) PS2Request := initController in
  {| c with
     _devices := [Some (bench_device 0); Some (bench_device 1); None; None; None];
     _interruptInstalledKeyboard := true; _interruptInstalledMouse := 1;
     _nubsCount := 2; _requestQueueLock := Some false |}.

Definition bench (answers : list Z) : World (list Z) PS2Request :=
  mkWorld answers [] bench_controller.

(** A request to the keyboard, as a power action submits it. *)
Definition bench_request : PS2Request :=
  TPS2Request 1 [cmd kPS2C_SendCommandAndCompareAck kDP_Enable].

(** The recording clients have no invariant to keep. *)
Definition bench_ok (l : list Z) : Prop := True.

Lemma bench_device_ok p : client_ok bench_ok (bench_device p).
Proof. intros cl f [= <-] [= <-]. split; [done|]. intros. done. Qed.

Lemma bench_slots p d :
  arr_get (_devices bench_controller) p = Some (Some d) -> exists q, d = bench_device q.
Proof.
  intros H. pose proof (arr_get_bound _ _ _ H) as Hb. simpl in Hb.
  assert (Hp : p = 0 \/ p = 1 \/ p = 2 \/ p = 3 \/ p = 4) by lia.
  destruct Hp as [->|[->|[->|[->| ->]]]]; first [discriminate H | injection H as <-; eauto].
Qed.

Lemma bench_ctl_ok : ctl_ok bench_ok bench_controller.
Proof.
  split; simpl.
  - done.
  - intros _. by eexists.
  - intros _. split; [by eexists|done].
  - unfold kPS2MuxMaxIdx, PS2_MUX_PORTS. lia.
  - constructor.
  - intros p d H. destruct (bench_slots p d H) as [q ->]. apply bench_device_ok.
Qed.
