(* ===== verification/PortSpec.v ===== *)
(** * The port routines against the hardware's answers

    The 8042's answers to the driver's reads are grouped as the driver polls: a
    status byte without the output-ready bit ([Idle]), or one with it followed by
    the data byte ([Arrival]).  The statements say what each routine does on an
    arbitrary list of polls. *)
From S2P Require Import Prelude PS2Types Controller ControllerLemmas TestBench.

Section PortSpec.
Context {C A : Type}.
#[local] Abbreviation W := (World C A).
Implicit Types (w : W).

(** ** Writing *)

Definition busy (status : Z) : Prop := nz (Z.land (u8 status) kInputBusy) = true.
Definition free (status : Z) : Prop := nz (Z.land (u8 status) kInputBusy) = false.

Lemma inb_cons p s rest w : hw w = s :: rest -> inb p w = Ok ({| w with hw := rest |}, u8 s).
Proof. unfold inb. by intros ->. Qed.

Lemma inb_at p s rest w : inb p {| w with hw := s :: rest |} = Ok ({| w with hw := rest |}, u8 s).
Proof. done. Qed.

Lemma inb_inv p w w' b :
  inb p w = Ok (w', b) -> exists s, hw w = s :: hw w' /\ b = u8 s /\ w' = {| w with hw := hw w' |}.
Proof. unfold inb. destruct (hw w) as [|s rest]; [done|]. intros [= <- <-]. by exists s. Qed.

Lemma waitInputFree_iff w w' :
  waitInputFree w = Ok (w', tt) <->
  exists pre s, hw w = pre ++ s :: hw w' /\ Forall busy pre /\ free s /\ w' = {| w with hw := hw w' |}.
Proof.
  assert (Hc : consuming answers (fun _ : unit =>
    status ← inb (C := C) (A := A) kCommandPort;
    ret (if nz (Z.land status kInputBusy) then inl tt else inr tt))).
  { intros [] s s' [] E. apply bind_inv in E as (w1 & b & E & E').
    apply inb_inv in E as (x & Hx & -> & _). injection E' as <- _.
    unfold answers. rewrite Hx. simpl. lia. }
  remember (hw w) as l eqn:Hl. revert w Hl. induction l as [|s l IH]; intros w Hl;
    unfold waitInputFree; rewrite loop_unfold by done.
  - unfold mbind, M_bind, bind, inb. rewrite <- Hl. split; [done|].
    intros (pre & s & E & _). by destruct pre.
  - rewrite (bind_ok _ _ w _ _ (inb_cons _ s l w (eq_sym Hl))). unfold ret.
    destruct (nz (Z.land (u8 s) kInputBusy)) eqn:Eb.
    + change (loop _ _ tt) with (waitInputFree (C := C) (A := A)).
      rewrite (IH {| w with hw := l |}) by done. split.
      * intros (pre & x & -> & Hp & Hf & ->). exists (s :: pre), x. by repeat constructor.
      * intros ([|y pre] & x & E & Hp & Hf & Hw); injection E as -> E.
        { unfold free in Hf. congruence. }
        exists pre, x. inversion_clear Hp. split; [done|]. split; [done|]. split; [done|].
        rewrite Hw. done.
    + split.
      * intros [= <-]. by exists [], s.
      * intros ([|y pre] & x & E & Hp & Hf & Hw); injection E as -> E; [by rewrite Hw, E|].
        inversion_clear Hp. unfold busy in *. congruence.
Qed.

Lemma write_free p b f rest w :
  free f -> (waitInputFree ;; outb p b) {| w with hw := f :: rest |} =
  Ok ({| w with hw := rest; trace := trace w ++ [EvOut p (u8 b)] |}, tt).
Proof.
  intros Hf. rewrite (bind_ok _ _ _ {| w with hw := rest |} tt); [done|].
  apply waitInputFree_iff. by exists [], f.
Qed.

(** A byte is written to the data port or to the command port exactly once,
    and only right after a status read that shows the input buffer free: the
    write completes if and only if the hardware's answers are some busy statuses
    and then a free one, it consumes exactly these answers, and its only other
    effect is the one [outb]. *)
Theorem write_after_input_free b w w' :
  (writeDataPort b w = Ok (w', tt) <->
   exists pre s, hw w = pre ++ s :: hw w' /\ Forall busy pre /\ free s /\
     w' = {| w with hw := hw w'; trace := trace w ++ [EvOut kDataPort (u8 b)] |}) /\
  (writeCommandPort b w = Ok (w', tt) <->
   exists pre s, hw w = pre ++ s :: hw w' /\ Forall busy pre /\ free s /\
     w' = {| w with hw := hw w'; trace := trace w ++ [EvOut kCommandPort (u8 b)] |}).
Proof.
  assert (H : forall p, (waitInputFree ;; outb p b) w = Ok (w', tt) <->
    exists pre s, hw w = pre ++ s :: hw w' /\ Forall busy pre /\ free s /\
      w' = {| w with hw := hw w'; trace := trace w ++ [EvOut p (u8 b)] |}).
  { intros p. split.
    - intros E. apply bind_inv in E as (w1 & [] & E & E').
      apply waitInputFree_iff in E as (pre & s & Hw & Hp & Hf & E1). injection E' as <-.
      exists pre, s. split; [done|]. split; [done|]. split; [done|].
      destruct w, w1. simpl in *. by injection E1 as -> ->.
    - intros (pre & s & Hw & Hp & Hf & ->). simpl in *.
      rewrite (bind_ok _ _ w {| w with hw := hw w' |} tt); [done|].
      apply waitInputFree_iff. by exists pre, s. }
  split; apply H.
Qed.

(** ** Polls *)

Inductive Poll := Idle (status : Z) | Arrival (status byte : Z).

Definition ready (status : Z) : bool := nz (Z.land (u8 status) kOutputReady).

Definition poll_ok (p : Poll) : Prop :=
  match p with Idle s => ready s = false | Arrival s _ => ready s = true end.

Definition reads (p : Poll) : list Z :=
  match p with Idle s => [s] | Arrival s b => [s; b] end.

(** The port [getPortFromStatus] computes, with multiplexing on or off. *)
Definition port_of (mux : bool) (status : Z) : Z :=
  if negb (nz (Z.land (u8 status) kMouseData)) then kPS2KbdIdx
  else if mux then kPS2AuxIdx + Z.land (Z.shiftr (u8 status) PS2_STA_MUX_SHIFT) PS2_STA_MUX_MASK
  else kPS2AuxIdx.

Fixpoint idles (l : list Poll) : Z :=
  match l with
  | [] => 0
  | Idle _ :: l' => 1 + idles l'
  | Arrival _ _ :: l' => idles l'
  end.

(** The bytes that arrive, with their ports. *)
Definition arrivals (mux : bool) (l : list Poll) : list (Z * Z) :=
  omap (fun p => match p with Arrival s b => Some (port_of mux s, u8 b) | _ => None end) l.

Definition dispatchAll (l : list (Z * Z)) : M W unit :=
  for_each l (fun '(p, b) => dispatchDriverInterrupt p b).

Lemma getPortFromStatus_eq s w :
  getPortFromStatus (u8 s) w = Ok (w, port_of (_muxPresent (ctl w)) s).
Proof.
  unfold getPortFromStatus, port_of, field, gets, mbind, M_bind, bind. simpl.
  destruct (nz (Z.land (u8 s) kMouseData)), (_muxPresent (ctl w)); done.
Qed.

(** Computations that do not look at the hardware. *)
Definition no_reads {X} (m : M W X) : Prop := forall w h,
  m {| w with hw := h |} =
  match m w with Ok (w', a) => Ok ({| w' with hw := h |}, a) | Wait => Wait | Crash => Crash end.

Lemma no_reads_bind {X Y} (m : M W X) (k : X -> M W Y) :
  no_reads m -> (forall a, no_reads (k a)) -> no_reads (m ≫= k).
Proof.
  intros Hm Hk w h. unfold mbind, M_bind, bind. rewrite Hm.
  destruct (m w) as [[w' a]| |]; [apply Hk|done..].
Qed.

Lemma no_reads_field {X} (f : ApplePS2Controller C A -> X) : no_reads (field f).
Proof. done. Qed.
Lemma no_reads_update f : no_reads (update f).
Proof. done. Qed.
Lemma no_reads_emit e : no_reads (emit e).
Proof. done. Qed.
Lemma no_reads_ret {X} (a : X) : no_reads (ret a).
Proof. done. Qed.
Lemma no_reads_deref {X} (o : option X) : no_reads (deref o).
Proof. by destruct o. Qed.

Lemma no_reads_interruptAction p b : no_reads (interruptAction p b).
Proof.
  assert (Hd : forall q, no_reads (device (C := C) (A := A) q)).
  { intros q. repeat (apply no_reads_bind; [|intros ?]);
      auto using no_reads_field, no_reads_deref. }
  apply no_reads_bind; [apply Hd|]. intros d.
  destruct (_client d) as [c|]; [|apply no_reads_ret].
  destruct (_interrupt_action d) as [f|]; [|apply no_reads_ret].
  apply no_reads_bind; [apply no_reads_emit|]. intros [].
  destruct (f (u8 b) c) as [[c' r]| |]; [|done..].
  apply no_reads_bind; [|intros; apply no_reads_ret].
  unfold setDevice. repeat (apply no_reads_bind; [|intros ?]);
    auto using no_reads_field, no_reads_deref, no_reads_update.
Qed.

Lemma no_reads__dispatch p b : no_reads (_dispatchDriverInterrupt p b).
Proof.
  repeat (apply no_reads_bind; [apply no_reads_field|intros ?]).
  destruct (_ && _); [apply no_reads_interruptAction|].
  destruct (_ && _); [apply no_reads_interruptAction|apply no_reads_ret].
Qed.

Lemma no_reads_dispatch p b : no_reads (dispatchDriverInterrupt p b).
Proof.
  apply no_reads_bind; [apply no_reads__dispatch|].
  intros r. destruct (is_packetReady r); simpl; [|apply no_reads_ret].
  unfold packetActionInterrupt, device.
  repeat (apply no_reads_bind; [|intros ?]); auto using no_reads_field, no_reads_deref, no_reads_emit.
Qed.

(** ** Waiting for the output buffer *)

Lemma keeps_answers {X} (m : M W X) w w' a :
  keeps m -> m w = Ok (w', a) -> (answers w' <= answers w)%nat.
Proof. intros Hk E. apply suffix_length. by eapply ev_hw, Hk. Qed.

Lemma inb_answers p w w' b : inb p w = Ok (w', b) -> answers w = S (answers w').
Proof. intros E. apply inb_inv in E as (s & Hs & _). unfold answers. by rewrite Hs. Qed.

Lemma wait_consuming : consuming (answers (C := C) (A := A)) (fun '((t, s) : Z * Z) =>
  if t =? 0 then ret (inr (t, s)) else
  s' ← inb kCommandPort;
  ret (if nz (Z.land s' kOutputReady) then inr (t, s') else inl (t - 1, s'))).
Proof.
  intros [t s] w w' r E. destruct (t =? 0); [done|].
  apply bind_inv in E as (w1 & b & E & [= <- _]). apply inb_answers in E. lia.
Qed.

Lemma wait_zero s w : waitOutputReady 0 s w = Ok (w, (0, s)).
Proof. unfold waitOutputReady. by rewrite loop_unfold by apply wait_consuming. Qed.

Lemma wait_idle t s s' rest w :
  t <> 0 -> ready s' = false ->
  waitOutputReady t s {| w with hw := s' :: rest |} =
  waitOutputReady (t - 1) (u8 s') {| w with hw := rest |}.
Proof.
  intros Ht Hr. unfold waitOutputReady. rewrite loop_unfold by apply wait_consuming.
  rewrite (proj2 (Z.eqb_neq _ _)) by done.
  unfold mbind, M_bind, bind. simpl. unfold ready in Hr. by rewrite Hr.
Qed.

Lemma wait_ready t s s' rest w :
  t <> 0 -> ready s' = true ->
  waitOutputReady t s {| w with hw := s' :: rest |} = Ok ({| w with hw := rest |}, (t, u8 s')).
Proof.
  intros Ht Hr. unfold waitOutputReady. rewrite loop_unfold by apply wait_consuming.
  rewrite (proj2 (Z.eqb_neq _ _)) by done.
  unfold mbind, M_bind, bind. simpl. unfold ready in Hr. by rewrite Hr.
Qed.

(** ** [readDataPort(expectedPort)] *)

Lemma read_consuming e : consuming (answers (C := C) (A := A)) (readDataPortRound e).
Proof.
  intros [t s] w w' r E. unfold readDataPortRound in E.
  apply bind_inv in E as (w1 & [t' s'] & E1 & E). apply keeps_answers in E1; [|keeps].
  destruct (t' =? 0).
  - by apply bind_inv in E as (? & ? & _ & E); apply bind_inv in E as (? & ? & _ & E).
  - apply bind_inv in E as (w2 & b & E2 & E). apply inb_answers in E2.
    apply keeps_answers in E; [lia|keeps].
Qed.

Definition readLoop (e t s : Z) : M W Z := loop answers (readDataPortRound e) (t, s).

Lemma readLoop_idle e t s s' rest w :
  t <> 0 -> ready s' = false ->
  readLoop e t s {| w with hw := s' :: rest |} = readLoop e (t - 1) (u8 s') {| w with hw := rest |}.
Proof.
  intros Ht Hr. unfold readLoop. rewrite !loop_unfold by apply read_consuming.
  unfold readDataPortRound. unfold mbind, M_bind, bind. by rewrite wait_idle.
Qed.

(** A byte for the expected port ends the loop; one for another port is
    dispatched and the loop goes on. *)
Lemma readLoop_arrival e t s s' b rest w :
  t <> 0 -> ready s' = true -> _suppressTimeout (ctl w) = false ->
  readLoop e t s {| w with hw := s' :: b :: rest |} =
  if e =? port_of (_muxPresent (ctl w)) s' then Ok ({| w with hw := rest |}, u8 b)
  else (dispatchDriverInterrupt (port_of (_muxPresent (ctl w)) s') (u8 b) ;;
        readLoop e t (u8 s')) {| w with hw := rest |}.
Proof.
  intros Ht Hr Hsup. unfold readLoop at 1. rewrite loop_unfold by apply read_consuming.
  unfold readDataPortRound at 1. unfold mbind at 1, M_bind at 1, bind at 1. rewrite wait_ready by done.
  rewrite (proj2 (Z.eqb_neq t 0)) by done.
  rewrite (bind_ok _ _ _ _ _ (inb_at _ b rest w)).
  unfold field at 1, gets at 1. unfold mbind at 1, M_bind at 1, bind at 1. simpl. rewrite Hsup.
  rewrite (bind_ok _ _ _ _ _ (getPortFromStatus_eq s' _)). simpl.
  destruct (e =? _); [done|]. unfold mbind, M_bind, bind.
  destruct (dispatchDriverInterrupt _ _ _) as [[w1 []]| |]; done.
Qed.

Lemma no_reads_dispatchAll l : no_reads (dispatchAll l).
Proof.
  induction l as [|[p b] l IH]; [apply no_reads_ret|].
  apply no_reads_bind; [apply no_reads_dispatch|]. intros []. apply IH.
Qed.

Lemma idles_nonneg polls : 0 <= idles polls.
Proof. induction polls as [|[] ? ?]; simpl; lia. Qed.

Lemma dispatchAll_cons p b l w :
  dispatchAll ((p, b) :: l) w =
  match dispatchDriverInterrupt p b w with
  | Ok (w1, _) => dispatchAll l w1
  | Wait => Wait
  | Crash => Crash
  end.
Proof. done. Qed.

(** What a list of polls without a byte for the expected port does to either of
    the two reading loops. *)
Section Others.
Context (L : Z -> Z -> M W Z) (e : Z) (Q : ApplePS2Controller C A -> Prop).
Context (HQ : forall c c', same_ctl c c' -> Q c -> Q c').
Context (L_idle : forall t s s' rest w, t <> 0 -> ready s' = false ->
  L t s {| w with hw := s' :: rest |} = L (t - 1) (u8 s') {| w with hw := rest |}).
Context (L_other : forall t s s' b rest w, t <> 0 -> ready s' = true -> Q (ctl w) ->
  port_of (_muxPresent (ctl w)) s' <> e ->
  L t s {| w with hw := s' :: b :: rest |} =
  (dispatchDriverInterrupt (port_of (_muxPresent (ctl w)) s') (u8 b) ;; L t (u8 s'))
    {| w with hw := rest |}).

Lemma loop_others polls t s rest w :
  Q (ctl w) -> Forall poll_ok polls -> idles polls < t ->
  Forall (fun a => a.1 <> e) (arrivals (_muxPresent (ctl w)) polls) ->
  exists s', L t s {| w with hw := flat_map reads polls ++ rest |} =
    (dispatchAll (arrivals (_muxPresent (ctl w)) polls) ;;
     modify (fun w' => {| w' with hw := rest |}) ;;
     L (t - idles polls) s') w.
Proof.
  intros Hq Hok. revert t s w Hq. induction Hok as [|[s1|s1 b1] polls Hp _ IH];
    intros t s w Hq Ht Ha.
  - exists s. simpl. by rewrite Z.sub_0_r.
  - pose proof (idles_nonneg polls) as Hi.
    simpl in *. destruct (IH (t - 1) (u8 s1) w Hq) as [s' E]; [lia|done|]. exists s'.
    rewrite L_idle by (done || lia). rewrite E.
    by replace (t - 1 - idles polls) with (t - (1 + idles polls)) by lia.
  - pose proof (idles_nonneg polls) as Hi.
    simpl in *. inversion_clear Ha as [|? ? Hne Ha']. simpl in Hne.
    assert (E1 : forall s', L t s {| w with hw := s1 :: b1 :: flat_map reads polls ++ rest |} = s' <->
      match dispatchDriverInterrupt (port_of (_muxPresent (ctl w)) s1) (u8 b1) w with
      | Ok (w1, _) => L t (u8 s1) {| w1 with hw := flat_map reads polls ++ rest |} = s'
      | Wait => Wait = s'
      | Crash => Crash = s'
      end).
    { intros s'. rewrite L_other by (done || lia).
      unfold mbind, M_bind, bind. rewrite (no_reads_dispatch _ (u8 b1) w).
      by destruct (dispatchDriverInterrupt _ (u8 b1) w) as [[w1 []]| |]. }
    setoid_rewrite E1. unfold mbind, M_bind, bind. rewrite dispatchAll_cons.
    destruct (dispatchDriverInterrupt _ (u8 b1) w) as [[w1 []]| |] eqn:Ed; [|by exists 0..].
    pose proof (ev_ctl _ _ (keeps_dispatch _ _ _ _ _ Ed)) as Hs.
    assert (Hm : _muxPresent (ctl w1) = _muxPresent (ctl w)) by by rewrite (same_fields _ _ Hs).
    destruct (IH t (u8 s1) w1) as [s' E]; [by eapply HQ|lia|by rewrite Hm|].
    rewrite Hm in E. exists s'. exact E.
Qed.

End Others.

Definition not_suppressed (c : ApplePS2Controller C A) : Prop := _suppressTimeout c = false.

Lemma not_suppressed_same c c' : same_ctl c c' -> not_suppressed c -> not_suppressed c'.
Proof. intros [H _]. unfold not_suppressed. by rewrite H. Qed.

Lemma readLoop_others e polls t s rest w :
  _suppressTimeout (ctl w) = false -> Forall poll_ok polls -> idles polls < t ->
  Forall (fun a => a.1 <> e) (arrivals (_muxPresent (ctl w)) polls) ->
  exists s', readLoop e t s {| w with hw := flat_map reads polls ++ rest |} =
    (dispatchAll (arrivals (_muxPresent (ctl w)) polls) ;;
     modify (fun w' => {| w' with hw := rest |}) ;;
     readLoop e (t - idles polls) s') w.
Proof.
  apply (loop_others (readLoop e) e not_suppressed not_suppressed_same).
  - intros. by apply readLoop_idle.
  - intros. rewrite readLoop_arrival by done. by rewrite (proj2 (Z.eqb_neq _ _)) by congruence.
Qed.

Lemma dispatchAll_ctl l w w' u :
  dispatchAll l w = Ok (w', u) -> same_ctl (ctl w) (ctl w').
Proof.
  intros E. assert (K : keeps (dispatchAll l)) by (unfold dispatchAll; keeps).
  by eapply ev_ctl, K.
Qed.

Lemma readDataPort_spec e polls s b rest w :
  _suppressTimeout (ctl w) = false -> Forall poll_ok polls -> idles polls < 20000 ->
  Forall (fun a => a.1 <> e) (arrivals (_muxPresent (ctl w)) polls) ->
  ready s = true -> port_of (_muxPresent (ctl w)) s = e ->
  readDataPort e {| w with hw := flat_map reads polls ++ s :: b :: rest |} =
  (dispatchAll (arrivals (_muxPresent (ctl w)) polls) ;;
   modify (fun w' => {| w' with hw := rest |}) ;; ret (u8 b)) w.
Proof.
  intros Hsup Hok Ht Ha Hr He.
  destruct (readLoop_others e polls 20000 0 (s :: b :: rest) w Hsup Hok Ht Ha) as [s' E].
  change (readDataPort e) with (readLoop e 20000 0). rewrite E. unfold mbind, M_bind, bind.
  destruct (dispatchAll _ w) as [[w1 []]| |] eqn:Ed; [|done..].
  pose proof (same_fields _ _ (dispatchAll_ctl _ _ _ _ Ed)) as Hf. simpl.
  rewrite readLoop_arrival; [|lia|done|by rewrite Hf].
  rewrite Hf. simpl. by rewrite (proj2 (Z.eqb_eq _ _)).
Qed.

(** C13: reading a byte of port [expectedPort]: if the hardware's answers hold fewer
    than 20000 idle polls before the first byte for that port, the routine returns
    this byte, consumes exactly the answers up to it, and has dispatched every byte
    that arrived for another port before it, once each, in order of arrival, to
    the driver of that port. *)
Theorem readDataPort_returns e polls s b rest w :
  _suppressTimeout (ctl w) = false -> Forall poll_ok polls -> idles polls < 20000 ->
  Forall (fun a => a.1 <> e) (arrivals (_muxPresent (ctl w)) polls) ->
  ready s = true -> port_of (_muxPresent (ctl w)) s = e ->
  readDataPort e {| w with hw := flat_map reads polls ++ s :: b :: rest |} =
  (dispatchAll (arrivals (_muxPresent (ctl w)) polls) ;;
   modify (fun w' => {| w' with hw := rest |}) ;; ret (u8 b)) w.
Proof. apply readDataPort_spec. Qed.

(** The timeout: if 20000 idle polls come before any byte for the expected
    port, the routine gives up at the 20000th: it returns 0, logs the port,
    consumes nothing more, and the bytes for other ports were dispatched. *)
Theorem readDataPort_times_out e polls s rest w :
  _suppressTimeout (ctl w) = false -> Forall poll_ok polls -> idles polls = 19999 ->
  Forall (fun a => a.1 <> e) (arrivals (_muxPresent (ctl w)) polls) -> ready s = false ->
  readDataPort e {| w with hw := flat_map reads polls ++ s :: rest |} =
  (dispatchAll (arrivals (_muxPresent (ctl w)) polls) ;;
   modify (fun w' => {| w' with hw := rest |}) ;; emit (EvTimeout e) ;; ret 0) w.
Proof.
  intros Hsup Hok Ht Ha Hr.
  destruct (readLoop_others e polls 20000 0 (s :: rest) w Hsup Hok ltac:(lia) Ha) as [s' E].
  change (readDataPort e) with (readLoop e 20000 0). rewrite E, Ht. unfold mbind, M_bind, bind.
  destruct (dispatchAll _ w) as [[w1 []]| |] eqn:Ed; [|done..].
  pose proof (same_fields _ _ (dispatchAll_ctl _ _ _ _ Ed)) as Hf. simpl.
  rewrite readLoop_idle by (done || lia). change (20000 - 19999 - 1) with 0.
  unfold readLoop. rewrite loop_unfold by apply read_consuming.
  unfold readDataPortRound, mbind, M_bind, bind. rewrite wait_zero. simpl.
  rewrite Hf. simpl. by rewrite Hsup.
Qed.

(** ** [readDataPort(expectedPort, expectedByte)] *)

Lemma expect_consuming e x : consuming (answers (C := C) (A := A)) (readDataPortExpectRound e x).
Proof.
  intros [[t s] held] w w' r E. unfold readDataPortExpectRound in E.
  apply bind_inv in E as (w1 & [t' s'] & E1 & E). apply keeps_answers in E1; [|keeps].
  destruct (t' =? 0).
  - destruct held; [done|]. by apply bind_inv in E as (? & ? & _ & E).
  - apply bind_inv in E as (w2 & b & E2 & E). apply inb_answers in E2.
    apply keeps_answers in E; [lia|keeps].
Qed.

Definition expectLoop (e x : Z) (held : option Z) (t s : Z) : M W Z :=
  loop answers (readDataPortExpectRound e x) (t, s, held).

Lemma expectLoop_idle e x held t s s' rest w :
  t <> 0 -> ready s' = false ->
  expectLoop e x held t s {| w with hw := s' :: rest |} =
  expectLoop e x held (t - 1) (u8 s') {| w with hw := rest |}.
Proof.
  intros Ht Hr. unfold expectLoop. rewrite !loop_unfold by apply expect_consuming.
  unfold readDataPortExpectRound. unfold mbind, M_bind, bind. by rewrite wait_idle.
Qed.

Lemma expectLoop_arrival e x held t s s' b rest w :
  t <> 0 -> ready s' = true -> _ignoreOutOfOrder (ctl w) = 0 ->
  expectLoop e x held t s {| w with hw := s' :: b :: rest |} =
  (let p := port_of (_muxPresent (ctl w)) s' in
   if e =? p then
     match held with
     | None => if u8 b =? x then ret (u8 b) else expectLoop e x (Some (u8 b)) t (u8 s')
     | Some y => if u8 b =? x then dispatchDriverInterrupt e y ;; ret (u8 b)
                 else dispatchDriverInterrupt e (u8 b) ;; ret y
     end
   else dispatchDriverInterrupt p (u8 b) ;; expectLoop e x held t (u8 s'))
  {| w with hw := rest |}.
Proof.
  intros Ht Hr Hi. unfold expectLoop at 1. rewrite loop_unfold by apply expect_consuming.
  unfold readDataPortExpectRound at 1. unfold mbind at 1, M_bind at 1, bind at 1. rewrite wait_ready by done.
  rewrite (proj2 (Z.eqb_neq t 0)) by done.
  rewrite (bind_ok _ _ _ _ _ (inb_at _ b rest w)).
  rewrite (bind_ok _ _ _ _ _ (getPortFromStatus_eq s' _)). simpl.
  unfold field at 1, gets at 1. unfold mbind at 1, M_bind at 1, bind at 1. simpl. rewrite Hi. simpl.
  unfold mbind, M_bind, bind.
  destruct (e =? _), (u8 b =? x), held; simpl; try done;
    by destruct (dispatchDriverInterrupt _ _ _) as [[w1 []]| |].
Qed.

Definition in_order (c : ApplePS2Controller C A) : Prop := _ignoreOutOfOrder c = 0.

Lemma in_order_same c c' : same_ctl c c' -> in_order c -> in_order c'.
Proof. intros [H _]. unfold in_order. by rewrite H. Qed.

Lemma expectLoop_others e x held polls t s rest w :
  _ignoreOutOfOrder (ctl w) = 0 -> Forall poll_ok polls -> idles polls < t ->
  Forall (fun a => a.1 <> e) (arrivals (_muxPresent (ctl w)) polls) ->
  exists s', expectLoop e x held t s {| w with hw := flat_map reads polls ++ rest |} =
    (dispatchAll (arrivals (_muxPresent (ctl w)) polls) ;;
     modify (fun w' => {| w' with hw := rest |}) ;;
     expectLoop e x held (t - idles polls) s') w.
Proof.
  apply (loop_others (expectLoop e x held) e in_order in_order_same).
  - intros. by apply expectLoop_idle.
  - intros. rewrite expectLoop_arrival by done. simpl.
    by rewrite (proj2 (Z.eqb_neq _ _)) by congruence.
Qed.

Lemma dispatchAll_app l1 l2 w :
  dispatchAll (l1 ++ l2) w = (dispatchAll l1 ;; dispatchAll l2) w.
Proof.
  revert w. induction l1 as [|[p b] l1 IH]; intros w; [done|]. simpl.
  unfold mbind, M_bind, bind. rewrite !dispatchAll_cons.
  destruct (dispatchDriverInterrupt p b w) as [[w1 []]| |]; [apply IH|done..].
Qed.

(** The usual exchange: when the first byte of the expected port is the
    expected one, it is returned, and the bytes that arrived for other ports
    before it were dispatched in order. *)
Theorem expected_byte_first e x polls s b rest w :
  _ignoreOutOfOrder (ctl w) = 0 -> Forall poll_ok polls -> idles polls < 10000 ->
  Forall (fun a => a.1 <> e) (arrivals (_muxPresent (ctl w)) polls) ->
  ready s = true -> port_of (_muxPresent (ctl w)) s = e -> u8 b = x ->
  readDataPortExpect e x {| w with hw := flat_map reads polls ++ s :: b :: rest |} =
  (dispatchAll (arrivals (_muxPresent (ctl w)) polls) ;;
   modify (fun w' => {| w' with hw := rest |}) ;; ret x) w.
Proof.
  intros Hi Hok Ht Ha Hr He Hb.
  destruct (expectLoop_others e x None polls 10000 0 (s :: b :: rest) w Hi Hok Ht Ha) as [s' E].
  change (readDataPortExpect e x) with (expectLoop e x None 10000 0). rewrite E.
  unfold mbind, M_bind, bind.
  destruct (dispatchAll _ w) as [[w1 []]| |] eqn:Ed; [|done..].
  pose proof (same_fields _ _ (dispatchAll_ctl _ _ _ _ Ed)) as Hf. simpl.
  rewrite expectLoop_arrival; [|lia|done|by rewrite Hf].
  rewrite Hf. simpl. by rewrite (proj2 (Z.eqb_eq e _)), (proj2 (Z.eqb_eq (u8 b) _)), Hb.
Qed.

(** C10: the out-of-order correction: the first byte [y] of the expected port is
    not the expected one and is held back; of [y] and the next byte [z] of that
    port exactly one is returned and the other one is dispatched to the driver.  The
    expected byte is the one returned if [z] is it (then [y] was asynchronous
    data), and [y] is returned otherwise.  No byte is lost or delivered twice. *)
Theorem out_of_order_correction e x polls1 s1 b1 polls2 s2 b2 rest w :
  let mux := _muxPresent (ctl w) in
  let y := u8 b1 in
  let z := u8 b2 in
  _ignoreOutOfOrder (ctl w) = 0 ->
  Forall poll_ok polls1 -> Forall poll_ok polls2 -> idles polls1 + idles polls2 < 10000 ->
  Forall (fun a => a.1 <> e) (arrivals mux polls1) ->
  Forall (fun a => a.1 <> e) (arrivals mux polls2) ->
  ready s1 = true -> port_of mux s1 = e -> ready s2 = true -> port_of mux s2 = e -> y <> x ->
  readDataPortExpect e x
    {| w with hw := flat_map reads polls1 ++ s1 :: b1 :: flat_map reads polls2 ++ s2 :: b2 :: rest |} =
  (dispatchAll (arrivals mux polls1 ++ arrivals mux polls2 ++ [(e, if z =? x then y else z)]) ;;
   modify (fun w' => {| w' with hw := rest |}) ;; ret (if z =? x then x else y)) w.
Proof.
  intros mux y z Hi Hok1 Hok2 Ht Ha1 Ha2 Hr1 He1 Hr2 He2 Hy.
  pose proof (idles_nonneg polls1). pose proof (idles_nonneg polls2).
  destruct (expectLoop_others e x None polls1 10000 0
    (s1 :: b1 :: flat_map reads polls2 ++ s2 :: b2 :: rest) w Hi Hok1 ltac:(lia) Ha1) as [s' E].
  change (readDataPortExpect e x) with (expectLoop e x None 10000 0). rewrite E. clear E.
  unfold mbind, M_bind, bind. rewrite dispatchAll_app. unfold mbind, M_bind, bind. fold mux.
  destruct (dispatchAll (arrivals mux polls1) w) as [[w1 []]| |] eqn:Ed; [|done..].
  pose proof (same_fields _ _ (dispatchAll_ctl _ _ _ _ Ed)) as Hf. simpl.
  assert (Hm : _muxPresent (ctl w1) = mux) by by rewrite Hf.
  assert (Hi1 : _ignoreOutOfOrder (ctl w1) = 0) by by rewrite Hf.
  rewrite expectLoop_arrival by (done || lia). rewrite Hm. simpl.
  rewrite (proj2 (Z.eqb_eq e _)), (proj2 (Z.eqb_neq (u8 b1) _)) by done.
  rewrite <- Hm in Ha2 |- *.
  destruct (expectLoop_others e x (Some y) polls2 (10000 - idles polls1) (u8 s1)
    (s2 :: b2 :: rest) w1 Hi1 Hok2 ltac:(lia) Ha2) as [s'' E].
  unfold y in E. rewrite E. clear E. unfold mbind, M_bind, bind. rewrite dispatchAll_app.
  unfold mbind, M_bind, bind. rewrite Hm.
  destruct (dispatchAll (arrivals mux polls2) w1) as [[w2 []]| |] eqn:Ed2; [|done..].
  pose proof (same_fields _ _ (dispatchAll_ctl _ _ _ _ Ed2)) as Hf2. simpl.
  assert (Hm2 : _muxPresent (ctl w2) = mux) by by rewrite Hf2.
  assert (Hi2 : _ignoreOutOfOrder (ctl w2) = 0) by by rewrite Hf2.
  rewrite expectLoop_arrival by (done || lia). rewrite Hm2. simpl.
  rewrite (proj2 (Z.eqb_eq e _)) by done. rewrite dispatchAll_cons. fold z y.
  destruct (Z.eqb_spec z x) as [Hz|Hz]; unfold mbind, M_bind, bind.
  - rewrite (no_reads_dispatch e y w2 rest).
    destruct (dispatchDriverInterrupt e y w2) as [[w3 []]| |]; simpl; [|done..]. by rewrite <- Hz.
  - rewrite (no_reads_dispatch e z w2 rest).
    by destruct (dispatchDriverInterrupt e z w2) as [[w3 []]| |].
Qed.

End PortSpec.

Lemma write_after_input_free_witness :
  writeDataPort 0x1F4 (bench [2; 3; 0; 9]) =
  Ok ({| (bench [9]) with trace := [EvOut kDataPort 0xF4] |}, tt).
Proof.
  apply (proj1 (write_after_input_free 0x1F4 (bench [2; 3; 0; 9])
                  {| (bench [9]) with trace := [EvOut kDataPort 0xF4] |})).
  exists [2; 3], 0. repeat constructor.
Defined.

Lemma readDataPort_returns_witness :
  _suppressTimeout (ctl (bench [])) = false /\
  readDataPort 0 {| (bench []) with hw := [0; 0x21; 0x55; 1; 0xAB] ++ [7] |} =
  (dispatchAll [(1, 0x55)] ;; modify (fun w' => {| w' with hw := [7] |}) ;; ret 0xAB) (bench []).
Proof.
  split; [reflexivity|].
  refine (readDataPort_returns 0 [Idle 0; Arrival 0x21 0x55] 1 0xAB [7] (bench []) _ _ _ _ _ _);
    repeat constructor; discriminate.
Defined.

Lemma readDataPort_times_out_witness :
  idles (replicate (Z.to_nat 19999) (Idle 0)) = 19999 /\
  readDataPort 0 {| (bench []) with hw := flat_map reads (replicate (Z.to_nat 19999) (Idle 0)) ++ 0 :: [7] |} =
  (dispatchAll (arrivals false (replicate (Z.to_nat 19999) (Idle 0))) ;;
   modify (fun w' => {| w' with hw := [7] |}) ;; emit (EvTimeout 0) ;; ret 0) (bench []).
Proof.
  split; [vm_compute; reflexivity|].
  refine (readDataPort_times_out 0 (replicate (Z.to_nat 19999) (Idle 0)) 0 [7] (bench []) _ _ _ _ _).
  - reflexivity.
  - apply Forall_replicate. reflexivity.
  - vm_compute. reflexivity.
  - vm_compute. constructor.
  - reflexivity.
Defined.

Lemma expected_byte_first_witness :
  _ignoreOutOfOrder (ctl (bench [])) = 0 /\
  readDataPortExpect 0 0xFA {| (bench []) with hw := [0; 0x21; 0x55; 1; 0xFA] ++ [7] |} =
  (dispatchAll [(1, 0x55)] ;; modify (fun w' => {| w' with hw := [7] |}) ;; ret 0xFA) (bench []).
Proof.
  split; [reflexivity|].
  refine (expected_byte_first 0 0xFA [Idle 0; Arrival 0x21 0x55] 1 0xFA [7] (bench []) _ _ _ _ _ _ _);
    repeat constructor; discriminate.
Defined.

Lemma out_of_order_correction_witness :
  _ignoreOutOfOrder (ctl (bench [])) = 0 /\
  readDataPortExpect 0 0xFA {| (bench []) with hw := [0x21; 0x55; 1; 0x1E; 0; 1; 0xFA; 7] |} =
  (dispatchAll [(1, 0x55); (0, 0x1E)] ;;
   modify (fun w' => {| w' with hw := [7] |}) ;; ret 0xFA) (bench []).
Proof.
  split; [reflexivity|].
  refine (out_of_order_correction 0 0xFA [Arrival 0x21 0x55] 1 0x1E [Idle 0] 1 0xFA [7] (bench [])
            _ _ _ _ _ _ _ _ _ _ _);
    try reflexivity; repeat constructor; discriminate.
Defined.
