(* ===== verification/LineSpec.v ===== *)
(** * The command byte and the interrupt lines

    What the controller does to the 8042 itself: which bytes [setCommandByte] and
    the multiplexing handshake write, and when the interrupts are registered and
    enabled. *)
From S2P Require Import Prelude PS2Types Controller ControllerLemmas PortSpec TestBench.

Section Silent.
Context {C A : Type}.
#[local] Abbreviation W := (World C A).
Implicit Types (w : W).

(** The events of a kind, in order. *)
Definition select (sel : Event -> bool) (l : list Event) : list Event := filter (fun e => sel e = true) l.

(** [m] has no event of the kind [sel]. *)
Definition silent (sel : Event -> bool) {X} (m : M W X) : Prop := forall w w' a,
  m w = Ok (w', a) -> select sel (trace w') = select sel (trace w).

Context (sel : Event -> bool).

Lemma silent_ret {X} (a : X) : silent sel (ret a).
Proof. by intros w w' b [= <- <-]. Qed.
Lemma silent_crash {X} : silent sel (crash (A := X)).
Proof. done. Qed.
Lemma silent_wait {X} : silent sel (wait (A := X)).
Proof. done. Qed.
Lemma silent_field {X} (f : ApplePS2Controller C A -> X) : silent sel (field f).
Proof. by intros w w' b [= <- <-]. Qed.
Lemma silent_update f : silent sel (update f).
Proof. by intros w w' b [= <- <-]. Qed.
Lemma silent_deref {X} (o : option X) : silent sel (deref o).
Proof. destruct o; [apply silent_ret|done]. Qed.
Lemma silent_inb p : silent sel (inb p).
Proof. intros w w' b. unfold inb. destruct (hw w); [done|]. by intros [= <- <-]. Qed.

Lemma silent_emit e : sel e = false -> silent sel (emit e).
Proof.
  intros He w w' b [= <- <-]. simpl. unfold select. rewrite filter_app.
  rewrite (filter_cons_False _ e []) by congruence. apply app_nil_r.
Qed.

Lemma emit_selected e w w' u :
  sel e = true -> emit e w = Ok (w', u) -> select sel (trace w') = select sel (trace w) ++ [e].
Proof. intros He [= <- <-]. unfold select. simpl. by rewrite filter_app, (filter_cons_True _ e []). Qed.

Lemma silent_bind {X Y} (m : M W X) (k : X -> M W Y) :
  silent sel m -> (forall a, silent sel (k a)) -> silent sel (m ≫= k).
Proof.
  intros Hm Hk w w' b E. apply bind_inv in E as (w1 & a & E1 & E2).
  by rewrite (Hk _ _ _ _ E2), (Hm _ _ _ E1).
Qed.

Lemma silent_when (b : bool) (m : M W unit) : silent sel m -> silent sel (when b m).
Proof. destruct b; [done|intros _; apply silent_ret]. Qed.

Lemma silent_for_each {X} (l : list X) (f : X -> M W unit) :
  (forall x, silent sel (f x)) -> silent sel (for_each l f).
Proof. intros Hf. induction l; simpl; [apply silent_ret|]. by apply silent_bind. Qed.

Lemma silent_loop {X Y} (size : W -> nat) (body : X -> M W (X + Y)) a :
  (forall a, silent sel (body a)) -> silent sel (loop size body a).
Proof.
  intros Hb w w'. unfold loop. generalize (Datatypes.S (size w)). intros f. revert a w w'.
  induction f as [|f IH]; intros a w w' b E; simpl in E; [done|].
  destruct (body a w) as [[w1 [a'|b']]| |] eqn:E1; try done.
  - by rewrite (IH _ _ _ _ E), (Hb _ _ _ _ E1).
  - injection E as <- <-. by eapply Hb.
Qed.

End Silent.

Create HintDb silent.
#[export] Hint Resolve silent_ret silent_crash silent_wait silent_field silent_update silent_deref
  silent_inb : silent.

Ltac silent_step :=
  match goal with
  | |- silent _ (_ ≫= _) => apply silent_bind; [|intros ?]
  | |- silent _ (emit _) => apply silent_emit; solve [eauto]
  | |- silent _ (outb _ _) => apply silent_emit; solve [eauto]
  | |- silent _ (when _ _) => apply silent_when
  | |- silent _ (for_each _ _) => apply silent_for_each; intros ?
  | |- silent _ (loop _ _ _) => apply silent_loop; intros ?
  | |- silent _ (let '(_, _) := ?x in _) => destruct x
  | |- silent _ (if ?b then _ else _) => destruct b
  | |- silent _ (match ?x with _ => _ end) => destruct x
  | |- silent _ _ => solve [eauto with silent]
  end.
Ltac silent := repeat (cbv zeta; silent_step).

(** Reading has no effect but deliveries, signals and logged timeouts. *)
Section SilentReads.
Context {C A : Type} (sel : Event -> bool).
Context (sel_deliver : forall p b, sel (EvDeliver p b) = false).
Context (sel_signal : forall p, sel (EvSignal p) = false).
Context (sel_timeout : forall p, sel (EvTimeout p) = false).
#[local] Abbreviation silent := (silent (C := C) (A := A) sel).

Lemma silent_dispatch p b : silent (dispatchDriverInterrupt p b).
Proof.
  unfold dispatchDriverInterrupt, _dispatchDriverInterrupt, interruptAction,
    packetActionInterrupt, device, setDevice. silent.
Qed.

Lemma silent_waitOutputReady t s : silent (waitOutputReady t s).
Proof. unfold waitOutputReady. silent. Qed.

Lemma silent_readDataPort p : silent (readDataPort p).
Proof.
  unfold readDataPort, readDataPortRound, getPortFromStatus. silent;
    eauto using silent_dispatch, silent_waitOutputReady.
Qed.
End SilentReads.

(** The bytes written to the ports, and the events of the interrupt lines. *)
Definition is_out (e : Event) : bool := match e with EvOut _ _ => true | _ => false end.
Definition is_irq (e : Event) : bool :=
  match e with
  | EvRegisterInterrupt _ | EvEnableInterrupt _ | EvDisableInterrupt _ | EvUnregisterInterrupt _ => true
  | _ => false
  end.

Section Lines.
Context {C A : Type}.
#[local] Abbreviation W := (World C A).
Implicit Types (w : W).

Definition outs w : list Event := select is_out (trace w).

Lemma outs_readDataPort p : silent (C := C) (A := A) is_out (readDataPort p).
Proof. by apply silent_readDataPort. Qed.

Lemma outs_write p b w w' u :
  (waitInputFree ;; outb p b) w = Ok (w', u) -> outs w' = outs w ++ [EvOut p (u8 b)].
Proof.
  intros E. apply bind_inv in E as (w1 & [] & E1 & E2).
  assert (H1 : outs w1 = outs w).
  { assert (Hs : silent (C := C) (A := A) is_out waitInputFree) by (unfold waitInputFree; silent).
    by eapply Hs. }
  unfold outs in *. by rewrite (emit_selected _ _ _ _ _ eq_refl E2), H1.
Qed.

Lemma outs_writeDataPort b w w' u :
  writeDataPort b w = Ok (w', u) -> outs w' = outs w ++ [EvOut kDataPort (u8 b)].
Proof. apply outs_write. Qed.

Lemma outs_writeCommandPort b w w' u :
  writeCommandPort b w = Ok (w', u) -> outs w' = outs w ++ [EvOut kCommandPort (u8 b)].
Proof. apply outs_write. Qed.

(** What is read is a byte. *)
Lemma readDataPort_byte e w w' b : readDataPort e w = Ok (w', b) -> is_byte b.
Proof.
  apply loop_result. intros [t s] w1 w2 r E. unfold readDataPortRound in E.
  apply bind_inv in E as (w3 & [t' s'] & _ & E). destruct (t' =? 0).
  - apply bind_inv in E as (? & ? & _ & E). apply bind_inv in E as (? & ? & _ & E).
    injection E as _ <-. by split.
  - apply bind_inv in E as (w4 & x & Ex & E).
    apply inb_inv in Ex as (y & _ & -> & _).
    apply bind_inv in E as (? & [] & _ & E); [injection E as _ <-; apply u8_range|].
    apply bind_inv in E as (? & p & _ & E). destruct (e =? p); [injection E as _ <-; apply u8_range|].
    by apply bind_inv in E as (? & ? & _ & E).
Qed.

Lemma readCommandByte_spec w w' b :
  readCommandByte w = Ok (w', b) -> is_byte b /\ outs w' = outs w ++ [EvOut kCommandPort kCP_GetCommandByte].
Proof.
  unfold readCommandByte, ignoringInterrupts. intros E.
  apply bind_inv in E as (w1 & [] & [= <-] & E). apply bind_inv in E as (w2 & x & E & E').
  apply bind_inv in E' as (w3 & [] & [= <-] & [= <- <-]).
  apply bind_inv in E as (w4 & [] & E1 & E2). split; [by eapply readDataPort_byte|].
  change (outs w2 = outs w ++ [EvOut kCommandPort kCP_GetCommandByte]). unfold outs.
  rewrite (outs_readDataPort _ _ _ _ E2). by apply outs_writeCommandPort in E1.
Qed.

(** The new command byte, bit by bit. *)
Definition new_command_byte (old s cl : Z) : Z := u8 (clear_bits (Z.lor old (u8 s)) (u8 cl)).

Lemma new_command_byte_bits old s cl i :
  0 <= i < 8 -> Z.testbit (new_command_byte old s cl) i =
  (Z.testbit old i || Z.testbit s i) && negb (Z.testbit cl i).
Proof.
  intros Hi. unfold new_command_byte, clear_bits, u8. change 256 with (2 ^ 8).
  rewrite Z.mod_pow2_bits_low, Z.ldiff_spec, Z.lor_spec by lia.
  by rewrite !Z.mod_pow2_bits_low by lia.
Qed.

(** [setCommandByte(setBits, clearBits)] reads the command byte and returns
    it; it writes back the byte with [setBits] set and [clearBits] cleared (a bit in
    both is cleared) if that is a different byte, and writes nothing else. *)
Theorem setCommandByte_writes s cl w w' old :
  setCommandByte s cl w = Ok (w', old) ->
  let new := new_command_byte old s cl in
  is_byte old /\
  (forall i, 0 <= i < 8 -> Z.testbit new i =
     (Z.testbit old i || Z.testbit s i) && negb (Z.testbit cl i)) /\
  select is_out (trace w') = select is_out (trace w) ++ EvOut kCommandPort kCP_GetCommandByte ::
    (if old =? new then [] else [EvOut kCommandPort kCP_SetCommandByte; EvOut kDataPort new]).
Proof.
  rewrite setCommandByte_unfold. intros E.
  apply bind_inv in E as (w1 & b & E1 & E). apply bind_inv in E as (w2 & [] & E2 & [= <- <-]).
  apply readCommandByte_spec in E1 as [Hb H1]. rewrite (u8_small b) by done.
  intros new. split; [done|]. split; [intros i Hi; by apply new_command_byte_bits|].
  unfold writeCommandByte in E2. fold (new_command_byte b s cl) in E2. fold new in E2.
  unfold outs in H1. destruct (b =? new); simpl in E2.
  - injection E2 as <-. done.
  - apply bind_inv in E2 as (w3 & [] & E3 & E4). apply outs_writeCommandPort in E3.
    apply outs_writeDataPort in E4. unfold outs in *. rewrite E4, E3, H1, <- !app_assoc. simpl.
    by rewrite (u8_small new) by apply u8_range.
Qed.

(** ** The interrupt lines *)

Definition irqs w : list Event := select is_irq (trace w).

Lemma irqs_write p b : silent (C := C) (A := A) is_irq (waitInputFree ;; outb p b).
Proof. unfold waitInputFree. silent. Qed.

Lemma irqs_setCommandByte s cl w w' old : setCommandByte s cl w = Ok (w', old) -> irqs w' = irqs w.
Proof.
  rewrite setCommandByte_unfold. revert w w' old.
  change (silent (C := C) (A := A) is_irq
    (old ← readCommandByte; writeCommandByte old (u8 s) (u8 cl) ;; ret (u8 old))).
  unfold readCommandByte, writeCommandByte, ignoringInterrupts, writeCommandPort, writeDataPort.
  silent; first [by apply silent_readDataPort | unfold waitInputFree; silent].
Qed.

Lemma irqs_enableMuxPorts : silent (C := C) (A := A) is_irq enableMuxPorts.
Proof. unfold enableMuxPorts, writeCommandPort, waitInputFree. silent. Qed.

(** Whether line [n] is registered and enabled after the events [l]; [None] after a
    sequence that registers twice or enables or disables out of turn. *)
Fixpoint line_state (n : Z) (l : list Event) (st : option (bool * bool)) : option (bool * bool) :=
  match l, st with
  | [], _ => st
  | EvRegisterInterrupt m :: l', Some (r, e) =>
    line_state n l' (if m =? n then if r then None else Some (true, e) else st)
  | EvEnableInterrupt m :: l', Some (r, e) =>
    line_state n l' (if m =? n then if r && negb e then Some (r, true) else None else st)
  | EvDisableInterrupt m :: l', Some (r, e) =>
    line_state n l' (if m =? n then if r && e then Some (r, false) else None else st)
  | EvUnregisterInterrupt m :: l', Some (r, e) =>
    line_state n l' (if m =? n then if r && negb e then Some (false, e) else None else st)
  | _ :: l', _ => line_state n l' st
  end.

Definition lines_ok w : Prop :=
  let k := _interruptInstalledKeyboard (ctl w) in
  let m := negb (_interruptInstalledMouse (ctl w) =? 0) in
  0 <= _interruptInstalledMouse (ctl w) /\
  line_state kIRQ_Keyboard (irqs w) (Some (false, false)) = Some (k, k) /\
  line_state kIRQ_Mouse (irqs w) (Some (false, false)) = Some (m, m).

(** [install] and [uninstall] calls, in any order, for any ports. *)
Inductive IrqOp := Install (port : Z) | Uninstall (port : Z).

Definition irq_op (o : IrqOp) : M W unit :=
  match o with
  | Install p => installInterruptAction p
  | Uninstall p => uninstallInterruptAction p
  end.

(** How many auxiliary clients an operation adds. *)
Definition mouse_delta (o : IrqOp) : Z :=
  match o with
  | Install p => if kPS2KbdIdx <? p then 1 else 0
  | Uninstall p => if kPS2KbdIdx <? p then -1 else 0
  end.

Lemma line_state_app n l1 l2 st :
  line_state n (l1 ++ l2) st = line_state n l2 (line_state n l1 st).
Proof.
  revert st. induction l1 as [|e l1 IH]; intros st; [done|].
  destruct st as [[r b]|]; destruct e; simpl; apply IH.
Qed.

(** Registering and enabling a line, or the converse, after [setCommandByte]. *)
Lemma irqs_emit2 s cl e1 e2 (k : unit -> M W unit) w w' u :
  is_irq e1 = true -> is_irq e2 = true ->
  (setCommandByte s cl ;; emit e1 ;; emit e2 ;; k tt) w = Ok (w', u) ->
  exists w1, same_ctl (ctl w) (ctl w1) /\ irqs w1 = irqs w ++ [e1; e2] /\ k tt w1 = Ok (w', u).
Proof.
  intros H1 H2 E. apply bind_inv in E as (w1 & old & Es & E).
  apply bind_inv in E as (w2 & [] & E1 & E). apply bind_inv in E as (w3 & [] & E2 & E).
  exists w3. split; [|split; [|exact E]].
  - pose proof (ev_ctl _ _ (keeps_setCommandByte _ _ _ _ _ Es)) as Hs.
    injection E1 as <-. injection E2 as <-. exact Hs.
  - pose proof (irqs_setCommandByte _ _ _ _ _ Es) as Hs. unfold irqs in *.
    rewrite (emit_selected _ _ _ _ _ H2 E2), (emit_selected _ _ _ _ _ H1 E1), Hs.
    by rewrite <- app_assoc.
Qed.

Lemma same_ctl_installed c c' : same_ctl (C := C) (A := A) c c' ->
  _interruptInstalledKeyboard c' = _interruptInstalledKeyboard c /\
  _interruptInstalledMouse c' = _interruptInstalledMouse c.
Proof. intros H. by rewrite (same_fields _ _ H). Qed.

Lemma keyboard_line w w' s cl e1 e2 b :
  lines_ok w -> is_irq e1 = true -> is_irq e2 = true ->
  line_state kIRQ_Keyboard [e1; e2] (Some (negb b, negb b)) = Some (b, b) ->
  (forall st, line_state kIRQ_Mouse [e1; e2] (Some (st, st)) = Some (st, st)) ->
  _interruptInstalledKeyboard (ctl w) = negb b ->
  (setCommandByte s cl ;; emit e1 ;; emit e2 ;;
   update (fun c => {| c with _interruptInstalledKeyboard := b |})) w = Ok (w', tt) ->
  lines_ok w' /\ _interruptInstalledMouse (ctl w') = _interruptInstalledMouse (ctl w).
Proof.
  intros (Hm & Hk & Hl) H1 H2 Hb Hst Hc E.
  apply (irqs_emit2 _ _ _ _ (fun _ => _)) in E as (w1 & Hs & Hi & [= <-]); [|done..].
  apply same_ctl_installed in Hs as [Sk Sm]. unfold lines_ok, irqs in *. simpl.
  rewrite Sm, Hi, !line_state_app, Hk, Hl, Hc. by rewrite Hb, Hst.
Qed.

Lemma irqs_emit2_end s cl e1 e2 w w' u :
  is_irq e1 = true -> is_irq e2 = true ->
  (setCommandByte s cl ;; emit e1 ;; emit e2) w = Ok (w', u) ->
  same_ctl (ctl w) (ctl w') /\ irqs w' = irqs w ++ [e1; e2].
Proof.
  intros H1 H2 E. destruct (irqs_emit2 s cl e1 e2 (fun _ => ret tt) w w' tt H1 H2)
    as (w3 & Hs & Hi & [= <-]); [|done].
  revert E. unfold mbind, M_bind, bind.
  destruct (setCommandByte s cl w) as [[w4 old]| |]; [by intros [= <-]|done..].
Qed.

Lemma install_mouse_ok w w' p :
  lines_ok w -> kPS2KbdIdx < p -> installInterruptAction p w = Ok (w', tt) ->
  lines_ok w' /\ _interruptInstalledMouse (ctl w') = _interruptInstalledMouse (ctl w) + 1.
Proof.
  intros (Hm & Hk & Hl) Hp E. unfold installInterruptAction in E.
  apply bind_inv in E as (w0 & b & [= <- <-] & E).
  rewrite (proj2 (Z.eqb_neq p kPS2KbdIdx)), (proj2 (Z.ltb_lt _ _)) in E by lia. simpl in E.
  apply bind_inv in E as (w1 & m & [= <- <-] & E). apply bind_inv in E as (w1 & [] & E & [= <-]).
  destruct (Z.eqb_spec (_interruptInstalledMouse (ctl w)) 0) as [En|En]; unfold nz in E.
  - rewrite En in E. simpl in E. apply bind_inv in E as (w2 & mux & [= <- <-] & E).
    apply bind_inv in E as (w2 & [] & E2 & E).
    assert (S2 : same_ctl (ctl w) (ctl w2) /\ irqs w2 = irqs w).
    { destruct (_muxPresent (ctl w)); simpl in E2; [|by injection E2 as <-].
      split; [by eapply ev_ctl, keeps_enableMuxPorts|by eapply irqs_enableMuxPorts]. }
    destruct S2 as [S2 Hi2]. apply irqs_emit2_end in E as [Hs Hi]; [|done..].
    apply same_ctl_installed in S2 as [Sk2 Sm2]. apply same_ctl_installed in Hs as [Sk Sm].
    unfold lines_ok, irqs in *. simpl. rewrite Hi, Hi2, !line_state_app, Hk, Hl, Sk, Sk2, Sm, Sm2, En.
    split; [|done]. split; [lia|]. split; [|done]. by destruct (_interruptInstalledKeyboard (ctl w)).
  - rewrite (proj2 (Z.eqb_neq _ _) En) in E. injection E as <-. split; [|done].
    unfold lines_ok, irqs in *. cbn [ctl trace _interruptInstalledMouse _interruptInstalledKeyboard].
    rewrite Hk, Hl, (proj2 (Z.eqb_neq (_ + 1) 0)) by lia. split; [lia|done].
Qed.

Lemma uninstall_mouse_ok w w' p :
  lines_ok w -> kPS2KbdIdx < p -> uninstallInterruptAction p w = Ok (w', tt) ->
  lines_ok w' /\ _interruptInstalledMouse (ctl w') = _interruptInstalledMouse (ctl w) - 1.
Proof.
  intros (Hm & Hk & Hl) Hp E. unfold uninstallInterruptAction in E.
  apply bind_inv in E as (w0 & b & [= <- <-] & E).
  rewrite (proj2 (Z.eqb_neq p kPS2KbdIdx)), (proj2 (Z.ltb_lt _ _)) in E by lia. simpl in E.
  apply bind_inv in E as (w1 & m & [= <- <-] & E).
  destruct (Z.ltb_spec 0 (_interruptInstalledMouse (ctl w))) as [H0|]; [|done]. simpl in E.
  apply bind_inv in E as (w1 & [] & [= <-] & E).
  rewrite (proj2 (Z.eqb_neq (_interruptInstalledMouse (ctl w)) 0)) in Hl by lia.
  destruct (Z.eqb_spec (_interruptInstalledMouse (ctl w) - 1) 0) as [En|En]; simpl in E.
  - apply irqs_emit2_end in E as [Hs Hi]; [|done..].
    apply same_ctl_installed in Hs as [Sk Sm]. simpl in Sk, Sm. unfold lines_ok, irqs in *.
    simpl in Hi. rewrite Hi, !line_state_app, Hk, Hl, Sk, Sm, En. split; [|done].
    split; [lia|]. split; [|done]. by destruct (_interruptInstalledKeyboard (ctl w)).
  - injection E as <-. split; [|done]. unfold lines_ok, irqs in *.
    cbn [ctl trace _interruptInstalledMouse _interruptInstalledKeyboard].
    rewrite Hk, Hl, (proj2 (Z.eqb_neq _ 0)) by done. split; [lia|done].
Qed.

Lemma irq_op_ok o w w' :
  lines_ok w -> irq_op o w = Ok (w', tt) ->
  lines_ok w' /\ _interruptInstalledMouse (ctl w') = _interruptInstalledMouse (ctl w) + mouse_delta o.
Proof.
  intros Hw E. destruct o as [p|p]; simpl in E |- *;
    (destruct (Z.ltb_spec kPS2KbdIdx p) as [Hp|Hp];
     [first [by eapply install_mouse_ok | by eapply uninstall_mouse_ok]|]); rewrite Z.add_0_r.
  - unfold installInterruptAction in E. apply bind_inv in E as (w0 & b & [= <- <-] & E).
    rewrite (proj2 (Z.ltb_ge _ _) Hp) in E. destruct (_ && _) eqn:Ep; [|by injection E as <-].
    apply andb_prop in Ep as [_ Ek]. apply negb_true_iff in Ek.
    by apply (keyboard_line _ _ _ _ _ _ true Hw) in E; [| | | |intros []|].
  - unfold uninstallInterruptAction in E. apply bind_inv in E as (w0 & b & [= <- <-] & E).
    rewrite (proj2 (Z.ltb_ge _ _) Hp) in E. destruct (_ && _) eqn:Ep; [|by injection E as <-].
    apply andb_prop in Ep as [_ Ek].
    by apply (keyboard_line _ _ _ _ _ _ false Hw) in E; [| | | |intros []|].
Qed.

(** C12: after any sequence of interrupt-action installations and removals by any
    of the drivers, the count of auxiliary clients is the number of their
    installations less that of their removals, and each interrupt line is
    registered and enabled exactly while a client is installed on it; no line is
    ever registered, enabled, disabled or unregistered twice in a row. *)
Theorem interrupt_lines_follow_clients ops w w' :
  lines_ok w -> for_each ops irq_op w = Ok (w', tt) ->
  lines_ok w' /\
  _interruptInstalledMouse (ctl w') =
    fold_right Z.add (_interruptInstalledMouse (ctl w)) (map mouse_delta ops).
Proof.
  revert w. induction ops as [|o ops IH]; intros w Hw E; simpl in E.
  - by injection E as <-.
  - apply bind_inv in E as (w1 & [] & E1 & E). destruct (irq_op_ok o w w1 Hw E1) as [Hw1 Hm].
    destruct (IH w1 Hw1 E) as [Hw' ->]. split; [done|]. rewrite Hm. simpl.
    generalize (_interruptInstalledMouse (ctl w)). clear. intros z.
    induction ops as [|o' ops IH]; simpl; lia.
Qed.

(** ** The multiplexing handshake *)

(** The answers to one exchange: the input buffer is free twice, then, after some
    idle polls, the byte [b] arrives from the first auxiliary port. *)
Definition exchange_ok (l : list Poll) (s : Z) : Prop :=
  Forall poll_ok l /\ idles l < 20000 /\ arrivals false l = [] /\ arrivals true l = [] /\
  ready s = true /\ port_of false s = kPS2AuxIdx /\ port_of true s = kPS2AuxIdx.

Definition exchange_answers (f1 f2 : Z) (l : list Poll) (s b : Z) : list Z :=
  f1 :: f2 :: flat_map reads l ++ [s; b].

Lemma muxExchange_spec param f1 f2 l s b rest w :
  free f1 -> free f2 -> exchange_ok l s -> _suppressTimeout (ctl w) = false ->
  muxExchange param {| w with hw := exchange_answers f1 f2 l s b ++ rest |} =
  Ok ({| w with hw := rest; trace := trace w ++
         [EvOut kCommandPort kCP_WriteMouseOutputBuffer; EvOut kDataPort (u8 param)] |}, u8 b).
Proof.
  intros H1 H2 (Hl & Hi & Hf & Ht & Hr & Pf & Pt) Hs.
  unfold muxExchange, exchange_answers. rewrite <- !app_comm_cons, <- app_assoc.
  rewrite (bind_ok _ _ _ _ _ (write_free kCommandPort kCP_WriteMouseOutputBuffer f1 _ w H1)).
  set (w1 := {| w with trace := trace w ++ [EvOut kCommandPort kCP_WriteMouseOutputBuffer] |}).
  rewrite (bind_ok _ _ _ _ _ (write_free kDataPort param f2
    (flat_map reads l ++ s :: b :: rest) w1 H2)).
  set (w2 := {| w1 with trace := trace w1 ++ [EvOut kDataPort (u8 param)] |}).
  change (readDataPort kPS2AuxIdx {| w2 with hw := flat_map reads l ++ s :: b :: rest |} =
    Ok ({| w with hw := rest; trace := trace w ++
         [EvOut kCommandPort kCP_WriteMouseOutputBuffer; EvOut kDataPort (u8 param)] |}, u8 b)).
  assert (Ha : arrivals (_muxPresent (ctl w2)) l = []) by by destruct (_muxPresent (ctl w2)).
  rewrite readDataPort_spec; [|done|done|done|by rewrite Ha|done|by destruct (_muxPresent (ctl w2))].
  rewrite Ha. subst w2 w1. simpl. unfold mbind, M_bind, bind, ret, modify. simpl.
  by rewrite <- app_assoc.
Qed.


End Lines.

Lemma setCommandByte_writes_witness :
  exists w', setCommandByte 0x42 0x21 (bench [0; 1; 0x61; 0; 0]) = Ok (w', 0x61) /\
  select is_out (trace w') =
    [EvOut 0x64 0x20; EvOut 0x64 0x60; EvOut 0x60 0x42].
Proof.
  destruct (setCommandByte 0x42 0x21 (bench [0; 1; 0x61; 0; 0])) as [[w' old]| |] eqn:E;
    [|vm_compute in E; discriminate..].
  pose proof (setCommandByte_writes _ _ _ _ _ E) as (_ & _ & H).
  exists w'. vm_compute in E. injection E as <- <-. split; [reflexivity|]. exact H.
Defined.

Definition unplugged : World (list Z) PS2Request :=
  {| (bench [0; 1; 0; 0; 0; 0; 1; 0x22; 0; 0]) with
     ctl := {| bench_controller with _interruptInstalledKeyboard := false;
                                     _interruptInstalledMouse := 0 |} |}.

Lemma interrupt_lines_follow_clients_witness :
  exists w', for_each [Install 1; Install 2; Uninstall 1; Uninstall 2] irq_op unplugged = Ok (w', tt) /\
    lines_ok w' /\ _interruptInstalledMouse (ctl w') = 0.
Proof.
  destruct (for_each [Install 1; Install 2; Uninstall 1; Uninstall 2] irq_op unplugged)
    as [[w' []]| |] eqn:E; [|vm_compute in E; discriminate..].
  exists w'. split; [reflexivity|].
  exact (interrupt_lines_follow_clients _ unplugged w' ltac:(repeat split; simpl; lia) E).
Defined.

