(* ===== verification/PowerSpec.v ===== *)
(** * Sleep and wake

    [setPowerStateGated] under every sequence of power states.  The drivers' power
    actions are arbitrary computations that use the controller the way a driver
    may: they keep its members and do not crash it ([PowerActions]); the
    controller's own request routine is such a computation. *)
From S2P Require Import Prelude PS2Types Controller ControllerLemmas TestBench.

(** What the controller relies on when it calls a power action. *)
Class PowerActions {C A : Type} (Cok : C -> Prop) (power_action : A -> Z -> M (World C A) unit) := {
  power_keeps : forall a d, keeps (power_action a d);
  power_safe : forall a d, safe Cok queue_unlocked (power_action a d) }.

Section Moves.
Context {C A : Type} (Cok : C -> Prop).
#[local] Abbreviation W := (World C A).
#[local] Abbreviation Ctl := (ApplePS2Controller C A).
Implicit Types (c : Ctl) (w : W).

(** The controller has its lock and its nubs: it is started. *)
Definition started c : Prop :=
  queue_unlocked c /\ 0 < _nubsCount c /\ forall i, 0 <= i < _nubsCount c -> nonnull c i.

#[export] Instance framed_started : Framed started.
Proof.
  intros c c' H (Hl & Hn & Hi). unfold started, queue_unlocked in *.
  rewrite (st_lock _ _ H), (st_nubs _ _ H). split; [done|]. split; [done|].
  intros i Hr. by apply (st_nonnull _ _ H), Hi.
Qed.

(** [m] does not crash and, apart from client data and the queue, changes the
    controller by [f]. *)
Definition moves (P : Ctl -> Prop) (f : Ctl -> Ctl) {X} (m : M W X) : Prop :=
  forall w, ctl_ok Cok (ctl w) -> P (ctl w) ->
  wp m (fun _ w' => ctl_ok Cok (ctl w') /\ same_ctl (f (ctl w)) (ctl w')) w.

Definition respects (g : Ctl -> Ctl) : Prop := forall c c', same_ctl c c' -> same_ctl (g c) (g c').

Lemma moves_safe (P : Ctl -> Prop) {X} (m : M W X) : keeps m -> safe Cok P m -> moves P (fun c => c) m.
Proof.
  intros Hk Hs w Hw HP. eapply wp_mono; [by apply (wp_safe Cok P m w)|].
  intros a w' (? & ? & _). done.
Qed.

(** Conditions under which the steps below run. *)
Class Stable (P : Ctl -> Prop) := {
  stable_same : forall c c', same_ctl c c' -> P c -> P c';
  stable_started : forall c, P c -> started c }.

#[export] Instance stable_started_itself : Stable started.
Proof. split; [|done]. intros c c' H. apply framed_started. by apply same_ctl_static. Qed.

Lemma moves_then (P : Ctl -> Prop) `{!Stable P} (g : Ctl -> Ctl) {X Y} (m : M W X) (k : X -> M W Y) :
  keeps m -> safe Cok started m -> respects g -> (forall a, moves P g (k a)) -> moves P g (m ≫= k).
Proof.
  intros Hk Hs Hg Hm w Hw HP. apply wp_bind.
  eapply wp_mono; [apply (wp_safe Cok started m w); [done|done|done|by apply stable_started]|].
  intros a w1 (Hw1 & K1 & _).
  eapply wp_mono; [apply (Hm a); [done|by eapply stable_same]|].
  intros b w2 [Hw2 K2]. split; [done|]. etransitivity; [by apply Hg|done].
Qed.

Lemma moves_update (P P' : Ctl -> Prop) (f g : Ctl -> Ctl) {X} (k : unit -> M W X) :
  (forall c, ctl_ok Cok c -> ctl_ok Cok (f c)) -> (forall c, P c -> P' (f c)) ->
  (forall a, moves P' g (k a)) -> moves P (fun c => g (f c)) (update f ≫= k).
Proof.
  intros Hf HP Hk w Hw Hp. apply wp_bind, wp_modify. apply (Hk tt {| w with ctl := f (ctl w) |}).
  - by apply Hf.
  - by apply HP.
Qed.

Lemma moves_bind (P : Ctl -> Prop) `{!Stable P} (g : Ctl -> Ctl) {X Y} (m : M W X) (k : X -> M W Y) :
  moves P (fun c => c) m -> respects g -> (forall a, moves P g (k a)) -> moves P g (m ≫= k).
Proof.
  intros Hm Hg Hk w Hw Hp. apply wp_bind. eapply wp_mono; [by apply Hm|].
  intros a w1 [Hw1 K1]. eapply wp_mono; [apply (Hk a); [done|by eapply stable_same]|].
  intros b w2 [Hw2 K2]. split; [done|]. etransitivity; [by apply Hg|done].
Qed.

Lemma moves_last_update (P : Ctl -> Prop) (f : Ctl -> Ctl) :
  (forall c, ctl_ok Cok c -> ctl_ok Cok (f c)) -> moves P f (update f).
Proof. intros Hf w Hw _. apply wp_modify. split; [by apply Hf|reflexivity]. Qed.

Lemma moves_when (P : Ctl -> Prop) (b : bool) (m : M W unit) :
  moves P (fun c => c) m -> moves P (fun c => c) (when b m).
Proof.
  intros Hm w Hw HP. apply wp_when; intros _; [by apply Hm|]. split; [done|reflexivity].
Qed.

Lemma respects_id : respects (fun c => c).
Proof. by intros c c' H. Qed.
End Moves.

(** Updates of members that no device data depends on. *)
Ltac respects := intros ? ? [?H ?D]; split; [by rewrite H|exact D].
Ltac ctl_ok_update := intros ? []; by split.

Section Power.
Context {C A : Type} (Cok : C -> Prop) (power_action : A -> Z -> M (World C A) unit).
Context `{!PowerActions Cok power_action}.
#[local] Abbreviation W := (World C A).
#[local] Abbreviation Ctl := (ApplePS2Controller C A).
#[local] Abbreviation safe := (safe (A := A) Cok).
#[local] Abbreviation moves := (moves (A := A) Cok).
#[local] Abbreviation started := (started (C := C) (A := A)).
Implicit Types (c : Ctl) (w : W).

(** ** Power actions *)

Lemma keeps_powerAction p d : keeps (powerAction power_action p d).
Proof.
  unfold powerAction. apply keeps_bind; [keeps|]. intros dev.
  destruct (_client dev), (_power_action dev); eauto using keeps_ret, power_keeps.
Qed.

Lemma safe_powerAction p d :
  safe (fun c => started c /\ nonnull c p) (powerAction power_action p d).
Proof.
  unfold powerAction. apply safe_bind; [apply _|keeps|apply safe_device; tauto|]. intros dev.
  destruct (_client dev), (_power_action dev); try apply safe_ret.
  eapply safe_mono; [|apply power_safe]. by intros c1 [[Hl _] _].
Qed.

Lemma keeps_dispatchPower d p : keeps (dispatchDriverPowerControl power_action d p).
Proof.
  unfold dispatchDriverPowerControl. destruct (negb _); [apply keeps_crash|].
  destruct (_ =? _); [apply keeps_powerAction|]. apply keeps_bind; [keeps|]. intros n.
  apply keeps_for_each. intros. apply keeps_powerAction.
Qed.

Lemma safe_dispatchPower d p :
  p < kPS2AuxMaxIdx -> safe started (dispatchDriverPowerControl power_action d p).
Proof.
  intros Hp w Hw Hs. unfold dispatchDriverPowerControl.
  rewrite (proj2 (Z.ltb_lt _ _)) by done. simpl. pose proof Hs as (Hl & Hn & Hi).
  destruct (Z.eqb_spec p kPS2KbdIdx).
  - apply safe_powerAction; [done|]. split; [done|]. apply Hi. unfold kPS2KbdIdx. lia.
  - apply wp_bind, wp_gets.
    set (P := fun c => started c /\ _nubsCount c = _nubsCount (ctl w)).
    assert (HP : Framed P).
    { intros c c' H [H1 H2]. split; [by eapply framed_started|]. by rewrite (st_nubs _ _ H). }
    assert (Hf : safe P (for_each (seqZ kPS2AuxIdx (_nubsCount (ctl w) - kPS2AuxIdx))
                           (fun i => powerAction power_action i d))); [|by apply Hf].
    apply safe_for_each; [done|intros; apply keeps_powerAction|]. intros i Hr.
    apply elem_of_seqZ in Hr. eapply safe_mono; [|apply safe_powerAction].
    intros c1 [Hc Hc']. split; [done|]. apply Hc. rewrite Hc'. unfold kPS2AuxIdx in *. lia.
Qed.

(** ** Reset *)

Definition unsuppressed c : Prop := started c /\ _suppressTimeout c = false.

Lemma moves_resetController : moves unsuppressed (fun c => c) (resetController (C := C) (A := A)).
Proof.
  assert (H : moves started (fun c => {| c with _suppressTimeout := false |})
                (resetController (C := C) (A := A))).
  { unfold resetController, flushDataPort.
    apply (moves_update Cok started started (fun c => {| c with _suppressTimeout := true |})
             (fun c => {| c with _suppressTimeout := false |})); [ctl_ok_update|done|intros _].
    repeat (apply moves_then; [apply _|solve [keeps]|solve [safe]|respects|intros ?]).
    apply (moves_update Cok started started (fun c => {| c with _suppressTimeout := false |})
             (fun c => c)); [ctl_ok_update|done|intros _].
    apply moves_safe; [keeps|safe]. }
  intros w Hw [Hs Hsup]. eapply wp_mono; [by apply H|]. intros _ w' [? K]. split; [done|].
  etransitivity; [|exact K]. split; [simpl; rewrite <- Hsup; by destruct (ctl w)|reflexivity].
Qed.

#[export] Instance stable_unsuppressed : Stable unsuppressed.
Proof.
  split; [|by intros c [H _]]. intros c c' H [H1 H2].
  split; [by eapply stable_same|]. by rewrite (same_fields _ _ H).
Qed.

(** ** Transitions *)

#[local] Hint Resolve keeps_powerAction keeps_dispatchPower : keeps.
#[local] Hint Extern 1 (ControllerLemmas.safe _ _ (dispatchDriverPowerControl _ _ _)) =>
  by apply safe_dispatchPower : safe.

Ltac moves_step := apply moves_then; [apply _|solve [keeps]|solve [safe]|respects|intros ?].

Lemma moves_powerSleep :
  moves started (fun c => {| c with _ignoreInterrupts := _ignoreInterrupts c + 1;
                                    _hardwareOffline := true |}) (powerSleep power_action).
Proof.
  apply (moves_update Cok started started
    (fun c => {| c with _ignoreInterrupts := _ignoreInterrupts c + 1 |})
    (fun c => {| c with _hardwareOffline := true |})); [ctl_ok_update|done|intros _].
  do 3 moves_step.
  apply (moves_update Cok started started (fun c => {| c with _hardwareOffline := true |})
    (fun c => c)); [ctl_ok_update|done|intros _].
  apply moves_safe; [keeps|safe].
Qed.

Lemma moves_powerWake :
  moves unsuppressed (fun c => {| c with _hardwareOffline := false;
    _ignoreInterrupts := _ignoreInterrupts c - 1 |}) (powerWake power_action).
Proof.
  unfold powerWake, flushDataPort. do 3 moves_step. cbv zeta.
  apply moves_bind; [apply _|apply moves_when, moves_resetController|respects|intros _].
  do 5 moves_step. moves_step.
  apply (moves_update Cok unsuppressed unsuppressed (fun c => {| c with _hardwareOffline := false |})
    (fun c => {| c with _ignoreInterrupts := _ignoreInterrupts c - 1 |}));
    [ctl_ok_update|done|intros _].
  do 3 moves_step. apply moves_last_update. ctl_ok_update.
Qed.

Definition asleep c : bool := _currentPowerState c =? kPS2PowerStateSleep.

(** Asleep, the hardware is offline and interrupts are ignored once; awake,
    neither. *)
Definition power_consistent c : Prop :=
  _suppressTimeout c = false /\ _hardwareOffline c = asleep c /\
  _ignoreInterrupts c = if asleep c then 1 else 0.

Definition valid_power_state (s : Z) : Prop :=
  s = kPS2PowerStateSleep \/ s = kPS2PowerStateDoze \/ s = kPS2PowerStateNormal.

(** The controller is ready for the power state [s], which it does not record yet. *)
Definition ready_for (s : Z) c : Prop :=
  ctl_ok Cok c /\ started c /\ _suppressTimeout c = false /\
  _hardwareOffline c = (s =? kPS2PowerStateSleep) /\
  _ignoreInterrupts c = if s =? kPS2PowerStateSleep then 1 else 0.

Lemma ready_for_same s c c' : ctl_ok Cok c' -> ready_for s c -> same_ctl c c' -> ready_for s c'.
Proof.
  intros Hc (_ & Hs & Hr) K. split; [done|]. split; [by eapply stable_same|].
  by rewrite (same_fields _ _ K).
Qed.

Lemma transition_ok s w :
  valid_power_state s -> ctl_ok Cok (ctl w) -> started (ctl w) -> power_consistent (ctl w) ->
  _currentPowerState (ctl w) <> s ->
  wp (if s =? kPS2PowerStateSleep then powerSleep power_action
      else when (((s =? kPS2PowerStateDoze) || (s =? kPS2PowerStateNormal))
                 && asleep (ctl w)) (powerWake power_action))
     (fun _ w' => ready_for s (ctl w')) w.
Proof.
  intros Hs Hw Hst (Hsup & Hoff & Hig) Hne.
  assert (Hup : forall (f : Ctl -> Ctl) (m : M W unit), ready_for s (f (ctl w)) ->
    wp m (fun _ w' => ctl_ok Cok (ctl w') /\ same_ctl (f (ctl w)) (ctl w')) w ->
    wp m (fun _ w' => ready_for s (ctl w')) w).
  { intros f m Hf Hm. eapply wp_mono; [exact Hm|]. intros _ w' [Hw' K].
    by eapply ready_for_same. }
  unfold asleep in *. destruct (Z.eqb_spec s kPS2PowerStateSleep) as [->|Hns].
  - rewrite (proj2 (Z.eqb_neq _ _) Hne) in Hoff, Hig.
    refine (Hup _ _ _ (moves_powerSleep w Hw Hst)).
    split; [by destruct Hw; split|]. split; [exact Hst|]. simpl. by rewrite Hig.
  - assert (Hv : (s =? kPS2PowerStateDoze) || (s =? kPS2PowerStateNormal) = true).
    { destruct Hs as [->|[->| ->]]; done. }
    rewrite Hv. simpl.
    destruct (Z.eqb_spec (_currentPowerState (ctl w)) kPS2PowerStateSleep) as [Hc|Hc]; simpl.
    + refine (Hup _ _ _ (moves_powerWake w Hw (conj Hst Hsup))).
      split; [by destruct Hw; split|]. split; [exact Hst|]. simpl. rewrite Hig.
      by rewrite (proj2 (Z.eqb_neq _ _) Hns).
    + apply wp_ret. split; [done|]. split; [done|]. by rewrite (proj2 (Z.eqb_neq s _) Hns).
Qed.

Lemma setPowerState_ok s w :
  valid_power_state s -> ctl_ok Cok (ctl w) -> started (ctl w) -> power_consistent (ctl w) ->
  wp (setPowerStateGated power_action s) (fun _ w' =>
    (ctl_ok Cok (ctl w') /\ started (ctl w') /\ power_consistent (ctl w')) /\
    _currentPowerState (ctl w') = s) w.
Proof.
  intros Hs Hw Hst Hp. unfold setPowerStateGated. apply wp_bind, wp_gets, wp_bind.
  destruct (Z.eqb_spec (_currentPowerState (ctl w)) s) as [Hc|Hne]; simpl.
  { by apply wp_ret, wp_modify. }
  apply wp_bind. eapply wp_mono; [by apply transition_ok|].
  intros _ w' (Hw' & Hs' & H1 & H2 & H3). apply wp_modify, wp_modify. simpl.
  split; [|done]. split; [by destruct Hw'; split|]. split; [exact Hs'|].
  by unfold power_consistent, asleep; simpl.
Qed.

(** C9: under every sequence of sleep, doze and normal states, whatever the
    hardware answers and whatever requests the drivers' power actions issue, the
    controller does not crash, records the last state, takes the hardware offline
    exactly while asleep, and ignores interrupts exactly while asleep (the
    increments and decrements of [_ignoreInterrupts] balance over the sequence). *)
Theorem power_states_consistent states w :
  Forall valid_power_state states ->
  ctl_ok Cok (ctl w) -> started (ctl w) -> power_consistent (ctl w) ->
  wp (for_each states (setPowerStateGated power_action)) (fun _ w' =>
    (ctl_ok Cok (ctl w') /\ started (ctl w') /\ power_consistent (ctl w')) /\
    _currentPowerState (ctl w') = List.last states (_currentPowerState (ctl w))) w.
Proof.
  intros Hv. revert w. induction Hv as [|s states Hs Hv IH]; intros w Hw Hst Hp; [done|].
  simpl for_each. apply wp_bind. eapply wp_mono; [by apply setPowerState_ok|].
  intros _ w1 ((Hw1 & Hs1 & Hp1) & Hc). eapply wp_mono; [by apply IH|].
  intros _ w2 [H ->]. split; [done|]. by rewrite Hc, last_cons_default.
Qed.

(** A power state outside the three known ones is only logged, yet recorded:
    after sleep, a bad state and then normal, the wake-up is skipped, so the
    controller is left in the normal state with the hardware offline and
    interrupts ignored. *)
Theorem bad_power_state_skips_wake bad w :
  ~ valid_power_state bad -> _currentPowerState (ctl w) = kPS2PowerStateSleep ->
  exists w', for_each [bad; kPS2PowerStateNormal] (setPowerStateGated power_action) w = Ok (w', tt) /\
    _currentPowerState (ctl w') = kPS2PowerStateNormal /\
    _hardwareOffline (ctl w') = _hardwareOffline (ctl w) /\
    _ignoreInterrupts (ctl w') = _ignoreInterrupts (ctl w) /\ hw w' = hw w /\
    trace w' = trace w ++ [EvAckPowerState; EvAckPowerState].
Proof.
  intros Hb Hs. unfold valid_power_state in Hb.
  assert (H0 : bad <> 0 /\ bad <> 1 /\ bad <> 2) by (unfold kPS2PowerStateSleep, kPS2PowerStateDoze, kPS2PowerStateNormal in Hb; tauto).
  assert (E : forall w, _currentPowerState (ctl w) = 0 -> setPowerStateGated power_action bad w =
    Ok ({| w with trace := trace w ++ [EvAckPowerState];
           ctl := {| (ctl w) with _currentPowerState := bad |} |}, tt)).
  { intros w0 H. unfold setPowerStateGated, field, gets, mbind, M_bind, bind. rewrite H.
    rewrite (proj2 (Z.eqb_neq 0 bad)) by lia. simpl.
    rewrite (proj2 (Z.eqb_neq bad _)), (proj2 (Z.eqb_neq bad _)), (proj2 (Z.eqb_neq bad _))
      by (unfold kPS2PowerStateSleep, kPS2PowerStateDoze, kPS2PowerStateNormal; lia). done. }
  assert (E2 : forall w, _currentPowerState (ctl w) = bad -> setPowerStateGated power_action 2 w =
    Ok ({| w with trace := trace w ++ [EvAckPowerState];
           ctl := {| (ctl w) with _currentPowerState := 2 |} |}, tt)).
  { intros w0 H. unfold setPowerStateGated, field, gets, mbind, M_bind, bind. rewrite H.
    rewrite (proj2 (Z.eqb_neq bad 2)) by lia. simpl.
    by rewrite (proj2 (Z.eqb_neq bad kPS2PowerStateSleep)) by (unfold kPS2PowerStateSleep; lia). }
  eexists. split.
  - simpl. unfold mbind, M_bind, bind. rewrite E by done. rewrite E2 by done. reflexivity.
  - simpl. by rewrite <- app_assoc.
Qed.

End Power.

(** A power action that enables the keyboard, whatever its argument. *)
Definition bench_enable (_ : PS2Request) (whatToDo : Z) : M (World (list Z) PS2Request) unit :=
  submitRequestAndBlock bench_request ;; ret tt.

#[export] Instance bench_power_actions : PowerActions bench_ok bench_enable.
Proof.
  split; intros r d; unfold bench_enable.
  - keeps.
  - apply safe_bind; [apply _|keeps| |intros; apply safe_ret].
    apply safe_submitRequestAndBlock; [vm_compute; by split|done].
Defined.

Lemma bench_started hw_ : started (ctl (bench hw_)).
Proof.
  split; [done|]. simpl. split; [lia|]. intros i Hi. unfold nonnull.
  assert (H : i = 0 \/ i = 1) by lia. destruct H as [->| ->]; by eexists.
Qed.

Lemma power_states_consistent_witness :
  Forall valid_power_state [0; 2; 1; 0] /\
  wp (for_each [0; 2; 1; 0] (setPowerStateGated bench_enable)) (fun _ w' =>
    (ctl_ok bench_ok (ctl w') /\ started (ctl w') /\ power_consistent (ctl w')) /\
    _currentPowerState (ctl w') = 0) (bench [0; 1; 2; 3]).
Proof.
  assert (Hv : Forall valid_power_state [0; 2; 1; 0])
    by (repeat constructor; unfold valid_power_state; auto).
  split; [exact Hv|].
  refine (power_states_consistent bench_ok bench_enable [0; 2; 1; 0] (bench [0; 1; 2; 3]) Hv
            bench_ctl_ok (bench_started _) _).
  repeat split.
Defined.

Definition sleeping : World (list Z) PS2Request :=
  {| (bench []) with ctl := {| bench_controller with _currentPowerState := 0;
                               _hardwareOffline := true; _ignoreInterrupts := 1 |} |}.

Lemma bad_power_state_skips_wake_witness :
  ~ valid_power_state 7 /\
  exists w', for_each [7; kPS2PowerStateNormal] (setPowerStateGated bench_enable) sleeping = Ok (w', tt) /\
    _currentPowerState (ctl w') = 2 /\ _hardwareOffline (ctl w') = true.
Proof.
  assert (Hv : ~ valid_power_state 7) by (intros [H|[H|H]]; discriminate).
  split; [exact Hv|].
  destruct (bad_power_state_skips_wake bench_enable 7 sleeping Hv eq_refl)
    as (w' & E & H1 & H2 & _).
  by exists w'.
Defined.
