(* ===== verification/ServiceSpec.v ===== *)
(** * Interrupt time, messages, start and stop *)
From S2P Require Import Prelude PS2Types Controller ControllerLemmas PortSpec.
From S2P Require Import ControllerSpec TestBench.

(** ** The interrupt routine *)
Section Interrupt.
Context {C A : Type}.
#[local] Abbreviation W := (World C A).
Implicit Types (w : W) (c : ApplePS2Controller C A).

(** A driver listens on port [p]: its interrupt is installed, and its nub has a
    client with an interrupt action. *)
Definition listens c (p : Z) : bool :=
  (((kPS2AuxIdx <=? p) && nz (_interruptInstalledMouse c)) ||
   ((kPS2KbdIdx =? p) && _interruptInstalledKeyboard c)) &&
  match arr_get (_devices c) p with
  | Some (Some d) =>
    match _client d, _interrupt_action d with Some _, Some _ => true | _, _ => false end
  | _ => false
  end.

Lemma listens_same c c' p : same_ctl c c' -> listens c' p = listens c p.
Proof.
  intros [H D]. unfold listens. rewrite H. simpl. f_equal.
  unfold arr_get. destruct (p <? 0); [done|].
  destruct (_devices c !! Z.to_nat p) as [o|] eqn:E.
  - destruct (Forall2_lookup_l _ _ _ _ _ D E) as (o' & -> & Ho).
    destruct o as [d|], o' as [d'|]; try done. destruct Ho as [Hd Hc]. rewrite Hd. simpl.
    destruct Hc as [H1 H2]. destruct (_client d), (_client d'); try done.
    + by destruct (H1 (mk_is_Some _ _ eq_refl)).
    + by destruct (H2 (mk_is_Some _ _ eq_refl)).
  - destruct (_devices c' !! Z.to_nat p) as [o|] eqn:E'; [|done].
    destruct (Forall2_lookup_r _ _ _ _ _ D E') as (o' & E'' & _). congruence.
Qed.

Lemma interruptAction_trace p b w w' r :
  interruptAction p b w = Ok (w', r) ->
  trace w' = trace w ++ (if match arr_get (_devices (ctl w)) p with
    | Some (Some d) =>
      match _client d, _interrupt_action d with Some _, Some _ => true | _, _ => false end
    | _ => false end then [EvDeliver p (u8 b)] else []) /\
  (is_packetReady r = true -> match arr_get (_devices (ctl w)) p with
    | Some (Some d) =>
      match _client d, _interrupt_action d with Some _, Some _ => true | _, _ => false end
    | _ => false end = true).
Proof.
  unfold interruptAction. intros E. apply bind_inv in E as (w1 & d & E1 & E).
  apply device_ok in E1 as [-> Hd]. rewrite Hd.
  destruct (_client d) as [cl|]; [|by injection E as <- <-; simpl; rewrite app_nil_r].
  destruct (_interrupt_action d) as [f|]; [|by injection E as <- <-; simpl; rewrite app_nil_r].
  apply bind_inv in E as (w1 & [] & [= <-] & E).
  destruct (f (u8 b) cl) as [[c' r']| |]; [|done..].
  apply bind_inv in E as (w2 & [] & E2 & [= <- <-]).
  by apply setDevice_ok in E2 as (l & _ & ->).
Qed.

Lemma _dispatch_trace p b w w' r :
  _dispatchDriverInterrupt p b w = Ok (w', r) ->
  trace w' = trace w ++ (if listens (ctl w) p then [EvDeliver p (u8 b)] else []) /\
  (is_packetReady r = true -> listens (ctl w) p = true).
Proof.
  unfold _dispatchDriverInterrupt, listens. intros E.
  apply bind_inv in E as (w1 & m & [= <- <-] & E). apply bind_inv in E as (w1 & k & [= <- <-] & E).
  destruct ((kPS2AuxIdx <=? p) && nz _); cbn [orb andb]; [by apply interruptAction_trace|].
  destruct (Z.eqb_spec kPS2KbdIdx p) as [<-|]; cbn [orb andb] in *.
  - destruct (_interruptInstalledKeyboard (ctl w)); cbn [orb andb]; [by apply interruptAction_trace|].
    injection E as <- <-. simpl. by rewrite app_nil_r.
  - injection E as <- <-. simpl. by rewrite app_nil_r.
Qed.

Lemma interrupt_consuming : consuming (answers (C := C) (A := A)) handleInterruptByte.
Proof.
  intros wake w w' r E. unfold handleInterruptByte in E.
  apply bind_inv in E as (w1 & s & E1 & E). apply inb_answers in E1.
  destruct (negb _); [done|]. apply keeps_answers in E; [lia|keeps].
Qed.

(** A port is marked when a byte delivered to it completed a packet. *)
Definition marked (wake wake' : list bool) (l : list (Z * Z)) : Prop :=
  length wake' = length wake /\
  forall i, arr_get wake' i = Some true -> arr_get wake i = Some true \/ exists b, (i, b) ∈ l.

Definition deliveries c (l : list (Z * Z)) : list Event :=
  omap (fun '(p, b) => if listens c p then Some (EvDeliver p b) else None) l.

Lemma deliveries_same c c' l : same_ctl c c' -> deliveries c' l = deliveries c l.
Proof.
  intros H. induction l as [|[p b] l IH]; [done|]. unfold deliveries, omap in *.
  simpl. rewrite (listens_same c c' p H). by destruct (listens c p); rewrite IH.
Qed.

(** The loop drains the stream: it stops at the first status without data. *)
Lemma interrupt_loop l s rest wake w w' wake' :
  Forall poll_ok l -> idles l = 0 -> ready s = false ->
  loop answers handleInterruptByte wake {| w with hw := flat_map reads l ++ s :: rest |} = Ok (w', wake') ->
  hw w' = rest /\ same_ctl (ctl w) (ctl w') /\
  marked wake wake' (arrivals (_muxPresent (ctl w)) l) /\
  trace w' = trace w ++ deliveries (ctl w) (arrivals (_muxPresent (ctl w)) l).
Proof.
  intros Hok. revert wake w. induction Hok as [|[s1|s1 b1] l Hp Hl IH]; intros wake w Hi Hr E.
  - simpl in E. rewrite loop_unfold in E by apply interrupt_consuming.
    unfold handleInterruptByte, mbind, M_bind, bind in E. simpl in E.
    unfold ready in Hr. rewrite Hr in E. injection E as <- <-.
    rewrite app_nil_r. split; [done|]. split; [reflexivity|]. split; [|done]. split; [done|]. auto.
  - simpl in Hi. pose proof (idles_nonneg l). lia.
  - simpl in Hi, E. rewrite loop_unfold in E by apply interrupt_consuming.
    unfold handleInterruptByte at 1 in E.
    rewrite (bind_ok _ _ _ _ _ (inb_at _ s1 _ w)) in E. unfold poll_ok, ready in Hp. rewrite Hp in E.
    change (negb true) with false in E. cbv iota in E.
    rewrite (bind_ok _ _ _ _ _ (inb_at _ b1 _ w)) in E.
    rewrite (bind_ok _ _ _ _ _ (getPortFromStatus_eq s1 _)) in E.
    set (mux := _muxPresent (ctl w)) in *. set (p := port_of mux s1) in *.
    simpl in E. fold mux p in E. unfold mbind, M_bind, bind in E.
    rewrite no_reads__dispatch in E.
    destruct (_dispatchDriverInterrupt p (u8 b1) w) as [[w1 r]| |] eqn:Ed; [|done..].
    pose proof (ev_ctl _ _ (keeps__dispatch _ _ _ _ _ Ed)) as K.
    assert (Hm : _muxPresent (ctl w1) = mux) by by rewrite (same_fields _ _ K).
    destruct (_dispatch_trace _ _ _ _ _ Ed) as [Ht _]. rewrite u8_small in Ht by apply u8_range.
    assert (Hd : trace w' = trace w1 ++ deliveries (ctl w1) (arrivals mux l) ->
      trace w' = trace w ++ deliveries (ctl w) (arrivals mux (Arrival s1 b1 :: l))).
    { intros ->. rewrite Ht, <- app_assoc, (deliveries_same _ _ _ K). f_equal.
      unfold deliveries. simpl. fold p. by destruct (listens (ctl w) p). }
    destruct (is_packetReady r).
    + unfold deref in E. destruct (arr_set wake p true) as [wake1|] eqn:Ew; [|done]. simpl in E.
      destruct (IH wake1 w1 Hi Hr E) as (Hh & K' & [Hl' Hm'] & Ht'). rewrite Hm in *.
      split; [done|]. split; [by etransitivity|]. split; [|by apply Hd].
      split; [by rewrite Hl', (arr_set_length _ _ _ _ Ew)|]. intros i Hx.
      destruct (Hm' i Hx) as [H|[b H]]; [|right; exists b; simpl; by right].
      unfold arr_set in Ew. destruct ((0 <=? p) && (p <? Z.of_nat (length wake))) eqn:Eb; [|done].
      injection Ew as <-. pose proof (arr_get_bound _ _ _ H). rewrite length_insert in *.
      rewrite arr_get_insert in H by lia. destruct (Z.eqb_spec p i) as [<-|]; [|by left].
      right. exists (u8 b1). simpl. by left.
    + simpl in E. destruct (IH wake w1 Hi Hr E) as (Hh & K' & [Hl' Hm'] & Ht'). rewrite Hm in *.
      split; [done|]. split; [by etransitivity|]. split; [|by apply Hd].
      split; [done|]. intros i Hx. destruct (Hm' i Hx) as [H|[b H]]; [by left|].
      right. exists b. simpl. by right.
Qed.

Lemma signal_loop wake l w w' :
  for_each l (fun i => b ← deref (arr_get wake i); when b (packetActionInterrupt i)) w = Ok (w', tt) ->
  hw w' = hw w /\ ctl w' = ctl w /\
  trace w' = trace w ++ map EvSignal (filter (fun i => arr_get wake i = Some true) l).
Proof.
  revert w. induction l as [|i l IH]; intros w E; simpl in E.
  - injection E as <-. by rewrite app_nil_r.
  - apply bind_inv in E as (w1 & [] & E1 & E). apply bind_inv in E1 as (w2 & b & E2 & E1).
    apply IH in E as (-> & -> & ->).
    destruct (arr_get wake i) as [b'|] eqn:Ei; [|done]. injection E2 as <- <-.
    destruct b'; simpl in E1.
    + apply bind_inv in E1 as (w3 & d & E3 & E1). apply device_ok in E3 as [-> _].
      injection E1 as <-. rewrite filter_cons_True by done. simpl. by rewrite <- app_assoc.
    + injection E1 as <-. by rewrite filter_cons_False by congruence.
Qed.


End Interrupt.

(** ** Messages *)
Section Messages.
Context {C A : Type} (service_message : Z -> PS2Message -> MessageData -> M (World C A) MessageData).
Implicit Types (w : World C A).

(** Services that only look at the message. *)
Definition observers : Prop := forall s m d w, service_message s m d w = Ok (w, d).

Lemma messageServices_observers l m d w :
  observers -> messageServices service_message l m d w =
  Ok ({| w with trace := trace w ++ map (fun s => EvMessage s m d) l |}, d).
Proof.
  intros H. revert w. induction l as [|s l IH]; intros w; simpl.
  - rewrite app_nil_r. by destruct w.
  - unfold mbind, M_bind, bind. simpl. rewrite H. simpl. rewrite IH. simpl. by rewrite <- app_assoc.
Qed.

(** A message reaches every registered service once, in order of
    registration; a key press is afterwards announced to all of them a second
    time, as its time stamp, unless the key is a modifier.  (Two levels of the
    recursion are enough: a deeper one changes nothing.) *)
Theorem message_reaches_services depth m d w :
  observers -> (2 <= depth)%nat ->
  (m = kPS2M_notifyKeyPressed -> exists i, d = KeyInfoPtr i) ->
  dispatchMessageGated service_message depth m d w =
  Ok ({| w with trace := trace w ++
         map (fun s => EvMessage s m d) (_notificationServices (ctl w)) ++
         match m, d with
         | kPS2M_notifyKeyPressed, KeyInfoPtr i =>
           if isModifierKey (adbKeyCode i) then []
           else map (fun s => EvMessage s kPS2M_notifyKeyTime (TimePtr (ki_time i)))
                    (_notificationServices (ctl w))
         | _, _ => []
         end |}, d).
Proof.
  intros Ho Hd Hm. destruct depth as [|[|depth]]; [lia..|].
  set (D := S depth). simpl. unfold field, gets, mbind, M_bind, bind.
  rewrite messageServices_observers by done. simpl.
  destruct (decide (m = kPS2M_notifyKeyPressed)) as [->|Hne].
  - destruct (Hm eq_refl) as [i ->]. simpl.
    destruct (isModifierKey (adbKeyCode i)); [by rewrite app_nil_r|]. subst D. simpl.
    unfold field, gets, mbind, M_bind, bind. rewrite messageServices_observers by done. simpl.
    unfold ret. rewrite <- app_assoc. by destruct i.
  - rewrite bool_decide_eq_false_2 by done. unfold ret. do 2 f_equal.
    destruct m, d; try done; by rewrite ?app_nil_r.
Qed.

End Messages.

Section Registry.
Context {C A : Type}.
Implicit Types (w : World C A).

(** Publishing and terminating services keeps the registry a set: a service
    is in it exactly if its last event was a publication, and it is there once. *)
Theorem registry_is_a_set s w w1 w2 :
  NoDup (_notificationServices (ctl w)) ->
  notificationHandlerPublishGated s w = Ok (w1, tt) ->
  notificationHandlerTerminateGated s w = Ok (w2, tt) ->
  NoDup (_notificationServices (ctl w1)) /\ NoDup (_notificationServices (ctl w2)) /\
  forall x, (x ∈ _notificationServices (ctl w1) <-> x = s \/ x ∈ _notificationServices (ctl w)) /\
            (x ∈ _notificationServices (ctl w2) <-> x <> s /\ x ∈ _notificationServices (ctl w)).
Proof.
  intros Hn [= <-] [= <-]. simpl. split; [|split].
  - case_bool_decide as Hs; [done|]. apply NoDup_app. split; [done|]. split; [|apply NoDup_singleton].
    intros x Hx. by rewrite list_elem_of_singleton; intros ->.
  - by apply NoDup_filter.
  - intros x. split; [|by rewrite list_elem_of_filter].
    case_bool_decide; [split; [by right|by intros [->|]]|].
    rewrite elem_of_app, list_elem_of_singleton. tauto.
Qed.

End Registry.

(** ** Start and stop *)
Section StartStop.
Context {C A : Type}.
Implicit Types (w : World C A).

(** Computations that leave the notifiers alone. *)
Definition keeps_notifier {X} (m : M (World C A) X) : Prop :=
  forall w w' a, m w = Ok (w', a) -> _publishNotify (ctl w') = _publishNotify (ctl w).

Lemma keeps_notifier_keeps {X} (m : M (World C A) X) : keeps m -> keeps_notifier m.
Proof. intros Hk w w' a E. by rewrite (same_fields _ _ (ev_ctl _ _ (Hk _ _ _ E))). Qed.

Lemma keeps_notifier_bind {X Y} (m : M (World C A) X) (k : X -> M (World C A) Y) :
  keeps_notifier m -> (forall a, keeps_notifier (k a)) -> keeps_notifier (m ≫= k).
Proof.
  intros Hm Hk w w' b E. apply bind_inv in E as (w1 & a & E1 & E2).
  by rewrite (Hk _ _ _ _ E2), (Hm _ _ _ E1).
Qed.

Lemma keeps_notifier_when (b : bool) (m : M (World C A) unit) :
  keeps_notifier m -> keeps_notifier (when b m).
Proof. destruct b; [done|]. intros _ w w' a [= <- _]. done. Qed.

Lemma keeps_notifier_update f :
  (forall c, _publishNotify (f c) = _publishNotify c) -> keeps_notifier (update f).
Proof. intros Hf w w' a [= <- _]. apply Hf. Qed.

Ltac keeps_notifier :=
  repeat match goal with
  | |- keeps_notifier (_ ≫= _) => apply keeps_notifier_bind; [|intros ?]
  | |- keeps_notifier (update _) => by apply keeps_notifier_update
  | |- keeps_notifier _ => apply keeps_notifier_keeps; solve [keeps]
  | |- keeps_notifier (when _ _) => apply keeps_notifier_when
  | |- keeps_notifier (if ?b then _ else _) => destruct b
  end.

Lemma keeps_notifier_startHardware kbdonly rst : keeps_notifier (startHardware kbdonly rst).
Proof.
  assert (Hr : keeps_notifier resetController).
  { unfold resetController, flushDataPort. cbv zeta. keeps_notifier. }
  unfold startHardware, flushDataPort. cbv zeta. keeps_notifier. exact Hr.
Qed.

Lemma stop_crashes w : _publishNotify (ctl w) = false -> stop w = Crash.
Proof.
  intros Hp. unfold stop, field, gets, mbind, M_bind, bind.
  destruct (_ || _); [done|]. by rewrite Hp.
Qed.

(** A failed start does not fail, it crashes: when the queue lock or the work
    loop cannot be created, [start] calls [stop], which calls [remove()] on the
    notifiers that [start] creates only at its end; so no behaviour of the hardware
    lets [start] return. *)
Theorem failed_start_crashes kbdonly rst res w :
  _publishNotify (ctl w) = false -> res_queueLock res && res_workLoop res = false ->
  forall w' b, start kbdonly rst res w <> Ok (w', b).
Proof.
  intros Hp Hr w' b E. unfold start in E. apply bind_inv in E as (w1 & [] & E1 & E).
  apply keeps_notifier_startHardware in E1. rewrite Hp in E1.
  assert (Hs : forall w2, _publishNotify (ctl w2) = false ->
    (stop ;; ret false) w2 <> Ok (w', b)).
  { intros w2 H2. unfold mbind, M_bind, bind. by rewrite stop_crashes. }
  destruct (res_queueLock res); simpl in E, Hr; [|by apply Hs in E].
  rewrite Hr in E. apply bind_inv in E as (w2 & [] & [= <-] & E). by apply Hs in E.
Qed.

(** Stopping a started controller without clients completes every queued
    request, in order, as failed at command 0, without touching the hardware. *)
Theorem stop_fails_queued_requests w :
  _interruptInstalledKeyboard (ctl w) = false -> _interruptInstalledMouse (ctl w) = 0 ->
  _publishNotify (ctl w) = true -> _terminateNotify (ctl w) = true ->
  _requestQueueLock (ctl w) = Some false ->
  exists w', stop w = Ok (w', tt) /\ hw w' = hw w /\ _requestQueue (ctl w') = [] /\
    _requestQueueLock (ctl w') = None /\ _hardwareOffline (ctl w') = true /\
    trace w' = trace w ++
      flat_map (fun r => completion_events {| r with commandsCount := 0 |}) (_requestQueue (ctl w)).
Proof.
  intros Hk Hm Hp Ht Hl.
  assert (Hq : forall q (w0 : World C A), _hardwareOffline (ctl w0) = true ->
    for_each q (fun r => processRequest r ;; ret tt) w0 =
    Ok ({| w0 with trace := trace w0 ++
      flat_map (fun r => completion_events {| r with commandsCount := 0 |}) q |}, tt)).
  { induction q as [|r q IH]; intros w0 H0; simpl; [rewrite app_nil_r; by destruct w0|].
    unfold mbind, M_bind, bind. rewrite offline_processRequest by done. simpl.
    rewrite IH by done. simpl. by rewrite <- app_assoc. }
  unfold stop, field, gets, mbind, M_bind, bind. rewrite Hk, Hm. simpl.
  rewrite Hp, Ht. simpl. rewrite Hl. simpl.
  rewrite processRequestQueue_unfold by done. simpl. rewrite Hq by done. simpl.
  eexists. split; [reflexivity|]. by simpl.
Qed.

End StartStop.


Lemma message_reaches_services_witness :
  let c := {| bench_controller with _notificationServices := [4; 7] |} in
  let w := {| (bench []) with ctl := c |} in
  dispatchMessageGated (fun _ _ d w => Ok (w, d)) 2 kPS2M_notifyKeyPressed
    (KeyInfoPtr (mkKeyInfo 5 0x08 true false)) w =
  Ok ({| w with trace :=
    [EvMessage 4 kPS2M_notifyKeyPressed (KeyInfoPtr (mkKeyInfo 5 0x08 true false));
     EvMessage 7 kPS2M_notifyKeyPressed (KeyInfoPtr (mkKeyInfo 5 0x08 true false));
     EvMessage 4 kPS2M_notifyKeyTime (TimePtr 5);
     EvMessage 7 kPS2M_notifyKeyTime (TimePtr 5)] |}, KeyInfoPtr (mkKeyInfo 5 0x08 true false)).
Proof.
  intros c w.
  refine (message_reaches_services (fun _ _ d w => Ok (w, d)) 2 kPS2M_notifyKeyPressed
    (KeyInfoPtr (mkKeyInfo 5 0x08 true false)) w _ _ _).
  - intros s m d w0. reflexivity.
  - lia.
  - intros _. by eexists.
Defined.

Lemma registry_is_a_set_witness :
  exists w1 w2, notificationHandlerPublishGated 3 (bench []) = Ok (w1, tt) /\
    notificationHandlerTerminateGated 3 (bench []) = Ok (w2, tt) /\
    NoDup (_notificationServices (ctl w1)).
Proof.
  eexists _, _. split; [reflexivity|]. split; [reflexivity|].
  exact (proj1 (registry_is_a_set 3 (bench []) _ _ NoDup_nil_2 eq_refl eq_refl)).
Defined.

Lemma failed_start_crashes_witness :
  start None (Some 0) (mkResources false true (fun _ => true) true) (bench [0; 0; 0; 0; 0; 0; 0]) <>
  Ok (bench [], false).
Proof. apply failed_start_crashes; reflexivity. Defined.

Lemma stop_fails_queued_requests_witness :
  let w := {| (bench []) with ctl := {| bench_controller with _interruptInstalledKeyboard := false;
     _interruptInstalledMouse := 0; _publishNotify := true; _terminateNotify := true;
     _requestQueue := [mkRequest 0 0 NoTarget false 0 []] |} |} in
  exists w', stop w = Ok (w', tt) /\ trace w' = [EvFree (mkRequest 0 0 NoTarget false 0 [])].
Proof.
  intros w.
  destruct (stop_fails_queued_requests w eq_refl eq_refl eq_refl eq_refl eq_refl)
    as (w' & E & _ & _ & _ & _ & H).
  exists w'. split; [exact E|]. exact H.
Defined.
