(* ===== verification/Bus.v ===== *)
(** * What a device driver may ask of the controller

    The interface between the controller and the drivers: the operations of the
    nub and of [ApplePS2Controller] that the touchpad drivers call, and the laws
    the drivers' theorems rely on.  [BusController.v] shows that the controller of
    [Controller.v] satisfies them. *)
From S2P Require Import Prelude PS2Types.

Class PS2Bus (W : Type) := {
  (** [ApplePS2Controller::submitRequestAndBlock]; the request names its port. *)
  bus_submit : PS2Request -> M W PS2Request;
  bus_setCommandByte : Z -> Z -> M W Z;
  bus_lock : M W unit;
  bus_unlock : M W unit;
  (** [IOSleep] *)
  bus_sleep : Z -> M W unit;
  (** The number of [ApplePS2MouseDevice] children of the controller. *)
  bus_auxNubs : M W Z;
  (** The nub's [installInterruptAction], [uninstallInterruptAction], and the same
      for the power action. *)
  bus_installInterrupt : M W unit;
  bus_uninstallInterrupt : M W unit;
  bus_installPower : M W unit;
  bus_uninstallPower : M W unit;
  (** The bytes given to the nub's interrupt action while an operation ran, oldest
      first; the driver's code waits meanwhile, so they can be handed over at the
      operation's end. *)
  bus_received : W -> list Z * W;
  (** Whether the lock is held, whether the nub's interrupt action is installed, and
      a world the operations may run in. *)
  bus_locked : W -> bool;
  bus_installed : W -> bool;
  bus_ok : W -> Prop }.

(** What no operation but those on the lock and the interrupt action changes. *)
Record bus_same {W} `{PS2Bus W} (w w' : W) : Prop := {
  bs_ok : bus_ok w';
  bs_locked : bus_locked w' = bus_locked w;
  bs_installed : bus_installed w = true -> bus_installed w' = true }.

Definition bus_steady {W} `{PS2Bus W} {X} (m : M W X) : Prop := forall w,
  bus_ok w -> wp m (fun _ w' => bus_same w w') w.

(** The commands of a request keep their number and kinds; [commandsCount] never
    grows. *)
Record same_shape (r r' : PS2Request) : Prop := {
  shape_commands : map command (commands r') = map command (commands r);
  shape_count : 0 <= commandsCount r' <= commandsCount r }.

Class PS2BusLaws (W : Type) `{PS2Bus W} := {
  law_submit : forall r w, bus_ok w ->
    0 <= commandsCount r <= Z.of_nat (length (commands r)) -> commandsCount r < 256 ->
    0 <= port r < kPS2MuxMaxIdx ->
    wp (bus_submit r) (fun r' w' => bus_same w w' /\ same_shape r r') w;
  law_setCommandByte : forall s c, bus_steady (bus_setCommandByte s c);
  law_sleep : forall ms, bus_steady (bus_sleep ms);
  law_auxNubs : bus_steady bus_auxNubs;
  law_lock : forall w, bus_ok w -> bus_locked w = false ->
    wp bus_lock (fun _ w' => bus_ok w' /\ bus_locked w' = true /\
      (bus_installed w = true -> bus_installed w' = true)) w;
  law_unlock : forall w, bus_ok w -> bus_locked w = true ->
    wp bus_unlock (fun _ w' => bus_ok w' /\ bus_locked w' = false /\
      (bus_installed w = true -> bus_installed w' = true)) w;
  law_installInterrupt : forall w, bus_ok w ->
    wp bus_installInterrupt (fun _ w' => bus_ok w' /\ bus_locked w' = bus_locked w /\
      bus_installed w' = true) w;
  law_uninstallInterrupt : forall w, bus_ok w -> bus_installed w = true ->
    wp bus_uninstallInterrupt (fun _ w' => bus_ok w' /\ bus_locked w' = bus_locked w) w;
  law_installPower : bus_steady bus_installPower;
  law_uninstallPower : bus_steady bus_uninstallPower;
  law_received : forall w, bus_ok w -> bus_same w (bus_received w).2 }.

(** ** What the keyboard driver asks for besides

    Its nub's [submitRequest] (an allocated request, completed later), the messages
    it sends through [dispatchMessage] with what their data hold afterwards, the
    num-lock state its superclass IOHIKeyboard keeps, and the methods of its ACPI
    device. *)
Class KeyboardHost (W : Type) `{PS2Bus W} := {
  host_submitRequest : PS2Request -> M W unit;
  host_notifyKeyPressed : PS2KeyInfo -> M W PS2KeyInfo;
  host_getDisableTouchpad : bool -> M W bool;
  host_setDisableTouchpad : bool -> M W bool;
  host_resetTouchpad : Z -> M W Z;
  host_numLock : M W bool;
  host_setNumLock : bool -> M W unit;
  (** [evaluateInteger], [evaluateObject] with one number; [None], [false]: an error. *)
  host_evaluateInteger : string -> M W (option Z);
  host_evaluateObject : string -> Z -> M W bool }.

Class KeyboardHostLaws (W : Type) `{KeyboardHost W} := {
  host_bus :: PS2BusLaws W;
  law_submitRequest : forall r, 0 <= port r < kPS2MuxMaxIdx -> bus_steady (host_submitRequest r);
  law_notifyKeyPressed : forall i, bus_steady (host_notifyKeyPressed i);
  law_getDisableTouchpad : forall b, bus_steady (host_getDisableTouchpad b);
  law_setDisableTouchpad : forall b, bus_steady (host_setDisableTouchpad b);
  law_resetTouchpad : forall z, bus_steady (host_resetTouchpad z);
  law_numLock : bus_steady host_numLock;
  law_setNumLock : forall b, bus_steady (host_setNumLock b);
  law_evaluateInteger : forall s, bus_steady (host_evaluateInteger s);
  law_evaluateObject : forall s z, bus_steady (host_evaluateObject s z) }.
