(* ===== verification/Touch.v ===== *)
(** * VoodooInput's data, and contacts

    The events that the touchpad drivers send to VoodooInput, and what their theorems say of
    them: the first slots show different fingers. *)
From S2P Require Import Prelude.

(** * Events *)

(** The finger types the drivers name; [kMT2FingerTypeUndefined] is the type of a
    transducer that no driver has written yet, [kMT2FingerTypeOther] one that VoodooInput
    has beyond those named. *)
Inductive MT2FingerType :=
| kMT2FingerTypeUndefined
| kMT2FingerTypeThumb
| kMT2FingerTypeIndexFinger
| kMT2FingerTypeMiddleFinger
| kMT2FingerTypeRingFinger
| kMT2FingerTypeLittleFinger
| kMT2FingerTypeOther (i : Z).

#[global] Instance MT2FingerType_eq_dec : EqDecision MT2FingerType.
Proof. solve_decision. Defined.

Record TouchCoordinates := mkCoordinates { tc_x : Z; tc_y : Z; tc_pressure : Z; tc_width : Z }.

Record VoodooInputTransducer := mkTransducer {
  tr_current : TouchCoordinates;
  tr_previous : TouchCoordinates;
  tr_timestamp : Z;
  tr_isValid : bool;
  tr_isPhysicalButtonDown : bool;
  tr_isTransducerActive : bool;
  tr_supportsPressure : bool;
  tr_secondaryId : Z;
  tr_fingerType : MT2FingerType;
  tr_isFinger : bool }.

Record VoodooInputEvent := mkInputEvent {
  ev_transducers : list VoodooInputTransducer;
  ev_contact_count : Z;
  ev_timestamp : Z }.

(** Zero-initialised structures. *)
Definition noCoordinates : TouchCoordinates := mkCoordinates 0 0 0 0.
Definition noTransducer : VoodooInputTransducer :=
  mkTransducer noCoordinates noCoordinates 0 false false false false 0 kMT2FingerTypeUndefined false.

(** The slots from [count] on are marked unused. *)
Definition clearTransducer (t : VoodooInputTransducer) : VoodooInputTransducer :=
  {| t with tr_isValid := false; tr_isPhysicalButtonDown := false;
            tr_isTransducerActive := false; tr_supportsPressure := false |}.

(** The thumb assignment of [sendTouchData]: with four contacts or more the lowest
    contact (the largest [y]) exchanges its finger type with the thumb. The
    accumulator is [maxY], [newThumb], [oldThumb]; [l] are the contacts from index
    [i] on. *)
Fixpoint findThumbs (l : list VoodooInputTransducer) (i maxY newThumb oldThumb : Z) : Z * Z :=
  match l with
  | [] => (newThumb, oldThumb)
  | t :: l' =>
    let y := tc_y (tr_current t) in
    let '(maxY, newThumb) := if maxY <? y then (y, i) else (maxY, newThumb) in
    let oldThumb := if bool_decide (tr_fingerType t = kMT2FingerTypeThumb) then i else oldThumb in
    findThumbs l' (i + 1) maxY newThumb oldThumb
  end.

Definition assignThumb (count : Z) (ts : list VoodooInputTransducer)
  : option (list VoodooInputTransducer) :=
  let '(newThumb, oldThumb) := findThumbs (take (Z.to_nat count) ts) 0 0 0 0 in
  new ← arr_get ts newThumb;
  old ← arr_get ts oldThumb;
  ts ← arr_set ts oldThumb {| old with tr_fingerType := tr_fingerType new |};
  new ← arr_get ts newThumb;
  arr_set ts newThumb {| new with tr_fingerType := kMT2FingerTypeThumb |}.

(** * Contacts *)

(** What is the same in all contacts of an event, and the finger. *)
Definition slotOf (t : VoodooInputTransducer) : Z * Z * bool := (tr_secondaryId t, tr_timestamp t, tr_isValid t).

(** The first slots show the fingers [ids]. *)
Definition shows (timestamp : Z) (ids : list Z) (l : list VoodooInputTransducer) : Prop :=
  map slotOf (take (length ids) l) = map (fun i => (i, timestamp, true)) ids.

Lemma shows_add timestamp ids l i t : shows timestamp ids l -> slotOf t = (i, timestamp, true) -> (length ids < length l)%nat ->
  shows timestamp (ids ++ [i]) (<[length ids := t]> l).
Proof.
  intros Hs Ht Hl. unfold shows in *. rewrite length_app. cbn [length]. rewrite Nat.add_1_r.
  rewrite (take_S_r _ _ t) by (by apply list_lookup_insert_eq). rewrite !map_app, take_insert_ge by lia. rewrite Hs. cbn. by rewrite Ht.
Qed.

(** An event shows different fingers, of [max] fingers there are. *)
Definition contacts_ok (max : Z) (e : VoodooInputEvent) : Prop :=
  exists ids, ev_contact_count e = Z.of_nat (length ids) /\ NoDup ids /\ Forall (fun i => 0 <= i < max) ids /\
    shows (ev_timestamp e) ids (ev_transducers e).

(** ** The thumb *)

Lemma findThumbs_bounds l i m nw od k :
  0 <= i -> i + Z.of_nat (length l) <= k -> 0 <= nw < k -> 0 <= od < k ->
  0 <= (findThumbs l i m nw od).1 < k /\ 0 <= (findThumbs l i m nw od).2 < k.
Proof.
  revert i m nw od. induction l as [|t l IH]; intros i m nw od Hi Hk Hn Ho; simpl in *; [done|].
  destruct (m <? tc_y (tr_current t)); apply IH; try lia; case_bool_decide; lia.
Qed.

Lemma assignThumb_ok count ts : 0 < count <= Z.of_nat (length ts) ->
  exists ts', assignThumb count ts = Some ts' /\ length ts' = length ts.
Proof.
  intros Hc. unfold assignThumb.
  assert (Hl : Z.of_nat (length (take (Z.to_nat count) ts)) <= Z.of_nat (length ts)) by (rewrite length_take; lia).
  pose proof (findThumbs_bounds (take (Z.to_nat count) ts) 0 0 0 0 (Z.of_nat (length ts)) ltac:(lia) ltac:(lia) ltac:(lia) ltac:(lia)) as [Hn Ho].
  destruct (findThumbs _ _ _ _ _) as [nw od]. cbn [fst snd] in *.
  destruct (arr_get_Some ts nw Hn) as (a & -> & _). destruct (arr_get_Some ts od Ho) as (b & -> & _). simpl.
  rewrite arr_set_Some by done. simpl.
  match goal with |- context [arr_get ?l nw] => destruct (arr_get_Some l nw) as (c & -> & _) end; [by rewrite length_insert|]. simpl.
  rewrite arr_set_Some by (by rewrite length_insert). eexists. split; [done|]. by rewrite !length_insert.
Qed.

Lemma map_replace {A C} (g : A -> C) l i x y : arr_get l i = Some x -> g y = g x -> map g (<[Z.to_nat i := y]> l) = map g l.
Proof.
  intros Hx E. assert (Hl : l !! Z.to_nat i = Some x) by (unfold arr_get in Hx; by destruct (i <? 0)).
  change (map g) with (fmap (M := list) g). rewrite list_fmap_insert, E. apply list_insert_id. by rewrite list_lookup_fmap, Hl.
Qed.

(** The thumb's finger type is all that changes. *)
Lemma assignThumb_keeps {C} (g : VoodooInputTransducer -> C) : (forall t ty, g {| t with tr_fingerType := ty |} = g t) ->
  forall count ts ts', assignThumb count ts = Some ts' -> map g ts' = map g ts.
Proof.
  intros Hg count ts ts'. unfold assignThumb. destruct (findThumbs _ _ _ _ _) as [nw od].
  destruct (arr_get ts nw) as [a|] eqn:Ea; [|done]. destruct (arr_get ts od) as [o|] eqn:Eo; [|done]. simpl.
  rewrite arr_set_Some by (by eapply arr_get_bound). simpl.
  match goal with |- context [arr_get ?l nw] => destruct (arr_get l nw) as [c|] eqn:Ec end; [|done]. simpl.
  rewrite arr_set_Some by (by eapply arr_get_bound). intros [= <-].
  rewrite (map_replace g _ _ c) by (done || apply Hg). rewrite (map_replace g _ _ o); [done|done|apply Hg].
Qed.
