(* ===== verification/BusController.v ===== *)
(** * The controller is a bus

    The instance of [Bus.v]'s interface for the controller of [Controller.v], seen
    from the driver on port [p], and the laws it keeps.  The driver's interrupt
    action is represented by one that records the bytes it is given. *)
From S2P Require Import Prelude PS2Types Controller ControllerLemmas Bus TestBench.

(** ** The shape of a processed request *)
Section Shape.
Context {C A : Type}.
#[local] Abbreviation W := (World C A).

Lemma processCommand_kind p c w w' c' b :
  processCommand (C := C) (A := A) p c w = Ok (w', (c', b)) -> command c' = command c.
Proof.
  unfold processCommand. intros E. destruct (command c) eqn:Ec;
    repeat (apply bind_inv in E as (? & ? & _ & E)); injection E as <- <- <-; simpl; done.
Qed.

Lemma processCommands_shape n p i l w w' l' o :
  0 <= i -> processCommands (C := C) (A := A) n p i l w = Ok (w', (l', o)) ->
  map command l' = map command l /\ (forall k, o = Some k -> i <= k < i + Z.of_nat n).
Proof.
  revert i l w. induction n as [|n IH]; intros i l w Hi E; simpl in E.
  { injection E as <- <- <-. done. }
  apply bind_inv in E as (w1 & c & Eg & E). apply bind_inv in E as (w2 & [c' failed] & Ec & E).
  apply bind_inv in E as (w3 & l1 & Es & E).
  destruct (arr_get l i) as [c0|] eqn:Hg; [|done]. injection Eg as <- <-.
  pose proof (arr_get_bound _ _ _ Hg) as Hb. rewrite arr_set_Some in Es by done. injection Es as <- <-.
  assert (Hm : map command (<[Z.to_nat i:=c']> l) = map command l).
  { apply processCommand_kind in Ec. change (map command) with (fmap (M := list) command).
    rewrite list_fmap_insert. apply list_insert_id. rewrite list_lookup_fmap. unfold arr_get in Hg.
    destruct (i <? 0); [done|]. rewrite Hg. simpl. by rewrite Ec. }
  destruct failed.
  - injection E as <- <- <-. split; [done|]. intros k [= <-]. lia.
  - apply IH in E as [E1 E2]; [|lia]. split; [congruence|]. intros k Hk. specialize (E2 k Hk). lia.
Qed.

Lemma processRequest_shape r w w' r' :
  0 <= commandsCount r < 256 -> processRequest (C := C) (A := A) r w = Ok (w', r') -> same_shape r r'.
Proof.
  intros Hr E. unfold processRequest in E. apply bind_inv in E as (w1 & off & _ & E).
  apply bind_inv in E as (w2 & r1 & E & E2). apply bind_inv in E2 as (w3 & [] & _ & [= <- <-]).
  destruct off; [injection E as <- <-; split; simpl; [done|lia]|].
  apply bind_inv in E as (w4 & [l o] & E & [= <- <-]).
  apply bind_inv in E as (w5 & [] & _ & E). apply bind_inv in E as (w6 & [l1 o1] & E & E1).
  apply bind_inv in E1 as (w7 & [] & _ & [= <- <- <-]).
  apply processCommands_shape in E as [Hm Hk]; [|done]. split; simpl; [done|].
  destruct o1 as [k|]; [|lia]. specialize (Hk k eq_refl). rewrite u8_small; lia.
Qed.

Lemma submitRequestAndBlock_shape r w w' r' :
  0 <= commandsCount r < 256 -> submitRequestAndBlock (C := C) (A := A) r w = Ok (w', r') -> same_shape r r'.
Proof.
  intros Hr E. unfold submitRequestAndBlock in E. destruct (negb _); [done|].
  apply bind_inv in E as (w1 & [] & _ & E). by eapply processRequest_shape.
Qed.

End Shape.

(** ** The world of a driver *)
Section Instance_.
Context {A : Type} (p : Z) (a : A).
#[local] Abbreviation W := (World (list Z) A).
#[local] Abbreviation Ctl := (ApplePS2Controller (list Z) A).
Implicit Types (w : W) (c : Ctl) (d : ApplePS2Device (list Z) A).

(** The nub of the driver: an auxiliary port, whose action can only be the driver's. *)
Record nub_ok d : Prop := {
  nub_port : kPS2KbdIdx < _port d;
  nub_action : forall f, _interrupt_action d = Some f -> f = record_action }.

Definition has_nub c : Prop := exists d, arr_get (_devices c) p = Some (Some d) /\ nub_ok d.

(** The controller once [start] has created its nubs. *)
Record started c : Prop := {
  sr_queue : queue_unlocked c;
  sr_lock : is_Some (_cmdbyteLock c);
  sr_mouse : 0 <= _interruptInstalledMouse c;
  sr_aux : nonnull c kPS2AuxIdx;
  sr_mux : _muxPresent c = true -> forall q, kPS2AuxIdx <= q < kPS2MuxMaxIdx -> nonnull c q;
  sr_nub : has_nub c }.

Record world_ok w : Prop := {
  wo_ctl : ctl_ok bench_ok (ctl w);
  wo_started : started (ctl w) }.

Definition held w : bool := bool_decide (_cmdbyteLock (ctl w) = Some true).
Definition listening w : bool := 0 <? _interruptInstalledMouse (ctl w).

(** [countAuxNubs] counts the controller's mouse nubs. *)
Definition auxNubs w : Z :=
  Z.of_nat (length (filter (fun o => is_Some (o : option (ApplePS2Device _ A)))
    (drop (Z.to_nat kPS2AuxIdx) (_devices (ctl w))))).

(** The bytes the recording action holds, and the nub without them. *)
Definition received w : list Z * W :=
  match arr_get (_devices (ctl w)) p with
  | Some (Some d) =>
    match _client d with
    | Some l => (l, {| w with ctl := {| (ctl w) with
        _devices := <[Z.to_nat p := Some {| d with _client := Some [] |}]> (_devices (ctl w)) |} |})
    | None => ([], w)
    end
  | _ => ([], w)
  end.

#[local] Instance controller_bus : PS2Bus W := {|
  bus_submit := submitRequestAndBlock;
  bus_setCommandByte := setCommandByte;
  bus_lock := lock;
  bus_unlock := unlock;
  bus_sleep ms := emit (EvSleep ms);
  bus_auxNubs := gets auxNubs;
  bus_installInterrupt := deviceInstallInterruptAction p [] record_action None;
  bus_uninstallInterrupt := deviceUninstallInterruptAction p;
  bus_installPower := installPowerControlAction p a;
  bus_uninstallPower := uninstallPowerControlAction p;
  bus_received := received;
  bus_locked := held;
  bus_installed := listening;
  bus_ok := world_ok |}.

(** *** What requests and the command byte leave alone *)

Lemma same_nub c c' : same_ctl c c' -> has_nub c -> has_nub c'.
Proof.
  intros [_ D] (d & Hd & Hn). unfold has_nub, arr_get in *. destruct (p <? 0); [done|].
  destruct (Forall2_lookup_l _ _ _ _ _ D Hd) as ([d'|] & Hd' & H); [|done]. destruct H as [E _].
  exists d'. split; [done|]. destruct Hn as [H1 H2]. rewrite E. by split.
Qed.

Lemma same_started c c' : same_ctl c c' -> started c -> started c'.
Proof.
  intros S [H1 H2 H3 H4 H5 H6]. pose proof (same_ctl_static _ _ S) as St. split.
  - unfold queue_unlocked in *. rewrite (st_lock _ _ St). done.
  - by rewrite (same_fields _ _ S).
  - by rewrite (same_fields _ _ S).
  - by apply (st_nonnull _ _ St).
  - rewrite (st_mux _ _ St). intros Hm q Hq. apply (st_nonnull _ _ St). auto.
  - by eapply same_nub.
Qed.

Lemma same_world w w' :
  same_ctl (ctl w) (ctl w') -> world_ok w -> ctl_ok bench_ok (ctl w') ->
  bus_same (W := W) w w'.
Proof.
  intros S [H1 H2] H3. pose proof (same_fields _ _ S) as E. split.
  - split; [done|]. by eapply same_started.
  - simpl. unfold held. by rewrite E.
  - simpl. unfold listening. by rewrite E.
Qed.

Lemma call_keeps {X} (m : M W X) (Q : X -> W -> Prop) w :
  safe bench_ok queue_unlocked m -> keeps m -> world_ok w ->
  (forall x w', m w = Ok (w', x) -> bus_same (W := W) w w' -> Q x w') -> wp m Q w.
Proof.
  intros Hs Hk Hw HQ. eapply wp_mono.
  - apply (wp_safe bench_ok queue_unlocked m w Hs Hk); apply Hw.
  - cbn beta. intros x w' (H1 & H2 & H3). apply HQ; [done|]. by apply same_world.
Qed.

Lemma steady_keeps {X} (m : M W X) :
  safe bench_ok queue_unlocked m -> keeps m -> bus_steady m.
Proof. intros Hs Hk w Hw. by apply call_keeps. Qed.

(** *** Storing the nub *)

(** What a world keeps when only the nub's slot changes. *)
Definition stored w (d : ApplePS2Device (list Z) A) : W :=
  {| w with ctl := {| (ctl w) with _devices := <[Z.to_nat p := Some d]> (_devices (ctl w)) |} |}.

Lemma setDevice_stored w d d0 :
  arr_get (_devices (ctl w)) p = Some (Some d0) -> setDevice p d w = Ok (stored w d, tt).
Proof.
  intros Hg. apply arr_get_bound in Hg as Hb. unfold setDevice.
  rewrite (bind_ok _ _ w w (_devices (ctl w))) by done. rewrite arr_set_Some by done. done.
Qed.

Lemma stored_lookup w d d0 q :
  arr_get (_devices (ctl w)) p = Some (Some d0) -> 0 <= q ->
  arr_get (_devices (ctl (stored w d))) q = if p =? q then Some (Some d) else arr_get (_devices (ctl w)) q.
Proof. intros Hg Hq. apply arr_get_bound in Hg. simpl. by apply arr_get_insert. Qed.

Lemma stored_nonnull w d d0 q :
  arr_get (_devices (ctl w)) p = Some (Some d0) -> nonnull (ctl w) q -> nonnull (ctl (stored w d)) q.
Proof.
  intros Hg [dq Hq]. pose proof (arr_get_bound _ _ _ Hq). unfold nonnull.
  rewrite (stored_lookup _ _ _ _ Hg) by lia. destruct (p =? q); eauto.
Qed.

Lemma stored_same w d d0 :
  world_ok w -> arr_get (_devices (ctl w)) p = Some (Some d0) -> nub_ok d -> client_ok bench_ok d ->
  bus_same (W := W) w (stored w d).
Proof.
  intros [Hc [H1 H2 H3 H4 H5 H6]] Hg Hn Hcl. pose proof (stored_nonnull w d d0) as Hnn.
  split; [split|done|done].
  - pose proof (setDevice_safe bench_ok w p d d0 Hc Hg Hcl) as Hs.
    unfold wp in Hs. by rewrite (setDevice_stored w d d0 Hg) in Hs.
  - split; [done|done|done|by apply Hnn|intros Hm q Hq; apply Hnn; auto|].
    exists d. split; [|done]. rewrite (stored_lookup w d d0 p Hg); [by rewrite Z.eqb_refl|].
    apply arr_get_bound in Hg. lia.
Qed.

(** Looking the nub up, changing it and storing it. *)
Lemma nub_found w :
  world_ok w -> exists d, device p w = Ok (w, d) /\ arr_get (_devices (ctl w)) p = Some (Some d) /\
    nub_ok d /\ client_ok bench_ok d.
Proof.
  intros [Hc [_ _ _ _ _ (d & Hd & Hn)]]. exists d. split; [|split; [done|split; [done|by eapply Hc]]].
  unfold device. rewrite (bind_ok _ _ w w (_devices (ctl w))) by done. by rewrite Hd.
Qed.

(** Any client data suit the recording action. *)
Lemma nub_client d o : nub_ok d -> client_ok bench_ok (A := A) {| d with _client := o |}.
Proof.
  intros [_ Hf] cl f _ E. apply Hf in E as ->. split; [done|]. intros. by apply wp_ret.
Qed.

Lemma steady_setNub (f : ApplePS2Device (list Z) A -> ApplePS2Device (list Z) A) :
  (forall d, nub_ok d -> nub_ok (f d)) ->
  (forall d, nub_ok d -> client_ok bench_ok d -> client_ok bench_ok (f d)) ->
  bus_steady (W := W) (d ← device p; setDevice p (f d)).
Proof.
  intros Hf Hc w Hw. destruct (nub_found w Hw) as (d & E & Hg & Hn & Hcl).
  apply wp_bind. unfold wp at 1. rewrite E. unfold wp. rewrite (setDevice_stored w _ d Hg).
  apply (stored_same w _ d); auto.
Qed.

Lemma steady_installPower : bus_steady (W := W) bus_installPower.
Proof.
  apply steady_setNub; [intros d []; by split|]. intros d Hn Hc. exact Hc.
Qed.

Lemma steady_uninstallPower : bus_steady (W := W) bus_uninstallPower.
Proof.
  apply steady_setNub; [intros d []; by split|]. intros d Hn Hc. exact Hc.
Qed.

(** *** The interrupt action *)

Lemma bus_same_trans w1 w2 w3 : bus_same (W := W) w1 w2 -> bus_same w2 w3 -> bus_same w1 w3.
Proof. intros [] []. split; [done|congruence|auto]. Qed.

Lemma bus_steady_bind {X Y} (m : M W X) (k : X -> M W Y) :
  bus_steady m -> (forall x, bus_steady (k x)) -> bus_steady (m ≫= k).
Proof.
  intros Hm Hk w Hw. apply wp_bind. eapply wp_mono; [by apply Hm|]. cbn beta. intros x w1 H1.
  eapply wp_mono; [apply Hk, H1|]. cbn beta. intros y w2 H2. by eapply bus_same_trans.
Qed.

Lemma count_world w k :
  world_ok w -> 0 <= k ->
  world_ok {| w with ctl := {| (ctl w) with _interruptInstalledMouse := k |} |}.
Proof.
  intros [[] []] Hk. split; split; simpl; try done.
Qed.

(** Everything [installInterruptAction] does before it counts the client. *)
Lemma steady_openMouse : bus_steady (W := W)
  (mouse ← field _interruptInstalledMouse;
   when (negb (nz mouse)) (
      mux ← field _muxPresent;
      when mux enableMuxPorts ;;
      setCommandByte kCB_EnableMouseIRQ 0 ;;
      emit (EvRegisterInterrupt kIRQ_Mouse) ;;
      emit (EvEnableInterrupt kIRQ_Mouse))).
Proof. apply steady_keeps; [safe; eauto using safe_setCommandByte, safe_enableMuxPorts, framed_queue_unlocked|keeps]. Qed.

(** Counting a client on or off. *)
Lemma counted w k :
  world_ok w -> 0 <= k ->
  let w' := {| w with ctl := {| (ctl w) with _interruptInstalledMouse := k |} |} in
  world_ok w' /\ held w' = held w /\ listening w' = (0 <? k).
Proof. intros Hw Hk. split; [by apply count_world|done]. Qed.

Lemma wp_install q w :
  world_ok w -> kPS2KbdIdx < q ->
  wp (installInterruptAction q) (fun _ w' =>
    world_ok w' /\ held w' = held w /\ listening w' = true) w.
Proof.
  intros Hw Hq. unfold installInterruptAction. apply wp_bind, wp_gets.
  rewrite (proj2 (Z.eqb_neq q kPS2KbdIdx)), (proj2 (Z.ltb_lt _ _)) by lia. cbn [andb when].
  apply wp_bind, wp_gets. apply wp_bind. pose proof (steady_openMouse w Hw) as Ho.
  unfold wp in Ho |- * at 1. rewrite (bind_ok _ _ w w (_interruptInstalledMouse (ctl w))) in Ho by done.
  destruct (when _ _ w) as [[w1 []]| |]; [|done..]. destruct Ho as [H1 H2 H3]. simpl in *.
  pose proof (sr_mouse _ (wo_started _ H1)) as Hk. apply wp_modify.
  destruct (counted w1 (_interruptInstalledMouse (ctl w1) + 1) H1 ltac:(lia)) as (E1 & E2 & E3).
  split; [exact E1|]. split; [congruence|]. rewrite E3. apply Z.ltb_lt. lia.
Qed.

Lemma wp_uninstall q w :
  world_ok w -> kPS2KbdIdx < q -> listening w = true ->
  wp (uninstallInterruptAction q) (fun _ w' => world_ok w' /\ held w' = held w) w.
Proof.
  intros Hw Hq Hl. unfold uninstallInterruptAction. apply wp_bind, wp_gets.
  rewrite (proj2 (Z.eqb_neq q kPS2KbdIdx)), (proj2 (Z.ltb_lt _ _)) by lia. cbn [andb when].
  apply wp_bind, wp_gets. unfold listening in Hl. rewrite Hl. cbn [negb].
  apply Z.ltb_lt in Hl. apply wp_bind, wp_modify.
  destruct (counted w (_interruptInstalledMouse (ctl w) - 1) Hw ltac:(lia)) as (E1 & E2 & _).
  apply wp_when; [|done]. intros _.
  assert (Hs : bus_steady (W := W) (setCommandByte 0 kCB_EnableMouseIRQ ;;
      emit (EvDisableInterrupt kIRQ_Mouse) ;; emit (EvUnregisterInterrupt kIRQ_Mouse))).
  { apply steady_keeps; [safe; eauto using safe_setCommandByte, framed_queue_unlocked|keeps]. }
  eapply wp_mono; [by apply Hs|]. cbn beta. intros _ w' [? ? _]. simpl in *. split; [done|congruence].
Qed.

Lemma law_install w :
  world_ok w -> wp bus_installInterrupt (fun _ w' =>
    world_ok w' /\ held w' = held w /\ listening w' = true) w.
Proof.
  intros Hw. simpl. unfold deviceInstallInterruptAction.
  destruct (nub_found w Hw) as (d & E & Hg & Hn & Hcl).
  apply wp_bind. unfold wp at 1. rewrite E.
  apply wp_bind. unfold wp at 1. rewrite (setDevice_stored w _ d Hg).
  destruct (stored_same w {| d with _client := Some [] |} d Hw Hg) as [H1 H2 _];
    [by destruct Hn|by apply nub_client|].
  apply wp_bind. eapply wp_mono; [apply wp_install; [exact H1|apply Hn]|]. cbn beta.
  intros _ w2 (Hw2 & Hh & Hi). destruct (nub_found w2 Hw2) as (d2 & E2 & Hg2 & Hn2 & _).
  apply wp_bind. unfold wp at 1. rewrite E2. unfold wp. rewrite (setDevice_stored w2 _ d2 Hg2).
  destruct (stored_same w2 {| d2 with _interrupt_action := Some record_action; _packet_action := None |}
    d2 Hw2 Hg2) as [H3 H4 H5].
  - split; simpl; [apply Hn2|]. by intros f [= <-].
  - intros cl f _ [= <-]. split; [done|]. intros. by apply wp_ret.
  - simpl in *. split; [done|]. split; [congruence|auto].
Qed.

Lemma law_uninstall w :
  world_ok w -> listening w = true ->
  wp bus_uninstallInterrupt (fun _ w' => world_ok w' /\ held w' = held w) w.
Proof.
  intros Hw Hl. simpl. unfold deviceUninstallInterruptAction.
  destruct (nub_found w Hw) as (d & E & Hg & Hn & Hcl).
  apply wp_bind. unfold wp at 1. rewrite E.
  apply wp_bind. eapply wp_mono; [apply wp_uninstall; [exact Hw|apply Hn|done]|]. cbn beta.
  intros _ w2 (Hw2 & Hh). destruct (nub_found w2 Hw2) as (d2 & E2 & Hg2 & Hn2 & _).
  apply wp_bind. unfold wp at 1. rewrite E2. unfold wp. rewrite (setDevice_stored w2 _ d2 Hg2).
  destruct (stored_same w2 {| d2 with _interrupt_action := None; _packet_action := None; _client := None |}
    d2 Hw2 Hg2) as [H3 H4 H5].
  - by destruct Hn2.
  - by intros cl f.
  - simpl in *. split; [done|congruence].
Qed.

(** *** The lock *)

Lemma lock_world b w :
  world_ok w -> world_ok {| w with ctl := {| (ctl w) with _cmdbyteLock := Some b |} |}.
Proof. intros [[] []]. split; split; simpl; done. Qed.

Lemma law_lock_ w :
  world_ok w -> held w = false ->
  wp lock (fun _ w' => world_ok w' /\ held w' = true /\ (listening w = true -> listening w' = true)) w.
Proof.
  intros Hw Hh. unfold lock. apply wp_bind, wp_gets, wp_bind, wp_deref.
  destruct (sr_lock _ (wo_started _ Hw)) as [b E]. exists b. split; [done|].
  unfold held in Hh. rewrite E in Hh. destruct b; [by rewrite bool_decide_eq_true_2 in Hh|].
  apply wp_modify. split; [by apply lock_world|]. split; [done|auto].
Qed.

Lemma law_unlock_ w :
  world_ok w -> held w = true ->
  wp unlock (fun _ w' => world_ok w' /\ held w' = false /\ (listening w = true -> listening w' = true)) w.
Proof.
  intros Hw Hh. unfold unlock. apply wp_bind, wp_gets, wp_bind, wp_deref.
  unfold held in Hh. apply bool_decide_eq_true in Hh. exists true. split; [done|].
  apply wp_modify. split; [by apply lock_world|]. split; [done|auto].
Qed.

(** *** Handing the bytes over *)
Lemma law_received_ w : world_ok w -> bus_same (W := W) w (received w).2.
Proof.
  intros Hw. unfold received. destruct (nub_found w Hw) as (d & _ & Hg & Hn & _). rewrite Hg.
  destruct (_client d) as [l|]; [|by split].
  apply (stored_same w {| d with _client := Some [] |} d Hw Hg); [by destruct Hn|by apply nub_client].
Qed.

#[local] Instance controller_bus_laws : PS2BusLaws W.
Proof.
  split.
  - intros r w Hw Hr H256 Hp. apply call_keeps; [|apply keeps_submitRequestAndBlock|done|].
    + apply safe_submitRequestAndBlock; [done|lia].
    + intros x w' E Hs. split; [done|]. eapply submitRequestAndBlock_shape; [|exact E]. lia.
  - intros s c. apply steady_keeps; [apply safe_setCommandByte, _|apply keeps_setCommandByte].
  - intros ms. apply steady_keeps; [apply safe_emit|apply keeps_emit].
  - apply steady_keeps; [apply safe_gets|apply keeps_gets].
  - apply law_lock_.
  - apply law_unlock_.
  - apply law_install.
  - apply law_uninstall.
  - apply steady_installPower.
  - apply steady_uninstallPower.
  - apply law_received_.
Qed.

End Instance_.

