(* ===== verification/FocalTech.v ===== *)
(** * The FocalTech touchpad driver: ApplePS2FocalTech

    FocalTech/VoodooPS2FocalTech.h and Source/VoodooPS2FocalTech.part00.inc to
    part05.inc, operation by operation.  The driver talks to its nub through the
    interface of [Bus.v]; its own world holds the driver object, the bus and a
    trace of what it tells VoodooInput and the I/O registry. *)
From S2P Require Import Prelude PS2Types RingBuffer Bus Touch.

Definition FOC_PACKET_LENGTH : Z := 6.
Definition FOC_MAX_FINGERS : Z := 5.
Definition FOC_TOUCH : Z := 0x3.
Definition FOC_ABS : Z := 0x6.
Definition FOC_REL : Z := 0x9.
Definition FOC_PS2_CUSTOM_COMMAND : Z := 0xF8.
Definition FOC_UNITS_PER_MM : Z := 40.
Definition kForceHoldMS : Z := 2000.
Definition kForceMoveCancel : Z := 100.
Definition kWakeDelayMS : Z := 1000.

(** The size of the driver's ring buffer. *)
Definition FOC_RING : Z := FOC_PACKET_LENGTH * 32.

Record FocalTechFingerState := mkFoc {
  active : bool;
  valid : bool;
  fx : Z;
  fy : Z }.

Record FocalTechHardwareState := mkFocHardware {
  fingers : list FocalTechFingerState;
  width : Z;
  pressed : bool }.

Record FocalTechVirtualFinger := mkVirtual {
  previous : TouchCoordinates;
  current : TouchCoordinates;
  touching : bool }.

Definition noFinger : FocalTechFingerState := mkFoc false false 0 0.
Definition noVirtual : FocalTechVirtualFinger := mkVirtual noCoordinates noCoordinates false.

(** [_device] is the port of the nub, [_voodooInput] the client, if any;
    [_forceTimer] is the timer, if created, with its pending timeout. *)
Record ApplePS2FocalTech := mkFocalTech {
  _device : option Z;
  _voodooInput : option Z;
  _forceTimer : option (option Z);
  _interruptInstalled : bool;
  _powerInstalled : bool;
  _inputPublished : bool;
  _legacyCompatibilityPath : bool;
  _providerPort : Z;
  _auxNubCount : Z;
  _irqByteCount : Z;
  _packetCount : Z;
  _validPacketCount : Z;
  _invalidPacketCount : Z;
  _packetByteCount : Z;
  _ringBuffer : RingBuffer Z;
  _xMax : Z;
  _yMax : Z;
  _hardware : FocalTechHardwareState;
  _finger : list FocalTechVirtualFinger;
  _inputEvent : VoodooInputEvent;
  _leftButton : Z;
  _rightButton : Z;
  _lastButtons : Z;
  _clickWasPressed : bool;
  _clickRight : bool;
  _forceEligible : bool;
  _forceActive : bool;
  _forceFinger : Z;
  _forceStartX : Z;
  _forceStartY : Z }.

Definition noHardware : FocalTechHardwareState :=
  mkFocHardware (replicate (Z.to_nat FOC_MAX_FINGERS) noFinger) 0 false.
Definition noFingers : list FocalTechVirtualFinger :=
  replicate (Z.to_nat FOC_MAX_FINGERS) noVirtual.

(** The object as its constructor leaves it; [n] is VoodooInput's
    [VOODOO_INPUT_MAX_TRANSDUCERS]. *)
Definition newFocalTech (n : Z) : ApplePS2FocalTech := {|
  _device := None; _voodooInput := None; _forceTimer := None;
  _interruptInstalled := false; _powerInstalled := false; _inputPublished := false;
  _legacyCompatibilityPath := false; _providerPort := 0; _auxNubCount := 0;
  _irqByteCount := 0; _packetCount := 0; _validPacketCount := 0; _invalidPacketCount := 0;
  _packetByteCount := 0;
  _ringBuffer := mkRing (replicate (Z.to_nat FOC_RING) 0) 0 0;
  _xMax := 0; _yMax := 0;
  _hardware := noHardware; _finger := noFingers;
  _inputEvent := mkInputEvent (replicate (Z.to_nat n) noTransducer) 0 0;
  _leftButton := 0; _rightButton := 0; _lastButtons := 0;
  _clickWasPressed := false; _clickRight := false;
  _forceEligible := false; _forceActive := false; _forceFinger := -1;
  _forceStartX := 0; _forceStartY := 0 |}.

(** What the driver does outside itself and the bus. *)
Inductive DriverEvent :=
| EvTouch (client : Z) (e : VoodooInputEvent)
| EvButtons (client : Z) (timestamp buttons : Z)
| EvDiagnostics (port nubs irqBytes packets valid invalid : Z) (fallback : bool)
    (packet : option (list Z * bool))
| EvPublish (xMax yMax physicalX physicalY : Z)
| EvRegister.

(** ** Packet decoding *)

Definition setFinger (i : Z) (f : FocalTechFingerState -> FocalTechFingerState)
    (h : FocalTechHardwareState) : option FocalTechHardwareState :=
  s ← arr_get (fingers h) i;
  l ← arr_set (fingers h) i (f s);
  Some {| h with fingers := l |}.

(** The loop of [processTouchPacket]. *)
Definition touchFinger (mask i : Z) (s : FocalTechFingerState) : FocalTechFingerState :=
  let a := nz (Z.land mask (Z.shiftl 1 i)) in
  {| s with active := a; valid := if a then valid s else false |}.

Fixpoint touchFingers (mask : Z) (l : list Z) (h : FocalTechHardwareState)
  : option FocalTechHardwareState :=
  match l with
  | [] => Some h
  | i :: l' => h' ← setFinger i (touchFinger mask i) h; touchFingers mask l' h'
  end.

Definition processTouchPacket (packet : list Z) (h : FocalTechHardwareState)
  : option FocalTechHardwareState :=
  p0 ← arr_get packet 0;
  p1 ← arr_get packet 1;
  let h := {| h with pressed := nz (Z.land (Z.shiftr p0 4) 1) |} in
  touchFingers p1 (seqZ 0 FOC_MAX_FINGERS) h.

Definition processAbsolutePacket (packet : list Z) (h : FocalTechHardwareState)
  : option FocalTechHardwareState :=
  p0 ← arr_get packet 0;
  p1 ← arr_get packet 1;
  p2 ← arr_get packet 2;
  p3 ← arr_get packet 3;
  p4 ← arr_get packet 4;
  p5 ← arr_get packet 5;
  let id := Z.shiftr p1 4 - 1 in
  if (id <? 0) || (FOC_MAX_FINGERS <=? id) then Some h else
  let h := {| h with pressed := nz (Z.land (Z.shiftr p0 4) 1) |} in
  h ← setFinger id (fun s => {| s with
         fx := Z.lor (Z.shiftl (Z.land p1 0x0f) 8) p2;
         fy := Z.lor (Z.shiftl p3 8) p4;
         valid := true |}) h;
  Some {| h with width := Z.shiftr p5 4 |}.

(** [fingers[id].x += (SInt8)dx; fingers[id].y += (SInt8)dy;] if [id] is a finger. *)
Definition moveFinger (id dx dy : Z) (h : FocalTechHardwareState) : option FocalTechHardwareState :=
  if (0 <=? id) && (id <? FOC_MAX_FINGERS)
  then setFinger id (fun s => {| s with fx := s32 (fx s + s8 dx); fy := s32 (fy s + s8 dy) |}) h
  else Some h.

Definition processRelativePacket (packet : list Z) (h : FocalTechHardwareState)
  : option FocalTechHardwareState :=
  p0 ← arr_get packet 0;
  p1 ← arr_get packet 1;
  p2 ← arr_get packet 2;
  p3 ← arr_get packet 3;
  p4 ← arr_get packet 4;
  p5 ← arr_get packet 5;
  let h := {| h with pressed := nz (Z.shiftr p0 7) |} in
  h ← moveFinger (Z.land (Z.shiftr p0 4) 0x7 - 1) p1 p2 h;
  moveFinger (Z.land (Z.shiftr p3 4) 0x7 - 1) p4 p5 h.

(** ** The state of the contacts *)

(** [x] or [y] cut to [0 .. max]. *)
Definition clampTo (max z : Z) : Z :=
  let z := if z <? 0 then 0 else z in if max <? z then max else z.

Definition reports (s : FocalTechFingerState) : bool := active s && valid s.

(** The finger that clicks: the lowest one, as [(clickX, clickY, clickFinger)];
    [l] are the fingers from index [i] on. *)
Fixpoint clickTarget (xMax yMax : Z) (l : list FocalTechFingerState) (i : Z)
    (found : option (Z * Z * Z)) : option (Z * Z * Z) :=
  match l with
  | [] => found
  | raw :: l' =>
    clickTarget xMax yMax l' (i + 1)
      (if negb (reports raw) then found else
       let vx := clampTo xMax (fx raw) in
       let vy := yMax - clampTo yMax (fy raw) in
       match found with
       | Some (_, clickY, _) => if clickY <? vy then Some (vx, vy, i) else found
       | None => Some (vx, vy, i)
       end)
  end.

Definition cancelTimeout (d : ApplePS2FocalTech) : ApplePS2FocalTech :=
  match _forceTimer d with Some _ => {| d with _forceTimer := Some None |} | None => d end.

(** [if (_hardware.pressed && !_clickWasPressed) ... else if (!_hardware.pressed) ...] *)
Definition clickEdge (d : ApplePS2FocalTech) : option ApplePS2FocalTech :=
  if pressed (_hardware d) && negb (_clickWasPressed d) then
    let target := clickTarget (_xMax d) (_yMax d) (fingers (_hardware d)) 0 None in
    let right := match target with
                 | Some (clickX, clickY, _) =>
                   (_yMax d * 70 / 100 <=? clickY) && (_xMax d / 2 <=? clickX)
                 | None => false
                 end in
    let d := cancelTimeout {| d with _clickRight := right; _forceEligible := false;
                              _forceActive := false; _forceFinger := -1 |} in
    d ← match target, _forceTimer d with
        | Some (_, _, clickFinger), Some _ =>
          if right then Some d else
          raw ← arr_get (fingers (_hardware d)) clickFinger;
          Some {| d with _forceFinger := clickFinger; _forceStartX := fx raw;
                  _forceStartY := fy raw; _forceEligible := true;
                  _forceTimer := Some (Some kForceHoldMS) |}
        | _, _ => Some d
        end;
    Some {| d with _clickWasPressed := true |}
  else if negb (pressed (_hardware d)) then
    Some {| (cancelTimeout d) with _forceEligible := false; _forceActive := false;
            _forceFinger := -1; _clickWasPressed := false; _clickRight := false |}
  else Some d.

(** [|a - b|] in [SInt32]. *)
Definition distance (a b : Z) : Z :=
  let d := s32 (a - b) in if d <? 0 then s32 (- d) else d.

Definition movedTooFar (d : ApplePS2FocalTech) (raw : FocalTechFingerState) : bool :=
  (kForceMoveCancel <? distance (fx raw) (_forceStartX d)) ||
  (kForceMoveCancel <? distance (fy raw) (_forceStartY d)).

(** A finger that lifts or moves away while it is held ends the force click. *)
Definition forceCheck (d : ApplePS2FocalTech) : option ApplePS2FocalTech :=
  if _forceEligible d && negb (_forceActive d) && pressed (_hardware d) &&
     (0 <=? _forceFinger d) && (_forceFinger d <? FOC_MAX_FINGERS) then
    raw ← arr_get (fingers (_hardware d)) (_forceFinger d);
    Some (if negb (reports raw) || movedTooFar d raw
          then cancelTimeout {| d with _forceEligible := false |} else d)
  else Some d.

(** One round of the last loop of [reportState]. *)
Definition updateFinger (xMax yMax w : Z) (raw : FocalTechFingerState)
    (finger : FocalTechVirtualFinger) : FocalTechVirtualFinger :=
  if negb (reports raw) then {| finger with touching := false |} else
  let cur := mkCoordinates (clampTo xMax (fx raw)) (yMax - clampTo yMax (fy raw)) 0 (u8 w) in
  mkVirtual (if touching finger then current finger else cur) cur true.

Definition updateFingers (d : ApplePS2FocalTech) : ApplePS2FocalTech :=
  {| d with _finger := zip_with (updateFinger (_xMax d) (_yMax d) (width (_hardware d)))
                                (fingers (_hardware d)) (_finger d) |}.

(** The buttons that the click asks for. *)
Definition setButtons (d : ApplePS2FocalTech) : ApplePS2FocalTech :=
  let buttonMask := if pressed (_hardware d) then if _clickRight d then 0x02 else 0x01 else 0 in
  {| d with _leftButton := Z.land buttonMask 0x01; _rightButton := Z.land buttonMask 0x02 |}.

Definition fingerTypeForIndex (index : Z) : MT2FingerType :=
  match index with
  | 0 => kMT2FingerTypeIndexFinger
  | 1 => kMT2FingerTypeMiddleFinger
  | 2 => kMT2FingerTypeRingFinger
  | 3 => kMT2FingerTypeThumb
  | 4 => kMT2FingerTypeLittleFinger
  | _ => kMT2FingerTypeIndexFinger
  end.

(** The transducer of contact number [count], from finger [i]. *)
Definition contactTransducer (d : ApplePS2FocalTech) (timestamp i count : Z)
    (state : FocalTechVirtualFinger) : VoodooInputTransducer :=
  let forced := _forceActive d && (i =? _forceFinger d) in
  {| tr_current := if forced then {| (current state) with tc_pressure := 255; tc_width := 10 |}
                   else current state;
     tr_previous := previous state;
     tr_timestamp := timestamp;
     tr_isValid := true;
     tr_isPhysicalButtonDown := false;
     tr_isTransducerActive := true;
     tr_supportsPressure := forced;
     tr_secondaryId := i;
     tr_fingerType := fingerTypeForIndex count;
     tr_isFinger := true |}.

(** The first loop of [sendTouchData], on the fingers [l] from index [i] on: the
    transducers, and the number of contacts. *)
Fixpoint fillTransducers (d : ApplePS2FocalTech) (timestamp : Z) (l : list FocalTechVirtualFinger)
    (i count : Z) (ts : list VoodooInputTransducer) : option (list VoodooInputTransducer * Z) :=
  match l with
  | [] => Some (ts, count)
  | state :: l' =>
    if negb (touching state) then fillTransducers d timestamp l' (i + 1) count ts else
    ts ← arr_set ts count (contactTransducer d timestamp i count state);
    fillTransducers d timestamp l' (i + 1) (count + 1) ts
  end.

(** The transducers of a report: contacts, thumb, unused slots. *)
Definition touchTransducers (d : ApplePS2FocalTech) (timestamp : Z)
  : option (list VoodooInputTransducer * Z) :=
  '(ts, count) ← fillTransducers d timestamp (_finger d) 0 0 (ev_transducers (_inputEvent d));
  ts ← (if 4 <=? count then assignThumb count ts else Some ts);
  Some (take (Z.to_nat count) ts ++ map clearTransducer (drop (Z.to_nat count) ts), count).

(** ** Bytes from the device *)

(** [interruptOccurred]: runs at interrupt time, on the driver object alone. *)
Definition interruptOccurred (data : Z) : M ApplePS2FocalTech PS2InterruptResult := fun d =>
  let i := _packetByteCount d in
  match head_set i (u8 data) (_ringBuffer d) with
  | None => Crash
  | Some rb =>
    let d := {| d with _irqByteCount := u64 (_irqByteCount d + 1); _ringBuffer := rb;
                _packetByteCount := u32 (i + 1) |} in
    if _packetByteCount d =? FOC_PACKET_LENGTH
    then Ok ({| d with _ringBuffer := advanceHead FOC_RING FOC_PACKET_LENGTH rb;
                _packetByteCount := 0 |}, kPS2IR_packetReady)
    else Ok (d, kPS2IR_packetBuffering)
  end.

(** ** The driver's world *)
Section Driver.
Context {B : Type} `{PS2Bus B}.

(** [uptime] is what [clock_get_uptime] gives. *)
Record FocWorld := mkFocWorld {
  drv : ApplePS2FocalTech;
  bus : B;
  uptime : Z;
  log : list DriverEvent }.

Definition fget {X} (f : ApplePS2FocalTech -> X) : M FocWorld X := gets (fun w => f (drv w)).
Definition fset (f : ApplePS2FocalTech -> ApplePS2FocalTech) : M FocWorld unit :=
  modify (fun w => {| w with drv := f (drv w) |}).
Definition emit (e : DriverEvent) : M FocWorld unit := modify (fun w => {| w with log := log w ++ [e] |}).
(** Calls into the controller: bytes that arrive meanwhile go to the driver. *)
Definition onBus {X} (m : M B X) : M FocWorld X := fun w =>
  match m (bus w) with
  | Ok (b, x) =>
    let '(bytes, b') := bus_received b in
    match for_each bytes (fun data => interruptOccurred data ;; ret tt) (drv w) with
    | Ok (d, _) => Ok ({| w with drv := d; bus := b' |}, x)
    | Wait => Wait
    | Crash => Crash
    end
  | Wait => Wait
  | Crash => Crash
  end.
(** A step of the driver's state that may leave an array. *)
Definition fstep (f : ApplePS2FocalTech -> option ApplePS2FocalTech) : M FocWorld unit :=
  d ← fget f; d' ← deref d; fset (fun _ => d').

(** ** Reporting *)

Definition sendButtons (buttons : Z) : M FocWorld unit :=
  client ← fget _voodooInput;
  match client with
  | None => ret tt
  | Some c => t ← gets uptime; emit (EvButtons c t buttons)
  end.

Definition sendTouchData : M FocWorld unit :=
  timestamp ← gets uptime;
  r ← fget (fun d => touchTransducers d timestamp);
  '(ts, count) ← deref r;
  let e := mkInputEvent ts (u8 count) timestamp in
  fset (fun d => {| d with _inputEvent := e |}) ;;
  client ← fget _voodooInput;
  (match client with Some c => emit (EvTouch c e) | None => ret tt end) ;;
  currentButtons ← fget (fun d =>
    if _forceActive d then _rightButton d else Z.lor (_leftButton d) (_rightButton d));
  last ← fget _lastButtons;
  when (negb (currentButtons =? last))
    (sendButtons currentButtons ;; fset (fun d => {| d with _lastButtons := currentButtons |})).

Definition reportState : M FocWorld unit :=
  fstep clickEdge ;;
  fstep forceCheck ;;
  fset updateFingers ;;
  fset setButtons ;;
  sendTouchData.

Definition forceTimerFired : M FocWorld unit :=
  d ← fget (fun d => d);
  if negb (_forceEligible d) || _forceActive d || negb (pressed (_hardware d)) || _clickRight d ||
     (_forceFinger d <? 0) || (FOC_MAX_FINGERS <=? _forceFinger d) then ret tt else
  raw ← deref (arr_get (fingers (_hardware d)) (_forceFinger d));
  if negb (reports raw) || movedTooFar d raw
  then fset (fun d => {| d with _forceEligible := false |})
  else
    fset (fun d => {| d with _forceEligible := false; _forceActive := true |}) ;;
    when (nz (Z.land (_lastButtons d) 0x01))
      (sendButtons 0 ;; fset (fun d => {| d with _lastButtons := 0 |})) ;;
    sendTouchData.

(** The timer event source calls [forceTimerFired] once per timeout. *)
Definition timerFires : M FocWorld unit :=
  t ← fget _forceTimer;
  match t with
  | Some (Some _) => fset (fun d => {| d with _forceTimer := Some None |}) ;; forceTimerFired
  | _ => ret tt
  end.

(** ** Packets *)

Definition publishRuntimeDiagnostics (packet : option (list Z)) (isValid : bool) : M FocWorld unit :=
  d ← fget (fun d => d);
  p ← (match packet with
       | None => ret None
       | Some l =>
         deref (arr_get l (FOC_PACKET_LENGTH - 1)) ;;
         ret (Some (take (Z.to_nat FOC_PACKET_LENGTH) l, isValid))
       end);
  emit (EvDiagnostics (_providerPort d) (_auxNubCount d) (_irqByteCount d) (_packetCount d)
    (_validPacketCount d) (_invalidPacketCount d) (_legacyCompatibilityPath d) p).

(** The packet at [tail()], as the decoders read it. *)
Definition tailPacket (d : ApplePS2FocalTech) : list Z :=
  tail_slice FOC_PACKET_LENGTH (_ringBuffer d).

Definition decode (packet : list Z) (h : FocalTechHardwareState)
  : option (option FocalTechHardwareState) :=
  p0 ← arr_get packet 0;
  let t := Z.land p0 0x0f in
  if t =? FOC_TOUCH then (h' ← processTouchPacket packet h; Some (Some h'))
  else if t =? FOC_ABS then (h' ← processAbsolutePacket packet h; Some (Some h'))
  else if t =? FOC_REL then (h' ← processRelativePacket packet h; Some (Some h'))
  else Some None.

Definition processPacket : M FocWorld bool :=
  r ← fget (fun d => decode (tailPacket d) (_hardware d));
  o ← deref r;
  match o with
  | None => ret false
  | Some h => fset (fun d => {| d with _hardware := h |}) ;; reportState ;; ret true
  end.

(** One round of [packetReady]'s loop. *)
Definition packetReadyRound (_ : unit) : M FocWorld (unit + unit) :=
  n ← fget (fun d => count FOC_RING (_ringBuffer d));
  if n <? FOC_PACKET_LENGTH then ret (inr tt) else
  packet ← fget tailPacket;
  fset (fun d => {| d with _packetCount := u64 (_packetCount d + 1) |}) ;;
  isValid ← processPacket;
  fset (fun d => if isValid : bool
    then {| d with _validPacketCount := u64 (_validPacketCount d + 1) |}
    else {| d with _invalidPacketCount := u64 (_invalidPacketCount d + 1) |}) ;;
  k ← fget _packetCount;
  when ((k <=? 4) || (Z.land k 31 =? 0)) (publishRuntimeDiagnostics (Some packet) isValid) ;;
  fset (fun d => {| d with _ringBuffer := advanceTail FOC_RING FOC_PACKET_LENGTH (_ringBuffer d) |}) ;;
  ret (inl tt).

Definition queued (w : FocWorld) : nat := Z.to_nat (count FOC_RING (_ringBuffer (drv w))).

Definition packetReady : M FocWorld unit := loop queued packetReadyRound tt.

(** ** Requests to the device *)

(** [_device->submitRequestAndBlock(&r)] *)
Definition submitDevice (p : Z) (l : list PS2Command) : M FocWorld PS2Request :=
  onBus (bus_submit {| (TPS2Request (Z.of_nat (length l)) l) with port := p |}).

(** [controller->submitRequestAndBlock(&r)] with [r.port] set by the driver. *)
Definition submitTo (p : Z) (l : list PS2Command) : M FocWorld PS2Request :=
  onBus (bus_submit {| (TPS2Request (Z.of_nat (length l)) l) with port := p |}).

(** [r.commandsCount == n] *)
Definition succeeded (r : PS2Request) (n : Z) : bool := commandsCount r =? n.

Definition ack (z : Z) : PS2Command := cmd kPS2C_SendCommandAndCompareAck z.
Definition readByte : PS2Command := cmd kPS2C_ReadDataPort 0.
Definition flush : PS2Command := cmd kPS2C_FlushDataPort 0.

Definition mayUseLegacyFallback (d : ApplePS2FocalTech) : bool := _auxNubCount d <=? 1.

Definition countAuxNubs : M FocWorld Z :=
  dev ← fget _device;
  match dev with None => ret 0 | Some _ => onBus bus_auxNubs end.

Definition prepareLegacyControllerState : M FocWorld bool :=
  dev ← fget _device;
  match dev with
  | None => ret false
  | Some p =>
    onBus bus_lock ;;
    onBus (bus_setCommandByte 0 (Z.lor kCB_EnableMouseIRQ kCB_DisableMouseClock)) ;;
    keyboardDisable ← submitTo kPS2KbdIdx [ack kDP_SetDefaultsAndDisable];
    auxDisable ← submitDevice p [ack kDP_SetDefaultsAndDisable];
    submitDevice p [flush] ;;
    keyboardReset ← submitTo kPS2KbdIdx [ack kDP_Reset];
    onBus (bus_sleep 50) ;;
    submitDevice p [flush] ;;
    keyboardEnable ← submitTo kPS2KbdIdx [ack kDP_Enable];
    onBus (bus_setCommandByte 0 (Z.lor kCB_EnableMouseIRQ kCB_DisableMouseClock)) ;;
    onBus bus_unlock ;;
    ret (succeeded keyboardDisable 1 && succeeded auxDisable 1 &&
         succeeded keyboardReset 1 && succeeded keyboardEnable 1)
  end.

(** [r.commands[i].inOrOut] *)
Definition result (r : PS2Request) (i : Z) : M FocWorld Z :=
  c ← deref (arr_get (commands r) i); ret (inOrOut c).

Definition detectFocalTech : M FocWorld bool :=
  dev ← fget _device;
  match dev with
  | None => ret false
  | Some p =>
    disable ← submitDevice p [ack kDP_SetDefaultsAndDisable];
    if negb (succeeded disable 1) then ret false else
    request ← submitDevice p
      [ack kDP_SetMouseScaling1To1; ack kDP_SetMouseScaling1To1; ack kDP_SetMouseScaling1To1;
       ack kDP_GetMouseInformation; readByte; readByte; readByte];
    if negb (succeeded request 7) then ret false else
    b0 ← result request 4;
    b1 ← result request 5;
    b2 ← result request 6;
    ret ((b0 =? 0x3c) && (b1 =? 0xf0) && ((b2 =? 0xc8) || (b2 =? 0x00)))
  end.

Definition resetDevice : M FocWorld bool :=
  dev ← fget _device;
  match dev with
  | None => ret false
  | Some p =>
    request ← submitDevice p [ack kDP_Reset; readByte; readByte];
    b1 ← result request 1;
    b2 ← result request 2;
    ret (succeeded request 3 && (b1 =? kSC_Reset) && (b2 =? kSC_ID))
  end.

(** The three bytes of a register, or [None]. *)
Definition readRegister (reg : Z) : M FocWorld (option (Z * Z * Z)) :=
  dev ← fget _device;
  match dev with
  | None => ret None
  | Some p =>
    select ← submitDevice p
      [ack kDP_SetMouseScaling1To1; ack kDP_SetMouseResolution; ack 0;
       ack kDP_SetMouseResolution; ack 0; ack kDP_SetMouseResolution; ack 0;
       ack kDP_SetMouseResolution; ack reg];
    if negb (succeeded select 9) then ret None else
    info ← submitDevice p [ack kDP_GetMouseInformation; readByte; readByte; readByte];
    if negb (succeeded info 4) then ret None else
    b1 ← result info 1;
    b2 ← result info 2;
    b3 ← result info 3;
    ret (Some (b1, b2, b3))
  end.

Definition readDimensions : M FocWorld bool :=
  r ← readRegister 2;
  match r with
  | None => ret false
  | Some (_, b1, b2) =>
    fset (fun d => {| d with _xMax := u32 (b1 * 128); _yMax := u32 (b2 * 128) |}) ;;
    fget (fun d => (128 <=? _xMax d) && (128 <=? _yMax d))
  end.

Definition switchToNativeProtocol : M FocWorld bool :=
  dev ← fget _device;
  match dev with
  | None => crash
  | Some p =>
    request ← submitDevice p
      [ack FOC_PS2_CUSTOM_COMMAND; ack 0; ack FOC_PS2_CUSTOM_COMMAND; ack 0;
       ack FOC_PS2_CUSTOM_COMMAND; ack 0; ack FOC_PS2_CUSTOM_COMMAND; ack 1;
       ack kDP_SetMouseScaling1To1];
    ret (succeeded request 9)
  end.

Definition publishInputProperties : M FocWorld unit :=
  d ← fget (fun d => d);
  emit (EvPublish (_xMax d) (_yMax d) (u32 (u32 ((_xMax d + 1) * 100) / FOC_UNITS_PER_MM))
                  (u32 (u32 ((_yMax d + 1) * 100) / FOC_UNITS_PER_MM))) ;;
  fset (fun d => {| d with _inputPublished := true |}) ;;
  emit EvRegister.

(** The members [setupHardware] resets. *)
Definition resetState (d : ApplePS2FocalTech) : ApplePS2FocalTech :=
  cancelTimeout {| d with
    _hardware := noHardware; _finger := noFingers;
    _packetByteCount := 0; _ringBuffer := reset (_ringBuffer d);
    _irqByteCount := 0; _packetCount := 0; _validPacketCount := 0; _invalidPacketCount := 0;
    _leftButton := 0; _rightButton := 0; _lastButtons := 0;
    _clickWasPressed := false; _clickRight := false;
    _forceEligible := false; _forceActive := false; _forceFinger := -1 |}.

Definition setupHardware (publishInput : bool) : M FocWorld bool :=
  fset resetState ;;
  legacy ← fget _legacyCompatibilityPath;
  ready ← (if negb legacy then resetDevice else ret true);
  if negb ready then ret false else
  dims ← readDimensions;
  if negb dims then ret false else
  native ← switchToNativeProtocol;
  if negb native then ret false else
  published ← fget _inputPublished;
  when (publishInput && negb published) publishInputProperties ;;
  ret true.

Definition setTouchPadEnable (enable : bool) : M FocWorld unit :=
  dev ← fget _device;
  match dev with
  | None => ret tt
  | Some p =>
    submitDevice p [ack (if enable then kDP_Enable else kDP_SetDefaultsAndDisable)] ;; ret tt
  end.

(** The detection of [probe] and of wake-up, with its fallback. *)
Definition detectWithFallback : M FocWorld bool :=
  n ← countAuxNubs;
  fset (fun d => {| d with _auxNubCount := n |}) ;;
  fset (fun d => {| d with _legacyCompatibilityPath := false |}) ;;
  detected ← detectFocalTech;
  if detected : bool then ret true else
  may ← fget mayUseLegacyFallback;
  if negb may then ret false else
  prepared ← prepareLegacyControllerState;
  if negb prepared then ret false else
  fset (fun d => {| d with _legacyCompatibilityPath := true |}) ;;
  detectFocalTech.

Definition setDevicePowerState (whatToDo : Z) : M FocWorld unit :=
  dev ← fget _device;
  match dev with
  | None => ret tt
  | Some _ =>
    if whatToDo =? kPS2C_DisableDevice then
      fset (fun d => {| (cancelTimeout d) with _forceEligible := false; _forceActive := false |}) ;;
      setTouchPadEnable false
    else if negb (whatToDo =? kPS2C_EnableDevice) then ret tt else
    onBus (bus_sleep kWakeDelayMS) ;;
    detected ← detectWithFallback;
    if negb detected then ret tt else
    onBus bus_lock ;;
    configured ← setupHardware false;
    when configured (setTouchPadEnable true) ;;
    onBus bus_unlock
  end.

(** ** Life cycle *)

(** [probe]: [nub] is the provider's port, if it is a mouse nub; [portProperty] its
    "Port Num" property. *)
Definition probe (nub portProperty : option Z) : M FocWorld bool :=
  fset (fun d => {| d with _device := nub |}) ;;
  match nub with
  | None => ret false
  | Some _ =>
    fset (fun d => {| d with _providerPort := default 0 portProperty |}) ;;
    detected ← detectWithFallback;
    when detected (publishRuntimeDiagnostics None false) ;;
    fset (fun d => {| d with _device := None |}) ;;
    ret detected
  end.

(** [start]: [workLoop] and [timer] say whether the kernel gives the driver a work
    loop and a timer on it. *)
Definition start (nub portProperty : option Z) (workLoop timer : bool) : M FocWorld bool :=
  fset (fun d => {| d with _device := nub |}) ;;
  match nub with
  | None => ret false
  | Some _ =>
    fset (fun d => {| d with _providerPort := default (_providerPort d) portProperty |}) ;;
    n ← countAuxNubs;
    fset (fun d => {| d with _auxNubCount := n |}) ;;
    publishRuntimeDiagnostics None false ;;
    if negb workLoop then (fset (fun d => {| d with _device := None |}) ;; ret false) else
    if negb timer then
      (fset (fun d => {| d with _forceTimer := None; _device := None |}) ;; ret false) else
    fset (fun d => {| d with _forceTimer := Some None |}) ;;
    onBus bus_lock ;;
    ready ← setupHardware true;
    if negb ready then
      (onBus bus_unlock ;;
       fset (fun d => {| d with _forceTimer := None; _device := None |}) ;; ret false)
    else
    onBus bus_installInterrupt ;;
    fset (fun d => {| d with _interruptInstalled := true |}) ;;
    setTouchPadEnable true ;;
    onBus bus_unlock ;;
    onBus bus_installPower ;;
    fset (fun d => {| d with _powerInstalled := true |}) ;;
    ret true
  end.

Definition stop : M FocWorld unit :=
  fset (fun d => {| d with _forceTimer := None |}) ;;
  dev ← fget _device;
  (match dev with
   | None => ret tt
   | Some _ =>
     setTouchPadEnable false ;;
     i ← fget _interruptInstalled;
     when i (onBus bus_uninstallInterrupt ;;
             fset (fun d => {| d with _interruptInstalled := false |})) ;;
     p ← fget _powerInstalled;
     when p (onBus bus_uninstallPower ;;
             fset (fun d => {| d with _powerInstalled := false |}))
   end) ;;
  fset (fun d => {| d with _voodooInput := None; _device := None |}).

(** [handleOpen], [handleClose], [handleIsOpen]: [isInput] says whether the client
    has VoodooInput's identifier. *)
Definition handleOpen (client : option Z) (isInput : bool) : M FocWorld bool :=
  match client with
  | Some c => if isInput then (fset (fun d => {| d with _voodooInput := Some c |}) ;; ret true)
              else ret false
  | None => ret false
  end.

Definition handleClose (client : option Z) : M FocWorld unit :=
  fset (fun d => if bool_decide (client = _voodooInput d)
                 then {| d with _voodooInput := None |} else d).

Definition handleIsOpen (client : option Z) (d : ApplePS2FocalTech) : bool :=
  match client with
  | Some c => bool_decide (_voodooInput d = Some c)
  | None => match _voodooInput d with Some _ => true | None => false end
  end.

End Driver.
