(* ===== verification/FocalTechDecode.v ===== *)
(** * Decoding FocalTech packets

    The three packet formats, as encoders that a touchpad would implement, and the
    decoders' behaviour on them. *)
From S2P Require Import Prelude RingBuffer Touch FocalTech.

(** ** Fingers *)

(** The hardware state has its five fingers. *)
Definition hardware_ok (h : FocalTechHardwareState) : Prop :=
  Z.of_nat (length (fingers h)) = FOC_MAX_FINGERS.

Lemma setFinger_eq i f h :
  hardware_ok h -> 0 <= i < FOC_MAX_FINGERS ->
  exists s, fingers h !! Z.to_nat i = Some s /\
    setFinger i f h = Some {| h with fingers := <[Z.to_nat i := f s]> (fingers h) |}.
Proof.
  intros Hh Hi. destruct (arr_get_Some (fingers h) i) as (s & Hs & Hl); [rewrite Hh; lia|].
  exists s. split; [done|]. unfold setFinger. rewrite Hs. simpl.
  by rewrite arr_set_Some by (rewrite Hh; lia).
Qed.

Lemma setFinger_ok i f h h' : hardware_ok h -> setFinger i f h = Some h' -> hardware_ok h'.
Proof.
  unfold hardware_ok, setFinger. intros Hh E.
  destruct (arr_get (fingers h) i) as [s|]; [|done]. simpl in E.
  destruct (arr_set (fingers h) i (f s)) as [l|] eqn:Es; [|done].
  injection E as <-. apply arr_set_length in Es. simpl. lia.
Qed.

Lemma moveFinger_total id dx dy h :
  hardware_ok h -> exists h', moveFinger id dx dy h = Some h' /\ hardware_ok h' /\ pressed h' = pressed h.
Proof.
  intros Hh. unfold moveFinger. destruct ((0 <=? id) && (id <? FOC_MAX_FINGERS)) eqn:E; [|by exists h].
  edestruct (setFinger_eq id) as (s & _ & Es); [exact Hh|lia|].
  eexists. rewrite Es. split; [done|]. split; [by eapply setFinger_ok|done].
Qed.

(** What the loop of [processTouchPacket] does. *)
Lemma touchLoop l mask h :
  hardware_ok h -> Forall (fun i => 0 <= i < FOC_MAX_FINGERS) l ->
  exists h', touchFingers mask l h = Some h' /\
    hardware_ok h' /\ pressed h' = pressed h /\ width h' = width h /\
    forall k, fingers h' !! k =
      if bool_decide (Z.of_nat k ∈ l) then touchFinger mask (Z.of_nat k) <$> fingers h !! k
      else fingers h !! k.
Proof.
  intros Hh Hl. revert h Hh. induction Hl as [|i l Hi Hl IH]; intros h Hh; simpl.
  - by exists h.
  - destruct (setFinger_eq i (touchFinger mask i) h Hh Hi) as (s & Hs & E). rewrite E. simpl.
    destruct (IH _ (setFinger_ok _ _ _ _ Hh E)) as (h' & E' & Hh' & Hp & Hw & Hk).
    exists h'. split; [done|]. split; [done|]. split; [done|]. split; [done|]. intros k. rewrite Hk. simpl.
    destruct (decide (Z.to_nat i = k)) as [<-|Hne].
    + rewrite list_lookup_insert_eq by (by eapply lookup_lt_Some). rewrite Hs, Z2Nat.id by lia.
      rewrite (bool_decide_eq_true_2 (i ∈ i :: l)) by (by left). simpl.
      case_bool_decide; [|done]. f_equal. unfold touchFinger. simpl. by destruct (nz _).
    + rewrite list_lookup_insert_ne by done.
      assert (Hiff : Z.of_nat k ∈ i :: l <-> Z.of_nat k ∈ l).
      { rewrite elem_of_cons. split; [|by right]. intros [?|?]; [lia|done]. }
      by rewrite (bool_decide_ext _ _ Hiff).
Qed.

Lemma arr_get_nth {T} (l : list T) (i : nat) x : l !! i = Some x -> arr_get l (Z.of_nat i) = Some x.
Proof. intros H. unfold arr_get. rewrite (proj2 (Z.ltb_ge _ _)) by lia. by rewrite Nat2Z.id. Qed.

(** The six bytes a decoder reads. *)
Lemma six_bytes (packet : list Z) :
  length packet = Z.to_nat FOC_PACKET_LENGTH ->
  exists p0 p1 p2 p3 p4 p5, packet = [p0; p1; p2; p3; p4; p5].
Proof.
  intros Hl. do 6 (destruct packet as [|? packet]; [done|]). destruct packet; [|done].
  by eexists _, _, _, _, _, _.
Qed.

(** The decoders on six bytes, with the array accesses done. *)
Lemma decode_eq p0 p1 p2 p3 p4 p5 h :
  decode [p0; p1; p2; p3; p4; p5] h =
  if Z.land p0 0x0f =? FOC_TOUCH then (h' ← processTouchPacket [p0; p1; p2; p3; p4; p5] h; Some (Some h'))
  else if Z.land p0 0x0f =? FOC_ABS then (h' ← processAbsolutePacket [p0; p1; p2; p3; p4; p5] h; Some (Some h'))
  else if Z.land p0 0x0f =? FOC_REL then (h' ← processRelativePacket [p0; p1; p2; p3; p4; p5] h; Some (Some h'))
  else Some None.
Proof. reflexivity. Qed.

Lemma processTouchPacket_eq p0 p1 p2 p3 p4 p5 h :
  processTouchPacket [p0; p1; p2; p3; p4; p5] h =
  touchFingers p1 (seqZ 0 FOC_MAX_FINGERS) {| h with pressed := nz (Z.land (Z.shiftr p0 4) 1) |}.
Proof. reflexivity. Qed.

Lemma processAbsolutePacket_eq p0 p1 p2 p3 p4 p5 h :
  processAbsolutePacket [p0; p1; p2; p3; p4; p5] h =
  let id := Z.shiftr p1 4 - 1 in
  if (id <? 0) || (FOC_MAX_FINGERS <=? id) then Some h else
  h ← setFinger id (fun s => {| s with fx := Z.lor (Z.shiftl (Z.land p1 0x0f) 8) p2;
                                fy := Z.lor (Z.shiftl p3 8) p4; valid := true |})
        {| h with pressed := nz (Z.land (Z.shiftr p0 4) 1) |};
  Some {| h with width := Z.shiftr p5 4 |}.
Proof. reflexivity. Qed.

Lemma processRelativePacket_eq p0 p1 p2 p3 p4 p5 h :
  processRelativePacket [p0; p1; p2; p3; p4; p5] h =
  h ← moveFinger (Z.land (Z.shiftr p0 4) 0x7 - 1) p1 p2 {| h with pressed := nz (Z.shiftr p0 7) |};
  moveFinger (Z.land (Z.shiftr p3 4) 0x7 - 1) p4 p5 h.
Proof. reflexivity. Qed.

(** The decoders never leave an array. *)
Lemma processTouchPacket_total p0 p1 p2 p3 p4 p5 h :
  hardware_ok h -> exists h', processTouchPacket [p0; p1; p2; p3; p4; p5] h = Some h' /\ hardware_ok h'.
Proof.
  intros Hh. rewrite processTouchPacket_eq.
  destruct (touchLoop (seqZ 0 FOC_MAX_FINGERS) p1
    {| h with pressed := nz (Z.land (Z.shiftr p0 4) 1) |}) as (h' & -> & Hh' & _); eauto.
  repeat constructor; unfold FOC_MAX_FINGERS; lia.
Qed.

Lemma processAbsolutePacket_total p0 p1 p2 p3 p4 p5 h :
  hardware_ok h -> exists h', processAbsolutePacket [p0; p1; p2; p3; p4; p5] h = Some h' /\ hardware_ok h'.
Proof.
  intros Hh. rewrite processAbsolutePacket_eq. cbn zeta.
  destruct (_ || _) eqn:Ei; [by exists h|].
  edestruct (setFinger_eq (Z.shiftr p1 4 - 1)) as (s & _ & E);
    [|unfold FOC_MAX_FINGERS in *; lia|rewrite E].
  - exact Hh.
  - eexists. split; [reflexivity|]. eapply setFinger_ok in E; [exact E|exact Hh].
Qed.

Lemma processRelativePacket_total p0 p1 p2 p3 p4 p5 h :
  hardware_ok h -> exists h', processRelativePacket [p0; p1; p2; p3; p4; p5] h = Some h' /\ hardware_ok h'.
Proof.
  intros Hh. rewrite processRelativePacket_eq.
  destruct (moveFinger_total (Z.land (Z.shiftr p0 4) 0x7 - 1) p1 p2
    {| h with pressed := nz (Z.shiftr p0 7) |}) as (h1 & -> & H1 & _); [done|]. cbn [mbind option_bind].
  destruct (moveFinger_total (Z.land (Z.shiftr p3 4) 0x7 - 1) p4 p5 h1) as (h2 & -> & H2 & _); eauto.
Qed.

Lemma decode_total packet h :
  length packet = Z.to_nat FOC_PACKET_LENGTH -> hardware_ok h ->
  exists o, decode packet h = Some o /\ forall h', o = Some h' -> hardware_ok h'.
Proof.
  intros (p0 & p1 & p2 & p3 & p4 & p5 & ->)%six_bytes Hh. rewrite decode_eq.
  destruct (processTouchPacket_total p0 p1 p2 p3 p4 p5 h Hh) as (h1 & -> & ?).
  destruct (processAbsolutePacket_total p0 p1 p2 p3 p4 p5 h Hh) as (h2 & -> & ?).
  destruct (processRelativePacket_total p0 p1 p2 p3 p4 p5 h Hh) as (h3 & -> & ?).
  cbn [mbind option_bind].
  repeat match goal with |- context [if ?b then _ else _] => destruct b end;
    (eexists; split; [reflexivity|]); by intros ? [= <-].
Qed.

(** ** The packets a touchpad sends *)

(** [PkTouch]: which fingers are down.  [PkAbsolute]: a finger's position.
    [PkRelative]: how far up to two fingers moved. *)
Inductive FocPacket :=
| PkTouch (down : list bool) (press : bool)
| PkAbsolute (finger x y w : Z) (press : bool)
| PkRelative (move1 move2 : option (Z * Z * Z)) (press : bool).

Fixpoint mask_of (down : list bool) : Z :=
  match down with [] => 0 | b :: l => Z.b2z b + 2 * mask_of l end.

Definition move_field (m : option (Z * Z * Z)) : Z * Z * Z :=
  match m with None => (0, 0, 0) | Some (f, dx, dy) => (f + 1, dx mod 256, dy mod 256) end.

Definition encode (p : FocPacket) : list Z :=
  match p with
  | PkTouch down press => [FOC_TOUCH + 16 * Z.b2z press; mask_of down; 0; 0; 0; 0]
  | PkAbsolute f x y w press =>
    [FOC_ABS + 16 * Z.b2z press; 16 * (f + 1) + x / 256; x mod 256; y / 256; y mod 256; 16 * w]
  | PkRelative m1 m2 press =>
    let '(f1, dx1, dy1) := move_field m1 in
    let '(f2, dx2, dy2) := move_field m2 in
    [FOC_REL + 16 * f1 + 128 * Z.b2z press; dx1; dy1; 16 * f2; dx2; dy2]
  end.

Definition is_finger (f : Z) : Prop := 0 <= f < FOC_MAX_FINGERS.

Definition move_ok (m : option (Z * Z * Z)) : Prop :=
  match m with
  | None => True
  | Some (f, dx, dy) => is_finger f /\ -128 <= dx < 128 /\ -128 <= dy < 128
  end.

Definition packet_ok (p : FocPacket) : Prop :=
  match p with
  | PkTouch down _ => Z.of_nat (length down) = FOC_MAX_FINGERS
  | PkAbsolute f x y w _ => is_finger f /\ 0 <= x < 4096 /\ 0 <= y < 65536 /\ 0 <= w < 16
  | PkRelative m1 m2 _ => move_ok m1 /\ move_ok m2
  end.

(** What each packet means for the fingers. *)
Definition on_finger (f : Z) (g : FocalTechFingerState -> FocalTechFingerState)
    (h : FocalTechHardwareState) : FocalTechHardwareState :=
  {| h with fingers := alter g (Z.to_nat f) (fingers h) |}.

Definition apply_move (m : option (Z * Z * Z)) (h : FocalTechHardwareState) : FocalTechHardwareState :=
  match m with
  | None => h
  | Some (f, dx, dy) => on_finger f (fun s => {| s with fx := s32 (fx s + dx); fy := s32 (fy s + dy) |}) h
  end.

Definition apply_packet (p : FocPacket) (h : FocalTechHardwareState) : FocalTechHardwareState :=
  match p with
  | PkTouch down press =>
    {| h with pressed := press;
              fingers := zip_with (fun (b : bool) s => {| s with active := b; valid := b && valid s |})
                                  down (fingers h) |}
  | PkAbsolute f x y w press =>
    {| (on_finger f (fun s => {| s with fx := x; fy := y; valid := true |}) h) with
       pressed := press; width := w |}
  | PkRelative m1 m2 press => apply_move m2 (apply_move m1 {| h with pressed := press |})
  end.

Lemma setFinger_alter i f h :
  hardware_ok h -> is_finger i -> setFinger i f h = Some (on_finger i f h).
Proof.
  intros Hh Hi. destruct (setFinger_eq i f h Hh Hi) as (s & Hs & ->). unfold on_finger.
  f_equal. f_equal. apply list_eq. intros k. destruct (decide (Z.to_nat i = k)) as [<-|Hne].
  - rewrite list_lookup_alter_eq, Hs. apply list_lookup_insert_eq. by eapply lookup_lt_Some.
  - by rewrite list_lookup_alter_ne, list_lookup_insert_ne.
Qed.

Lemma on_finger_ok f g h : hardware_ok h -> hardware_ok (on_finger f g h).
Proof. unfold hardware_ok, on_finger. simpl. by rewrite length_alter. Qed.

Lemma apply_move_ok m h : hardware_ok h -> hardware_ok (apply_move m h).
Proof. destruct m as [[[f dx] dy]|]; [apply on_finger_ok|done]. Qed.

Lemma moveFinger_move m h :
  hardware_ok h -> move_ok m ->
  moveFinger ((move_field m).1.1 - 1) (move_field m).1.2 (move_field m).2 h = Some (apply_move m h).
Proof.
  intros Hh Hm. unfold moveFinger. destruct m as [[[f dx] dy]|]; [|done].
  destruct Hm as (Hf & Hx & Hy). simpl. rewrite Z.add_simpl_r, !s8_u8 by done.
  unfold is_finger in Hf. rewrite (proj2 (Z.leb_le 0 f)), (proj2 (Z.ltb_lt f _)) by lia.
  by apply setFinger_alter.
Qed.

Lemma move_field_range m : move_ok m -> 0 <= (move_field m).1.1 <= FOC_MAX_FINGERS.
Proof.
  destruct m as [[[f dx] dy]|]; simpl; unfold is_finger, FOC_MAX_FINGERS; lia.
Qed.

(** The fields of the first and fourth byte of a relative packet. *)
Lemma relative_fields f1 f2 press :
  0 <= f1 <= FOC_MAX_FINGERS -> 0 <= f2 <= FOC_MAX_FINGERS ->
  let p0 := FOC_REL + 16 * f1 + 128 * Z.b2z press in
  Z.land p0 0x0f = FOC_REL /\ Z.land (Z.shiftr p0 4) 0x7 = f1 /\ nz (Z.shiftr p0 7) = press /\
  Z.land (Z.shiftr (16 * f2) 4) 0x7 = f2.
Proof.
  unfold FOC_MAX_FINGERS. intros H1 H2.
  assert (f1 = 0 \/ f1 = 1 \/ f1 = 2 \/ f1 = 3 \/ f1 = 4 \/ f1 = 5) as C1 by lia.
  assert (f2 = 0 \/ f2 = 1 \/ f2 = 2 \/ f2 = 3 \/ f2 = 4 \/ f2 = 5) as C2 by lia.
  cbn zeta. split_and!.
  1-3: destruct C1 as [->|[->|[->|[->|[->| ->]]]]]; destruct press; reflexivity.
  destruct C2 as [->|[->|[->|[->|[->| ->]]]]]; reflexivity.
Qed.

(** The position fields of an absolute packet. *)
Lemma absolute_fields f x :
  is_finger f -> 0 <= x < 4096 ->
  let p1 := 16 * (f + 1) + x / 256 in
  Z.shiftr p1 4 = f + 1 /\ Z.lor (Z.shiftl (Z.land p1 0x0f) 8) (x mod 256) = x.
Proof.
  intros Hf Hx. cbn zeta.
  assert (Hq : 0 <= x / 256 < 16).
  { split; [apply Z.div_pos; lia|apply Z.div_lt_upper_bound; lia]. }
  split.
  - rewrite Z.shiftr_div_pow2 by lia. symmetry. apply Z.div_unique_pos with (x / 256); lia.
  - change 0x0f with (Z.ones 4). rewrite land_low by lia.
    replace ((16 * (f + 1) + x / 256) mod 2 ^ 4) with (x / 256)
      by (apply Z.mod_unique_pos with (f + 1); lia).
    rewrite lor_shiftl_add by (try apply Z.mod_pos_bound; lia).
    pose proof (Z.div_mod x 256). lia.
Qed.

Lemma five {T} (l : list T) :
  Z.of_nat (length l) = FOC_MAX_FINGERS -> exists a b c d e, l = [a; b; c; d; e].
Proof.
  intros Hl. unfold FOC_MAX_FINGERS in Hl. do 5 (destruct l as [|? l]; [done|]).
  destruct l; [by eexists _, _, _, _, _|]. simpl in Hl. lia.
Qed.

(** C8: Cn: a touchpad's packets mean what the protocol says: for every packet a touchpad
    can send, the driver's decoder applied to its six bytes yields exactly the state
    the packet describes; which fingers are down and whether the pad is pressed,
    a finger's twelve-bit [x], sixteen-bit [y] and the four-bit width, or one or two
    signed eight-bit displacements. *)
Theorem decode_encode p h :
  packet_ok p -> hardware_ok h -> decode (encode p) h = Some (Some (apply_packet p h)).
Proof.
  intros Hp Hh. destruct p as [down press|f x y w press|m1 m2 press]; simpl in Hp.
  - destruct h as [l w p]. destruct (five _ Hh) as (s0 & s1 & s2 & s3 & s4 & E). simpl in E. subst l.
    destruct (five _ Hp) as (b0 & b1 & b2 & b3 & b4 & ->).
    destruct b0, b1, b2, b3, b4, press; reflexivity.
  - destruct Hp as (Hf & Hx & Hy & Hw). destruct (absolute_fields f x Hf Hx) as [E1 E2].
    cbn [encode]. rewrite decode_eq, processAbsolutePacket_eq. cbn zeta in *.
    rewrite E1, E2, Z.add_simpl_r. unfold is_finger in Hf.
    rewrite (proj2 (Z.ltb_ge f 0)), (proj2 (Z.leb_gt _ f)) by lia. cbn [orb].
    rewrite setFinger_alter by done. cbn [mbind option_bind].
    rewrite lor_shiftl_add by (try apply Z.mod_pos_bound; lia).
    replace (y / 256 * 2 ^ 8 + y mod 256) with y by (pose proof (Z.div_mod y 256); lia).
    replace (Z.shiftr (16 * w) 4) with w
      by (rewrite Z.shiftr_div_pow2 by lia; apply Z.div_unique_pos with 0; lia).
    by destruct press.
  - destruct Hp as [H1 H2]. cbn [encode].
    pose proof (moveFinger_move m1 {| h with pressed := press |} Hh H1) as E1.
    pose proof (moveFinger_move m2 (apply_move m1 {| h with pressed := press |})
                  (apply_move_ok m1 {| h with pressed := press |} Hh) H2) as E2.
    destruct (relative_fields _ _ press (move_field_range m1 H1) (move_field_range m2 H2))
      as (F0 & F1 & F2 & F3).
    destruct (move_field m1) as [[f1 dx1] dy1], (move_field m2) as [[f2 dx2] dy2]. simpl in *.
    rewrite decode_eq, processRelativePacket_eq, F0, F1, F2, F3. simpl.
    rewrite E1. cbn [mbind option_bind]. by rewrite E2.
Qed.

Lemma decode_encode_witness :
  packet_ok (PkAbsolute 2 1234 777 5 true) /\ hardware_ok noHardware /\
  decode (encode (PkAbsolute 2 1234 777 5 true)) noHardware =
    Some (Some (mkFocHardware [noFinger; noFinger; mkFoc false true 1234 777; noFinger; noFinger] 5 true)).
Proof.
  assert (H1 : packet_ok (PkAbsolute 2 1234 777 5 true)) by (simpl; unfold is_finger, FOC_MAX_FINGERS; lia).
  assert (H2 : hardware_ok noHardware) by reflexivity.
  split; [exact H1|]. split; [exact H2|]. exact (decode_encode _ _ H1 H2).
Defined.
