(* ===== verification/FocalTechReport.v ===== *)
(** * What the FocalTech driver reports

    The contacts, their finger types and the unused slots of an event, as functions
    of the driver's fingers. *)
From S2P Require Import Prelude Touch FocalTech FocalTechDecode.

(** ** Filling the slots *)

(** The fingers that touch, with their indices, in order. *)
Fixpoint contactsFrom (i : Z) (l : list FocalTechVirtualFinger) : list (Z * FocalTechVirtualFinger) :=
  match l with
  | [] => []
  | s :: l' => if touching s then (i, s) :: contactsFrom (i + 1) l' else contactsFrom (i + 1) l'
  end.

Definition contacts (d : ApplePS2FocalTech) : list (Z * FocalTechVirtualFinger) :=
  contactsFrom 0 (_finger d).

Fixpoint contactList (d : ApplePS2FocalTech) (t k : Z) (cs : list (Z * FocalTechVirtualFinger))
  : list VoodooInputTransducer :=
  match cs with
  | [] => []
  | (i, s) :: cs' => contactTransducer d t i k s :: contactList d t (k + 1) cs'
  end.

Lemma length_contactsFrom i l : (length (contactsFrom i l) <= length l)%nat.
Proof. revert i. induction l as [|s l IH]; intros i; simpl; [lia|]. specialize (IH (i + 1)). destruct (touching s); simpl; lia. Qed.

Lemma length_contactList d t k cs : length (contactList d t k cs) = length cs.
Proof. revert k. induction cs as [|[i s] cs IH]; intros k; simpl; [done|]. by rewrite IH. Qed.

Lemma contactList_lookup d t k cs n :
  contactList d t k cs !! n = (fun '(i, s) => contactTransducer d t i (k + Z.of_nat n) s) <$> cs !! n.
Proof.
  revert k n. induction cs as [|[i s] cs IH]; intros k n; [done|]. destruct n as [|n]; simpl.
  - by rewrite Z.add_0_r.
  - rewrite IH. replace (k + 1 + Z.of_nat n) with (k + Z.of_nat (S n)) by lia. done.
Qed.

Lemma contactsFrom_spec i l k f :
  (k, f) ∈ contactsFrom i l <-> i <= k /\ l !! Z.to_nat (k - i) = Some f /\ touching f = true.
Proof.
  revert i. induction l as [|s l IH]; intros i; simpl.
  - rewrite elem_of_nil. split; [done|]. by intros (_ & ? & _).
  - assert (Hs : (k, f) ∈ contactsFrom (i + 1) l <->
      i < k /\ (s :: l) !! Z.to_nat (k - i) = Some f /\ touching f = true).
    { rewrite IH. split; (intros (? & H & ?); split; [lia|split; [|done]]).
      - replace (Z.to_nat (k - i)) with (S (Z.to_nat (k - (i + 1)))) by lia. done.
      - replace (Z.to_nat (k - i)) with (S (Z.to_nat (k - (i + 1)))) in H by lia. done. }
    destruct (touching s) eqn:E; [rewrite elem_of_cons|]; rewrite Hs.
    + split.
      * intros [[= -> ->]|(? & ? & ?)]; [|split; [lia|done]]. rewrite Z.sub_diag. done.
      * intros (Hi & Hl & ?). destruct (Z.eq_dec i k) as [->|]; [|right; split; [lia|done]].
        rewrite Z.sub_diag in Hl. injection Hl as ->. by left.
    + split; [intros (? & ? & ?); split; [lia|done]|]. intros (Hi & Hl & ?).
      destruct (Z.eq_dec i k) as [->|]; [|split; [lia|done]].
      rewrite Z.sub_diag in Hl. injection Hl as ->. congruence.
Qed.

Lemma fill_spec d t l i k ts :
  (k + length l <= length ts)%nat ->
  fillTransducers d t l i (Z.of_nat k) ts =
  Some (take k ts ++ contactList d t (Z.of_nat k) (contactsFrom i l) ++
          drop (k + length (contactsFrom i l)) ts,
        Z.of_nat (k + length (contactsFrom i l))).
Proof.
  revert i k ts. induction l as [|s l IH]; intros i k ts Hk; simpl in *.
  - rewrite Nat.add_0_r, take_drop. done.
  - destruct (touching s); simpl; [|apply IH; lia].
    rewrite arr_set_Some by lia. cbn [mbind option_bind]. rewrite Nat2Z.id.
    replace (Z.of_nat k + 1) with (Z.of_nat (S k)) by lia. rewrite IH by (rewrite length_insert; lia).
    rewrite Nat.add_succ_r. f_equal. f_equal.
    rewrite (take_S_r _ _ (contactTransducer d t i (Z.of_nat k) s))
      by (apply list_lookup_insert_eq; lia).
    rewrite take_insert_ge, drop_insert_lt by lia. by rewrite <- app_assoc.
Qed.

(** ** The thumb *)

Definition tr_y (t : VoodooInputTransducer) : Z := tc_y (tr_current t).

Lemma findThumbs_new l i m nw od :
  let r := (findThumbs l i m nw od).1 in
  (r = nw /\ Forall (fun t => tr_y t <= m) l) \/
  (exists k t, l !! k = Some t /\ r = i + Z.of_nat k /\ m < tr_y t /\ Forall (fun t' => tr_y t' <= tr_y t) l).
Proof.
  cbn zeta. revert i m nw od. induction l as [|t l IH]; intros i m nw od; simpl; [by left|].
  unfold tr_y in *. destruct (Z.ltb_spec m (tc_y (tr_current t))) as [Hlt|Hge].
  - right. destruct (IH (i + 1) (tc_y (tr_current t)) i
      (if bool_decide (tr_fingerType t = kMT2FingerTypeThumb) then i else od))
      as [[-> H]|(k & t' & Hk & -> & Hm & H)].
    + exists 0%nat, t. rewrite Z.add_0_r. split_and!; [done|done|done|]. by constructor.
    + exists (S k), t'. split_and!; [done|lia|lia|]. constructor; [lia|done].
  - destruct (IH (i + 1) m nw
      (if bool_decide (tr_fingerType t = kMT2FingerTypeThumb) then i else od))
      as [[-> H]|(k & t' & Hk & -> & Hm & H)].
    + left. split; [done|]. by constructor.
    + right. exists (S k), t'. split_and!; [done|lia|lia|]. constructor; [lia|done].
Qed.

(** The lowest of some contacts. *)
Definition lowest (l : list VoodooInputTransducer) : Z := (findThumbs l 0 0 0 0).1.

(** With no negative height the contact found is the lowest indeed. *)
Lemma lowest_spec l :
  l <> [] -> Forall (fun t => 0 <= tr_y t) l ->
  exists t, l !! Z.to_nat (lowest l) = Some t /\ 0 <= lowest l < Z.of_nat (length l) /\
    Forall (fun t' => tr_y t' <= tr_y t) l.
Proof.
  intros Hne Hl. unfold lowest.
  destruct (findThumbs_new l 0 0 0 0) as [[-> H]|(k & t & Hk & -> & _ & H)].
  - destruct l as [|t l]; [done|]. exists t. split; [done|]. simpl. split; [lia|].
    apply Forall_inv in Hl. eapply Forall_impl; [exact H|]. simpl. intros. lia.
  - exists t. rewrite Z.add_0_l, Nat2Z.id. apply lookup_lt_Some in Hk as ?. split; [done|]. split; [lia|done].
Qed.

Fixpoint lastThumb (l : list VoodooInputTransducer) (i od : Z) : Z :=
  match l with
  | [] => od
  | t :: l' => lastThumb l' (i + 1) (if bool_decide (tr_fingerType t = kMT2FingerTypeThumb) then i else od)
  end.

Lemma findThumbs_old l i m nw od : (findThumbs l i m nw od).2 = lastThumb l i od.
Proof.
  revert i m nw od. induction l as [|t l IH]; intros i m nw od; simpl; [done|].
  destruct (_ <? _); apply IH.
Qed.

(** The type each contact ends with: its own by position, but with four or more
    contacts the thumb is the lowest, which exchanges its type. *)
Definition finalType (n low k : Z) : MT2FingerType :=
  if n <? 4 then fingerTypeForIndex k
  else if k =? low then kMT2FingerTypeThumb
  else if k =? 3 then fingerTypeForIndex low
  else fingerTypeForIndex k.

Definition retype (n low k : Z) (t : VoodooInputTransducer) : VoodooInputTransducer :=
  {| t with tr_fingerType := finalType n low k |}.

Lemma contactList_types d t n cs k c :
  contactList d t n cs !! k = Some c -> tr_fingerType c = fingerTypeForIndex (n + Z.of_nat k).
Proof.
  rewrite contactList_lookup. intros H. destruct (cs !! k) as [[i s]|]; [|done].
  by injection H as <-.
Qed.

(** The exchange on the contacts alone. *)
Definition swapAt (low : Z) (cl : list VoodooInputTransducer) : list VoodooInputTransducer :=
  imap (fun k t => retype (Z.of_nat (length cl)) low (Z.of_nat k) t) cl.

(** The program of [assignThumb] once the two indices are known. *)
Definition exchange (newThumb oldThumb : Z) (ts : list VoodooInputTransducer)
  : option (list VoodooInputTransducer) :=
  new ← arr_get ts newThumb;
  old ← arr_get ts oldThumb;
  ts ← arr_set ts oldThumb {| old with tr_fingerType := tr_fingerType new |};
  new ← arr_get ts newThumb;
  arr_set ts newThumb {| new with tr_fingerType := kMT2FingerTypeThumb |}.

Lemma assignThumb_exchange count ts :
  assignThumb count ts =
  let r := findThumbs (take (Z.to_nat count) ts) 0 0 0 0 in exchange r.1 r.2 ts.
Proof. unfold assignThumb. by destruct (findThumbs _ 0 0 0 0). Qed.

Lemma arr_set_app {T} (l rest : list T) i x :
  0 <= i < Z.of_nat (length l) -> arr_set (l ++ rest) i x = Some (<[Z.to_nat i := x]> l ++ rest).
Proof.
  intros Hi. rewrite arr_set_Some by (rewrite length_app; lia). by rewrite insert_app_l by lia.
Qed.

Lemma arr_get_app {T} (l rest : list T) i :
  0 <= i < Z.of_nat (length l) -> arr_get (l ++ rest) i = arr_get l i.
Proof.
  intros Hi. unfold arr_get. rewrite (proj2 (Z.ltb_ge i 0)) by lia. by rewrite lookup_app_l by lia.
Qed.

Lemma exchange_app nw od l rest :
  0 <= nw < Z.of_nat (length l) -> 0 <= od < Z.of_nat (length l) ->
  exchange nw od (l ++ rest) = l' ← exchange nw od l; Some (l' ++ rest).
Proof.
  intros Hn Ho. unfold exchange. rewrite !arr_get_app by done.
  destruct (arr_get_Some l nw Hn) as (tn & -> & _), (arr_get_Some l od Ho) as (to & -> & _).
  cbn [mbind option_bind]. rewrite arr_set_app, arr_set_Some by done. cbn [mbind option_bind].
  rewrite arr_get_app by (by rewrite length_insert).
  destruct (arr_get_Some (<[Z.to_nat od := {| to with tr_fingerType := tr_fingerType tn |}]> l) nw)
    as (tn' & -> & _); [by rewrite length_insert|]. cbn [mbind option_bind].
  rewrite arr_set_app, arr_set_Some by (by rewrite length_insert). done.
Qed.

Lemma exchange_contacts d t cs nw :
  4 <= Z.of_nat (length cs) <= FOC_MAX_FINGERS -> 0 <= nw < Z.of_nat (length cs) ->
  exchange nw 3 (contactList d t 0 cs) = Some (swapAt nw (contactList d t 0 cs)).
Proof.
  unfold FOC_MAX_FINGERS. intros Hn Hw.
  destruct cs as [|[] [|[] [|[] [|[] [|[] cs]]]]]; simpl in Hn, Hw; try lia.
  - assert (nw = 0 \/ nw = 1 \/ nw = 2 \/ nw = 3) as C by lia.
    destruct C as [->|[->|[->| ->]]]; reflexivity.
  - destruct cs; simpl in *; [|lia].
    assert (nw = 0 \/ nw = 1 \/ nw = 2 \/ nw = 3 \/ nw = 4) as C by lia.
    destruct C as [->|[->|[->|[->| ->]]]]; reflexivity.
Qed.

Lemma lastThumb_contacts d t cs :
  4 <= Z.of_nat (length cs) <= FOC_MAX_FINGERS -> lastThumb (contactList d t 0 cs) 0 0 = 3.
Proof.
  unfold FOC_MAX_FINGERS. intros Hn.
  destruct cs as [|[] [|[] [|[] [|[] [|[] cs]]]]]; simpl in *; try lia; try reflexivity.
  destruct cs; simpl in *; [reflexivity|lia].
Qed.

Lemma assignThumb_spec d t cs rest :
  4 <= Z.of_nat (length cs) <= FOC_MAX_FINGERS ->
  Forall (fun c => 0 <= tr_y c) (contactList d t 0 cs) ->
  assignThumb (Z.of_nat (length cs)) (contactList d t 0 cs ++ rest) =
  Some (swapAt (lowest (contactList d t 0 cs)) (contactList d t 0 cs) ++ rest).
Proof.
  intros Hn Hy. pose proof (length_contactList d t 0 cs) as Hl.
  destruct (lowest_spec (contactList d t 0 cs)) as (tl & _ & Hlow & _); [|done|].
  { intros E. rewrite E in Hl. simpl in Hl. lia. }
  rewrite assignThumb_exchange, Nat2Z.id, <- Hl, take_app_length. cbn zeta.
  rewrite findThumbs_old, lastThumb_contacts by done.
  change (findThumbs (contactList d t 0 cs) 0 0 0 0).1 with (lowest (contactList d t 0 cs)).
  rewrite exchange_app by (unfold FOC_MAX_FINGERS in *; lia). by rewrite exchange_contacts by lia.
Qed.

(** ** The report *)

(** The slots of a report. *)
Definition reportSlots (d : ApplePS2FocalTech) (t : Z) : list VoodooInputTransducer :=
  let cl := contactList d t 0 (contacts d) in
  swapAt (lowest cl) cl ++
  map clearTransducer (drop (length (contacts d)) (ev_transducers (_inputEvent d))).

Lemma swapAt_id low d t cs :
  Z.of_nat (length cs) < 4 -> swapAt low (contactList d t 0 cs) = contactList d t 0 cs.
Proof.
  intros Hn. destruct cs as [|[] [|[] [|[] cs]]]; simpl in Hn; try reflexivity.
  destruct cs; simpl in Hn; [reflexivity|lia].
Qed.

Lemma length_swapAt low cl : length (swapAt low cl) = length cl.
Proof. apply length_imap. Qed.

(** A contact has no negative height. *)
Definition heights_ok (d : ApplePS2FocalTech) : Prop :=
  forall i f, (i, f) ∈ contacts d -> 0 <= tc_y (current f).

Lemma tr_y_contact d t i k s : tr_y (contactTransducer d t i k s) = tc_y (current s).
Proof. unfold tr_y, contactTransducer. simpl. by destruct (_ && _). Qed.

Lemma contact_heights d t k cs :
  (forall i f, (i, f) ∈ cs -> 0 <= tc_y (current f)) ->
  Forall (fun c => 0 <= tr_y c) (contactList d t k cs).
Proof.
  revert k. induction cs as [|[i s] cs IH]; intros k H; simpl; constructor.
  - rewrite tr_y_contact. apply (H i). by left.
  - apply IH. intros i' f' ?. apply (H i'). by right.
Qed.

Lemma touchTransducers_spec d t :
  Z.of_nat (length (_finger d)) = FOC_MAX_FINGERS ->
  FOC_MAX_FINGERS <= Z.of_nat (length (ev_transducers (_inputEvent d))) ->
  heights_ok d ->
  touchTransducers d t = Some (reportSlots d t, Z.of_nat (length (contacts d))) /\
  length (reportSlots d t) = length (ev_transducers (_inputEvent d)).
Proof.
  intros Hf Hm Hh. pose proof (length_contactsFrom 0 (_finger d)) as Hc. fold (contacts d) in Hc.
  unfold FOC_MAX_FINGERS in Hf, Hm. split; last first.
  { unfold reportSlots. rewrite length_app, length_swapAt, length_contactList, length_map, length_drop. lia. }
  unfold touchTransducers. pose proof (fill_spec d t (_finger d) 0 0 (ev_transducers (_inputEvent d))) as E.
  change (Z.of_nat 0) with 0 in E. rewrite E by lia. cbn [mbind option_bind]. simpl take. simpl plus.
  fold (contacts d). rewrite app_nil_l.
  assert (E1 : (if 4 <=? Z.of_nat (length (contacts d))
                then assignThumb (Z.of_nat (length (contacts d)))
                  (contactList d t 0 (contacts d) ++ drop (length (contacts d)) (ev_transducers (_inputEvent d)))
                else Some (contactList d t 0 (contacts d) ++ drop (length (contacts d)) (ev_transducers (_inputEvent d))))
    = Some (swapAt (lowest (contactList d t 0 (contacts d))) (contactList d t 0 (contacts d)) ++
            drop (length (contacts d)) (ev_transducers (_inputEvent d)))).
  { destruct (Z.leb_spec 4 (Z.of_nat (length (contacts d)))).
    - apply assignThumb_spec; [unfold FOC_MAX_FINGERS; lia|]. by apply contact_heights.
    - by rewrite swapAt_id by lia. }
  rewrite E1. cbn [mbind option_bind]. unfold reportSlots. rewrite Nat2Z.id.
  assert (El : length (contacts d) =
    length (swapAt (lowest (contactList d t 0 (contacts d))) (contactList d t 0 (contacts d))))
    by (by rewrite length_swapAt, length_contactList).
  by rewrite take_app_length', drop_app_length' by done.
Qed.

(** The finger types of a report are all different. *)
Lemma types_NoDup low d t cs :
  Z.of_nat (length cs) <= FOC_MAX_FINGERS ->
  (4 <= Z.of_nat (length cs) -> 0 <= low < Z.of_nat (length cs)) ->
  NoDup (map tr_fingerType (swapAt low (contactList d t 0 cs))).
Proof.
  unfold FOC_MAX_FINGERS. intros Hn Hw.
  destruct cs as [|[] [|[] [|[] [|[] [|[] cs]]]]]; simpl length in *.
  1-4: apply (bool_decide_unpack _); reflexivity.
  - assert (low = 0 \/ low = 1 \/ low = 2 \/ low = 3) as C by lia.
    destruct C as [->|[->|[->| ->]]]; apply (bool_decide_unpack _); reflexivity.
  - destruct cs; simpl in *; [|lia].
    assert (low = 0 \/ low = 1 \/ low = 2 \/ low = 3 \/ low = 4) as C by lia.
    destruct C as [->|[->|[->|[->| ->]]]]; apply (bool_decide_unpack _); reflexivity.
Qed.

Lemma lowest_range d t cs :
  4 <= Z.of_nat (length cs) -> Forall (fun c => 0 <= tr_y c) (contactList d t 0 cs) ->
  exists c, contactList d t 0 cs !! Z.to_nat (lowest (contactList d t 0 cs)) = Some c /\
    0 <= lowest (contactList d t 0 cs) < Z.of_nat (length cs) /\
    Forall (fun c' => tr_y c' <= tr_y c) (contactList d t 0 cs).
Proof.
  intros Hn Hy. rewrite <- (length_contactList d t 0 cs). apply lowest_spec; [|done].
  intros E. pose proof (length_contactList d t 0 cs) as Hl. rewrite E in Hl. simpl in Hl. lia.
Qed.

Lemma reportSlots_take d t :
  take (length (contacts d)) (reportSlots d t) =
  swapAt (lowest (contactList d t 0 (contacts d))) (contactList d t 0 (contacts d)).
Proof.
  unfold reportSlots. apply take_app_length'. by rewrite length_swapAt, length_contactList.
Qed.

Lemma swapAt_lookup low cl k c :
  cl !! k = Some c -> swapAt low cl !! k = Some (retype (Z.of_nat (length cl)) low (Z.of_nat k) c).
Proof. intros E. unfold swapAt. by rewrite list_lookup_imap, E. Qed.

(** The slot of a contact. *)
Definition contact_slot (d : ApplePS2FocalTech) (t : Z) (k : nat) (i : Z) (f : FocalTechVirtualFinger)
  : VoodooInputTransducer :=
  retype (Z.of_nat (length (contacts d))) (lowest (contactList d t 0 (contacts d))) (Z.of_nat k)
    (contactTransducer d t i (Z.of_nat k) f).

Lemma reportSlots_contact d t k i f :
  contacts d !! k = Some (i, f) -> reportSlots d t !! k = Some (contact_slot d t k i f).
Proof.
  intros E. apply lookup_lt_Some in E as Hk.
  rewrite <- (lookup_take_lt _ (length (contacts d))) by done. rewrite reportSlots_take.
  unfold contact_slot. rewrite <- (length_contactList d t 0 (contacts d)).
  apply swapAt_lookup. by rewrite contactList_lookup, E.
Qed.

Lemma reportSlots_unused d t k c :
  (length (contacts d) <= k)%nat -> reportSlots d t !! k = Some c ->
  exists old, ev_transducers (_inputEvent d) !! k = Some old /\ c = clearTransducer old.
Proof.
  intros Hk. unfold reportSlots.
  rewrite lookup_app_r by (by rewrite length_swapAt, length_contactList).
  rewrite length_swapAt, length_contactList. rewrite list_lookup_fmap, lookup_drop.
  replace (length (contacts d) + (k - length (contacts d)))%nat with k by lia.
  destruct (ev_transducers (_inputEvent d) !! k) as [old|]; [|done].
  intros [= <-]. by exists old.
Qed.

Lemma reportSlots_thumb d t :
  4 <= Z.of_nat (length (contacts d)) -> heights_ok d ->
  exists k i f, contacts d !! k = Some (i, f) /\
    tr_fingerType (contact_slot d t k i f) = kMT2FingerTypeThumb /\
    forall i' f', (i', f') ∈ contacts d -> tc_y (current f') <= tc_y (current f).
Proof.
  intros Hn Hh. destruct (lowest_range d t (contacts d) Hn) as (c & Hc & Hr & Hmax).
  { by apply contact_heights. }
  set (k := Z.to_nat (lowest (contactList d t 0 (contacts d)))) in *.
  pose proof Hc as E. rewrite contactList_lookup in E.
  destruct (contacts d !! k) as [[i f]|] eqn:Ek; [|done]. injection E as <-.
  exists k, i, f. split; [done|]. split.
  - unfold contact_slot, retype, finalType. cbn [tr_fingerType].
    rewrite (proj2 (Z.ltb_ge _ _)) by lia. unfold k. rewrite Z2Nat.id by lia. by rewrite Z.eqb_refl.
  - intros i' f' (k' & Hk')%list_elem_of_lookup.
    rewrite Forall_lookup in Hmax. specialize (Hmax k'). rewrite contactList_lookup, Hk' in Hmax.
    specialize (Hmax _ eq_refl). by rewrite !tr_y_contact in Hmax.
Qed.

(** C7: Cn: what VoodooInput is told about the fingers.  For every state of the driver's
    fingers the event's slots are filled without leaving the array: the contacts come
    first, one per touching finger in order, each valid and active, carrying the
    finger's index as its secondary identity, its previous position and its current
    one (with full pressure while that finger holds a force click); every other slot
    is marked invalid and inactive; no two contacts have the same finger type; and
    with four contacts or more one is the thumb, a contact that no other is below. *)
Theorem reported_contacts d t :
  Z.of_nat (length (_finger d)) = FOC_MAX_FINGERS ->
  FOC_MAX_FINGERS <= Z.of_nat (length (ev_transducers (_inputEvent d))) ->
  heights_ok d ->
  exists ts, touchTransducers d t = Some (ts, Z.of_nat (length (contacts d))) /\
    length ts = length (ev_transducers (_inputEvent d)) /\
    (forall k i f, contacts d !! k = Some (i, f) -> exists c, ts !! k = Some c /\
       tr_secondaryId c = i /\ _finger d !! Z.to_nat i = Some f /\
       tr_isValid c = true /\ tr_isTransducerActive c = true /\ tr_timestamp c = t /\
       tr_previous c = previous f /\
       tr_current c = (if _forceActive d && (i =? _forceFinger d)
                       then {| (current f) with tc_pressure := 255; tc_width := 10 |} else current f)) /\
    (forall k c, (length (contacts d) <= k)%nat -> ts !! k = Some c ->
       tr_isValid c = false /\ tr_isTransducerActive c = false) /\
    NoDup (map tr_fingerType (take (length (contacts d)) ts)) /\
    (4 <= Z.of_nat (length (contacts d)) -> exists k i f c,
       contacts d !! k = Some (i, f) /\ ts !! k = Some c /\ tr_fingerType c = kMT2FingerTypeThumb /\
       forall i' f', (i', f') ∈ contacts d -> tc_y (current f') <= tc_y (current f)).
Proof.
  intros Hf Hm Hh. destruct (touchTransducers_spec d t Hf Hm Hh) as [E El].
  exists (reportSlots d t). split; [done|]. split; [done|]. split_and!.
  - intros k i f Hk. eexists. split; [by apply reportSlots_contact|].
    apply list_elem_of_lookup_2, contactsFrom_spec in Hk as (_ & Hi & _).
    rewrite Z.sub_0_r in Hi. by split_and!.
  - intros k c Hk Hc. by destruct (reportSlots_unused d t k c Hk Hc) as (old & _ & ->).
  - rewrite reportSlots_take. pose proof (length_contactsFrom 0 (_finger d)) as Hc.
    fold (contacts d) in Hc. apply types_NoDup; [lia|]. intros Hn.
    destruct (lowest_range d t (contacts d) Hn) as (c & _ & Hr & _); [by apply contact_heights|done].
  - intros Hn. destruct (reportSlots_thumb d t Hn Hh) as (k & i & f & Hk & Ht & Hmax).
    exists k, i, f, (contact_slot d t k i f). split; [done|]. split; [by apply reportSlots_contact|]. done.
Qed.

Lemma reported_contacts_witness :
  let finger y := mkVirtual noCoordinates (mkCoordinates 10 y 0 3) true in
  let d := {| (newFocalTech 10) with _finger := [finger 40; finger 900; noVirtual; finger 70; finger 5] |} in
  heights_ok d /\
  exists ts, touchTransducers d 7 = Some (ts, 4) /\ length ts = 10%nat /\
    NoDup (map tr_fingerType (take 4 ts)) /\ tr_fingerType <$> ts !! 1%nat = Some kMT2FingerTypeThumb.
Proof.
  intros finger d.
  assert (Hh : heights_ok d).
  { intros i f Hin. unfold contacts in Hin. simpl in Hin. rewrite !elem_of_cons, elem_of_nil in Hin.
    repeat destruct Hin as [[= -> ->]|Hin]; simpl; lia || done. }
  split; [exact Hh|].
  destruct (reported_contacts d 7) as (ts & E & Hl & _ & _ & Hn & _); [reflexivity|done|exact Hh|].
  exists ts. split; [exact E|]. split; [exact Hl|]. split; [exact Hn|].
  vm_compute in E. injection E as <-. reflexivity.
Defined.
