(* ===== verification/FocalTechInv.v ===== *)
(** * The invariant of the FocalTech driver

    What holds of the driver object between any two of its entry points, and the
    pure steps of [reportState] against it. *)
From S2P Require Import Prelude PS2Types RingBuffer RingSpec Touch FocalTech.
From S2P Require Import FocalTechDecode FocalTechReport.

(** ** Clicks and the force timer *)

(** A force click is only ever measured or active during a left click, one excludes
    the other, and the timer runs only while a click is measured. *)
Record force_ok (d : ApplePS2FocalTech) : Prop := {
  fc_released : _clickWasPressed d = false ->
    _forceEligible d = false /\ _forceActive d = false /\ _clickRight d = false;
  fc_right : _clickRight d = true -> _forceEligible d = false /\ _forceActive d = false;
  fc_excl : _forceEligible d = true -> _forceActive d = false;
  fc_finger : _forceEligible d = true \/ _forceActive d = true -> is_finger (_forceFinger d);
  fc_timer : forall ms, _forceTimer d = Some (Some ms) -> _forceEligible d = true }.

(** The members the click logic may change. *)
Definition forget_click (d : ApplePS2FocalTech) : ApplePS2FocalTech :=
  {| d with _forceTimer := None; _clickWasPressed := false; _clickRight := false;
            _forceEligible := false; _forceActive := false; _forceFinger := 0;
            _forceStartX := 0; _forceStartY := 0 |}.

Definition click_frame (d d' : ApplePS2FocalTech) : Prop := forget_click d' = forget_click d.

Lemma click_frame_hardware d d' : click_frame d d' -> _hardware d' = _hardware d.
Proof. intros H. exact (f_equal _hardware H). Qed.

Lemma cancelTimeout_frame d : click_frame d (cancelTimeout d).
Proof. unfold cancelTimeout. by destruct (_forceTimer d). Qed.

Lemma cancelTimeout_timer d ms : _forceTimer (cancelTimeout d) <> Some (Some ms).
Proof. unfold cancelTimeout. by destruct (_forceTimer d) eqn:E; simpl; rewrite ?E. Qed.

(** Only the timer differs after [cancelTimeout]. *)
Lemma cancelTimeout_fields d :
  _clickWasPressed (cancelTimeout d) = _clickWasPressed d /\
  _clickRight (cancelTimeout d) = _clickRight d /\
  _forceEligible (cancelTimeout d) = _forceEligible d /\
  _forceActive (cancelTimeout d) = _forceActive d /\
  _forceFinger (cancelTimeout d) = _forceFinger d /\
  _hardware (cancelTimeout d) = _hardware d.
Proof. unfold cancelTimeout. by destruct (_forceTimer d). Qed.

(** ** The finger that clicks *)

(** Where a raw finger is on the pad. *)
Definition padX (xMax : Z) (s : FocalTechFingerState) : Z := clampTo xMax (fx s).
Definition padY (yMax : Z) (s : FocalTechFingerState) : Z := yMax - clampTo yMax (fy s).

Definition target_of (xMax yMax : Z) (i : Z) (s : FocalTechFingerState) : Z * Z * Z :=
  (padX xMax s, padY yMax s, i).

(** [t] is a reporting finger of [l] (whose indices start at [i]) and none is lower. *)
Lemma clickTarget_spec xMax yMax l i found :
  let r := clickTarget xMax yMax l i found in
  (r = found /\ (found = None -> Forall (fun s => reports s = false) l) /\
   (forall x y k, found = Some (x, y, k) -> Forall (fun s => reports s = true -> padY yMax s <= y) l)) \/
  (exists k s, l !! k = Some s /\ reports s = true /\ r = Some (target_of xMax yMax (i + Z.of_nat k) s) /\
   (forall x y j, found = Some (x, y, j) -> y < padY yMax s) /\
   Forall (fun s' => reports s' = true -> padY yMax s' <= padY yMax s) l).
Proof.
  cbn zeta. revert i found. induction l as [|s l IH]; intros i found; simpl.
  { left. split; [done|]. split; [constructor|constructor]. }
  destruct (reports s) eqn:Er; simpl.
  - fold (padX xMax s) (padY yMax s). fold (target_of xMax yMax i s).
    assert (Hgt : (match found with
              | Some (_, clickY, _) => if clickY <? padY yMax s then Some (target_of xMax yMax i s) else found
              | None => Some (target_of xMax yMax i s) end) = Some (target_of xMax yMax i s) /\
              (forall x y j, found = Some (x, y, j) -> y < padY yMax s) \/
              exists x y k, found = Some (x, y, k) /\ padY yMax s <= y /\
              (match found with
              | Some (_, clickY, _) => if clickY <? padY yMax s then Some (target_of xMax yMax i s) else found
              | None => Some (target_of xMax yMax i s) end) = found).
    { destruct found as [[[x y] k]|]; [|by left].
      destruct (Z.ltb_spec y (padY yMax s)); [left|right; by exists x, y, k].
      split; [done|]. intros ? ? ? [= <- <- <-]. done. }
    destruct Hgt as [[-> Hlt]|(x & y & k & Hf & Hle & ->)].
    + right. destruct (IH (i + 1) (Some (target_of xMax yMax i s))) as [(-> & _ & H)|(k & s' & Hk & Hr & -> & Hm & H)].
      * exists 0%nat, s. rewrite Z.add_0_r. split_and!; [done|done|done|done|].
        constructor; [lia|]. by eapply H.
      * exists (S k), s'. specialize (Hm _ _ _ eq_refl). split_and!; [done|done| | |].
        -- do 2 f_equal. lia.
        -- intros x y j Hf. specialize (Hlt x y j Hf). lia.
        -- constructor; [lia|done].
    + destruct (IH (i + 1) found) as [(-> & Hn & H)|(k' & s' & Hk & Hr & -> & Hm & H)].
      * left. split; [done|]. rewrite Hf. split; [done|]. intros ? ? ? [= <- <- <-].
        constructor; [done|]. by eapply H.
      * right. exists (S k'), s'. split_and!; [done|done| |done|].
        -- do 2 f_equal. lia.
        -- constructor; [|done]. specialize (Hm x y k Hf). lia.
  - destruct (IH (i + 1) found) as [(-> & Hn & H)|(k & s' & Hk & Hr & -> & Hm & H)].
    + left. split; [done|]. split; [by constructor; auto|]. intros x y k Hf. constructor; [congruence|]. by eapply H.
    + right. exists (S k), s'. split_and!; [done|done| |done|].
      * do 2 f_equal. lia.
      * constructor; [congruence|done].
Qed.

(** The click's target among the five fingers. *)
Definition target (d : ApplePS2FocalTech) : option (Z * Z * Z) :=
  clickTarget (_xMax d) (_yMax d) (fingers (_hardware d)) 0 None.

Lemma target_finger d x y k :
  hardware_ok (_hardware d) -> target d = Some (x, y, k) ->
  is_finger k /\ exists s, arr_get (fingers (_hardware d)) k = Some s /\ reports s = true /\
    x = padX (_xMax d) s /\ y = padY (_yMax d) s /\
    forall s', s' ∈ fingers (_hardware d) -> reports s' = true -> padY (_yMax d) s' <= y.
Proof.
  intros Hh. unfold target.
  destruct (clickTarget_spec (_xMax d) (_yMax d) (fingers (_hardware d)) 0 None)
    as [(-> & _)|(n & s & Hn & Hr & -> & _ & H)]; [done|].
  intros [= <- <- <-]. rewrite Z.add_0_l. apply lookup_lt_Some in Hn as Hlt.
  split; [unfold is_finger, hardware_ok in *; lia|]. exists s. split; [by apply arr_get_nth|].
  split_and!; [done..|]. intros s' Hin. rewrite Forall_forall in H. by apply H.
Qed.

Lemma target_none d :
  target d = None -> forall s, s ∈ fingers (_hardware d) -> reports s = false.
Proof.
  unfold target. destruct (clickTarget_spec (_xMax d) (_yMax d) (fingers (_hardware d)) 0 None)
    as [(_ & H & _)|(n & s & _ & _ & -> & _)]; [|done].
  intros _ s Hin. specialize (H eq_refl). rewrite Forall_forall in H. by apply H.
Qed.

(** The right button's region. *)
Definition right_region (d : ApplePS2FocalTech) (x y : Z) : bool :=
  (_yMax d * 70 / 100 <=? y) && (_xMax d / 2 <=? x).

Definition right_click (d : ApplePS2FocalTech) : bool :=
  match target d with Some (x, y, _) => right_region d x y | None => false end.

(** What a press does. *)
Definition press_result (d : ApplePS2FocalTech) : ApplePS2FocalTech :=
  let d0 := {| (cancelTimeout d) with _clickRight := right_click d; _forceEligible := false;
               _forceActive := false; _forceFinger := -1; _clickWasPressed := true |} in
  match target d, _forceTimer d with
  | Some (_, _, k), Some _ =>
    if right_click d then d0 else
    match arr_get (fingers (_hardware d)) k with
    | Some raw => {| d0 with _forceFinger := k; _forceStartX := fx raw; _forceStartY := fy raw;
                       _forceEligible := true; _forceTimer := Some (Some kForceHoldMS) |}
    | None => d0
    end
  | _, _ => d0
  end.

Lemma clickEdge_press d :
  hardware_ok (_hardware d) -> pressed (_hardware d) = true -> _clickWasPressed d = false ->
  clickEdge d = Some (press_result d).
Proof.
  intros Hh Hp Hc. unfold clickEdge. rewrite Hp, Hc. cbn [andb negb]. cbn zeta. fold (target d).
  change (match target d with
          | Some (clickX, clickY, _) => (_yMax d * 70 / 100 <=? clickY) && (_xMax d / 2 <=? clickX)
          | None => false end) with (right_click d).
  unfold press_result, cancelTimeout. cbn [_forceTimer].
  destruct (target d) as [[[x y] k]|] eqn:Et; [|destruct (_forceTimer d) eqn:E; cbn; rewrite ?E; done].
  destruct (target_finger d x y k Hh Et) as (_ & s & Hs & _).
  destruct (_forceTimer d) as [t|] eqn:E; cbn; [|by rewrite ?E].
  destruct (right_click d); cbn; [done|]. by rewrite Hs.
Qed.

Definition release_result (d : ApplePS2FocalTech) : ApplePS2FocalTech :=
  {| (cancelTimeout d) with _forceEligible := false; _forceActive := false; _forceFinger := -1;
     _clickWasPressed := false; _clickRight := false |}.

Lemma clickEdge_release d : pressed (_hardware d) = false -> clickEdge d = Some (release_result d).
Proof. intros Hp. unfold clickEdge. by rewrite Hp. Qed.

Lemma clickEdge_hold d :
  pressed (_hardware d) = true -> _clickWasPressed d = true -> clickEdge d = Some d.
Proof. intros Hp Hc. unfold clickEdge. by rewrite Hp, Hc. Qed.

Lemma press_result_ok d :
  hardware_ok (_hardware d) ->
  force_ok (press_result d) /\ click_frame d (press_result d) /\ _clickWasPressed (press_result d) = true.
Proof.
  intros Hh. unfold press_result, click_frame, cancelTimeout.
  destruct (target d) as [[[x y] k]|] eqn:Et;
    [destruct (target_finger d x y k Hh Et) as (Hk & s & -> & _)|];
    destruct (_forceTimer d) as [t|] eqn:E, (right_click d) eqn:Er; simpl;
    (split; [split; simpl; rewrite ?E; intuition congruence|done]).
Qed.

Lemma release_result_ok d :
  force_ok (release_result d) /\ click_frame d (release_result d) /\
  _clickWasPressed (release_result d) = false.
Proof.
  unfold release_result, click_frame, cancelTimeout.
  destruct (_forceTimer d) as [t|] eqn:E; simpl; (split; [|done]); split; simpl; rewrite ?E; intuition congruence.
Qed.

(** [force_ok] and the frame of the three clicks steps together. *)
Lemma clickEdge_spec d :
  hardware_ok (_hardware d) -> force_ok d ->
  exists d', clickEdge d = Some d' /\ force_ok d' /\ click_frame d d' /\
    _clickWasPressed d' = pressed (_hardware d).
Proof.
  intros Hh Hf. destruct (pressed (_hardware d)) eqn:Hp, (_clickWasPressed d) eqn:Hc.
  - rewrite clickEdge_hold by done. by exists d.
  - rewrite clickEdge_press by done. destruct (press_result_ok d Hh) as (? & ? & ?). eauto.
  - rewrite clickEdge_release by done. destruct (release_result_ok d) as (? & ? & ?). eauto.
  - rewrite clickEdge_release by done. destruct (release_result_ok d) as (? & ? & ?). eauto.
Qed.

Lemma force_ok_cancel d : force_ok d -> force_ok {| (cancelTimeout d) with _forceEligible := false |}.
Proof.
  intros [H1 H2 H3 H4 H5]. unfold cancelTimeout.
  destruct (_forceTimer d) as [t|] eqn:E; split; simpl; rewrite ?E; intuition congruence.
Qed.

Lemma cancelTimeout_eligible d :
  cancelTimeout {| d with _forceEligible := false |} = {| (cancelTimeout d) with _forceEligible := false |}.
Proof. unfold cancelTimeout. simpl. destruct (_forceTimer d) eqn:E; cbn; by rewrite ?E. Qed.

Lemma forceCheck_spec d :
  hardware_ok (_hardware d) -> force_ok d ->
  exists d', forceCheck d = Some d' /\ force_ok d' /\ click_frame d d' /\
    _clickWasPressed d' = _clickWasPressed d.
Proof.
  intros Hh Hf. unfold forceCheck. destruct (_ && _) eqn:E; [|by exists d].
  destruct (arr_get_Some (fingers (_hardware d)) (_forceFinger d)) as (raw & -> & _).
  { rewrite Hh. lia. }
  cbn [mbind option_bind]. destruct (_ || _); [|by exists d].
  eexists. split; [done|]. rewrite cancelTimeout_eligible. split; [by apply force_ok_cancel|].
  unfold click_frame, cancelTimeout. by destruct (_forceTimer d).
Qed.

(** ** Positions *)

Definition position_ok (xMax yMax : Z) (c : TouchCoordinates) : Prop :=
  0 <= tc_x c <= xMax /\ 0 <= tc_y c <= yMax.

(** A touching finger is on the pad, and was when it was last reported. *)
Definition positions_ok (d : ApplePS2FocalTech) : Prop :=
  Forall (fun f => touching f = true ->
    position_ok (_xMax d) (_yMax d) (current f) /\ position_ok (_xMax d) (_yMax d) (previous f)) (_finger d).

Lemma noFingers_positions d : _finger d = noFingers -> positions_ok d.
Proof. unfold positions_ok. intros ->. by repeat constructor. Qed.

Lemma clampTo_range max z : 0 <= max -> 0 <= clampTo max z <= max.
Proof. intros. unfold clampTo. repeat case_match; lia. Qed.

Lemma clampTo_id max z : 0 <= z <= max -> clampTo max z = z.
Proof. intros. unfold clampTo. repeat case_match; lia. Qed.

Lemma updateFingers_length d :
  hardware_ok (_hardware d) -> Z.of_nat (length (_finger d)) = FOC_MAX_FINGERS ->
  Z.of_nat (length (_finger (updateFingers d))) = FOC_MAX_FINGERS.
Proof. unfold hardware_ok. intros. unfold updateFingers. simpl. rewrite length_zip_with. lia. Qed.

Lemma updateFinger_position xMax yMax w raw f :
  0 <= xMax -> 0 <= yMax ->
  (touching f = true -> position_ok xMax yMax (current f) /\ position_ok xMax yMax (previous f)) ->
  touching (updateFinger xMax yMax w raw f) = true ->
  position_ok xMax yMax (current (updateFinger xMax yMax w raw f)) /\
  position_ok xMax yMax (previous (updateFinger xMax yMax w raw f)).
Proof.
  intros Hx Hy Hf. unfold updateFinger. destruct (negb (reports raw)); [done|]. simpl. intros _.
  pose proof (clampTo_range xMax (fx raw) Hx). pose proof (clampTo_range yMax (fy raw) Hy).
  destruct (touching f) eqn:E; [destruct (Hf eq_refl) as [? _]; split; [|done]|split];
    unfold position_ok; simpl; lia.
Qed.

Lemma updateFingers_positions d :
  0 <= _xMax d -> 0 <= _yMax d -> positions_ok d -> positions_ok (updateFingers d).
Proof.
  unfold positions_ok. rewrite !Forall_lookup. intros Hx Hy H i f. unfold updateFingers.
  simpl. intros (raw & old & -> & _ & Ho)%lookup_zip_with_Some.
  apply updateFinger_position; [done|done|]. by apply (H i).
Qed.

Lemma positions_heights d : positions_ok d -> heights_ok d.
Proof.
  unfold positions_ok, heights_ok. rewrite Forall_lookup. intros H i f Hin.
  apply contactsFrom_spec in Hin as (_ & Hi & Ht). destruct (H _ _ Hi Ht) as [[_ ?] _]. lia.
Qed.

(** ** The invariant *)

(** What holds even between a packet's decoding and its report. *)
Record foc_base (n : Z) (d : ApplePS2FocalTech) : Prop := {
  fo_port : forall p, _device d = Some p -> 0 <= p < kPS2MuxMaxIdx;
  fo_hardware : hardware_ok (_hardware d);
  fo_finger : Z.of_nat (length (_finger d)) = FOC_MAX_FINGERS;
  fo_size : 0 <= _xMax d /\ 0 <= _yMax d;
  fo_positions : positions_ok d;
  fo_ring : aligned FOC_RING FOC_PACKET_LENGTH (_ringBuffer d);
  fo_bytes : 0 <= _packetByteCount d < FOC_PACKET_LENGTH;
  fo_slots : Z.of_nat (length (ev_transducers (_inputEvent d))) = n;
  fo_force : force_ok d }.

(** ... and what the report restores. *)
Record foc_ok (n : Z) (d : ApplePS2FocalTech) : Prop := {
  fo_base : foc_base n d;
  fo_click : _clickWasPressed d = pressed (_hardware d) }.

Lemma newFocalTech_ok n : 0 <= n -> foc_ok n (newFocalTech n).
Proof.
  intros Hn. split; [split; try done|done].
  - by apply noFingers_positions.
  - simpl. rewrite length_replicate. lia.
  - split; simpl; intuition congruence.
Qed.

Lemma force_ok_reset d : force_ok (resetState d).
Proof.
  unfold resetState, cancelTimeout. simpl.
  destruct (_forceTimer d) eqn:E; split; simpl; rewrite ?E; intuition congruence.
Qed.

Lemma resetState_ok n d : foc_ok n d -> foc_ok n (resetState d).
Proof.
  intros [[H1 H2 H3 H4 H5 H6 H7 H8 H9] H10]. pose proof (force_ok_reset d) as Hr.
  unfold resetState, cancelTimeout in *. simpl in *.
  destruct (_forceTimer d); (split; [|done]); split; simpl; try done;
    try by apply noFingers_positions.
  all: apply aligned_reset; try done; apply (ok_length _ _ (al_ring _ _ _ H6)).
Qed.

Lemma foc_base_click n d d' : foc_base n d -> click_frame d d' -> force_ok d' -> foc_base n d'.
Proof.
  intros [H1 H2 H3 H4 H5 H6 H7 H8 _] E Hf. unfold positions_ok in H5.
  pose proof (f_equal _device E) as E1. pose proof (f_equal _hardware E) as E2.
  pose proof (f_equal _finger E) as E3. pose proof (f_equal _xMax E) as E4.
  pose proof (f_equal _yMax E) as E5. pose proof (f_equal _ringBuffer E) as E6.
  pose proof (f_equal _packetByteCount E) as E7. pose proof (f_equal _inputEvent E) as E8.
  simpl in *. split; unfold positions_ok; rewrite ?E1, ?E2, ?E3, ?E4, ?E5, ?E6, ?E7, ?E8; done.
Qed.

Lemma clickEdge_ok n d :
  foc_base n d -> exists d', clickEdge d = Some d' /\ foc_ok n d' /\ click_frame d d'.
Proof.
  intros Hd. destruct (clickEdge_spec d) as (d' & E & Hf & Hc & Hp); [apply Hd|apply Hd|].
  exists d'. split; [done|]. split; [|done]. split; [by eapply foc_base_click|].
  by rewrite (click_frame_hardware _ _ Hc).
Qed.

Lemma forceCheck_ok n d :
  foc_ok n d -> exists d', forceCheck d = Some d' /\ foc_ok n d' /\ click_frame d d'.
Proof.
  intros [Hb Hc]. destruct (forceCheck_spec d) as (d' & E & Hf & Hfr & Hp); [apply Hb|apply Hb|].
  exists d'. split; [done|]. split; [|done]. split; [by eapply foc_base_click|].
  rewrite (click_frame_hardware _ _ Hfr). congruence.
Qed.

Lemma updateFingers_ok n d : foc_ok n d -> foc_ok n (updateFingers d).
Proof.
  intros [[H1 H2 H3 H4 H5 H6 H7 H8 H9] H10]. split; [|done]. split; try done.
  - by apply updateFingers_length.
  - by destruct H4; apply updateFingers_positions.
  - by destruct H9.
Qed.

(** Giving up the click that is measured or held. *)
Lemma quiet_ok n d :
  foc_ok n d -> foc_ok n {| (cancelTimeout d) with _forceEligible := false; _forceActive := false |}.
Proof.
  intros [Hb Hc]. destruct (fo_force _ _ Hb) as [H1 H2 H3 H4 H5].
  split; [|unfold cancelTimeout; by destruct (_forceTimer d)].
  apply (foc_base_click n d); [done|unfold click_frame, cancelTimeout; by destruct (_forceTimer d)|].
  unfold cancelTimeout. destruct (_forceTimer d) as [t|] eqn:E; split; simpl; rewrite ?E; intuition congruence.
Qed.

(** ** Bytes from the device *)

(** The interrupt routine never leaves the ring and keeps the invariant. *)
Lemma interruptOccurred_ok n data d :
  foc_ok n d -> exists d' r, interruptOccurred data d = Ok (d', r) /\ foc_ok n d'.
Proof.
  intros Hd. assert (Hr := fo_ring n _ (fo_base _ _ Hd)). assert (Hb := fo_bytes n _ (fo_base _ _ Hd)).
  unfold interruptOccurred, FOC_PACKET_LENGTH in *.
  pose proof (head_set_spec FOC_RING 6 ltac:(done) ltac:(done) ltac:(done) (_ringBuffer d)
    (_packetByteCount d) (u8 data) Hr Hb) as E. rewrite E.
  destruct (head_set_aligned FOC_RING 6 _ _ _ _ Hr E) as [Hr' _].
  rewrite u32_small by lia. cbn [_packetByteCount]. destruct (Z.eqb_spec (_packetByteCount d + 1) 6).
  - eexists _, _. split; [done|]. destruct Hd as [[? ? ? ? ? ? ? ? []] ?]. split; [split|]; simpl; try done.
    by apply advanceHead_aligned.
  - eexists _, _. split; [done|]. destruct Hd as [[? ? ? ? ? ? ? ? []] ?]. split; [split|]; simpl; try done.
    unfold FOC_PACKET_LENGTH in *. lia.
Qed.

(** It writes only the ring and its counters. *)
Definition forget_bytes (d : ApplePS2FocalTech) : ApplePS2FocalTech :=
  {| d with _irqByteCount := 0; _packetByteCount := 0; _ringBuffer := mkRing [] 0 0 |}.

Lemma interruptOccurred_frame data d d' r :
  interruptOccurred data d = Ok (d', r) -> forget_bytes d' = forget_bytes d.
Proof.
  unfold interruptOccurred. destruct (head_set _ _ _); [|done]. cbn [_packetByteCount].
  destruct (_ =? _); by intros [= <- <-].
Qed.
