(* ===== verification/FocalTechSafe.v ===== *)
(** * The FocalTech driver keeps its invariant

    Every entry point, against the interface of [Bus.v]: no array access out of
    bounds, no null pointer, no lock taken twice or left behind. *)
From S2P Require Import Prelude PS2Types RingBuffer RingSpec Bus Touch FocalTech.
From S2P Require Import FocalTechDecode FocalTechReport FocalTechInv.

(** An invariant of the driver, strong enough to submit requests. *)
Class DriverInv (I : ApplePS2FocalTech -> Prop) := {
  driver_port : forall d p, I d -> _device d = Some p -> 0 <= p < kPS2MuxMaxIdx;
  driver_byte : forall d data, I d -> exists d' r, interruptOccurred data d = Ok (d', r) /\ I d' }.

#[export] Instance foc_inv n : DriverInv (foc_ok n).
Proof. split; [intros d p Hd; apply Hd|]. intros d data. apply interruptOccurred_ok. Qed.

(** The driver on a known device. *)
Record attached (n : Z) (o : option Z) (d : ApplePS2FocalTech) : Prop := {
  at_ok : foc_ok n d;
  at_device : _device d = o }.

#[export] Instance attached_inv n o : DriverInv (attached n o).
Proof.
  split; [intros d p [Hd _]; apply Hd|]. intros d data [Hd Ho].
  destruct (interruptOccurred_ok n data d Hd) as (d' & r & E & Hd'). exists d', r. split; [done|].
  split; [done|]. apply interruptOccurred_frame, (f_equal _device) in E. simpl in E. congruence.
Qed.

(** The driver while [setupHardware] learns the size of the pad: no finger touches. *)
Record fresh_ok (n : Z) (o : option Z) (d : ApplePS2FocalTech) : Prop := {
  fr_attached : attached n o d;
  fr_finger : _finger d = noFingers }.

#[export] Instance fresh_inv n o : DriverInv (fresh_ok n o).
Proof.
  split; [intros d p [[Hd _] _]; apply Hd|]. intros d data [Ha Hf].
  destruct (driver_byte d data Ha) as (d' & r & E & Hd'). exists d', r. split; [done|].
  split; [done|]. apply interruptOccurred_frame, (f_equal _finger) in E. simpl in E. congruence.
Qed.

Section Safe.
Context {B : Type} `{HB : PS2Bus B} `{HL : !PS2BusLaws B}.
Context (I : ApplePS2FocalTech -> Prop) `{HI : !DriverInv I}.
Implicit Types (w : @FocWorld B) (d : ApplePS2FocalTech).

(** The world between two steps; [l] says whether the driver holds the lock. *)
Record good (l : bool) w : Prop := {
  gd_driver : I (drv w);
  gd_bus : bus_ok (bus w);
  gd_lock : bus_locked (bus w) = l;
  gd_installed : _interruptInstalled (drv w) = true -> bus_installed (bus w) = true }.

(** A computation that keeps the world good, whether or not it runs locked. *)
Definition steady {X} (m : M FocWorld X) : Prop :=
  forall l w, good l w -> wp m (fun _ w' => good l w') w.

Lemma steady_ret {X} (x : X) : steady (ret x).
Proof. intros l w Hw. exact Hw. Qed.

Lemma steady_bind {X Y} (m : M FocWorld X) (k : X -> M FocWorld Y) :
  steady m -> (forall x, steady (k x)) -> steady (m ≫= k).
Proof.
  intros Hm Hk l w Hw. apply wp_bind. eapply wp_mono; [by apply Hm|]. intros x w' Hw'. by apply Hk.
Qed.

Lemma steady_when (b : bool) m : steady m -> steady (when b m).
Proof. intros. destruct b; [done|apply steady_ret]. Qed.

Lemma steady_fget {X} (f : ApplePS2FocalTech -> X) : steady (fget f).
Proof. intros l w Hw. exact Hw. Qed.

(** Continuing with what was read of the driver. *)
Lemma steady_fget_bind {X Y} (f : ApplePS2FocalTech -> X) (k : X -> M FocWorld Y) :
  (forall d, I d -> steady (k (f d))) -> steady (fget f ≫= k).
Proof. intros Hk l w Hw. apply wp_bind. simpl. by apply Hk; [apply Hw|]. Qed.

Lemma steady_gets {X} (f : FocWorld -> X) : steady (gets f).
Proof. intros l w Hw. exact Hw. Qed.

Lemma steady_fset f :
  (forall d, I d -> I (f d)) -> (forall d, _interruptInstalled (f d) = _interruptInstalled d) ->
  steady (fset f).
Proof. intros Hf Hi l w [H1 H2 H3 H4]. split; simpl; [by apply Hf|done|done|by rewrite Hi]. Qed.

Lemma steady_emit e : steady (emit e).
Proof. intros l w [H1 H2 H3 H4]. by split. Qed.

(** The bytes that arrived during a call. *)
Lemma deliver_ok bytes d :
  I d -> exists d', for_each bytes (fun data => interruptOccurred data ;; ret tt) d = Ok (d', tt) /\
    I d' /\ forget_bytes d' = forget_bytes d.
Proof.
  revert d. induction bytes as [|b l IH]; intros d Hd; simpl; [by exists d|].
  destruct (driver_byte d b Hd) as (d1 & r & E & H1). destruct (IH d1 H1) as (d' & E' & H' & Ef).
  exists d'. rewrite bind_assoc, (bind_ok _ _ _ _ _ E). split; [done|]. split; [done|].
  apply interruptOccurred_frame in E. congruence.
Qed.

(** A call into the controller, and the bytes that arrived; [installed] says when the
    interrupt action is installed afterwards. *)
Lemma wp_call {X} (m : M B X) (R : X -> Prop) l' (installed : Prop) w :
  I (drv w) ->
  wp m (fun x b => R x /\ bus_ok b /\ bus_locked b = l' /\
    (installed -> bus_installed b = true)) (bus w) ->
  wp (onBus m) (fun x w' => R x /\ I (drv w') /\ bus_ok (bus w') /\ bus_locked (bus w') = l' /\
    (installed -> bus_installed (bus w') = true) /\ forget_bytes (drv w') = forget_bytes (drv w)) w.
Proof.
  intros Hd Hm. unfold wp, onBus in *. destruct (m (bus w)) as [[b x]| |]; [|done..].
  destruct Hm as (Hx & Hb & Hl & Hi). pose proof (law_received b Hb) as [Hb' Hl' Hi'].
  destruct (bus_received b) as [bytes b']. simpl in *.
  destruct (deliver_ok bytes (drv w) Hd) as (d' & E & Hd' & Ef). rewrite E. simpl.
  split_and!; [done|done|done|by rewrite Hl'|auto|done].
Qed.

(** ... that ends in a good world with the lock as [l']. *)
Lemma wp_onBus {X} (m : M B X) (R : X -> Prop) l' w :
  I (drv w) ->
  wp m (fun x b => R x /\ bus_ok b /\ bus_locked b = l' /\
    (_interruptInstalled (drv w) = true -> bus_installed b = true)) (bus w) ->
  wp (onBus m) (fun x w' => R x /\ good l' w') w.
Proof.
  intros Hd Hm. eapply wp_mono; [by apply (wp_call m R l' (_interruptInstalled (drv w) = true))|].
  cbn beta. intros x w' (Hx & Hd' & Hb & Hl & Hi & Ef). split; [done|]. split; [done|done|done|].
  apply (f_equal _interruptInstalled) in Ef. simpl in Ef. by rewrite Ef.
Qed.

Lemma steady_onBus {X} (m : M B X) : bus_steady m -> steady (onBus m).
Proof.
  intros Hm l w [H1 H2 H3 H4].
  eapply wp_mono; [apply (wp_onBus m (fun _ => True) l w H1)|].
  - eapply wp_mono; [by apply Hm|]. cbn beta. intros x b [? ? ?]. split; [done|]. split; [done|].
    split; [congruence|]. auto.
  - cbn beta. by intros x w' [_ ?].
Qed.

(** A request keeps its commands, so their results can be read back. *)
Definition answers (l : list PS2Command) (r : PS2Request) : Prop :=
  map command (commands r) = map command l.

Lemma submit_good p cs l w :
  0 <= p < kPS2MuxMaxIdx -> Z.of_nat (length cs) < 256 -> good l w ->
  wp (submitDevice p cs) (fun r w' => answers cs r /\ good l w') w.
Proof.
  intros Hp Hc [H1 H2 H3 H4]. unfold submitDevice.
  eapply wp_mono; [eapply (wp_onBus _ (answers cs) l w H1)|cbn beta; done].
  assert (Hu : u8 (Z.of_nat (length cs)) = Z.of_nat (length cs)) by (apply u8_small; lia).
  eapply wp_mono; [apply law_submit; [done|cbn [commandsCount commands port TPS2Request]; lia..]|].
  cbn beta. intros r b [[Hb Hl Hi] Hs]. split; [apply Hs|]. split; [done|]. split; [congruence|]. auto.
Qed.

Lemma wp_result cs r i Q w :
  answers cs r -> 0 <= i < Z.of_nat (length cs) -> (forall z, Q z w) -> wp (result r i) Q w.
Proof.
  intros Ha Hi HQ. apply wp_bind, wp_deref.
  apply (f_equal length) in Ha. rewrite !length_map in Ha.
  destruct (arr_get_Some (commands r) i) as (c & E & _); [lia|]. exists c. split; [done|]. apply HQ.
Qed.

Lemma wp_steady {X} (m : M FocWorld X) l w : good l w -> steady m -> wp m (fun _ w' => good l w') w.
Proof. intros Hw Hm. by apply Hm. Qed.

(** A computation that starts with a request. *)
Lemma steady_submit {X} p cs (k : PS2Request -> M FocWorld X) :
  0 <= p < kPS2MuxMaxIdx -> Z.of_nat (length cs) < 256 ->
  (forall r, answers cs r -> steady (k r)) -> steady (submitDevice p cs ≫= k).
Proof.
  intros Hp Hc Hk l w Hw. apply wp_bind. eapply wp_mono; [by apply submit_good|].
  intros r w' [Ha Hw']. by apply Hk.
Qed.

Lemma steady_result {X} cs r i (k : Z -> M FocWorld X) :
  answers cs r -> 0 <= i < Z.of_nat (length cs) -> (forall z, steady (k z)) -> steady (result r i ≫= k).
Proof. intros Ha Hi Hk l w Hw. apply wp_bind. eapply wp_result; [done|done|]. intros z. by apply Hk. Qed.

(** Reading the device; without one the computation is what its first case says. *)
Lemma steady_device {X} (k : option Z -> M FocWorld X) :
  steady (k None) -> (forall p, 0 <= p < kPS2MuxMaxIdx -> steady (k (Some p))) ->
  steady (fget _device ≫= k).
Proof.
  intros Hnone Hp. apply steady_fget_bind. intros d Hd. destruct (_device d) as [p|] eqn:E; [|done].
  apply Hp. by apply (driver_port d).
Qed.

End Safe.

Create HintDb foc.
#[export] Hint Resolve steady_ret steady_when steady_fget steady_gets steady_emit steady_onBus : foc.
#[export] Hint Resolve law_setCommandByte law_sleep law_auxNubs law_installPower law_uninstallPower : foc.
#[export] Hint Extern 1 (DriverInv _) => exact _ : foc.
#[export] Hint Extern 1 (steady _ (match ?x with _ => _ end)) => destruct x : foc.

(** Walks through a computation in [steady] form; [foc_ok] of an updated driver is
    left to [foc_fields]. *)
Ltac foc_fields :=
  let d := fresh "d" in let Hd := fresh "Hd" in
  intros d Hd; repeat match goal with
    | H : attached _ _ _ |- _ => destruct H
    | H : fresh_ok _ _ _ |- _ => destruct H
    | H : foc_ok _ _ |- _ => destruct H
    | H : foc_base _ _ |- _ => destruct H
    | H : force_ok _ |- _ => destruct H
    end; repeat (split; simpl; try done).

Ltac foc_step :=
  match goal with
  | |- steady _ (fget _device ≫= _) => apply steady_device; [exact _| |intros ? ?]
  | |- steady _ (fget _ ≫= _) => apply steady_fget_bind; intros ? ?
  | |- steady _ (submitDevice _ _ ≫= _) =>
      apply steady_submit; [exact _|unfold kPS2MuxMaxIdx, kPS2KbdIdx in *; lia|simpl; lia|intros ? ?]
  | |- steady _ (submitTo _ _ ≫= _) => change submitTo with submitDevice
  | |- steady _ (result _ _ ≫= _) => eapply steady_result; [eassumption|simpl; lia|intros ?]
  | |- steady _ (_ ≫= _) => apply steady_bind; [|intros ?]
  | |- steady _ (fset _) => apply steady_fset; [foc_fields|done]
  | |- steady _ (when _ _) => apply steady_when
  | |- steady _ (if ?b then _ else _) => destruct b eqn:?
  | |- steady _ (match ?x with _ => _ end) => destruct x eqn:?
  | |- steady _ (let '(_, _) := ?x in _) => destruct x
  | |- steady _ _ => solve [eauto with foc]
  end.
Ltac foc_steps := repeat foc_step.

(** ** The entry points *)
Section Requests.
Context {B : Type} `{HB : PS2Bus B} `{HL : !PS2BusLaws B}.
Context (I : ApplePS2FocalTech -> Prop) `{HI : !DriverInv I}.
#[local] Abbreviation steady := (steady (B := B) I).

Lemma steady_setTouchPadEnable b : steady (setTouchPadEnable b).
Proof. unfold setTouchPadEnable. foc_steps. Qed.

Lemma steady_detectFocalTech : steady detectFocalTech.
Proof. unfold detectFocalTech. foc_steps. Qed.

Lemma steady_resetDevice : steady resetDevice.
Proof. unfold resetDevice. foc_steps. Qed.

Lemma steady_readRegister r : steady (readRegister r).
Proof. unfold readRegister. foc_steps. Qed.

Lemma steady_countAuxNubs : steady countAuxNubs.
Proof. unfold countAuxNubs. foc_steps. Qed.

(** [switchToNativeProtocol] alone uses the device unconditionally. *)
Lemma good_switchToNativeProtocol l w p :
  good I l w -> _device (drv w) = Some p -> wp switchToNativeProtocol (fun _ w' => good I l w') w.
Proof.
  intros Hw Hp. unfold switchToNativeProtocol. apply wp_bind, wp_gets. rewrite Hp.
  assert (0 <= p < kPS2MuxMaxIdx) by (by eapply driver_port; [apply Hw|]).
  revert Hw. generalize l w. change (steady
    (r ← submitDevice p
      [ack FOC_PS2_CUSTOM_COMMAND; ack 0; ack FOC_PS2_CUSTOM_COMMAND; ack 0;
       ack FOC_PS2_CUSTOM_COMMAND; ack 0; ack FOC_PS2_CUSTOM_COMMAND; ack 1;
       ack kDP_SetMouseScaling1To1]; ret (succeeded r 9))). foc_steps.
Qed.

(** [publishRuntimeDiagnostics] reads six bytes of the packet. *)
Lemma steady_publishRuntimeDiagnostics o v :
  (forall l, o = Some l -> length l = Z.to_nat FOC_PACKET_LENGTH) ->
  steady (publishRuntimeDiagnostics o v).
Proof.
  intros Ho. unfold publishRuntimeDiagnostics. foc_step. destruct o as [p|]; foc_steps.
  intros l w Hw. apply wp_deref.
  destruct (arr_get_Some p (FOC_PACKET_LENGTH - 1)) as (x & E & _);
    [rewrite (Ho p eq_refl); done|]. by exists x.
Qed.

End Requests.

#[export] Hint Resolve steady_setTouchPadEnable steady_detectFocalTech steady_resetDevice
  steady_readRegister steady_countAuxNubs : foc.

(** ** Setting the hardware up *)
Section Setup.
Context {B : Type} `{HB : PS2Bus B} `{HL : !PS2BusLaws B}.
Context (n : Z) (Hn : FOC_MAX_FINGERS <= n).
#[local] Abbreviation steady := (steady (B := B)).

Lemma good_mono (I J : ApplePS2FocalTech -> Prop) l (w : @FocWorld B) :
  (forall d, I d -> J d) -> good I l w -> good J l w.
Proof. intros HIJ [H1 H2 H3 H4]. split; auto. Qed.

Lemma steady_readDimensions o : steady (fresh_ok n o) readDimensions.
Proof.
  unfold readDimensions. foc_steps.
  - apply u32_range.
  - apply u32_range.
  - by apply noFingers_positions.
Qed.

Lemma steady_publishInputProperties o : steady (fresh_ok n o) publishInputProperties.
Proof. unfold publishInputProperties. foc_steps. Qed.

Lemma resetState_fresh o d : attached n o d -> fresh_ok n o (resetState d).
Proof.
  intros [Hd Ho]. split; [split; [by apply resetState_ok|]|];
    unfold resetState, cancelTimeout; by destruct (_forceTimer _).
Qed.

Lemma steady_switchToNativeProtocol p : steady (fresh_ok n (Some p)) switchToNativeProtocol.
Proof. intros l w Hw. apply (good_switchToNativeProtocol (fresh_ok n (Some p)) l w p Hw). apply Hw. Qed.

#[local] Hint Resolve steady_readDimensions steady_publishInputProperties
  steady_switchToNativeProtocol : foc.

Lemma good_setupHardware b l p w :
  good (attached n (Some p)) l w ->
  wp (setupHardware b) (fun _ w' => good (attached n (Some p)) l w') w.
Proof.
  intros [H1 H2 H3 H4]. unfold setupHardware. apply wp_bind, wp_modify.
  match goal with |- wp _ _ ?w => assert (Hw : good (fresh_ok n (Some p)) l w) end.
  { split; [by apply resetState_fresh|done|done|].
    unfold resetState, cancelTimeout. simpl. by destruct (_forceTimer (drv w)). }
  eapply (wp_mono _ (fun _ w' => good (fresh_ok n (Some p)) l w')).
  2: { intros _ w'. apply good_mono. intros d Hd. apply Hd. }
  revert Hw. match goal with |- good _ _ ?w -> _ => generalize w end. generalize l.
  match goal with |- forall l w, _ -> wp ?m _ w => change (steady (fresh_ok n (Some p)) m) end.
  clear - HL. foc_steps.
Qed.

Lemma steady_setupHardware b p : steady (attached n (Some p)) (setupHardware b).
Proof. intros l w Hw. by apply good_setupHardware. Qed.

(** Taking and giving back the lock. *)
Lemma good_lock (I : ApplePS2FocalTech -> Prop) `{!DriverInv I} w :
  good I false w -> wp (onBus bus_lock) (fun _ w' => good I true w') w.
Proof.
  intros [H1 H2 H3 H4]. eapply wp_mono; [apply (wp_onBus I bus_lock (fun _ => True) true w H1)|].
  - eapply wp_mono; [by apply law_lock|]. cbn beta. intros x b (? & ? & ?). split_and!; auto.
  - cbn beta. by intros x w' [_ ?].
Qed.

Lemma good_unlock (I : ApplePS2FocalTech -> Prop) `{!DriverInv I} w :
  good I true w -> wp (onBus bus_unlock) (fun _ w' => good I false w') w.
Proof.
  intros [H1 H2 H3 H4]. eapply wp_mono; [apply (wp_onBus I bus_unlock (fun _ => True) false w H1)|].
  - eapply wp_mono; [by apply law_unlock|]. cbn beta. intros x b (? & ? & ?). split_and!; auto.
  - cbn beta. by intros x w' [_ ?].
Qed.

(** A computation that runs while the driver holds the lock. *)
Lemma good_locked {X Y} (I : ApplePS2FocalTech -> Prop) `{!DriverInv I} (m : M FocWorld X)
    (k : X -> M FocWorld Y) Q w :
  steady I m -> good I false w ->
  (forall x w', good I false w' -> wp (k x) Q w') ->
  wp (onBus bus_lock ;; x ← m; onBus bus_unlock ;; k x) Q w.
Proof.
  intros Hm Hw Hk. apply wp_bind. eapply wp_mono; [by apply (good_lock I)|]. cbn beta. intros _ w1 H1.
  apply wp_bind. eapply wp_mono; [by apply (Hm true)|]. cbn beta. intros x w2 H2.
  apply wp_bind. eapply wp_mono; [by apply (good_unlock I)|]. cbn beta. intros _ w3 H3. by apply Hk.
Qed.

(** A computation that keeps the world good when the driver does not hold the lock. *)
Definition unlocked_steady {X} (I : ApplePS2FocalTech -> Prop) (m : M (@FocWorld B) X) : Prop :=
  forall w, good I false w -> wp m (fun _ w' => good I false w') w.

Lemma unlocked_of_steady {X} I (m : M FocWorld X) : steady I m -> unlocked_steady I m.
Proof. intros Hm w Hw. by apply Hm. Qed.

Lemma unlocked_bind {X Y} I (m : M FocWorld X) (k : X -> M FocWorld Y) :
  unlocked_steady I m -> (forall x, unlocked_steady I (k x)) -> unlocked_steady I (m ≫= k).
Proof.
  intros Hm Hk w Hw. apply wp_bind. eapply wp_mono; [by apply Hm|]. intros x w' Hw'. by apply Hk.
Qed.

Lemma prepareLegacy_ok p : unlocked_steady (attached n (Some p)) prepareLegacyControllerState.
Proof.
  intros w Hw. unfold prepareLegacyControllerState. apply wp_bind, wp_gets.
  rewrite (at_device _ _ _ (gd_driver _ _ _ Hw)).
  assert (Hp : 0 <= p < kPS2MuxMaxIdx) by (by eapply (driver_port (drv w) p (gd_driver _ _ _ Hw)), at_device, Hw).
  apply wp_bind. eapply wp_mono; [by apply (good_lock (attached n (Some p)))|].
  cbn beta. clear w Hw. intros _ w Hw.
  assert (Hs : forall I, DriverInv I -> forall s c, steady I (onBus (bus_setCommandByte s c))) by eauto with foc.
  repeat first
    [ apply wp_bind; eapply wp_mono; [first [by apply (good_unlock (attached n (Some p))) | by eapply wp_steady; [exact Hw|eauto with foc]
        | apply (submit_good (attached n (Some p)) _ _ true); [unfold kPS2MuxMaxIdx, kPS2KbdIdx in *; lia|simpl; lia|exact Hw]]|];
      cbn beta; clear w Hw; intros ? w Hw;
      lazymatch type of Hw with _ /\ _ => destruct Hw as [_ Hw] | _ => idtac end
    | by apply wp_ret ].
Qed.

End Setup.
