(* ===== verification/FocalTechRun.v ===== *)
(** * Packets, reports and the force timer

    The entry points of the FocalTech driver that do not talk to the device: they
    end, and keep the invariant. *)
From S2P Require Import Prelude PS2Types RingBuffer RingSpec Bus Touch FocalTech.
From S2P Require Import FocalTechDecode FocalTechReport FocalTechInv FocalTechSafe.

Section Run.
Context {B : Type} `{HB : PS2Bus B}.
Context (n : Z) (Hn : FOC_MAX_FINGERS <= n).
Implicit Types (w : @FocWorld B) (d : ApplePS2FocalTech).

(** The bus plays no part: [settled w w'] relates the worlds before and after. *)
Record settled (I : ApplePS2FocalTech -> Prop) w w' : Prop := {
  st_driver : I (drv w');
  st_installed : _interruptInstalled (drv w') = _interruptInstalled (drv w);
  st_bus : bus w' = bus w;
  st_uptime : uptime w' = uptime w }.

(** A computation of the driver alone: it ends, in a state that satisfies [J]. *)
Definition runs {X} (I J : ApplePS2FocalTech -> Prop) (m : M (@FocWorld B) X) : Prop :=
  forall w, I (drv w) -> total m (fun _ w' => settled J w w') w.

Lemma runs_bind {X Y} I J K (m : M FocWorld X) (k : X -> M FocWorld Y) :
  runs I J m -> (forall x, runs J K (k x)) -> runs I K (m ≫= k).
Proof.
  intros Hm Hk w Hw. apply total_bind. eapply total_mono; [by apply Hm|]. cbn beta.
  intros x w1 [H1 H2 H3 H4]. eapply total_mono; [by apply Hk|]. cbn beta.
  intros y w2 [H5 H6 H7 H8]. split; congruence || done.
Qed.

Lemma runs_ret {X} I (x : X) : runs I I (ret x).
Proof. intros w Hw. by apply total_ret. Qed.

Lemma runs_fget_bind {X Y} (I K : ApplePS2FocalTech -> Prop) (f : ApplePS2FocalTech -> X)
    (k : X -> M FocWorld Y) :
  (forall d, I d -> runs (fun d' => I d' /\ d' = d) K (k (f d))) -> runs I K (fget f ≫= k).
Proof. intros Hk w Hw. apply total_bind, total_gets. by apply (Hk (drv w) Hw). Qed.

Lemma runs_fset (I J : ApplePS2FocalTech -> Prop) f :
  (forall d, I d -> J (f d)) -> (forall d, _interruptInstalled (f d) = _interruptInstalled d) ->
  runs I J (fset f).
Proof. intros Hf Hi w Hw. apply total_modify. split; [by apply Hf|apply Hi|done|done]. Qed.

Lemma runs_gets {X} I (f : FocWorld -> X) : runs I I (gets f).
Proof. intros w Hw. by apply total_gets. Qed.

Lemma runs_emit I e : runs I I (emit e).
Proof. intros w Hw. by apply total_modify. Qed.

Lemma runs_deref {X} I (o : option X) x : o = Some x -> runs I I (deref o).
Proof. intros -> w Hw. by apply total_ret. Qed.

Lemma runs_deref_bind {X Y} I K (o : option X) x (k : X -> M FocWorld Y) :
  o = Some x -> runs I K (k x) -> runs I K (deref o ≫= k).
Proof. intros -> Hk w Hw. apply total_bind, total_ret. by apply Hk. Qed.

Lemma runs_when I (b : bool) m : (b = true -> runs I I m) -> runs I I (when b m).
Proof. destruct b; [auto|intros _; apply runs_ret]. Qed.

Lemma runs_mono {X} (I I' J J' : ApplePS2FocalTech -> Prop) (m : M FocWorld X) :
  (forall d, I' d -> I d) -> (forall d, J d -> J' d) -> runs I J m -> runs I' J' m.
Proof.
  intros HI HJ Hm w Hw. eapply total_mono; [by apply Hm, HI|]. cbn beta.
  intros x w' [H1 H2 H3 H4]. split; auto.
Qed.

Lemma runs_fstep (I J : ApplePS2FocalTech -> Prop) f :
  (forall d, I d -> exists d', f d = Some d' /\ J d' /\ _interruptInstalled d' = _interruptInstalled d) ->
  runs I J (fstep f).
Proof.
  intros Hf w Hw. destruct (Hf (drv w) Hw) as (d' & E & Hd' & Hi).
  apply total_bind, total_gets, total_bind. rewrite E. apply total_ret, total_modify. by split.
Qed.

(** A running computation is steady. *)
Lemma runs_steady {X} I (m : M FocWorld X) : runs I I m -> steady I m.
Proof.
  intros Hm l w [H1 H2 H3 H4]. apply total_wp. eapply total_mono; [by apply Hm|]. cbn beta.
  intros x w' [H5 H6 H7 H8]. rewrite <- H7 in *. split; [done|done|done|]. by rewrite H6.
Qed.

(** ** Reporting *)

Lemma runs_sendButtons I b : runs I I (sendButtons b).
Proof.
  unfold sendButtons. apply runs_fget_bind. intros d Hd. destruct (_voodooInput d) as [c|].
  - eapply runs_mono; [| |eapply (runs_bind I I I); [apply runs_gets|intros t; apply runs_emit]]; tauto.
  - eapply runs_mono; [| |apply (runs_ret I)]; tauto.
Qed.

Lemma event_ok d ts c t :
  foc_ok n d -> length ts = length (ev_transducers (_inputEvent d)) ->
  foc_ok n {| d with _inputEvent := mkInputEvent ts c t |}.
Proof.
  intros Hd Hl. revert d Hd Hl. foc_fields. lia.
Qed.

Lemma touch_ok d t :
  foc_ok n d -> touchTransducers d t = Some (reportSlots d t, Z.of_nat (length (contacts d))) /\
  length (reportSlots d t) = length (ev_transducers (_inputEvent d)).
Proof.
  intros [[] ?]. apply touchTransducers_spec; [done|lia|by apply positions_heights].
Qed.

Lemma runs_sendTouchData : runs (foc_ok n) (foc_ok n) sendTouchData.
Proof.
  unfold sendTouchData. eapply runs_bind; [apply runs_gets|]. intros t.
  apply runs_fget_bind. intros d Hd. destruct (touch_ok d t Hd) as [E El]. rewrite E.
  eapply runs_deref_bind; [done|]. cbn iota.
  eapply (runs_bind _ (foc_ok n)).
  { apply runs_fset; [|done]. intros d' [Hd' ->]. by apply event_ok. }
  intros _. apply runs_fget_bind. intros d1 Hd1. eapply (runs_bind _ (foc_ok n)).
  { eapply (runs_mono (foc_ok n) _ (foc_ok n)); [tauto|done|].
    destruct (_voodooInput d1); [apply runs_emit|apply runs_ret]. }
  intros _. apply runs_fget_bind. intros d2 Hd2. apply runs_fget_bind. intros d3 Hd3.
  eapply (runs_mono (foc_ok n) _ (foc_ok n)); [tauto|done|].
  apply runs_when. intros _. eapply runs_bind; [apply runs_sendButtons|]. intros _.
  apply runs_fset; [foc_fields|done].
Qed.

Lemma setButtons_ok d : foc_ok n d -> foc_ok n (setButtons d).
Proof. revert d. foc_fields. Qed.

Lemma runs_reportState : runs (foc_base n) (foc_ok n) reportState.
Proof.
  unfold reportState. eapply (runs_bind _ (foc_ok n)).
  { apply runs_fstep. intros d Hd. destruct (clickEdge_ok n d Hd) as (d' & ? & ? & Hc). exists d'. split; [done|]. split; [done|].
    apply (f_equal _interruptInstalled Hc). }
  intros _. eapply (runs_bind _ (foc_ok n)).
  { apply runs_fstep. intros d Hd. destruct (forceCheck_ok n d Hd) as (d' & ? & ? & Hc). exists d'. split; [done|]. split; [done|].
    apply (f_equal _interruptInstalled Hc). }
  intros _. eapply (runs_bind _ (foc_ok n)); [apply runs_fset; [apply updateFingers_ok|done]|].
  intros _. eapply (runs_bind _ (foc_ok n)); [apply runs_fset; [apply setButtons_ok|done]|].
  intros _. apply runs_sendTouchData.
Qed.

(** ** The force timer *)

(** A click that is being measured is a left click, by a finger of the pad. *)
Lemma eligible_facts d :
  foc_ok n d -> _forceEligible d = true ->
  _forceActive d = false /\ pressed (_hardware d) = true /\ _clickRight d = false /\
  is_finger (_forceFinger d).
Proof.
  intros [[] Hc] He. destruct fo_force as [H1 H2 H3 H4 H5]. rewrite <- Hc.
  split; [auto|]. split; [|split; [|auto]].
  - destruct (_clickWasPressed d); [done|]. destruct (H1 eq_refl) as [? _]. congruence.
  - destruct (_clickRight d); [|done]. destruct (H2 eq_refl) as [? _]. congruence.
Qed.

(** The finger held by a force click still reports and has not moved away. *)
Definition still_held d (raw : FocalTechFingerState) : bool := reports raw && negb (movedTooFar d raw).

Lemma forceTimerFired_armed w :
  foc_ok n (drv w) -> _forceEligible (drv w) = true ->
  exists raw, fingers (_hardware (drv w)) !! Z.to_nat (_forceFinger (drv w)) = Some raw /\
  forceTimerFired w =
  (if still_held (drv w) raw then
     fset (fun d => {| d with _forceEligible := false; _forceActive := true |}) ;;
     when (nz (Z.land (_lastButtons (drv w)) 0x01))
       (sendButtons 0 ;; fset (fun d => {| d with _lastButtons := 0 |})) ;;
     sendTouchData
   else fset (fun d => {| d with _forceEligible := false |})) w.
Proof.
  intros Hd He. destruct (eligible_facts _ Hd He) as (Ha & Hp & Hr & Hf). unfold is_finger in Hf.
  destruct (arr_get_Some (fingers (_hardware (drv w))) (_forceFinger (drv w))) as (raw & E & El).
  { rewrite (fo_hardware n _ (fo_base _ _ Hd)). lia. }
  exists raw. split; [done|]. unfold forceTimerFired. rewrite (bind_ok _ _ w w (drv w)) by done.
  cbn beta zeta. rewrite He, Ha, Hp, Hr. cbn [negb orb].
  rewrite (proj2 (Z.ltb_ge _ _)), (proj2 (Z.leb_gt _ _)) by lia. cbn [orb].
  rewrite (bind_ok _ _ w w raw) by (by rewrite E). unfold still_held.
  by destruct (reports raw), (movedTooFar (drv w) raw).
Qed.

Lemma activate_ok d :
  foc_ok n d -> _forceEligible d = true -> (forall ms, _forceTimer d <> Some (Some ms)) ->
  foc_ok n {| d with _forceEligible := false; _forceActive := true |}.
Proof.
  intros Hd He Ht. destruct (eligible_facts d Hd He) as (Ha & Hp & Hr & Hf).
  revert d Hd He Ht Ha Hp Hr Hf. foc_fields; intros; congruence || intuition congruence.
Qed.

Lemma deactivate_ok d :
  foc_ok n d -> (forall ms, _forceTimer d <> Some (Some ms)) ->
  foc_ok n {| d with _forceEligible := false |}.
Proof.
  intros [Hb Hc] Ht. split; [|done]. apply (foc_base_click n d); [done|done|].
  destruct (fo_force _ _ Hb) as [H1 H2 H3 H4 H5]. split; simpl.
  - intuition congruence.
  - intuition congruence.
  - done.
  - intros [?|?]; [done|auto].
  - intros ms E. by destruct (Ht ms).
Qed.

Lemma runs_timerFires : runs (foc_ok n) (foc_ok n) timerFires.
Proof.
  unfold timerFires. intros w Hw. apply total_bind, total_gets.
  destruct (_forceTimer (drv w)) as [[ms|]|] eqn:Et; [|by apply total_ret..].
  assert (He : _forceEligible (drv w) = true) by (eapply fc_timer; [apply Hw|done]).
  apply total_bind, total_modify. set (w0 := {| w with drv := _ |}).
  assert (H0 : foc_ok n (drv w0)).
  { revert Hw. unfold w0. simpl. generalize (drv w). foc_fields. }
  destruct (forceTimerFired_armed w0 H0 He) as (raw & _ & E).
  assert (Hr : runs (fun d => d = drv w0) (foc_ok n)
    (if still_held (drv w0) raw then
       fset (fun d => {| d with _forceEligible := false; _forceActive := true |}) ;;
       when (nz (Z.land (_lastButtons (drv w0)) 0x01))
         (sendButtons 0 ;; fset (fun d => {| d with _lastButtons := 0 |})) ;;
       sendTouchData
     else fset (fun d => {| d with _forceEligible := false |}))).
  { destruct (still_held (drv w0) raw).
    - eapply (runs_bind _ (foc_ok n)).
      { apply runs_fset; [|done]. intros d ->. by apply activate_ok. }
      intros _. eapply (runs_bind _ (foc_ok n)); [|intros _; apply runs_sendTouchData].
      apply runs_when. intros _. eapply runs_bind; [apply runs_sendButtons|].
      intros _. apply runs_fset; [foc_fields|done].
    - apply runs_fset; [|done]. intros d ->. by apply deactivate_ok. }
  destruct (Hr w0 eq_refl) as (w' & [] & E' & []). exists w', tt. rewrite E. split; [done|by split].
Qed.

(** ** Packets *)

(** What [packetReady] does with one packet, given its bytes. *)
Definition processBytes (packet : list Z) : M (@FocWorld B) bool :=
  r ← fget (fun d => decode packet (_hardware d));
  o ← deref r;
  match o with
  | None => ret false
  | Some h => fset (fun d => {| d with _hardware := h |}) ;; reportState ;; ret true
  end.

Definition countPacket (isValid : bool) (d : ApplePS2FocalTech) : ApplePS2FocalTech :=
  if isValid then {| d with _validPacketCount := u64 (_validPacketCount d + 1) |}
  else {| d with _invalidPacketCount := u64 (_invalidPacketCount d + 1) |}.

Definition packetStep (packet : list Z) : M (@FocWorld B) unit :=
  fset (fun d => {| d with _packetCount := u64 (_packetCount d + 1) |}) ;;
  isValid ← processBytes packet;
  fset (countPacket isValid) ;;
  k ← fget _packetCount;
  when ((k <=? 4) || (Z.land k 31 =? 0)) (publishRuntimeDiagnostics (Some packet) isValid).

Lemma runs_processBytes packet :
  length packet = Z.to_nat FOC_PACKET_LENGTH -> runs (foc_ok n) (foc_ok n) (processBytes packet).
Proof.
  intros Hl. apply runs_fget_bind. intros d Hd.
  destruct (decode_total packet (_hardware d) Hl) as (o & E & Ho); [apply Hd|].
  eapply runs_deref_bind; [done|]. destruct o as [h|].
  - eapply (runs_bind _ (foc_base n)).
    { apply runs_fset; [|done]. intros d' [Hd' _]. specialize (Ho h eq_refl). revert d' Hd'. foc_fields. }
    intros _. eapply (runs_bind _ (foc_ok n)); [apply runs_reportState|]. intros _. apply runs_ret.
  - eapply (runs_mono (foc_ok n)); [|done|apply runs_ret]. by intros ? [].
Qed.

Lemma runs_diagnostics I o v :
  (forall l, o = Some l -> length l = Z.to_nat FOC_PACKET_LENGTH) ->
  runs I I (publishRuntimeDiagnostics o v).
Proof.
  intros Ho. apply runs_fget_bind. intros d _.
  eapply (runs_mono I _ I); [by intros ? []|done|].
  eapply runs_bind; [|intros p; apply runs_emit]. destruct o as [p|]; [|apply runs_ret].
  destruct (arr_get_Some p (FOC_PACKET_LENGTH - 1)) as (x & E & _); [rewrite (Ho p eq_refl); done|].
  eapply runs_deref_bind; [done|]. apply runs_ret.
Qed.

(** [packetStep] keeps any invariant that [processBytes] and counting keep. *)
Lemma runs_packetStep_of (I : ApplePS2FocalTech -> Prop) packet :
  length packet = Z.to_nat FOC_PACKET_LENGTH ->
  (forall d k, I d -> I {| d with _packetCount := k |}) ->
  (forall d b, I d -> I (countPacket b d)) ->
  runs I I (processBytes packet) -> runs I I (packetStep packet).
Proof.
  intros Hl Hk Hc Hp. eapply (runs_bind _ I); [apply runs_fset; [auto|done]|]. intros _.
  eapply runs_bind; [done|]. intros isValid.
  eapply (runs_bind _ I); [apply runs_fset; [auto|unfold countPacket; by destruct isValid]|].
  intros _. apply runs_fget_bind. intros d _.
  eapply (runs_mono I _ I); [by intros ? []|done|].
  apply runs_when. intros _. apply runs_diagnostics. by intros ? [= <-].
Qed.

Lemma runs_packetStep packet :
  length packet = Z.to_nat FOC_PACKET_LENGTH -> runs (foc_ok n) (foc_ok n) (packetStep packet).
Proof.
  intros Hl. apply runs_packetStep_of; [done| | |by apply runs_processBytes].
  - intros d k. revert d. foc_fields.
  - intros d b. unfold countPacket. destruct b; revert d; foc_fields.
Qed.

(** ** What a report leaves alone *)

(** The members that neither a packet's decoding nor its report writes. *)
Definition rest d : ApplePS2FocalTech :=
  {| (forget_click d) with
     _hardware := noHardware; _finger := noFingers; _inputEvent := mkInputEvent [] 0 0;
     _leftButton := 0; _rightButton := 0; _lastButtons := 0 |}.

Definition leaves_rest {X} (m : M (@FocWorld B) X) : Prop :=
  forall w w' x, m w = Ok (w', x) -> rest (drv w') = rest (drv w).

Lemma leaves_bind {X Y} (m : M FocWorld X) (k : X -> M FocWorld Y) :
  leaves_rest m -> (forall x, leaves_rest (k x)) -> leaves_rest (m ≫= k).
Proof.
  intros Hm Hk w w' y (w1 & x & E1 & E2)%bind_inv. by rewrite (Hk x _ _ _ E2), (Hm _ _ _ E1).
Qed.

Ltac leaves_binds :=
  repeat match goal with |- leaves_rest (_ ≫= _) => apply leaves_bind; [|intros ?] end.

Lemma leaves_same {X} (m : M FocWorld X) :
  (forall w w' x, m w = Ok (w', x) -> drv w' = drv w) -> leaves_rest m.
Proof. intros Hm w w' x E. by rewrite (Hm _ _ _ E). Qed.

Lemma leaves_ret {X} (x : X) : leaves_rest (ret x).
Proof. apply leaves_same. by intros w w' y [= <- <-]. Qed.
Lemma leaves_fget {X} (f : ApplePS2FocalTech -> X) : leaves_rest (fget f).
Proof. apply leaves_same. by intros w w' y [= <- <-]. Qed.
Lemma leaves_gets {X} (f : FocWorld -> X) : leaves_rest (gets f).
Proof. apply leaves_same. by intros w w' y [= <- <-]. Qed.
Lemma leaves_emit e : leaves_rest (emit e).
Proof. apply leaves_same. by intros w w' y [= <- <-]. Qed.
Lemma leaves_deref {X} (o : option X) : leaves_rest (deref o).
Proof. apply leaves_same. intros w w' y. destruct o; [by intros [= <- <-]|done]. Qed.
Lemma leaves_when (b : bool) m : leaves_rest m -> leaves_rest (when b m).
Proof. destruct b; [done|intros _; apply leaves_ret]. Qed.

Lemma leaves_fset f : (forall d, rest (f d) = rest d) -> leaves_rest (fset f).
Proof. intros Hf w w' x [= <- <-]. apply Hf. Qed.

Lemma leaves_fstep f : (forall d d', f d = Some d' -> rest d' = rest d) -> leaves_rest (fstep f).
Proof.
  intros Hf w w' x. unfold fstep, fget, fset, deref. intros (w1 & o & [= <- <-] & E)%bind_inv.
  destruct (f (drv w)) as [d'|] eqn:Ef; [|done]. injection E as <- <-. by apply Hf.
Qed.

Lemma frame_rest d d' : click_frame d d' -> rest d' = rest d.
Proof. unfold click_frame, rest. by intros ->. Qed.

Lemma clickEdge_frame d d' : clickEdge d = Some d' -> click_frame d d'.
Proof.
  unfold clickEdge, click_frame.
  destruct (_ && _); [|destruct (negb _); intros [= <-]; [apply (cancelTimeout_frame d)|done]].
  cbn zeta. set (d0 := cancelTimeout _).
  assert (E0 : forget_click d0 = forget_click d) by (unfold d0; by rewrite cancelTimeout_frame).
  clearbody d0. destruct (clickTarget _ _ _ _ _) as [[[x y] k]|]; [|by intros [= <-]].
  destruct (_forceTimer d0); [|by intros [= <-]].
  destruct (_ && _); [by intros [= <-]|].
  destruct (arr_get _ _); [by intros [= <-]|done].
Qed.

Lemma forceCheck_frame d d' : forceCheck d = Some d' -> click_frame d d'.
Proof.
  unfold forceCheck. destruct (_ && _); [|by intros [= <-]].
  destruct (arr_get _ _); [|done]. cbn [mbind option_bind]. destruct (_ || _); intros [= <-]; [|done].
  apply (cancelTimeout_frame {| d with _forceEligible := false |}).
Qed.

Lemma leaves_sendButtons b : leaves_rest (sendButtons b).
Proof.
  apply leaves_bind; [apply leaves_fget|]. intros [c|]; [|apply leaves_ret].
  apply leaves_bind; [apply leaves_gets|]. intros t. apply leaves_emit.
Qed.

Lemma leaves_sendTouchData : leaves_rest sendTouchData.
Proof.
  unfold sendTouchData. leaves_binds;
    try apply leaves_gets; try apply leaves_fget; try apply leaves_deref.
  destruct x1 as [ts count]. leaves_binds; try apply leaves_fget.
  - by apply leaves_fset.
  - destruct x2; [apply leaves_emit|apply leaves_ret].
  - apply leaves_when, leaves_bind; [apply leaves_sendButtons|]. intros _. by apply leaves_fset.
Qed.

Lemma leaves_reportState : leaves_rest reportState.
Proof.
  unfold reportState. leaves_binds.
  - apply leaves_fstep. intros d d' E. by apply frame_rest, clickEdge_frame.
  - apply leaves_fstep. intros d d' E. by apply frame_rest, forceCheck_frame.
  - by apply leaves_fset.
  - by apply leaves_fset.
  - apply leaves_sendTouchData.
Qed.

Lemma leaves_processBytes packet : leaves_rest (processBytes packet).
Proof.
  unfold processBytes. leaves_binds;
    try apply leaves_fget; try apply leaves_deref.
  destruct x0; [|apply leaves_ret]. leaves_binds;
    [by apply leaves_fset|apply leaves_reportState|apply leaves_ret].
Qed.

(** ** Draining the ring *)

Definition consumePacket d : ApplePS2FocalTech :=
  {| d with _ringBuffer := advanceTail FOC_RING FOC_PACKET_LENGTH (_ringBuffer d) |}.

Lemma packetReadyRound_eq w :
  packetReadyRound tt w =
  if count FOC_RING (_ringBuffer (drv w)) <? FOC_PACKET_LENGTH then Ok (w, inr tt)
  else (packetStep (tailPacket (drv w)) ;; fset consumePacket ;; ret (inl tt)) w.
Proof.
  unfold packetReadyRound. rewrite (bind_ok (fget _) _ w w (count FOC_RING (_ringBuffer (drv w)))) by done.
  cbn beta. destruct (_ <? _); [done|].
  rewrite (bind_ok (fget tailPacket) _ w w (tailPacket (drv w))) by done. cbn beta.
  unfold packetStep. rewrite bind_assoc.
  set (w1 := {| w with drv := {| (drv w) with _packetCount := u64 (_packetCount (drv w) + 1) |} |}).
  rewrite !(bind_ok (fset _) _ w w1 tt) by done.
  rewrite bind_assoc. rewrite (bind_same processPacket (processBytes (tailPacket (drv w)))) by done.
  apply bind_ext. intros v w2. unfold countPacket. rewrite !bind_assoc.
  rewrite !(bind_ok (fset _) _ w2 _ tt eq_refl). rewrite bind_assoc.
  apply bind_ext. intros k w3. apply bind_ext. by intros [] w4.
Qed.

Lemma leaves_diagnostics o v : leaves_rest (publishRuntimeDiagnostics o v).
Proof.
  unfold publishRuntimeDiagnostics. leaves_binds; [apply leaves_fget| |apply leaves_emit].
  destruct o; [|apply leaves_ret]. leaves_binds; [apply leaves_deref|apply leaves_ret].
Qed.

Lemma packetStep_ring packet w w' :
  packetStep packet w = Ok (w', tt) -> _ringBuffer (drv w') = _ringBuffer (drv w).
Proof.
  unfold packetStep. intros (w1 & [] & [= <-] & (w2 & v & E2 & (w3 & [] & [= <-] & E4)%bind_inv)%bind_inv)%bind_inv.
  apply bind_inv in E4 as (w4 & k & [= <- <-] & E4).
  apply leaves_processBytes, (f_equal _ringBuffer) in E2. simpl in E2.
  assert (Hl : forall b, leaves_rest (when b (publishRuntimeDiagnostics (Some packet) v))).
  { intros b. apply leaves_when, leaves_diagnostics. }
  apply Hl, (f_equal _ringBuffer) in E4. simpl in E4. rewrite E4.
  unfold countPacket. destruct v; simpl; congruence.
Qed.

(** What happens to the packets of the ring, oldest first. *)
Inductive drained : FocWorld -> list (list Z) -> FocWorld -> Prop :=
| drained_nil w : drained w [] w
| drained_cons w p ps w1 w2 :
    packetStep p w = Ok (w1, tt) -> drained {| w1 with drv := consumePacket (drv w1) |} ps w2 ->
    drained w (p :: ps) w2.

Definition waiting w : list (list Z) := pending FOC_RING FOC_PACKET_LENGTH (_ringBuffer (drv w)).

Lemma consumePacket_ok d : foc_ok n d -> foc_ok n (consumePacket d).
Proof.
  intros [[] ?]. split; [split|]; simpl; try done; [by apply advanceTail_aligned|by destruct fo_force].
Qed.

Lemma ring_ok_world w : foc_ok n (drv w) -> aligned FOC_RING FOC_PACKET_LENGTH (_ringBuffer (drv w)).
Proof. intros Hd. apply Hd. Qed.

(** One round on a ring that holds a packet. *)
Lemma packetReadyRound_step w :
  foc_ok n (drv w) -> FOC_PACKET_LENGTH <= count FOC_RING (_ringBuffer (drv w)) ->
  exists w1, packetStep (tailPacket (drv w)) w = Ok (w1, tt) /\
    packetReadyRound tt w = Ok ({| w1 with drv := consumePacket (drv w1) |}, inl tt) /\
    settled (foc_ok n) w {| w1 with drv := consumePacket (drv w1) |} /\
    waiting w = tailPacket (drv w) :: waiting {| w1 with drv := consumePacket (drv w1) |} /\
    (queued {| w1 with drv := consumePacket (drv w1) |} < queued w)%nat.
Proof.
  intros Hd Hc. pose proof (ring_ok_world w Hd) as Hr.
  assert (Hp : waiting w = tailPacket (drv w) :: pending FOC_RING FOC_PACKET_LENGTH
    (advanceTail FOC_RING FOC_PACKET_LENGTH (_ringBuffer (drv w)))).
  { by apply advanceTail_pending. }
  assert (Hl : length (tailPacket (drv w)) = Z.to_nat FOC_PACKET_LENGTH).
  { eapply (pending_packet_length FOC_RING FOC_PACKET_LENGTH); [done|done|done|exact Hr|].
    unfold waiting in Hp. rewrite Hp. by left. }
  destruct (runs_packetStep _ Hl w Hd) as (w1 & [] & E & [Hd1 Hb1 Hu1]).
  exists w1. split; [done|]. rewrite packetReadyRound_eq, (proj2 (Z.ltb_ge _ _)) by done.
  rewrite (bind_ok _ _ _ _ _ E). split; [done|].
  split; [split; [by apply consumePacket_ok|done|done|done]|].
  apply packetStep_ring in E as Er. unfold waiting, queued, consumePacket. simpl. rewrite Er.
  split; [done|]. rewrite advanceTail_count by done. pose proof (count_range FOC_RING ltac:(done) _ (al_ring _ _ _ Hr)).
  unfold FOC_PACKET_LENGTH in *. lia.
Qed.

Lemma packetReady_spec w :
  foc_ok n (drv w) ->
  exists w', packetReady w = Ok (w', tt) /\ drained w (waiting w) w' /\ waiting w' = [] /\ settled (foc_ok n) w w'.
Proof.
  unfold packetReady, loop. remember (S (queued w)) as fuel eqn:Ef.
  assert (Hf : (queued w < fuel)%nat) by lia. clear Ef. revert w Hf.
  induction fuel as [|fuel IH]; intros w Hf Hd; [lia|]. simpl.
  destruct (Z.lt_ge_cases (count FOC_RING (_ringBuffer (drv w))) FOC_PACKET_LENGTH) as [Hc|Hc].
  - rewrite packetReadyRound_eq, (proj2 (Z.ltb_lt _ _)) by done. exists w. split; [done|].
    assert (Hw : waiting w = []).
    { apply pending_nil; [done|done|by apply ring_ok_world|done]. }
    rewrite Hw. split; [constructor|]. split; [done|by split].
  - destruct (packetReadyRound_step w Hd Hc) as (w1 & E & -> & [Hd1 Hi1 Hb1 Hu1] & -> & Hq).
    destruct (IH {| w1 with drv := consumePacket (drv w1) |}) as (w' & E' & Hdr & Hw' & [Hd' Hi' Hb' Hu']); [lia|done|].
    exists w'. split; [done|]. split; [by econstructor|]. split; [done|].
    simpl in *. split; congruence || done.
Qed.

End Run.
