(* ===== verification/FocalTechSpec.v ===== *)
(** * The FocalTech driver's entry points in any order

    Safety and the invariant over every history of calls, and what the packet path,
    the clicks and the buttons do. *)
From S2P Require Import Prelude PS2Types RingBuffer RingSpec Controller ControllerLemmas.
From S2P Require Import TestBench Bus BusController Touch FocalTech FocalTechDecode.
From S2P Require Import FocalTechReport FocalTechInv FocalTechSafe FocalTechRun.

(** ** Entry points *)

(** What the kernel may call, with the arguments that matter. *)
Inductive DriverOp :=
| OpByte (data : Z)
| OpPackets
| OpTimer
| OpPower (whatToDo : Z)
| OpOpen (client : option Z) (isInput : bool)
| OpClose (client : option Z)
| OpProbe (nub portProperty : option Z)
| OpStart (nub portProperty : option Z) (workLoop timer : bool)
| OpStop.

(** The nubs the driver is given are ports of the controller. *)
Definition driver_op_ok (o : DriverOp) : Prop :=
  match o with
  | OpProbe (Some p) _ | OpStart (Some p) _ _ _ => 0 <= p < kPS2MuxMaxIdx
  | _ => True
  end.

Section Ops.
Context {B : Type} `{HB : PS2Bus B}.

(** The interrupt routine works on the driver object alone. *)
Definition atInterrupt (data : Z) : M (@FocWorld B) PS2InterruptResult := fun w =>
  match interruptOccurred data (drv w) with
  | Ok (d, r) => Ok ({| w with drv := d |}, r)
  | Wait => Wait
  | Crash => Crash
  end.

Definition run_op (o : DriverOp) : M (@FocWorld B) unit :=
  match o with
  | OpByte data => atInterrupt data ;; ret tt
  | OpPackets => packetReady
  | OpTimer => timerFires
  | OpPower what => setDevicePowerState what
  | OpOpen c i => handleOpen c i ;; ret tt
  | OpClose c => handleClose c
  | OpProbe nub p => probe nub p ;; ret tt
  | OpStart nub p wl tm => start nub p wl tm ;; ret tt
  | OpStop => stop
  end.
End Ops.

Section Safety.
Context {B : Type} `{HB : PS2Bus B} `{HL : !PS2BusLaws B}.
Context (n : Z) (Hn : FOC_MAX_FINGERS <= n).
Implicit Types (w : @FocWorld B).

#[local] Abbreviation unlocked := (unlocked_steady (B := B)).

Lemma attach_ok d o :
  (forall p, o = Some p -> 0 <= p < kPS2MuxMaxIdx) -> foc_ok n d -> attached n o {| d with _device := o |}.
Proof. intros Ho Hd. revert d Hd Ho. foc_fields. Qed.

Lemma steady_attached {X} o (m : M FocWorld X) :
  (forall I, DriverInv I -> steady I m) -> unlocked (attached n o) m.
Proof. intros Hm. apply unlocked_of_steady, Hm, _. Qed.

Lemma unlocked_fset I f :
  (forall d, I d -> I (f d)) -> (forall d, _interruptInstalled (f d) = _interruptInstalled d) ->
  unlocked I (fset f).
Proof. intros Hf Hi. by apply unlocked_of_steady, steady_fset. Qed.

Lemma unlocked_ret {X} I (x : X) : unlocked I (ret x).
Proof. apply unlocked_of_steady, steady_ret. Qed.

(** From one invariant to another: without the lock, and giving the lock back. *)
Definition leads {X} (I J : ApplePS2FocalTech -> Prop) (m : M (@FocWorld B) X) : Prop :=
  forall w, good I false w -> wp m (fun _ w' => good J false w') w.
Definition gives_back {X} (I J : ApplePS2FocalTech -> Prop) (m : M (@FocWorld B) X) : Prop :=
  forall w, good I true w -> wp m (fun _ w' => good J false w') w.

Lemma leads_bind {X Y} I J K (m : M FocWorld X) (k : X -> M FocWorld Y) :
  leads I J m -> (forall x, leads J K (k x)) -> leads I K (m ≫= k).
Proof.
  intros Hm Hk w Hw. apply wp_bind. eapply wp_mono; [by apply Hm|]. cbn beta. intros x w1 H1. by apply Hk.
Qed.

Lemma leads_unlocked {X} I (m : M FocWorld X) : unlocked I m -> leads I I m.
Proof. done. Qed.

Lemma leads_mono {X} (I I' J J' : ApplePS2FocalTech -> Prop) (m : M FocWorld X) :
  (forall d, I' d -> I d) -> (forall d, J d -> J' d) -> leads I J m -> leads I' J' m.
Proof.
  intros HI HJ Hm w Hw. eapply wp_mono; [apply Hm; by eapply good_mono|]. cbn beta.
  intros _ w'. by apply good_mono.
Qed.

Lemma leads_fset (I J : ApplePS2FocalTech -> Prop) f :
  (forall d, I d -> J (f d)) -> (forall d, _interruptInstalled (f d) = _interruptInstalled d) ->
  leads I J (fset f).
Proof. intros Hf Hi w [H1 H2 H3 H4]. split; simpl; [by apply Hf|done|done|by rewrite Hi]. Qed.

Lemma leads_lock {X} I J `{!DriverInv I} (k : unit -> M FocWorld X) :
  (forall x, gives_back I J (k x)) -> leads I J (onBus bus_lock ≫= k).
Proof.
  intros Hk w Hw. apply wp_bind. eapply wp_mono; [by apply (good_lock I)|]. cbn beta. intros x w1 H1. by apply Hk.
Qed.

Lemma gives_back_bind {X Y} I J (m : M FocWorld X) (k : X -> M FocWorld Y) :
  steady I m -> (forall x, gives_back I J (k x)) -> gives_back I J (m ≫= k).
Proof.
  intros Hm Hk w Hw. apply wp_bind. eapply wp_mono; [by apply (Hm true)|]. cbn beta. intros x w1 H1. by apply Hk.
Qed.

Lemma gives_back_unlock I `{!DriverInv I} : gives_back I I (onBus bus_unlock).
Proof. intros w Hw. by apply good_unlock. Qed.

Lemma gives_back_unlock_bind {X} I J `{!DriverInv I} (k : unit -> M FocWorld X) :
  (forall x, leads I J (k x)) -> gives_back I J (onBus bus_unlock ≫= k).
Proof.
  intros Hk w Hw. apply wp_bind. eapply wp_mono; [by apply (good_unlock I)|]. cbn beta. intros x w1 H1. by apply Hk.
Qed.

Lemma attached_driver o d : attached n o d -> foc_ok n d.
Proof. by intros []. Qed.

Lemma unlocked_detectWithFallback p : unlocked (attached n (Some p)) detectWithFallback.
Proof.
  unfold detectWithFallback. apply unlocked_bind; [apply steady_attached; eauto with foc|]. intros k.
  apply unlocked_bind; [apply unlocked_fset; [foc_fields|done]|]. intros _.
  apply unlocked_bind; [apply unlocked_fset; [foc_fields|done]|]. intros _.
  apply unlocked_bind; [apply steady_attached; eauto with foc|]. intros [|]; [apply unlocked_ret|].
  apply unlocked_bind; [apply steady_attached; eauto with foc|]. intros [|]; [|apply unlocked_ret].
  apply unlocked_bind; [apply prepareLegacy_ok|]. intros [|]; [|apply unlocked_ret].
  apply unlocked_bind; [apply unlocked_fset; [foc_fields|done]|]. intros _.
  apply steady_attached. eauto with foc.
Qed.

Lemma unlocked_setDevicePowerState what : unlocked (foc_ok n) (setDevicePowerState what).
Proof.
  intros w Hw. unfold setDevicePowerState. apply wp_bind, wp_gets.
  destruct (_device (drv w)) as [p|] eqn:Ep; [|by apply wp_ret].
  destruct (_ =? _).
  { revert w Hw Ep. intros w Hw _. revert w Hw. change (unlocked (foc_ok n)
      (fset (fun d => {| (cancelTimeout d) with _forceEligible := false; _forceActive := false |}) ;;
       setTouchPadEnable false)).
    apply unlocked_bind; [|intros _; apply unlocked_of_steady; eauto with foc].
    apply unlocked_fset; [apply quiet_ok|]. intros d. unfold cancelTimeout. by destruct (_forceTimer d). }
  destruct (negb _); [by apply wp_ret|].
  assert (Ha : good (attached n (Some p)) false w) by (by destruct Hw).
  refine (leads_mono (attached n (Some p)) _ (attached n (Some p)) _ _ (fun d Hd => Hd) (attached_driver _) _ _ Ha).
  apply unlocked_bind; [apply steady_attached; eauto with foc|]. intros _.
  apply unlocked_bind; [apply unlocked_detectWithFallback|]. intros [|]; [|apply unlocked_ret].
  apply leads_lock; [exact _|]. intros _. apply gives_back_bind; [apply steady_setupHardware|]. intros c.
  apply gives_back_bind; [apply steady_when; eauto with foc|]. intros _. by apply gives_back_unlock, _.
Qed.

(** Installing and removing the interrupt action, with the flag that records it. *)
Lemma gives_back_installing {X} I J `{!DriverInv I} (k : unit -> M FocWorld X) :
  (forall d, I d -> I {| d with _interruptInstalled := true |}) -> (forall x, gives_back I J (k x)) ->
  gives_back I J (onBus bus_installInterrupt ;;
                  fset (fun d => {| d with _interruptInstalled := true |}) ≫= k).
Proof.
  intros HI Hk w [H1 H2 H3 H4]. apply wp_bind.
  eapply wp_mono; [apply (wp_call I _ (fun _ => True) true True w H1)|].
  - eapply wp_mono; [by apply law_installInterrupt|]. cbn beta. intros x b (? & ? & ?).
    split_and!; [done|done|congruence|done].
  - cbn beta. intros x w1 (_ & H5 & H6 & H7 & H8 & _). apply wp_bind, wp_modify.
    apply Hk. split; simpl; auto.
Qed.

Lemma steady_uninstalling {X} (k : unit -> M FocWorld X) :
  (forall x, steady (foc_ok n) (k x)) ->
  steady (foc_ok n) (i ← fget _interruptInstalled; when i (onBus bus_uninstallInterrupt ;;
    fset (fun d => {| d with _interruptInstalled := false |})) ≫= k).
Proof.
  intros Hk l w [H1 H2 H3 H4]. apply wp_bind, wp_gets, wp_bind, wp_when; [|intros _; by apply Hk].
  intros E. apply wp_bind. eapply wp_mono; [apply (wp_call (foc_ok n) _ (fun _ => True) l False w H1)|].
  - eapply wp_mono; [apply law_uninstallInterrupt; auto|]. cbn beta. intros x b' [? ?].
    split_and!; [done|done|congruence|done].
  - cbn beta. intros x w1 (_ & H5 & H6 & H7 & _ & _). apply wp_modify. apply Hk. split; simpl; [|done|done|done].
    revert H5. generalize (drv w1). foc_fields.
Qed.

Lemma unlocked_start nub prop wl tm :
  (forall p, nub = Some p -> 0 <= p < kPS2MuxMaxIdx) -> unlocked (foc_ok n) (start nub prop wl tm).
Proof.
  intros Hp. unfold start. apply (leads_bind _ (attached n nub)).
  { apply leads_fset; [|done]. intros d Hd. by apply attach_ok. }
  intros _. assert (Hdetach : forall d, attached n nub d -> foc_ok n {| d with _device := None |}).
  { intros d [Hd _]. by apply attach_ok. }
  assert (Hno : forall d, attached n nub d -> foc_ok n {| d with _forceTimer := None; _device := None |}).
  { foc_fields. }
  destruct nub as [p|]; [|apply (leads_mono (attached n None) _ (attached n None)); [done|by intros d []|apply unlocked_ret]].
  apply (leads_bind _ (attached n (Some p))); [apply unlocked_fset; [foc_fields|done]|]. intros _.
  apply (leads_bind _ (attached n (Some p))); [apply steady_attached; eauto with foc|]. intros k.
  apply (leads_bind _ (attached n (Some p))); [apply unlocked_fset; [foc_fields|done]|]. intros _.
  apply (leads_bind _ (attached n (Some p))).
  { apply steady_attached. intros I _. by apply steady_publishRuntimeDiagnostics. }
  intros _. destruct (negb wl).
  { apply (leads_bind _ (foc_ok n)); [by apply leads_fset|intros _; apply unlocked_ret]. }
  destruct (negb tm).
  { apply (leads_bind _ (foc_ok n)); [by apply leads_fset|intros _; apply unlocked_ret]. }
  apply (leads_bind _ (attached n (Some p))); [apply unlocked_fset; [foc_fields|done]|]. intros _.
  apply leads_lock; [exact _|]. intros _. apply gives_back_bind; [apply steady_setupHardware|]. intros [|]; cbn [negb].
  - apply gives_back_installing; [exact _|foc_fields|]. intros _.
    apply gives_back_bind; [eauto with foc|]. intros _.
    apply gives_back_unlock_bind; [exact _|]. intros _.
    apply (leads_bind _ (attached n (Some p))); [apply steady_attached; eauto with foc|]. intros _.
    apply (leads_bind _ (attached n (Some p))); [apply unlocked_fset; [foc_fields|done]|]. intros _.
    apply (leads_mono (attached n (Some p)) _ (attached n (Some p))); [done|apply attached_driver|apply unlocked_ret].
  - apply gives_back_unlock_bind; [exact _|]. intros _.
    apply (leads_bind _ (foc_ok n)); [by apply leads_fset|intros _; apply unlocked_ret].
Qed.

Lemma unlocked_probe nub prop :
  (forall p, nub = Some p -> 0 <= p < kPS2MuxMaxIdx) -> unlocked (foc_ok n) (probe nub prop).
Proof.
  intros Hp. unfold probe. apply (leads_bind _ (attached n nub)).
  { apply leads_fset; [|done]. intros d Hd. by apply attach_ok. }
  intros _. destruct nub as [p|];
    [|apply (leads_mono (attached n None) _ (attached n None)); [done|by intros d []|apply unlocked_ret]].
  apply (leads_bind _ (attached n (Some p))); [apply unlocked_fset; [foc_fields|done]|]. intros _.
  apply (leads_bind _ (attached n (Some p))); [apply unlocked_detectWithFallback|]. intros b.
  apply (leads_bind _ (attached n (Some p))).
  { apply steady_attached. intros I _. by apply steady_when, steady_publishRuntimeDiagnostics. }
  intros _. apply (leads_bind _ (foc_ok n)); [|intros _; apply unlocked_ret].
  apply leads_fset; [|done]. intros d [Hd _]. by apply attach_ok.
Qed.

Lemma steady_stop : steady (B := B) (foc_ok n) stop.
Proof.
  unfold stop. apply steady_bind; [apply steady_fset; [foc_fields|done]|]. intros _.
  apply steady_device; [exact _| |intros p _].
  - apply steady_bind; [apply steady_ret|]. intros _. apply steady_fset; [foc_fields|done].
  - apply steady_bind; [|intros _; apply steady_fset; [foc_fields|done]].
    apply steady_bind; [eauto with foc|]. intros _.
    apply steady_uninstalling. intros _. foc_steps.
Qed.

Lemma unlocked_run_op o : driver_op_ok o -> unlocked (foc_ok n) (run_op o).
Proof.
  assert (Hret : forall X (m : M FocWorld X), unlocked (foc_ok n) m -> unlocked (foc_ok n) (m ;; ret tt)).
  { intros X m Hm. apply unlocked_bind; [done|]. intros _. apply unlocked_ret. }
  destruct o as [data| | |what|c i|c|nub p|nub p wl tm|]; intros Ho; cbn [run_op].
  - apply Hret. intros w [H1 H2 H3 H4]. destruct (interruptOccurred_ok n data _ H1) as (d' & r & E & Hd').
    unfold wp, atInterrupt. rewrite E. split; [done|done|done|]. simpl.
    apply interruptOccurred_frame, (f_equal _interruptInstalled) in E. simpl in E. by rewrite E.
  - intros w [H1 H2 H3 H4]. destruct (packetReady_spec n Hn w H1) as (w' & E & _ & _ & [H5 H6 H7 H8]).
    unfold wp. rewrite E. rewrite <- H7 in *. split; [done|done|done|by rewrite H6].
  - apply unlocked_of_steady, runs_steady, runs_timerFires. done.
  - apply unlocked_setDevicePowerState.
  - apply Hret, unlocked_of_steady. unfold handleOpen. foc_steps.
  - apply unlocked_fset; [|intros d; by case_bool_decide]. intros d Hd. case_bool_decide; [|done]. revert d Hd H. foc_fields.
  - apply Hret, unlocked_probe. intros q ->. apply Ho.
  - apply Hret, unlocked_start. intros q ->. apply Ho.
  - apply unlocked_of_steady, steady_stop.
Qed.

(** C3: Cn: the FocalTech driver is safe against every history.  Over any bus that keeps
    the promises of [PS2BusLaws], in any order of interrupt bytes, work-loop calls,
    timeouts, power changes, opens and closes, probes, starts and stops, with any
    bytes and any answers of the device, no entry point leaves an array, uses a null
    pointer or takes or releases the controller's lock out of turn, and each ends
    with the driver's invariant: the ring aligned to packets, at most five bytes of a
    packet collected, every touching finger within the pad, and a force click only
    measured or held during a left click by an existing finger. *)
Theorem focaltech_safe ops w :
  Forall driver_op_ok ops ->
  foc_ok n (drv w) -> bus_ok (bus w) -> bus_locked (bus w) = false ->
  (_interruptInstalled (drv w) = true -> bus_installed (bus w) = true) ->
  wp (for_each ops run_op) (fun _ w' =>
    foc_ok n (drv w') /\ bus_ok (bus w') /\ bus_locked (bus w') = false) w.
Proof.
  intros Ho H1 H2 H3 H4. eapply (wp_mono _ (fun _ w' => good (foc_ok n) false w')).
  - apply wp_for_each; [by split|]. intros o w' Hin Hw'. rewrite Forall_forall in Ho.
    by apply unlocked_run_op; [apply Ho|].
  - intros _ w' []. done.
Qed.

End Safety.

(** ** The driver on the controller *)

(** The bench's controller with the driver's nub in slot 1, as [start] leaves it. *)
Definition foc_bench (answers : list Z) : @FocWorld (World (list Z) PS2Request) :=
  mkFocWorld (newFocalTech 10) (bench answers) 0 [].

Lemma foc_bench_ok l : world_ok 1 (bus (foc_bench l)).
Proof.
  split; [apply bench_ctl_ok|]. split; simpl; try done; try (by eexists).
  exists (bench_device 1). split; [done|]. split; [done|]. by intros f [= <-].
Qed.

Lemma focaltech_safe_witness :
  let ops := [OpStart (Some 1) (Some 1) true true; OpByte 0xfa; OpPackets; OpTimer; OpPower 0; OpStop] in
  let w := foc_bench (repeat 0 200) in
  world_ok 1 (bus w) /\
  wp (for_each ops (run_op (HB := controller_bus 1 bench_request)))
     (fun _ w' => foc_ok 10 (drv w') /\ world_ok 1 (bus w') /\ held (bus w') = false) w.
Proof.
  intros ops w. split; [apply foc_bench_ok|].
  refine (focaltech_safe (HB := controller_bus 1 bench_request)
            (HL := controller_bus_laws 1 bench_request) 10 _ ops w _ _ _ _ _).
  - done.
  - repeat constructor; done.
  - by apply newFocalTech_ok.
  - apply foc_bench_ok.
  - done.
  - done.
Defined.
