(* ===== verification/FocalTechPackets.v ===== *)
(** * From interrupt bytes to processed packets

    The path of a packet through the FocalTech driver: six interrupts put its bytes
    into the ring, the work loop takes it out and processes it. *)
From S2P Require Import Prelude PS2Types RingBuffer RingSpec Controller TestBench Bus.
From S2P Require Import BusController Touch FocalTech FocalTechDecode FocalTechReport.
From S2P Require Import FocalTechInv FocalTechSafe FocalTechRun FocalTechSpec.

Definition waitingPackets (d : ApplePS2FocalTech) : list (list Z) :=
  pending FOC_RING FOC_PACKET_LENGTH (_ringBuffer d).

(** A full ring drops the packet. *)
Definition enqueue (q : list (list Z)) (packet : list Z) : list (list Z) :=
  if Z.of_nat (length q) + 1 <? FOC_RING / FOC_PACKET_LENGTH then q ++ [packet] else q.

Definition interrupts (bytes : list Z) : M ApplePS2FocalTech unit :=
  for_each bytes (fun data => interruptOccurred data ;; ret tt).

(** The bytes collected so far are the head slot's first ones. *)
Definition collecting (d : ApplePS2FocalTech) (k : nat) (bytes : list Z) : Prop :=
  _packetByteCount d = Z.of_nat k /\
  take k (slot_at FOC_PACKET_LENGTH (m_buffer (_ringBuffer d)) (m_head (_ringBuffer d))) = bytes.

Lemma slot_six d :
  aligned FOC_RING FOC_PACKET_LENGTH (_ringBuffer d) ->
  length (slot_at FOC_PACKET_LENGTH (m_buffer (_ringBuffer d)) (m_head (_ringBuffer d))) = 6%nat.
Proof. intros H. apply (slot_length FOC_RING FOC_PACKET_LENGTH); try done; apply H. Qed.

(** The byte is stored in the head slot; the sixth commits the slot. *)
Lemma interruptOccurred_step n data d :
  foc_ok n d -> exists rb,
  head_set (_packetByteCount d) (u8 data) (_ringBuffer d) = Some rb /\
  interruptOccurred data d =
    let d1 := {| d with _irqByteCount := u64 (_irqByteCount d + 1); _ringBuffer := rb;
                        _packetByteCount := _packetByteCount d + 1 |} in
    if _packetByteCount d + 1 =? FOC_PACKET_LENGTH
    then Ok ({| d1 with _ringBuffer := advanceHead FOC_RING FOC_PACKET_LENGTH rb;
                _packetByteCount := 0 |}, kPS2IR_packetReady)
    else Ok (d1, kPS2IR_packetBuffering).
Proof.
  intros Hd. assert (Hr := fo_ring n _ (fo_base _ _ Hd)). assert (Hb := fo_bytes n _ (fo_base _ _ Hd)).
  eexists. unfold interruptOccurred.
  rewrite (head_set_spec FOC_RING FOC_PACKET_LENGTH ltac:(done) ltac:(done) ltac:(done) _ _ _ Hr Hb).
  split; [done|]. cbn [_packetByteCount]. unfold FOC_PACKET_LENGTH in *. rewrite u32_small by lia. done.
Qed.

(** Storing byte [k] of the packet. *)
Lemma stored_byte n k bytes data d rb :
  foc_ok n d -> collecting d k bytes ->
  head_set (_packetByteCount d) (u8 data) (_ringBuffer d) = Some rb ->
  aligned FOC_RING FOC_PACKET_LENGTH rb /\
  pending FOC_RING FOC_PACKET_LENGTH rb = waitingPackets d /\
  take (S k) (slot_at FOC_PACKET_LENGTH (m_buffer rb) (m_head rb)) = bytes ++ [u8 data].
Proof.
  intros Hd [Hk Hb] E. assert (Hr := fo_ring n _ (fo_base _ _ Hd)).
  assert (Hi := fo_bytes n _ (fo_base _ _ Hd)).
  split; [by eapply head_set_aligned|]. split; [by eapply (head_set_pending FOC_RING); [done..|exact Hr|exact Hi|]|].
  rewrite (head_set_slot FOC_RING FOC_PACKET_LENGTH ltac:(done) ltac:(done) ltac:(done) _ _ _ _ Hr Hi E), Hk, Nat2Z.id.
  pose proof (slot_six d Hr) as Hl. unfold FOC_PACKET_LENGTH in Hi.
  rewrite (take_S_r _ _ (u8 data)) by (apply list_lookup_insert_eq; lia).
  rewrite take_insert_ge by lia. by rewrite Hb.
Qed.

Lemma interrupt_store n k bytes data d :
  foc_ok n d -> collecting d k bytes -> (k < 5)%nat ->
  exists d', interruptOccurred data d = Ok (d', kPS2IR_packetBuffering) /\ foc_ok n d' /\
    collecting d' (S k) (bytes ++ [u8 data]) /\ waitingPackets d' = waitingPackets d.
Proof.
  intros Hd Hc Hlt. destruct (interruptOccurred_ok n data d Hd) as (d' & r & E & Hd').
  destruct (interruptOccurred_step n data d Hd) as (rb & Er & E'). rewrite E in E'.
  destruct (stored_byte n k bytes data d rb Hd Hc Er) as (_ & Hp & Hs). destruct Hc as [Hk _].
  cbn zeta in E'. rewrite (proj2 (Z.eqb_neq _ _)) in E' by (unfold FOC_PACKET_LENGTH; lia).
  injection E' as -> ->. eexists. split; [exact E|]. split; [done|]. split; [|exact Hp].
  split; [simpl; lia|exact Hs].
Qed.

Lemma interrupt_commit n bytes data d :
  foc_ok n d -> collecting d 5 bytes ->
  exists d', interruptOccurred data d = Ok (d', kPS2IR_packetReady) /\ foc_ok n d' /\
    collecting d' 0 [] /\ waitingPackets d' = enqueue (waitingPackets d) (bytes ++ [u8 data]).
Proof.
  intros Hd Hc. destruct (interruptOccurred_ok n data d Hd) as (d' & r & E & Hd').
  destruct (interruptOccurred_step n data d Hd) as (rb & Er & E'). rewrite E in E'.
  destruct (stored_byte n 5 bytes data d rb Hd Hc Er) as (Ha & Hp & Hs). destruct Hc as [Hk _].
  cbn zeta in E'. rewrite (proj2 (Z.eqb_eq _ _)) in E' by (unfold FOC_PACKET_LENGTH; lia).
  injection E' as -> ->. eexists. split; [exact E|]. split; [done|]. split; [done|].
  unfold waitingPackets, enqueue. simpl. rewrite advanceHead_pending by done. rewrite Hp.
  pose proof (slot_length FOC_RING FOC_PACKET_LENGTH ltac:(done) ltac:(done) ltac:(done) rb (m_head rb)
    (al_ring _ _ _ Ha) (ok_head _ _ (al_ring _ _ _ Ha)) (al_head _ _ _ Ha)) as Hl.
  rewrite take_ge in Hs by (rewrite Hl; done). rewrite Hs.
  rewrite (count_packets FOC_RING FOC_PACKET_LENGTH) by done. rewrite Hp.
  unfold waitingPackets. set (m := Z.of_nat (length (pending _ _ (_ringBuffer d)))).
  change (FOC_RING / FOC_PACKET_LENGTH) with 32. change FOC_RING with 192. change FOC_PACKET_LENGTH with 6.
  destruct (Z.ltb_spec (6 * m + 6) 192), (Z.ltb_spec (m + 1) 32); done || lia.
Qed.

Lemma interrupts_cons b l d d' r :
  interruptOccurred b d = Ok (d', r) -> interrupts (b :: l) d = interrupts l d'.
Proof. intros E. unfold interrupts. cbn [for_each]. by rewrite bind_assoc, (bind_ok _ _ _ _ _ E). Qed.

(** One packet's bytes. *)
Lemma interrupts_packet n bytes d :
  foc_ok n d -> _packetByteCount d = 0 -> length bytes = 6%nat -> Forall is_byte bytes ->
  exists d', interrupts bytes d = Ok (d', tt) /\ foc_ok n d' /\ _packetByteCount d' = 0 /\
    waitingPackets d' = enqueue (waitingPackets d) bytes.
Proof.
  intros Hd H0 Hl Hb. assert (Hu : map u8 bytes = bytes).
  { clear - Hb. induction Hb as [|b l Hb _ IH]; [done|]. simpl. by rewrite IH, u8_small. }
  do 6 (destruct bytes as [|? bytes]; [done|]). destruct bytes; [|done].
  assert (Hc0 : collecting d 0 []) by done.
  destruct (interrupt_store n 0 [] z d Hd Hc0 ltac:(lia)) as (d1 & E1 & Hd1 & Hc1 & Hw1).
  destruct (interrupt_store n 1 _ z0 d1 Hd1 Hc1 ltac:(lia)) as (d2 & E2 & Hd2 & Hc2 & Hw2).
  destruct (interrupt_store n 2 _ z1 d2 Hd2 Hc2 ltac:(lia)) as (d3 & E3 & Hd3 & Hc3 & Hw3).
  destruct (interrupt_store n 3 _ z2 d3 Hd3 Hc3 ltac:(lia)) as (d4 & E4 & Hd4 & Hc4 & Hw4).
  destruct (interrupt_store n 4 _ z3 d4 Hd4 Hc4 ltac:(lia)) as (d5 & E5 & Hd5 & Hc5 & Hw5).
  destruct (interrupt_commit n _ z4 d5 Hd5 Hc5) as (d6 & E6 & Hd6 & [Hc6 _] & Hw6).
  exists d6. split; [|split; [done|split; [done|]]].
  - rewrite (interrupts_cons _ _ _ _ _ E1), (interrupts_cons _ _ _ _ _ E2), (interrupts_cons _ _ _ _ _ E3).
    by rewrite (interrupts_cons _ _ _ _ _ E4), (interrupts_cons _ _ _ _ _ E5), (interrupts_cons _ _ _ _ _ E6).
  - rewrite Hw6, Hw5, Hw4, Hw3, Hw2, Hw1. f_equal. exact Hu.
Qed.

Lemma interrupts_app l1 l2 d d1 : interrupts l1 d = Ok (d1, tt) -> interrupts (l1 ++ l2) d = interrupts l2 d1.
Proof.
  revert d. induction l1 as [|b l1 IH]; intros d E; [by injection E as <-|].
  unfold interrupts in E. cbn [for_each] in E. apply bind_inv in E as (d2 & [] & E1 & E2).
  apply bind_inv in E1 as (d3 & r & E1 & [= <-]).
  rewrite <- app_comm_cons, (interrupts_cons _ _ _ _ _ E1). by apply IH.
Qed.

(** C5: Cn: bytes become packets.  Starting between two packets, the bytes of any number
    of six-byte packets, given one interrupt at a time, leave exactly those packets
    queued behind the ones that waited already, in order and unchanged, except that
    a packet that finds the ring full (thirty-one waiting) is dropped whole; no byte
    is ever stored outside the ring and the next packet starts aligned. *)
Theorem bytes_become_packets n packets d :
  foc_ok n d -> _packetByteCount d = 0 ->
  Forall (fun p => length p = 6%nat /\ Forall is_byte p) packets ->
  exists d', interrupts (concat packets) d = Ok (d', tt) /\ foc_ok n d' /\ _packetByteCount d' = 0 /\
    waitingPackets d' = foldl enqueue (waitingPackets d) packets.
Proof.
  intros Hd H0 Hp. revert d Hd H0. induction Hp as [|p l [Hl Hb] Hp IH]; intros d Hd H0.
  { by exists d. }
  destruct (interrupts_packet n p d Hd H0 Hl Hb) as (d1 & E1 & Hd1 & Hk1 & Hw1).
  destruct (IH d1 Hd1 Hk1) as (d' & E' & Hd' & Hk' & Hw').
  exists d'. simpl. rewrite (interrupts_app _ _ _ _ E1). split; [done|]. split; [done|]. split; [done|].
  by rewrite Hw', Hw1.
Qed.

Lemma bytes_become_packets_witness :
  foc_ok 10 (newFocalTech 10) /\
  exists d', interrupts (encode (PkTouch [true; false; false; false; false] false) ++
                         encode (PkAbsolute 0 700 300 4 true)) (newFocalTech 10) = Ok (d', tt) /\
    waitingPackets d' = [encode (PkTouch [true; false; false; false; false] false);
                         encode (PkAbsolute 0 700 300 4 true)].
Proof.
  assert (H : foc_ok 10 (newFocalTech 10)) by (by apply newFocalTech_ok). split; [exact H|].
  destruct (bytes_become_packets 10
    [encode (PkTouch [true; false; false; false; false] false); encode (PkAbsolute 0 700 300 4 true)]
    (newFocalTech 10) H) as (d' & E & _ & _ & Hw); [reflexivity|..].
  - repeat constructor; vm_compute; congruence.
  - exists d'. split; [exact E|]. rewrite Hw. reflexivity.
Defined.

(** C6: Cn: the work loop processes what waits.  Called on any ring, [packetReady] ends;
    it takes every waiting packet exactly once, oldest first, decodes and reports
    each before the next is looked at, and leaves no packet behind. *)
Theorem packetReady_drains {B : Type} `{PS2Bus B} n (w : @FocWorld B) :
  FOC_MAX_FINGERS <= n -> foc_ok n (drv w) ->
  exists w', packetReady w = Ok (w', tt) /\ drained w (waitingPackets (drv w)) w' /\
    waitingPackets (drv w') = [] /\ foc_ok n (drv w') /\ bus w' = bus w.
Proof.
  intros Hn Hd. destruct (packetReady_spec n Hn w Hd) as (w' & E & Hdr & Hw & [? _ ? _]).
  exists w'. by split_and!.
Qed.

(** A driver with two packets waiting. *)
Definition foc_waiting : ApplePS2FocalTech :=
  match interrupts (concat [encode (PkTouch [true; false; false; false; false] true);
                            encode (PkAbsolute 0 700 300 4 true)]) (newFocalTech 10) with
  | Ok (d, _) => {| d with _xMax := 1024; _yMax := 1024; _voodooInput := Some 7 |}
  | _ => newFocalTech 10
  end.

Lemma foc_waiting_ok : foc_ok 10 foc_waiting.
Proof.
  unfold foc_waiting. set (l := concat _).
  destruct (deliver_ok (foc_ok 10) l (newFocalTech 10)) as (d & E & Hd & _); [by apply newFocalTech_ok|].
  unfold interrupts. rewrite E.
  assert (Hf : _finger d = noFingers).
  { apply (f_equal (fun o => match o with Ok (d, _) => _finger d | _ => [] end)) in E. by rewrite <- E. }
  clear E. revert d Hd Hf. foc_fields. by apply noFingers_positions.
Qed.

Lemma packetReady_drains_witness :
  let w := {| (foc_bench []) with drv := foc_waiting |} in
  foc_ok 10 (drv w) /\
  exists w', packetReady w = Ok (w', tt) /\
    waitingPackets (drv w') = [] /\ _validPacketCount (drv w') = 2 /\ _lastButtons (drv w') = 1.
Proof.
  intros w. split; [exact foc_waiting_ok|].
  destruct (packetReady_drains (H := controller_bus 1 bench_request) 10 w ltac:(done) foc_waiting_ok)
    as (w' & E & _ & Hw & _ & _).
  exists w'. split; [exact E|]. split; [exact Hw|].
  assert (Hc : match packetReady w with
               | Ok (w1, _) => (_validPacketCount (drv w1), _lastButtons (drv w1))
               | _ => (0, 0) end = (2, 1)) by (unfold w; vm_compute; reflexivity).
  rewrite E in Hc. clear E. by injection Hc.
Defined.
