(* ===== verification/FocalTechClick.v ===== *)
(** * Clicks, buttons and the force click

    Which button a press means, when a left click becomes a force click, and what
    VoodooInput is told about the buttons. *)
From S2P Require Import Prelude PS2Types RingBuffer Controller TestBench Bus BusController.
From S2P Require Import Touch FocalTech FocalTechDecode FocalTechReport FocalTechInv.
From S2P Require Import FocalTechSafe FocalTechRun FocalTechSpec.

(** ** The press *)

(** The timer exists. *)
Definition has_timer (d : ApplePS2FocalTech) : bool := bool_decide (is_Some (_forceTimer d)).

(** C15: Cn: what a press means.  When the pad goes down, the lowest of the fingers that
    report decides: in the right half of the pad's lower thirty per cent the click is
    a right click, anywhere else a left one, and with no finger reporting it is a
    left click that cannot become a force click.  A left click by a finger is
    measured from that finger's position: the timer is set to two seconds if there
    is one. *)
Theorem press_decision d :
  hardware_ok (_hardware d) -> pressed (_hardware d) = true -> _clickWasPressed d = false ->
  exists d', clickEdge d = Some d' /\ _clickWasPressed d' = true /\ _forceActive d' = false /\
  (((forall s, s ∈ fingers (_hardware d) -> reports s = false) /\
    _clickRight d' = false /\ _forceEligible d' = false) \/
   (exists k s, arr_get (fingers (_hardware d)) k = Some s /\ reports s = true /\
      (forall s', s' ∈ fingers (_hardware d) -> reports s' = true -> padY (_yMax d) s' <= padY (_yMax d) s) /\
      _clickRight d' = right_region d (padX (_xMax d) s) (padY (_yMax d) s) /\
      _forceEligible d' = negb (_clickRight d') && has_timer d /\
      (_forceEligible d' = true -> _forceFinger d' = k /\ _forceStartX d' = fx s /\
         _forceStartY d' = fy s /\ _forceTimer d' = Some (Some kForceHoldMS)))).
Proof.
  intros Hh Hp Hc. exists (press_result d). split; [by apply clickEdge_press|].
  destruct (press_result_ok d Hh) as ([_ Hr _ _ _] & _ & Hw). split; [done|].
  destruct (target d) as [[[x y] k]|] eqn:Et.
  - destruct (target_finger d x y k Hh Et) as (_ & s & Hs & Hrep & Ex & Ey & Hlow).
    assert (E : _clickRight (press_result d) = right_region d x y /\
      _forceActive (press_result d) = false /\
      _forceEligible (press_result d) = negb (right_region d x y) && has_timer d /\
      (_forceEligible (press_result d) = true -> _forceFinger (press_result d) = k /\
         _forceStartX (press_result d) = fx s /\ _forceStartY (press_result d) = fy s /\
         _forceTimer (press_result d) = Some (Some kForceHoldMS))).
    { unfold press_result, right_click, has_timer. rewrite Et, Hs.
      destruct (_forceTimer d) as [t|]; [|by destruct (right_region d x y)].
      by destruct (right_region d x y). }
    destruct E as (E1 & E2 & E3 & E4). split; [done|]. right. exists k, s.
    split; [done|]. split; [done|]. split; [intros; rewrite <- Ey; auto|].
    rewrite <- Ex, <- Ey, E1. by split_and!.
  - assert (E : _clickRight (press_result d) = false /\ _forceActive (press_result d) = false /\
                _forceEligible (press_result d) = false).
    { unfold press_result, right_click. by rewrite Et. }
    destruct E as (E1 & E2 & E3). split; [done|]. left. split; [by apply target_none|done].
Qed.

Lemma press_decision_witness :
  let finger x y := mkFoc true true x y in
  let d := {| (newFocalTech 10) with _xMax := 1000; _yMax := 1000; _forceTimer := Some None;
     _hardware := mkFocHardware [finger 100 900; finger 300 400; noFinger; noFinger; noFinger] 4 true |} in
  hardware_ok (_hardware d) /\
  exists d', clickEdge d = Some d' /\ _clickRight d' = false /\ _forceFinger d' = 1 /\
    _forceTimer d' = Some (Some 2000).
Proof.
  intros finger d. assert (Hh : hardware_ok (_hardware d)) by reflexivity. split; [exact Hh|].
  destruct (press_decision d Hh) as (d' & E & _); [reflexivity|reflexivity|].
  exists d'. split; [exact E|]. vm_compute in E. by injection E as <-.
Defined.

(** ** The buttons VoodooInput knows of *)

(** The last buttons it was told, [b] if none. *)
Fixpoint told (b : Z) (l : list DriverEvent) : Z :=
  match l with
  | [] => b
  | EvButtons _ _ buttons :: l' => told buttons l'
  | _ :: l' => told b l'
  end.

Lemma told_app b l1 l2 : told b (l1 ++ l2) = told (told b l1) l2.
Proof. revert b. induction l1 as [|[] l1 IH]; intros b; simpl; auto. Qed.

Section Buttons.
Context {B : Type} `{HB : PS2Bus B}.
Context (c b0 : Z).
Implicit Types (w : @FocWorld B) (d : ApplePS2FocalTech).

(** VoodooInput's view agrees with the driver's. *)
Record in_step w : Prop := {
  is_client : _voodooInput (drv w) = Some c;
  is_buttons : told b0 (log w) = _lastButtons (drv w) }.

Definition stays {X} (m : M (@FocWorld B) X) : Prop :=
  forall w w' x, m w = Ok (w', x) -> in_step w -> in_step w'.

Lemma stays_bind {X Y} (m : M FocWorld X) (k : X -> M FocWorld Y) :
  stays m -> (forall x, stays (k x)) -> stays (m ≫= k).
Proof. intros Hm Hk w w' y (w1 & x & E1 & E2)%bind_inv Hw. eapply Hk; [done|]. by eapply Hm. Qed.

Lemma stays_ret {X} (x : X) : stays (ret x).
Proof. by intros w w' y [= <- <-]. Qed.
Lemma stays_fget {X} (f : ApplePS2FocalTech -> X) : stays (fget f).
Proof. by intros w w' y [= <- <-]. Qed.
Lemma stays_gets {X} (f : FocWorld -> X) : stays (gets f).
Proof. by intros w w' y [= <- <-]. Qed.
Lemma stays_deref {X} (o : option X) : stays (deref o).
Proof. intros w w' y. destruct o; [by intros [= <- <-]|done]. Qed.
Lemma stays_when (b : bool) m : stays m -> stays (when b m).
Proof. destruct b; [done|intros _; apply stays_ret]. Qed.

Lemma stays_fset f :
  (forall d, _voodooInput (f d) = _voodooInput d /\ _lastButtons (f d) = _lastButtons d) -> stays (fset f).
Proof.
  intros Hf w w' x [= <- <-] [H1 H2]. destruct (Hf (drv w)) as [E1 E2]. split; simpl; congruence.
Qed.

Lemma stays_emit e : told b0 [e] = b0 -> (forall b, told b [e] = b) -> stays (emit e).
Proof. intros _ He w w' x [= <- <-] [H1 H2]. split; simpl; [done|]. by rewrite told_app, He. Qed.

Lemma stays_fstep f : (forall d d', f d = Some d' -> click_frame d d') -> stays (fstep f).
Proof.
  intros Hf w w' x. unfold fstep, fget, fset, deref. intros (w1 & o & [= <- <-] & E)%bind_inv.
  destruct (f (drv w)) as [d'|] eqn:Ef; [|done]. injection E as <- <-. intros [H1 H2].
  apply Hf in Ef as Ec. pose proof (f_equal _voodooInput Ec) as E1.
  pose proof (f_equal _lastButtons Ec) as E2. simpl in *. split; simpl; congruence.
Qed.

(** Telling the buttons and remembering them go together. *)
Lemma stays_tell b : stays (sendButtons b ;; fset (fun d => {| d with _lastButtons := b |})).
Proof.
  intros w w' x (w1 & [] & E1 & [= <- <-])%bind_inv [H1 H2]. unfold sendButtons in E1.
  apply bind_inv in E1 as (w2 & o & [= <- <-] & E1). rewrite H1 in E1.
  apply bind_inv in E1 as (w3 & t & [= <- <-] & [= <-]). split; simpl; [done|]. by rewrite told_app.
Qed.

Ltac stays_steps :=
  repeat match goal with
  | |- stays (sendButtons _ ;; _) => apply stays_tell
  | |- stays (_ ≫= _) => apply stays_bind; [|intros ?]
  | |- stays (ret _) => apply stays_ret
  | |- stays (fget _) => apply stays_fget
  | |- stays (gets _) => apply stays_gets
  | |- stays (deref _) => apply stays_deref
  | |- stays (when _ _) => apply stays_when
  | |- stays (fset _) => apply stays_fset; done
  | |- stays (emit _) => apply stays_emit; [done|intros; done]
  | |- stays (let '(_, _) := ?x in _) => destruct x
  | |- stays (match ?x with _ => _ end) => destruct x
  end.

Lemma stays_sendTouchData : stays sendTouchData.
Proof. unfold sendTouchData. stays_steps. Qed.

Lemma stays_reportState : stays reportState.
Proof.
  unfold reportState. apply stays_bind; [apply stays_fstep, clickEdge_frame|intros _].
  apply stays_bind; [apply stays_fstep, forceCheck_frame|intros _].
  stays_steps. apply stays_sendTouchData.
Qed.

Lemma stays_forceTimerFired : stays forceTimerFired.
Proof. unfold forceTimerFired. stays_steps. apply stays_sendTouchData. Qed.

Lemma stays_packetReady : stays packetReady.
Proof.
  unfold packetReady. intros w w' x. unfold loop. generalize (Datatypes.S (queued w)). intros f. revert w.
  induction f as [|f IH]; intros w E Hw; simpl in E; [done|].
  assert (Hr : stays (packetReadyRound tt)).
  { unfold packetReadyRound, processPacket, publishRuntimeDiagnostics.
    stays_steps; try apply stays_reportState.
    match goal with b : bool |- _ => destruct b end; by apply stays_fset. }
  destruct (packetReadyRound tt w) as [[w1 [[]|[]]]| |] eqn:E1; [|by injection E as <- <-; eapply Hr|done|done].
  by eapply IH, Hr.
Qed.

Lemma stays_atInterrupt data : stays (atInterrupt data).
Proof.
  intros w w' x. unfold atInterrupt.
  destruct (interruptOccurred data (drv w)) as [[d r]| |] eqn:E; [|done..].
  intros [= <- <-] [H1 H2]. apply interruptOccurred_frame in E.
  pose proof (f_equal _voodooInput E) as E1. pose proof (f_equal _lastButtons E) as E2.
  simpl in *. split; simpl; congruence.
Qed.

Lemma stays_timerFires : stays timerFires.
Proof. unfold timerFires. stays_steps. apply stays_forceTimerFired. Qed.

(** ** The buttons the pad asks for *)

(** Right, left, or none: a force click is pressure, not a button. *)
Definition wanted d : Z :=
  if negb (pressed (_hardware d)) then 0
  else if _clickRight d then 2 else if _forceActive d then 0 else 1.

(** [_leftButton] and [_rightButton] follow the last report. *)
Record masks_ok d : Prop := {
  mk_left : _leftButton d = if pressed (_hardware d) && negb (_clickRight d) then 1 else 0;
  mk_right : _rightButton d = if pressed (_hardware d) && _clickRight d then 2 else 0 }.

Context (n : Z) (Hn : FOC_MAX_FINGERS <= n).

Definition masked d : Prop := foc_ok n d /\ masks_ok d.
Definition reported d : Prop := masked d /\ _lastButtons d = wanted d.

Lemma masks_wanted d :
  masked d -> (if _forceActive d then _rightButton d else Z.lor (_leftButton d) (_rightButton d)) = wanted d.
Proof.
  intros [[Hb Hc] [Hl Hr]]. destruct (fo_force _ _ Hb) as [H1 H2 _ _ _]. rewrite Hl, Hr. unfold wanted.
  destruct (_forceActive d) eqn:Ea.
  - destruct (pressed (_hardware d)) eqn:Ep.
    + destruct (_clickRight d); [|done]. by destruct (H2 eq_refl).
    + done.
  - by destruct (pressed (_hardware d)), (_clickRight d).
Qed.

Lemma runs_sendTouchData_buttons : runs (B := B) masked reported sendTouchData.
Proof.
  unfold sendTouchData. eapply runs_bind; [apply runs_gets|]. intros t.
  apply runs_fget_bind. intros d [Hd Hm]. destruct (touch_ok n Hn d t Hd) as [E El]. rewrite E.
  eapply runs_deref_bind; [done|]. cbn iota.
  eapply (runs_bind _ masked).
  { apply runs_fset; [|done]. intros d' [[Hd' [Ml Mr]] ->]. split; [by apply event_ok|by split]. }
  intros _. apply runs_fget_bind. intros d1 Hd1. eapply (runs_bind _ masked).
  { eapply (runs_mono masked _ masked); [tauto|done|].
    destruct (_voodooInput d1); [apply runs_emit|apply runs_ret]. }
  intros _. apply runs_fget_bind. intros d2 Hd2. apply runs_fget_bind. intros d3 Hd3.
  rewrite (masks_wanted d2 Hd2). destruct (Z.eqb_spec (wanted d2) (_lastButtons d3)) as [Eq|Ne]; simpl.
  - eapply (runs_mono reported _ reported); [|done|apply runs_ret].
    intros d' [[Hd' ->] <-]. by split.
  - eapply (runs_bind _ (fun d => masked d /\ wanted d = wanted d2)).
    { eapply (runs_mono (fun d => masked d /\ wanted d = wanted d2) _ (fun d => masked d /\ wanted d = wanted d2));
        [|done|apply runs_sendButtons]. intros d' [[Hd' ->] <-]. done. }
    intros _. apply runs_fset; [|done]. intros d' [[Hd' [Ml Mr]] Ew]. split.
    + split; [revert d' Hd' Ml Mr Ew; foc_fields|by split].
    + simpl. unfold wanted in *. simpl. done.
Qed.

Lemma setButtons_masks d : foc_ok n d -> masked (setButtons d).
Proof.
  intros Hd. split; [by apply setButtons_ok|]. unfold setButtons.
  destruct (pressed (_hardware d)) eqn:Ep, (_clickRight d) eqn:Er; split; simpl; rewrite Ep, ?Er; done.
Qed.

Lemma runs_reportState_buttons : runs (B := B) (foc_base n) reported reportState.
Proof.
  unfold reportState. eapply (runs_bind _ (foc_ok n)).
  { apply runs_fstep. intros d Hd. destruct (clickEdge_ok n d Hd) as (d' & ? & ? & Hc). exists d'.
    split; [done|]. split; [done|]. apply (f_equal _interruptInstalled Hc). }
  intros _. eapply (runs_bind _ (foc_ok n)).
  { apply runs_fstep. intros d Hd. destruct (forceCheck_ok n d Hd) as (d' & ? & ? & Hc). exists d'.
    split; [done|]. split; [done|]. apply (f_equal _interruptInstalled Hc). }
  intros _. eapply (runs_bind _ (foc_ok n)); [apply runs_fset; [apply updateFingers_ok|done]|].
  intros _. eapply (runs_bind _ masked); [apply runs_fset; [apply setButtons_masks|done]|].
  intros _. apply runs_sendTouchData_buttons.
Qed.

(** Counters and the ring do not matter to the buttons. *)
Lemma reported_count d k : reported d -> reported {| d with _packetCount := k |}.
Proof. intros [[Hd [Ml Mr]] Hw]. split; [split; [revert d Hd Ml Mr Hw; foc_fields|by split]|done]. Qed.

Lemma reported_countPacket d b : reported d -> reported (countPacket b d).
Proof.
  intros [[Hd [Ml Mr]] Hw]. unfold countPacket.
  destruct b; (split; [split; [revert d Hd Ml Mr Hw; foc_fields|by split]|done]).
Qed.

Lemma reported_consume d : reported d -> reported (consumePacket d).
Proof. intros [[Hd [Ml Mr]] Hw]. split; [split; [by apply consumePacket_ok|by split]|done]. Qed.

Lemma runs_packetStep_buttons packet :
  length packet = Z.to_nat FOC_PACKET_LENGTH -> runs (B := B) reported reported (packetStep packet).
Proof.
  intros Hl. apply runs_packetStep_of; [done|apply reported_count|apply reported_countPacket|].
  apply runs_fget_bind. intros d Hd.
  destruct (decode_total packet (_hardware d) Hl) as (o & E & Ho); [apply Hd|].
  eapply runs_deref_bind; [done|]. destruct o as [h|].
  - eapply (runs_bind _ (foc_base n)).
    { apply runs_fset; [|done]. intros d' [[[Hd' _] _] _]. specialize (Ho h eq_refl). revert d' Hd'. foc_fields. }
    intros _. eapply (runs_bind _ reported); [apply runs_reportState_buttons|]. intros _. apply runs_ret.
  - eapply (runs_mono reported); [|done|apply runs_ret]. by intros ? [].
Qed.

Lemma drained_buttons w ps w' :
  drained w ps w' -> Forall (fun p => length p = Z.to_nat FOC_PACKET_LENGTH) ps ->
  reported (drv w) -> reported (drv w').
Proof.
  induction 1 as [|w p ps w1 w2 E _ IH]; [done|]. inversion 1 as [|? ? Hl Hf]; subst. intros Hd.
  destruct (runs_packetStep_buttons p Hl w Hd) as (w1' & [] & E' & [Hd1 _ _ _]).
  rewrite E in E'. injection E' as <-. apply IH; [done|]. by apply reported_consume.
Qed.

Lemma waiting_lengths w :
  foc_ok n (drv w) -> Forall (fun p => length p = Z.to_nat FOC_PACKET_LENGTH) (waiting w).
Proof.
  intros Hd. rewrite Forall_forall. intros p Hp.
  eapply (pending_packet_length FOC_RING FOC_PACKET_LENGTH); [done..|by eapply ring_ok_world|done].
Qed.

Lemma packetReady_buttons w :
  reported (drv w) -> total packetReady (fun _ w' => reported (drv w')) w.
Proof.
  intros Hd. destruct (packetReady_spec n Hn w) as (w' & E & Hdr & _); [apply Hd|].
  exists w', tt. split; [done|]. eapply drained_buttons; [done|apply waiting_lengths, Hd|done].
Qed.

Lemma atInterrupt_buttons data w :
  reported (drv w) -> total (atInterrupt data) (fun _ w' => reported (drv w')) w.
Proof.
  intros [[Hd [Ml Mr]] Hw]. destruct (interruptOccurred_ok n data _ Hd) as (d' & r & E & Hd').
  unfold total, atInterrupt. rewrite E. eexists _, r. split; [done|]. simpl.
  apply interruptOccurred_frame in E. pose proof (f_equal _leftButton E) as E1.
  pose proof (f_equal _rightButton E) as E2. pose proof (f_equal _lastButtons E) as E3.
  pose proof (f_equal _hardware E) as E4. pose proof (f_equal _clickRight E) as E5.
  pose proof (f_equal _forceActive E) as E6. simpl in *.
  split; [split; [done|split]|]; unfold wanted in *; rewrite ?E1, ?E2, ?E3, ?E4, ?E5, ?E6; done.
Qed.

(** The timeout: a force click takes the left button back. *)
Lemma timerFires_buttons w :
  reported (drv w) -> total timerFires (fun _ w' => reported (drv w')) w.
Proof.
  intros Hd. unfold timerFires. apply total_bind, total_gets.
  destruct (_forceTimer (drv w)) as [[ms|]|] eqn:Et; [|by apply total_ret..].
  assert (He : _forceEligible (drv w) = true) by (eapply fc_timer; [apply Hd|done]).
  apply total_bind, total_modify. set (w0 := {| w with drv := _ |}).
  assert (H0 : reported (drv w0)).
  { destruct Hd as [[Hd [Ml Mr]] Hw]. unfold w0. simpl. generalize (drv w) Hd Ml Mr Hw. clear.
    intros d Hd Ml Mr Hw. split; [split; [revert d Hd Ml Mr Hw; foc_fields|by split]|done]. }
  assert (Ht : forall ms, _forceTimer (drv w0) <> Some (Some ms)) by done.
  change (_forceEligible (drv w0) = true) in He.
  destruct (forceTimerFired_armed n w0 (proj1 (proj1 H0)) He) as (raw & _ & E).
  assert (Hr : runs (B := B) (fun d => d = drv w0) reported
    (if still_held (drv w0) raw then
       fset (fun d => {| d with _forceEligible := false; _forceActive := true |}) ;;
       when (nz (Z.land (_lastButtons (drv w0)) 0x01))
         (sendButtons 0 ;; fset (fun d => {| d with _lastButtons := 0 |})) ;;
       sendTouchData
     else fset (fun d => {| d with _forceEligible := false |}))).
  { clearbody w0. clear E. destruct H0 as [[H0 [Ml Mr]] Hw]. destruct (still_held (drv w0) raw).
    - eapply (runs_bind _ masked).
      { apply runs_fset; [|done]. intros d ->. split; [by apply activate_ok|by split]. }
      intros _. eapply (runs_bind _ masked); [|intros _; apply runs_sendTouchData_buttons].
      apply runs_when. intros _. eapply runs_bind; [apply runs_sendButtons|].
      intros _. apply runs_fset; [|done]. intros d [Hd' [Ml' Mr']].
      split; [revert d Hd' Ml' Mr'; foc_fields|by split].
    - apply runs_fset; [|done]. intros d ->. split; [split; [by apply deactivate_ok|by split]|done]. }
  destruct (Hr w0 eq_refl) as (w' & [] & E' & []). exists w', tt. by rewrite E.
Qed.

(** What the pad itself does: bytes, work, time. *)
Definition pad_op (o : DriverOp) : bool :=
  match o with OpByte _ | OpPackets | OpTimer => true | _ => false end.

Lemma pad_step o w :
  pad_op o = true -> reported (drv w) -> in_step w ->
  total (run_op o) (fun _ w' => reported (drv w') /\ in_step w') w.
Proof.
  intros Ho Hd Hs. destruct o; try done; cbn [run_op].
  - apply total_bind. destruct (atInterrupt_buttons data w Hd) as (w' & r & E & Hd').
    exists w', r. split; [done|]. apply total_ret. split; [done|]. by eapply stays_atInterrupt.
  - destruct (packetReady_buttons w Hd) as (w' & r & E & Hd'). exists w', r. split; [done|].
    split; [done|]. by eapply stays_packetReady.
  - destruct (timerFires_buttons w Hd) as (w' & r & E & Hd'). exists w', r. split; [done|].
    split; [done|]. by eapply stays_timerFires.
Qed.

(** C15: Cn: VoodooInput always knows the right buttons.  Along every history of bytes,
    work-loop calls and timeouts, which all end, the buttons VoodooInput was last
    told, those the driver remembers and those the pad asks for are the same: the
    right button while a right click is held, the left one while a left click is,
    and none while the pad is up or the click has become a force click. *)
Theorem buttons_follow_the_pad ops w :
  Forall (fun o => pad_op o = true) ops -> reported (drv w) -> in_step w ->
  total (for_each ops run_op) (fun _ w' =>
    told b0 (log w') = wanted (drv w') /\ _lastButtons (drv w') = wanted (drv w') /\
    _voodooInput (drv w') = Some c /\ foc_ok n (drv w')) w.
Proof.
  intros Ho. revert w. induction Ho as [|o ops Ho _ IH]; intros w Hd Hs; cbn [for_each].
  - apply total_ret. destruct Hs as [H1 H2], Hd as [[Hd _] Hw]. by rewrite H2.
  - apply total_bind. eapply total_mono; [by apply pad_step|]. cbn beta. intros _ w' [Hd' Hs']. by apply IH.
Qed.

End Buttons.

(** A driver with a pad of 1000 by 1000, a timer and VoodooInput's client 7. *)
Definition foc_pad : @FocWorld (World (list Z) PS2Request) :=
  {| (foc_bench []) with drv := {| (newFocalTech 10) with _xMax := 1000; _yMax := 1000;
     _forceTimer := Some None; _voodooInput := Some 7 |} |}.

Lemma foc_pad_ok : foc_ok 10 (drv foc_pad).
Proof.
  unfold foc_pad. split; [split; try done|done].
  - by apply noFingers_positions.
  - split; simpl; intuition congruence.
Qed.

Lemma buttons_follow_the_pad_witness :
  let ops := map OpByte (encode (PkTouch [true; false; false; false; false] false) ++
      encode (PkAbsolute 0 300 700 4 true)) ++ [OpPackets; OpTimer] in
  foc_ok 10 (drv foc_pad) /\
  total (for_each ops (run_op (HB := controller_bus 1 bench_request))) (fun _ w' =>
    told 0 (log w') = 0 /\ existsb (fun e => if e is EvButtons 7 _ 1 then true else false) (log w') = true /\
    _forceActive (drv w') = true) foc_pad.
Proof.
  intros ops. split; [exact foc_pad_ok|].
  destruct (buttons_follow_the_pad (HB := controller_bus 1 bench_request) 7 0 10 ltac:(done) ops foc_pad)
    as (w' & [] & E & Ht & _).
  - unfold ops. vm_compute. repeat constructor.
  - split; [split; [exact foc_pad_ok|by split]|reflexivity].
  - by split.
  - exists w', tt. split; [exact E|].
    assert (Hc : match for_each ops (run_op (HB := controller_bus 1 bench_request)) foc_pad with
                 | Ok (w1, _) => (told 0 (log w1),
                     existsb (fun e => if e is EvButtons 7 _ 1 then true else false) (log w1), _forceActive (drv w1))
                 | _ => (7, false, false) end = (0, true, true)) by (unfold ops; vm_compute; reflexivity).
    rewrite E in Hc. clear E. by injection Hc as -> -> ->.
Defined.
