(* ===== verification/DriverWorld.v ===== *)
(** * The world of a device driver

    What the drivers' models share: a driver object beside the bus it talks through,
    the time, and a trace of what it tells the rest of the system; calls into the
    controller, during which the driver may be interrupted; and the rules by which
    a driver is shown to keep an invariant over any bus that satisfies
    [PS2BusLaws].  A driver takes part by naming its interrupt routine, its nub and
    the flag that records whether its interrupt action is installed. *)
From S2P Require Import Prelude PS2Types Bus.

Class BusDriver (D : Type) := {
  drv_interrupt : Z -> M D PS2InterruptResult;
  drv_device : D -> option Z;
  drv_installed : D -> bool }.

Section World.
Context {B : Type} `{PS2Bus B} {D E : Type} `{BusDriver D}.

(** [now] is what [clock_get_uptime] gives; [told] what the driver told others. *)
Record DrvWorld := mkDrvWorld { self : D; host : B; now : Z; told : list E }.

Definition dget {X} (f : D -> X) : M DrvWorld X := gets (fun w => f (self w)).
Definition dset (f : D -> D) : M DrvWorld unit := modify (fun w => {| w with self := f (self w) |}).
Definition tell (e : E) : M DrvWorld unit := modify (fun w => {| w with told := told w ++ [e] |}).

(** A step of the driver that may leave an array. *)
Definition dstep (f : D -> option D) : M DrvWorld unit :=
  d ← dget f; d' ← deref d; dset (fun _ => d').

(** The interrupt routine works on the driver object alone. *)
Definition interrupted (data : Z) : M DrvWorld PS2InterruptResult := fun w =>
  match drv_interrupt data (self w) with
  | Ok (d, r) => Ok ({| w with self := d |}, r)
  | Wait => Wait
  | Crash => Crash
  end.

(** Calls into the controller: bytes that arrive meanwhile go to the driver. *)
Definition onController {X} (m : M B X) : M DrvWorld X := fun w =>
  match m (host w) with
  | Ok (b, x) =>
    let '(bytes, b') := bus_received b in
    match for_each bytes (fun data => drv_interrupt data ;; ret tt) (self w) with
    | Ok (d, _) => Ok ({| w with self := d; host := b' |}, x)
    | Wait => Wait
    | Crash => Crash
    end
  | Wait => Wait
  | Crash => Crash
  end.

(** [_device->submitRequestAndBlock(&r)] for a request of the commands [l]. *)
Definition requestDevice (p : Z) (l : list PS2Command) : M DrvWorld PS2Request :=
  onController (bus_submit {| (TPS2Request (Z.of_nat (length l)) l) with port := p |}).

(** [r.commands[i].inOrOut] *)
Definition commandResult (r : PS2Request) (i : Z) : M DrvWorld Z :=
  c ← deref (arr_get (commands r) i); ret (inOrOut c).

End World.
Arguments DrvWorld B D E : clear implicits.

(** Bytes that come one after the other. *)
Lemma interrupted_each {B D E} `{BusDriver D} l (w : DrvWorld B D E) d' :
  for_each l (fun data => drv_interrupt data ;; ret tt) (self w) = Ok (d', tt) ->
  for_each l (fun data => interrupted data ;; ret tt) w = Ok ({| w with self := d' |}, tt).
Proof.
  revert w. induction l as [|b l IH]; intros w; simpl.
  { intros [= <-]. by destruct w. }
  unfold mbind, M_bind, bind, interrupted at 1. destruct (drv_interrupt b (self w)) as [[d1 r]| |]; [|done..].
  intros E1. exact (IH {| w with self := d1 |} E1).
Qed.

(** [r.commandsCount == n] *)
Definition completed (r : PS2Request) (n : Z) : bool := commandsCount r =? n.

(** ** Invariants *)

(** An invariant of the driver between two of its entry points. *)
Class KeepsInv {D} `{BusDriver D} (I : D -> Prop) := {
  inv_port : forall d p, I d -> drv_device d = Some p -> 0 <= p < kPS2MuxMaxIdx;
  inv_interrupt : forall d data, I d -> exists d' r, drv_interrupt data d = Ok (d', r) /\ I d' /\
    drv_device d' = drv_device d /\ drv_installed d' = drv_installed d }.

(** What the bytes that arrive during a call into the controller leave of an invariant. *)
Class Undisturbed {B D} `{PS2Bus B, BusDriver D} (I : D -> Prop) := {
  und_port : forall d p, I d -> drv_device d = Some p -> 0 <= p < kPS2MuxMaxIdx;
  und_arrive : forall b d, bus_ok b -> I d ->
    exists d', for_each (bus_received b).1 (fun data => drv_interrupt data ;; ret tt) d = Ok (d', tt) /\
    I d' /\ drv_device d' = drv_device d /\ drv_installed d' = drv_installed d }.

Lemma interrupts_arrive {D} `{BusDriver D} (I : D -> Prop) `{!KeepsInv I} bytes d :
  I d -> exists d', for_each bytes (fun data => drv_interrupt data ;; ret tt) d = Ok (d', tt) /\
    I d' /\ drv_device d' = drv_device d /\ drv_installed d' = drv_installed d.
Proof.
  revert d. induction bytes as [|b l IH]; intros d Hd; simpl; [by exists d|].
  destruct (inv_interrupt d b Hd) as (d1 & r & E0 & H1 & Ed & Ei).
  destruct (IH d1 H1) as (d' & E' & H' & Ed' & Ei').
  exists d'. rewrite bind_assoc, (bind_ok _ _ _ _ _ E0). split; [done|]. split; [done|]. split; congruence.
Qed.

#[export] Instance keeps_undisturbed {B D} `{PS2Bus B, BusDriver D} (I : D -> Prop) `{!KeepsInv I} : Undisturbed (B := B) I.
Proof. split; [apply inv_port|]. intros b d _. by apply interrupts_arrive. Qed.

(** A bus over which no byte arrives meanwhile. *)
Class SilentBus (B : Type) `{PS2Bus B} := silent : forall b, bus_ok b -> (bus_received b).1 = [].

Lemma silent_undisturbed {B D} `{HB : PS2Bus B, !SilentBus B, HD : BusDriver D} (I : D -> Prop) :
  (forall d p, I d -> drv_device d = Some p -> 0 <= p < kPS2MuxMaxIdx) -> Undisturbed (B := B) I.
Proof. intros Hp. split; [exact Hp|]. intros b d Hb Hd. rewrite (silent b Hb). by exists d. Qed.

(** What the driver may tell others. *)
Class Tells (E : Type) := may_tell : E -> Prop.

(** The driver on a known device. *)
Definition on_device {D} `{BusDriver D} (I : D -> Prop) (o : option Z) (d : D) : Prop :=
  I d /\ drv_device d = o.

#[export] Instance on_device_keeps {D} `{BusDriver D} (I : D -> Prop) `{!KeepsInv I} o :
  KeepsInv (on_device I o).
Proof.
  split; [intros d p [Hd _]; by apply inv_port|]. intros d data [Hd Ho].
  destruct (inv_interrupt d data Hd) as (d' & r & E & Hd' & Ed & Ei). exists d', r.
  split; [done|]. split; [split; [done|congruence]|done].
Qed.

Section Moves.
Context {B : Type} `{HB : PS2Bus B} `{HL : !PS2BusLaws B} {D E : Type} `{HD : BusDriver D} `{HT : Tells E}.
Implicit Types (w : DrvWorld B D E) (I J K : D -> Prop).
#[local] Abbreviation C := (M (DrvWorld B D E)).

(** The world between two steps; [l] says whether the driver holds the lock. *)
Record good I (l : bool) w : Prop := {
  gd_self : I (self w);
  gd_host : bus_ok (host w);
  gd_locked : bus_locked (host w) = l;
  gd_action : drv_installed (self w) = true -> bus_installed (host w) = true;
  gd_told : Forall may_tell (told w) }.

(** From a good world to a good world, without a crash. *)
Definition moves {X} I (l : bool) J (l' : bool) (m : C X) : Prop :=
  forall w, good I l w -> wp m (fun _ w' => good J l' w') w.

Lemma drv_moves_bind {X Y} I l J l' K l'' (m : C X) (k : X -> C Y) :
  moves I l J l' m -> (forall x, moves J l' K l'' (k x)) -> moves I l K l'' (m ≫= k).
Proof.
  intros Hm Hk w Hw. apply wp_bind. eapply wp_mono; [by apply Hm|]. intros x w' Hw'. by apply Hk.
Qed.

Lemma moves_ret {X} I l (x : X) : moves I l I l (ret x).
Proof. intros w Hw. exact Hw. Qed.

Lemma moves_mono {X} I I' J J' l l' (m : C X) :
  (forall d, I' d -> I d) -> (forall d, J d -> J' d) -> moves I l J l' m -> moves I' l J' l' m.
Proof.
  intros HI HJ Hm w [H1 H2 H3 H4 H5]. eapply wp_mono; [apply Hm; split; auto|].
  cbn beta. intros x w' [H6 H7 H8 H9 H10]. split; auto.
Qed.

Lemma moves_dget {X} I l (f : D -> X) : moves I l I l (dget f).
Proof. intros w Hw. exact Hw. Qed.

Lemma moves_dget_bind {X Y} I l J l' (f : D -> X) (k : X -> C Y) :
  (forall d, I d -> moves (fun d' => I d' /\ d' = d) l J l' (k (f d))) -> moves I l J l' (dget f ≫= k).
Proof.
  intros Hk w [H1 H2 H3 H4 H5]. apply wp_bind, wp_gets. apply (Hk (self w)); [done|]. by split.
Qed.

Lemma moves_gets {X} I l (f : DrvWorld B D E -> X) : moves I l I l (gets f).
Proof. intros w Hw. exact Hw. Qed.

Lemma moves_tell I l e : may_tell e -> moves I l I l (tell e).
Proof. intros He w [H1 H2 H3 H4 H5]. split; try done. by apply Forall_app_2; [|by constructor]. Qed.

Lemma moves_dset I J l f :
  (forall d, I d -> J (f d)) -> (forall d, drv_installed (f d) = drv_installed d) ->
  moves I l J l (dset f).
Proof. intros Hf Hi w [H1 H2 H3 H4 H5]. split; simpl; [by apply Hf|done|done|by rewrite Hi|done]. Qed.

Lemma drv_moves_when I l (b : bool) (m : C unit) : (b = true -> moves I l I l m) -> moves I l I l (when b m).
Proof. destruct b; [auto|intros _; apply moves_ret]. Qed.

Lemma moves_deref_bind {X Y} I l J l' (o : option X) x (k : X -> C Y) :
  o = Some x -> moves I l J l' (k x) -> moves I l J l' (deref o ≫= k).
Proof. intros -> Hk w Hw. apply wp_bind, wp_ret. by apply Hk. Qed.

(** Forgetting what was read. *)
Lemma moves_weak {X} I d l J l' (m : C X) : moves I l J l' m -> moves (fun d' => I d' /\ d' = d) l J l' m.
Proof. apply moves_mono; [by intros d' []|done]. Qed.

(** A computation of the driver alone that ends. *)
Definition ends {X} I J (m : C X) : Prop := forall w, I (self w) ->
  total m (fun _ w' => J (self w') /\ host w' = host w /\ now w' = now w /\
    drv_installed (self w') = drv_installed (self w) /\
    (Forall may_tell (told w) -> Forall may_tell (told w'))) w.

Lemma moves_ends {X} I J l (m : C X) : ends I J m -> moves I l J l m.
Proof.
  intros Hm w [H1 H2 H3 H4 H5]. apply total_wp. eapply total_mono; [by apply Hm|]. cbn beta.
  intros x w' (H6 & H7 & _ & H8 & H9). rewrite <- H7 in *. split; [done..| |auto]. by rewrite H8.
Qed.

Lemma ends_bind {X Y} I J K (m : C X) (k : X -> C Y) :
  ends I J m -> (forall x, ends J K (k x)) -> ends I K (m ≫= k).
Proof.
  intros Hm Hk w Hw. apply total_bind. eapply total_mono; [by apply Hm|]. cbn beta.
  intros x w1 (H1 & H2 & H3 & H4 & H5). eapply total_mono; [by apply Hk|]. cbn beta.
  intros y w2 (H6 & H7 & H8 & H9 & H10). split; [done|]. split_and!; [congruence..|auto].
Qed.

Lemma ends_ret {X} I (x : X) : ends I I (ret x).
Proof. intros w Hw. by apply total_ret. Qed.

Lemma ends_dset I J f :
  (forall d, I d -> J (f d)) -> (forall d, drv_installed (f d) = drv_installed d) -> ends I J (dset f).
Proof. intros Hf Hi w Hw. apply total_modify. split; [by apply Hf|]. by split_and!; [| |apply Hi|]. Qed.

Lemma ends_dget_bind {X Y} I K (f : D -> X) (k : X -> C Y) :
  (forall d, I d -> ends (fun d' => I d' /\ d' = d) K (k (f d))) -> ends I K (dget f ≫= k).
Proof. intros Hk w Hw. apply total_bind, total_gets. by apply (Hk (self w) Hw). Qed.

Lemma ends_gets {X} I (f : DrvWorld B D E -> X) : ends I I (gets f).
Proof. intros w Hw. by apply total_gets. Qed.

Lemma ends_tell I e : may_tell e -> ends I I (tell e).
Proof.
  intros He w Hw. apply total_modify. split_and!; [done..|]. intros Ht.
  by apply Forall_app_2; [|by constructor].
Qed.

Lemma ends_when I (b : bool) (m : C unit) : (b = true -> ends I I m) -> ends I I (when b m).
Proof. destruct b; [auto|intros _; apply ends_ret]. Qed.

Lemma ends_deref_bind {X Y} I K (o : option X) x (k : X -> C Y) :
  o = Some x -> ends I K (k x) -> ends I K (deref o ≫= k).
Proof. intros -> Hk w Hw. apply total_bind, total_ret. by apply Hk. Qed.

Lemma ends_mono {X} I I' J J' (m : C X) :
  (forall d, I' d -> I d) -> (forall d, J d -> J' d) -> ends I J m -> ends I' J' m.
Proof.
  intros HI HJ Hm w Hw. eapply total_mono; [by apply Hm, HI|]. cbn beta.
  intros x w' (H1 & H2). split; auto.
Qed.

Lemma ends_weak {X} I d K (m : C X) : ends I K m -> ends (fun d' => I d' /\ d' = d) K m.
Proof. apply ends_mono; [by intros d' []|done]. Qed.

Lemma ends_dstep I J f :
  (forall d, I d -> exists d', f d = Some d' /\ J d' /\ drv_installed d' = drv_installed d) ->
  ends I J (dstep f).
Proof.
  intros Hf w Hw. destruct (Hf (self w) Hw) as (d' & E0 & Hd' & Hi).
  apply total_bind, total_gets, total_bind. rewrite E0. apply total_ret, total_modify. by split_and!.
Qed.

(** The same at the times in [T]: reading the clock says something. *)
Definition ends_at {X} (T : Z -> Prop) I J (m : C X) : Prop := forall w, T (now w) -> I (self w) ->
  total m (fun _ w' => J (self w') /\ host w' = host w /\ now w' = now w /\
    drv_installed (self w') = drv_installed (self w) /\
    (Forall may_tell (told w) -> Forall may_tell (told w'))) w.

Lemma ends_at_weak {X} T I J (m : C X) : ends I J m -> ends_at T I J m.
Proof. intros Hm w _. apply Hm. Qed.

Lemma ends_at_always {X} I J (m : C X) : ends_at (fun _ => True) I J m -> ends I J m.
Proof. intros Hm w. by apply Hm. Qed.

Lemma ends_at_bind {X Y} T I J K (m : C X) (k : X -> C Y) :
  ends_at T I J m -> (forall x, ends_at T J K (k x)) -> ends_at T I K (m ≫= k).
Proof.
  intros Hm Hk w Ht Hw. apply total_bind. eapply total_mono; [by apply Hm|]. cbn beta.
  intros x w1 (H1 & H2 & H3 & H4 & H5). eapply total_mono; [apply Hk; [by rewrite H3|done]|]. cbn beta.
  intros y w2 (H6 & H7 & H8 & H9 & H10). split; [done|]. split_and!; [congruence..|auto].
Qed.

Lemma ends_at_now_bind {Y} T I K (k : Z -> C Y) :
  (forall t, T t -> ends_at T I K (k t)) -> ends_at T I K (gets now ≫= k).
Proof. intros Hk w Ht Hw. apply total_bind, total_gets. by apply Hk. Qed.

Lemma ends_at_dget_bind {X Y} T I K (f : D -> X) (k : X -> C Y) :
  (forall d, I d -> ends_at T (fun d' => I d' /\ d' = d) K (k (f d))) -> ends_at T I K (dget f ≫= k).
Proof. intros Hk w Ht Hw. apply total_bind, total_gets. by apply (Hk (self w) Hw). Qed.

Lemma ends_at_deref_bind {X Y} T I K (o : option X) x (k : X -> C Y) :
  o = Some x -> ends_at T I K (k x) -> ends_at T I K (deref o ≫= k).
Proof. intros -> Hk w Ht Hw. apply total_bind, total_ret. by apply Hk. Qed.

Lemma ends_at_mono {X} T I I' J J' (m : C X) :
  (forall d, I' d -> I d) -> (forall d, J d -> J' d) -> ends_at T I J m -> ends_at T I' J' m.
Proof.
  intros HI HJ Hm w Ht Hw. eapply total_mono; [apply Hm; auto|]. cbn beta.
  intros x w' (H1 & H2). split; auto.
Qed.

Lemma ends_at_when T I (b : bool) (m : C unit) : (b = true -> ends_at T I I m) -> ends_at T I I (when b m).
Proof. destruct b; [auto|intros _; apply ends_at_weak, ends_ret]. Qed.

(** *** Calls into the controller *)
Section Calls.
Context I `{HU : !Undisturbed (B := B) I}.

Lemma wp_onController {X} (m : M B X) (R : X -> Prop) l' (installed : Prop) w :
  I (self w) ->
  wp m (fun x b => R x /\ bus_ok b /\ bus_locked b = l' /\ (installed -> bus_installed b = true)) (host w) ->
  wp (onController m) (fun x w' => R x /\ I (self w') /\ bus_ok (host w') /\ bus_locked (host w') = l' /\
    (installed -> bus_installed (host w') = true) /\
    drv_installed (self w') = drv_installed (self w) /\ told w' = told w) w.
Proof.
  intros Hd Hm. unfold wp, onController in *. destruct (m (host w)) as [[b x]| |]; [|done..].
  destruct Hm as (Hx & Hb & Hl & Hi). pose proof (law_received b Hb) as [Hb' Hl' Hi'].
  destruct (und_arrive b (self w) Hb Hd) as (d' & E0 & Hd' & _ & Ei).
  destruct (bus_received b) as [bytes b']. simpl in *. rewrite E0. simpl.
  split_and!; [done|done|done|by rewrite Hl'|auto|done|done].
Qed.

(** ... of an operation after which the lock is as [l'] and an installed action
    still is. *)
Lemma wp_controller {X} (m : M B X) (R : X -> Prop) l' w :
  I (self w) -> Forall may_tell (told w) ->
  wp m (fun x b => R x /\ bus_ok b /\ bus_locked b = l' /\
    (drv_installed (self w) = true -> bus_installed b = true)) (host w) ->
  wp (onController m) (fun x w' => R x /\ good I l' w') w.
Proof.
  intros Hd Ht Hm. eapply wp_mono; [by apply (wp_onController m R l' (drv_installed (self w) = true))|].
  cbn beta. intros x w' (Hx & Hd' & Hb & Hl & Hi & Ei & Et). split; [done|].
  split; [done..| |by rewrite Et]. by rewrite Ei.
Qed.

Lemma moves_steady {X} l (m : M B X) : bus_steady m -> moves I l I l (onController m).
Proof.
  intros Hm w [H1 H2 H3 H4 H5]. eapply wp_mono; [apply (wp_controller m (fun _ => True) l w H1 H5)|].
  - eapply wp_mono; [by apply Hm|]. cbn beta. intros x b [? ? ?]. split_and!; [done|done|congruence|auto].
  - cbn beta. by intros x w' [_ ?].
Qed.

Lemma moves_lock : moves I false I true (onController bus_lock).
Proof.
  intros w [H1 H2 H3 H4 H5]. eapply wp_mono; [apply (wp_controller bus_lock (fun _ => True) true w H1 H5)|].
  - eapply wp_mono; [by apply law_lock|]. cbn beta. intros x b (? & ? & ?). split_and!; auto.
  - cbn beta. by intros x w' [_ ?].
Qed.

Lemma moves_unlock : moves I true I false (onController bus_unlock).
Proof.
  intros w [H1 H2 H3 H4 H5]. eapply wp_mono; [apply (wp_controller bus_unlock (fun _ => True) false w H1 H5)|].
  - eapply wp_mono; [by apply law_unlock|]. cbn beta. intros x b (? & ? & ?). split_and!; auto.
  - cbn beta. by intros x w' [_ ?].
Qed.

(** A computation that starts with a request; its commands can be read back. *)
Definition answered (l : list PS2Command) (r : PS2Request) : Prop :=
  map command (commands r) = map command l.

Lemma moves_request {X} p cs l J l' (k : PS2Request -> C X) :
  0 <= p < kPS2MuxMaxIdx -> Z.of_nat (length cs) < 256 ->
  (forall r, answered cs r -> moves I l J l' (k r)) -> moves I l J l' (requestDevice p cs ≫= k).
Proof.
  intros Hp Hc Hk w [H1 H2 H3 H4 H5]. apply wp_bind. unfold requestDevice.
  eapply wp_mono; [eapply (wp_controller _ (answered cs) l w H1 H5)|].
  - assert (Hu : u8 (Z.of_nat (length cs)) = Z.of_nat (length cs)) by (apply u8_small; lia).
    eapply wp_mono; [apply law_submit; [done|cbn [commandsCount commands port TPS2Request]; lia..]|].
    cbn beta. intros r b [[Hb Hl Hi] Hs]. split; [apply Hs|]. split; [done|]. split; [congruence|]. auto.
  - cbn beta. intros r w' [Ha Hw']. by apply Hk.
Qed.

Lemma moves_result {X} cs r i l J l' (k : Z -> C X) :
  answered cs r -> 0 <= i < Z.of_nat (length cs) -> (forall z, moves I l J l' (k z)) ->
  moves I l J l' (commandResult r i ≫= k).
Proof.
  intros Ha Hi Hk w Hw. apply wp_bind, wp_bind, wp_deref.
  apply (f_equal length) in Ha. rewrite !length_map in Ha.
  destruct (arr_get_Some (commands r) i) as (c & E0 & _); [lia|]. exists c. split; [done|]. by apply Hk.
Qed.

(** Reading the device. *)
Lemma moves_device {X} l J l' (k : option Z -> C X) :
  moves (on_device I None) l J l' (k None) ->
  (forall p, 0 <= p < kPS2MuxMaxIdx -> moves (on_device I (Some p)) l J l' (k (Some p))) ->
  moves I l J l' (dget drv_device ≫= k).
Proof.
  intros Hn Hp w [H1 H2 H3 H4 H5]. apply wp_bind, wp_gets. destruct (drv_device (self w)) as [p|] eqn:E0.
  - apply Hp; [by eapply und_port|]. by split.
  - apply Hn. by split.
Qed.

Lemma moves_known {X} o l J l' (k : option Z -> C X) :
  moves (on_device I o) l J l' (k o) -> moves (on_device I o) l J l' (dget drv_device ≫= k).
Proof.
  intros Hk w Hw. apply wp_bind, wp_gets. rewrite (proj2 (gd_self _ _ _ Hw)). by apply Hk.
Qed.

(** Installing and removing the interrupt action, with the flag that records it. *)
Lemma moves_install J l (f : D -> D) :
  (forall d, I d -> J (f d)) ->
  moves I l J l (onController bus_installInterrupt ;; dset f).
Proof.
  intros HI w [H1 H2 H3 H4 H5]. apply wp_bind.
  eapply wp_mono; [apply (wp_onController _ (fun _ => True) l True w H1)|].
  - eapply wp_mono; [by apply law_installInterrupt|]. cbn beta. intros x b (? & ? & ?).
    split_and!; [done|done|congruence|done].
  - cbn beta. intros x w1 (_ & H6 & H7 & H8 & H9 & _ & Et). apply wp_modify. split; simpl; rewrite ?Et; auto.
Qed.

Lemma moves_uninstall J l (f : D -> D) :
  (forall d, I d -> J (f d)) -> (forall d, drv_installed (f d) = false) ->
  forall w, good I l w -> drv_installed (self w) = true ->
  wp (onController bus_uninstallInterrupt ;; dset f) (fun _ w' => good J l w') w.
Proof.
  intros HI Hf w [H1 H2 H3 H4 H5] Hi. apply wp_bind.
  eapply wp_mono; [apply (wp_onController _ (fun _ => True) l False w H1)|].
  - eapply wp_mono; [apply law_uninstallInterrupt; auto|]. cbn beta. intros x b' [? ?].
    split_and!; [done|done|congruence|done].
  - cbn beta. intros x w1 (_ & H6 & H7 & H8 & _ & _ & Et). apply wp_modify.
    split; simpl; [auto|done|done|by rewrite Hf|by rewrite Et].
Qed.

End Calls.
End Moves.

(** One step of a proof that a computation keeps [on_device I o]; what is left are the
    updates of the driver. *)
Ltac moves_step :=
  lazymatch goal with
  | |- moves _ _ _ _ (dget drv_device ≫= _) => first [apply moves_known | apply moves_device; [exact _| |intros ? ?]]
  | |- moves _ _ _ _ (dget _ ≫= _) => apply moves_dget_bind; intros ? ?; apply moves_weak
  | |- moves _ _ _ _ (requestDevice _ _ ≫= _) =>
      apply moves_request; [exact _|unfold kPS2MuxMaxIdx, kPS2KbdIdx in *; lia|simpl; lia|intros ? ?]
  | |- moves _ _ _ _ (commandResult _ _ ≫= _) => eapply moves_result; [eassumption|simpl; lia|intros ?]
  | |- moves _ _ _ _ (_ ≫= _) => eapply drv_moves_bind; [|intros ?]
  | |- moves _ _ _ _ (ret _) => apply moves_ret
  | |- moves _ _ _ _ (tell _) => apply moves_tell; try done
  | |- moves _ _ _ _ (when _ _) => apply drv_moves_when; intros ?
  | |- moves _ _ _ _ (if ?b then _ else _) => destruct b eqn:?
  | |- moves _ _ _ _ (onController bus_lock) => apply moves_lock; exact _
  | |- moves _ _ _ _ (onController bus_unlock) => apply moves_unlock; exact _
  | |- moves _ _ _ _ (onController _) => apply moves_steady; [exact _|]; eauto with bus
  end.

Create HintDb bus.
#[export] Hint Resolve law_setCommandByte law_sleep law_auxNubs law_installPower law_uninstallPower : bus.
