(* ===== verification/FTE0001.v ===== *)
(** * The FTE0001 touchpad driver: ApplePS2FTE0001

    FocalTech/FTE0001.h and FocalTech/Source/FTE0001.inc, operation by operation,
    in the world of [DriverWorld.v].  [VOODOO_INPUT_MAX_TRANSDUCERS] is VoodooInput's;
    the button report is overwritten before each use, so it is not part of the
    state. *)
From S2P Require Import Prelude PS2Types RingBuffer Bus DriverWorld Touch.

Definition FTE_PACKET_SHORT_LENGTH : Z := 8.
Definition FTE_PACKET_LONG_LENGTH : Z := 16.
Definition FTE_PACKET_MAX_LENGTH : Z := 16.
Definition FTE_MAX_FINGERS : Z := 4.
Definition FTE_LOGICAL_MAX_X : Z := 0x08E0.
Definition FTE_LOGICAL_MAX_Y : Z := 0x03E0.
Definition FTE_PHYSICAL_MAX_X : Z := 8500.
Definition FTE_PHYSICAL_MAX_Y : Z := 3710.

(** The size of the ring buffer. *)
Definition FTE_RING : Z := FTE_PACKET_MAX_LENGTH * 32.

Record FTE0001FingerState := mkFteFinger { fte_active : bool; fte_x : Z; fte_y : Z }.

Record FTE0001VirtualFinger := mkFteVirtual {
  fte_previous : TouchCoordinates;
  fte_current : TouchCoordinates;
  fte_touching : bool }.

Record ApplePS2FTE0001 := mkFTE0001 {
  _device : option Z;
  _voodooInput : option Z;
  _interruptInstalled : bool;
  _powerInstalled : bool;
  _inputPublished : bool;
  _providerPort : Z;
  _auxNubCount : Z;
  _irqByteCount : Z;
  _packetCount : Z;
  _validPacketCount : Z;
  _invalidPacketCount : Z;
  _packetByteCount : Z;
  _packetFingerCount : Z;
  _ringBuffer : RingBuffer Z;
  _productId : Z * Z * Z;
  _xMax : Z;
  _yMax : Z;
  _hardware : list FTE0001FingerState;
  _finger : list FTE0001VirtualFinger;
  _inputEvent : VoodooInputEvent;
  _buttons : Z;
  _lastButtons : Z }.

Definition fteNoHardware : list FTE0001FingerState :=
  replicate (Z.to_nat FTE_MAX_FINGERS) (mkFteFinger false 0 0).
Definition fteNoFingers : list FTE0001VirtualFinger :=
  replicate (Z.to_nat FTE_MAX_FINGERS) (mkFteVirtual noCoordinates noCoordinates false).

(** The object as its constructor leaves it; [n] is VoodooInput's
    [VOODOO_INPUT_MAX_TRANSDUCERS]. *)
Definition newFTE0001 (n : Z) : ApplePS2FTE0001 := {|
  _device := None; _voodooInput := None;
  _interruptInstalled := false; _powerInstalled := false; _inputPublished := false;
  _providerPort := 0; _auxNubCount := 0;
  _irqByteCount := 0; _packetCount := 0; _validPacketCount := 0; _invalidPacketCount := 0;
  _packetByteCount := 0; _packetFingerCount := 0;
  _ringBuffer := mkRing (replicate (Z.to_nat FTE_RING) 0) 0 0;
  _productId := (0, 0, 0);
  _xMax := FTE_LOGICAL_MAX_X; _yMax := FTE_LOGICAL_MAX_Y;
  _hardware := fteNoHardware; _finger := fteNoFingers;
  _inputEvent := mkInputEvent (replicate (Z.to_nat n) noTransducer) 0 0;
  _buttons := 0; _lastButtons := 0 |}.

(** What the driver tells VoodooInput and the I/O registry. *)
Inductive FteEvent :=
| FteTouch (client : Z) (e : VoodooInputEvent)
| FteButtons (client timestamp buttons : Z)
| FteProduct (p0 p1 p2 : Z)
| FteDiagnostics (port nubs irqBytes packets valid invalid fingers : Z)
    (packet : option (list Z * bool))
| FtePublish (xMax yMax physicalX physicalY : Z)
| FteRegister.

(** ** Bytes from the device *)

(** Neither an absolute packet's first byte nor a relative one's. *)
Definition notHeader (data : Z) : bool :=
  negb (Z.land data 0xC8 =? 0x08) && negb (Z.land data 0xF8 =? 0xF8).

(** [for (i) packet[i] = 0xFF;] *)
Fixpoint padPacket (l : list Z) (rb : RingBuffer Z) : option (RingBuffer Z) :=
  match l with
  | [] => Some rb
  | i :: l' => rb ← head_set i 0xFF rb; padPacket l' rb
  end.

Definition interruptOccurred (data : Z) : M ApplePS2FTE0001 PS2InterruptResult := fun d =>
  let data := u8 data in
  let d := {| d with _irqByteCount := u64 (_irqByteCount d + 1) |} in
  if (_packetByteCount d =? 0) && notHeader data then Ok (d, kPS2IR_packetBuffering) else
  match head_set (_packetByteCount d) data (_ringBuffer d) with
  | None => Crash
  | Some rb =>
    let d := {| d with _ringBuffer := rb; _packetByteCount := u32 (_packetByteCount d + 1) |} in
    let d := if _packetByteCount d =? 5
             then {| d with _packetFingerCount :=
                       u32 (Z.land data 0x03 + Z.shiftr (Z.land data 0x30) 2) |}
             else d in
    let commit rb := Ok ({| d with _ringBuffer := advanceHead FTE_RING FTE_PACKET_MAX_LENGTH rb;
                            _packetByteCount := 0 |}, kPS2IR_packetReady) in
    if (_packetByteCount d =? FTE_PACKET_SHORT_LENGTH) && (_packetFingerCount d <=? 2) then
      match padPacket (seqZ FTE_PACKET_SHORT_LENGTH (FTE_PACKET_MAX_LENGTH - FTE_PACKET_SHORT_LENGTH))
                      (_ringBuffer d) with
      | None => Crash
      | Some rb => commit rb
      end
    else if _packetByteCount d =? FTE_PACKET_LONG_LENGTH then commit (_ringBuffer d)
    else Ok (d, kPS2IR_packetBuffering)
  end.

#[export] Instance FTE0001_driver : BusDriver ApplePS2FTE0001 := {|
  drv_interrupt := interruptOccurred;
  drv_device := _device;
  drv_installed := _interruptInstalled |}.

(** ** Packets and fingers *)

(** Finger [i] of a packet. *)
Definition decodeFinger (packet : list Z) (i : Z) (old : FTE0001FingerState) : option FTE0001FingerState :=
  b1 ← arr_get packet (i * 4 + 1);
  b2 ← arr_get packet (i * 4 + 2);
  b3 ← arr_get packet (i * 4 + 3);
  let present := negb ((b1 =? 0xFF) && (b2 =? 0xFF) && (b3 =? 0xFF)) in
  let s := {| old with fte_active := present |} in
  Some (if present
        then {| s with fte_x := s32 (Z.lor (Z.shiftl b1 4) (Z.shiftr (Z.land b3 0xF0) 4));
                       fte_y := s32 (Z.lor (Z.shiftl b2 4) (Z.land b3 0x0F)) |}
        else s).

Fixpoint decodeFingers (packet : list Z) (l : list Z) (hw : list FTE0001FingerState)
  : option (list FTE0001FingerState) :=
  match l with
  | [] => Some hw
  | i :: l' =>
    old ← arr_get hw i;
    s ← decodeFinger packet i old;
    hw ← arr_set hw i s;
    decodeFingers packet l' hw
  end.

Definition packetButtons (p0 : Z) : Z :=
  Z.lor (if nz (Z.land p0 0x01) then 0x01 else 0) (if nz (Z.land p0 0x02) then 0x02 else 0).

Inductive FtePacket :=
| FteInvalid
| FteNoCoordinates (buttons : Z)
| FteCoordinates (buttons : Z) (hw : list FTE0001FingerState).

(** What [processPacket] stores before it reports. *)
Definition decodePacket (packet : list Z) (hw : list FTE0001FingerState) : option FtePacket :=
  p0 ← arr_get packet 0;
  if notHeader p0 then Some FteInvalid else
  if Z.land p0 0x30 =? 0x10 then Some (FteNoCoordinates (packetButtons p0)) else
  hw ← decodeFingers packet (seqZ 0 FTE_MAX_FINGERS) hw;
  Some (FteCoordinates (packetButtons p0) hw).

(** [x] or [y] cut to the pad. *)
Definition fteClamp (max v : Z) : Z :=
  let v := if v <? 0 then 0 else v in if s32 max <? v then s32 max else v.

(** One round of the loop of [reportState]. *)
Definition fteUpdateFinger (xMax yMax : Z) (raw : FTE0001FingerState) (finger : FTE0001VirtualFinger)
  : FTE0001VirtualFinger :=
  if negb (fte_active raw) then {| finger with fte_touching := false |} else
  let cur := mkCoordinates (u32 (fteClamp xMax (fte_x raw)))
               (u32 (yMax - u32 (fteClamp yMax (fte_y raw)))) 0 0 in
  mkFteVirtual (if fte_touching finger then fte_current finger else cur) cur true.

Definition fteUpdateFingers (d : ApplePS2FTE0001) : ApplePS2FTE0001 :=
  {| d with _finger := zip_with (fteUpdateFinger (_xMax d) (_yMax d)) (_hardware d) (_finger d) |}.

Definition fingerTypeForIndex (index : Z) : MT2FingerType :=
  match index with
  | 0 => kMT2FingerTypeIndexFinger
  | 1 => kMT2FingerTypeMiddleFinger
  | 2 => kMT2FingerTypeRingFinger
  | 3 => kMT2FingerTypeThumb
  | _ => kMT2FingerTypeIndexFinger
  end.

Definition fteTransducer (timestamp i count : Z) (state : FTE0001VirtualFinger) : VoodooInputTransducer :=
  {| tr_current := fte_current state;
     tr_previous := fte_previous state;
     tr_timestamp := timestamp;
     tr_isValid := true;
     tr_isPhysicalButtonDown := false;
     tr_isTransducerActive := true;
     tr_supportsPressure := false;
     tr_secondaryId := i;
     tr_fingerType := fingerTypeForIndex count;
     tr_isFinger := true |}.

(** The first loop of [sendTouchData], on the fingers [l] from index [i] on. *)
Fixpoint fteFill (timestamp : Z) (l : list FTE0001VirtualFinger) (i count : Z)
    (ts : list VoodooInputTransducer) : option (list VoodooInputTransducer * Z) :=
  match l with
  | [] => Some (ts, count)
  | state :: l' =>
    if negb (fte_touching state) then fteFill timestamp l' (i + 1) count ts else
    ts ← arr_set ts count (fteTransducer timestamp i count state);
    fteFill timestamp l' (i + 1) (count + 1) ts
  end.

(** Both loops. *)
Definition fteTransducers (d : ApplePS2FTE0001) (timestamp : Z)
  : option (list VoodooInputTransducer * Z) :=
  '(ts, count) ← fteFill timestamp (_finger d) 0 0 (ev_transducers (_inputEvent d));
  Some (take (Z.to_nat count) ts ++ map clearTransducer (drop (Z.to_nat count) ts), count).

(** ** The driver *)
Section Driver.
Context {B : Type} `{PS2Bus B}.
#[local] Abbreviation C := (M (DrvWorld B ApplePS2FTE0001 FteEvent)).

Definition sendButtons (buttons : Z) : C unit :=
  client ← dget _voodooInput;
  match client with
  | None => ret tt
  | Some c => t ← gets now; tell (FteButtons c t buttons)
  end.

Definition sendTouchData : C unit :=
  timestamp ← gets now;
  r ← dget (fun d => fteTransducers d timestamp);
  '(ts, count) ← deref r;
  let e := mkInputEvent ts (u8 count) timestamp in
  dset (fun d => {| d with _inputEvent := e |}) ;;
  client ← dget _voodooInput;
  (match client with Some c => tell (FteTouch c e) | None => ret tt end) ;;
  buttons ← dget _buttons;
  last ← dget _lastButtons;
  when (negb (buttons =? last))
    (sendButtons buttons ;; dset (fun d => {| d with _lastButtons := buttons |})).

Definition reportState : C unit := dset fteUpdateFingers ;; sendTouchData.

Definition processPacket (packet : list Z) : C bool :=
  r ← dget (fun d => decodePacket packet (_hardware d));
  p ← deref r;
  match p with
  | FteInvalid => ret false
  | FteNoCoordinates b =>
    dset (fun d => {| d with _buttons := b |}) ;; reportState ;; ret true
  | FteCoordinates b hw =>
    dset (fun d => {| d with _buttons := b; _hardware := hw |}) ;; reportState ;; ret true
  end.

Definition publishRuntimeDiagnostics (packet : option (list Z)) (isValid : bool) : C unit :=
  d ← dget (fun d => d);
  p ← (match packet with
       | None => ret None
       | Some l =>
         deref (arr_get l (FTE_PACKET_MAX_LENGTH - 1)) ;;
         ret (Some (take (Z.to_nat FTE_PACKET_MAX_LENGTH) l, isValid))
       end);
  tell (FteDiagnostics (_providerPort d) (_auxNubCount d) (_irqByteCount d) (_packetCount d)
    (_validPacketCount d) (_invalidPacketCount d) (_packetFingerCount d) p).

Definition tailPacket (d : ApplePS2FTE0001) : list Z :=
  tail_slice FTE_PACKET_MAX_LENGTH (_ringBuffer d).

Definition countPacket (isValid : bool) (d : ApplePS2FTE0001) : ApplePS2FTE0001 :=
  if isValid then {| d with _validPacketCount := u64 (_validPacketCount d + 1) |}
  else {| d with _invalidPacketCount := u64 (_invalidPacketCount d + 1) |}.

(** What the loop of [packetReady] does with the packet at [tail()]. *)
Definition handlePacket (packet : list Z) : C unit :=
  dset (fun d => {| d with _packetCount := u64 (_packetCount d + 1) |}) ;;
  isValid ← processPacket packet;
  dset (countPacket isValid) ;;
  k ← dget _packetCount;
  when ((k <=? 4) || (Z.land k 31 =? 0)) (publishRuntimeDiagnostics (Some packet) isValid).

Definition packetReadyRound (_ : unit) : C (unit + unit) :=
  n ← dget (fun d => count FTE_RING (_ringBuffer d));
  if n <? FTE_PACKET_MAX_LENGTH then ret (inr tt) else
  packet ← dget tailPacket;
  handlePacket packet ;;
  dset (fun d => {| d with _ringBuffer := advanceTail FTE_RING FTE_PACKET_MAX_LENGTH (_ringBuffer d) |}) ;;
  ret (inl tt).

Definition fteQueued (w : DrvWorld B ApplePS2FTE0001 FteEvent) : nat :=
  Z.to_nat (count FTE_RING (_ringBuffer (self w))).

Definition packetReady : C unit := loop fteQueued packetReadyRound tt.

(** ** Requests *)

Definition fteAck (z : Z) : PS2Command := cmd kPS2C_SendCommandAndCompareAck z.
Definition fteRead : PS2Command := cmd kPS2C_ReadDataPort 0.

Definition countAuxNubs : C Z :=
  dev ← dget drv_device;
  match dev with None => ret 0 | Some _ => onController bus_auxNubs end.

Definition detectFTE0001 : C bool :=
  dev ← dget drv_device;
  match dev with
  | None => ret false
  | Some p =>
    disable ← requestDevice p [fteAck kDP_SetDefaultsAndDisable];
    if negb (completed disable 1) then ret false else
    request ← requestDevice p
      [fteAck kDP_SetMouseSampleRate; fteAck 0xA7; fteAck kDP_SetMouseSampleRate; fteAck 0xA7;
       fteAck kDP_GetMouseInformation; fteRead; fteRead; fteRead];
    if negb (completed request 8) then ret false else
    p0 ← commandResult request 5;
    p1 ← commandResult request 6;
    p2 ← commandResult request 7;
    dset (fun d => {| d with _productId := (p0, p1, p2) |}) ;;
    tell (FteProduct p0 p1 p2) ;;
    ret ((p0 =? 0x58) && (p1 =? 0x00) && (p2 =? 0x05))
  end.

(** One pass of [resetDevice]. *)
Definition resetPass (p : Z) : C bool :=
  request ← requestDevice p [fteAck kDP_Reset; fteRead; fteRead];
  if negb (completed request 3) then ret false else
  b1 ← commandResult request 1;
  if negb (b1 =? kSC_Reset) then ret false else
  b2 ← commandResult request 2;
  ret (b2 =? kSC_ID).

Definition resetDevice : C bool :=
  dev ← dget drv_device;
  match dev with
  | None => ret false
  | Some p =>
    first ← resetPass p;
    if negb first then ret false else resetPass p
  end.

Definition switchToAdvancedProtocol : C bool :=
  dev ← dget drv_device;
  match dev with
  | None => ret false
  | Some p =>
    request ← requestDevice p
      [fteAck kDP_SetMouseSampleRate; fteAck 0xEA; fteAck kDP_SetMouseSampleRate; fteAck 0xED];
    ret (completed request 4)
  end.

Definition publishInputProperties : C unit :=
  d ← dget (fun d => d);
  tell (FtePublish (_xMax d) (_yMax d) FTE_PHYSICAL_MAX_X FTE_PHYSICAL_MAX_Y) ;;
  dset (fun d => {| d with _inputPublished := true |}) ;;
  tell FteRegister.

(** The members [setupHardware] resets. *)
Definition resetState (d : ApplePS2FTE0001) : ApplePS2FTE0001 :=
  {| d with _hardware := fteNoHardware; _finger := fteNoFingers;
     _packetByteCount := 0; _packetFingerCount := 0; _ringBuffer := reset (_ringBuffer d);
     _buttons := 0; _lastButtons := 0 |}.

Definition setupHardware (publishInput : bool) : C bool :=
  dset resetState ;;
  ready ← resetDevice;
  if negb ready then ret false else
  detected ← detectFTE0001;
  if negb detected then ret false else
  switched ← switchToAdvancedProtocol;
  if negb switched then ret false else
  dset (fun d => {| d with _xMax := FTE_LOGICAL_MAX_X; _yMax := FTE_LOGICAL_MAX_Y |}) ;;
  published ← dget _inputPublished;
  when (publishInput && negb published) publishInputProperties ;;
  publishRuntimeDiagnostics None false ;;
  ret true.

Definition setTouchPadEnable (enable : bool) : C unit :=
  dev ← dget drv_device;
  match dev with
  | None => ret tt
  | Some p =>
    requestDevice p [fteAck (if enable then kDP_Enable else kDP_SetDefaultsAndDisable)] ;; ret tt
  end.

Definition setDevicePowerState (whatToDo : Z) : C unit :=
  dev ← dget drv_device;
  match dev with
  | None => ret tt
  | Some _ =>
    if whatToDo =? kPS2C_DisableDevice then setTouchPadEnable false else
    if negb (whatToDo =? kPS2C_EnableDevice) then ret tt else
    onController (bus_sleep 750) ;;
    onController bus_lock ;;
    configured ← setupHardware false;
    when configured (setTouchPadEnable true) ;;
    onController bus_unlock
  end.

(** ** Life cycle *)

(** [probe]: [fteOptIn] is the boot argument "focfte"; [nub] the provider's port, if
    it is a mouse nub; [portProperty] its "Port Num" property. *)
Definition probe (fteOptIn : Z) (nub portProperty : option Z) : C bool :=
  if fteOptIn =? 0 then ret false else
  dset (fun d => {| d with _device := nub |}) ;;
  match nub with
  | None => ret false
  | Some _ =>
    dset (fun d => {| d with _providerPort := default (_providerPort d) portProperty |}) ;;
    n ← countAuxNubs;
    dset (fun d => {| d with _auxNubCount := n |}) ;;
    if 1 <? n then (dset (fun d => {| d with _device := None |}) ;; ret false) else
    onController bus_lock ;;
    detected ← detectFTE0001;
    onController bus_unlock ;;
    when detected (publishRuntimeDiagnostics None false) ;;
    dset (fun d => {| d with _device := None |}) ;;
    ret detected
  end.

Definition start (nub portProperty : option Z) : C bool :=
  dset (fun d => {| d with _device := nub |}) ;;
  match nub with
  | None => ret false
  | Some _ =>
    dset (fun d => {| d with _providerPort := default (_providerPort d) portProperty |}) ;;
    n ← countAuxNubs;
    dset (fun d => {| d with _auxNubCount := n |}) ;;
    onController bus_lock ;;
    ready ← setupHardware true;
    if negb ready then
      (onController bus_unlock ;; dset (fun d => {| d with _device := None |}) ;; ret false)
    else
    (onController bus_installInterrupt ;;
     dset (fun d => {| d with _interruptInstalled := true |})) ;;
    setTouchPadEnable true ;;
    onController bus_unlock ;;
    onController bus_installPower ;;
    dset (fun d => {| d with _powerInstalled := true |}) ;;
    ret true
  end.

Definition stop : C unit :=
  dev ← dget drv_device;
  (match dev with
   | None => ret tt
   | Some _ =>
     setTouchPadEnable false ;;
     i ← dget drv_installed;
     when i (onController bus_uninstallInterrupt ;;
             dset (fun d => {| d with _interruptInstalled := false |})) ;;
     p ← dget _powerInstalled;
     when p (onController bus_uninstallPower ;;
             dset (fun d => {| d with _powerInstalled := false |}))
   end) ;;
  dset (fun d => {| d with _voodooInput := None; _device := None |}).

(** [isInput]: the client has VoodooInput's identifier. *)
Definition handleOpen (client : option Z) (isInput : bool) : C bool :=
  match client with
  | Some c => if isInput then (dset (fun d => {| d with _voodooInput := Some c |}) ;; ret true)
              else ret false
  | None => ret false
  end.

Definition handleClose (client : option Z) : C unit :=
  dset (fun d => if bool_decide (client = _voodooInput d)
                 then {| d with _voodooInput := None |} else d).

End Driver.

Definition handleIsOpen (client : option Z) (d : ApplePS2FTE0001) : bool :=
  match client with
  | Some c => bool_decide (_voodooInput d = Some c)
  | None => match _voodooInput d with Some _ => true | None => false end
  end.
