(* ===== verification/FTE0001Safe.v ===== *)
(** * The FTE0001 driver is safe

    Its invariant, and every entry point against the interface of [Bus.v]: no access
    outside an array, no null pointer, no lock taken or released out of turn. *)
From S2P Require Import Prelude PS2Types RingBuffer RingSpec Bus DriverWorld Touch FTE0001.

(** ** The invariant *)

Definition on_pad (c : TouchCoordinates) : Prop :=
  0 <= tc_x c <= FTE_LOGICAL_MAX_X /\ 0 <= tc_y c <= FTE_LOGICAL_MAX_Y.

Definition finger_on_pad (f : FTE0001VirtualFinger) : Prop :=
  fte_touching f = true -> on_pad (fte_current f) /\ on_pad (fte_previous f).

Record fte_ok (n : Z) (d : ApplePS2FTE0001) : Prop := {
  ft_port : forall p, _device d = Some p -> 0 <= p < kPS2MuxMaxIdx;
  ft_hardware : Z.of_nat (length (_hardware d)) = FTE_MAX_FINGERS;
  ft_finger : Z.of_nat (length (_finger d)) = FTE_MAX_FINGERS;
  ft_size : _xMax d = FTE_LOGICAL_MAX_X /\ _yMax d = FTE_LOGICAL_MAX_Y;
  ft_positions : Forall finger_on_pad (_finger d);
  ft_ring : aligned FTE_RING FTE_PACKET_MAX_LENGTH (_ringBuffer d);
  ft_bytes : 0 <= _packetByteCount d < FTE_PACKET_MAX_LENGTH;
  ft_slots : Z.of_nat (length (ev_transducers (_inputEvent d))) = n;
  ft_buttons : 0 <= _buttons d < 4 }.

Lemma fteNoFingers_on_pad : Forall finger_on_pad fteNoFingers.
Proof. by repeat constructor. Qed.

Lemma newFTE0001_ok n : 0 <= n -> fte_ok n (newFTE0001 n).
Proof.
  intros Hn. split; try done.
  - apply fteNoFingers_on_pad.
  - unfold newFTE0001. cbn [_inputEvent ev_transducers]. rewrite length_replicate. lia.
Qed.

(** The driver with a known ring. *)
Definition with_ring (n : Z) (rb : RingBuffer Z) (d : ApplePS2FTE0001) : Prop := fte_ok n d /\ _ringBuffer d = rb.

(** [fte_ok] of an updated driver. *)
Ltac fte_fields :=
  let d := fresh "d" in let Hd := fresh "Hd" in
  intros d Hd; repeat match goal with
    | H : on_device _ _ _ |- _ => destruct H as [H ?]
    | H : with_ring _ _ _ |- _ => destruct H as [H ?]
    | H : fte_ok _ _ |- _ => destruct H
    end; repeat (split; simpl; try done).

(** ** What VoodooInput may be told *)

Definition contactsOf (e : VoodooInputEvent) : list VoodooInputTransducer :=
  filter (fun t => tr_isValid t = true) (ev_transducers e).

(** The contacts are counted, on the pad now and before, and told apart. *)
Record touch_event_ok (e : VoodooInputEvent) : Prop := {
  te_count : ev_contact_count e = Z.of_nat (length (contactsOf e));
  te_fingers : ev_contact_count e <= FTE_MAX_FINGERS;
  te_pad : Forall (fun t => on_pad (tr_current t) /\ on_pad (tr_previous t)) (contactsOf e);
  te_ids : NoDup (map tr_secondaryId (contactsOf e));
  te_types : NoDup (map tr_fingerType (contactsOf e)) }.

#[export] Instance fte_tells : Tells FteEvent := fun e =>
  match e with
  | FteTouch _ e => touch_event_ok e
  | FteButtons _ _ b => 0 <= b < 4
  | FteDiagnostics _ _ _ _ _ _ _ (Some (p, _)) => length p = 16%nat
  | _ => True
  end.

(** ** The interrupt routine *)

Lemma padPacket_ok l rb :
  aligned FTE_RING FTE_PACKET_MAX_LENGTH rb -> Forall (fun i => 0 <= i < FTE_PACKET_MAX_LENGTH) l ->
  exists rb', padPacket l rb = Some rb' /\ aligned FTE_RING FTE_PACKET_MAX_LENGTH rb' /\
    pending FTE_RING FTE_PACKET_MAX_LENGTH rb' = pending FTE_RING FTE_PACKET_MAX_LENGTH rb /\
    slot_at FTE_PACKET_MAX_LENGTH (m_buffer rb') (m_head rb') =
      foldl (fun s i => <[Z.to_nat i := 0xFF]> s)
        (slot_at FTE_PACKET_MAX_LENGTH (m_buffer rb) (m_head rb)) l.
Proof.
  intros Hr Hl. revert rb Hr. induction Hl as [|i l Hi _ IH]; intros rb Hr; [by exists rb|].
  simpl. destruct (head_set i 0xFF rb) as [rb1|] eqn:E;
    [|by rewrite (head_set_spec FTE_RING FTE_PACKET_MAX_LENGTH ltac:(done) ltac:(done) ltac:(done) rb i 0xFF Hr Hi) in E].
  destruct (head_set_aligned FTE_RING FTE_PACKET_MAX_LENGTH rb i 0xFF rb1 Hr E) as [H1 _].
  destruct (IH rb1 H1) as (rb' & E' & H' & Hp & Hs). exists rb'. split; [done|]. split; [done|].
  rewrite Hp, Hs. split.
  - by eapply (head_set_pending FTE_RING FTE_PACKET_MAX_LENGTH); [done..|exact Hr|exact Hi|].
  - f_equal. by eapply (head_set_slot FTE_RING FTE_PACKET_MAX_LENGTH); [done..|exact Hr|exact Hi|].
Qed.

Definition padding : list Z :=
  seqZ FTE_PACKET_SHORT_LENGTH (FTE_PACKET_MAX_LENGTH - FTE_PACKET_SHORT_LENGTH).

Lemma padding_ok : Forall (fun i => 0 <= i < FTE_PACKET_MAX_LENGTH) padding.
Proof. apply (bool_decide_unpack _). vm_compute. exact I. Qed.

(** The members an interrupt does not touch. *)
Definition fte_frame (d : ApplePS2FTE0001) : ApplePS2FTE0001 :=
  {| d with _irqByteCount := 0; _packetByteCount := 0; _packetFingerCount := 0;
     _ringBuffer := mkRing [] 0 0 |}.

Lemma fte_ring_ok n d rb k c m :
  fte_ok n d -> aligned FTE_RING FTE_PACKET_MAX_LENGTH rb -> 0 <= k < FTE_PACKET_MAX_LENGTH ->
  fte_ok n {| d with _irqByteCount := m; _ringBuffer := rb; _packetByteCount := k; _packetFingerCount := c |}.
Proof. intros Hd Hr Hk. destruct Hd. by split. Qed.

(** The finger count announced by the fifth byte. *)
Definition announced (data : Z) : Z := u32 (Z.land data 0x03 + Z.shiftr (Z.land data 0x30) 2).

(** An interrupt, with the store through [head()] carried out. *)
Lemma fte_interrupt_eq n data d :
  fte_ok n d -> is_byte data ->
  interruptOccurred data d =
  let i := u64 (_irqByteCount d + 1) in
  let k := _packetByteCount d in
  if (k =? 0) && notHeader data then Ok ({| d with _irqByteCount := i |}, kPS2IR_packetBuffering) else
  let rb := {| (_ringBuffer d) with m_buffer :=
    <[Z.to_nat (m_head (_ringBuffer d) + k) := data]> (m_buffer (_ringBuffer d)) |} in
  let c := if k + 1 =? 5 then announced data else _packetFingerCount d in
  if (k + 1 =? FTE_PACKET_SHORT_LENGTH) && (c <=? 2) then
    match padPacket padding rb with
    | Some rb => Ok ({| d with _irqByteCount := i; _packetFingerCount := c;
        _ringBuffer := advanceHead FTE_RING FTE_PACKET_MAX_LENGTH rb; _packetByteCount := 0 |}, kPS2IR_packetReady)
    | None => Crash
    end
  else if k + 1 =? FTE_PACKET_LONG_LENGTH then
    Ok ({| d with _irqByteCount := i; _packetFingerCount := c;
        _ringBuffer := advanceHead FTE_RING FTE_PACKET_MAX_LENGTH rb; _packetByteCount := 0 |}, kPS2IR_packetReady)
  else Ok ({| d with _irqByteCount := i; _packetFingerCount := c; _ringBuffer := rb;
              _packetByteCount := k + 1 |}, kPS2IR_packetBuffering).
Proof.
  intros Hd Hb. pose proof (ft_bytes _ _ Hd) as Hk. pose proof (ft_ring _ _ Hd) as Hr.
  clear Hd. destruct d. cbn in Hk, Hr. cbv beta delta [interruptOccurred]. cbn -[u8 u32 u64 Z.add Z.eqb]. rewrite (u8_small data) by done.
  destruct (_ && _); [done|].
  rewrite (head_set_spec FTE_RING FTE_PACKET_MAX_LENGTH ltac:(done) ltac:(done) ltac:(done) _ _ _ Hr Hk).
  cbn zeta. rewrite u32_small by (unfold FTE_PACKET_MAX_LENGTH in *; lia).
  fold (announced data). fold padding. destruct (_ =? 5); cbn;
  (destruct (_ && _); [by destruct (padPacket _ _)|]; by destruct (_ =? _)).
Qed.

Lemma interruptOccurred_u8 data d : interruptOccurred (u8 data) d = interruptOccurred data d.
Proof. destruct d. cbv beta delta [interruptOccurred]. cbn -[u8]. by rewrite (u8_small (u8 data) (u8_range data)). Qed.

Lemma fte_interrupt_ok n d data :
  fte_ok n d -> exists d' r, interruptOccurred data d = Ok (d', r) /\ fte_ok n d' /\ fte_frame d' = fte_frame d.
Proof.
  intros Hd. rewrite <- interruptOccurred_u8, (fte_interrupt_eq n) by (done || apply u8_range).
  pose proof (ft_bytes _ _ Hd) as Hk. pose proof (ft_ring _ _ Hd) as Hr. cbn zeta.
  destruct (_ && _).
  { do 2 eexists. split; [done|]. split; [|done]. revert d Hd Hk Hr. fte_fields. }
  assert (Hs := head_set_spec FTE_RING FTE_PACKET_MAX_LENGTH ltac:(done) ltac:(done) ltac:(done) _ _ (u8 data) Hr Hk).
  match type of Hs with _ = Some ?rb => set (rb1 := rb) in * end.
  assert (H1 : aligned FTE_RING FTE_PACKET_MAX_LENGTH rb1) by (by eapply head_set_aligned).
  clearbody rb1. generalize (if _packetByteCount d + 1 =? 5 then announced (u8 data) else _packetFingerCount d).
  intros c. destruct (_ && _).
  - destruct (padPacket_ok padding rb1 H1 padding_ok) as (rb2 & -> & H2 & _).
    do 2 eexists. split; [done|]. split; [|done]. apply fte_ring_ok; [done| |done]. by apply advanceHead_aligned.
  - destruct (Z.eqb_spec (_packetByteCount d + 1) FTE_PACKET_LONG_LENGTH) as [_|Hne];
      do 2 eexists; (split; [done|]); (split; [|done]); apply fte_ring_ok; try done.
    + by apply advanceHead_aligned.
    + unfold FTE_PACKET_LONG_LENGTH, FTE_PACKET_MAX_LENGTH in *. lia.
Qed.

#[export] Instance fte_ok_keeps n : KeepsInv (fte_ok n).
Proof.
  split; [intros d p Hd; apply Hd|]. intros d data Hd.
  destruct (fte_interrupt_ok n d data Hd) as (d' & r & E & Hd' & Ef). exists d', r.
  split; [done|]. split; [done|]. split; [exact (f_equal _device Ef)|exact (f_equal _interruptInstalled Ef)].
Qed.

(** ** Reporting *)

Lemma fteClamp_range max v : 0 <= max < 2147483648 -> 0 <= fteClamp max v <= max.
Proof. intros. unfold fteClamp. rewrite (s32_small max) by lia. repeat case_match; lia. Qed.

Lemma fteUpdateFinger_on_pad raw f :
  finger_on_pad f -> finger_on_pad (fteUpdateFinger FTE_LOGICAL_MAX_X FTE_LOGICAL_MAX_Y raw f).
Proof.
  intros Hf. unfold fteUpdateFinger. destruct (negb (fte_active raw)); [done|].
  pose proof (fteClamp_range FTE_LOGICAL_MAX_X (fte_x raw) ltac:(done)).
  pose proof (fteClamp_range FTE_LOGICAL_MAX_Y (fte_y raw) ltac:(done)).
  unfold FTE_LOGICAL_MAX_X, FTE_LOGICAL_MAX_Y in *.
  intros _. cbn [fte_current fte_previous].
  assert (Hc : forall x y, 0 <= x <= 0x08E0 -> 0 <= y <= 0x03E0 ->
    on_pad (mkCoordinates (u32 x) (u32 (0x03E0 - u32 y)) 0 0)).
  { intros x y Hx Hy. unfold on_pad, FTE_LOGICAL_MAX_X, FTE_LOGICAL_MAX_Y. cbn [tc_x tc_y].
    rewrite !u32_small by (rewrite ?u32_small; lia). lia. }
  split; [by apply Hc|]. destruct (fte_touching f) eqn:E; [by apply Hf|by apply Hc].
Qed.

Lemma fteUpdateFingers_ok n d : fte_ok n d -> fte_ok n (fteUpdateFingers d).
Proof.
  intros Hd. pose proof Hd as [? Hh Hf [Hx Hy] Hp ? ? ? ?]. split; try done.
  - unfold fteUpdateFingers. cbn [_finger]. rewrite length_zip_with. lia.
  - unfold fteUpdateFingers. cbn [_finger]. rewrite Hx, Hy. apply Forall_lookup.
    intros i f (raw & old & -> & _ & Ho)%lookup_zip_with_Some. apply fteUpdateFinger_on_pad.
    rewrite Forall_lookup in Hp. by apply (Hp i).
Qed.

(** The touching fingers of [l], whose indices start at [i]. *)
Fixpoint touchingFrom (i : Z) (l : list FTE0001VirtualFinger) : list (Z * FTE0001VirtualFinger) :=
  match l with
  | [] => []
  | s :: l' => if fte_touching s then (i, s) :: touchingFrom (i + 1) l' else touchingFrom (i + 1) l'
  end.

Definition fteContacts (d : ApplePS2FTE0001) : list (Z * FTE0001VirtualFinger) := touchingFrom 0 (_finger d).

Lemma length_touchingFrom i l : (length (touchingFrom i l) <= length l)%nat.
Proof. revert i. induction l as [|s l IH]; intros i; simpl; [lia|]. specialize (IH (i + 1)). destruct (fte_touching s); simpl; lia. Qed.

Fixpoint contactSlots (t k : Z) (cs : list (Z * FTE0001VirtualFinger)) : list VoodooInputTransducer :=
  match cs with
  | [] => []
  | (i, s) :: cs' => fteTransducer t i k s :: contactSlots t (k + 1) cs'
  end.

Lemma length_contactSlots t k cs : length (contactSlots t k cs) = length cs.
Proof. revert k. induction cs as [|[i s] cs IH]; intros k; simpl; [done|]. by rewrite IH. Qed.

Lemma fteFill_spec t l i k ts :
  (k + length l <= length ts)%nat ->
  fteFill t l i (Z.of_nat k) ts =
  Some (take k ts ++ contactSlots t (Z.of_nat k) (touchingFrom i l) ++ drop (k + length (touchingFrom i l)) ts,
        Z.of_nat (k + length (touchingFrom i l))).
Proof.
  revert i k ts. induction l as [|s l IH]; intros i k ts Hk; simpl in *.
  - rewrite Nat.add_0_r, take_drop. done.
  - destruct (fte_touching s); simpl; [|apply IH; lia].
    rewrite arr_set_Some by lia. cbn [mbind option_bind]. rewrite Nat2Z.id.
    replace (Z.of_nat k + 1) with (Z.of_nat (S k)) by lia. rewrite IH by (rewrite length_insert; lia).
    rewrite Nat.add_succ_r. f_equal. f_equal.
    rewrite (take_S_r _ _ (fteTransducer t i (Z.of_nat k) s)) by (apply list_lookup_insert_eq; lia).
    rewrite take_insert_ge, drop_insert_lt by lia. by rewrite <- app_assoc.
Qed.

(** The slots of a report: the contacts in order, then unused ones. *)
Definition fteSlots (d : ApplePS2FTE0001) (t : Z) : list VoodooInputTransducer :=
  contactSlots t 0 (fteContacts d) ++
  map clearTransducer (drop (length (fteContacts d)) (ev_transducers (_inputEvent d))).

Lemma fteTransducers_spec n d t :
  FTE_MAX_FINGERS <= n -> fte_ok n d ->
  fteTransducers d t = Some (fteSlots d t, Z.of_nat (length (fteContacts d))) /\
  length (fteSlots d t) = length (ev_transducers (_inputEvent d)).
Proof.
  intros Hn [? Hh Hf _ _ _ _ Hs _].
  pose proof (length_touchingFrom 0 (_finger d)) as Hl. fold (fteContacts d) in Hl.
  unfold fteTransducers. change 0 with (Z.of_nat 0) at 2. rewrite fteFill_spec by lia.
  fold (fteContacts d). cbn [mbind option_bind Nat.add]. rewrite Nat2Z.id.
  rewrite take_0, app_nil_l, take_app_length', drop_app_length' by by rewrite length_contactSlots.
  split; [done|]. unfold fteSlots. rewrite length_app, length_map, length_drop, length_contactSlots. lia.
Qed.

(** *** The event is one VoodooInput may be told *)

Lemma filter_contactSlots t k cs : filter (fun t => tr_isValid t = true) (contactSlots t k cs) = contactSlots t k cs.
Proof.
  revert k. induction cs as [|[i s] cs IH]; intros k; [done|]. simpl.
  rewrite filter_cons_True by done. by rewrite IH.
Qed.

Lemma filter_cleared l : filter (fun t => tr_isValid t = true) (map clearTransducer l) = [].
Proof. induction l as [|t l IH]; [done|]. simpl. by rewrite filter_cons_False. Qed.

Lemma contacts_fteSlots d t : filter (fun t => tr_isValid t = true) (fteSlots d t) = contactSlots t 0 (fteContacts d).
Proof. unfold fteSlots. by rewrite filter_app, filter_contactSlots, filter_cleared, app_nil_r. Qed.

Lemma contactSlots_ids t k cs : map tr_secondaryId (contactSlots t k cs) = map fst cs.
Proof. revert k. induction cs as [|[i s] cs IH]; intros k; [done|]. simpl. by rewrite IH. Qed.

Lemma contactSlots_types t k cs :
  map tr_fingerType (contactSlots t k cs) = map fingerTypeForIndex (seqZ k (Z.of_nat (length cs))).
Proof.
  revert k. induction cs as [|[i s] cs IH]; intros k; [done|]. cbn [contactSlots map length].
  rewrite seqZ_cons, IH by lia. simpl. f_equal. f_equal. f_equal. lia.
Qed.

Lemma touchingFrom_spec i l k f :
  (k, f) ∈ touchingFrom i l -> i <= k /\ f ∈ l /\ fte_touching f = true.
Proof.
  revert i. induction l as [|s l IH]; intros i; simpl; [by intros ?%elem_of_nil|].
  destruct (fte_touching s) eqn:E; [intros [[= -> ->]|H]%elem_of_cons|intros H].
  - split; [lia|]. split; [by left|done].
  - destruct (IH _ H) as (? & ? & ?). split; [lia|]. split; [by right|done].
  - destruct (IH _ H) as (? & ? & ?). split; [lia|]. split; [by right|done].
Qed.

Lemma touchingFrom_ids i l : NoDup (map fst (touchingFrom i l)).
Proof.
  revert i. induction l as [|s l IH]; intros i; simpl; [constructor|].
  destruct (fte_touching s); [|apply IH]. simpl. apply NoDup_cons. split; [|apply IH].
  intros ([k f] & -> & Hf)%list_elem_of_fmap. apply touchingFrom_spec in Hf as [H _]. simpl in H. lia.
Qed.

Lemma finger_types_differ m : (m <= 4)%nat -> NoDup (map fingerTypeForIndex (seqZ 0 (Z.of_nat m))).
Proof.
  intros Hm. destruct m as [|[|[|[|[|m]]]]]; [..|lia]; apply (bool_decide_unpack _); vm_compute; exact I.
Qed.

Lemma contactSlots_elem t k cs x :
  x ∈ contactSlots t k cs -> exists i f, (i, f) ∈ cs /\ tr_current x = fte_current f /\ tr_previous x = fte_previous f.
Proof.
  revert k. induction cs as [|[i s] cs IH]; intros k; simpl; [by intros ?%elem_of_nil|].
  intros [->|H]%elem_of_cons.
  - exists i, s. split; [by left|done].
  - destruct (IH _ H) as (j & f & ? & ?). exists j, f. split; [by right|done].
Qed.

Lemma touch_event_told n d t :
  fte_ok n d -> touch_event_ok (mkInputEvent (fteSlots d t) (u8 (Z.of_nat (length (fteContacts d)))) t).
Proof.
  intros [? Hh Hf _ Hp _ _ _ _]. pose proof (length_touchingFrom 0 (_finger d)) as Hl.
  fold (fteContacts d) in Hl. unfold FTE_MAX_FINGERS in Hf.
  assert (E : contactsOf (mkInputEvent (fteSlots d t) (u8 (Z.of_nat (length (fteContacts d)))) t) =
    contactSlots t 0 (fteContacts d)) by apply contacts_fteSlots.
  split; rewrite ?E; cbn [ev_contact_count]; rewrite ?(u8_small (Z.of_nat _)) by lia.
  - by rewrite length_contactSlots.
  - unfold FTE_MAX_FINGERS. lia.
  - apply Forall_forall. intros x (i & f & Hin & -> & ->)%contactSlots_elem.
    apply touchingFrom_spec in Hin as (_ & Hin & Ht). rewrite Forall_forall in Hp. by apply Hp.
  - rewrite contactSlots_ids. apply touchingFrom_ids.
  - rewrite contactSlots_types. apply finger_types_differ. lia.
Qed.

Lemma packetButtons_range p0 : 0 <= packetButtons p0 < 4.
Proof. unfold packetButtons. repeat case_match; done. Qed.

Section Entries.
Context {B : Type} `{HB : PS2Bus B} `{HL : !PS2BusLaws B} (n : Z) (Hn : FTE_MAX_FINGERS <= n).
#[local] Abbreviation W := (DrvWorld B ApplePS2FTE0001 FteEvent).
#[local] Abbreviation C := (M W).
#[local] Abbreviation moves := (moves (B := B) (E := FteEvent)).
#[local] Abbreviation ends := (ends (B := B) (E := FteEvent)).

Lemma ends_sendButtons I b : 0 <= b < 4 -> ends I I (sendButtons b).
Proof.
  intros Hb. unfold sendButtons. apply ends_dget_bind. intros d Hd. apply ends_weak. destruct (_voodooInput d).
  - eapply ends_bind; [apply ends_gets|intros t; by apply ends_tell].
  - apply ends_ret.
Qed.

Lemma ends_sendTouchData rb : ends (with_ring n rb) (with_ring n rb) sendTouchData.
Proof.
  unfold sendTouchData. eapply ends_bind; [apply ends_gets|]. intros t.
  apply ends_dget_bind. intros d Hd. apply ends_weak.
  destruct (fteTransducers_spec n d t Hn (proj1 Hd)) as [E El]. eapply ends_deref_bind; [exact E|]. cbn iota.
  eapply (ends_bind _ (with_ring n rb)).
  { apply ends_dset; [|done]. intros d' [[] Hr]. destruct Hd as [[] _]. split; [|done]. split; try done.
    cbn [_inputEvent ev_transducers]. lia. }
  intros _. apply ends_dget_bind. intros d1 _. apply ends_weak. eapply (ends_bind _ (with_ring n rb)).
  { destruct (_voodooInput d1); [|apply ends_ret]. apply ends_tell. apply (touch_event_told n d t), Hd. }
  intros _. apply ends_dget_bind. intros d2 Hd2. apply ends_weak.
  apply ends_dget_bind. intros d3 _. apply ends_weak. apply ends_when. intros _.
  eapply ends_bind; [apply ends_sendButtons, Hd2|]. intros _. apply ends_dset; [fte_fields|done].
Qed.

Lemma ends_reportState rb : ends (with_ring n rb) (with_ring n rb) reportState.
Proof.
  eapply (ends_bind _ (with_ring n rb)); [apply ends_dset; [|done]; intros d [Hd Hr]; split; [by apply fteUpdateFingers_ok|done]|].
  intros _. apply ends_sendTouchData.
Qed.

(** ** Packets *)

Lemma decodeFinger_total packet i old :
  length packet = 16%nat -> 0 <= i < 4 -> exists s, decodeFinger packet i old = Some s.
Proof.
  intros Hl Hi. unfold decodeFinger.
  destruct (arr_get_Some packet (i * 4 + 1)) as (b1 & -> & _); [lia|].
  destruct (arr_get_Some packet (i * 4 + 2)) as (b2 & -> & _); [lia|].
  destruct (arr_get_Some packet (i * 4 + 3)) as (b3 & -> & _); [lia|]. eauto.
Qed.

Lemma decodeFingers_total packet l hw :
  length packet = 16%nat -> length hw = 4%nat -> Forall (fun i => 0 <= i < 4) l ->
  exists hw', decodeFingers packet l hw = Some hw' /\ length hw' = 4%nat.
Proof.
  intros Hl Hh Hf. revert hw Hh. induction Hf as [|i l Hi _ IH]; intros hw Hh; [by exists hw|]. simpl.
  destruct (arr_get_Some hw i) as (old & -> & _); [lia|]. cbn [mbind option_bind].
  destruct (decodeFinger_total packet i old Hl Hi) as (s & ->). cbn [mbind option_bind].
  rewrite arr_set_Some by lia. cbn [mbind option_bind]. apply IH. by rewrite length_insert.
Qed.

Lemma decodePacket_total packet hw :
  length packet = 16%nat -> Z.of_nat (length hw) = FTE_MAX_FINGERS ->
  exists p, decodePacket packet hw = Some p /\
    match p with
    | FteInvalid => True
    | FteNoCoordinates b => 0 <= b < 4
    | FteCoordinates b hw' => 0 <= b < 4 /\ Z.of_nat (length hw') = FTE_MAX_FINGERS
    end.
Proof.
  intros Hl Hh. unfold decodePacket. destruct (arr_get_Some packet 0) as (p0 & -> & _); [lia|].
  cbn [mbind option_bind]. destruct (notHeader p0); [by eexists|].
  destruct (Z.land p0 0x30 =? 0x10); [eexists; split; [done|apply packetButtons_range]|].
  destruct (decodeFingers_total packet (seqZ 0 FTE_MAX_FINGERS) hw) as (hw' & -> & Hl'); [done| | |].
  - unfold FTE_MAX_FINGERS in Hh. lia.
  - apply (bool_decide_unpack _). vm_compute. exact I.
  - eexists. split; [done|]. split; [apply packetButtons_range|]. unfold FTE_MAX_FINGERS. lia.
Qed.

Lemma ends_processPacket rb packet : length packet = 16%nat -> ends (with_ring n rb) (with_ring n rb) (processPacket packet).
Proof.
  intros Hl. apply ends_dget_bind. intros d Hd. apply ends_weak.
  destruct (decodePacket_total packet (_hardware d) Hl (ft_hardware _ _ (proj1 Hd))) as (p & E & Hp).
  eapply ends_deref_bind; [done|]. destruct p as [|b|b hw]; [apply ends_ret|..];
    (eapply (ends_bind _ (with_ring n rb)); [apply ends_dset; [|done]|]).
  - clear d Hd E. revert Hp. intros [Hp1 Hp2]. fte_fields.
  - intros _. eapply (ends_bind _ (with_ring n rb)); [apply ends_reportState|intros _; apply ends_ret].
  - clear d Hd E. destruct Hp as [[Hp1 Hp2] Hp3]. fte_fields.
  - intros _. eapply (ends_bind _ (with_ring n rb)); [apply ends_reportState|intros _; apply ends_ret].
Qed.

Lemma ends_diagnostics I o v :
  (forall l, o = Some l -> length l = 16%nat) -> ends I I (publishRuntimeDiagnostics o v).
Proof.
  intros Ho. apply ends_dget_bind. intros d _. apply ends_weak.
  destruct o as [p|]; [|intros w Hw; apply total_bind, total_ret; by apply ends_tell].
  destruct (arr_get_Some p (FTE_PACKET_MAX_LENGTH - 1)) as (x & E & _); [by rewrite (Ho p eq_refl)|].
  intros w Hw. rewrite E. apply total_bind, total_bind, total_ret, total_ret.
  apply ends_tell; [|done]. cbn [may_tell fte_tells]. rewrite length_take, (Ho p eq_refl). done.
Qed.

Lemma ends_handlePacket rb packet : length packet = 16%nat -> ends (with_ring n rb) (with_ring n rb) (handlePacket packet).
Proof.
  intros Hl. eapply (ends_bind _ (with_ring n rb)); [apply ends_dset; [fte_fields|done]|]. intros _.
  eapply ends_bind; [by apply ends_processPacket|]. intros v.
  eapply (ends_bind _ (with_ring n rb)).
  { apply ends_dset; [|intros d; by destruct v]. unfold countPacket. destruct v; fte_fields. }
  intros _. apply ends_dget_bind. intros d _. apply ends_weak, ends_when. intros _.
  apply ends_diagnostics. by intros ? [= <-].
Qed.

(** ** Requests *)

#[local] Abbreviation at_device o := (on_device (fte_ok n) o).

Lemma drv_moves_update l o f :
  (forall d, fte_ok n d -> fte_ok n (f d)) -> (forall d, _device (f d) = _device d) ->
  (forall d, _interruptInstalled (f d) = _interruptInstalled d) ->
  moves (at_device o) l (at_device o) l (dset f).
Proof.
  intros H1 H2 H3. apply moves_dset; [|done]. intros d [Hd Ho]. split; [by apply H1|].
  change (drv_device (f d)) with (_device (f d)). by rewrite H2.
Qed.

Ltac fte_steps := repeat (first [moves_step | apply drv_moves_update; [fte_fields|done|done]]).

Lemma known_port p d : at_device (Some p) d -> 0 <= p < kPS2MuxMaxIdx.
Proof. intros [Hd Ho]. by apply (ft_port _ _ Hd). Qed.

Section AtDevice.
Context (p : Z) (Hp : 0 <= p < kPS2MuxMaxIdx).
#[local] Abbreviation steady m := (forall l, moves (at_device (Some p)) l (at_device (Some p)) l m).

Lemma fte_steady_setTouchPadEnable b : steady (setTouchPadEnable b).
Proof. intros l. unfold setTouchPadEnable. fte_steps. Qed.

Lemma fte_steady_detect : steady detectFTE0001.
Proof. intros l. unfold detectFTE0001. fte_steps. Qed.

Lemma fte_steady_resetPass : steady (resetPass p).
Proof. intros l. unfold resetPass. fte_steps. Qed.

Lemma fte_steady_resetDevice : steady resetDevice.
Proof. intros l. unfold resetDevice. fte_steps; apply fte_steady_resetPass. Qed.

Lemma fte_steady_switch : steady switchToAdvancedProtocol.
Proof. intros l. unfold switchToAdvancedProtocol. fte_steps. Qed.

Lemma fte_steady_countAuxNubs : steady countAuxNubs.
Proof. intros l. unfold countAuxNubs. fte_steps. Qed.

Lemma fte_steady_publish : steady publishInputProperties.
Proof. intros l. unfold publishInputProperties. fte_steps. Qed.

Lemma fte_steady_diagnostics : steady (publishRuntimeDiagnostics None false).
Proof. intros l. apply moves_ends, ends_diagnostics. done. Qed.

Lemma fte_resetState_ok d : fte_ok n d -> fte_ok n (resetState d).
Proof.
  intros []. split; try done; [apply fteNoFingers_on_pad|]. cbn [resetState _ringBuffer].
  apply aligned_reset; [done|done|]. by destruct ft_ring0 as [[? _ _] _ _].
Qed.

Lemma fte_steady_setupHardware b : steady (setupHardware b).
Proof.
  intros l. unfold setupHardware. eapply drv_moves_bind; [apply drv_moves_update; [apply fte_resetState_ok|done|done]|].
  intros _. eapply drv_moves_bind; [apply fte_steady_resetDevice|]. intros [|]; cbn [negb]; [|fte_steps].
  eapply drv_moves_bind; [apply fte_steady_detect|]. intros [|]; cbn [negb]; [|fte_steps].
  eapply drv_moves_bind; [apply fte_steady_switch|]. intros [|]; cbn [negb]; fte_steps.
  - apply fte_steady_publish.
  - apply fte_steady_diagnostics.
Qed.

End AtDevice.

(** ** The entry points *)

#[local] Abbreviation unlocked m := (moves (fte_ok n) false (fte_ok n) false m).

Lemma forget_device o d : at_device o d -> fte_ok n d.
Proof. by intros []. Qed.

Lemma unlocked_device {X} (k : option Z -> C X) :
  unlocked (k None) ->
  (forall p, 0 <= p < kPS2MuxMaxIdx -> moves (at_device (Some p)) false (at_device (Some p)) false (k (Some p))) ->
  unlocked (dget drv_device ≫= k).
Proof.
  intros Hnone Hp. apply moves_device; [exact _| |].
  - eapply moves_mono; [apply forget_device|done|done].
  - intros p Hr. eapply moves_mono; [done|apply forget_device|by apply Hp].
Qed.

Lemma unlocked_power what : unlocked (setDevicePowerState what).
Proof.
  apply unlocked_device; [apply moves_ret|]. intros p Hp.
  destruct (_ =? _); [by apply fte_steady_setTouchPadEnable|]. destruct (negb _); [apply moves_ret|].
  fte_steps; [by apply fte_steady_setupHardware|by apply fte_steady_setTouchPadEnable].
Qed.

(** The driver gets its nub. *)
Lemma moves_attach {X} nub l J l' (k : unit -> C X) :
  (forall p, nub = Some p -> 0 <= p < kPS2MuxMaxIdx) ->
  (forall x, moves (at_device nub) l J l' (k x)) ->
  moves (fte_ok n) l J l' (dset (fun d => {| d with _device := nub |}) ≫= k).
Proof.
  intros Hp Hk. eapply drv_moves_bind; [|exact Hk]. apply moves_dset; [|done].
  intros d []. split; [by split|done].
Qed.

Lemma moves_detach o l : moves (at_device o) l (fte_ok n) l (dset (fun d => {| d with _device := None |})).
Proof. apply moves_dset; [|done]. intros d [[] _]. by split. Qed.

Lemma unlocked_fte_probe opt nub prop :
  (forall p, nub = Some p -> 0 <= p < kPS2MuxMaxIdx) -> unlocked (probe opt nub prop).
Proof.
  intros Hp. unfold probe. destruct (_ =? _); [apply moves_ret|]. apply moves_attach; [done|]. intros _.
  destruct nub as [p|]; [|eapply moves_mono; [done|apply forget_device|apply moves_ret]].
  specialize (Hp p eq_refl).
  eapply drv_moves_bind; [fte_steps|]. intros _. eapply drv_moves_bind; [by apply fte_steady_countAuxNubs|]. intros k.
  eapply drv_moves_bind; [fte_steps|]. intros _. destruct (1 <? k).
  { eapply drv_moves_bind; [apply moves_detach|intros _; apply moves_ret]. }
  eapply drv_moves_bind; [fte_steps|]. intros _. eapply drv_moves_bind; [by apply fte_steady_detect|]. intros found.
  eapply drv_moves_bind; [fte_steps|]. intros _.
  eapply drv_moves_bind; [apply drv_moves_when; intros _; by apply fte_steady_diagnostics|]. intros _.
  eapply drv_moves_bind; [apply moves_detach|intros _; apply moves_ret].
Qed.

Lemma unlocked_fte_start nub prop :
  (forall p, nub = Some p -> 0 <= p < kPS2MuxMaxIdx) -> unlocked (start nub prop).
Proof.
  intros Hp. unfold start. apply moves_attach; [done|]. intros _.
  destruct nub as [p|]; [|eapply moves_mono; [done|apply forget_device|apply moves_ret]].
  specialize (Hp p eq_refl).
  eapply drv_moves_bind; [fte_steps|]. intros _. eapply drv_moves_bind; [by apply fte_steady_countAuxNubs|]. intros k.
  eapply drv_moves_bind; [fte_steps|]. intros _. eapply drv_moves_bind; [fte_steps|]. intros _.
  eapply drv_moves_bind; [by apply fte_steady_setupHardware|]. intros [|]; cbn [negb].
  - eapply drv_moves_bind; [apply (moves_install _ (at_device (Some p))); fte_fields|]. intros _.
    eapply drv_moves_bind; [by apply fte_steady_setTouchPadEnable|]. intros _.
    eapply moves_mono; [done|apply forget_device|]. fte_steps.
  - eapply drv_moves_bind; [fte_steps|]. intros _.
    eapply drv_moves_bind; [apply moves_detach|intros _; apply moves_ret].
Qed.

Lemma moves_let_go o l :
  moves (at_device o) l (fte_ok n) l (dset (fun d => {| d with _voodooInput := None; _device := None |})).
Proof. apply moves_dset; [|done]. intros d [[] _]. by split. Qed.

Lemma unlocked_fte_stop : unlocked stop.
Proof.
  unfold stop. apply moves_device; [exact _| |]; [|intros p Hp].
  - eapply drv_moves_bind; [apply moves_ret|]. intros _. apply moves_let_go.
  - eapply drv_moves_bind; [|intros _; apply (moves_let_go (Some p))].
    eapply drv_moves_bind; [by apply fte_steady_setTouchPadEnable|]. intros _.
    intros w Hw. apply wp_bind, wp_gets, wp_bind. eapply (wp_mono _ (fun _ w' => good (at_device (Some p)) false w')).
    + apply wp_when; [|done]. intros E.
      by apply (moves_uninstall (at_device (Some p)) (at_device (Some p)) false); [fte_fields| |exact Hw|].
    + intros _ w' Hw'. revert w' Hw'. change (moves (at_device (Some p)) false (at_device (Some p)) false
        (q ← dget _powerInstalled; when q (onController bus_uninstallPower ;;
             dset (fun d => {| d with _powerInstalled := false |})))). fte_steps.
Qed.

End Entries.
