(* ===== verification/FTE0001Spec.v ===== *)
(** * What the FTE0001 driver promises

    Safety over every history of calls, what VoodooInput may be told, the work loop,
    and the way of a report from the touchpad's bytes to VoodooInput. *)
From S2P Require Import Prelude PS2Types RingBuffer RingSpec Controller ControllerLemmas TestBench Bus BusController.
From S2P Require Import DriverWorld Touch FTE0001 FTE0001Safe.

Definition fteWaiting (d : ApplePS2FTE0001) : list (list Z) :=
  pending FTE_RING FTE_PACKET_MAX_LENGTH (_ringBuffer d).

(** What the kernel may call, with the arguments that matter. *)
Inductive FteOp :=
| FteByte (data : Z)
| FtePackets
| FtePower (whatToDo : Z)
| FteOpen (client : option Z) (isInput : bool)
| FteClose (client : option Z)
| FteProbe (optIn : Z) (nub portProperty : option Z)
| FteStart (nub portProperty : option Z)
| FteStop.

(** The nubs the driver is given are ports of the controller. *)
Definition fte_op_ok (o : FteOp) : Prop :=
  match o with
  | FteProbe _ (Some p) _ | FteStart (Some p) _ => 0 <= p < kPS2MuxMaxIdx
  | _ => True
  end.

Section Work.
Context {B : Type} `{HB : PS2Bus B} (n : Z) (Hn : FTE_MAX_FINGERS <= n).
#[local] Abbreviation W := (DrvWorld B ApplePS2FTE0001 FteEvent).
#[local] Abbreviation C := (M W).

Definition dropPacket (d : ApplePS2FTE0001) : ApplePS2FTE0001 :=
  {| d with _ringBuffer := advanceTail FTE_RING FTE_PACKET_MAX_LENGTH (_ringBuffer d) |}.

(** One waiting packet. *)
Definition handleNext (packet : list Z) : C unit := handlePacket packet ;; dset dropPacket.

(** The world after the driver alone has run. *)
Definition worked (w w' : W) : Prop :=
  fte_ok n (self w') /\ host w' = host w /\ now w' = now w /\
  drv_installed (self w') = drv_installed (self w) /\
  (Forall may_tell (told w) -> Forall may_tell (told w')).

Lemma worked_trans w1 w2 w3 : worked w1 w2 -> worked w2 w3 -> worked w1 w3.
Proof.
  intros (A1 & A2 & A3 & A4 & A5) (C1 & C2 & C3 & C4 & C5). split; [done|].
  split_and!; [congruence..|auto].
Qed.

Lemma handleNext_spec (w : W) packet :
  fte_ok n (self w) -> FTE_PACKET_MAX_LENGTH <= count FTE_RING (_ringBuffer (self w)) ->
  fteWaiting (self w) = packet :: fteWaiting (dropPacket (self w)) ->
  exists w', handleNext packet w = Ok (w', tt) /\ worked w w' /\
    fteWaiting (self w') = fteWaiting (dropPacket (self w)) /\
    count FTE_RING (_ringBuffer (self w')) = count FTE_RING (_ringBuffer (self w)) - FTE_PACKET_MAX_LENGTH.
Proof.
  intros Hd Hc Hp. pose proof (ft_ring _ _ Hd) as Hr.
  assert (Hl : length packet = 16%nat).
  { eapply (pending_packet_length FTE_RING FTE_PACKET_MAX_LENGTH); [done..|exact Hr|].
    unfold fteWaiting in Hp. rewrite Hp. by left. }
  assert (He : ends (B := B) (with_ring n (_ringBuffer (self w)))
    (with_ring n (advanceTail FTE_RING FTE_PACKET_MAX_LENGTH (_ringBuffer (self w)))) (handleNext packet)).
  { eapply ends_bind; [by apply ends_handlePacket|]. intros _. apply ends_dset; [|done].
    intros d [[] <-]. split; [|done]. split; try done. by apply advanceTail_aligned. }
  destruct (He w (conj Hd eq_refl)) as (w' & [] & E & [H1 H2] & H3 & H4 & H5 & H6).
  exists w'. split; [done|]. split; [by split|]. unfold fteWaiting, dropPacket. cbn [_ringBuffer].
  rewrite H2. split; [done|]. by apply advanceTail_count.
Qed.

Lemma fte_packetReadyRound_eq (w : W) :
  packetReadyRound tt w =
  if count FTE_RING (_ringBuffer (self w)) <? FTE_PACKET_MAX_LENGTH then Ok (w, inr tt)
  else (handleNext (tailPacket (self w)) ;; ret (inl tt)) w.
Proof.
  unfold packetReadyRound. rewrite (bind_ok (dget _) _ w w (count FTE_RING (_ringBuffer (self w)))) by done.
  cbn beta. destruct (_ <? _); [done|].
  rewrite (bind_ok (dget tailPacket) _ w w (tailPacket (self w))) by done.
  unfold handleNext. by rewrite bind_assoc.
Qed.

(** Any fuel beyond the number of waiting bytes is enough. *)
Lemma fte_rounds fuel (w : W) :
  fte_ok n (self w) -> (fteQueued w < fuel)%nat ->
  exists w', iter fuel packetReadyRound tt w = Ok (w', tt) /\
    for_each (fteWaiting (self w)) handleNext w = Ok (w', tt) /\
    fteWaiting (self w') = [] /\ worked w w'.
Proof.
  intros Hd Hf. revert w Hf Hd. induction fuel as [|fuel IH]; intros w Hf Hd; [lia|].
  pose proof (ft_ring _ _ Hd) as Hr. simpl. rewrite fte_packetReadyRound_eq.
  destruct (Z.ltb_spec (count FTE_RING (_ringBuffer (self w))) FTE_PACKET_MAX_LENGTH) as [Hc|Hc].
  - assert (Hw : fteWaiting (self w) = []) by (by apply pending_nil). rewrite Hw.
    exists w. by split_and!.
  - assert (Hp : fteWaiting (self w) = tailPacket (self w) :: fteWaiting (dropPacket (self w)))
      by (by apply advanceTail_pending).
    destruct (handleNext_spec w _ Hd Hc Hp) as (w1 & E & H1 & Hw1 & Hc1).
    rewrite (bind_ok _ _ _ _ _ E). rewrite Hp. cbn [for_each]. rewrite (bind_ok _ _ _ _ _ E), <- Hw1.
    destruct (IH w1) as (w' & E' & Ef & Hn' & H').
    { unfold fteQueued in *. unfold FTE_PACKET_MAX_LENGTH in *. lia. }
    { apply H1. }
    exists w'. split_and!; [done..|]. by eapply worked_trans.
Qed.

(** Cn: the work loop is a loop over the waiting packets: called on any ring,
    [packetReady] ends, and does exactly what handling each waiting packet once,
    oldest first, would do; none is left. *)
Theorem packetReady_handles_waiting (w : W) :
  fte_ok n (self w) ->
  total packetReady (fun _ w' => for_each (fteWaiting (self w)) handleNext w = Ok (w', tt) /\
    fteWaiting (self w') = [] /\ fte_ok n (self w') /\ host w' = host w) w.
Proof.
  intros Hd. destruct (fte_rounds (S (fteQueued w)) w Hd) as (w' & E & Ef & Hw & Hd' & Hh & _); [lia|].
  by exists w', tt.
Qed.

(** ** Every history *)

Definition run_fte (o : FteOp) : C unit :=
  match o with
  | FteByte data => interrupted data ;; ret tt
  | FtePackets => packetReady
  | FtePower what => setDevicePowerState what
  | FteOpen c i => handleOpen c i ;; ret tt
  | FteClose c => handleClose c
  | FteProbe opt nub p => probe opt nub p ;; ret tt
  | FteStart nub p => start nub p ;; ret tt
  | FteStop => stop
  end.

End Work.

Section Histories.
Context {B : Type} `{HB : PS2Bus B} `{HL : !PS2BusLaws B} (n : Z) (Hn : FTE_MAX_FINGERS <= n).
#[local] Abbreviation W := (DrvWorld B ApplePS2FTE0001 FteEvent).
#[local] Abbreviation unlocked m := (moves (B := B) (E := FteEvent) (fte_ok n) false (fte_ok n) false m).

Lemma unlocked_ignore {X} (m : M W X) : unlocked m -> unlocked (m ;; ret tt).
Proof. intros Hm. eapply drv_moves_bind; [exact Hm|]. intros _. apply moves_ret. Qed.

Lemma unlocked_open c : unlocked (dset (fun d => {| d with _voodooInput := Some c |}) ;; ret true).
Proof.
  eapply drv_moves_bind; [apply (moves_dset _ (fte_ok n)); [|done]|intros _; apply moves_ret].
  fte_fields.
Qed.

Lemma unlocked_run_fte o : fte_op_ok o -> unlocked (run_fte o).
Proof.
  intros Ho. destruct o as [data| |what|c i|c|opt nub p|nub p|]; cbn [run_fte].
  - apply unlocked_ignore. intros w [H1 H2 H3 H4 H5]. unfold wp, interrupted. cbn [drv_interrupt FTE0001_driver].
    destruct (fte_interrupt_ok n (self w) data H1) as (d' & r & E & Hd' & Ef). rewrite E.
    split; try done. cbn [self drv_installed FTE0001_driver] in *.
    by rewrite (f_equal _interruptInstalled Ef : _interruptInstalled d' = _interruptInstalled (self w)).
  - apply moves_ends. intros w Hw.
    destruct (fte_rounds n Hn (S (fteQueued w)) w Hw) as (w' & E & _ & _ & Hwk); [lia|]. by exists w', tt.
  - by apply unlocked_power.
  - apply unlocked_ignore. unfold handleOpen. destruct c as [c|]; [destruct i|]; try apply moves_ret.
    apply unlocked_open.
  - apply moves_dset; [|intros d; by case_bool_decide]. intros d Hd. case_bool_decide; [|done].
    revert d Hd H. fte_fields.
  - apply unlocked_ignore, unlocked_fte_probe. intros q ->. apply Ho.
  - apply unlocked_ignore, unlocked_fte_start. intros q ->. apply Ho.
  - by apply unlocked_fte_stop.
Qed.

Lemma histories_good ops (w : W) :
  Forall fte_op_ok ops -> good (fte_ok n) false w ->
  wp (for_each ops run_fte) (fun _ w' => good (fte_ok n) false w') w.
Proof.
  intros Ho Hw. apply wp_for_each; [done|]. intros o w' Hin Hw'.
  rewrite Forall_forall in Ho. by apply unlocked_run_fte; [apply Ho|].
Qed.

(** C23: Cn: the FTE0001 driver is safe against every history.  Over any bus that keeps
    the promises of [PS2BusLaws], in any order of interrupt bytes, work-loop calls,
    power changes, opens and closes, probes, starts and stops, no entry point leaves
    an array, uses a null pointer or takes or releases the controller's lock out of
    turn, and each ends with the driver's invariant: the ring aligned to packets of
    sixteen bytes, fewer than sixteen bytes collected, every touching finger on the
    pad. *)
Theorem fte_safe ops (w : W) :
  Forall fte_op_ok ops -> good (fte_ok n) false w ->
  wp (for_each ops run_fte) (fun _ w' =>
    fte_ok n (self w') /\ bus_ok (host w') /\ bus_locked (host w') = false) w.
Proof.
  intros Ho Hw. eapply wp_mono; [by apply histories_good|]. by intros _ w' [].
Qed.

(** C24: Cn: whatever bytes the touchpad sends and whatever the history, every report
    that VoodooInput gets has at most four contacts, as many as it says, all of them
    and their predecessors inside the logical bounds 0x8E0 by 0x3E0, no two with
    the same identifier or finger type; and a button report has no other buttons than
    the two that exist. *)
Theorem fte_reports_bounded ops (w : W) :
  Forall fte_op_ok ops -> good (fte_ok n) false w ->
  wp (for_each ops run_fte) (fun _ w' =>
    (forall c e, FteTouch c e ∈ told w' -> touch_event_ok e) /\
    (forall c t b, FteButtons c t b ∈ told w' -> 0 <= b < 4)) w.
Proof.
  intros Ho Hw. eapply wp_mono; [by apply histories_good|]. cbn beta. intros _ w' [_ _ _ _ Ht].
  rewrite Forall_forall in Ht. split; intros; by apply (Ht _ H).
Qed.

End Histories.

(** ** The driver on the controller *)

(** The bench's controller with the driver's nub in slot 1, and a driver opened by
    client 7. *)
Definition fte_bench (d : ApplePS2FTE0001) (answers : list Z)
  : DrvWorld (World (list Z) PS2Request) ApplePS2FTE0001 FteEvent :=
  mkDrvWorld d (bench answers) 5 [].

Definition fte_opened : ApplePS2FTE0001 := {| (newFTE0001 10) with _voodooInput := Some 7 |}.

Lemma fte_opened_ok : fte_ok 10 fte_opened.
Proof. pose proof (newFTE0001_ok 10 ltac:(lia)) as Hd. unfold fte_opened. destruct Hd. by split. Qed.

Lemma fte_bench_ok l : world_ok 1 (host (fte_bench fte_opened l)).
Proof.
  split; [apply bench_ctl_ok|]. split; simpl; try done; try (by eexists).
  exists (bench_device 1). split; [done|]. split; [done|]. by intros f [= <-].
Qed.

Lemma fte_bench_good l :
  good (HB := controller_bus 1 bench_request) (fte_ok 10) false (fte_bench fte_opened l).
Proof. split; [exact fte_opened_ok|exact (fte_bench_ok l)|done|done|constructor]. Qed.

(** A two-finger report with the left button down, for the two slots of a short packet. *)
Definition fte_touch_bytes : list Z := [0x09; 0x10; 0x20; 0x12; 0x02; 0x30; 0x18; 0x34].

Definition fte_bench_ops : list FteOp :=
  [FteStart (Some 1) (Some 1); FteByte 0x40] ++ map FteByte fte_touch_bytes ++
  [FtePackets; FtePower 0; FteClose (Some 7); FteStop].

Lemma fte_bench_ops_ok : Forall fte_op_ok fte_bench_ops.
Proof. by repeat (apply Forall_cons_2; [done|]). Qed.

Lemma fte_safe_witness :
  let w := fte_bench fte_opened (repeat 0 200) in
  world_ok 1 (host w) /\
  wp (for_each fte_bench_ops (run_fte (HB := controller_bus 1 bench_request)))
     (fun _ w' => fte_ok 10 (self w') /\ world_ok 1 (host w') /\ held (host w') = false) w.
Proof.
  intros w. split; [apply fte_bench_ok|].
  exact (fte_safe (HB := controller_bus 1 bench_request) (HL := controller_bus_laws 1 bench_request) 10 ltac:(done)
    fte_bench_ops w fte_bench_ops_ok (fte_bench_good (repeat 0 200))).
Defined.

(** The bytes above, without the requests that the bench's controller answers. *)
Definition fte_touch_ops : list FteOp := FteByte 0x40 :: map FteByte fte_touch_bytes ++ [FtePackets].

Lemma fte_touch_ops_ok : Forall fte_op_ok fte_touch_ops.
Proof. by repeat (apply Forall_cons_2; [done|]). Qed.

(** The places reported, and the buttons. *)
Definition places (l : list FteEvent) : list (list (Z * Z)) :=
  omap (fun e => match e with
    | FteTouch _ e => Some (map (fun t => (tc_x (tr_current t), tc_y (tr_current t))) (contactsOf e))
    | _ => None
    end) l.

Lemma fte_reports_bounded_witness :
  let run := for_each fte_touch_ops (run_fte (HB := controller_bus 1 bench_request)) in
  let w := fte_bench fte_opened [] in
  Forall fte_op_ok fte_touch_ops /\
  wp run (fun _ w' =>
    (forall c e, FteTouch c e ∈ told w' -> touch_event_ok e) /\
    (forall c t b, FteButtons c t b ∈ told w' -> 0 <= b < 4)) w /\
  match run w with
  | Ok (w', _) => places (told w') = [[(0x101, 0x3E0 - 0x202); (0x303, 0x3E0 - 0x184)]]
  | _ => False
  end.
Proof.
  intros run w. split; [exact fte_touch_ops_ok|]. split; [|vm_compute; reflexivity].
  exact (fte_reports_bounded (HB := controller_bus 1 bench_request) (HL := controller_bus_laws 1 bench_request) 10
    ltac:(done) fte_touch_ops w fte_touch_ops_ok (fte_bench_good [])).
Defined.

(** A driver with a packet waiting. *)
Definition fte_waiting_driver : ApplePS2FTE0001 :=
  match for_each fte_touch_bytes (fun b => interruptOccurred b ;; ret tt) fte_opened with
  | Ok (d, _) => d
  | _ => fte_opened
  end.

Lemma fte_waiting_ok : fte_ok 10 fte_waiting_driver.
Proof.
  destruct (interrupts_arrive (fte_ok 10) fte_touch_bytes fte_opened fte_opened_ok) as (d & E & Hd & _).
  assert (Ed : fte_waiting_driver = d) by (unfold fte_waiting_driver; cbn [drv_interrupt FTE0001_driver] in E; by rewrite E).
  by rewrite Ed.
Qed.

Lemma fte_waiting_length : length (fteWaiting fte_waiting_driver) = 1%nat.
Proof. vm_compute. reflexivity. Qed.

Lemma packetReady_handles_waiting_witness :
  let w := fte_bench fte_waiting_driver [] in
  length (fteWaiting (self w)) = 1%nat /\
  total packetReady (fun _ w' =>
    for_each (fteWaiting (self w)) handleNext w = Ok (w', tt) /\
    fteWaiting (self w') = [] /\ fte_ok 10 (self w') /\ host w' = host w) w.
Proof.
  intros w. split; [exact fte_waiting_length|].
  exact (packetReady_handles_waiting 10 ltac:(done) w fte_waiting_ok).
Defined.
