(* ===== verification/FTE0001Report.v ===== *)
(** * From the touchpad's bytes to VoodooInput: FTE0001

    The reports an FTE0001 touchpad sends, as an encoder; how the interrupt routine
    finds and pads them; and what VoodooInput is told of one. *)
From S2P Require Import Prelude PS2Types RingBuffer RingSpec Controller ControllerLemmas TestBench Bus BusController.
From S2P Require Import DriverWorld Touch FTE0001 FTE0001Safe FTE0001Spec.

(** ** Reports *)

(** A header byte with the buttons and the mode, the byte that announces the number
    of fingers, two bytes without meaning, and the position of each finger. *)
Record FteReport := mkFteReport {
  rp_header : Z;
  rp_mark : Z;
  rp_byte8 : Z;
  rp_byte12 : Z;
  rp_fingers : list (option (Z * Z)) }.

(** The position (0xFFF, 0xFFF) cannot be told from an absent finger. *)
Definition position_sent (o : option (Z * Z)) : Prop :=
  match o with
  | Some (x, y) => 0 <= x < 4096 /\ 0 <= y < 4096 /\ (x <> 4095 \/ y <> 4095)
  | None => True
  end.

Definition rp_short (r : FteReport) : bool := announced (rp_mark r) <=? 2.

Definition rp_finger (r : FteReport) (i : nat) : option (Z * Z) := default None (rp_fingers r !! i).

Record report_ok (r : FteReport) : Prop := {
  ro_bytes : is_byte (rp_header r) /\ is_byte (rp_mark r) /\ is_byte (rp_byte8 r) /\ is_byte (rp_byte12 r);
  ro_header : notHeader (rp_header r) = false;
  ro_fingers : length (rp_fingers r) = 4%nat;
  ro_positions : Forall position_sent (rp_fingers r);
  ro_short : rp_short r = true -> rp_finger r 2 = None /\ rp_finger r 3 = None }.

Definition encodePosition (o : option (Z * Z)) : list Z :=
  match o with
  | Some (x, y) => [Z.shiftr x 4; Z.shiftr y 4; Z.lor (Z.shiftl (Z.land x 15) 4) (Z.land y 15)]
  | None => [0xFF; 0xFF; 0xFF]
  end.

(** The first eight bytes, and the other eight of a long report. *)
Definition firstHalf (r : FteReport) : list Z :=
  rp_header r :: encodePosition (rp_finger r 0) ++ rp_mark r :: encodePosition (rp_finger r 1).
Definition secondHalf (r : FteReport) : list Z :=
  rp_byte8 r :: encodePosition (rp_finger r 2) ++ rp_byte12 r :: encodePosition (rp_finger r 3).

(** What is sent, and what the ring holds of it. *)
Definition sent (r : FteReport) : list Z := firstHalf r ++ (if rp_short r then [] else secondHalf r).
Definition framed (r : FteReport) : list Z :=
  firstHalf r ++ (if rp_short r then replicate 8 0xFF else secondHalf r).

Lemma length_encodePosition o : length (encodePosition o) = 3%nat.
Proof. by destruct o as [[x y]|]. Qed.

Lemma length_firstHalf r : length (firstHalf r) = 8%nat.
Proof. unfold firstHalf. simpl. rewrite length_app. simpl. by rewrite !length_encodePosition. Qed.

Lemma length_secondHalf r : length (secondHalf r) = 8%nat.
Proof. unfold secondHalf. simpl. rewrite length_app. simpl. by rewrite !length_encodePosition. Qed.

Lemma nibbles_byte x y : Z.lor (Z.shiftl (Z.land x 15) 4) (Z.land y 15) = 16 * (x mod 16) + y mod 16.
Proof.
  change 15 with (Z.ones 4). rewrite !land_low by done. change (2 ^ 4) with 16.
  rewrite lor_shiftl_add; [change (2 ^ 4) with 16; lia|done|apply Z.mod_pos_bound; lia].
Qed.

Lemma encodePosition_bytes o : position_sent o -> Forall is_byte (encodePosition o).
Proof.
  destruct o as [[x y]|]; [intros (Hx & Hy & _)|intros _; by repeat (apply Forall_cons_2; [done|])].
  cbn [encodePosition]. rewrite nibbles_byte, !Z.shiftr_div_pow2 by done. change (2 ^ 4) with 16.
  unfold is_byte. repeat (apply Forall_cons_2; [Z.to_euclidean_division_equations; lia|]). done.
Qed.

Lemma rp_finger_sent r i : report_ok r -> position_sent (rp_finger r i).
Proof.
  intros Hr. unfold rp_finger. destruct (rp_fingers r !! i) eqn:E; [|done].
  pose proof (ro_positions r Hr) as Hp. rewrite Forall_lookup in Hp. by apply (Hp i).
Qed.

Lemma firstHalf_bytes r : report_ok r -> Forall is_byte (firstHalf r).
Proof.
  intros Hr. destruct (ro_bytes r Hr) as (? & ? & _). apply Forall_cons_2; [done|].
  apply Forall_app_2; [by apply encodePosition_bytes, rp_finger_sent|].
  apply Forall_cons_2; [done|]. by apply encodePosition_bytes, rp_finger_sent.
Qed.

Lemma secondHalf_bytes r : report_ok r -> Forall is_byte (secondHalf r).
Proof.
  intros Hr. destruct (ro_bytes r Hr) as (_ & _ & ? & ?). apply Forall_cons_2; [done|].
  apply Forall_app_2; [by apply encodePosition_bytes, rp_finger_sent|].
  apply Forall_cons_2; [done|]. by apply encodePosition_bytes, rp_finger_sent.
Qed.

(** ** The interrupt routine *)

Definition fteInterrupts (bytes : list Z) : M ApplePS2FTE0001 unit :=
  for_each bytes (fun data => interruptOccurred data ;; ret tt).

Lemma fteInterrupts_cons b l d d' r :
  interruptOccurred b d = Ok (d', r) -> fteInterrupts (b :: l) d = fteInterrupts l d'.
Proof. intros E. unfold fteInterrupts. cbn [for_each]. by rewrite bind_assoc, (bind_ok _ _ _ _ _ E). Qed.

Lemma fteInterrupts_app l1 l2 d d1 :
  fteInterrupts l1 d = Ok (d1, tt) -> fteInterrupts (l1 ++ l2) d = fteInterrupts l2 d1.
Proof.
  revert d. induction l1 as [|b l1 IH]; intros d E; [by injection E as <-|].
  unfold fteInterrupts in E. cbn [for_each] in E. apply bind_inv in E as (d2 & [] & E1 & E2).
  apply bind_inv in E1 as (d3 & r & E1 & [= <-]).
  rewrite <- app_comm_cons, (fteInterrupts_cons _ _ _ _ _ E1). by apply IH.
Qed.

(** What an interrupt changes at most, with the packets that wait afterwards and the
    bytes collected of the next. *)
Record collects (n : Z) (d : ApplePS2FTE0001) (q : list (list Z)) (bs : list Z) (d' : ApplePS2FTE0001) : Prop := {
  cs_ok : fte_ok n d';
  cs_frame : fte_frame d' = fte_frame d;
  cs_waiting : fteWaiting d' = q;
  cs_count : _packetByteCount d' = Z.of_nat (length bs);
  cs_bytes : take (length bs) (slot_at FTE_PACKET_MAX_LENGTH (m_buffer (_ringBuffer d')) (m_head (_ringBuffer d'))) = bs;
  cs_fingers : forall mark, bs !! 4%nat = Some mark -> _packetFingerCount d' = announced mark }.

(** A ring with thirty-one packets drops the next. *)
Definition fteEnqueue (q : list (list Z)) (packet : list Z) : list (list Z) :=
  if Z.of_nat (length q) + 1 <? FTE_RING / FTE_PACKET_MAX_LENGTH then q ++ [packet] else q.

(** A byte between two reports that does not look like a header. *)
Lemma interrupt_skips n d0 d q b :
  collects n d0 q [] d -> is_byte b -> notHeader b = true ->
  exists d', interruptOccurred b d = Ok (d', kPS2IR_packetBuffering) /\ collects n d0 q [] d'.
Proof.
  intros [H1 H2 H3 H4 H5 H6] Hb Hh. rewrite (fte_interrupt_eq n) by done. cbn zeta.
  rewrite H4, Hh. cbn. eexists. split; [done|]. split; try done. destruct H1. by split.
Qed.

(** The store common to the three cases. *)
Lemma stored n d0 d q bs b :
  collects n d0 q bs d -> is_byte b -> (length bs < 16)%nat ->
  exists rb,
    rb = {| (_ringBuffer d) with m_buffer :=
      <[Z.to_nat (m_head (_ringBuffer d) + _packetByteCount d) := b]> (m_buffer (_ringBuffer d)) |} /\
    aligned FTE_RING FTE_PACKET_MAX_LENGTH rb /\
    pending FTE_RING FTE_PACKET_MAX_LENGTH rb = q /\
    take (S (length bs)) (slot_at FTE_PACKET_MAX_LENGTH (m_buffer rb) (m_head rb)) = bs ++ [b] /\
    length (slot_at FTE_PACKET_MAX_LENGTH (m_buffer rb) (m_head rb)) = 16%nat.
Proof.
  intros [H1 H2 H3 H4 H5 H6] Hb Hl. pose proof (ft_ring _ _ H1) as Hr. pose proof (ft_bytes _ _ H1) as Hk.
  assert (Hs := head_set_spec FTE_RING FTE_PACKET_MAX_LENGTH ltac:(done) ltac:(done) ltac:(done) _ _ b Hr Hk).
  match type of Hs with _ = Some ?rb => exists rb; split; [done|] end.
  assert (Ha : length (slot_at FTE_PACKET_MAX_LENGTH (m_buffer (_ringBuffer d)) (m_head (_ringBuffer d))) = 16%nat)
    by (apply (slot_length FTE_RING FTE_PACKET_MAX_LENGTH); try done; apply Hr).
  split; [by eapply head_set_aligned|].
  split; [rewrite <- H3; by eapply (head_set_pending FTE_RING FTE_PACKET_MAX_LENGTH); [done..|exact Hr|exact Hk|]|].
  rewrite (head_set_slot FTE_RING FTE_PACKET_MAX_LENGTH ltac:(done) ltac:(done) ltac:(done) _ _ _ _ Hr Hk Hs), H4, Nat2Z.id.
  split; [|by rewrite length_insert].
  rewrite (take_S_r _ _ b) by (apply list_lookup_insert_eq; lia).
  rewrite take_insert_ge by lia. by rewrite H5.
Qed.

(** The announcement is kept as the bytes come in. *)
Lemma announcement d bs b mark :
  _packetByteCount d = Z.of_nat (length bs) ->
  (forall mark, bs !! 4%nat = Some mark -> _packetFingerCount d = announced mark) ->
  (bs ++ [b]) !! 4%nat = Some mark ->
  (if _packetByteCount d + 1 =? 5 then announced b else _packetFingerCount d) = announced mark.
Proof.
  intros -> Hc Hm. destruct (Z.eqb_spec (Z.of_nat (length bs) + 1) 5) as [E|E].
  - rewrite lookup_app_r in Hm by lia. replace (4 - length bs)%nat with 0%nat in Hm by lia.
    by injection Hm as <-.
  - apply Hc. apply lookup_app_Some in Hm as [?|[? Hm]]; [done|].
    apply lookup_lt_Some in Hm. simpl in Hm. lia.
Qed.

(** The byte that is stored and no more. *)
Lemma interrupt_collects n d0 d q bs b :
  collects n d0 q bs d -> is_byte b -> (bs = [] -> notHeader b = false) -> (length bs < 15)%nat ->
  (length bs = 7%nat -> exists mark, bs !! 4%nat = Some mark /\ 2 < announced mark) ->
  exists d', interruptOccurred b d = Ok (d', kPS2IR_packetBuffering) /\ collects n d0 q (bs ++ [b]) d'.
Proof.
  intros Hc Hb Hh Hl Hm. destruct (stored n d0 d q bs b Hc Hb ltac:(lia)) as (rb & Erb & Ha & Hp & Hs & _).
  destruct Hc as [H1 H2 H3 H4 H5 H6]. rewrite (fte_interrupt_eq n) by done. cbn zeta. rewrite <- Erb.
  assert (E0 : (_packetByteCount d =? 0) && notHeader b = false).
  { destruct bs as [|b0 bs]; [by rewrite Hh, andb_false_r|]. rewrite H4. done. }
  rewrite E0. unfold FTE_PACKET_SHORT_LENGTH, FTE_PACKET_LONG_LENGTH.
  rewrite (proj2 (Z.eqb_neq _ 16)) by lia.
  assert (E8 : (_packetByteCount d + 1 =? 8) &&
    ((if _packetByteCount d + 1 =? 5 then announced b else _packetFingerCount d) <=? 2) = false).
  { destruct (Z.eqb_spec (_packetByteCount d + 1) 8) as [E|]; [|done]. destruct Hm as (mark & Hm & Ht); [lia|].
    rewrite (announcement d bs b mark) by (done || by apply lookup_app_l_Some). cbn [andb].
    apply Z.leb_gt. lia. }
  rewrite E8. eexists. split; [done|]. split.
  - apply fte_ring_ok; [done..|]. unfold FTE_PACKET_MAX_LENGTH. lia.
  - done.
  - exact Hp.
  - cbn [_packetByteCount]. rewrite length_app. simpl. lia.
  - cbn [_ringBuffer]. rewrite length_app, Nat.add_comm. exact Hs.
  - intros mark Hmk. by apply (announcement d bs b mark).
Qed.

(** The byte that completes a packet. *)
Lemma commit_waiting rb q packet :
  aligned FTE_RING FTE_PACKET_MAX_LENGTH rb -> pending FTE_RING FTE_PACKET_MAX_LENGTH rb = q ->
  slot_at FTE_PACKET_MAX_LENGTH (m_buffer rb) (m_head rb) = packet ->
  aligned FTE_RING FTE_PACKET_MAX_LENGTH (advanceHead FTE_RING FTE_PACKET_MAX_LENGTH rb) /\
  pending FTE_RING FTE_PACKET_MAX_LENGTH (advanceHead FTE_RING FTE_PACKET_MAX_LENGTH rb) = fteEnqueue q packet.
Proof.
  intros Ha Hp Hs. split; [by apply advanceHead_aligned|]. rewrite advanceHead_pending by done.
  rewrite (count_packets FTE_RING FTE_PACKET_MAX_LENGTH) by done. rewrite Hp, Hs. unfold fteEnqueue.
  change (FTE_RING / FTE_PACKET_MAX_LENGTH) with 32. change FTE_RING with 512. change FTE_PACKET_MAX_LENGTH with 16.
  set (m := Z.of_nat (length q)).
  destruct (Z.ltb_spec (16 * m + 16) 512), (Z.ltb_spec (m + 1) 32); done || lia.
Qed.

Lemma committed n d0 d q i c rb packet :
  fte_ok n d -> fte_frame d = fte_frame d0 ->
  aligned FTE_RING FTE_PACKET_MAX_LENGTH rb -> pending FTE_RING FTE_PACKET_MAX_LENGTH rb = q ->
  slot_at FTE_PACKET_MAX_LENGTH (m_buffer rb) (m_head rb) = packet ->
  collects n d0 (fteEnqueue q packet) []
    {| d with _irqByteCount := i; _packetFingerCount := c;
       _ringBuffer := advanceHead FTE_RING FTE_PACKET_MAX_LENGTH rb; _packetByteCount := 0 |}.
Proof.
  intros Hd Hf Ha Hp Hs. destruct (commit_waiting rb q packet Ha Hp Hs) as [H1 H2].
  split; try done. by apply fte_ring_ok.
Qed.

Lemma interrupt_short n d0 d q bs b mark :
  collects n d0 q bs d -> is_byte b -> length bs = 7%nat -> bs !! 4%nat = Some mark -> announced mark <= 2 ->
  exists d', interruptOccurred b d = Ok (d', kPS2IR_packetReady) /\
    collects n d0 (fteEnqueue q (bs ++ [b] ++ replicate 8 0xFF)) [] d'.
Proof.
  intros Hc Hb Hl Hm Ht. destruct (stored n d0 d q bs b Hc Hb ltac:(lia)) as (rb & Erb & Ha & Hp & Hs & Hn).
  destruct Hc as [H1 H2 H3 H4 H5 H6]. rewrite (fte_interrupt_eq n) by done. cbn zeta. rewrite <- Erb.
  rewrite (announcement d bs b mark) by (done || by apply lookup_app_l_Some).
  rewrite (proj2 (Z.eqb_neq (_packetByteCount d) 0)) by lia. unfold FTE_PACKET_SHORT_LENGTH. cbn [andb].
  rewrite (proj2 (Z.eqb_eq _ 8)), (proj2 (Z.leb_le _ 2)) by lia. cbn [andb].
  destruct (padPacket_ok padding rb Ha padding_ok) as (rb2 & -> & H7 & H8 & H9).
  eexists. split; [done|]. apply committed; [done|done|done|congruence|]. rewrite H9.
  clear - Hs Hn Hl. revert Hs Hn. generalize (slot_at FTE_PACKET_MAX_LENGTH (m_buffer rb) (m_head rb)).
  intros s Hs Hn. rewrite Hl in Hs. do 16 (destruct s as [|? s]; [done|]). destruct s; [|done].
  rewrite app_assoc, <- Hs. reflexivity.
Qed.

Lemma interrupt_long n d0 d q bs b :
  collects n d0 q bs d -> is_byte b -> length bs = 15%nat ->
  exists d', interruptOccurred b d = Ok (d', kPS2IR_packetReady) /\
    collects n d0 (fteEnqueue q (bs ++ [b])) [] d'.
Proof.
  intros Hc Hb Hl. destruct (stored n d0 d q bs b Hc Hb ltac:(lia)) as (rb & Erb & Ha & Hp & Hs & Hn).
  destruct Hc as [H1 H2 H3 H4 H5 H6]. rewrite (fte_interrupt_eq n) by done. cbn zeta. rewrite <- Erb.
  rewrite (proj2 (Z.eqb_neq (_packetByteCount d) 0)) by lia. cbn [andb].
  unfold FTE_PACKET_SHORT_LENGTH, FTE_PACKET_LONG_LENGTH.
  rewrite (proj2 (Z.eqb_neq _ 8)) by lia. rewrite (proj2 (Z.eqb_eq _ 16)) by lia. cbn [andb].
  eexists. split; [done|]. apply committed; [done..|].
  rewrite Hl, take_ge in Hs by lia. exact Hs.
Qed.

(** ** Whole reports *)

(** A run of bytes that completes nothing. *)
Lemma collects_run n d0 q l bs d :
  collects n d0 q bs d -> Forall is_byte l -> bs <> [] -> (length bs + length l <= 15)%nat ->
  ((length bs <= 7 < length bs + length l)%nat ->
    exists mark, (bs ++ l) !! 4%nat = Some mark /\ 2 < announced mark) ->
  exists d', fteInterrupts l d = Ok (d', tt) /\ collects n d0 q (bs ++ l) d'.
Proof.
  intros Hc Hl. revert bs d Hc. induction Hl as [|b l Hb _ IH]; intros bs d Hc Hne Hlen Hm; simpl in *.
  { exists d. by rewrite app_nil_r. }
  destruct (interrupt_collects n d0 d q bs b Hc Hb) as (d1 & E & H1); [done|lia| |].
  { intros E7. destruct Hm as (mark & Hm & Ht); [lia|]. exists mark. split; [|done].
    by rewrite lookup_app_l in Hm by lia. }
  destruct (IH (bs ++ [b]) d1 H1) as (d' & E' & H').
  - by destruct bs.
  - rewrite length_app. simpl. lia.
  - rewrite length_app, <- app_assoc. simpl. intros. apply Hm. lia.
  - exists d'. rewrite (fteInterrupts_cons _ _ _ _ _ E). rewrite <- app_assoc in H'. done.
Qed.

Lemma firstHalf_mark r : firstHalf r !! 4%nat = Some (rp_mark r).
Proof. unfold firstHalf. by destruct (rp_finger r 0) as [[x y]|]. Qed.

Lemma sent_framed n d0 q r d :
  report_ok r -> collects n d0 q [] d ->
  exists d', fteInterrupts (sent r) d = Ok (d', tt) /\ collects n d0 (fteEnqueue q (framed r)) [] d'.
Proof.
  intros Hr Hc. pose proof (firstHalf_bytes r Hr) as Hf. pose proof (secondHalf_bytes r Hr) as Hs.
  pose proof (length_firstHalf r) as Lf. pose proof (length_secondHalf r) as Ls.
  pose proof (firstHalf_mark r) as Hm. pose proof (ro_header r Hr) as Hh.
  assert (Eh : exists l, firstHalf r = rp_header r :: l) by (by eexists).
  unfold sent, framed. revert Hf Hs Lf Ls Hm Eh. generalize (firstHalf r) (secondHalf r).
  intros f s Hf Hs Lf Ls Hm [l ->]. apply Forall_cons in Hf as [Hb Hl].
  destruct (interrupt_collects n d0 d q [] (rp_header r) Hc Hb) as (d1 & E1 & H1); [done|simpl; lia|done|].
  simpl in Lf. destruct (rp_short r) eqn:Es; unfold rp_short in Es.
  - apply Z.leb_le in Es. destruct (exists_last (l := l)) as (l' & b & ->); [by destruct l|].
    rewrite app_nil_r. rewrite length_app in Lf. simpl in Lf. apply Forall_app in Hl as [Hl Hbl].
    destruct (collects_run n d0 q l' [rp_header r] d1 H1 Hl) as (d2 & E2 & H2); [done|simpl; lia|simpl; lia|].
    destruct (interrupt_short n d0 d2 q ([rp_header r] ++ l') b (rp_mark r) H2) as (d3 & E3 & H3).
    + by apply Forall_inv in Hbl.
    + simpl. lia.
    + rewrite app_comm_cons, lookup_app_l in Hm by (simpl; lia). exact Hm.
    + done.
    + exists d3. rewrite (fteInterrupts_cons _ _ _ _ _ E1), (fteInterrupts_app _ _ _ _ E2).
      rewrite (fteInterrupts_cons _ _ _ _ _ E3). split; [done|].
      revert H3. simpl. rewrite <- ?app_assoc. done.
  - apply Z.leb_gt in Es. destruct (exists_last (l := s)) as (s' & b & ->); [by destruct s|].
    rewrite length_app in Ls. simpl in Ls. apply Forall_app in Hs as [Hs Hbs].
    destruct (collects_run n d0 q (l ++ s') [rp_header r] d1 H1) as (d2 & E2 & H2).
    + by apply Forall_app_2.
    + done.
    + rewrite length_app. simpl. lia.
    + intros _. exists (rp_mark r). split; [|done]. rewrite app_assoc, lookup_app_l by (simpl; lia). exact Hm.
    + destruct (interrupt_long n d0 d2 q ([rp_header r] ++ l ++ s') b H2) as (d3 & E3 & H3).
      * by apply Forall_inv in Hbs.
      * simpl. rewrite length_app. lia.
      * exists d3. rewrite <- app_comm_cons, (fteInterrupts_cons _ _ _ _ _ E1), app_assoc, (fteInterrupts_app _ _ _ _ E2).
        rewrite (fteInterrupts_cons _ _ _ _ _ E3). split; [done|].
      revert H3. simpl. rewrite <- ?app_assoc. done.
Qed.

(** Bytes between reports that look like no header are skipped. *)
Lemma noise_skipped n d0 q l d :
  Forall (fun b => is_byte b /\ notHeader b = true) l -> collects n d0 q [] d ->
  exists d', fteInterrupts l d = Ok (d', tt) /\ collects n d0 q [] d'.
Proof.
  intros Hl. revert d. induction Hl as [|b l [Hb Hh] _ IH]; intros d Hc; [by exists d|].
  destruct (interrupt_skips n d0 d q b Hc Hb Hh) as (d1 & E & H1). destruct (IH d1 H1) as (d' & E' & H').
  exists d'. by rewrite (fteInterrupts_cons _ _ _ _ _ E).
Qed.

(** ** Decoding *)

Definition decodedFinger (o : option (Z * Z)) (old : FTE0001FingerState) : FTE0001FingerState :=
  match o with
  | Some (x, y) => mkFteFinger true x y
  | None => {| old with fte_active := false |}
  end.

Lemma high_nibble a b : 0 <= a < 16 -> 0 <= b < 16 -> Z.shiftr (Z.land (16 * a + b) 0xF0) 4 = a.
Proof.
  intros. rewrite Z.shiftr_land, Z.shiftr_div_pow2 by done. change (Z.shiftr 0xF0 4) with (Z.ones 4).
  rewrite land_low by done. change (2 ^ 4) with 16. Z.to_euclidean_division_equations; lia.
Qed.

Lemma low_nibble a b : 0 <= b < 16 -> Z.land (16 * a + b) 0x0F = b.
Proof.
  intros. change 0x0F with (Z.ones 4). rewrite land_low by done. change (2 ^ 4) with 16.
  Z.to_euclidean_division_equations; lia.
Qed.

(** Three bytes of a packet are the position that was sent. *)
Lemma decodeFinger_sent packet i o old b1 b2 b3 :
  position_sent o -> encodePosition o = [b1; b2; b3] ->
  arr_get packet (i * 4 + 1) = Some b1 -> arr_get packet (i * 4 + 2) = Some b2 ->
  arr_get packet (i * 4 + 3) = Some b3 -> decodeFinger packet i old = Some (decodedFinger o old).
Proof.
  intros Ho E E1 E2 E3. unfold decodeFinger. rewrite E1, E2, E3. cbn [mbind option_bind].
  destruct o as [[x y]|]; cbn [encodePosition] in E; injection E as <- <- <-; [|done].
  destruct Ho as (Hx & Hy & Hne). rewrite nibbles_byte, (Z.shiftr_div_pow2 x), (Z.shiftr_div_pow2 y) by done. change (2 ^ 4) with 16.
  pose proof (Z.mod_pos_bound x 16 ltac:(lia)). pose proof (Z.mod_pos_bound y 16 ltac:(lia)).
  rewrite high_nibble, low_nibble, !lor_shiftl_add by done. change (2 ^ 4) with 16.
  replace (x / 16 * 16 + x mod 16) with x by (Z.to_euclidean_division_equations; lia).
  replace (y / 16 * 16 + y mod 16) with y by (Z.to_euclidean_division_equations; lia).
  assert (Ep : (x / 16 =? 0xFF) && (y / 16 =? 0xFF) && (16 * (x mod 16) + y mod 16 =? 0xFF) = false).
  { apply not_true_iff_false. intros [[Ex Ey]%andb_true_iff Eb]%andb_true_iff.
    apply Z.eqb_eq in Ex, Ey, Eb. Z.to_euclidean_division_equations. lia. }
  rewrite Ep. cbn [negb]. by rewrite !s32_small by lia.
Qed.

Lemma encodePosition_three o : exists b1 b2 b3, encodePosition o = [b1; b2; b3].
Proof. destruct o as [[x y]|]; by do 3 eexists. Qed.

(** The packet in the ring holds every position in its place. *)
Lemma framed_positions r :
  report_ok r -> exists a1 a2 a3 b1 b2 b3 x1 c1 c2 c3 x2 e1 e2 e3,
  framed r = [rp_header r; a1; a2; a3; rp_mark r; b1; b2; b3; x1; c1; c2; c3; x2; e1; e2; e3] /\
  encodePosition (rp_finger r 0) = [a1; a2; a3] /\ encodePosition (rp_finger r 1) = [b1; b2; b3] /\
  encodePosition (rp_finger r 2) = [c1; c2; c3] /\ encodePosition (rp_finger r 3) = [e1; e2; e3].
Proof.
  intros Hr. unfold framed, firstHalf, secondHalf.
  destruct (encodePosition_three (rp_finger r 0)) as (a1 & a2 & a3 & ->).
  destruct (encodePosition_three (rp_finger r 1)) as (b1 & b2 & b3 & ->).
  exists a1, a2, a3, b1, b2, b3. destruct (rp_short r) eqn:Es.
  - destruct (ro_short r Hr Es) as [-> ->]. by do 8 eexists.
  - destruct (encodePosition_three (rp_finger r 2)) as (c1 & c2 & c3 & ->).
    destruct (encodePosition_three (rp_finger r 3)) as (e1 & e2 & e3 & ->). by do 8 eexists.
Qed.

Lemma arr_get_head {T} (a : T) l : arr_get (a :: l) 0 = Some a. Proof. done. Qed.

(** Arrays of four. *)
Lemma four_get0 {T} (a b c d : T) : arr_get [a; b; c; d] 0 = Some a. Proof. done. Qed.
Lemma four_get1 {T} (a b c d : T) : arr_get [a; b; c; d] 1 = Some b. Proof. done. Qed.
Lemma four_get2 {T} (a b c d : T) : arr_get [a; b; c; d] 2 = Some c. Proof. done. Qed.
Lemma four_get3 {T} (a b c d : T) : arr_get [a; b; c; d] 3 = Some d. Proof. done. Qed.
Lemma four_set0 {T} (a b c d x : T) : arr_set [a; b; c; d] 0 x = Some [x; b; c; d]. Proof. done. Qed.
Lemma four_set1 {T} (a b c d x : T) : arr_set [a; b; c; d] 1 x = Some [a; x; c; d]. Proof. done. Qed.
Lemma four_set2 {T} (a b c d x : T) : arr_set [a; b; c; d] 2 x = Some [a; b; x; d]. Proof. done. Qed.
Lemma four_set3 {T} (a b c d x : T) : arr_set [a; b; c; d] 3 x = Some [a; b; c; x]. Proof. done. Qed.

Lemma decode_framed r hw :
  report_ok r -> length hw = 4%nat -> Z.land (rp_header r) 0x30 <> 0x10 ->
  decodePacket (framed r) hw =
  Some (FteCoordinates (packetButtons (rp_header r)) (zip_with decodedFinger (rp_fingers r) hw)).
Proof.
  intros Hr Hl Hm. assert (Hp := fun i => rp_finger_sent r i Hr).
  destruct (framed_positions r Hr) as (a1 & a2 & a3 & b1 & b2 & b3 & x1 & c1 & c2 & c3 & x2 & e1 & e2 & e3 & Ef & Ea & Eb & Ec & Ee).
  unfold decodePacket. rewrite Ef. rewrite arr_get_head. cbn [mbind option_bind].
  rewrite (ro_header r Hr), (proj2 (Z.eqb_neq _ _) Hm).
  change (seqZ 0 FTE_MAX_FINGERS) with [0; 1; 2; 3]. cbn [decodeFingers].
  set (packet := [_; _; _; _; _; _; _; _; _; _; _; _; _; _; _; _]).
  pose proof (fun old => decodeFinger_sent packet 0 _ old a1 a2 a3 (Hp 0%nat) Ea eq_refl eq_refl eq_refl) as D0.
  pose proof (fun old => decodeFinger_sent packet 1 _ old b1 b2 b3 (Hp 1%nat) Eb eq_refl eq_refl eq_refl) as D1.
  pose proof (fun old => decodeFinger_sent packet 2 _ old c1 c2 c3 (Hp 2%nat) Ec eq_refl eq_refl eq_refl) as D2.
  pose proof (fun old => decodeFinger_sent packet 3 _ old e1 e2 e3 (Hp 3%nat) Ee eq_refl eq_refl eq_refl) as D3.
  clearbody packet. pose proof (ro_fingers r Hr) as Hf. unfold rp_finger in D0, D1, D2, D3.
  revert D0 D1 D2 D3. generalize (rp_fingers r) Hf. intros fs Hfs.
  do 4 (destruct fs as [|? fs]; [done|]). destruct fs; [|done].
  do 4 (destruct hw as [|? hw]; [done|]). destruct hw; [|done]. simpl. intros D0 D1 D2 D3.
  do 4 (rewrite ?four_get0, ?four_get1, ?four_get2, ?four_get3; cbn [mbind option_bind];
        rewrite ?D0, ?D1, ?D2, ?D3; cbn [mbind option_bind];
        rewrite ?four_set0, ?four_set1, ?four_set2, ?four_set3; cbn [mbind option_bind]).
  reflexivity.
Qed.

(** ** What VoodooInput is told *)

(** The identifier and position of each finger of a report, cut to the pad and with
    the vertical axis turned round. *)
Fixpoint reportedContacts (i : Z) (l : list (option (Z * Z))) : list (Z * Z * Z) :=
  match l with
  | [] => []
  | Some (x, y) :: l' =>
    (i, Z.min x FTE_LOGICAL_MAX_X, FTE_LOGICAL_MAX_Y - Z.min y FTE_LOGICAL_MAX_Y) :: reportedContacts (i + 1) l'
  | None :: l' => reportedContacts (i + 1) l'
  end.

Definition contactView (t : VoodooInputTransducer) : Z * Z * Z :=
  (tr_secondaryId t, tc_x (tr_current t), tc_y (tr_current t)).

Lemma fteClamp_min max v : 0 <= max < 2147483648 -> 0 <= v -> fteClamp max v = Z.min v max.
Proof.
  intros. unfold fteClamp. rewrite (s32_small max), (proj2 (Z.ltb_ge v 0)) by lia.
  destruct (Z.ltb_spec max v); lia.
Qed.

Lemma contacts_of_report t k i fs hw old :
  length hw = length fs -> length old = length fs -> Forall position_sent fs ->
  map contactView (contactSlots t k (touchingFrom i (zip_with
    (fteUpdateFinger FTE_LOGICAL_MAX_X FTE_LOGICAL_MAX_Y) (zip_with decodedFinger fs hw) old))) =
  reportedContacts i fs.
Proof.
  intros Hh Ho Hf. revert k i hw old Hh Ho. induction Hf as [|o fs Hp _ IH]; intros k i hw old Hh Ho; [done|].
  destruct hw as [|h hw]; [done|]. destruct old as [|f old]; [done|]. injection Hh as Hh. injection Ho as Ho.
  destruct o as [[x y]|]; simpl; [|by apply IH].
  rewrite IH by done. f_equal. unfold contactView. simpl. destruct Hp as (Hx & Hy & _).
  unfold FTE_LOGICAL_MAX_X, FTE_LOGICAL_MAX_Y. rewrite !fteClamp_min by lia. rewrite !u32_small by (rewrite ?u32_small; lia).
  done.
Qed.

Section Report.
Context {B : Type} `{HB : PS2Bus B} (n : Z) (Hn : FTE_MAX_FINGERS <= n).
#[local] Abbreviation W := (DrvWorld B ApplePS2FTE0001 FteEvent).

(** The button report that follows, if any. *)
Definition buttonReport (c t last buttons : Z) : list FteEvent :=
  if buttons =? last then [] else [FteButtons c t buttons].

Definition touchEvent (d : ApplePS2FTE0001) (t : Z) : VoodooInputEvent :=
  mkInputEvent (fteSlots d t) (u8 (Z.of_nat (length (fteContacts d)))) t.

Lemma sendTouchData_eq (w : W) c :
  fte_ok n (self w) -> _voodooInput (self w) = Some c ->
  sendTouchData w = Ok ({| w with
    self := {| (self w) with _inputEvent := touchEvent (self w) (now w); _lastButtons := _buttons (self w) |};
    told := told w ++ FteTouch c (touchEvent (self w) (now w)) ::
      buttonReport c (now w) (_lastButtons (self w)) (_buttons (self w)) |}, tt).
Proof.
  intros Hd Hc. destruct (fteTransducers_spec n (self w) (now w) Hn Hd) as [E _].
  unfold sendTouchData, buttonReport. rewrite (bind_ok _ _ w w (now w)) by done.
  rewrite (bind_ok _ _ w w (fteTransducers (self w) (now w))) by done. rewrite E.
  rewrite (bind_ok _ _ w w (fteSlots (self w) (now w), Z.of_nat (length (fteContacts (self w))))) by done.
  fold (touchEvent (self w) (now w)). generalize (touchEvent (self w) (now w)). intros e. clear E Hd.
  destruct w as [d b t l]. destruct d. cbn in Hc. subst.
  unfold mbind, M_bind, bind, sendButtons, dset, dget, tell, gets, modify, when. cbn.
  destruct (Z.eqb_spec _buttons _lastButtons) as [->|]; cbn; [done|].
  unfold mbind, M_bind, bind. cbn. by rewrite <- app_assoc.
Qed.

(** Handling a report. *)
Lemma processPacket_report (w : W) r c :
  report_ok r -> Z.land (rp_header r) 0x30 <> 0x10 -> fte_ok n (self w) -> _voodooInput (self w) = Some c ->
  exists w' e, processPacket (framed r) w = Ok (w', true) /\
    told w' = told w ++ FteTouch c e ::
      buttonReport c (now w) (_lastButtons (self w)) (packetButtons (rp_header r)) /\
    map contactView (contactsOf e) = reportedContacts 0 (rp_fingers r) /\
    _voodooInput (self w') = Some c /\ _lastButtons (self w') = packetButtons (rp_header r) /\
    _packetByteCount (self w') = _packetByteCount (self w).
Proof.
  intros Hr Hm Hd Hc. pose proof (ft_hardware _ _ Hd) as Hh. unfold FTE_MAX_FINGERS in Hh.
  unfold processPacket. rewrite (bind_ok _ _ w w (decodePacket (framed r) (_hardware (self w)))) by done.
  rewrite decode_framed by (done || lia). set (hw := zip_with decodedFinger (rp_fingers r) (_hardware (self w))).
  set (b := packetButtons (rp_header r)). rewrite (bind_ok _ _ w w (FteCoordinates b hw)) by done. cbn iota.
  set (d1 := {| (self w) with _buttons := b; _hardware := hw |}).
  rewrite (bind_ok _ _ w {| w with self := d1 |} tt) by done.
  unfold reportState. rewrite bind_assoc.
  rewrite (bind_ok _ _ _ {| w with self := fteUpdateFingers d1 |} tt) by done.
  assert (H1 : fte_ok n (fteUpdateFingers d1)).
  { apply fteUpdateFingers_ok. assert (Hb : 0 <= b < 4) by apply packetButtons_range.
    assert (Hl : Z.of_nat (length hw) = FTE_MAX_FINGERS).
    { unfold hw. rewrite length_zip_with, (ro_fingers r Hr). unfold FTE_MAX_FINGERS. lia. }
    unfold d1. clearbody b hw. clear -Hd Hb Hl. destruct Hd. by split. }
  rewrite (bind_ok _ _ _ _ _ (sendTouchData_eq {| w with self := fteUpdateFingers d1 |} c H1 Hc)).
  eexists _, (touchEvent (fteUpdateFingers d1) (now w)). split; [done|].
  split; [done|]. split; [|done].
  unfold contactsOf, touchEvent. cbn [ev_transducers]. rewrite contacts_fteSlots.
  destruct (ft_size _ _ Hd) as [Ex Ey]. unfold fteContacts, fteUpdateFingers, d1. cbn [_finger _xMax _yMax _hardware].
  rewrite Ex, Ey. pose proof (ft_finger _ _ Hd) as Hf. unfold FTE_MAX_FINGERS in Hf.
  apply contacts_of_report; [rewrite (ro_fingers r Hr); lia..|apply (ro_positions r Hr)].
Qed.

Definition is_diagnostics (e : FteEvent) : Prop :=
  match e with FteDiagnostics _ _ _ _ _ _ _ _ => True | _ => False end.

Lemma diagnostics_tell (b : bool) o v (w w' : W) :
  when b (publishRuntimeDiagnostics o v) w = Ok (w', tt) ->
  self w' = self w /\ exists l, told w' = told w ++ l /\ Forall is_diagnostics l.
Proof.
  destruct b; cbn [when]; [|intros [= <-]; split; [done|]; exists []; by rewrite app_nil_r].
  unfold publishRuntimeDiagnostics. intros (w1 & d & [= <- <-] & E)%bind_inv.
  apply bind_inv in E as (w2 & p & Ep & E). assert (w2 = w) as ->.
  { destruct o as [l|]; [|by injection Ep].
    apply bind_inv in Ep as (w3 & x & Ex & Ep). injection Ep as <- _. unfold deref in Ex.
    destruct (arr_get _ _); [by injection Ex|done]. }
  injection E as <-. split; [done|]. eexists. split; [done|]. by constructor.
Qed.

(** Handling a report in the work loop. *)
Lemma handleNext_report (w w' : W) r c :
  report_ok r -> Z.land (rp_header r) 0x30 <> 0x10 -> fte_ok n (self w) -> _voodooInput (self w) = Some c ->
  handleNext (framed r) w = Ok (w', tt) ->
  exists e l, told w' = told w ++ FteTouch c e ::
      buttonReport c (now w) (_lastButtons (self w)) (packetButtons (rp_header r)) ++ l /\
    map contactView (contactsOf e) = reportedContacts 0 (rp_fingers r) /\ Forall is_diagnostics l /\
    _voodooInput (self w') = Some c /\ _lastButtons (self w') = packetButtons (rp_header r) /\
    _packetByteCount (self w') = _packetByteCount (self w).
Proof.
  intros Hr Hm Hd Hc Ef. apply bind_inv in Ef as (w4 & [] & Ef & [= <-]).
  apply bind_inv in Ef as (w2' & [] & E2 & Ef).
  set (w2 := {| w with self := {| (self w) with _packetCount := u64 (_packetCount (self w) + 1) |} |} : W).
  assert (w2' = w2) as -> by (unfold w2; by injection E2 as <-). clear E2.
  assert (H2 : fte_ok n (self w2)) by (unfold w2; clear -Hd; by destruct Hd).
  destruct (processPacket_report w2 r c Hr Hm H2 Hc) as (w3 & e & Ep & Ht & He & Hv & Hl & Hk).
  apply bind_inv in Ef as (w3' & v & Ep' & Ef). rewrite Ep in Ep'. injection Ep' as <- <-. clear Ep.
  apply bind_inv in Ef as (w3' & [] & E3 & Ef).
  assert (w3' = {| w3 with self := countPacket true (self w3) |}) as -> by (by injection E3 as <-).
  clear E3. apply bind_inv in Ef as (w3' & k & E3 & Ef).
  assert (w3' = {| w3 with self := countPacket true (self w3) |}) as -> by (by injection E3).
  apply diagnostics_tell in Ef as [Es (l & El & Hdl)]. cbn [self told] in *.
  exists e, l. rewrite Es, El, Ht. unfold dropPacket, countPacket. cbn. rewrite <- app_assoc. by split_and!.
Qed.


End Report.

(** Two fingers and the left button, after a stray byte. *)
Definition bench_report : FteReport :=
  mkFteReport 0x09 0x02 0 0 [Some (0x101, 0x202); Some (0x303, 0x184); None; None].

Lemma bench_report_ok : report_ok bench_report.
Proof. split; try done. by repeat (apply Forall_cons_2; [first [done|by split_and!; [..|left]]|]). Qed.

