(* ===== verification/KeyTables.v ===== *)
(** * The keyboard's tables

    VoodooPS2Keyboard/ApplePS2ToADBMap.h (with [PROBOOK] defined, as the header
    does): the Apple key code of each scan code, and its flags.  Both arrays have a
    half for the plain scan codes and one for those after an E0 byte; each is
    written here in quarters of 128 codes, eight to a row. *)
From S2P Require Import Prelude.

Definition DEADKEY : Z := 0x80.
(** F14 and F15, which macOS takes for brightness. *)
Definition BRIGHTNESS_DOWN : Z := 0x6b.
Definition BRIGHTNESS_UP : Z := 0x71.
Definition ADB_CONVERTER_LEN : Z := 256 * 2.
Definition ADB_CONVERTER_EX_START : Z := 256.

(** The Apple key code of every scan code. *)
Definition PS2ToADBMapStock_00 : list Z := concat [
  (* 00 *) [DEADKEY; 0x35; 0x12; 0x13; 0x14; 0x15; 0x17; 0x16];
  (* 08 *) [0x1a; 0x1c; 0x19; 0x1d; 0x1b; 0x18; 0x33; 0x30];
  (* 10 *) [0x0c; 0x0d; 0x0e; 0x0f; 0x11; 0x10; 0x20; 0x22];
  (* 18 *) [0x1f; 0x23; 0x21; 0x1e; 0x24; 0x3b; 0x00; 0x01];
  (* 20 *) [0x02; 0x03; 0x05; 0x04; 0x26; 0x28; 0x25; 0x29];
  (* 28 *) [0x27; 0x32; 0x38; 0x2a; 0x06; 0x07; 0x08; 0x09];
  (* 30 *) [0x0b; 0x2d; 0x2e; 0x2b; 0x2f; 0x2c; 0x3c; 0x43];
  (* 38 *) [0x3a; 0x31; 0x39; 0x7a; 0x78; 0x63; 0x76; 0x60];
  (* 40 *) [0x61; 0x62; 0x64; 0x65; 0x6d; 0x47; 0x6b; 0x59];
  (* 48 *) [0x5b; 0x5c; 0x4e; 0x56; 0x57; 0x58; 0x45; 0x53];
  (* 50 *) [0x54; 0x55; 0x52; 0x41; 0x44; 0x46; 0x0a; 0x67];
  (* 58 *) [0x6f; 0x51; DEADKEY; DEADKEY; 0x5f; DEADKEY; DEADKEY; DEADKEY];
  (* 60 *) [DEADKEY; DEADKEY; DEADKEY; DEADKEY; 0x69; 0x6b; 0x71; 0x6a];
  (* 68 *) [0x40; 0x4f; 0x50; 0x5a; DEADKEY; DEADKEY; DEADKEY; DEADKEY];
  (* 70 *) [0x68; DEADKEY; DEADKEY; 0x5e; DEADKEY; DEADKEY; DEADKEY; 0x68];
  (* 78 *) [0x68; 0x68; DEADKEY; 0x66; DEADKEY; 0x5d; 0x5f; DEADKEY]
].

Definition PS2ToADBMapStock_80 : list Z := concat [
  (* 80 *) [DEADKEY; DEADKEY; DEADKEY; DEADKEY; DEADKEY; DEADKEY; DEADKEY; DEADKEY];
  (* 88 *) [DEADKEY; DEADKEY; DEADKEY; DEADKEY; DEADKEY; DEADKEY; DEADKEY; DEADKEY];
  (* 90 *) [DEADKEY; DEADKEY; DEADKEY; DEADKEY; DEADKEY; DEADKEY; DEADKEY; DEADKEY];
  (* 98 *) [DEADKEY; DEADKEY; DEADKEY; DEADKEY; DEADKEY; DEADKEY; DEADKEY; DEADKEY];
  (* a0 *) [DEADKEY; DEADKEY; DEADKEY; DEADKEY; DEADKEY; DEADKEY; DEADKEY; DEADKEY];
  (* a8 *) [DEADKEY; DEADKEY; DEADKEY; DEADKEY; DEADKEY; DEADKEY; DEADKEY; DEADKEY];
  (* b0 *) [DEADKEY; DEADKEY; DEADKEY; DEADKEY; DEADKEY; DEADKEY; DEADKEY; DEADKEY];
  (* b8 *) [DEADKEY; DEADKEY; DEADKEY; DEADKEY; DEADKEY; DEADKEY; DEADKEY; DEADKEY];
  (* c0 *) [DEADKEY; DEADKEY; DEADKEY; DEADKEY; DEADKEY; DEADKEY; DEADKEY; DEADKEY];
  (* c8 *) [DEADKEY; DEADKEY; DEADKEY; DEADKEY; DEADKEY; DEADKEY; DEADKEY; DEADKEY];
  (* d0 *) [DEADKEY; DEADKEY; DEADKEY; DEADKEY; DEADKEY; DEADKEY; DEADKEY; DEADKEY];
  (* d8 *) [DEADKEY; DEADKEY; DEADKEY; DEADKEY; DEADKEY; DEADKEY; DEADKEY; DEADKEY];
  (* e0 *) [DEADKEY; DEADKEY; DEADKEY; DEADKEY; DEADKEY; DEADKEY; DEADKEY; DEADKEY];
  (* e8 *) [DEADKEY; DEADKEY; DEADKEY; DEADKEY; DEADKEY; DEADKEY; DEADKEY; DEADKEY];
  (* f0 *) [DEADKEY; 0x66; 0x68; DEADKEY; DEADKEY; DEADKEY; DEADKEY; DEADKEY];
  (* f8 *) [DEADKEY; DEADKEY; DEADKEY; DEADKEY; DEADKEY; DEADKEY; DEADKEY; DEADKEY]
].

Definition PS2ToADBMapStock_e000 : list Z := concat [
  (* e0 00 *) [DEADKEY; DEADKEY; DEADKEY; DEADKEY; DEADKEY; BRIGHTNESS_DOWN; BRIGHTNESS_UP; DEADKEY];
  (* e0 08 *) [DEADKEY; 0x83; 0xa0; DEADKEY; DEADKEY; DEADKEY; DEADKEY; DEADKEY];
  (* e0 10 *) [0x4d; DEADKEY; BRIGHTNESS_DOWN; DEADKEY; DEADKEY; DEADKEY; DEADKEY; BRIGHTNESS_UP];
  (* e0 18 *) [DEADKEY; 0x42; DEADKEY; DEADKEY; 0x4c; 0x3e; DEADKEY; DEADKEY];
  (* e0 20 *) [0x4a; DEADKEY; 0x34; DEADKEY; DEADKEY; DEADKEY; DEADKEY; DEADKEY];
  (* e0 28 *) [DEADKEY; DEADKEY; DEADKEY; DEADKEY; DEADKEY; DEADKEY; 0x49; DEADKEY];
  (* e0 30 *) [0x48; DEADKEY; DEADKEY; DEADKEY; DEADKEY; 0x4b; DEADKEY; 0x69];
  (* e0 38 *) [0x3d; DEADKEY; DEADKEY; DEADKEY; DEADKEY; DEADKEY; DEADKEY; DEADKEY];
  (* e0 40 *) [DEADKEY; DEADKEY; DEADKEY; DEADKEY; DEADKEY; 0x71; DEADKEY; 0x73];
  (* e0 48 *) [0x7e; 0x74; DEADKEY; 0x7b; DEADKEY; 0x7c; BRIGHTNESS_UP; 0x77];
  (* e0 50 *) [0x7d; 0x79; 0x92; 0x75; DEADKEY; DEADKEY; DEADKEY; DEADKEY];
  (* e0 58 *) [DEADKEY; BRIGHTNESS_UP; DEADKEY; 0x37; 0x36; 0x6e; 0x7f; DEADKEY];
  (* e0 60 *) [DEADKEY; DEADKEY; DEADKEY; DEADKEY; DEADKEY; DEADKEY; DEADKEY; DEADKEY];
  (* e0 68 *) [DEADKEY; DEADKEY; DEADKEY; DEADKEY; DEADKEY; DEADKEY; 0x70; DEADKEY];
  (* e0 70 *) [DEADKEY; DEADKEY; DEADKEY; DEADKEY; DEADKEY; DEADKEY; DEADKEY; DEADKEY];
  (* e0 78 *) [DEADKEY; DEADKEY; DEADKEY; DEADKEY; DEADKEY; DEADKEY; DEADKEY; DEADKEY]
].

Definition PS2ToADBMapStock_e080 : list Z := concat [
  (* e0 80 *) [DEADKEY; DEADKEY; DEADKEY; DEADKEY; DEADKEY; DEADKEY; DEADKEY; DEADKEY];
  (* e0 88 *) [DEADKEY; DEADKEY; DEADKEY; DEADKEY; DEADKEY; DEADKEY; DEADKEY; DEADKEY];
  (* e0 90 *) [DEADKEY; DEADKEY; DEADKEY; DEADKEY; DEADKEY; DEADKEY; DEADKEY; DEADKEY];
  (* e0 98 *) [DEADKEY; DEADKEY; DEADKEY; DEADKEY; DEADKEY; DEADKEY; DEADKEY; DEADKEY];
  (* e0 a0 *) [DEADKEY; DEADKEY; DEADKEY; DEADKEY; DEADKEY; DEADKEY; DEADKEY; DEADKEY];
  (* e0 a8 *) [DEADKEY; DEADKEY; DEADKEY; DEADKEY; DEADKEY; DEADKEY; DEADKEY; DEADKEY];
  (* e0 b0 *) [DEADKEY; DEADKEY; DEADKEY; DEADKEY; DEADKEY; DEADKEY; DEADKEY; DEADKEY];
  (* e0 b8 *) [DEADKEY; DEADKEY; DEADKEY; DEADKEY; DEADKEY; DEADKEY; DEADKEY; DEADKEY];
  (* e0 c0 *) [DEADKEY; DEADKEY; DEADKEY; DEADKEY; DEADKEY; DEADKEY; DEADKEY; DEADKEY];
  (* e0 c8 *) [DEADKEY; DEADKEY; DEADKEY; DEADKEY; DEADKEY; DEADKEY; DEADKEY; DEADKEY];
  (* e0 d0 *) [DEADKEY; DEADKEY; DEADKEY; DEADKEY; DEADKEY; DEADKEY; DEADKEY; DEADKEY];
  (* e0 d8 *) [DEADKEY; DEADKEY; DEADKEY; DEADKEY; DEADKEY; DEADKEY; DEADKEY; DEADKEY];
  (* e0 e0 *) [DEADKEY; DEADKEY; DEADKEY; DEADKEY; DEADKEY; DEADKEY; DEADKEY; DEADKEY];
  (* e0 e8 *) [DEADKEY; DEADKEY; DEADKEY; DEADKEY; DEADKEY; DEADKEY; DEADKEY; DEADKEY];
  (* e0 f0 *) [DEADKEY; DEADKEY; DEADKEY; DEADKEY; DEADKEY; DEADKEY; DEADKEY; DEADKEY];
  (* e0 f8 *) [DEADKEY; DEADKEY; DEADKEY; DEADKEY; DEADKEY; DEADKEY; DEADKEY; DEADKEY]
].

Definition PS2ToADBMapStock : list Z :=
  PS2ToADBMapStock_00 ++ PS2ToADBMapStock_80 ++
  PS2ToADBMapStock_e000 ++ PS2ToADBMapStock_e080.

(** The modifiers the keyboard tracks. *)
Definition kMaskLeftControl : Z := 0x0001.
Definition kMaskRightControl : Z := 0x0002.
Definition kMaskLeftShift : Z := 0x0004.
Definition kMaskRightShift : Z := 0x0008.
Definition kMaskLeftAlt : Z := 0x0010.
Definition kMaskRightAlt : Z := 0x0020.
Definition kMaskLeftWindows : Z := 0x0040.
Definition kMaskRightWindows : Z := 0x0080.
Definition kMaskLeftFn : Z := 0x0100.
Definition kMaskWindowsContext : Z := 0x0200.

(** The flags of every scan code: one more than the number of the modifier's bit, in the
    high byte; the low byte is clear. *)
Definition _PS2flagsStock_00 : list Z := concat [
  (* 00 *) [0x00; 0x00; 0x00; 0x00; 0x00; 0x00; 0x00; 0x00];
  (* 08 *) [0x00; 0x00; 0x00; 0x00; 0x00; 0x00; 0x00; 0x00];
  (* 10 *) [0x00; 0x00; 0x00; 0x00; 0x00; 0x00; 0x00; 0x00];
  (* 18 *) [0x00; 0x00; 0x00; 0x00; 0x00; 0x0100; 0x00; 0x00];
  (* 20 *) [0x00; 0x00; 0x00; 0x00; 0x00; 0x00; 0x00; 0x00];
  (* 28 *) [0x00; 0x00; 0x0300; 0x00; 0x00; 0x00; 0x00; 0x00];
  (* 30 *) [0x00; 0x00; 0x00; 0x00; 0x00; 0x00; 0x0400; 0x00];
  (* 38 *) [0x0500; 0x00; 0x00; 0x00; 0x00; 0x00; 0x00; 0x00];
  (* 40 *) [0x00; 0x00; 0x00; 0x00; 0x00; 0x00; 0x00; 0x00];
  (* 48 *) [0x00; 0x00; 0x00; 0x00; 0x00; 0x00; 0x00; 0x00];
  (* 50 *) [0x00; 0x00; 0x00; 0x00; 0x00; 0x00; 0x00; 0x00];
  (* 58 *) [0x00; 0x00; 0x00; 0x00; 0x00; 0x00; 0x00; 0x00];
  (* 60 *) [0x00; 0x00; 0x00; 0x00; 0x00; 0x00; 0x00; 0x00];
  (* 68 *) [0x00; 0x00; 0x00; 0x00; 0x00; 0x00; 0x00; 0x00];
  (* 70 *) [0x00; 0x00; 0x00; 0x00; 0x00; 0x00; 0x00; 0x00];
  (* 78 *) [0x00; 0x00; 0x00; 0x00; 0x00; 0x00; 0x00; 0x00]
].

Definition _PS2flagsStock_80 : list Z := concat [
  (* 80 *) [0x00; 0x00; 0x00; 0x00; 0x00; 0x00; 0x00; 0x00];
  (* 88 *) [0x00; 0x00; 0x00; 0x00; 0x00; 0x00; 0x00; 0x00];
  (* 90 *) [0x00; 0x00; 0x00; 0x00; 0x00; 0x00; 0x00; 0x00];
  (* 98 *) [0x00; 0x00; 0x00; 0x00; 0x00; 0x00; 0x00; 0x00];
  (* a0 *) [0x00; 0x00; 0x00; 0x00; 0x00; 0x00; 0x00; 0x00];
  (* a8 *) [0x00; 0x00; 0x00; 0x00; 0x00; 0x00; 0x00; 0x00];
  (* b0 *) [0x00; 0x00; 0x00; 0x00; 0x00; 0x00; 0x00; 0x00];
  (* b8 *) [0x00; 0x00; 0x00; 0x00; 0x00; 0x00; 0x00; 0x00];
  (* c0 *) [0x00; 0x00; 0x00; 0x00; 0x00; 0x00; 0x00; 0x00];
  (* c8 *) [0x00; 0x00; 0x00; 0x00; 0x00; 0x00; 0x00; 0x00];
  (* d0 *) [0x00; 0x00; 0x00; 0x00; 0x00; 0x00; 0x00; 0x00];
  (* d8 *) [0x00; 0x00; 0x00; 0x00; 0x00; 0x00; 0x00; 0x00];
  (* e0 *) [0x00; 0x00; 0x00; 0x00; 0x00; 0x00; 0x00; 0x00];
  (* e8 *) [0x00; 0x00; 0x00; 0x00; 0x00; 0x00; 0x00; 0x00];
  (* f0 *) [0x00; 0x00; 0x00; 0x00; 0x00; 0x00; 0x00; 0x00];
  (* f8 *) [0x00; 0x00; 0x00; 0x00; 0x00; 0x00; 0x00; 0x00]
].

Definition _PS2flagsStock_e000 : list Z := concat [
  (* e0 00 *) [0x00; 0x00; 0x00; 0x00; 0x00; 0x00; 0x00; 0x00];
  (* e0 08 *) [0x00; 0x00; 0x00; 0x00; 0x00; 0x00; 0x00; 0x00];
  (* e0 10 *) [0x00; 0x00; 0x00; 0x00; 0x00; 0x00; 0x00; 0x00];
  (* e0 18 *) [0x00; 0x00; 0x00; 0x00; 0x00; 0x0200; 0x00; 0x00];
  (* e0 20 *) [0x00; 0x00; 0x00; 0x00; 0x00; 0x00; 0x00; 0x00];
  (* e0 28 *) [0x00; 0x00; 0x00; 0x00; 0x00; 0x00; 0x00; 0x00];
  (* e0 30 *) [0x00; 0x00; 0x00; 0x00; 0x00; 0x00; 0x00; 0x00];
  (* e0 38 *) [0x0600; 0x00; 0x00; 0x00; 0x00; 0x00; 0x00; 0x00];
  (* e0 40 *) [0x00; 0x00; 0x00; 0x00; 0x00; 0x00; 0x00; 0x00];
  (* e0 48 *) [0x00; 0x00; 0x00; 0x00; 0x00; 0x00; 0x00; 0x00];
  (* e0 50 *) [0x00; 0x00; 0x00; 0x00; 0x00; 0x00; 0x00; 0x00];
  (* e0 58 *) [0x00; 0x00; 0x00; 0x0700; 0x0800; 0x0a00; 0x00; 0x00];
  (* e0 60 *) [0x00; 0x00; 0x00; 0x0900; 0x00; 0x00; 0x00; 0x00];
  (* e0 68 *) [0x00; 0x00; 0x00; 0x00; 0x00; 0x00; 0x00; 0x00];
  (* e0 70 *) [0x00; 0x00; 0x00; 0x00; 0x00; 0x00; 0x00; 0x00];
  (* e0 78 *) [0x00; 0x00; 0x00; 0x00; 0x00; 0x00; 0x00; 0x00]
].

Definition _PS2flagsStock_e080 : list Z := concat [
  (* e0 80 *) [0x00; 0x00; 0x00; 0x00; 0x00; 0x00; 0x00; 0x00];
  (* e0 88 *) [0x00; 0x00; 0x00; 0x00; 0x00; 0x00; 0x00; 0x00];
  (* e0 90 *) [0x00; 0x00; 0x00; 0x00; 0x00; 0x00; 0x00; 0x00];
  (* e0 98 *) [0x00; 0x00; 0x00; 0x00; 0x00; 0x00; 0x00; 0x00];
  (* e0 a0 *) [0x00; 0x00; 0x00; 0x00; 0x00; 0x00; 0x00; 0x00];
  (* e0 a8 *) [0x00; 0x00; 0x00; 0x00; 0x00; 0x00; 0x00; 0x00];
  (* e0 b0 *) [0x00; 0x00; 0x00; 0x00; 0x00; 0x00; 0x00; 0x00];
  (* e0 b8 *) [0x00; 0x00; 0x00; 0x00; 0x00; 0x00; 0x00; 0x00];
  (* e0 c0 *) [0x00; 0x00; 0x00; 0x00; 0x00; 0x00; 0x00; 0x00];
  (* e0 c8 *) [0x00; 0x00; 0x00; 0x00; 0x00; 0x00; 0x00; 0x00];
  (* e0 d0 *) [0x00; 0x00; 0x00; 0x00; 0x00; 0x00; 0x00; 0x00];
  (* e0 d8 *) [0x00; 0x00; 0x00; 0x00; 0x00; 0x00; 0x00; 0x00];
  (* e0 e0 *) [0x00; 0x00; 0x00; 0x00; 0x00; 0x00; 0x00; 0x00];
  (* e0 e8 *) [0x00; 0x00; 0x00; 0x00; 0x00; 0x00; 0x00; 0x00];
  (* e0 f0 *) [0x00; 0x00; 0x00; 0x00; 0x00; 0x00; 0x00; 0x00];
  (* e0 f8 *) [0x00; 0x00; 0x00; 0x00; 0x00; 0x00; 0x00; 0x00]
].

Definition _PS2flagsStock : list Z :=
  _PS2flagsStock_00 ++ _PS2flagsStock_80 ++
  _PS2flagsStock_e000 ++ _PS2flagsStock_e080.
