(* ===== verification/KeyMap.v ===== *)
(** * The keyboard's key map

    [ApplePS2Keyboard::defaultKeymapOfLength] of VoodooPS2Keyboard/VoodooPS2Keyboard.cpp:
    the bytes the driver hands to IOHIKeyboard, one row to a line of the code, and
    a reading of them in the format the code's comments give.  The [NX_] constants
    come from IOKit's headers, so they are parameters. *)
From S2P Require Import Prelude KeyTables.

Record NXCodes := mkNXCodes {
  NX_MODIFIERKEY_SHIFT : Z;
  NX_MODIFIERKEY_CONTROL : Z;
  NX_MODIFIERKEY_ALTERNATE : Z;
  NX_MODIFIERKEY_COMMAND : Z;
  NX_MODIFIERKEY_NUMERICPAD : Z;
  NX_MODIFIERKEY_HELP : Z;
  NX_MODIFIERKEY_SECONDARYFN : Z;
  NX_MODIFIERKEY_RSHIFT : Z;
  NX_MODIFIERKEY_RCONTROL : Z;
  NX_MODIFIERKEY_RALTERNATE : Z;
  NX_MODIFIERKEY_RCOMMAND : Z;
  NX_KEYTYPE_CAPS_LOCK : Z;
  NX_KEYTYPE_HELP : Z;
  NX_POWER_KEY : Z;
  NX_KEYTYPE_MUTE : Z;
  NX_KEYTYPE_SOUND_UP : Z;
  NX_KEYTYPE_SOUND_DOWN : Z;
  NX_KEYTYPE_NUM_LOCK : Z;
  NX_KEYTYPE_VIDMIRROR : Z;
  NX_KEYTYPE_PLAY : Z;
  NX_KEYTYPE_NEXT : Z;
  NX_KEYTYPE_PREVIOUS : Z;
  NX_KEYTYPE_BRIGHTNESS_UP : Z;
  NX_KEYTYPE_BRIGHTNESS_DOWN : Z;
  NX_KEYTYPE_EJECT : Z }.

Section KeyMap.
Context (nx : NXCodes).

(** Modifier, number of keys, Apple key codes. *)
Definition keymapModifiers : list (list Z) := [
  [NX_MODIFIERKEY_SHIFT nx; 0x01; 0x38];
  [NX_MODIFIERKEY_CONTROL nx; 0x01; 0x3b];
  [NX_MODIFIERKEY_ALTERNATE nx; 0x01; 0x3a];
  [NX_MODIFIERKEY_COMMAND nx; 0x01; 0x37];
  [NX_MODIFIERKEY_NUMERICPAD nx; 0x15; 0x52; 0x41; 0x4c; 0x53; 0x54; 0x55; 0x45; 0x58; 0x57;
     0x56; 0x5b; 0x5c; 0x43; 0x4b; 0x51; 0x7b; 0x7d; 0x7e; 0x7c; 0x4e; 0x59];
  [NX_MODIFIERKEY_HELP nx; 0x01; 0x72];
  [NX_MODIFIERKEY_SECONDARYFN nx; 0x01; 0x3f];
  [NX_MODIFIERKEY_RSHIFT nx; 0x01; 0x3c];
  [NX_MODIFIERKEY_RCONTROL nx; 0x01; 0x3e];
  [NX_MODIFIERKEY_RALTERNATE nx; 0x01; 0x3d];
  [NX_MODIFIERKEY_RCOMMAND nx; 0x01; 0x36]
].

(** Modifier mask, then a character set and a code for every combination. *)
Definition keymapKeys_00 : list (list Z) := [
  (* 00 *) [0x0d; 0x00; 0x61; 0x00; 0x41; 0x00; 0x01; 0x00;
     0x01; 0x00; 0xca; 0x00; 0xc7; 0x00; 0x01; 0x00; 0x01];
  (* 01 *) [0x0d; 0x00; 0x73; 0x00; 0x53; 0x00; 0x13; 0x00;
     0x13; 0x00; 0xfb; 0x00; 0xa7; 0x00; 0x13; 0x00; 0x13];
  (* 02 *) [0x0d; 0x00; 0x64; 0x00; 0x44; 0x00; 0x04; 0x00;
     0x04; 0x01; 0x44; 0x01; 0xb6; 0x00; 0x04; 0x00; 0x04];
  (* 03 *) [0x0d; 0x00; 0x66; 0x00; 0x46; 0x00; 0x06; 0x00;
     0x06; 0x00; 0xa6; 0x01; 0xac; 0x00; 0x06; 0x00; 0x06];
  (* 04 *) [0x0d; 0x00; 0x68; 0x00; 0x48; 0x00; 0x08; 0x00;
     0x08; 0x00; 0xe3; 0x00; 0xeb; 0x00; 0x00; 0x18; 0x00];
  (* 05 *) [0x0d; 0x00; 0x67; 0x00; 0x47; 0x00; 0x07; 0x00;
     0x07; 0x00; 0xf1; 0x00; 0xe1; 0x00; 0x07; 0x00; 0x07];
  (* 06 *) [0x0d; 0x00; 0x7a; 0x00; 0x5a; 0x00; 0x1a; 0x00;
     0x1a; 0x00; 0xcf; 0x01; 0x57; 0x00; 0x1a; 0x00; 0x1a];
  (* 07 *) [0x0d; 0x00; 0x78; 0x00; 0x58; 0x00; 0x18; 0x00;
     0x18; 0x01; 0xb4; 0x01; 0xce; 0x00; 0x18; 0x00; 0x18];
  (* 08 *) [0x0d; 0x00; 0x63; 0x00; 0x43; 0x00; 0x03; 0x00;
     0x03; 0x01; 0xe3; 0x01; 0xd3; 0x00; 0x03; 0x00; 0x03];
  (* 09 *) [0x0d; 0x00; 0x76; 0x00; 0x56; 0x00; 0x16; 0x00;
     0x16; 0x01; 0xd6; 0x01; 0xe0; 0x00; 0x16; 0x00; 0x16];
  (* 0a *) [0x02; 0x00; 0x3c; 0x00; 0x3e];
  (* 0b *) [0x0d; 0x00; 0x62; 0x00; 0x42; 0x00; 0x02; 0x00;
     0x02; 0x01; 0xe5; 0x01; 0xf2; 0x00; 0x02; 0x00; 0x02];
  (* 0c *) [0x0d; 0x00; 0x71; 0x00; 0x51; 0x00; 0x11; 0x00;
     0x11; 0x00; 0xfa; 0x00; 0xea; 0x00; 0x11; 0x00; 0x11];
  (* 0d *) [0x0d; 0x00; 0x77; 0x00; 0x57; 0x00; 0x17; 0x00;
     0x17; 0x01; 0xc8; 0x01; 0xc7; 0x00; 0x17; 0x00; 0x17];
  (* 0e *) [0x0d; 0x00; 0x65; 0x00; 0x45; 0x00; 0x05; 0x00;
     0x05; 0x00; 0xc2; 0x00; 0xc5; 0x00; 0x05; 0x00; 0x05];
  (* 0f *) [0x0d; 0x00; 0x72; 0x00; 0x52; 0x00; 0x12; 0x00;
     0x12; 0x01; 0xe2; 0x01; 0xd2; 0x00; 0x12; 0x00; 0x12];
  (* 10 *) [0x0d; 0x00; 0x79; 0x00; 0x59; 0x00; 0x19; 0x00;
     0x19; 0x00; 0xa5; 0x01; 0xdb; 0x00; 0x19; 0x00; 0x19];
  (* 11 *) [0x0d; 0x00; 0x74; 0x00; 0x54; 0x00; 0x14; 0x00;
     0x14; 0x01; 0xe4; 0x01; 0xd4; 0x00; 0x14; 0x00; 0x14];
  (* 12 *) [0x0a; 0x00; 0x31; 0x00; 0x21; 0x01; 0xad; 0x00; 0xa1];
  (* 13 *) [0x0e; 0x00; 0x32; 0x00; 0x40; 0x00; 0x32; 0x00;
     0x00; 0x00; 0xb2; 0x00; 0xb3; 0x00; 0x00; 0x00; 0x00];
  (* 14 *) [0x0a; 0x00; 0x33; 0x00; 0x23; 0x00; 0xa3; 0x01; 0xba];
  (* 15 *) [0x0a; 0x00; 0x34; 0x00; 0x24; 0x00; 0xa2; 0x00; 0xa8];
  (* 16 *) [0x0e; 0x00; 0x36; 0x00; 0x5e; 0x00; 0x36; 0x00;
     0x1e; 0x00; 0xb6; 0x00; 0xc3; 0x00; 0x1e; 0x00; 0x1e];
  (* 17 *) [0x0a; 0x00; 0x35; 0x00; 0x25; 0x01; 0xa5; 0x00; 0xbd];
  (* 18 *) [0x0a; 0x00; 0x3d; 0x00; 0x2b; 0x01; 0xb9; 0x01; 0xb1];
  (* 19 *) [0x0a; 0x00; 0x39; 0x00; 0x28; 0x00; 0xac; 0x00; 0xab];
  (* 1a *) [0x0a; 0x00; 0x37; 0x00; 0x26; 0x01; 0xb0; 0x01; 0xab];
  (* 1b *) [0x0e; 0x00; 0x2d; 0x00; 0x5f; 0x00; 0x1f; 0x00;
     0x1f; 0x00; 0xb1; 0x00; 0xd0; 0x00; 0x1f; 0x00; 0x1f];
  (* 1c *) [0x0a; 0x00; 0x38; 0x00; 0x2a; 0x00; 0xb7; 0x00; 0xb4];
  (* 1d *) [0x0a; 0x00; 0x30; 0x00; 0x29; 0x00; 0xad; 0x00; 0xbb];
  (* 1e *) [0x0e; 0x00; 0x5d; 0x00; 0x7d; 0x00; 0x1d; 0x00;
     0x1d; 0x00; 0x27; 0x00; 0xba; 0x00; 0x1d; 0x00; 0x1d];
  (* 1f *) [0x0d; 0x00; 0x6f; 0x00; 0x4f; 0x00; 0x0f; 0x00;
     0x0f; 0x00; 0xf9; 0x00; 0xe9; 0x00; 0x0f; 0x00; 0x0f];
  (* 20 *) [0x0d; 0x00; 0x75; 0x00; 0x55; 0x00; 0x15; 0x00;
     0x15; 0x00; 0xc8; 0x00; 0xcd; 0x00; 0x15; 0x00; 0x15];
  (* 21 *) [0x0e; 0x00; 0x5b; 0x00; 0x7b; 0x00; 0x1b; 0x00;
     0x1b; 0x00; 0x60; 0x00; 0xaa; 0x00; 0x1b; 0x00; 0x1b];
  (* 22 *) [0x0d; 0x00; 0x69; 0x00; 0x49; 0x00; 0x09; 0x00;
     0x09; 0x00; 0xc1; 0x00; 0xf5; 0x00; 0x09; 0x00; 0x09];
  (* 23 *) [0x0d; 0x00; 0x70; 0x00; 0x50; 0x00; 0x10; 0x00;
     0x10; 0x01; 0x70; 0x01; 0x50; 0x00; 0x10; 0x00; 0x10];
  (* 24 *) [0x10; 0x00; 0x0d; 0x00; 0x03];
  (* 25 *) [0x0d; 0x00; 0x6c; 0x00; 0x4c; 0x00; 0x0c; 0x00;
     0x0c; 0x00; 0xf8; 0x00; 0xe8; 0x00; 0x0c; 0x00; 0x0c];
  (* 26 *) [0x0d; 0x00; 0x6a; 0x00; 0x4a; 0x00; 0x0a; 0x00;
     0x0a; 0x00; 0xc6; 0x00; 0xae; 0x00; 0x0a; 0x00; 0x0a];
  (* 27 *) [0x0a; 0x00; 0x27; 0x00; 0x22; 0x00; 0xa9; 0x01; 0xae];
  (* 28 *) [0x0d; 0x00; 0x6b; 0x00; 0x4b; 0x00; 0x0b; 0x00;
     0x0b; 0x00; 0xce; 0x00; 0xaf; 0x00; 0x0b; 0x00; 0x0b];
  (* 29 *) [0x0a; 0x00; 0x3b; 0x00; 0x3a; 0x01; 0xb2; 0x01; 0xa2];
  (* 2a *) [0x0e; 0x00; 0x5c; 0x00; 0x7c; 0x00; 0x1c; 0x00;
     0x1c; 0x00; 0xe3; 0x00; 0xeb; 0x00; 0x1c; 0x00; 0x1c];
  (* 2b *) [0x0a; 0x00; 0x2c; 0x00; 0x3c; 0x00; 0xcb; 0x01; 0xa3];
  (* 2c *) [0x0a; 0x00; 0x2f; 0x00; 0x3f; 0x01; 0xb8; 0x00; 0xbf];
  (* 2d *) [0x0d; 0x00; 0x6e; 0x00; 0x4e; 0x00; 0x0e; 0x00;
     0x0e; 0x00; 0xc4; 0x01; 0xaf; 0x00; 0x0e; 0x00; 0x0e];
  (* 2e *) [0x0d; 0x00; 0x6d; 0x00; 0x4d; 0x00; 0x0d; 0x00;
     0x0d; 0x01; 0x6d; 0x01; 0xd8; 0x00; 0x0d; 0x00; 0x0d];
  (* 2f *) [0x0a; 0x00; 0x2e; 0x00; 0x3e; 0x00; 0xbc; 0x01; 0xb3]
].

(** The keys from 30 on. *)
Definition keymapKeys_30 : list (list Z) := [
  (* 30 *) [0x02; 0x00; 0x09; 0x00; 0x19];
  (* 31 *) [0x0c; 0x00; 0x20; 0x00; 0x00; 0x00; 0x80; 0x00; 0x00];
  (* 32 *) [0x0a; 0x00; 0x60; 0x00; 0x7e; 0x00; 0x60; 0x01; 0xbb];
  (* 33 *) [0x02; 0x00; 0x7f; 0x00; 0x08];
  (* 34 *) [0xff];
  (* 35 *) [0x02; 0x00; 0x1b; 0x00; 0x7e];
  (* 36 *) [0xff];
  (* 37 *) [0xff];
  (* 38 *) [0xff];
  (* 39 *) [0xff];
  (* 3a *) [0xff];
  (* 3b *) [0xff];
  (* 3c *) [0xff];
  (* 3d *) [0xff];
  (* 3e *) [0xff];
  (* 3f *) [0xff];
  (* 40 *) [0x00; 0xfe; 0x36];
  (* 41 *) [0x00; 0x00; 0x2e];
  (* 42 *) [0xff];
  (* 43 *) [0x00; 0x00; 0x2a];
  (* 44 *) [0xff];
  (* 45 *) [0x00; 0x00; 0x2b];
  (* 46 *) [0xff];
  (* 47 *) [0x00; 0x00; 0x1b];
  (* 48 *) [0xff];
  (* 49 *) [0xff];
  (* 4a *) [0xff];
  (* 4b *) [0x0e; 0x00; 0x2f; 0x00; 0x5c; 0x00; 0x2f; 0x00;
     0x1c; 0x00; 0x2f; 0x00; 0x5c; 0x00; 0x00; 0x0a; 0x00];
  (* 4c *) [0x00; 0x00; 0x0d];
  (* 4d *) [0xff];
  (* 4e *) [0x00; 0x00; 0x2d];
  (* 4f *) [0x00; 0xfe; 0x37];
  (* 50 *) [0x00; 0xfe; 0x38];
  (* 51 *) [0x0e; 0x00; 0x3d; 0x00; 0x7c; 0x00; 0x3d; 0x00;
     0x1c; 0x00; 0x3d; 0x00; 0x7c; 0x00; 0x00; 0x18; 0x46];
  (* 52 *) [0x00; 0x00; 0x30];
  (* 53 *) [0x00; 0x00; 0x31];
  (* 54 *) [0x00; 0x00; 0x32];
  (* 55 *) [0x00; 0x00; 0x33];
  (* 56 *) [0x00; 0x00; 0x34];
  (* 57 *) [0x00; 0x00; 0x35];
  (* 58 *) [0x00; 0x00; 0x36];
  (* 59 *) [0x00; 0x00; 0x37];
  (* 5a *) [0x00; 0xfe; 0x39];
  (* 5b *) [0x00; 0x00; 0x38];
  (* 5c *) [0x00; 0x00; 0x39];
  (* 5d *) [0xff];
  (* 5e *) [0xff];
  (* 5f *) [0xff]
].

(** The keys from 60 on. *)
Definition keymapKeys_60 : list (list Z) := [
  (* 60 *) [0x00; 0xfe; 0x24];
  (* 61 *) [0x00; 0xfe; 0x25];
  (* 62 *) [0x00; 0xfe; 0x26];
  (* 63 *) [0x00; 0xfe; 0x22];
  (* 64 *) [0x00; 0xfe; 0x27];
  (* 65 *) [0x00; 0xfe; 0x28];
  (* 66 *) [0xff];
  (* 67 *) [0x00; 0xfe; 0x2a];
  (* 68 *) [0xff];
  (* 69 *) [0x00; 0xfe; 0x32];
  (* 6a *) [0x00; 0xfe; 0x35];
  (* 6b *) [0x00; 0xfe; 0x33];
  (* 6c *) [0xff];
  (* 6d *) [0x00; 0xfe; 0x29];
  (* 6e *) [0xff];
  (* 6f *) [0x00; 0xfe; 0x2b];
  (* 70 *) [0xff];
  (* 71 *) [0x00; 0xfe; 0x34];
  (* 72 *) [0xff];
  (* 73 *) [0x00; 0xfe; 0x2e];
  (* 74 *) [0x00; 0xfe; 0x30];
  (* 75 *) [0x00; 0xfe; 0x2d];
  (* 76 *) [0x00; 0xfe; 0x23];
  (* 77 *) [0x00; 0xfe; 0x2f];
  (* 78 *) [0x00; 0xfe; 0x21];
  (* 79 *) [0x00; 0xfe; 0x31];
  (* 7a *) [0x00; 0xfe; 0x20];
  (* 7b *) [0x00; 0x01; 0xac];
  (* 7c *) [0x00; 0x01; 0xae];
  (* 7d *) [0x00; 0x01; 0xaf];
  (* 7e *) [0x00; 0x01; 0xad];
  (* 7f *) [0x00; 0x00; 0x00];
  [0x00; 0x00; 0x00];
  (* 81 *) [0x00; 0x00; 0x00];
  (* 82 *) [0x00; 0x00; 0x00];
  (* 83 *) [0x00; 0x00; 0x00];
  [0x00; 0x00; 0x00];
  [0x00; 0x00; 0x00];
  [0x00; 0x00; 0x00];
  [0x00; 0x00; 0x00];
  [0x00; 0x00; 0x00];
  [0x00; 0x00; 0x00];
  [0x00; 0x00; 0x00];
  [0x00; 0x00; 0x00];
  [0x00; 0x00; 0x00];
  [0x00; 0x00; 0x00];
  [0x00; 0x00; 0x00];
  [0x00; 0x00; 0x00];
  (* 90 *) [0x00; 0x00; 0x00];
  (* 91 *) [0x00; 0x00; 0x00];
  [0x00; 0x00; 0x00];
  [0x00; 0x00; 0x00];
  [0x00; 0x00; 0x00];
  [0x00; 0x00; 0x00];
  [0x00; 0x00; 0x00];
  [0x00; 0x00; 0x00];
  [0x00; 0x00; 0x00];
  [0x00; 0x00; 0x00];
  [0x00; 0x00; 0x00];
  [0x00; 0x00; 0x00];
  [0x00; 0x00; 0x00];
  [0x00; 0x00; 0x00];
  [0x00; 0x00; 0x00];
  [0x00; 0x00; 0x00];
  (* a0 *) [0x00; 0x00; 0x00];
  (* a1 *) [0x00; 0x00; 0x00]
].

(** Number of keys, then a character set and a code for each. *)
Definition keymapSequences : list (list Z) := [
  [0x02; 0xff; 0x04; 0x00; 0x31];
  [0x02; 0xff; 0x04; 0x00; 0x32];
  [0x02; 0xff; 0x04; 0x00; 0x33];
  [0x02; 0xff; 0x04; 0x00; 0x34];
  [0x02; 0xff; 0x04; 0x00; 0x35];
  [0x02; 0xff; 0x04; 0x00; 0x36];
  [0x02; 0xff; 0x04; 0x00; 0x37];
  [0x02; 0xff; 0x04; 0x00; 0x38];
  [0x02; 0xff; 0x04; 0x00; 0x39];
  [0x02; 0xff; 0x04; 0x00; 0x30];
  [0x02; 0xff; 0x04; 0x00; 0x2d];
  [0x02; 0xff; 0x04; 0x00; 0x3d];
  [0x02; 0xff; 0x04; 0x00; 0x70];
  [0x02; 0xff; 0x04; 0x00; 0x5d];
  [0x02; 0xff; 0x04; 0x00; 0x5b];
  [0x03; 0xff; 0x04; 0xff; 0x01; 0x00; 0x5b];
  [0x03; 0xff; 0x04; 0xff; 0x01; 0x00; 0x5d]
].

(** The special keys: system key, Apple key code. *)
Definition keymapSpecial : list (list Z) := [
  [NX_KEYTYPE_CAPS_LOCK nx; 0x39];
  [NX_KEYTYPE_HELP nx; 0x72];
  [NX_POWER_KEY nx; 0x7f];
  [NX_KEYTYPE_MUTE nx; 0x4a];
  [NX_KEYTYPE_SOUND_UP nx; 0x48];
  [NX_KEYTYPE_SOUND_DOWN nx; 0x49];
  [NX_KEYTYPE_NUM_LOCK nx; 0x47];
  [NX_KEYTYPE_VIDMIRROR nx; 0x70];
  [NX_KEYTYPE_PLAY nx; 0x34];
  [NX_KEYTYPE_NEXT nx; 0x42];
  [NX_KEYTYPE_PREVIOUS nx; 0x4d];
  [NX_KEYTYPE_BRIGHTNESS_UP nx; 0x90];
  [NX_KEYTYPE_BRIGHTNESS_DOWN nx; 0x91];
  [NX_KEYTYPE_EJECT nx; 0x92]
].

(** The static array. *)
Definition appleUSAKeyMap : list Z :=
  [0x00; 0x00] ++ [0x0b] ++ concat keymapModifiers ++
  [0xa2] ++ concat keymapKeys_00 ++ concat keymapKeys_30 ++ concat keymapKeys_60 ++
  [0x11] ++ concat keymapSequences ++
  [0x0e] ++ concat keymapSpecial.

(** The length and the array. *)
Definition defaultKeymapOfLength : Z * list Z :=
  (Z.of_nat (length appleUSAKeyMap), appleUSAKeyMap).

End KeyMap.

(** ** Reading the array *)

(** The character set [0xff] in a key sequence names a modifier. *)
Record KeyMapping := mkKeyMapping {
  km_modifiers : list (Z * list Z);
  km_keys : list (Z * list (Z * Z));
  km_sequences : list (list (Z * Z));
  km_special : list (Z * Z) }.

(** The number of modifiers in a mask. *)
Definition modifierBits (mask : Z) : nat :=
  length (filter (fun i => Z.testbit mask i = true) (seqZ 0 8)).

Fixpoint takePairs (n : nat) (l : list Z) : option (list (Z * Z) * list Z) :=
  match n, l with
  | O, _ => Some ([], l)
  | S n', a :: b :: l' => '(ps, r) ← takePairs n' l'; Some ((a, b) :: ps, r)
  | _, _ => None
  end.

Definition takeBytes (n : nat) (l : list Z) : option (list Z * list Z) :=
  if bool_decide (n <= length l)%nat then Some (take n l, drop n l) else None.

Definition readModifier (l : list Z) : option ((Z * list Z) * list Z) :=
  match l with
  | m :: n :: l' => '(codes, r) ← takeBytes (Z.to_nat n) l'; Some ((m, codes), r)
  | _ => None
  end.

(** A key with mask [0xff] makes no character. *)
Definition readKey (l : list Z) : option ((Z * list (Z * Z)) * list Z) :=
  match l with
  | mask :: l' =>
    if mask =? 0xff then Some ((mask, []), l') else
    '(chars, r) ← takePairs (2 ^ modifierBits mask) l'; Some ((mask, chars), r)
  | [] => None
  end.

Definition readSequence (l : list Z) : option (list (Z * Z) * list Z) :=
  match l with
  | n :: l' => takePairs (Z.to_nat n) l'
  | [] => None
  end.

Fixpoint readMany {T} (n : nat) (read : list Z -> option (T * list Z)) (l : list Z)
  : option (list T * list Z) :=
  match n with
  | O => Some ([], l)
  | S n' => '(x, r) ← read l; '(xs, r') ← readMany n' read r; Some (x :: xs, r')
  end.

(** A section: its number of entries, then the entries. *)
Definition readSection {T} (read : list Z -> option (T * list Z)) (l : list Z)
  : option (list T * list Z) :=
  match l with n :: l' => readMany (Z.to_nat n) read l' | [] => None end.

(** The whole array, of which nothing may be left over. *)
Definition readKeymap (l : list Z) : option KeyMapping :=
  match l with
  | 0 :: 0 :: l =>
    '(ms, l) ← readSection readModifier l;
    '(ks, l) ← readSection readKey l;
    '(qs, l) ← readSection readSequence l;
    '(ps, l) ← readSection (fun l => match l with a :: b :: r => Some ((a, b), r) | _ => None end) l;
    match l with [] => Some (mkKeyMapping ms ks qs ps) | _ => None end
  | _ => None
  end.

(** ** The array is well formed *)

(** A key code that has a definition. *)
Definition defined (km : KeyMapping) (code : Z) : bool :=
  (0 <=? code) && (code <? Z.of_nat (length (km_keys km))).

