(* ===== verification/OSTypes.v ===== *)
(** * Property-list objects

    The libkern collection classes as the drivers use them to read their
    configuration.  An object's identity never matters to this code, so an object
    is its value; a dictionary holds each key once. *)
From S2P Require Import Prelude.

Inductive OSObject :=
| OSString (s : string)
| OSNumber (z : Z)
| OSBoolean (b : bool)
| OSData (bytes : list Z)
| OSArray (l : list OSObject)
| OSDictionary (d : list (string * OSObject))
| OSOther.

(** Induction through arrays and dictionaries. *)
Lemma OSObject_nested_ind (P : OSObject -> Prop) :
  (forall s, P (OSString s)) -> (forall z, P (OSNumber z)) -> (forall b, P (OSBoolean b)) ->
  (forall l, P (OSData l)) -> (forall l, Forall P l -> P (OSArray l)) ->
  (forall d, Forall (fun kv => P kv.2) d -> P (OSDictionary d)) -> P OSOther -> forall o, P o.
Proof.
  intros Hs Hz Hb Hl Ha Hd Ho. fix IH 1. intros [s|z|b|l|l|d|]; [apply Hs|apply Hz|apply Hb|apply Hl| | |apply Ho].
  - apply Ha. induction l as [|o l IHl]; constructor; [apply IH|apply IHl].
  - apply Hd. induction d as [|[k o] d IHd]; constructor; [apply IH|apply IHd].
Qed.

(** [OSDynamicCast] *)
Definition asString (o : OSObject) : option string := match o with OSString s => Some s | _ => None end.
Definition asNumber (o : OSObject) : option Z := match o with OSNumber z => Some z | _ => None end.
Definition asBoolean (o : OSObject) : option bool := match o with OSBoolean b => Some b | _ => None end.
(** The data's bytes, read as [UInt8]. *)
Definition asData (o : OSObject) : option (list Z) := match o with OSData l => Some (map u8 l) | _ => None end.
Definition asArray (o : OSObject) : option (list OSObject) := match o with OSArray l => Some l | _ => None end.
Definition asDictionary (o : OSObject) : option (list (string * OSObject)) :=
  match o with OSDictionary d => Some d | _ => None end.

Abbreviation OSDict := (list (string * OSObject)).

(** [getObject], [setObject] (which replaces the value of a key), [merge]. *)
Fixpoint getObject (d : OSDict) (key : string) : option OSObject :=
  match d with
  | [] => None
  | (k, o) :: d' => if bool_decide (k = key) then Some o else getObject d' key
  end.

Fixpoint setObject (d : OSDict) (key : string) (o : OSObject) : OSDict :=
  match d with
  | [] => [(key, o)]
  | (k, o') :: d' => if bool_decide (k = key) then (k, o) :: d' else (k, o') :: setObject d' key o
  end.

Definition mergeDict (d e : OSDict) : OSDict :=
  fold_left (fun d '(k, o) => setObject d k o) e d.

(** [unsigned32BitValue], [unsigned64BitValue] *)
Definition getNumber32 (d : OSDict) (key : string) : option Z :=
  o ← getObject d key; z ← asNumber o; Some (u32 z).
Definition getNumber64 (d : OSDict) (key : string) : option Z :=
  o ← getObject d key; z ← asNumber o; Some (u64 z).
Definition getBoolean (d : OSDict) (key : string) : option bool := o ← getObject d key; asBoolean o.
Definition getArray (d : OSDict) (key : string) : option (list OSObject) := o ← getObject d key; asArray o.

Lemma getObject_setObject d k k' o :
  getObject (setObject d k o) k' = if bool_decide (k = k') then Some o else getObject d k'.
Proof.
  induction d as [|[k0 o0] d IH]; simpl; [done|].
  destruct (bool_decide_reflect (k0 = k)) as [->|Hk]; simpl.
  - by destruct (bool_decide (k = k')).
  - rewrite IH. repeat case_bool_decide; congruence.
Qed.

(** [merge] overrides: what the second dictionary has is taken from it. *)
Lemma getObject_mergeDict d e k :
  NoDup e.*1 -> getObject (mergeDict d e) k =
  match getObject e k with Some o => Some o | None => getObject d k end.
Proof.
  revert d. induction e as [|[k0 o0] e IH]; intros d; [done|].
  simpl. intros [Hk He]%NoDup_cons. rewrite (IH _ He), getObject_setObject.
  destruct (bool_decide_reflect (k0 = k)) as [->|]; [|done].
  destruct (getObject e k) as [o|] eqn:E; [|done]. exfalso. apply Hk. revert E. clear.
  induction e as [|[k1 o1] e IH]; simpl; [done|].
  case_bool_decide; [intros _; subst; apply list_elem_of_here|intros E; apply list_elem_of_further; auto].
Qed.

Lemma getObject_in d k o : getObject d k = Some o -> (k, o) ∈ d.
Proof.
  induction d as [|[k0 o0] d IH]; simpl; [done|].
  case_bool_decide; [intros [= ->]; subst; apply list_elem_of_here|intros E; apply list_elem_of_further; auto].
Qed.

Lemma getObject_key d k o : getObject d k = Some o -> k ∈ d.*1.
Proof. intros E%getObject_in. apply list_elem_of_fmap. by exists (k, o). Qed.

Lemma setObject_keys d k o : (setObject d k o).*1 = if bool_decide (k ∈ d.*1) then d.*1 else d.*1 ++ [k].
Proof.
  induction d as [|[k0 o0] d IH]; [by rewrite bool_decide_false by apply not_elem_of_nil|].
  simpl. destruct (bool_decide_reflect (k0 = k)) as [->|Hk]; csimpl.
  - by rewrite bool_decide_true by apply list_elem_of_here.
  - rewrite IH. destruct (bool_decide_reflect (k ∈ d.*1)) as [H|H].
    + by rewrite bool_decide_true by by apply list_elem_of_further.
    + rewrite bool_decide_false; [done|]. intros [|]%elem_of_cons; congruence.
Qed.

Lemma setObject_new d k o : k ∉ d.*1 -> setObject d k o = d ++ [(k, o)].
Proof.
  induction d as [|[k0 o0] d IH]; [done|]. csimpl. intros [Hk Hd]%not_elem_of_cons.
  rewrite bool_decide_false by done. by rewrite IH.
Qed.

Lemma setObject_NoDup d k o : NoDup d.*1 -> NoDup (setObject d k o).*1.
Proof.
  intros Hd. rewrite setObject_keys. destruct (bool_decide_reflect (k ∈ d.*1)) as [|Hk]; [done|].
  apply NoDup_app. split; [done|]. split; [|apply NoDup_singleton].
  intros x Hx ->%list_elem_of_singleton. done.
Qed.

(** Objects as the collection classes make them: no dictionary has a key twice. *)
Inductive object_ok : OSObject -> Prop :=
| ok_string s : object_ok (OSString s)
| ok_number z : object_ok (OSNumber z)
| ok_boolean b : object_ok (OSBoolean b)
| ok_data l : object_ok (OSData l)
| ok_array l : Forall object_ok l -> object_ok (OSArray l)
| ok_dictionary d : NoDup d.*1 -> Forall (fun kv => object_ok kv.2) d -> object_ok (OSDictionary d)
| ok_other : object_ok OSOther.

Abbreviation dict_ok d := (object_ok (OSDictionary d)).

Lemma dict_ok_keys d : dict_ok d -> NoDup d.*1.
Proof. by inversion 1. Qed.

Lemma dict_ok_get d k o : dict_ok d -> getObject d k = Some o -> object_ok o.
Proof. inversion 1 as [| | | | |? _ Hd|]; subst. intros E%getObject_in. by apply (proj1 (Forall_forall _ _) Hd (k, o)). Qed.

Lemma dict_ok_set d k o : dict_ok d -> object_ok o -> dict_ok (setObject d k o).
Proof.
  inversion 1 as [| | | | |? Hk Hd|]; subst. intros Ho. constructor; [by apply setObject_NoDup|]. clear Hk H.
  induction Hd as [|[k0 o0] d H0 H1 IH]; simpl.
  - constructor; [done|constructor].
  - case_bool_decide; constructor; done.
Qed.
