(* ===== verification/Keyboard.v ===== *)
(** * The keyboard driver: state and configuration

    VoodooPS2Keyboard/VoodooPS2Keyboard.h and the part of VoodooPS2Keyboard.cpp that
    turns a configuration into tables: [init], the parser of remapping entries, the
    loaders, and [setParamPropertiesGated].  Builds without [DEBUG] are modelled;
    messages to the system log are left out.  [None] is an access outside an array. *)
From S2P Require Import Prelude PS2Types RingBuffer OSTypes KeyTables.
From Stdlib Require Import Ascii.

(** ** Constants *)
Definition KBV_NUM_KEYCODES : Z := 512.
Definition KBV_BITS_PER_UNIT : Z := 32.
Definition KBV_BITS_MASK : Z := 31.
Definition KBV_BITS_SHIFT : Z := 5.
Definition KBV_NUNITS : Z := (KBV_NUM_KEYCODES + (KBV_BITS_PER_UNIT - 1)) / KBV_BITS_PER_UNIT.
Definition KBV_NUM_SCANCODES : Z := 256.
Definition kBreaklessKey : Z := 0x01.
Definition kPacketLength : Z := 2 + 6 + 8.
Definition kPacketKeyOffset : Z := 0.
Definition kPacketTimeOffset : Z := 8.
Definition kPacketKeyDataLength : Z := 2.
(** The ring's size: [kPacketLength*32]. *)
Definition KBD_RING : Z := kPacketLength * 32.

Definition kIgnoreBytes : Z := 2.
Definition kOutputBytes : Z := 2.
Definition kModifierBytes : Z := 4.
Definition kOutputBytesOffset : Z := kIgnoreBytes + 0.
Definition kModifierBytesOffset : Z := kIgnoreBytes + kOutputBytes + 0.
Definition kPrefixBytes : Z := kIgnoreBytes + kOutputBytes + kModifierBytes.
Definition kSequenceBytesOffset : Z := kPrefixBytes + 0.
Definition kMinMacroInversion : Z := kPrefixBytes + 2.

(** What the sleep and eject timer will do. *)
Inductive TimerFunc := kTimerSleep | kTimerEject.

(** ** The object

    Pointers to objects the code only tests and calls are booleans; a timer is null,
    idle or set to a delay ([Some None], [Some (Some t)]); [_provider] is the ACPI
    device, [_backlightLevels] the array with its count. *)
Record ApplePS2Keyboard := mkKeyboard {
  _device : option Z;
  _keyBitVector : list Z;
  _extendCount : Z;
  _ringBuffer : RingBuffer Z;
  _lastdata : Z;
  _interruptHandlerInstalled : bool;
  _powerControlHandlerInstalled : bool;
  _ledState : Z;
  _cmdGate : bool;
  _PS2modifierState : Z;
  _PS2ToPS2Map : list Z;
  _PS2flags : list Z;
  _PS2ToADBMap : list Z;
  _PS2ToADBMapMapped : list Z;
  _fkeymode : Z;
  _fkeymodesupported : bool;
  _keysStandard : option (list OSObject);
  _keysSpecial : option (list OSObject);
  _swapcommandoption : bool;
  _logscancodes : Z;
  _f12ejectdelay : Z;
  _timerFunc : TimerFunc;
  _remapPrntScr : bool;
  _numLockSupport : bool;
  _numLockOnAtBoot : bool;
  _sleepEjectTimer : option (option Z);
  _maxsleeppresstime : Z;
  _provider : bool;
  _backlightLevels : option (list Z);
  _brightnessHack : bool;
  _disableInput : bool;
  _macroTranslation : option (list (list Z));
  _macroInversion : option (list (list Z));
  _macroBuffer : option (list Z);
  _macroMax : Z;
  _macroCurrent : Z;
  _macroMaxTime : Z;
  _macroTimer : option (option Z);
  _ignoreCapsLedChange : bool;
  firsttime : bool }.

(** [init], on an object whose storage starts out as zeroes.  [firsttime] is the
    static variable of [dispatchKeyboardEventWithPacket]. *)
Definition init : ApplePS2Keyboard := {|
  _device := None;
  _keyBitVector := replicate (Z.to_nat KBV_NUNITS) 0;
  _extendCount := 0;
  _ringBuffer := mkRing (replicate (Z.to_nat KBD_RING) 0) 0 0;
  _lastdata := 0;
  _interruptHandlerInstalled := false;
  _powerControlHandlerInstalled := false;
  _ledState := 0;
  _cmdGate := false;
  _PS2modifierState := 0;
  _PS2ToPS2Map := seqZ 0 (KBV_NUM_SCANCODES * 2);
  _PS2flags := _PS2flagsStock;
  _PS2ToADBMap := replicate (Z.to_nat ADB_CONVERTER_LEN) 0;
  _PS2ToADBMapMapped := PS2ToADBMapStock;
  _fkeymode := 0;
  _fkeymodesupported := false;
  _keysStandard := None;
  _keysSpecial := None;
  _swapcommandoption := false;
  _logscancodes := 0;
  _f12ejectdelay := 250;
  _timerFunc := kTimerSleep;
  _remapPrntScr := false;
  _numLockSupport := false;
  _numLockOnAtBoot := false;
  _sleepEjectTimer := None;
  _maxsleeppresstime := 0;
  _provider := false;
  _backlightLevels := None;
  _brightnessHack := false;
  _disableInput := false;
  _macroTranslation := None;
  _macroInversion := None;
  _macroBuffer := None;
  _macroMax := 0;
  _macroCurrent := 0;
  _macroMaxTime := 25000000;
  _macroTimer := None;
  _ignoreCapsLedChange := false;
  firsttime := true |}.

(** ** Remapping entries *)

Definition code (c : ascii) : Z := Z.of_nat (nat_of_ascii c).
Definition between (lo hi c : ascii) : bool := (code lo <=? code c) && (code c <=? code hi).

Definition hexDigit (c : ascii) : option Z :=
  if between "0" "9" c then Some (code c - code "0")
  else if between "a" "f" c then Some (code c - code "a" + 10)
  else if between "A" "F" c then Some (code c - code "A" + 10)
  else None.

(** The loop: [n] is an [int].  The end of the string is its NUL. *)
Fixpoint parseHexLoop (psz : string) (term1 term2 : option ascii) (n : Z) : option (Z * string) :=
  match psz with
  | EmptyString => Some (n, psz)
  | String c rest =>
    if bool_decide (term1 = Some c) || bool_decide (term2 = Some c) then Some (n, psz) else
    d ← hexDigit c;
    parseHexLoop rest term1 term2 (s32 (s32 (Z.shiftl n 4) + d))
  end.

(** The value, as [unsigned], and where the parser stopped; [None] is [NULL].  A
    terminator that is the NUL itself is [None]. *)
Definition parseHex (psz : string) (term1 term2 : option ascii) : option (Z * string) :=
  '(n, rest) ← parseHexLoop psz term1 term2 0; Some (u32 n, rest).

Definition newline : ascii := "010".
Definition semicolon : ascii := ";".

(** [(scanFrom, scanTo)], if [psz] is a valid entry. *)
Definition parseRemap (psz : string) : option (Z * Z) :=
  '(n, rest) ← parseHex psz (Some "="%char) None;
  match rest with
  | String "="%char rest' =>
    if 0xFFFF <? n then None else
    '(m, _) ← parseHex rest' (Some newline) (Some semicolon);
    if 0xFFFF <? m then None else Some (u16 n, u16 m)
  | _ => None
  end.

(** The strings of the array that are not comments. *)
Definition isComment (psz : string) : bool :=
  match psz with String c _ => bool_decide (c = semicolon) | EmptyString => false end.

Definition entries (pArray : list OSObject) : list string :=
  filter (fun psz => isComment psz = false) (omap asString pArray).

(** The prefix of a scan code: none, or the extended one. *)
Definition validPrefix (ex : Z) : bool := (ex =? 0) || (ex =? 0xe0).
Definition tableIndex (scan : Z) (ex : Z) : Z :=
  Z.land scan 0xff + (if ex =? 0xe0 then KBV_NUM_SCANCODES else 0).

(** Loading one entry into a table. *)
Definition loadPS2Entry (map : list Z) (psz : string) : option (list Z) :=
  match parseRemap psz with
  | None => Some map
  | Some (scanIn, scanOut) =>
    let exIn := u8 (Z.shiftr scanIn 8) in
    let exOut := u8 (Z.shiftr scanOut 8) in
    if negb (validPrefix exIn) || negb (validPrefix exOut) then Some map else
    arr_set map (tableIndex scanIn exIn) (tableIndex scanOut exOut)
  end.

Definition loadBreaklessEntry (flags : list Z) (psz : string) : option (list Z) :=
  match parseHex psz (Some newline) (Some semicolon) with
  | None => Some flags
  | Some (scanIn, _) =>
    let exIn := u8 (Z.shiftr scanIn 8) in
    if negb (validPrefix exIn) then Some flags else
    let index := tableIndex scanIn exIn in
    f ← arr_get flags index;
    arr_set flags index (Z.lor f kBreaklessKey)
  end.

Definition loadADBEntry (map : list Z) (psz : string) : option (list Z) :=
  match parseRemap psz with
  | None => Some map
  | Some (scanIn, adbOut) =>
    let exIn := u8 (Z.shiftr scanIn 8) in
    if negb (validPrefix exIn) || (0xFF <? adbOut) then Some map else
    arr_set map (Z.land scanIn 0xff + (if exIn =? 0xe0 then ADB_CONVERTER_EX_START else 0)) (u8 adbOut)
  end.

(** [for (i = 0; i < count; i++) load(pArray->getObject(i));] *)
Definition loadEntries (load : list Z -> string -> option (list Z)) (table : list Z)
    (pArray : option (list OSObject)) : option (list Z) :=
  match pArray with
  | None => Some table
  | Some l => foldl (fun t psz => t' ← t; load t' psz) (Some table) (entries l)
  end.

Definition loadCustomPS2Map (pArray : option (list OSObject)) (k : ApplePS2Keyboard)
  : option ApplePS2Keyboard :=
  m ← loadEntries loadPS2Entry (_PS2ToPS2Map k) pArray; Some {| k with _PS2ToPS2Map := m |}.

Definition loadBreaklessPS2 (dict : OSDict) (name : string) (k : ApplePS2Keyboard)
  : option ApplePS2Keyboard :=
  m ← loadEntries loadBreaklessEntry (_PS2flags k) (getArray dict name); Some {| k with _PS2flags := m |}.

Definition loadCustomADBMap (dict : OSDict) (name : string) (k : ApplePS2Keyboard)
  : option ApplePS2Keyboard :=
  m ← loadEntries loadADBEntry (_PS2ToADBMapMapped k) (getArray dict name);
  Some {| k with _PS2ToADBMapMapped := m |}.

(** ** Macros *)

(** Long enough, an even number of bytes, and marked FF FF. *)
Definition validMacro (data : list Z) : bool :=
  let length := Z.of_nat (length data) in
  (kMinMacroInversion <=? length) && negb (nz (Z.land length 0x01)) &&
  match data with 0xFF :: 0xFF :: _ => true | _ => false end.

(** The data of the valid entries; null if there is none. *)
Definition loadMacroData (dict : OSDict) (name : string) : option (list (list Z)) :=
  pArray ← getArray dict name;
  match filter (fun data => validMacro data = true) (omap asData pArray) with
  | [] => None
  | l => Some l
  end.

(** The longest key sequence, in bytes. *)
Definition longerMacro (max : Z) (data : list Z) : Z :=
  let length := Z.of_nat (length data) - kPrefixBytes in
  if max <? length then length else max.

Definition longestMacro (l : list (list Z)) : Z := foldl longerMacro 0 l.

Definition loadMacros (config : OSDict) (k : ApplePS2Keyboard) : ApplePS2Keyboard :=
  let inversion := loadMacroData config "Macro Inversion" in
  let k := {| k with _macroTranslation := loadMacroData config "Macro Translation";
                     _macroInversion := inversion |} in
  match inversion with
  | None => k
  | Some l =>
    let max := longestMacro l in
    {| k with _macroBuffer := Some (replicate (Z.to_nat (max * kPacketLength)) 0); _macroMax := max |}
  end.

(** ** Preferences

    [setParamPropertiesGated] in the order of the code, one definition to a
    preference.  What [setProperty] publishes in the registry is left out. *)

(** [_PS2ToADBMap[dst] = x;] and [_PS2ToADBMap[dst] = _PS2ToADBMapMapped[src];] *)
Definition setADB (dst x : Z) (k : ApplePS2Keyboard) : option ApplePS2Keyboard :=
  m ← arr_set (_PS2ToADBMap k) dst x; Some {| k with _PS2ToADBMap := m |}.
Definition copyADB (dst src : Z) (k : ApplePS2Keyboard) : option ApplePS2Keyboard :=
  x ← arr_get (_PS2ToADBMapMapped k) src; setADB dst x k.

(** [if (xml) { if (xml->isTrue()) yes else no }] *)
Definition ifBoolean (dict : OSDict) (key : string)
    (f : bool -> ApplePS2Keyboard -> option ApplePS2Keyboard) (k : ApplePS2Keyboard)
  : option ApplePS2Keyboard :=
  match getBoolean dict key with Some b => f b k | None => Some k end.

Definition setTimes (dict : OSDict) (k : ApplePS2Keyboard) : ApplePS2Keyboard :=
  let k := match getNumber32 dict "SleepPressTime" with
           | Some z => {| k with _maxsleeppresstime := z |} | None => k end in
  let k := match getNumber32 dict "HIDF12EjectDelay" with
           | Some z => {| k with _f12ejectdelay := z |} | None => k end in
  match getNumber64 dict "MaximumMacroTime" with
  | Some z => {| k with _macroMaxTime := z |} | None => k end.

(** A change of the function-key mode loads the other mode's remapping. *)
Definition setFKeyMode (dict : OSDict) (k : ApplePS2Keyboard) : option ApplePS2Keyboard :=
  if negb (_fkeymodesupported k) then Some k else
  let oldfkeymode := _fkeymode k in
  let k := match getNumber32 dict "HIDFKeyMode" with
           | Some z => {| k with _fkeymode := z |} | None => k end in
  if oldfkeymode =? _fkeymode k then Some k else
  loadCustomPS2Map (if nz (_fkeymode k) then _keysStandard k else _keysSpecial k) k.

Definition setSwapCapsLock (on : bool) (k : ApplePS2Keyboard) : option ApplePS2Keyboard :=
  if on then (k ← copyADB 0x3a 0x1d k; copyADB 0x1d 0x3a k)
  else k ← copyADB 0x3a 0x3a k; copyADB 0x1d 0x1d k.

Definition setSwapCommandOption (on : bool) (k : ApplePS2Keyboard) : option ApplePS2Keyboard :=
  let k := {| k with _swapcommandoption := on |} in
  if on then
    k ← copyADB 0x38 0x15b k;
    k ← copyADB 0x15b 0x38 k;
    k ← copyADB 0x138 0x15c k;
    copyADB 0x15c 0x138 k
  else
    k ← copyADB 0x38 0x38 k;
    k ← copyADB 0x15b 0x15b k;
    k ← copyADB 0x138 0x138 k;
    copyADB 0x15c 0x15c k.

(** The flags that are only stored. *)
Definition setFlags (dict : OSDict) (k : ApplePS2Keyboard) : ApplePS2Keyboard :=
  let k := match getBoolean dict "BrightnessHack" with
           | Some true => {| k with _brightnessHack := true |} | _ => k end in
  let k := match getBoolean dict "RemapPrntScr" with
           | Some b => {| k with _remapPrntScr := b |} | None => k end in
  let k := match getBoolean dict "NumLockSupport" with
           | Some b => {| k with _numLockSupport := b |} | None => k end in
  match getBoolean dict "NumLockOnAtBoot" with
  | Some b => {| k with _numLockOnAtBoot := b |} | None => k end.

(** The application key: right windows, or else Apple's Fn. *)
Definition setApplicationKey (dict : OSDict) (k : ApplePS2Keyboard) : option ApplePS2Keyboard :=
  let windows := getBoolean dict "Make Application key into right windows" in
  k ← (match windows with
       | Some true => setADB 0x15d (if _swapcommandoption k then 0x3d else 0x36) k
       | Some false => copyADB 0x15d 0x15d k
       | None => Some k
       end);
  let temp := match windows with Some true => true | _ => false end in
  ifBoolean dict "Make Application key into Apple Fn key" (fun on k =>
    if temp then Some k else if on then setADB 0x15d 0x3f k else copyADB 0x15d 0x15d k) k.

Definition setHangulHanja (on : bool) (k : ApplePS2Keyboard) : option ApplePS2Keyboard :=
  if on then (k ← copyADB 0x138 0xf2 k; copyADB 0x11d 0xf1 k)
  else k ← copyADB 0x138 (if _swapcommandoption k then 0x15c else 0x138) k; copyADB 0x11d 0x11d k.

Definition setISOLayout (on : bool) (k : ApplePS2Keyboard) : option ApplePS2Keyboard :=
  if on then (k ← copyADB 0x29 0x56 k; copyADB 0x56 0x29 k)
  else k ← copyADB 0x29 0x29 k; copyADB 0x56 0x56 k.

Definition setLogScanCodes (dict : OSDict) (k : ApplePS2Keyboard) : ApplePS2Keyboard :=
  match getNumber32 dict "LogScanCodes" with
  | Some z => {| k with _logscancodes := s32 z |} | None => k end.

Definition setParamPropertiesGated (dict : option OSDict) (k : ApplePS2Keyboard)
  : option ApplePS2Keyboard :=
  match dict with
  | None => Some k
  | Some dict =>
    k ← setFKeyMode dict (setTimes dict k);
    k ← ifBoolean dict "Swap capslock and left control" setSwapCapsLock k;
    k ← ifBoolean dict "Swap command and option" setSwapCommandOption k;
    k ← setApplicationKey dict (setFlags dict k);
    k ← ifBoolean dict "Make right modifier keys into Hangul and Hanja" setHangulHanja k;
    k ← ifBoolean dict "Use ISO layout keyboard" setISOLayout k;
    Some (setLogScanCodes dict k)
  end.

(** [setParamProperties] and [setProperties] reach it only once the gate exists. *)
Definition setParamProperties (dict : option OSDict) (k : ApplePS2Keyboard)
  : option ApplePS2Keyboard :=
  if _cmdGate k then setParamPropertiesGated dict k else Some k.

Definition setProperties (props : OSObject) (k : ApplePS2Keyboard) : option ApplePS2Keyboard :=
  match asDictionary props with
  | Some dict => if _cmdGate k then setParamPropertiesGated (Some dict) k else Some k
  | None => Some k
  end.

(** ** [probe]

    [config] is what [makeConfigurationNode] returns.  The result is [None] where the
    driver declines the device; the inner option is an access out of bounds. *)
Definition loadFunctionKeys (config : OSDict) (k : ApplePS2Keyboard) : option ApplePS2Keyboard :=
  let standard := getArray config "Function Keys Standard" in
  let special := getArray config "Function Keys Special" in
  match standard, special with
  | Some _, Some _ =>
    loadCustomPS2Map special
      {| k with _fkeymodesupported := true; _keysStandard := standard; _keysSpecial := special |}
  | _, _ => Some {| k with _fkeymodesupported := false; _keysStandard := None; _keysSpecial := None |}
  end.

Definition loadConfiguration (config : OSDict) (k : ApplePS2Keyboard) : option ApplePS2Keyboard :=
  k ← loadCustomPS2Map (getArray config "Custom PS2 Map") k;
  k ← loadBreaklessPS2 config "Breakless PS2" k;
  k ← loadCustomADBMap config "Custom ADB Map" k;
  k ← loadFunctionKeys config k;
  Some (loadMacros config k).

Definition probe (superProbes : bool) (config : option OSDict) (k : ApplePS2Keyboard)
  : option (option ApplePS2Keyboard) :=
  if negb superProbes then Some None else
  match config with
  | Some c => if bool_decide (getBoolean c "DisableDevice" = Some true) then Some None else
    k ← loadConfiguration c k;
    k ← setParamPropertiesGated config {| k with _PS2ToADBMap := _PS2ToADBMapMapped k |};
    Some (Some k)
  | None => Some (Some {| k with _PS2ToADBMap := _PS2ToADBMapMapped k |})
  end.
