(* ===== verification/KeyboardRun.v ===== *)
(** * The keyboard driver: scan codes, macros, dispatch

    The rest of VoodooPS2Keyboard/VoodooPS2Keyboard.cpp: the interrupt routine, the
    work-loop routine that empties the ring, macro inversion, the dispatch of one
    packet to the HID system, messages, timers, LEDs, [start] and [stop].

    The system's clock, its unit, the macOS version and what the stack holds before
    it is written are parameters; the controller, the other drivers, the superclass
    and the ACPI device are the host of [Bus.v]. *)
From S2P Require Import Prelude PS2Types RingBuffer Bus OSTypes KeyTables Keyboard.
From Stdlib Require Import Ascii.

(** ** Packets

    Sixteen bytes: the key data, padding, and a 64-bit time stamp at offset 8,
    least significant byte first. *)

Definition le64 (z : Z) : list Z := map (fun i => u8 (Z.shiftr z (8 * i))) (seqZ 0 8).
Definition un_le64 (l : list Z) : Z := foldr (fun b z => b + 256 * z) 0 l.

(** [*(uint64_t* )(&packet[kPacketTimeOffset])] *)
Definition packetTime (packet : list Z) : Z :=
  un_le64 (take 8 (drop (Z.to_nat kPacketTimeOffset) packet)).
(** [clock_get_uptime((uint64_t* )(&packet[kPacketTimeOffset]))], given the time. *)
Definition stampPacket (t : Z) (packet : list Z) : list Z :=
  take (Z.to_nat kPacketTimeOffset) packet ++ le64 t ++ drop (Z.to_nat (kPacketTimeOffset + 8)) packet.

(** [memcpy(l+off, bytes, n)] and reading [n] bytes at [l+off]. *)
Definition arr_write (l : list Z) (off : Z) (bytes : list Z) : option (list Z) :=
  if (0 <=? off) && (off + Z.of_nat (length bytes) <=? Z.of_nat (length l))
  then Some (take (Z.to_nat off) l ++ bytes ++ drop (Z.to_nat off + length bytes) l) else None.
Definition arr_read (l : list Z) (off n : Z) : option (list Z) :=
  if (0 <=? off) && (off + n <=? Z.of_nat (length l))
  then Some (take (Z.to_nat n) (drop (Z.to_nat off) l)) else None.

(** ** The key bit vector *)

Definition kbv_bit (n : Z) : Z := Z.shiftl 1 (Z.land n KBV_BITS_MASK).
Definition KBV_KEYDOWN (n : Z) (v : list Z) : option (list Z) :=
  let i := Z.shiftr n KBV_BITS_SHIFT in
  x ← arr_get v i; arr_set v i (Z.lor x (kbv_bit n)).
Definition KBV_KEYUP (n : Z) (v : list Z) : option (list Z) :=
  let i := Z.shiftr n KBV_BITS_SHIFT in
  x ← arr_get v i; arr_set v i (clear_bits x (kbv_bit n)).
Definition KBV_IS_KEYDOWN (n : Z) (v : list Z) : option bool :=
  x ← arr_get v (Z.shiftr n KBV_BITS_SHIFT); Some (nz (Z.land x (kbv_bit n))).

(** What the driver does that others see. *)
Inductive KeyEvent :=
| EvKey (keyCode : Z) (goingDown : bool) (time : Z)
| EvSleepNow
| EvFKeyMode (mode : Z).

Section Run.
Context {B : Type} `{HK : KeyboardHost B}.
(** The [n]-th answer of [clock_get_uptime], its conversion, the kernel's version,
    and the bytes of a packet on the stack. *)
Context (clock : nat -> Z) (absolutetime_to_nanoseconds : Z -> Z) (version_major : Z) (junk : list Z).

Record KbdWorld := mkKbdWorld {
  kbd : ApplePS2Keyboard;
  kbus : B;
  ticks : nat;
  klog : list KeyEvent }.

Definition kget {X} (f : ApplePS2Keyboard -> X) : M KbdWorld X := gets (fun w => f (kbd w)).
Definition kset (f : ApplePS2Keyboard -> ApplePS2Keyboard) : M KbdWorld unit :=
  modify (fun w => {| w with kbd := f (kbd w) |}).
Definition kstep (f : ApplePS2Keyboard -> option ApplePS2Keyboard) : M KbdWorld unit :=
  k ← kget f; k' ← deref k; kset (fun _ => k').
Definition kemit (e : KeyEvent) : M KbdWorld unit := modify (fun w => {| w with klog := klog w ++ [e] |}).
Definition clock_get_uptime : M KbdWorld Z := fun w =>
  Ok ({| w with ticks := S (ticks w) |}, u64 (clock (ticks w))).

(** ** Bytes from the keyboard *)

Definition headSet (i x : Z) : M KbdWorld unit :=
  kstep (fun k => r ← head_set i x (_ringBuffer k); Some {| k with _ringBuffer := r |}).

(** [packet[0] = b0; packet[1] = b1;], the time stamp, [advanceHead]. *)
Definition bufferPacket (b0 b1 : Z) : M KbdWorld unit :=
  headSet 0 (u8 b0) ;; headSet 1 (u8 b1) ;;
  t ← clock_get_uptime;
  for_each (zip (seqZ kPacketTimeOffset 8) (le64 t)) (fun '(i, b) => headSet i b) ;;
  kset (fun k => {| k with _ringBuffer := advanceHead KBD_RING kPacketLength (_ringBuffer k) |}).

(** A make or break code, with the prefix seen before it. *)
Definition scanCode (extended data : Z) : M KbdWorld PS2InterruptResult :=
  let keyCodeRaw := Z.lor (Z.shiftl extended 8) (Z.land data (Z.lnot kSC_UpBit)) in
  flags ← kget (fun k => arr_get (_PS2flags k) keyCodeRaw);
  flags ← deref flags;
  down ← (if nz (Z.land flags kBreaklessKey) then ret false
          else if nz (Z.land data kSC_UpBit) then
            kstep (fun k => v ← KBV_KEYUP keyCodeRaw (_keyBitVector k); Some {| k with _keyBitVector := v |}) ;;
            ret false
          else
            d ← kget (fun k => KBV_IS_KEYDOWN keyCodeRaw (_keyBitVector k));
            d ← deref d;
            (if d : bool then ret true else
             kstep (fun k => v ← KBV_KEYDOWN keyCodeRaw (_keyBitVector k); Some {| k with _keyBitVector := v |}) ;;
             ret false));
  if down : bool then ret kPS2IR_packetBuffering else
  bufferPacket (extended + 1) data ;; ret kPS2IR_packetReady.

Definition interruptOccurred (data : Z) : M KbdWorld PS2InterruptResult :=
  lastdata ← kget _lastdata;
  if (lastdata =? kSC_Reset) && (data =? 0x00) then
    bufferPacket 0x00 kSC_Reset ;;
    kset (fun k => {| k with _extendCount := 0 |}) ;;
    ret kPS2IR_packetReady
  else
  kset (fun k => {| k with _lastdata := data |}) ;;
  if data =? kSC_Acknowledge then ret kPS2IR_packetBuffering else
  if data =? kSC_Resend then ret kPS2IR_packetBuffering else
  if data =? kSC_Extend then
    kset (fun k => {| k with _extendCount := 1 |}) ;; ret kPS2IR_packetBuffering
  else if data =? kSC_Pause then
    kset (fun k => {| k with _extendCount := 2 |}) ;; ret kPS2IR_packetBuffering
  else
  extended ← kget _extendCount;
  if extended =? 0 then scanCode extended data else
  kset (fun k => {| k with _extendCount := u8 (extended - 1) |}) ;;
  if u8 (extended - 1) =? 0 then scanCode extended data else ret kPS2IR_packetBuffering.

(** Calls to the host: bytes that arrive meanwhile go to the driver. *)
Definition onHost {X} (m : M B X) : M KbdWorld X := fun w =>
  match m (kbus w) with
  | Ok (b, x) =>
    let '(bytes, b') := bus_received b in
    match for_each bytes (fun data => interruptOccurred (u8 data) ;; ret tt) {| w with kbus := b' |} with
    | Ok (w', _) => Ok (w', x)
    | Wait => Wait
    | Crash => Crash
    end
  | Wait => Wait
  | Crash => Crash
  end.

(** ** Requests to the keyboard *)

Definition device : M KbdWorld Z := d ← kget _device; deref d.

Definition submitRequestAndBlock (l : list PS2Command) : M KbdWorld PS2Request :=
  p ← device; onHost (bus_submit {| (TPS2Request (Z.of_nat (length l)) l) with port := p |}).

(** [allocateRequest(4)], filled and submitted; the controller frees it. *)
Definition setLEDs (ledState : Z) : M KbdWorld unit :=
  p ← device;
  onHost (host_submitRequest (mkRequest p 4 NoTarget false 0
    [cmd kPS2C_WriteDataPort kDP_SetKeyboardLEDs; cmd kPS2C_ReadDataPortAndCompare kSC_Acknowledge;
     cmd kPS2C_WriteDataPort ledState; cmd kPS2C_ReadDataPortAndCompare kSC_Acknowledge])).

Definition setKeyboardEnable (enable : bool) : M KbdWorld unit :=
  submitRequestAndBlock
    [cmd kPS2C_WriteDataPort (if enable then kDP_Enable else kDP_SetDefaults);
     cmd kPS2C_ReadDataPortAndCompare kSC_Acknowledge] ;;
  ret tt.

Definition setLed (led : Z) (locked : bool) : M KbdWorld unit :=
  kset (fun k => {| k with _ledState :=
    if locked then Z.lor (_ledState k) led else clear_bits (_ledState k) led |}) ;;
  l ← kget _ledState; setLEDs l.

Definition setAlphaLockFeedback (locked : bool) : M KbdWorld unit :=
  ignore ← kget _ignoreCapsLedChange;
  if ignore : bool then kset (fun k => {| k with _ignoreCapsLedChange := false |})
  else setLed kLED_CapsLock locked.

Definition setNumLockFeedback (locked : bool) : M KbdWorld unit := setLed kLED_NumLock locked.

(** ** Special keys *)

Definition dispatchKeyboardEventX (keyCode : Z) (goingDown : bool) (time : Z) : M KbdWorld unit :=
  kemit (EvKey keyCode goingDown time).

Definition setSleepEjectTimer (time : Z) : M KbdWorld unit :=
  kstep (fun k => _ ← _sleepEjectTimer k; Some {| k with _sleepEjectTimer := Some (Some (u64 time)) |}).
Definition cancelSleepEjectTimer : M KbdWorld unit :=
  kstep (fun k => _ ← _sleepEjectTimer k; Some {| k with _sleepEjectTimer := Some None |}).

Definition onSleepEjectTimer : M KbdWorld unit :=
  f ← kget _timerFunc;
  match f with
  | kTimerSleep => kemit EvSleepNow
  | kTimerEject => now ← clock_get_uptime; dispatchKeyboardEventX 0x92 true now
  end.

(** The index of the first level that is at least [current], or the count. *)
Fixpoint findLevel (levels : list Z) (current : Z) : Z :=
  match levels with
  | [] => 0
  | l :: levels' => if current <=? l then 0 else 1 + findLevel levels' current
  end.

Definition nextLevel (levels : list Z) (current : Z) (keyCode : Z) : Z :=
  let count := Z.of_nat (length levels) in
  let index := findLevel levels current + (if keyCode =? 0x4e then 1 else -1) in
  let index := if count <=? index then count - 1 else index in
  if index <? 0 then 0 else index.

Definition modifyKeyboardBacklight (keyCode : Z) (goingDown : bool) : M KbdWorld unit :=
  provider ← kget _provider; deref (if provider : bool then Some tt else None) ;;
  levels ← kget _backlightLevels; levels ← deref levels;
  result ← onHost (host_evaluateInteger "KKQC");
  match result with
  | None => ret tt
  | Some current =>
    level ← deref (arr_get levels (nextLevel levels (s32 current) keyCode));
    when goingDown (onHost (host_evaluateObject "KKCM" (u32 level)) ;; ret tt)
  end.

Definition checkModifierState (k : ApplePS2Keyboard) (mask : Z) : bool :=
  mask =? Z.land (_PS2modifierState k) mask.
Definition checkModifierStateAny (k : ApplePS2Keyboard) (mask : Z) : bool :=
  nz (Z.land (_PS2modifierState k) mask).

(** Ctrl+Shift+Numpad(+/-) as brightness keys: the Shift and Control keys that are
    down are reported up around the event. *)
Definition reportHeldKeys (keys : list Z) (goingDown : bool) (time : Z) : M KbdWorld unit :=
  for_each keys (fun key =>
    d ← kget (fun k => KBV_IS_KEYDOWN key (_keyBitVector k)); d ← deref d;
    when d (adb ← kget (fun k => arr_get (_PS2ToADBMap k) key); adb ← deref adb;
            dispatchKeyboardEventX adb goingDown time)).

Definition brightnessHack (keyCode : Z) (goingDown : bool) (time : Z) : M KbdWorld unit :=
  state ← kget (fun k => checkModifierState k kMaskLeftWindows);
  let keys := if state : bool then [0x1d] else [0x2a; 0x1d] in
  reportHeldKeys keys false time ;;
  dispatchKeyboardEventX (if keyCode =? 0x4e then 0x90 else 0x91) goingDown time ;;
  reportHeldKeys keys true time.

(** [case 0x4e], [case 0x4a]: the key code the switch leaves. *)
Definition numpadKey (keyCode : Z) (goingDown : bool) (time : Z) : M KbdWorld Z :=
  k ← kget (fun k => k);
  if bool_decide (is_Some (_backlightLevels k)) &&
     checkModifierState k (Z.lor kMaskLeftControl kMaskLeftAlt) then
    modifyKeyboardBacklight keyCode goingDown ;; ret 0
  else if _brightnessHack k && checkModifierState k (Z.lor kMaskLeftControl kMaskLeftShift) then
    brightnessHack keyCode goingDown time ;; ret 0
  else ret keyCode.

(** [case 0x0153]: Ctrl+Alt+Delete is the power key, on release. *)
Definition deleteKey (keyCode : Z) (goingDown : bool) (time : Z) : M KbdWorld Z :=
  k ← kget (fun k => k);
  if checkModifierState k (Z.lor kMaskLeftControl kMaskLeftAlt) then
    when (negb goingDown) (
      dispatchKeyboardEventX 0x37 false time ;;
      dispatchKeyboardEventX 0x3b false time ;;
      dispatchKeyboardEventX 0x7f true time ;;
      dispatchKeyboardEventX 0x7f false time) ;;
    ret 0
  else ret keyCode.

(** [case 0x015f] *)
Definition sleepKey (goingDown : bool) : M KbdWorld Z :=
  (if goingDown then
     kset (fun k => {| k with _timerFunc := kTimerSleep |}) ;;
     k ← kget (fun k => k);
     if nz (_fkeymode k) || (_maxsleeppresstime k =? 0) then onSleepEjectTimer
     else setSleepEjectTimer (_maxsleeppresstime k * 1000000)
   else cancelSleepEjectTimer) ;;
  ret 0.

(** [case 0x0127]: toggles the function-key mode through IOHIDSystem. *)
Definition fnToggleKey (goingDown : bool) : M KbdWorld Z :=
  k ← kget (fun k => k);
  when (goingDown && _fkeymodesupported k) (kemit (EvFKeyMode (Z.b2z (negb (nz (_fkeymode k)))))) ;;
  ret 0.

(** [case 0x0137], a key that goes down: [true] if it falls through to the
    function-key toggle. *)
Definition printScreenDown (time : Z) : M KbdWorld bool :=
  k ← kget (fun k => k);
  if checkModifierStateAny k (Z.lor kMaskLeftControl kMaskRightControl) then
    when (checkModifierStateAny k (Z.lor kMaskLeftAlt kMaskRightAlt))
      (device ;; onHost (host_resetTouchpad 1) ;; ret tt) ;;
    ret true
  else if checkModifierState k kMaskLeftShift || checkModifierState k kMaskRightShift then
    dispatchKeyboardEventX 0x58 true time ;; dispatchKeyboardEventX 0x58 false time ;; ret false
  else if checkModifierStateAny k (Z.lor (Z.lor kMaskRightShift kMaskLeftShift) (Z.lor kMaskRightAlt kMaskLeftAlt))
  then ret false
  else if checkModifierStateAny k (Z.lor kMaskLeftWindows kMaskRightWindows) then
    kset (fun k => {| k with _disableInput := negb (_disableInput k) |}) ;;
    device ;; onHost (host_setDisableTouchpad (_disableInput k)) ;; ret false
  else
    device ;; enabled ← onHost (host_getDisableTouchpad false);
    onHost (host_setDisableTouchpad (negb enabled)) ;; ret false.

(** [origKeyCode] is the key code as this case finds it. *)
Definition printScreenKey (keyCode : Z) (goingDown : bool) (time : Z) : M KbdWorld Z :=
  remap ← kget _remapPrntScr;
  if negb remap then ret keyCode else
  let origKeyCode := keyCode in
  if negb goingDown then ret 0 else
  through ← printScreenDown time;
  if negb through || negb (origKeyCode =? 0x0137) then ret 0 else fnToggleKey goingDown.

(** [case 0x0054], [case 0x0128]: Alt is taken to be down. *)
Definition sysRqKey (goingDown : bool) (time : Z) : M KbdWorld Z :=
  kset (fun k => {| k with _PS2modifierState :=
    Z.lor (clear_bits (_PS2modifierState k) kMaskRightAlt) kMaskLeftAlt |}) ;;
  printScreenKey 0x0137 goingDown time.

(** The switch on the key code: the key code it leaves, or the result the function
    returns at once. *)
Definition specialKey (keyCode scan : Z) (goingDown : bool) (time : Z) : M KbdWorld (Z + bool) :=
  k ← kget (fun k => k);
  if keyCode =? 0x45 then
    if _numLockSupport k && (scan =? 0xc5) then
      n ← onHost host_numLock; onHost (host_setNumLock (negb n)) ;; ret (inr true)
    else if _numLockSupport k && (scan =? 0x45) then ret (inr false)
    else ret (inl keyCode)
  else
  c ← (if (keyCode =? 0x4e) || (keyCode =? 0x4a) then numpadKey keyCode goingDown time
       else if keyCode =? 0x0153 then deleteKey keyCode goingDown time
       else if keyCode =? 0x015f then sleepKey goingDown
       else if keyCode =? 0x0054 then
         if negb (_remapPrntScr k) then ret keyCode else sysRqKey goingDown time
       else if keyCode =? 0x0128 then sysRqKey goingDown time
       else if keyCode =? 0x0137 then printScreenKey keyCode goingDown time
       else if keyCode =? 0x0127 then fnToggleKey goingDown
       else ret keyCode);
  ret (inl c).

(** ** Dispatching one packet *)

(** Modifier tracking; a shift by 32 or more has no defined result. *)
Definition trackModifier (keyCodeRaw : Z) (goingDown : bool) : M KbdWorld unit :=
  kstep (fun k =>
    flags ← arr_get (_PS2flags k) keyCodeRaw;
    let bit := u8 (Z.shiftr flags 8) in
    if bit =? 0 then Some k else
    if 32 <? bit then None else
    let mask := u16 (Z.shiftl 1 (bit - 1)) in
    Some {| k with _PS2modifierState :=
      if goingDown then Z.lor (_PS2modifierState k) mask else clear_bits (_PS2modifierState k) mask |}).

Definition rkaMethod (n : Z) : string :=
  String "R" (String "K" (String "A" (String
    (ascii_of_nat (Z.to_nat (if n <? 10 then n + code "0" else n - 10 + code "A"))) EmptyString))).

(** Codes e0f0 to e0ff call back into the ACPI device. *)
Definition callAcpi (keyCode : Z) (goingDown : bool) : M KbdWorld unit :=
  provider ← kget _provider;
  when ((0x01f0 <=? keyCode) && (keyCode <=? 0x01ff) && provider)
    (onHost (host_evaluateObject (rkaMethod (keyCode - 0x01f0)) (Z.b2z goingDown)) ;; ret tt).

(** [case 0x92]: the eject key, without modifiers, is held before it counts. *)
Definition ejectKey (adbKeyCode : Z) (goingDown : bool) : M KbdWorld bool :=
  k ← kget (fun k => k);
  if negb (adbKeyCode =? 0x92) || negb (_PS2modifierState k =? 0) then ret false else
  if goingDown then
    kset (fun k => {| k with _timerFunc := kTimerEject |}) ;;
    (if _f12ejectdelay k =? 0 then onSleepEjectTimer else setSleepEjectTimer (_f12ejectdelay k * 1000000)) ;;
    ret true
  else cancelSleepEjectTimer ;; ret false.

(** A down and an up event, each with a time of its own. *)
Definition pressAndRelease (adb : Z) : M KbdWorld unit :=
  now ← clock_get_uptime; dispatchKeyboardEventX adb true now ;;
  now ← clock_get_uptime; dispatchKeyboardEventX adb false now.

(** The work-around for caps lock. *)
Definition capsLock (adb : Z) (goingDown : bool) : M KbdWorld unit :=
  when (goingDown || (18 <=? version_major))
    (kset (fun k => {| k with _ignoreCapsLedChange := true |}) ;; pressAndRelease adb) ;;
  when (goingDown && (version_major <? 18))
    (first ← kget firsttime;
     when (negb first) (pressAndRelease adb) ;;
     kset (fun k => {| k with firsttime := false |})).

(** From the key code to the HID system. *)
Definition dispatchKeyCode (keyCodeRaw keyCode : Z) (goingDown : bool) (time : Z) : M KbdWorld bool :=
  disabled ← kget _disableInput;
  let keyCode := if disabled && goingDown then 0 else keyCode in
  adb ← kget (fun k => arr_get (_PS2ToADBMap k) keyCode); adb ← deref adb;
  eatKey ← ejectKey adb goingDown;
  device ;;
  info ← onHost (host_notifyKeyPressed (mkKeyInfo (absolutetime_to_nanoseconds time) adb goingDown eatKey));
  if (adb =? 0x39) && (16 <=? version_major) then capsLock adb goingDown ;; ret true else
  when (nz keyCode && negb (PS2Types.eatKey info))
    (flags ← kget (fun k => arr_get (_PS2flags k) keyCodeRaw); flags ← deref flags;
     let breakless := nz (Z.land flags kBreaklessKey) in
     when (goingDown || negb breakless) (dispatchKeyboardEventX adb goingDown time) ;;
     when (goingDown && breakless) (dispatchKeyboardEventX adb false time)) ;;
  ret true.

Definition dispatchScanCode (keyCodeRaw scan : Z) (goingDown : bool) (time : Z) : M KbdWorld bool :=
  keyCode ← kget (fun k => arr_get (_PS2ToPS2Map k) keyCodeRaw); keyCode ← deref keyCode;
  if keyCodeRaw =? 0x012a then ret false else
  trackModifier keyCodeRaw goingDown ;;
  callAcpi keyCode goingDown ;;
  r ← specialKey keyCode scan goingDown time;
  match r with
  | inr result => ret result
  | inl keyCode => dispatchKeyCode keyCodeRaw keyCode goingDown time
  end.

(** Hangul and Hanja keys only make, so both events are sent. *)
Definition hangulHanja (scan : Z) : M KbdWorld bool :=
  adb ← kget (fun k => arr_get (_PS2ToADBMap k) scan); adb ← deref adb;
  pressAndRelease adb ;; ret true.

Definition dispatchKeyboardEventWithPacket (packet : list Z) : M KbdWorld bool :=
  p0 ← deref (arr_get packet 0);
  scan ← deref (arr_get packet 1);
  let extended := u8 (p0 - 1) in
  let keyCodeRaw := Z.land scan (Z.lnot kSC_UpBit) in
  let goingDown := negb (nz (Z.land scan kSC_UpBit)) in
  let time := packetTime packet in
  if extended =? 0 then
    if (scan =? 0xf2) || (scan =? 0xf1) then hangulHanja scan
    else dispatchScanCode keyCodeRaw scan goingDown time
  else dispatchScanCode (keyCodeRaw + KBV_NUM_SCANCODES) scan goingDown time.

(** ** Macro inversion *)

(** [count] packets of the buffer against the key data of a macro. *)
Fixpoint compareMacro (buffer data : list Z) (count : nat) : option bool :=
  match count with
  | O => Some true
  | S n =>
    b0 ← arr_get buffer 0; d0 ← arr_get data 0;
    b1 ← arr_get buffer 1; d1 ← arr_get data 1;
    if negb (b0 =? d0) || negb (b1 =? d1) then Some false
    else compareMacro (drop (Z.to_nat kPacketLength) buffer) (drop (Z.to_nat kPacketKeyDataLength) data) n
  end.

Definition cancelMacroTimer : M KbdWorld unit :=
  kstep (fun k => _ ← _macroTimer k; Some {| k with _macroTimer := Some None |}).
Definition setMacroTimer (time : Z) : M KbdWorld unit :=
  kstep (fun k => _ ← _macroTimer k; Some {| k with _macroTimer := Some (Some time) |}).

(** The [i]-th packet of the macro buffer. *)
Definition macroPacket (i : Z) : M KbdWorld (list Z) :=
  b ← kget _macroBuffer; b ← deref b;
  deref (arr_read b (i * kPacketLength) kPacketLength).

(** Every buffered packet goes out as it is. *)
Definition dispatchInvertBuffer : M KbdWorld unit :=
  n ← kget _macroCurrent;
  for_each (seqZ 0 n) (fun i => p ← macroPacket i; dispatchKeyboardEventWithPacket p ;; ret tt) ;;
  kset (fun k => {| k with _macroCurrent := 0 |}) ;;
  cancelMacroTimer.

(** Whether [now] is too long after the last buffered packet. *)
Definition tooLate (now : Z) : M KbdWorld bool :=
  n ← kget _macroCurrent;
  p ← macroPacket (n - 1);
  max ← kget _macroMaxTime;
  ret (max <? u64 (absolutetime_to_nanoseconds now - absolutetime_to_nanoseconds (packetTime p))).

(** The modifiers a macro asks for: any of the mask, or exactly the ones given. *)
Definition macroModifiers (data : list Z) (state : Z) : option bool :=
  m0 ← arr_get data (kModifierBytesOffset + 0); m1 ← arr_get data (kModifierBytesOffset + 1);
  c0 ← arr_get data (kModifierBytesOffset + 2); c1 ← arr_get data (kModifierBytesOffset + 3);
  let mask := u16 (Z.shiftl m0 8 + m1) in
  let compare := u16 (Z.shiftl c0 8 + c1) in
  Some (((0xFFFF =? compare) && nz (Z.land state mask)) || (Z.land state mask =? compare)).

(** What one macro says to the buffered packets. *)
Inductive MacroMatch := NoMatch | PartialMatch | ExactMatch.

Definition matchMacro (data buffer : list Z) (buffered state : Z) : option MacroMatch :=
  let total := buffered * kPacketKeyDataLength in
  let length := Z.of_nat (length data) - kPrefixBytes in
  if negb (total <=? length) then Some NoMatch else
  same ← compareMacro buffer (drop (Z.to_nat kSequenceBytesOffset) data) (Z.to_nat buffered);
  if negb same then Some NoMatch else
  if negb (total =? length) then Some PartialMatch else
  ok ← macroModifiers data state;
  Some (if ok : bool then ExactMatch else NoMatch).

(** The first macro that matches. *)
Fixpoint findMacro (macros : list (list Z)) (buffer : list Z) (buffered state : Z)
  : option (MacroMatch * list Z) :=
  match macros with
  | [] => Some (NoMatch, [])
  | data :: macros' =>
    m ← matchMacro data buffer buffered state;
    match m with
    | NoMatch => findMacro macros' buffer buffered state
    | _ => Some (m, data)
    end
  end.

(** The macro's output in the buffer's first packet, which keeps its time stamp. *)
Definition putOutput (data buffer : list Z) : option (list Z) :=
  o0 ← arr_get data (kOutputBytesOffset + 0); o1 ← arr_get data (kOutputBytesOffset + 1);
  b ← arr_set buffer 0 o0; arr_set b 1 o1.

Definition storeMacroPacket (packet : list Z) : M KbdWorld unit :=
  kstep (fun k =>
    b ← _macroBuffer k;
    b' ← arr_write b (_macroCurrent k * kPacketLength) packet;
    Some {| k with _macroBuffer := Some b' |}).

(** The rest of [invertMacros], once the packet is in the buffer. *)
Definition searchMacros (macros : list (list Z)) : M KbdWorld bool :=
  buffered ← kget (fun k => _macroCurrent k + 1);
  r ← kget (fun k => b ← _macroBuffer k; findMacro macros b buffered (_PS2modifierState k));
  '(m, data) ← deref r;
  match m with
  | ExactMatch =>
    kstep (fun k => b ← _macroBuffer k; b' ← putOutput data b; Some {| k with _macroBuffer := Some b' |}) ;;
    p ← macroPacket 0;
    dispatchKeyboardEventWithPacket p ;;
    cancelMacroTimer ;;
    kset (fun k => {| k with _macroCurrent := 0 |}) ;;
    ret true
  | PartialMatch =>
    cancelMacroTimer ;;
    max ← kget _macroMaxTime; setMacroTimer max ;;
    kset (fun k => {| k with _macroCurrent := buffered |}) ;;
    ret true
  | NoMatch =>
    n ← kget _macroCurrent;
    when (0 <? n) dispatchInvertBuffer ;;
    ret false
  end.

Definition invertMacros (packet : list Z) : M KbdWorld bool :=
  k ← kget (fun k => k);
  macros ← deref (_macroInversion k);
  if negb (bool_decide (is_Some (_macroTimer k))) || negb (bool_decide (is_Some (_macroBuffer k)))
  then ret false else
  when (0 <? _macroCurrent k)
    (late ← tooLate (packetTime packet); when late dispatchInvertBuffer) ;;
  storeMacroPacket packet ;;
  searchMacros macros.

(** [if (!_macroInversion || !invertMacros(packet)) dispatchKeyboardEventWithPacket(packet);] *)
Definition handlePacket (packet : list Z) : M KbdWorld unit :=
  inversion ← kget _macroInversion;
  inverted ← (match inversion with None => ret false | Some _ => invertMacros packet end);
  when (negb inverted) (dispatchKeyboardEventWithPacket packet ;; ret tt).

(** ** The work loop *)

(** The packet at [tail()]. *)
Definition tailPacket (k : ApplePS2Keyboard) : list Z := tail_slice kPacketLength (_ringBuffer k).

Definition packetReadyRound (_ : unit) : M KbdWorld (unit + unit) :=
  n ← kget (fun k => count KBD_RING (_ringBuffer k));
  if n <? kPacketLength then ret (inr tt) else
  packet ← kget tailPacket;
  p0 ← deref (arr_get packet 0);
  when (negb (p0 =? 0x00)) (handlePacket packet) ;;
  kset (fun k => {| k with _ringBuffer := advanceTail KBD_RING kPacketLength (_ringBuffer k) |}) ;;
  ret (inl tt).

(** At most [rounds] rounds: the keyboard may go on sending while packets are
    dispatched, so no number is enough for every host. *)
Definition packetReady (rounds : nat) : M KbdWorld unit := iter rounds packetReadyRound tt.

(** What has been kept back for too long goes out. *)
Definition expireMacro : M KbdWorld unit :=
  n ← kget _macroCurrent;
  when (0 <? n)
    (now ← clock_get_uptime; late ← tooLate now; when late dispatchInvertBuffer).

Definition onMacroTimer (rounds : nat) : M KbdWorld unit := packetReady rounds ;; expireMacro.

(** A timer event source calls its action once per timeout. *)
Definition macroTimerFires (rounds : nat) : M KbdWorld unit :=
  t ← kget _macroTimer;
  match t with
  | Some (Some _) => kset (fun k => {| k with _macroTimer := Some None |}) ;; onMacroTimer rounds
  | _ => ret tt
  end.
Definition sleepEjectTimerFires : M KbdWorld unit :=
  t ← kget _sleepEjectTimer;
  match t with
  | Some (Some _) => kset (fun k => {| k with _sleepEjectTimer := Some None |}) ;; onSleepEjectTimer
  | _ => ret tt
  end.

(** ** Messages *)

(** A packet made up by the driver: its key data, and a time stamp unless [None]. *)
Definition stackPacket (b0 b1 : Z) (time : option Z) : list Z :=
  let p := u8 b0 :: u8 b1 :: drop 2 junk in
  match time with Some t => stampPacket t p | None => p end.

(** [kIOACPIMessageDeviceNotification] *)
Definition acpiNotification (argument : option Z) : M KbdWorld unit :=
  match argument with
  | None => ret tt
  | Some arg =>
    if negb (Z.land arg 0xFFFF0000 =? 0) then ret tt else
    let b0 := u8 (Z.shiftr arg 8) in
    let b1 := u8 arg in
    when ((b0 =? 1) || (b0 =? 2))
      (t ← clock_get_uptime; handlePacket (stackPacket b0 b1 (Some t))) ;;
    when ((b0 =? 3) || (b0 =? 4))
      (t ← clock_get_uptime; handlePacket (stackPacket (b0 - 2) b1 (Some t)) ;;
       t ← clock_get_uptime; handlePacket (stackPacket (b0 - 2) (Z.lor b1 0x80) (Some t)))
  end.

(** The messages: an ACPI notification, or one of the keyboard's own, whose argument
    may be null. *)
Inductive KbdMessage :=
| AcpiNotification (argument : option Z)
| GetKeyboardStatus (argument : bool)
| SetKeyboardStatus (enable : option bool)
| NotifyKeystroke (keystroke : option PS2KeyInfo)
| UnknownMessage.

(** What a message leaves in the data its argument points to. *)
Inductive KbdReply :=
| NoReply
| StatusReply (enabled : bool)
| KeystrokeReply (keystroke : PS2KeyInfo).

Definition message (m : KbdMessage) : M KbdWorld KbdReply :=
  match m with
  | AcpiNotification argument => acpiNotification argument ;; ret NoReply
  | GetKeyboardStatus argument =>
    if argument then (disabled ← kget _disableInput; ret (StatusReply (negb disabled))) else ret NoReply
  | SetKeyboardStatus None => ret NoReply
  | SetKeyboardStatus (Some enable) =>
    disabled ← kget _disableInput;
    when (Bool.eqb enable disabled) (kset (fun k => {| k with _disableInput := negb enable |})) ;;
    ret NoReply
  | NotifyKeystroke None => ret NoReply
  | NotifyKeystroke (Some keystroke) =>
    if eatKey keystroke then ret NoReply else
    dispatchKeyboardEventX (adbKeyCode keystroke) (goingDown keystroke) (ki_time keystroke) ;;
    ret (KeystrokeReply {| keystroke with eatKey := true |})
  | UnknownMessage => ret NoReply
  end.

(** ** Start, stop and power *)

(** A key that is down goes up. *)
Definition releaseKey (scan : Z) : M KbdWorld unit :=
  d ← kget (fun k => KBV_IS_KEYDOWN scan (_keyBitVector k)); d ← deref d;
  when d (dispatchKeyboardEventWithPacket
    (stackPacket (if scan <? KBV_NUM_SCANCODES then 1 else 2) (Z.lor scan kSC_UpBit) None) ;; ret tt).

Definition initKeyboard : M KbdWorld unit :=
  submitRequestAndBlock
    [cmd kPS2C_WriteDataPort kDP_SetDefaults; cmd kPS2C_ReadDataPortAndCompare kSC_Acknowledge] ;;
  for_each (seqZ 0 KBV_NUM_KEYCODES) releaseKey ;;
  kset (fun k => {| k with _keyBitVector := replicate (Z.to_nat KBV_NUNITS) 0; _PS2modifierState := 0 |}) ;;
  l ← kget _ledState; setLEDs l ;;
  kset (fun k => {| k with _extendCount := 0; _ringBuffer := reset (_ringBuffer k) |}) ;;
  setKeyboardEnable true ;;
  device ;; onHost (bus_setCommandByte kCB_TranslateMode 0) ;; ret tt.

Definition setDevicePowerState (whatToDo : Z) : M KbdWorld unit :=
  if whatToDo =? kPS2C_DisableDevice then setKeyboardEnable false
  else if whatToDo =? kPS2C_EnableDevice then initKeyboard
  else ret tt.

(** What the system gives [start]: whether the superclass starts, whether the work
    loop, the command gate, the sleep timer and the macro timer exist, and the ACPI device with
    the result of its [KKCL] method ([None]: no backlight methods, or an error). *)
Record StartEnv := mkStartEnv {
  env_super : bool;
  env_loop : bool;
  env_gate : bool;
  env_sleepTimer : bool;
  env_macroTimer : bool;
  env_acpi : bool;
  env_KKCL : option OSObject }.

(** The backlight levels: at least the two defaults, anything but a number is 0. *)
Definition backlightLevels (env : StartEnv) : option (list Z) :=
  if negb (env_acpi env) then None else
  result ← env_KKCL env;
  array ← asArray result;
  if Z.of_nat (length array) <? 2 then None else
  Some (map (fun o => match asNumber o with Some z => s32 (u32 z) | None => 0 end) array).

Definition start (p : Z) (env : StartEnv) : M KbdWorld bool :=
  if negb (env_super env) then ret false else
  kset (fun k => {| k with _device := Some p |}) ;;
  kset (fun k => {| k with _cmdGate := env_gate env |}) ;;
  if negb (env_loop env) || negb (env_gate env) then kset (fun k => {| k with _device := None |}) ;; ret false else
  if negb (env_sleepTimer env) then
    kset (fun k => {| k with _sleepEjectTimer := None; _cmdGate := false; _device := None |}) ;; ret false
  else
  kset (fun k => {| k with _sleepEjectTimer := Some None; _provider := env_acpi env |}) ;;
  kset (fun k => match backlightLevels env with
                 | Some l => {| k with _backlightLevels := Some l |} | None => k end) ;;
  onHost bus_lock ;;
  initKeyboard ;;
  boot ← kget _numLockOnAtBoot;
  when boot (onHost (host_setNumLock true)) ;;
  kset (fun k => {| k with _macroTimer := if env_macroTimer env then Some None else None |}) ;;
  onHost bus_installInterrupt ;;
  kset (fun k => {| k with _interruptHandlerInstalled := true |}) ;;
  onHost bus_unlock ;;
  onHost bus_installPower ;;
  kset (fun k => {| k with _powerControlHandlerInstalled := true |}) ;;
  ret true.

(** [pWorkLoop]: whether the driver still has a work loop. *)
Definition stop (pWorkLoop : bool) : M KbdWorld unit :=
  setKeyboardEnable false ;;
  when pWorkLoop (kset (fun k =>
    {| k with _cmdGate := false; _sleepEjectTimer := None; _macroTimer := None |})) ;;
  installed ← kget _interruptHandlerInstalled;
  when installed (onHost bus_uninstallInterrupt) ;;
  kset (fun k => {| k with _interruptHandlerInstalled := false |}) ;;
  power ← kget _powerControlHandlerInstalled;
  when power (onHost bus_uninstallPower) ;;
  kset (fun k => {| k with _powerControlHandlerInstalled := false; _device := None; _provider := false;
    _backlightLevels := None; _keysStandard := None; _keysSpecial := None;
    _macroInversion := None; _macroTranslation := None; _macroBuffer := None |}).

End Run.
