(* ===== verification/KeyboardInv.v ===== *)
(** * The keyboard driver: invariants

    What every part of the keyboard driver keeps true of its object ([base_ok]: the
    arrays have their lengths and hold indices that are in bounds), that [init] and
    the loaders establish it for any configuration, and the rules the safety proofs
    use: [steady p timers m c] says that [c], run by a driver attached to port [p]
    with macro state [m], does not crash and leaves such a driver. *)
From S2P Require Import Prelude PS2Types RingBuffer Bus OSTypes KeyTables Keyboard KeyboardRun.
From Stdlib Require Import Ascii.

(** ** The object *)

(** A table index, and flags whose modifier number is one of the ten. *)
Definition in_table (z : Z) : Prop := 0 <= z < 512.
Definition flags_ok (f : Z) : Prop := 0 <= f /\ Z.shiftr f 8 <= 10.

Record base_ok (k : ApplePS2Keyboard) : Prop := {
  ko_port : forall p, _device k = Some p -> 0 <= p < kPS2MuxMaxIdx;
  ko_bits : length (_keyBitVector k) = 16%nat;
  ko_extend : 0 <= _extendCount k <= 2;
  ko_ring : aligned KBD_RING kPacketLength (_ringBuffer k);
  ko_ring_bytes : Forall is_byte (m_buffer (_ringBuffer k));
  ko_map : length (_PS2ToPS2Map k) = 512%nat;
  ko_map_in : Forall in_table (_PS2ToPS2Map k);
  ko_flags : length (_PS2flags k) = 512%nat;
  ko_flags_ok : Forall flags_ok (_PS2flags k);
  ko_adb : length (_PS2ToADBMap k) = 512%nat;
  ko_mapped : length (_PS2ToADBMapMapped k) = 512%nat;
  ko_levels : forall l, _backlightLevels k = Some l -> _provider k = true /\ (0 < length l)%nat }.

(** The macro part of the object. *)
Record MacroState := mkMacroState {
  ms_inversion : option (list (list Z));
  ms_buffer : option (list Z);
  ms_current : Z;
  ms_timer : option (option Z) }.

Definition macros (k : ApplePS2Keyboard) : MacroState :=
  mkMacroState (_macroInversion k) (_macroBuffer k) (_macroCurrent k) (_macroTimer k).

(** A buffer goes with macros and has room for a whole one (twice over: it is sized
    in packets for a length in bytes); a packet is kept back only while a macro is
    longer than what is kept. *)
Record macro_ok (m : MacroState) : Prop := {
  mo_valid : forall l, ms_inversion m = Some l -> l <> [] /\
    Forall (fun d => validMacro d = true /\ Forall is_byte d) l;
  mo_buffer : forall b, ms_buffer m = Some b -> Forall is_byte b /\ exists l, ms_inversion m = Some l /\
    Z.of_nat (length b) = longestMacro l * kPacketLength;
  mo_nonneg : 0 <= ms_current m;
  mo_room : 0 < ms_current m -> is_Some (ms_timer m) /\ is_Some (ms_buffer m) /\ exists l,
    ms_inversion m = Some l /\ (ms_current m + 1) * kPacketKeyDataLength <= longestMacro l }.

(** A driver that has started on port [p]; [timers] while it has its sleep timer. *)
Record attached (p : Z) (timers : bool) (m : MacroState) (k : ApplePS2Keyboard) : Prop := {
  at_base : base_ok k;
  at_device : _device k = Some p;
  at_sleep : timers = true -> is_Some (_sleepEjectTimer k);
  at_macros : macros k = m }.

Ltac kbd_fields :=
  repeat match goal with
    | H : attached _ _ _ _ |- _ => destruct H
    | H : base_ok _ |- _ => destruct H
    end;
  repeat (split; simpl; try done; try lia).

(** ** [init] and the loaders *)

Lemma Forall_seqZ_in_table : Forall in_table (seqZ 0 512).
Proof. apply Forall_forall. intros x Hx%elem_of_seqZ. unfold in_table. lia. Qed.

Lemma stockFlags_ok : Forall flags_ok _PS2flagsStock.
Proof. apply (bool_decide_unpack _). vm_compute. exact I. Qed.

Lemma init_ok : base_ok init.
Proof.
  split; try done; [|apply Forall_seqZ_in_table|apply stockFlags_ok].
  apply (Forall_replicate is_byte (Z.to_nat KBD_RING) 0). unfold is_byte. lia.
Qed.

Lemma u8_mask z : 0 <= Z.land z 0xff < 256.
Proof. change 0xff with (Z.ones 8). rewrite Z.land_ones by lia. apply Z.mod_pos_bound. lia. Qed.

Lemma tableIndex_in scan ex : in_table (tableIndex scan ex).
Proof.
  pose proof (u8_mask scan). unfold in_table, tableIndex.
  change KBV_NUM_SCANCODES with 256. destruct (ex =? 0xe0); lia.
Qed.

(** One lemma for the three loaders: an entry that fits leaves a table of the same
    length whose elements satisfy [P]. *)
Section Loader.
Context (P : Z -> Prop) (load : list Z -> string -> option (list Z)).

Definition table_ok (t : list Z) : Prop := length t = 512%nat /\ Forall P t.

Lemma loadEntries_ok t pArray :
  (forall t psz, table_ok t -> exists t', load t psz = Some t' /\ table_ok t') ->
  table_ok t -> exists t', loadEntries load t pArray = Some t' /\ table_ok t'.
Proof.
  intros Hl Ht. unfold loadEntries. destruct pArray as [l|]; [|eauto].
  generalize (Keyboard.entries l). intros es. revert t Ht.
  induction es as [|psz es IH]; intros t Ht; [eauto|]. simpl.
  destruct (Hl t psz Ht) as (t' & E & Ht'). rewrite E. by apply IH.
Qed.

Lemma table_set t i x :
  table_ok t -> in_table i -> P x -> exists t', arr_set t i x = Some t' /\ table_ok t'.
Proof.
  intros [Hl HF] Hi Hx. unfold in_table in Hi. rewrite arr_set_Some by lia.
  eexists. split; [done|]. split; [by rewrite length_insert|by apply Forall_insert].
Qed.

Lemma table_get t i : table_ok t -> in_table i -> exists x, arr_get t i = Some x /\ P x.
Proof.
  intros [Hl HF] Hi. unfold in_table in Hi. destruct (arr_get_Some t i) as (x & E & E'); [lia|].
  exists x. split; [done|]. by eapply Forall_lookup_1.
Qed.

End Loader.

Lemma loadPS2Entry_ok t psz :
  table_ok in_table t -> exists t', loadPS2Entry t psz = Some t' /\ table_ok in_table t'.
Proof.
  intros Ht. unfold loadPS2Entry. destruct (parseRemap psz) as [[a b]|]; [|eauto].
  destruct (negb _ || negb _); [eauto|]. apply table_set; [done|apply tableIndex_in..].
Qed.

Lemma loadADBEntry_ok P t psz :
  (forall x, is_byte x -> P x) ->
  table_ok P t -> exists t', loadADBEntry t psz = Some t' /\ table_ok P t'.
Proof.
  intros HP Ht. unfold loadADBEntry. destruct (parseRemap psz) as [[a b]|]; [|eauto].
  destruct (negb _ || _); [eauto|]. apply table_set; [done|apply tableIndex_in|apply HP, u8_range].
Qed.

Lemma flags_breakless f : flags_ok f -> flags_ok (Z.lor f kBreaklessKey).
Proof.
  intros [H0 H1]. split; [apply Z.lor_nonneg; unfold kBreaklessKey; lia|].
  rewrite Z.shiftr_lor. change (Z.shiftr kBreaklessKey 8) with 0. by rewrite Z.lor_0_r.
Qed.

Lemma loadBreaklessEntry_ok t psz :
  table_ok flags_ok t -> exists t', loadBreaklessEntry t psz = Some t' /\ table_ok flags_ok t'.
Proof.
  intros Ht. unfold loadBreaklessEntry. destruct (parseHex _ _ _) as [[a r]|]; [|eauto].
  destruct (negb _); [eauto|].
  destruct (table_get flags_ok t _ Ht (tableIndex_in a (u8 (Z.shiftr a 8)))) as (f & E & Hf).
  simpl. rewrite E. simpl. apply table_set; [done|apply tableIndex_in|by apply flags_breakless].
Qed.

(** ** Configuration keeps the object well formed *)

Record kept (k k' : ApplePS2Keyboard) : Prop := {
  kp_base : base_ok k';
  kp_device : _device k' = _device k;
  kp_sleep : _sleepEjectTimer k' = _sleepEjectTimer k;
  kp_macros : macros k' = macros k;
  kp_levels : _backlightLevels k' = _backlightLevels k }.

Definition keeping (f : ApplePS2Keyboard -> option ApplePS2Keyboard) : Prop :=
  forall k, base_ok k -> exists k', f k = Some k' /\ kept k k'.

Lemma keeping_Some f : (forall k, base_ok k -> kept k (f k)) -> keeping (fun k => Some (f k)).
Proof. intros Hf k Hk. eauto. Qed.

Lemma keeping_bind f g : keeping f -> keeping g -> keeping (fun k => k' ← f k; g k').
Proof.
  intros Hf Hg k Hk. destruct (Hf k Hk) as (k1 & E1 & [B1 D1 S1 M1 L1]). rewrite E1. simpl.
  destruct (Hg k1 B1) as (k2 & E2 & [B2 D2 S2 M2 L2]). exists k2. split; [done|]. split; congruence.
Qed.

Lemma keeping_if (c : ApplePS2Keyboard -> bool) f g :
  keeping f -> keeping g -> keeping (fun k => if c k then f k else g k).
Proof. intros Hf Hg k Hk. destruct (c k); auto. Qed.

(** Storing a table. *)
Lemma keeping_table get set (P : Z -> Prop) load pArray :
  (forall k, base_ok k -> table_ok P (get k)) ->
  (forall k t, base_ok k -> table_ok P t -> kept k (set k t)) ->
  (forall t psz, table_ok P t -> exists t', load t psz = Some t' /\ table_ok P t') ->
  keeping (fun k => m ← loadEntries load (get k) (pArray k); Some (set k m)).
Proof.
  intros Hg Hs Hl k Hk. destruct (loadEntries_ok P load (get k) (pArray k) Hl (Hg k Hk)) as (t & -> & Ht).
  simpl. eauto.
Qed.

Ltac kept_fields :=
  intros; match goal with H : base_ok _ |- _ => destruct H end;
  repeat match goal with H : table_ok _ _ |- _ => destruct H end;
  split; [split; simpl; try done|done..].

Lemma keeping_loadCustomPS2Map pArray : keeping (loadCustomPS2Map pArray).
Proof.
  refine (keeping_table _PS2ToPS2Map (fun k m => {| k with _PS2ToPS2Map := m |})
    in_table loadPS2Entry (fun _ => pArray) _ _ loadPS2Entry_ok); [intros k []; by split|kept_fields].
Qed.

Lemma keeping_loadBreaklessPS2 dict name : keeping (loadBreaklessPS2 dict name).
Proof.
  refine (keeping_table _PS2flags (fun k m => {| k with _PS2flags := m |})
    flags_ok loadBreaklessEntry (fun _ => getArray dict name) _ _ loadBreaklessEntry_ok);
    [intros k []; by split|kept_fields].
Qed.

Lemma keeping_loadCustomADBMap dict name : keeping (loadCustomADBMap dict name).
Proof.
  refine (keeping_table _PS2ToADBMapMapped (fun k m => {| k with _PS2ToADBMapMapped := m |})
    (fun _ => True) loadADBEntry (fun _ => getArray dict name) _ _ _).
  - intros k []. split; [done|by apply Forall_true].
  - kept_fields.
  - intros. by apply loadADBEntry_ok.
Qed.

Lemma keeping_setADB dst x : in_table dst -> keeping (setADB dst x).
Proof.
  intros Hd k Hk. unfold setADB. destruct (table_set (fun _ => True) (_PS2ToADBMap k) dst x)
    as (t & -> & Ht); [split; [apply Hk|by apply Forall_true]|done|done|].
  simpl. eexists. split; [done|]. revert Hk Ht. kept_fields.
Qed.

Lemma keeping_copyADB dst src : in_table dst -> in_table src -> keeping (copyADB dst src).
Proof.
  intros Hd Hs k Hk. unfold copyADB. destruct (table_get (fun _ => True) (_PS2ToADBMapMapped k) src)
    as (x & -> & _); [split; [apply Hk|by apply Forall_true]|done|].
  simpl. by apply keeping_setADB.
Qed.

Lemma keeping_ifBoolean dict key f : (forall b, keeping (f b)) -> keeping (ifBoolean dict key f).
Proof. intros Hf k Hk. unfold ifBoolean. destruct (getBoolean dict key); [by apply Hf|]. by exists k. Qed.

Create HintDb kbd.
#[export] Hint Resolve keeping_loadCustomPS2Map keeping_loadBreaklessPS2 keeping_loadCustomADBMap : kbd.

(** Tables at constant indices. *)
Ltac keeping_copies :=
  repeat (apply keeping_bind; [apply keeping_copyADB; done|]); apply keeping_copyADB; done.

Lemma keeping_setSwapCapsLock on : keeping (setSwapCapsLock on).
Proof. destruct on; unfold setSwapCapsLock; keeping_copies. Qed.

Lemma keeping_setSwapCommandOption on : keeping (setSwapCommandOption on).
Proof.
  assert (Hs : keeping (fun k => Some {| k with _swapcommandoption := on |})).
  { apply keeping_Some. kept_fields. }
  intros k Hk. destruct (Hs k Hk) as (k1 & [= <-] & [B D S M L]). unfold setSwapCommandOption.
  assert (Hc : keeping (fun k => if on
    then (k ← copyADB 0x38 0x15b k; k ← copyADB 0x15b 0x38 k; k ← copyADB 0x138 0x15c k; copyADB 0x15c 0x138 k)
    else (k ← copyADB 0x38 0x38 k; k ← copyADB 0x15b 0x15b k; k ← copyADB 0x138 0x138 k; copyADB 0x15c 0x15c k)))
    by (destruct on; keeping_copies).
  destruct (Hc _ B) as (k2 & E & [B2 D2 S2 M2 L2]). exists k2. split; [exact E|]. split; [done|congruence..].
Qed.

Lemma keeping_setHangulHanja on : keeping (setHangulHanja on).
Proof.
  destruct on; unfold setHangulHanja; [keeping_copies|].
  apply keeping_bind; [|keeping_copies]. intros k Hk. destruct (_swapcommandoption k); by apply keeping_copyADB.
Qed.

Lemma keeping_setISOLayout on : keeping (setISOLayout on).
Proof. destruct on; unfold setISOLayout; keeping_copies. Qed.

Lemma kept_refl k : base_ok k -> kept k k.
Proof. by split. Qed.

Lemma kept_trans k1 k2 k3 : kept k1 k2 -> kept k2 k3 -> kept k1 k3.
Proof. intros [] []. split; [done|congruence..]. Qed.

Lemma kept_let k e (f : ApplePS2Keyboard -> ApplePS2Keyboard) :
  kept k e -> (forall k1, base_ok k1 -> kept k1 (f k1)) -> kept k (f e).
Proof. intros H1 Hf. eapply kept_trans; [exact H1|apply Hf, H1]. Qed.

(** A chain of optional updates, one [let] at a time. *)
Ltac kept_lets :=
  repeat match goal with
    | |- kept ?k (let x := ?e in @?f x) => apply (kept_let k e f); [|clear; intros k1 Hk1; cbv beta]
    end;
  match goal with H : base_ok ?k |- kept ?k _ =>
    repeat match goal with |- context [match ?o with _ => _ end] => destruct o end;
    first [by apply kept_refl|revert H; kept_fields]
  end.

Lemma kept_setTimes dict k : base_ok k -> kept k (setTimes dict k).
Proof. intros Hk. cbv beta delta [setTimes]. kept_lets. Qed.

Lemma kept_setFlags dict k : base_ok k -> kept k (setFlags dict k).
Proof. intros Hk. cbv beta delta [setFlags]. kept_lets. Qed.

Lemma keeping_setFKeyMode dict : keeping (setFKeyMode dict).
Proof.
  intros k Hk. unfold setFKeyMode. destruct (_fkeymodesupported k); simpl; [|eauto using kept_refl].
  set (k1 := match getNumber32 dict "HIDFKeyMode" with Some z => _ | None => k end).
  assert (H1 : kept k k1).
  { unfold k1. destruct (getNumber32 dict "HIDFKeyMode"); [revert Hk; kept_fields|by apply kept_refl]. }
  clearbody k1. destruct (_ =? _); [by exists k1|].
  destruct (keeping_loadCustomPS2Map (if nz (_fkeymode k1) then _keysStandard k1 else _keysSpecial k1) k1)
    as (k2 & E & H2); [apply H1|]. exists k2. split; [done|]. by eapply kept_trans.
Qed.

Lemma keeping_setApplicationKey dict : keeping (setApplicationKey dict).
Proof.
  apply keeping_bind.
  - intros k Hk. destruct (getBoolean _ _) as [[]|]; [|by apply keeping_copyADB|eauto using kept_refl].
    by apply keeping_setADB.
  - apply keeping_ifBoolean. intros on k Hk. destruct (getBoolean dict _) as [[]|];
      simpl; try (by eauto using kept_refl); destruct on; by (apply keeping_setADB || apply keeping_copyADB).
Qed.

Lemma keeping_setParamPropertiesGated dict : keeping (setParamPropertiesGated dict).
Proof.
  destruct dict as [dict|]; [|intros k Hk; eauto using kept_refl]. unfold setParamPropertiesGated.
  apply (keeping_bind (fun k => setFKeyMode dict (setTimes dict k))).
  { intros k Hk. pose proof (kept_setTimes dict k Hk) as H1.
    destruct (keeping_setFKeyMode dict _ (kp_base _ _ H1)) as (k2 & E & H2). eauto using kept_trans. }
  apply keeping_bind; [apply keeping_ifBoolean, keeping_setSwapCapsLock|].
  apply keeping_bind; [apply keeping_ifBoolean, keeping_setSwapCommandOption|].
  apply (keeping_bind (fun k => setApplicationKey dict (setFlags dict k))).
  { intros k Hk. pose proof (kept_setFlags dict k Hk) as H1.
    destruct (keeping_setApplicationKey dict _ (kp_base _ _ H1)) as (k2 & E & H2). eauto using kept_trans. }
  apply keeping_bind; [apply keeping_ifBoolean, keeping_setHangulHanja|].
  apply keeping_bind; [apply keeping_ifBoolean, keeping_setISOLayout|].
  apply keeping_Some. intros k Hk. unfold setLogScanCodes.
  destruct (getNumber32 dict _); [revert Hk; kept_fields|by apply kept_refl].
Qed.

(** ** [probe] *)

(** A driver as [init] and [probe] leave it: not attached, nothing kept back. *)
Record probed (k : ApplePS2Keyboard) : Prop := {
  pr_base : base_ok k;
  pr_macros : macro_ok (macros k);
  pr_none : _macroCurrent k = 0 /\ _macroTimer k = None;
  pr_levels : _backlightLevels k = None }.

Lemma longest_le a data l :
  a <= foldl longerMacro a l /\
  (data ∈ l -> Z.of_nat (length data) - kPrefixBytes <= foldl longerMacro a l).
Proof.
  revert a. induction l as [|d l IH]; intros a; simpl; [split; [lia|by intros ?%not_elem_of_nil]|].
  assert (Ha : a <= longerMacro a d /\ Z.of_nat (length d) - kPrefixBytes <= longerMacro a d)
    by (unfold longerMacro; destruct (Z.ltb_spec a (Z.of_nat (length d) - kPrefixBytes)); lia).
  destruct (IH (longerMacro a d)) as [H1 H2]. split; [lia|].
  intros [->|Hd]%elem_of_cons; [lia|auto].
Qed.

Lemma longestMacro_le l data : data ∈ l -> Z.of_nat (length data) - kPrefixBytes <= longestMacro l.
Proof. apply (longest_le 0 data l). Qed.

Lemma longestMacro_nonneg l : 0 <= longestMacro l.
Proof. apply (longest_le 0 [] l). Qed.

Lemma loadMacroData_valid dict name l :
  loadMacroData dict name = Some l ->
  l <> [] /\ Forall (fun d => validMacro d = true /\ Forall is_byte d) l.
Proof.
  unfold loadMacroData. intros E. apply bind_Some in E as (a & _ & E).
  destruct (filter _ _) as [|d l'] eqn:Ef; [done|]. injection E as <-. split; [done|]. rewrite <- Ef.
  apply Forall_forall. intros x [Hx Hd]%list_elem_of_filter. split; [done|].
  apply list_elem_of_omap in Hd as (o & _ & Ho). destruct o; try done. injection Ho as <-.
  apply Forall_forall. intros y (z & -> & _)%list_elem_of_fmap. apply u8_range.
Qed.

Lemma loadMacros_probed config k :
  base_ok k -> _macroCurrent k = 0 -> _macroTimer k = None -> _macroBuffer k = None ->
  _backlightLevels k = None -> probed (loadMacros config k).
Proof.
  intros Hk Hc Ht Hb Hl. unfold loadMacros.
  destruct (loadMacroData config "Macro Inversion") as [l|] eqn:E.
  - split; [revert Hk; clear; intros []; split; done| |done|done]. simpl.
    split; simpl.
    + intros l' [= <-]. by eapply loadMacroData_valid.
    + intros b [= <-]. split; [apply Forall_replicate; unfold is_byte; lia|]. exists l. split; [done|]. rewrite length_replicate.
      pose proof (longestMacro_nonneg l). change kPacketLength with 16. lia.
    + lia.
    + lia.
  - split; [revert Hk; clear; intros []; split; done| |done|done]. simpl. split; simpl; try done; try lia.
    intros b. congruence.
Qed.

Lemma keeping_loadFunctionKeys config : keeping (loadFunctionKeys config).
Proof.
  intros k Hk. unfold loadFunctionKeys.
  assert (H1 : forall b s t, kept k {| k with _fkeymodesupported := b; _keysStandard := s; _keysSpecial := t |})
    by (revert Hk; kept_fields).
  destruct (getArray config "Function Keys Standard") as [l1|], (getArray config "Function Keys Special") as [l2|];
    try (eexists; split; [done|apply H1]).
  pose proof (H1 true (Some l1) (Some l2)) as H2. clear H1.
  destruct (keeping_loadCustomPS2Map (Some l2) _ (kp_base _ _ H2)) as (k4 & E & H4).
  exists k4. split; [exact E|]. by eapply kept_trans.
Qed.

Lemma loadConfiguration_ok config :
  exists k, loadConfiguration config init = Some k /\ probed k /\ _device k = None.
Proof.
  assert (H : keeping (fun k => k ← loadCustomPS2Map (getArray config "Custom PS2 Map") k;
    k ← loadBreaklessPS2 config "Breakless PS2" k;
    k ← loadCustomADBMap config "Custom ADB Map" k; loadFunctionKeys config k)).
  { repeat (apply keeping_bind; [auto with kbd|]). apply keeping_loadFunctionKeys. }
  destruct (H init init_ok) as (k & E & [B D S M L]). exists (loadMacros config k).
  injection M as M5 M6 M7 M8. split; [|split; [by apply loadMacros_probed|]].
  - unfold loadConfiguration. destruct (loadCustomPS2Map _ init) as [k1|]; [|done]. simpl in E |- *.
    destruct (loadBreaklessPS2 _ _ k1) as [k2|]; [|done]. simpl in E |- *.
    destruct (loadCustomADBMap _ _ k2) as [k3|]; [|done]. simpl in E |- *. by rewrite E.
  - unfold loadMacros. by destruct (loadMacroData config "Macro Inversion").
Qed.

Lemma probed_copyMap k : probed k -> probed {| k with _PS2ToADBMap := _PS2ToADBMapMapped k |}.
Proof. intros [Hb Hm Hn Hl]. split; [destruct Hb; by split|done..]. Qed.

Lemma probed_init : probed init.
Proof. split; [apply init_ok| |done|done]. split; simpl; try done; lia. Qed.

Lemma probed_params dict k : probed k -> _device k = None ->
  exists k', setParamPropertiesGated dict k = Some k' /\ probed k' /\ _device k' = None.
Proof.
  intros [Hb Hm Hn Hl] Hd. destruct (keeping_setParamPropertiesGated dict k Hb) as (k' & E & [B D S M L]).
  exists k'. split; [done|]. split; [|congruence]. split; [done|by rewrite M| |congruence].
  injection M as M1 M2 M3 M4. by rewrite M3, M4.
Qed.

Lemma probe_config c i : probe true (Some c) i =
  if bool_decide (getBoolean c "DisableDevice" = Some true) then Some None else
  k ← loadConfiguration c i;
  k ← setParamPropertiesGated (Some c) {| k with _PS2ToADBMap := _PS2ToADBMapMapped k |};
  Some (Some k).
Proof. reflexivity. Qed.

(** What [probe] promises of its result. *)
Definition probe_result (r : option (option ApplePS2Keyboard)) : Prop :=
  match r with
  | Some (Some k) => probed k /\ _device k = None
  | Some None => True
  | None => False
  end.

Lemma bind_elim {X Y} (P : option Y -> Prop) (m : option X) (f : X -> option Y) x :
  m = Some x -> P (f x) -> P (m ≫= f).
Proof. by intros ->. Qed.

Lemma probe_from i b config :
  probed i -> _device i = None ->
  (forall c, exists k, loadConfiguration c i = Some k /\ probed k /\ _device k = None) ->
  probe_result (probe b config i).
Proof.
  intros Hi Hd Hl. destruct b; [|done]. destruct config as [c|].
  - rewrite probe_config. destruct (bool_decide _); [done|].
    destruct (Hl c) as (k & E & Hk & Hdk). apply (bind_elim probe_result _ _ k E). clear E Hl.
    destruct (probed_params (Some c) _ (probed_copyMap k Hk) Hdk) as (k' & E & Hk').
    apply (bind_elim probe_result _ _ k' E). exact Hk'.
  - split; [by apply probed_copyMap|done].
Qed.

(** [probe] never leaves an array, whatever the configuration. *)
Lemma probe_ok b config :
  probe_result (probe b config init).
Proof. apply probe_from; [apply probed_init|done|apply loadConfiguration_ok]. Qed.
