(* ===== verification/KeyboardSafe.v ===== *)
(** * The keyboard driver: nothing but macros

    The rules of the safety proofs ([steady]) and, with them, every part of the
    driver that leaves the macro state alone: the interrupt routine, requests,
    special keys and the dispatch of a packet. *)
From S2P Require Import Prelude PS2Types RingBuffer Bus OSTypes KeyTables Keyboard KeyboardRun KeyboardInv.

Section Safe.
Context {B : Type} `{HK : KeyboardHost B} `{HL : !KeyboardHostLaws B}.
Context (clock : nat -> Z) (absolutetime_to_nanoseconds : Z -> Z) (version_major : Z) (junk : list Z).
#[local] Abbreviation W := (@KbdWorld B).
Context (p : Z) (timers : bool) (m : MacroState).
Implicit Types (w : W) (k : ApplePS2Keyboard).

Definition steady {X} (c : M W X) : Prop := forall w,
  attached p timers m (kbd w) -> bus_ok (kbus w) ->
  wp c (fun _ w' => attached p timers m (kbd w') /\ bus_same (kbus w) (kbus w')) w.

(** ** Rules *)

Lemma bus_same_refl (b : B) : bus_ok b -> bus_same b b.
Proof. by split. Qed.

Lemma kbd_bus_same_trans (b1 b2 b3 : B) : bus_same b1 b2 -> bus_same b2 b3 -> bus_same b1 b3.
Proof. intros [] []. split; [done|congruence|auto]. Qed.

Lemma kbd_steady_ret {X} (x : X) : steady (ret x).
Proof. intros w Hw Hb. split; [done|by apply bus_same_refl]. Qed.

Lemma kbd_steady_bind {X Y} (c : M W X) (f : X -> M W Y) :
  steady c -> (forall x, steady (f x)) -> steady (c ≫= f).
Proof.
  intros Hc Hf w Hw Hb. apply wp_bind. eapply wp_mono; [by apply Hc|]. cbn beta. intros x w1 [H1 S1].
  eapply wp_mono; [apply Hf; [done|apply S1]|]. cbn beta. intros y w2 [H2 S2].
  split; [done|by eapply kbd_bus_same_trans].
Qed.

Lemma steady_kget_bind {X Y} (f : ApplePS2Keyboard -> X) (g : X -> M W Y) :
  (forall k, attached p timers m k -> steady (g (f k))) -> steady (kget f ≫= g).
Proof. intros Hg w Hw Hb. apply wp_bind, wp_gets. by apply Hg. Qed.

Lemma steady_deref_bind {X Y} (o : option X) (g : X -> M W Y) :
  (exists x, o = Some x /\ steady (g x)) -> steady (deref o ≫= g).
Proof. intros (x & -> & Hg) w Hw Hb. apply wp_bind, wp_ret. by apply Hg. Qed.

Lemma steady_kset f : (forall k, attached p timers m k -> attached p timers m (f k)) -> steady (kset f).
Proof. intros Hf w Hw Hb. split; [by apply Hf|by apply bus_same_refl]. Qed.

Lemma steady_kstep f :
  (forall k, attached p timers m k -> exists k', f k = Some k' /\ attached p timers m k') -> steady (kstep f).
Proof.
  intros Hf w Hw Hb. unfold kstep. apply wp_bind, wp_gets. destruct (Hf _ Hw) as (k' & -> & Hk').
  apply wp_bind, wp_ret. split; [done|by apply bus_same_refl].
Qed.

Lemma steady_kemit e : steady (kemit e).
Proof. intros w Hw Hb. split; [done|by apply bus_same_refl]. Qed.

Lemma steady_clock : steady (clock_get_uptime clock).
Proof. intros w Hw Hb. split; [done|by apply bus_same_refl]. Qed.

Lemma kbd_steady_when b (c : M W unit) : (b = true -> steady c) -> steady (when b c).
Proof. destruct b; intros Hs; [by apply Hs|apply kbd_steady_ret]. Qed.

Lemma steady_for_each {X} (l : list X) (f : X -> M W unit) :
  (forall x, x ∈ l -> steady (f x)) -> steady (for_each l f).
Proof.
  induction l as [|x l IH]; intros Hf; [apply kbd_steady_ret|]. simpl.
  apply kbd_steady_bind; [apply Hf, list_elem_of_here|]. intros []. apply IH. intros y Hy. apply Hf. by apply list_elem_of_further.
Qed.

(** ** Table accesses *)

Lemma attached_flags k i : attached p timers m k -> in_table i ->
  exists f, arr_get (_PS2flags k) i = Some f /\ flags_ok f.
Proof. intros [Hb _ _ _] Hi. apply table_get; [split; apply Hb|done]. Qed.

Lemma attached_adb k i : attached p timers m k -> in_table i -> exists a, arr_get (_PS2ToADBMap k) i = Some a.
Proof.
  intros [Hb _ _ _] Hi. destruct (table_get (fun _ => True) (_PS2ToADBMap k) i) as (a & E & _); [|done|eauto].
  split; [apply Hb|by apply Forall_true].
Qed.

Lemma attached_map k i : attached p timers m k -> in_table i ->
  exists c, arr_get (_PS2ToPS2Map k) i = Some c /\ in_table c.
Proof. intros [Hb _ _ _] Hi. apply table_get; [split; apply Hb|done]. Qed.

Lemma kbv_unit i : in_table i -> 0 <= Z.shiftr i KBV_BITS_SHIFT < 16.
Proof.
  unfold in_table. intros Hi. unfold KBV_BITS_SHIFT. rewrite Z.shiftr_div_pow2 by lia. change (2 ^ 5) with 32.
  split; [apply Z.div_pos; lia|apply Z.div_lt_upper_bound; lia].
Qed.

Lemma attached_bit k i : attached p timers m k -> in_table i ->
  exists x, arr_get (_keyBitVector k) (Z.shiftr i KBV_BITS_SHIFT) = Some x /\
    forall y, exists v, arr_set (_keyBitVector k) (Z.shiftr i KBV_BITS_SHIFT) y = Some v /\ length v = 16%nat.
Proof.
  intros [Hb _ _ _] Hi%kbv_unit. pose proof (ko_bits _ Hb) as Hl.
  destruct (arr_get_Some (_keyBitVector k) (Z.shiftr i KBV_BITS_SHIFT)) as (x & E & _); [lia|].
  exists x. split; [done|]. intros y. rewrite arr_set_Some by lia. eexists. split; [done|].
  by rewrite length_insert.
Qed.

Lemma attached_isDown k i : attached p timers m k -> in_table i -> exists d, KBV_IS_KEYDOWN i (_keyBitVector k) = Some d.
Proof.
  intros Hk Hi. destruct (attached_bit k i Hk Hi) as (x & E & _). unfold KBV_IS_KEYDOWN. rewrite E. simpl. eauto.
Qed.

(** The raw key code of a byte. *)
Lemma rawCode_in extended data :
  0 <= extended <= 1 -> is_byte data -> in_table (Z.lor (Z.shiftl extended 8) (Z.land data (Z.lnot kSC_UpBit))).
Proof.
  unfold is_byte, in_table. intros He Hd.
  pose proof (land_bound data (Z.lnot kSC_UpBit) 8 ltac:(lia) Hd) as Hl.
  apply (lor_bound _ _ 9); [lia| |lia]. rewrite Z.shiftl_mul_pow2 by lia. lia.
Qed.

(** Setting fields that the invariant bounds or does not mention. *)
Ltac field_update :=
  intros ? [[] ? ? ?]; split; [split; simpl; try done|simpl; eauto..].

(** ** The interrupt routine *)

Lemma ring_set k r : attached p timers m k -> aligned KBD_RING kPacketLength r -> Forall is_byte (m_buffer r) ->
  attached p timers m {| k with _ringBuffer := r |}.
Proof. intros [[] ? ? ?] Hr Hf. split; [by split|done..]. Qed.

Lemma bits_set k v : attached p timers m k -> length v = 16%nat -> attached p timers m {| k with _keyBitVector := v |}.
Proof. intros [[] ? ? ?] Hv. split; [by split|done..]. Qed.

Lemma steady_headSet i x : 0 <= i < kPacketLength -> is_byte x -> steady (headSet i x).
Proof.
  intros Hi Hx. apply steady_kstep. intros k Hk. pose proof (ko_ring _ (at_base _ _ _ _ Hk)) as Hr.
  pose proof (head_set_spec KBD_RING kPacketLength ltac:(done) ltac:(done) ltac:(done) (_ringBuffer k) i x Hr Hi) as E.
  rewrite E. eexists. split; [done|]. apply ring_set; [done|..].
  - by apply (head_set_aligned KBD_RING kPacketLength (_ringBuffer k) i x _ Hr E).
  - simpl. apply Forall_insert; [apply Hk|done].
Qed.

Lemma steady_bufferPacket b0 b1 : steady (bufferPacket clock b0 b1).
Proof.
  unfold bufferPacket. apply kbd_steady_bind; [apply steady_headSet; [done|apply u8_range]|intros _].
  apply kbd_steady_bind; [apply steady_headSet; [done|apply u8_range]|intros _].
  apply kbd_steady_bind; [apply steady_clock|intros t]. apply kbd_steady_bind.
  - apply steady_for_each. intros [i b] Hib. apply steady_headSet.
    + apply elem_of_zip_l, elem_of_seqZ in Hib. unfold kPacketTimeOffset, kPacketLength in *. lia.
    + apply elem_of_zip_r in Hib. unfold le64 in Hib. apply list_elem_of_fmap in Hib as (j & -> & _). apply u8_range.
  - intros _. apply steady_kset. intros k Hk. apply ring_set; [done| |].
    + apply advanceHead_aligned; [done..|]. apply Hk.
    + unfold advanceHead. destruct (_ <=? _); apply Hk.
Qed.

Lemma steady_scanCode extended data :
  0 <= extended <= 1 -> is_byte data -> steady (scanCode clock extended data).
Proof.
  intros He Hd. unfold scanCode. pose proof (rawCode_in _ _ He Hd) as Hc.
  set (c := Z.lor _ _) in *. clearbody c.
  apply steady_kget_bind. intros k0 H0. destruct (attached_flags k0 c H0 Hc) as (f & -> & _).
  apply steady_deref_bind. exists f. split; [done|]. apply kbd_steady_bind.
  - destruct (nz (Z.land f kBreaklessKey)); [apply kbd_steady_ret|].
    destruct (nz (Z.land data kSC_UpBit)).
    + apply kbd_steady_bind; [|intros; apply kbd_steady_ret]. apply steady_kstep. intros k Hk.
      destruct (attached_bit k c Hk Hc) as (x & E & Hs). unfold KBV_KEYUP. rewrite E. simpl.
      destruct (Hs (clear_bits x (kbv_bit c))) as (v & -> & Hv). simpl. eexists. split; [done|]. by apply bits_set.
    + apply steady_kget_bind. intros k Hk. destruct (attached_isDown k c Hk Hc) as (d & ->).
      apply steady_deref_bind. exists d. split; [done|]. destruct d; [apply kbd_steady_ret|].
      apply kbd_steady_bind; [|intros; apply kbd_steady_ret]. apply steady_kstep. clear k Hk. intros k Hk.
      destruct (attached_bit k c Hk Hc) as (x & E & Hs). unfold KBV_KEYDOWN. rewrite E. simpl.
      destruct (Hs (Z.lor x (kbv_bit c))) as (v & -> & Hv). simpl. eexists. split; [done|]. by apply bits_set.
  - intros [|]; [apply kbd_steady_ret|]. apply kbd_steady_bind; [apply steady_bufferPacket|intros; apply kbd_steady_ret].
Qed.

Lemma steady_setExtend z : 0 <= z <= 2 -> steady (kset (fun k => {| k with _extendCount := z |})).
Proof. intros Hz. apply steady_kset. field_update. Qed.

Lemma steady_interruptOccurred data : is_byte data -> steady (interruptOccurred clock data).
Proof.
  intros Hd. unfold interruptOccurred. apply steady_kget_bind. intros k0 _.
  destruct (_ && _).
  { apply kbd_steady_bind; [apply steady_bufferPacket|intros _].
    apply kbd_steady_bind; [by apply steady_setExtend|intros; apply kbd_steady_ret]. }
  apply kbd_steady_bind; [apply steady_kset; field_update|intros _].
  destruct (data =? kSC_Acknowledge); [apply kbd_steady_ret|].
  destruct (data =? kSC_Resend); [apply kbd_steady_ret|].
  destruct (data =? kSC_Extend); [apply kbd_steady_bind; [by apply steady_setExtend|intros; apply kbd_steady_ret]|].
  destruct (data =? kSC_Pause); [apply kbd_steady_bind; [by apply steady_setExtend|intros; apply kbd_steady_ret]|].
  apply steady_kget_bind. intros k Hk. pose proof (ko_extend _ (at_base _ _ _ _ Hk)) as He.
  destruct (Z.eqb_spec (_extendCount k) 0) as [->|Hn]; [by apply steady_scanCode|].
  rewrite (u8_small (_extendCount k - 1)) by lia.
  apply kbd_steady_bind; [apply steady_setExtend; lia|intros _].
  destruct (Z.eqb_spec (_extendCount k - 1) 0); [apply steady_scanCode; [lia|done]|apply kbd_steady_ret].
Qed.

Lemma steady_interrupts l :
  steady (for_each l (fun data => interruptOccurred clock (u8 data) ;; ret tt)).
Proof.
  apply steady_for_each. intros x _. apply kbd_steady_bind; [|intros; apply kbd_steady_ret].
  apply steady_interruptOccurred, u8_range.
Qed.

(** ** Calls to the host *)

Lemma wp_onHost {X} (c : M B X) w (Q : X -> B -> Prop) :
  attached p timers m (kbd w) ->
  wp c (fun x b => bus_ok b /\ Q x b) (kbus w) ->
  wp (onHost clock c) (fun x w' => attached p timers m (kbd w') /\
    exists b, Q x b /\ bus_same b (kbus w')) w.
Proof.
  intros Hw Hc. unfold wp, onHost in *. destruct (c (kbus w)) as [[b x]| |]; [|done..].
  destruct Hc as [Hb HQ]. pose proof (law_received b Hb) as Hr.
  destruct (bus_received b) as [bytes b'] eqn:E. simpl in Hr.
  pose proof (steady_interrupts bytes {| w with kbus := b' |} Hw (bs_ok _ _ Hr)) as Hi. unfold wp in Hi.
  destruct (for_each _ _ _) as [[w' []]| |]; [|done..]. destruct Hi as [H1 H2].
  split; [done|]. exists b. split; [done|by eapply kbd_bus_same_trans].
Qed.

Lemma steady_onHost {X} (c : M B X) : bus_steady c -> steady (onHost clock c).
Proof.
  intros Hc w Hw Hb. eapply wp_mono; [apply (wp_onHost c w (fun _ b => bus_same (kbus w) b)); [done|]|].
  - eapply wp_mono; [by apply Hc|]. cbn beta. intros x b Hs. split; [apply Hs|done].
  - cbn beta. intros x w' [H1 (b & H2 & H3)]. split; [done|by eapply kbd_bus_same_trans].
Qed.

Lemma kbd_steady_device {Y} (g : Z -> M W Y) :
  (0 <= p < kPS2MuxMaxIdx -> steady (g p)) -> steady (device ≫= g).
Proof.
  intros Hg w Hw Hb. apply wp_bind. unfold device. apply wp_bind, wp_gets.
  rewrite (at_device _ _ _ _ Hw). apply wp_ret. apply Hg; [|done..].
  by apply (ko_port _ (at_base _ _ _ _ Hw)), Hw.
Qed.

Lemma kbd_steady_submit l : Z.of_nat (length l) < 256 ->
  steady (submitRequestAndBlock clock l).
Proof.
  intros Hl. unfold submitRequestAndBlock. apply kbd_steady_device. intros Hp. apply steady_onHost.
  intros b Hb. eapply wp_mono.
  - apply law_submit; simpl; [done| | |done]; rewrite u8_small; lia.
  - cbn beta. by intros r b' [Hs _].
Qed.

Lemma steady_setLEDs l : steady (setLEDs clock l).
Proof. unfold setLEDs. apply kbd_steady_device. intros Hp. by apply steady_onHost, law_submitRequest. Qed.

Lemma steady_setKeyboardEnable b : steady (setKeyboardEnable clock b).
Proof. unfold setKeyboardEnable. apply kbd_steady_bind; [by apply kbd_steady_submit|intros; apply kbd_steady_ret]. Qed.

Lemma steady_setLed led b : steady (setLed clock led b).
Proof.
  unfold setLed. apply kbd_steady_bind; [apply steady_kset; field_update|intros _].
  apply steady_kget_bind. intros k _. apply steady_setLEDs.
Qed.

Lemma steady_setAlphaLockFeedback b : steady (setAlphaLockFeedback clock b).
Proof.
  unfold setAlphaLockFeedback. apply steady_kget_bind. intros k _.
  destruct (_ignoreCapsLedChange k); [apply steady_kset; field_update|apply steady_setLed].
Qed.

(** ** Special keys *)

Context (Htimers : timers = true).

Lemma steady_bind_unit {X} (c : M W unit) (d : M W X) : steady c -> steady d -> steady (c ;; d).
Proof. intros Hc Hd. apply kbd_steady_bind; [done|]. by intros. Qed.

Lemma steady_dispatchX code down t : steady (dispatchKeyboardEventX code down t).
Proof. apply steady_kemit. Qed.

Lemma sleep_timer_set k t : attached p timers m k -> exists k',
  (_ ← _sleepEjectTimer k; Some {| k with _sleepEjectTimer := Some t |}) = Some k' /\ attached p timers m k'.
Proof. intros [Hb Hd [x Hs]%(fun H => H Htimers) Hm]. rewrite Hs. simpl. eexists. split; [done|]. by split; [destruct Hb|..]. Qed.

Lemma steady_setSleepEjectTimer t : steady (setSleepEjectTimer t).
Proof. apply steady_kstep. intros k Hk. by apply sleep_timer_set. Qed.

Lemma steady_cancelSleepEjectTimer : steady cancelSleepEjectTimer.
Proof. apply steady_kstep. intros k Hk. by apply sleep_timer_set. Qed.

Lemma steady_onSleepEjectTimer : steady (onSleepEjectTimer clock).
Proof.
  apply steady_kget_bind. intros k _. destruct (_timerFunc k); [apply steady_kemit|].
  apply kbd_steady_bind; [apply steady_clock|intros; apply steady_dispatchX].
Qed.

Lemma findLevel_range levels current : 0 <= findLevel levels current <= Z.of_nat (length levels).
Proof. induction levels as [|l levels IH]; simpl; [lia|]. destruct (current <=? l); lia. Qed.

(** The new level is one of the table, whatever the current one is. *)
Lemma nextLevel_range levels current code :
  (0 < length levels)%nat -> 0 <= nextLevel levels current code < Z.of_nat (length levels).
Proof.
  intros Hl. pose proof (findLevel_range levels current). unfold nextLevel. cbv zeta.
  repeat match goal with
    | |- context [?a <=? ?b] => destruct (Z.leb_spec a b)
    | |- context [?a <? ?b] => destruct (Z.ltb_spec a b)
    end; destruct (code =? 0x4e); lia.
Qed.

Lemma steady_modifyKeyboardBacklight code down k0 :
  attached p timers m k0 -> is_Some (_backlightLevels k0) ->
  forall w, kbd w = k0 -> bus_ok (kbus w) ->
  wp (modifyKeyboardBacklight clock code down) (fun _ w' => attached p timers m (kbd w') /\ bus_same (kbus w) (kbus w')) w.
Proof.
  intros Hk [l Hl] w <- Hb. destruct (ko_levels _ (at_base _ _ _ _ Hk) l Hl) as [Hp Hlen].
  unfold modifyKeyboardBacklight. apply wp_bind, wp_gets. rewrite Hp. apply wp_bind, wp_ret.
  apply wp_bind, wp_gets. rewrite Hl. apply wp_bind, wp_ret.
  assert (Hs : steady (result ← onHost clock (host_evaluateInteger "KKQC");
    match result with
    | None => ret tt
    | Some current =>
      level ← deref (arr_get l (nextLevel l (s32 current) code));
      when down (onHost clock (host_evaluateObject "KKCM" (u32 level)) ;; ret tt)
    end)); [|by apply Hs].
  apply kbd_steady_bind; [apply steady_onHost, law_evaluateInteger|]. intros [c|]; [|apply kbd_steady_ret].
  destruct (arr_get_Some l (nextLevel l (s32 c) code)) as (x & E & _); [by apply nextLevel_range|].
  apply steady_deref_bind. exists x. split; [done|]. apply kbd_steady_when. intros _.
  apply kbd_steady_bind; [apply steady_onHost, law_evaluateObject|intros; apply kbd_steady_ret].
Qed.

Lemma steady_reportHeldKeys keys down t :
  Forall in_table keys -> steady (reportHeldKeys keys down t).
Proof.
  intros Hks. apply steady_for_each. intros key Hkey. rewrite Forall_forall in Hks.
  apply steady_kget_bind. intros k Hk. destruct (attached_isDown k key Hk (Hks _ Hkey)) as (d & ->).
  apply steady_deref_bind. exists d. split; [done|]. apply kbd_steady_when. intros _.
  apply steady_kget_bind. intros k' Hk'. destruct (attached_adb k' key Hk' (Hks _ Hkey)) as (a & ->).
  apply steady_deref_bind. exists a. split; [done|]. apply steady_dispatchX.
Qed.

Lemma steady_brightnessHack code down t : steady (brightnessHack code down t).
Proof.
  apply steady_kget_bind. intros k _.
  assert (Hk : Forall in_table (if checkModifierState k kMaskLeftWindows then [0x1d] else [0x2a; 0x1d]))
    by (destruct (checkModifierState k kMaskLeftWindows); repeat constructor; done).
  apply steady_bind_unit; [by apply steady_reportHeldKeys|].
  apply steady_bind_unit; [apply steady_dispatchX|by apply steady_reportHeldKeys].
Qed.

Lemma steady_numpadKey code down t : steady (numpadKey clock code down t).
Proof.
  intros w Hw Hb. unfold numpadKey. apply wp_bind, wp_gets.
  destruct (bool_decide _ && _) eqn:Ec.
  - apply andb_true_iff in Ec as [Hl%bool_decide_eq_true _]. apply wp_bind.
    eapply wp_mono; [by apply (steady_modifyKeyboardBacklight code down (kbd w))|].
    cbn beta. intros _ w' Hw'. by apply wp_ret.
  - assert (Hs : forall b : bool, steady (if b then (brightnessHack code down t ;; ret 0) else ret code)); [|by apply Hs].
    intros [|]; [|apply kbd_steady_ret]. apply steady_bind_unit; [apply steady_brightnessHack|apply kbd_steady_ret].
Qed.

Hint Resolve kbd_steady_ret steady_dispatchX steady_setSleepEjectTimer steady_cancelSleepEjectTimer
  steady_onSleepEjectTimer steady_brightnessHack steady_numpadKey steady_setLEDs steady_kemit steady_clock
  law_numLock law_setNumLock law_notifyKeyPressed law_getDisableTouchpad law_setDisableTouchpad
  law_resetTouchpad law_evaluateObject : kbd.

(** One step of the common shapes; [kbd_steps] leaves the ones that need an argument. *)
Ltac kbd_step :=
  match goal with
  | |- steady (device ≫= _) => apply kbd_steady_device; intros ?
  | |- steady (kget _ ≫= _) => apply steady_kget_bind; intros ? ?
  | |- steady (_ ≫= _) => apply kbd_steady_bind; [|intros ?]
  | |- steady (when _ _) => apply kbd_steady_when; intros ?
  | |- steady (onHost _ _) => apply steady_onHost; solve [eauto with kbd]
  | |- steady (kset _) => apply steady_kset; solve [field_update]
  | |- steady (if ?b then _ else _) => destruct b
  | |- steady _ => solve [eauto with kbd]
  end.
Ltac kbd_steps := repeat kbd_step.

Lemma steady_deleteKey code down t : steady (deleteKey code down t).
Proof. unfold deleteKey. kbd_steps. Qed.

Lemma steady_sleepKey down : steady (sleepKey clock down).
Proof. unfold sleepKey. kbd_steps. Qed.

Lemma steady_fnToggleKey down : steady (fnToggleKey down).
Proof. unfold fnToggleKey. kbd_steps. Qed.

Lemma steady_printScreenDown t : steady (printScreenDown clock t).
Proof. unfold printScreenDown. kbd_steps. Qed.

Hint Resolve steady_deleteKey steady_sleepKey steady_fnToggleKey steady_printScreenDown : kbd.

Lemma steady_printScreenKey code down t : steady (printScreenKey clock code down t).
Proof. unfold printScreenKey. kbd_steps. Qed.

Hint Resolve steady_printScreenKey : kbd.

Lemma steady_sysRqKey down t : steady (sysRqKey clock down t).
Proof. unfold sysRqKey. kbd_steps. Qed.

Hint Resolve steady_sysRqKey : kbd.

Lemma steady_specialKey code scan down t : steady (specialKey clock code scan down t).
Proof. unfold specialKey. kbd_steps. Qed.

(** *** The key code the switch leaves

    [gives P c]: when [c] ends, its value satisfies [P]. *)
Definition gives {X} (P : X -> Prop) (c : M W X) : Prop := forall w w' x, c w = Ok (w', x) -> P x.

Lemma gives_ret {X} (P : X -> Prop) x : P x -> gives P (ret x).
Proof. intros Hx w w' y [= _ <-]. done. Qed.

Lemma gives_bind {X Y} (P : Y -> Prop) (c : M W X) (f : X -> M W Y) :
  (forall x, gives P (f x)) -> gives P (c ≫= f).
Proof. intros Hf w w' y E. apply bind_inv in E as (w1 & x & _ & E). by eapply Hf. Qed.

(** The values of a computation, for its continuation. *)
Lemma gives_bind_of {X Y} (P : X -> Prop) (Q : Y -> Prop) (c : M W X) (f : X -> M W Y) :
  gives P c -> (forall x, P x -> gives Q (f x)) -> gives Q (c ≫= f).
Proof. intros Hc Hf w w' y E. apply bind_inv in E as (w1 & x & E1 & E). eapply Hf; [by eapply Hc|done]. Qed.

Ltac gives_steps :=
  repeat match goal with
  | |- gives _ (_ ≫= _) => apply gives_bind; intros ?
  | |- gives _ (if ?b then _ else _) => destruct b
  | |- gives _ (ret _) => apply gives_ret
  end.

Definition leaves_in (r : Z + bool) : Prop := match r with inl c => in_table c | inr _ => True end.

Lemma gives_printScreenKey code down t : in_table code -> gives in_table (printScreenKey clock code down t).
Proof. intros Hc. unfold printScreenKey, fnToggleKey. gives_steps; done. Qed.

Lemma gives_specialKey code scan down t : in_table code -> gives leaves_in (specialKey clock code scan down t).
Proof.
  intros Hc. unfold specialKey. apply gives_bind. intros k.
  destruct (code =? 0x45); [gives_steps; done|].
  apply (gives_bind_of in_table); [|intros c Hr; by apply gives_ret].
  repeat match goal with |- gives _ (if ?b then _ else _) => destruct b end;
    try (by apply gives_ret); unfold numpadKey, deleteKey, sleepKey, sysRqKey, fnToggleKey;
    gives_steps; try done; by apply gives_printScreenKey.
Qed.

Lemma steady_bind_of {X Y} (P : X -> Prop) (c : M W X) (f : X -> M W Y) :
  steady c -> gives P c -> (forall x, P x -> steady (f x)) -> steady (c ≫= f).
Proof.
  intros Hc Hg Hf w Hw Hb. apply wp_bind. specialize (Hc w Hw Hb). specialize (Hg w). unfold wp in *.
  destruct (c w) as [[w1 x]| |]; [|done..]. destruct Hc as [H1 S1].
  specialize (Hf x (Hg _ _ eq_refl) w1 H1 (bs_ok _ _ S1)). unfold wp in Hf.
  destruct (f x w1) as [[w2 y]| |]; [|done..]. destruct Hf as [H2 S2].
  split; [done|by eapply kbd_bus_same_trans].
Qed.

(** ** Dispatching a packet *)

Lemma modifier_set k z : attached p timers m k -> attached p timers m {| k with _PS2modifierState := z |}.
Proof. intros [[] ? ? ?]. split; [by split|done..]. Qed.

Lemma steady_trackModifier raw down : in_table raw -> steady (trackModifier raw down).
Proof.
  intros Hr. apply steady_kstep. intros k Hk. destruct (attached_flags k raw Hk Hr) as (f & -> & Hf).
  destruct Hf as [H0 H1]. simpl. assert (Hb : 0 <= Z.shiftr f 8) by (by apply Z.shiftr_nonneg).
  rewrite (u8_small (Z.shiftr f 8)) by lia. destruct (Z.shiftr f 8 =? 0); [by exists k|].
  destruct (Z.ltb_spec 32 (Z.shiftr f 8)); [lia|]. eexists. split; [done|]. by apply modifier_set.
Qed.

Hint Resolve steady_trackModifier steady_specialKey : kbd.

Lemma steady_callAcpi code down : steady (callAcpi clock code down).
Proof. unfold callAcpi. kbd_steps. Qed.

Lemma steady_ejectKey adb down : steady (ejectKey clock adb down).
Proof. unfold ejectKey. kbd_steps. Qed.

Lemma steady_pressAndRelease adb : steady (pressAndRelease clock adb).
Proof. unfold pressAndRelease. kbd_steps. Qed.

Hint Resolve steady_callAcpi steady_ejectKey steady_pressAndRelease : kbd.

Lemma steady_capsLock adb down : steady (capsLock clock version_major adb down).
Proof. unfold capsLock. kbd_steps. Qed.

Hint Resolve steady_capsLock : kbd.

Lemma steady_dispatchKeyCode raw code down t : in_table raw -> in_table code ->
  steady (dispatchKeyCode clock absolutetime_to_nanoseconds version_major raw code down t).
Proof.
  intros Hr Hc. unfold dispatchKeyCode. apply steady_kget_bind. intros k0 _.
  set (c := if _ && _ then 0 else code). assert (Hc' : in_table c) by (unfold c; by destruct (_ && _)).
  clearbody c. apply steady_kget_bind. intros k Hk. destruct (attached_adb k c Hk Hc') as (a & ->).
  apply steady_deref_bind. exists a. split; [done|].
  apply kbd_steady_bind; [apply steady_ejectKey|intros eat]. apply kbd_steady_device. intros Hp.
  apply kbd_steady_bind; [apply steady_onHost, law_notifyKeyPressed|intros info].
  destruct (_ && _); [kbd_steps|]. apply steady_bind_unit; [|apply kbd_steady_ret].
  apply kbd_steady_when. intros _. apply steady_kget_bind. intros k' Hk'.
  destruct (attached_flags k' raw Hk' Hr) as (f & -> & _). apply steady_deref_bind. exists f.
  split; [done|]. kbd_steps.
Qed.

Lemma steady_dispatchScanCode raw scan down t : in_table raw ->
  steady (dispatchScanCode clock absolutetime_to_nanoseconds version_major raw scan down t).
Proof.
  intros Hr. unfold dispatchScanCode. apply steady_kget_bind. intros k Hk.
  destruct (attached_map k raw Hk Hr) as (c & -> & Hc). apply steady_deref_bind. exists c. split; [done|].
  destruct (raw =? 0x012a); [apply kbd_steady_ret|].
  apply steady_bind_unit; [by apply steady_trackModifier|].
  apply steady_bind_unit; [apply steady_callAcpi|].
  apply (steady_bind_of leaves_in); [apply steady_specialKey|by apply gives_specialKey|].
  intros [c'|r] Hl; [by apply steady_dispatchKeyCode|apply kbd_steady_ret].
Qed.

(** A packet: sixteen bytes. *)
Definition packet_ok (l : list Z) : Prop := length l = 16%nat /\ Forall is_byte l.

Lemma packet_get l i : packet_ok l -> 0 <= i < 16 -> exists b, arr_get l i = Some b /\ is_byte b.
Proof.
  intros [Hl HF] Hi. destruct (arr_get_Some l i) as (b & E & E'); [lia|].
  exists b. split; [done|]. by eapply Forall_lookup_1.
Qed.

Lemma rawCode_byte scan : is_byte scan -> 0 <= Z.land scan (Z.lnot kSC_UpBit) < 256.
Proof. intros Hs. by apply (land_bound _ _ 8). Qed.

Lemma steady_dispatch l : packet_ok l ->
  steady (dispatchKeyboardEventWithPacket clock absolutetime_to_nanoseconds version_major l).
Proof.
  intros Hl. unfold dispatchKeyboardEventWithPacket.
  destruct (packet_get l 0 Hl ltac:(lia)) as (p0 & -> & _).
  destruct (packet_get l 1 Hl ltac:(lia)) as (scan & -> & Hs).
  apply steady_deref_bind. exists p0. split; [done|]. apply steady_deref_bind. exists scan. split; [done|].
  cbv zeta. pose proof (rawCode_byte scan Hs) as Hr. destruct (_ =? 0).
  - destruct (_ || _); [|apply steady_dispatchScanCode; unfold in_table; lia].
    unfold hangulHanja. apply steady_kget_bind. intros k Hk.
    destruct (attached_adb k scan Hk) as (a & ->); [unfold in_table, is_byte in *; lia|].
    apply steady_deref_bind. exists a. split; [done|]. kbd_steps.
  - apply steady_dispatchScanCode. unfold in_table, KBV_NUM_SCANCODES. lia.
Qed.

End Safe.
