(* ===== verification/KeyboardBench.v ===== *)
(** * A host to run the keyboard driver on

    A controller that does what it is asked and whose keyboard sends nothing by
    itself, with no ACPI methods and no other driver that takes an interest: the
    concrete host of the witnesses. *)
From S2P Require Import Prelude PS2Types Bus.

(** Whether the lock is held, whether the interrupt action is installed, num lock. *)
Record BenchHost := mkBenchHost { bh_locked : bool; bh_installed : bool; bh_numLock : bool }.

Definition bench_lock : M BenchHost unit := fun b =>
  if bh_locked b then Crash else Ok ({| b with bh_locked := true |}, tt).
Definition bench_unlock : M BenchHost unit := fun b =>
  if bh_locked b then Ok ({| b with bh_locked := false |}, tt) else Crash.

(** ... whose devices answer a request with [f]. *)
Definition answering (f : PS2Request -> PS2Request) : PS2Bus BenchHost := {|
  bus_submit r := ret (f r);
  bus_setCommandByte s c := ret 0;
  bus_lock := bench_lock;
  bus_unlock := bench_unlock;
  bus_sleep ms := ret tt;
  bus_auxNubs := ret 0;
  bus_installInterrupt := modify (fun b => {| b with bh_installed := true |});
  bus_uninstallInterrupt := modify (fun b => {| b with bh_installed := false |});
  bus_installPower := ret tt;
  bus_uninstallPower := ret tt;
  bus_received b := ([], b);
  bus_locked := bh_locked;
  bus_installed := bh_installed;
  bus_ok _ := True |}.

#[export] Instance bench_bus : PS2Bus BenchHost := answering id.

#[export] Instance bench_host : KeyboardHost BenchHost := {|
  host_submitRequest r := ret tt;
  host_notifyKeyPressed i := ret i;
  host_getDisableTouchpad b := ret b;
  host_setDisableTouchpad b := ret b;
  host_resetTouchpad z := ret z;
  host_numLock := gets bh_numLock;
  host_setNumLock n := modify (fun b => {| b with bh_numLock := n |});
  host_evaluateInteger s := ret None;
  host_evaluateObject s z := ret false |}.

Lemma bench_steady_ret {X} f (x : X) : @bus_steady BenchHost (answering f) _ (ret x).
Proof. intros b Hb. by split. Qed.

Lemma answering_laws f :
  (forall r, map command (commands (f r)) = map command (commands r) /\ commandsCount (f r) = commandsCount r) ->
  @PS2BusLaws BenchHost (answering f).
Proof.
  intros Hf. split; try (intros; apply (bench_steady_ret f)).
  - intros r b _ Hr _ _. destruct (Hf r) as [E1 E2]. split; [by split|]. split; [done|]. rewrite E2. lia.
  - intros b _ Hl. unfold wp. simpl in *. unfold bench_lock. rewrite Hl. by split.
  - intros b _ Hl. unfold wp. simpl in *. unfold bench_unlock. rewrite Hl. by split.
  - by intros b _.
  - by intros b _ _.
  - by intros b _.
Qed.

#[export] Instance bench_laws : KeyboardHostLaws BenchHost.
Proof.
  split; [by apply answering_laws|..]; try (intros; apply (bench_steady_ret id)).
  - by intros b.
  - by intros n b.
Qed.

(** Every read answered by [z], and by what [l] lists. *)
Definition answerAll (z : Z) (r : PS2Request) : PS2Request :=
  {| r with commands := map (fun c => set_inOrOut z c) (commands r) |}.
Definition answerList (l : list Z) (r : PS2Request) : PS2Request :=
  {| r with commands := imap (fun i c => match l !! i with Some z => set_inOrOut z c | None => c end) (commands r) |}.

Lemma answerAll_shape z r : map command (commands (answerAll z r)) = map command (commands r) /\
  commandsCount (answerAll z r) = commandsCount r.
Proof. split; [|done]. cbn. rewrite map_map. apply map_ext. by intros []. Qed.

Lemma answerList_shape l r : map command (commands (answerList l r)) = map command (commands r) /\
  commandsCount (answerList l r) = commandsCount r.
Proof.
  split; [|done]. cbn. change (map command) with (fmap (M := list) command). rewrite fmap_imap. rewrite <- (imap_const command) at 1.
  apply imap_ext. intros i c _. simpl. by destruct (l !! i), c.
Qed.

(** The world after an operation that said [true]. *)
Definition begun {S} (r : outcome (S * bool)) : option S := match r with Ok (w, true) => Some w | _ => None end.

Lemma begun_bind {S X} (r : outcome (S * bool)) (k : S -> option X) x :
  (w ← begun r; k w) = Some x -> exists w, r = Ok (w, true) /\ k w = Some x.
Proof. destruct r as [[w []]| |]; try done. by exists w. Qed.
