(* ===== verification/KeyboardMacro.v ===== *)
(** * The keyboard driver: macro inversion

    Some keyboards send a whole sequence of scan codes for one key; a macro names the
    sequence and the packet it stands for.  The driver keeps packets back while they
    may still become a macro.  This file shows that nothing is lost or reordered by
    that: what has come in is what has been dispatched, with each recognised sequence
    in place of its packet, followed by what is still kept back. *)
From S2P Require Import Prelude PS2Types RingBuffer Bus OSTypes KeyTables Keyboard KeyboardRun KeyboardInv KeyboardSafe KeyboardBench.

(** ** The macro buffer *)

(** Its first [n] packets. *)
Fixpoint packets (n : nat) (b : list Z) : list (list Z) :=
  match n with O => [] | S n' => take 16 b :: packets n' (drop 16 b) end.

(** The key data of packets, as a macro writes it. *)
Definition keyData (l : list (list Z)) : list Z := concat (map (take 2) l).

Lemma length_packets n b : length (packets n b) = n.
Proof. revert b. induction n as [|n IH]; intros b; simpl; [done|by rewrite IH]. Qed.

Lemma packets_lookup n b i :
  (i < n)%nat -> packets n b !! i = Some (take 16 (drop (16 * i) b)).
Proof.
  revert b i. induction n as [|n IH]; intros b i Hi; [lia|]. destruct i as [|i]; [done|].
  simpl. rewrite IH by lia. rewrite drop_drop. do 3 f_equal. lia.
Qed.

Lemma packets_take n b : (16 * n <= length b)%nat -> packets n (take (16 * n) b) = packets n b.
Proof.
  revert b. induction n as [|n IH]; intros b Hb; [done|]. simpl packets. f_equal.
  - rewrite take_take. f_equal. lia.
  - rewrite <- (IH (drop 16 b)) by (rewrite length_drop; lia).
    rewrite skipn_firstn_comm. do 2 f_equal. lia.
Qed.

Lemma packets_app n b pk r :
  length b = (16 * n)%nat -> length pk = 16%nat -> packets (S n) (b ++ pk ++ r) = packets n b ++ [pk].
Proof.
  revert b. induction n as [|n IH]; intros b Hb Hp.
  - destruct b; [|done]. simpl. by rewrite take_app_length'.
  - change (packets (S (S n)) ?l) with (take 16 l :: packets (S n) (drop 16 l)).
    change (packets (S n) b) with (take 16 b :: packets n (drop 16 b)). simpl app. f_equal.
    + rewrite take_app_le by lia. done.
    + rewrite drop_app_le by lia. apply IH; [rewrite length_drop; lia|done].
Qed.

Lemma packets_prefix n b r : length b = (16 * n)%nat -> packets n (b ++ r) = packets n b.
Proof.
  intros Hb. rewrite <- (packets_take n (b ++ r)) by (rewrite length_app; lia).
  by rewrite take_app_length'.
Qed.

(** Storing a packet after the first [n]. *)
Lemma write_packet b n pk :
  (16 * S n <= length b)%nat -> packet_ok pk -> Forall is_byte b ->
  exists b', arr_write b (Z.of_nat n * kPacketLength) pk = Some b' /\
    length b' = length b /\ Forall is_byte b' /\ packets (S n) b' = packets n b ++ [pk].
Proof.
  intros Hn [Hl Hp] Hb. unfold arr_write. change kPacketLength with 16.
  replace (Z.to_nat (Z.of_nat n * 16)) with (16 * n)%nat by lia.
  rewrite (proj2 (Z.leb_le 0 _)), (proj2 (Z.leb_le (_ + _) _)) by lia. eexists. split; [done|].
  assert (Ht : length (take (16 * n) b) = (16 * n)%nat) by (rewrite length_take; lia).
  split; [rewrite !length_app, length_drop; lia|]. split.
  - repeat apply Forall_app_2; [by apply Forall_take|done|by apply Forall_drop].
  - rewrite packets_app by done. by rewrite packets_take by lia.
Qed.

Lemma read_packet b n i :
  (16 * n <= length b)%nat -> 0 <= i < Z.of_nat n ->
  arr_read b (i * kPacketLength) kPacketLength = packets n b !! Z.to_nat i.
Proof.
  intros Hn Hi. rewrite packets_lookup by lia. unfold arr_read. change kPacketLength with 16.
  rewrite (proj2 (Z.leb_le 0 _)), (proj2 (Z.leb_le (_ + _) _)) by lia. simpl. do 3 f_equal. lia.
Qed.

Lemma packets_ok n b : (16 * n <= length b)%nat -> Forall is_byte b -> Forall packet_ok (packets n b).
Proof.
  revert b. induction n as [|n IH]; intros b Hn Hb; [constructor|]. simpl. constructor.
  - split; [rewrite length_take; lia|by apply Forall_take].
  - apply IH; [rewrite length_drop; lia|by apply Forall_drop].
Qed.

(** ** Comparing with a macro *)

Lemma take2 (l : list Z) : (2 <= length l)%nat -> exists a b, arr_get l 0 = Some a /\ arr_get l 1 = Some b /\ take 2 l = [a; b].
Proof. destruct l as [|a [|b l]]; simpl; try lia. intros _. by exists a, b. Qed.

(** The comparison is an equality of key data. *)
Lemma compareMacro_spec n b d :
  (16 * n <= length b)%nat -> (2 * n <= length d)%nat ->
  compareMacro b d n = Some (bool_decide (keyData (packets n b) = take (2 * n) d)).
Proof.
  revert b d. induction n as [|n IH]; intros b d Hb Hd; [done|]. simpl compareMacro.
  destruct (take2 b) as (a0 & a1 & E0 & E1 & Ea); [lia|].
  destruct (take2 d) as (c0 & c1 & F0 & F1 & Fc); [lia|]. rewrite E0, E1, F0, F1. cbn [mbind option_bind].
  change (Z.to_nat kPacketLength) with 16%nat. change (Z.to_nat kPacketKeyDataLength) with 2%nat.
  rewrite (IH (drop 16 b) (drop 2 d)) by (rewrite length_drop; lia).
  assert (Ht : take (2 * S n) d = [c0; c1] ++ take (2 * n) (drop 2 d)).
  { rewrite <- Fc, <- (take_drop 2 d) at 1. rewrite take_app_ge by (rewrite length_take; lia).
    do 2 f_equal. rewrite length_take. lia. }
  assert (Hk : keyData (packets (S n) b) = [a0; a1] ++ keyData (packets n (drop 16 b))).
  { unfold keyData. simpl. rewrite take_take. by rewrite (Nat.min_l 2 16), Ea by lia. }
  replace (n + (n + 0))%nat with (2 * n)%nat by lia.
  change (S (n + S (n + 0))) with (2 * S n)%nat. rewrite Ht, Hk.
  destruct (Z.eqb_spec a0 c0) as [->|Hne]; simpl.
  - destruct (Z.eqb_spec a1 c1) as [->|Hne]; simpl; f_equal; [apply bool_decide_ext; split; congruence|].
    symmetry. apply bool_decide_eq_false. congruence.
  - f_equal. symmetry. apply bool_decide_eq_false. congruence.
Qed.

(** A macro that was loaded. *)
Definition macro_data (d : list Z) : Prop := validMacro d = true /\ Forall is_byte d.

Lemma macro_length d : macro_data d ->
  10 <= Z.of_nat (length d) /\ exists h, Z.of_nat (length d) = 2 * h.
Proof.
  intros [Hv _]. unfold validMacro in Hv. apply andb_true_iff in Hv as [Hv _].
  apply andb_true_iff in Hv as [H1%Z.leb_le H2]. change kMinMacroInversion with 10 in H1. split; [done|].
  exists (Z.of_nat (length d) / 2). unfold nz in H2. rewrite negb_involutive in H2.
  apply Z.eqb_eq in H2. change 0x01 with (Z.ones 1) in H2. rewrite Z.land_ones in H2 by lia.
  change (2 ^ 1) with 2 in H2. pose proof (Z.div_mod (Z.of_nat (length d)) 2). lia.
Qed.

Lemma macro_byte d i : macro_data d -> 0 <= i < 10 -> exists b, arr_get d i = Some b /\ is_byte b.
Proof.
  intros Hd Hi. destruct (macro_length d Hd) as [Hl _].
  destruct (arr_get_Some d i) as (b & E & E'); [lia|]. exists b. split; [done|].
  destruct Hd as [_ Hb]. by eapply Forall_lookup_1.
Qed.

(** What a match means: the whole sequence, or a proper part of it. *)
Definition match_ok (mt : MacroMatch) (d b : list Z) (n : nat) : Prop :=
  match mt with
  | NoMatch => True
  | PartialMatch => 2 * (Z.of_nat n + 1) <= Z.of_nat (length d) - 8
  | ExactMatch => keyData (packets n b) = drop 8 d
  end.

Lemma matchMacro_spec d b n state :
  macro_data d -> (16 * n <= length b)%nat ->
  exists mt, matchMacro d b (Z.of_nat n) state = Some mt /\ match_ok mt d b n.
Proof.
  intros Hd Hn. destruct (macro_length d Hd) as [Hl [h Hh]]. unfold matchMacro.
  change kPacketKeyDataLength with 2. change kPrefixBytes with 8. change kSequenceBytesOffset with 8.
  destruct (Z.leb_spec (Z.of_nat n * 2) (Z.of_nat (length d) - 8)) as [Hle|]; [|by exists NoMatch]. cbn [negb].
  rewrite Nat2Z.id, compareMacro_spec by (rewrite ?length_drop; lia). cbn [mbind option_bind].
  case_bool_decide as Hk; [|by exists NoMatch]. cbn [negb].
  destruct (Z.eqb_spec (Z.of_nat n * 2) (Z.of_nat (length d) - 8)) as [He|Hne]; cbn [negb].
  - unfold macroModifiers. change kModifierBytesOffset with 4.
    destruct (macro_byte d (4 + 0) Hd ltac:(lia)) as (m0 & -> & _).
    destruct (macro_byte d (4 + 1) Hd ltac:(lia)) as (m1 & -> & _).
    destruct (macro_byte d (4 + 2) Hd ltac:(lia)) as (c0 & -> & _).
    destruct (macro_byte d (4 + 3) Hd ltac:(lia)) as (c1 & -> & _).
    cbn [mbind option_bind]. destruct (_ || _); [exists ExactMatch|by exists NoMatch].
    split; [done|]. simpl. rewrite Hk. apply take_ge. rewrite length_drop. lia.
  - exists PartialMatch. split; [done|]. simpl. lia.
Qed.

Lemma findMacro_spec l b n state :
  Forall macro_data l -> (16 * n <= length b)%nat ->
  exists mt d, findMacro l b (Z.of_nat n) state = Some (mt, d) /\
    (mt = NoMatch \/ d ∈ l /\ match_ok mt d b n).
Proof.
  intros Hl Hn. induction Hl as [|d l Hd _ IH]; [by exists NoMatch, []; auto|]. simpl.
  destruct (matchMacro_spec d b n state Hd Hn) as (mt & -> & Hm). cbn [mbind option_bind].
  destruct IH as (mt' & d' & E & H'). destruct mt.
  - exists mt', d'. split; [done|]. destruct H' as [->|[H1 H2]]; [by left|right]. split; [by apply list_elem_of_further|done].
  - exists PartialMatch, d. split; [done|]. right. split; [apply list_elem_of_here|done].
  - exists ExactMatch, d. split; [done|]. right. split; [apply list_elem_of_here|done].
Qed.

(** ** What came in and what went out *)

(** A stretch of the packets that came in: one that went out as it was, or a macro's
    sequence, which went out as its packet with the first one's time stamp. *)
Inductive segment :=
| Plain (pk : list Z)
| Inverted (d : list Z) (first : list Z) (rest : list (list Z)).

Definition seg_in (s : segment) : list (list Z) :=
  match s with Plain pk => [pk] | Inverted _ first rest => first :: rest end.
Definition seg_out (s : segment) : list (list Z) :=
  match s with
  | Plain pk => [pk]
  | Inverted d first _ => [take 2 (drop 2 d) ++ drop 2 first]
  end.
(** The sequence of an inverted macro is the macro's, byte for byte. *)
Definition seg_ok (l : list (list Z)) (s : segment) : Prop :=
  match s with
  | Plain _ => True
  | Inverted d first rest => d ∈ l /\ keyData (first :: rest) = drop 8 d
  end.

(** [ins] has come in, [outs] gone out and [rest] is still kept back. *)
Definition explained (l : list (list Z)) (ins outs rest : list (list Z)) : Prop :=
  exists segs, Forall (seg_ok l) segs /\ ins = concat (map seg_in segs) ++ rest /\
    outs = concat (map seg_out segs).

Lemma explained_nil l rest : explained l rest [] rest.
Proof. by exists []. Qed.

Lemma explained_plain l ps rest : explained l (ps ++ rest) ps rest.
Proof.
  exists (map Plain ps). split; [apply Forall_forall; intros s (pk & -> & _)%list_elem_of_fmap; done|].
  assert (E : concat (map seg_in (map Plain ps)) = ps /\ concat (map seg_out (map Plain ps)) = ps).
  { induction ps as [|pk ps [H1 H2]]; [done|]. simpl. by rewrite H1, H2. }
  destruct E as [-> ->]. done.
Qed.

Lemma explained_app l ins1 outs1 rest1 ins2 outs2 rest2 :
  explained l ins1 outs1 rest1 -> explained l (rest1 ++ ins2) outs2 rest2 ->
  explained l (ins1 ++ ins2) (outs1 ++ outs2) rest2.
Proof.
  intros (s1 & F1 & -> & ->) (s2 & F2 & E2 & ->). exists (s1 ++ s2). split; [by apply Forall_app_2|].
  rewrite !map_app, !concat_app. by rewrite <- (app_assoc _ rest1), E2, app_assoc.
Qed.

Section Macros.
Context {B : Type} `{HK : KeyboardHost B} `{HL : !KeyboardHostLaws B}.
Context (clock : nat -> Z) (absolutetime_to_nanoseconds : Z -> Z) (version_major : Z).
#[local] Abbreviation W := (@KbdWorld B).
#[local] Abbreviation dispatch := (dispatchKeyboardEventWithPacket clock absolutetime_to_nanoseconds version_major).
#[local] Abbreviation tooLate := (tooLate absolutetime_to_nanoseconds).
#[local] Abbreviation dispatchInvertBuffer := (dispatchInvertBuffer clock absolutetime_to_nanoseconds version_major).
#[local] Abbreviation searchMacros := (searchMacros clock absolutetime_to_nanoseconds version_major).
#[local] Abbreviation invertMacros := (invertMacros clock absolutetime_to_nanoseconds version_major).
#[local] Abbreviation handlePacket := (handlePacket clock absolutetime_to_nanoseconds version_major).
#[local] Abbreviation expireMacro := (expireMacro clock absolutetime_to_nanoseconds version_major).
Implicit Types (w : W) (k : ApplePS2Keyboard) (m : MacroState).

(** ** Dispatch traces

    [dispatches w outs w']: from [w] to [w'] exactly the packets [outs] are dispatched,
    in this order; in between nothing is reported and nobody is called. *)
Definition quiet w w' : Prop := klog w' = klog w /\ kbus w' = kbus w.

Inductive dispatches : W -> list (list Z) -> W -> Prop :=
| dispatches_quiet w w' : quiet w w' -> dispatches w [] w'
| dispatches_call w pk w' r : dispatch pk w = Ok (w', r) -> dispatches w [pk] w'
| dispatches_app w1 l1 w2 l2 w3 :
    dispatches w1 l1 w2 -> dispatches w2 l2 w3 -> dispatches w1 (l1 ++ l2) w3.

(** [traced c Q w]: from [w], [c] does not crash; if it ends, [Q] holds of its value,
    of what it dispatched and of the world. *)
Definition traced {X} (c : M W X) (Q : X -> list (list Z) -> W -> Prop) w : Prop :=
  wp c (fun x w' => exists outs, dispatches w outs w' /\ Q x outs w') w.

Lemma traced_ret {X} (x : X) (Q : X -> list (list Z) -> W -> Prop) w : Q x [] w -> traced (ret x) Q w.
Proof. intros HQ. exists []. split; [by constructor|done]. Qed.

Lemma traced_mono {X} (c : M W X) (Q R : X -> list (list Z) -> W -> Prop) w :
  traced c Q w -> (forall x outs w', Q x outs w' -> R x outs w') -> traced c R w.
Proof. intros Hc HR. eapply wp_mono; [exact Hc|]. cbn beta. intros x w' (o & H1 & H2). eauto. Qed.

Lemma traced_bind {X Y} (c : M W X) (f : X -> M W Y) (Q : Y -> list (list Z) -> W -> Prop) w :
  traced c (fun x o1 w1 => traced (f x) (fun y o2 w2 => Q y (o1 ++ o2) w2) w1) w -> traced (c ≫= f) Q w.
Proof.
  intros Hc. apply wp_bind. eapply wp_mono; [exact Hc|]. cbn beta. intros x w1 (o1 & D1 & Hf).
  eapply wp_mono; [exact Hf|]. cbn beta. intros y w2 (o2 & D2 & HQ).
  exists (o1 ++ o2). split; [by eapply dispatches_app|done].
Qed.

Lemma traced_kget {X Y} (f : ApplePS2Keyboard -> X) (g : X -> M W Y) (Q : Y -> list (list Z) -> W -> Prop) w :
  traced (g (f (kbd w))) Q w -> traced (kget f ≫= g) Q w.
Proof. intros Hg. exact Hg. Qed.

Lemma traced_deref {X Y} (o : option X) x (g : X -> M W Y) (Q : Y -> list (list Z) -> W -> Prop) w :
  o = Some x -> traced (g x) Q w -> traced (deref o ≫= g) Q w.
Proof. intros -> Hg. exact Hg. Qed.

Lemma traced_kset (f : ApplePS2Keyboard -> ApplePS2Keyboard) (Q : unit -> list (list Z) -> W -> Prop) w :
  Q tt [] {| w with kbd := f (kbd w) |} -> traced (kset f) Q w.
Proof. intros HQ. exists []. split; [by constructor|done]. Qed.

Lemma traced_kstep f k' (Q : unit -> list (list Z) -> W -> Prop) w :
  f (kbd w) = Some k' -> Q tt [] {| w with kbd := k' |} -> traced (kstep f) Q w.
Proof.
  intros E HQ. unfold kstep. apply traced_kget. eapply traced_deref; [exact E|]. by apply traced_kset.
Qed.

(** ** The driver with a macro state

    The bus is as good as [base], where the run began. *)
Context (p : Z) (base : B).

Definition holds m w : Prop := attached p true m (kbd w) /\ bus_same base (kbus w).

(** The packets kept back. *)
Definition kept_back m : list (list Z) :=
  match ms_buffer m with Some b => packets (Z.to_nat (ms_current m)) b | None => [] end.

Lemma traced_dispatch pk m w :
  packet_ok pk -> holds m w -> traced (dispatch pk) (fun _ outs w' => outs = [pk] /\ holds m w') w.
Proof.
  intros Hp [Hw Hb]. pose proof (steady_dispatch clock absolutetime_to_nanoseconds version_major p true m eq_refl pk Hp w Hw (bs_ok _ _ Hb)) as Hs.
  unfold traced, wp in *. destruct (dispatch pk w) as [[w' r]| |] eqn:E; [|done..].
  destruct Hs as [H1 H2]. exists [pk]. split; [by eapply dispatches_call|]. split; [done|].
  split; [done|by eapply kbd_bus_same_trans].
Qed.

(** Changing the macro state only. *)
Lemma holds_macros m m' w k' :
  holds m w -> base_ok k' -> _device k' = _device (kbd w) -> _sleepEjectTimer k' = _sleepEjectTimer (kbd w) ->
  macros k' = m' -> holds m' {| w with kbd := k' |}.
Proof. intros [[H1 H2 H3 H4] H5] Hb Hd Hs Hm. split; [|done]. split; simpl; [done|congruence|rewrite Hs; done|congruence]. Qed.

Ltac macro_step :=
  lazymatch goal with Hw : holds ?m ?w |- holds _ (mkKbdWorld _ (kbus ?w) _ _) =>
    let H1 := fresh in let H2 := fresh in let H3 := fresh in let E := fresh in
    pose proof Hw as [[H1 H2 H3 E] _]; eapply (holds_macros m _ w _ Hw);
      [destruct H1; by split|done|done|];
    pose proof (f_equal ms_inversion E); pose proof (f_equal ms_buffer E);
    pose proof (f_equal ms_current E); pose proof (f_equal ms_timer E);
    unfold macros in *; simpl in *; f_equal; congruence
  end.

Lemma traced_cancelTimer m w :
  holds m w -> is_Some (ms_timer m) ->
  traced cancelMacroTimer (fun _ outs w' => outs = [] /\ holds {| m with ms_timer := Some None |} w') w.
Proof.
  intros Hw Ht. pose proof Hw as [[_ _ _ E] _]. rewrite <- E in Ht. simpl in Ht. destruct Ht as [t Ht].
  eapply traced_kstep; [rewrite Ht; done|]. split; [done|]. macro_step.
Qed.

Lemma macroPacket_eq m w b n i :
  holds m w -> ms_buffer m = Some b -> (16 * n <= length b)%nat -> 0 <= i < Z.of_nat n ->
  exists pk, packets n b !! Z.to_nat i = Some pk /\ macroPacket i w = Ok (w, pk).
Proof.
  intros [[_ _ _ E] _] Hb Hn Hi. rewrite <- E in Hb. simpl in Hb.
  destruct (lookup_lt_is_Some_2 (packets n b) (Z.to_nat i)) as [pk Hpk]; [rewrite length_packets; lia|].
  exists pk. split; [done|]. unfold macroPacket.
  rewrite (bind_ok _ _ w w (Some b)) by (unfold kget, gets; by rewrite Hb).
  rewrite (bind_ok _ _ w w b) by done. rewrite (read_packet b n i) by done. by rewrite Hpk.
Qed.

Lemma traced_macroPacket {Y} m w b n i (g : list Z -> M W Y) (Q : Y -> list (list Z) -> W -> Prop) :
  holds m w -> ms_buffer m = Some b -> (16 * n <= length b)%nat -> 0 <= i < Z.of_nat n ->
  (forall pk, packets n b !! Z.to_nat i = Some pk -> traced (g pk) Q w) ->
  traced (macroPacket i ≫= g) Q w.
Proof.
  intros Hw Hb Hn Hi Hg. destruct (macroPacket_eq m w b n i Hw Hb Hn Hi) as (pk & Hpk & E).
  unfold traced, wp. rewrite (bind_ok _ _ _ _ _ E). by apply Hg.
Qed.

(** ** Letting the buffer go *)

Lemma macro_room m : macro_ok m -> 0 < ms_current m -> exists b l,
  ms_buffer m = Some b /\ ms_inversion m = Some l /\ is_Some (ms_timer m) /\ Forall is_byte b /\
  (16 * S (Z.to_nat (ms_current m)) <= length b)%nat.
Proof.
  intros Hm Hc. destruct (mo_room _ Hm Hc) as (Ht & [b Hb] & l & Hl & Hr).
  destruct (mo_buffer _ Hm b Hb) as (Hby & l' & Hl' & Hlen). exists b, l.
  assert (l' = l) as -> by congruence. change kPacketLength with 16 in Hlen.
  change kPacketKeyDataLength with 2 in Hr. repeat (split; [done|]). lia.
Qed.

Lemma traced_sendAll m b n w : forall i j,
  holds m w -> ms_buffer m = Some b -> (16 * n <= length b)%nat -> Forall is_byte b ->
  0 <= i -> i + Z.of_nat j = Z.of_nat n ->
  traced (for_each (seqZ i (Z.of_nat j)) (fun i => pk ← macroPacket i; dispatch pk ;; ret tt))
    (fun _ outs w' => outs = drop (Z.to_nat i) (packets n b) /\ holds m w') w.
Proof.
  intros i j. revert i w. induction j as [|j IH]; intros i w Hw Hb Hn Hy Hi Hj.
  - simpl. apply traced_ret. split; [|done]. rewrite drop_ge; [done|]. rewrite length_packets. lia.
  - rewrite seqZ_cons by lia. simpl for_each. apply traced_bind, (traced_macroPacket m w b n i); [done..|lia|].
    intros pk Hpk. apply traced_bind. eapply traced_mono; [apply (traced_dispatch pk m w)|].
    + pose proof (packets_ok n b Hn Hy) as HF. by eapply Forall_lookup_1.
    + done.
    + cbn beta. intros _ o1 w1 [-> Hw1]. apply traced_ret. rewrite app_nil_r.
      replace (Z.pred (Z.of_nat (S j))) with (Z.of_nat j) by lia.
      eapply traced_mono; [apply (IH (Z.succ i) w1); [done..|lia|lia]|]. cbn beta.
      intros _ o2 w2 [-> Hw2]. split; [|done]. rewrite (drop_S _ pk (Z.to_nat i)) by done.
      simpl. do 2 f_equal. lia.
Qed.

Definition emptied m : MacroState := {| m with ms_current := 0; ms_timer := Some None |}.

Lemma emptied_ok m : macro_ok m -> macro_ok (emptied m).
Proof. intros []. split; simpl; try done; lia. Qed.

Lemma traced_dispatchInvertBuffer m w :
  holds m w -> macro_ok m -> 0 < ms_current m ->
  traced dispatchInvertBuffer (fun _ outs w' => outs = kept_back m /\ holds (emptied m) w') w.
Proof.
  intros Hw Hm Hc. destruct (macro_room m Hm Hc) as (b & l & Hb & Hl & Ht & Hy & Hn).
  unfold KeyboardRun.dispatchInvertBuffer. apply traced_kget.
  assert (E : _macroCurrent (kbd w) = Z.of_nat (Z.to_nat (ms_current m))).
  { destruct Hw as [[_ _ _ E] _]. rewrite <- E in Hc |- *. simpl in *. lia. }
  rewrite E. apply traced_bind. eapply traced_mono;
    [apply (traced_sendAll m b (Z.to_nat (ms_current m)) w 0); [done..|lia|done|done|lia]|].
  cbn beta. intros _ o w1 [-> Hw1]. apply traced_bind, traced_kset.
  assert (H2 : holds {| m with ms_current := 0 |} {| w1 with kbd := {| (kbd w1) with _macroCurrent := 0 |} |})
    by macro_step.
  eapply traced_mono; [apply (traced_cancelTimer {| m with ms_current := 0 |}); [exact H2|done]|].
  cbn beta. intros _ o w2 [-> Hw2]. rewrite !app_nil_r. split; [|exact Hw2].
  unfold kept_back. by rewrite Hb.
Qed.

Lemma traced_tooLate {Y} m w (now : Z) (g : bool -> M W Y) (Q : Y -> list (list Z) -> W -> Prop) :
  holds m w -> macro_ok m -> 0 < ms_current m -> (forall late, traced (g late) Q w) ->
  traced (tooLate now ≫= g) Q w.
Proof.
  intros Hw Hm Hc Hg. destruct (macro_room m Hm Hc) as (b & l & Hb & Hl & Ht & Hy & Hn).
  apply traced_bind. unfold KeyboardRun.tooLate. apply traced_kget.
  assert (E : _macroCurrent (kbd w) = ms_current m) by (destruct Hw as [[_ _ _ <-] _]; done). rewrite E.
  apply (traced_macroPacket m w b (Z.to_nat (ms_current m))); [done..|lia|lia|]. intros pk _.
  apply traced_kget, traced_ret. apply Hg.
Qed.

(** ** One packet *)

(** The buffer after an exact match, whose first packet is the macro's. *)
Lemma putOutput_spec d b :
  macro_data d -> (16 <= length b)%nat -> Forall is_byte b ->
  exists b', putOutput d b = Some b' /\ length b' = length b /\ Forall is_byte b' /\
    take 16 b' = take 2 (drop 2 d) ++ drop 2 (take 16 b).
Proof.
  intros Hd Hb Hy. unfold putOutput. change kOutputBytesOffset with 2.
  destruct (macro_byte d (2 + 0) Hd ltac:(lia)) as (o0 & E0 & B0). rewrite E0.
  destruct (macro_byte d (2 + 1) Hd ltac:(lia)) as (o1 & E1 & B1). rewrite E1. cbn [mbind option_bind].
  rewrite arr_set_Some by lia. cbn [mbind option_bind]. rewrite arr_set_Some by (rewrite length_insert; lia).
  eexists. split; [done|]. split; [by rewrite !length_insert|].
  split; [by apply Forall_insert; [apply Forall_insert|]|].
  destruct (macro_length d Hd) as [Hl _].
  destruct d as [|d0 [|d1 [|d2 [|d3 d]]]]; try (simpl in Hl; lia). injection E0 as ->. injection E1 as ->.
  by destruct b as [|b0 [|b1 b]]; try (simpl in Hb; lia).
Qed.

(** What handling one packet [pk] does, given what was kept back. *)
Definition handled m pk (r : bool) (outs : list (list Z)) w' : Prop := exists m',
  holds m' w' /\ macro_ok m' /\ ms_inversion m' = ms_inversion m /\
  explained (default [] (ms_inversion m)) (kept_back m ++ [pk]) outs
    (if r then kept_back m' else [pk]) /\ (r = false -> kept_back m' = []).

Lemma kept_back_none m : macro_ok m -> ms_current m <= 0 -> kept_back m = [].
Proof.
  intros Hm Hc. pose proof (mo_nonneg _ Hm). unfold kept_back. destruct (ms_buffer m); [|done].
  by replace (Z.to_nat (ms_current m)) with O by lia.
Qed.

Lemma length_kept_back m b : ms_buffer m = Some b -> length (kept_back m) = Z.to_nat (ms_current m).
Proof. intros Hb. unfold kept_back. rewrite Hb. apply length_packets. Qed.

(** Once a packet is stored behind the ones kept back, a macro is looked for. *)
Lemma traced_search m b l pk w :
  holds m w -> macro_ok m -> packet_ok pk ->
  ms_buffer m = Some b -> ms_inversion m = Some l -> is_Some (ms_timer m) ->
  (16 * S (Z.to_nat (ms_current m)) <= length b)%nat ->
  packets (S (Z.to_nat (ms_current m))) b = kept_back m ++ [pk] ->
  traced (searchMacros l) (handled m pk) w.
Proof.
  intros Hw Hm Hpk Hb Hl Ht Hn Hp. pose proof (mo_nonneg _ Hm) as H0.
  pose proof (proj2 (mo_valid _ Hm l Hl)) as Hv. destruct (mo_buffer _ Hm b Hb) as (Hy & l' & El & Hlen).
  assert (l' = l) as -> by congruence. clear El. change kPacketLength with 16 in Hlen.
  pose proof (at_macros _ _ _ _ (proj1 Hw)) as E.
  assert (Ec : _macroCurrent (kbd w) = ms_current m) by (by rewrite <- E).
  assert (Eb : _macroBuffer (kbd w) = Some b) by (by rewrite <- Hb, <- E).
  unfold KeyboardRun.searchMacros. apply traced_kget, traced_kget. rewrite Ec, Eb. cbn [mbind option_bind].
  replace (ms_current m + 1) with (Z.of_nat (S (Z.to_nat (ms_current m)))) by lia.
  destruct (findMacro_spec l b (S (Z.to_nat (ms_current m))) (_PS2modifierState (kbd w)) Hv Hn)
    as (mt & d & Ef & Hf). eapply traced_deref; [exact Ef|].
  destruct mt.
  - apply traced_kget. rewrite Ec. apply traced_bind. destruct (Z.ltb_spec 0 (ms_current m)) as [Hc|Hc].
    + eapply traced_mono; [by apply (traced_dispatchInvertBuffer m w)|]. cbn beta. intros _ o w' [-> Hh].
      apply traced_ret. exists (emptied m). split; [done|]. split; [by apply emptied_ok|].
      split; [done|]. rewrite app_nil_r. split; [apply explained_plain|].
      intros _. by apply kept_back_none; [apply emptied_ok|].
    + apply traced_ret, traced_ret. exists m. do 3 (split; [done|]).
      rewrite kept_back_none by done. split; [apply explained_nil|done].
  - destruct Hf as [?|[Hd Hf]]; [done|]. simpl in Hf. apply traced_bind.
    eapply traced_mono; [by apply (traced_cancelTimer m w)|]. cbn beta. intros _ o w1 [-> H1].
    apply traced_kget. apply traced_bind. pose proof (at_macros _ _ _ _ (proj1 H1)) as E1.
    pose proof (f_equal ms_timer E1) as Et. simpl in Et. eapply traced_kstep; [rewrite Et; done|].
    set (m2 := {| m with ms_timer := Some (Some (_macroMaxTime (kbd w1))) |}).
    assert (H2 : holds m2 {| w1 with kbd := {| (kbd w1) with _macroTimer := ms_timer m2 |} |})
      by (unfold m2; simpl; macro_step).
    apply traced_bind, traced_kset, traced_ret.
    exists {| m2 with ms_current := Z.of_nat (S (Z.to_nat (ms_current m))) |}. split; [unfold m2 in *; macro_step|].
    assert (Hk : kept_back {| m2 with ms_current := Z.of_nat (S (Z.to_nat (ms_current m))) |} = kept_back m ++ [pk])
      by (unfold kept_back at 1; unfold m2; simpl ms_buffer; rewrite Hb; cbn [ms_current]; by rewrite Nat2Z.id).
    rewrite Hk. split; [|split; [done|split; [apply explained_nil|done]]].
    pose proof (longestMacro_le l d Hd) as Hlm. change kPrefixBytes with 8 in Hlm.
    destruct Hm as [M1 M2 M3 M4]. split; simpl; [done|done|lia|]. intros _. split; [done|]. split; [by rewrite Hb|].
    exists l. split; [done|]. change kPacketKeyDataLength with 2. lia.
  - destruct Hf as [?|[Hd Hf]]; [done|]. simpl match_ok in Hf. rewrite Forall_forall in Hv. specialize (Hv d Hd).
    destruct (putOutput_spec d b Hv ltac:(lia) Hy) as (b' & Eo & Hl' & Hy' & Ht').
    apply traced_bind. eapply traced_kstep; [rewrite Eb; cbn [mbind option_bind]; rewrite Eo; done|].
    set (m1 := {| m with ms_buffer := Some b' |}).
    assert (H1 : holds m1 {| w with kbd := {| (kbd w) with _macroBuffer := Some b' |} |}) by (unfold m1; macro_step).
    apply (traced_macroPacket m1 _ b' 1 0 _ _ H1); [done|lia|lia|]. intros pk0 [= <-]. rewrite Ht'.
    apply traced_bind. eapply traced_mono; [apply (traced_dispatch _ m1); [|exact H1]|].
    { rewrite <- Ht'. pose proof (packets_ok 1 b' ltac:(lia) Hy') as HF. by inversion HF. }
    cbn beta. intros _ o w2 [-> H2]. apply traced_bind.
    eapply traced_mono; [by apply (traced_cancelTimer m1 w2)|]. cbn beta. intros _ o w3 [-> H3].
    apply traced_bind, traced_kset, traced_ret. exists (emptied m1).
    split; [unfold emptied, m1 in *; macro_step|].
    assert (Hm1 : macro_ok m1).
    { destruct Hm as [M1 M2 M3 M4]. split; simpl; [done| |done|].
      - intros b0 [= <-]. split; [done|]. exists l. split; [done|]. rewrite Hl'. exact Hlen.
      - intros Hc. destruct (M4 Hc) as (? & ? & ?). split; [done|]. split; [done|done]. }
    split; [by apply emptied_ok|]. split; [done|]. split; [|done].
    rewrite (kept_back_none (emptied m1)) by (try apply emptied_ok; done).
    rewrite <- Hp, Hl. simpl default.
    change (packets (S ?n) b) with (take 16 b :: packets n (drop 16 b)) in *.
    exists [Inverted d (take 16 b) (packets (Z.to_nat (ms_current m)) (drop 16 b))].
    split; [apply Forall_singleton; exact (conj Hd Hf)|]. simpl. by rewrite !app_nil_r.
Qed.

Lemma traced_store m b pk w :
  holds m w -> macro_ok m -> packet_ok pk -> ms_buffer m = Some b ->
  (16 * S (Z.to_nat (ms_current m)) <= length b)%nat ->
  traced (storeMacroPacket pk) (fun _ outs w' => outs = [] /\ exists b',
    length b' = length b /\ Forall is_byte b' /\ holds {| m with ms_buffer := Some b' |} w' /\
    packets (S (Z.to_nat (ms_current m))) b' = kept_back m ++ [pk]) w.
Proof.
  intros Hw Hm Hpk Hb Hn. destruct (mo_buffer _ Hm b Hb) as (Hy & _).
  destruct (write_packet b (Z.to_nat (ms_current m)) pk Hn Hpk Hy) as (b' & E & Hl & Hy' & Hp).
  pose proof (at_macros _ _ _ _ (proj1 Hw)) as Em. pose proof (mo_nonneg _ Hm).
  assert (Eb : _macroBuffer (kbd w) = Some b) by (by rewrite <- Hb, <- Em).
  assert (Ec : _macroCurrent (kbd w) = Z.of_nat (Z.to_nat (ms_current m))) by (rewrite <- Em; simpl; rewrite <- Em in H0; simpl in H0; lia).
  eapply traced_kstep; [rewrite Eb, Ec; cbn [mbind option_bind]; rewrite E; done|].
  split; [done|]. exists b'. do 2 (split; [done|]). split; [macro_step|]. rewrite Hp. unfold kept_back. by rewrite Hb.
Qed.

(** There is always room for one more packet. *)
Lemma buffer_room m b : macro_ok m -> ms_buffer m = Some b ->
  (16 * S (Z.to_nat (ms_current m)) <= length b)%nat.
Proof.
  intros Hm Hb. pose proof (mo_nonneg _ Hm). destruct (Z.eq_dec (ms_current m) 0) as [Hc|Hc].
  - destruct (mo_buffer _ Hm b Hb) as (_ & l & Hl & E). destruct (mo_valid _ Hm l Hl) as [Hne Hv].
    destruct l as [|d l]; [done|]. pose proof (longestMacro_le (d :: l) d (list_elem_of_here _ _)) as Hlm.
    apply Forall_cons in Hv as [Hd _]. destruct (macro_length d Hd) as [H10 _].
    change kPrefixBytes with 8 in Hlm. change kPacketLength with 16 in E. rewrite Hc. change (Z.to_nat 0) with O. lia.
  - destruct (macro_room m Hm ltac:(lia)) as (b' & _ & Hb' & _ & _ & _ & Hn). by assert (b' = b) as -> by congruence.
Qed.

(** Storing and searching, from any macro state. *)
Lemma packets_snoc n b l pk : packets (S n) b = l ++ [pk] -> length l = n -> packets n b = l.
Proof.
  intros E Hl. assert (Ht : packets n b = take n (packets (S n) b)).
  { clear. revert b. induction n as [|n IH]; intros b; [done|]. simpl. f_equal. apply IH. }
  by rewrite Ht, E, take_app_length'.
Qed.

Lemma traced_storeAndSearch m pk w b l :
  holds m w -> macro_ok m -> packet_ok pk -> ms_buffer m = Some b -> ms_inversion m = Some l ->
  is_Some (ms_timer m) ->
  traced (storeMacroPacket pk ;; searchMacros l) (handled m pk) w.
Proof.
  intros Hw Hm Hpk Hb Hl Ht. pose proof (buffer_room m b Hm Hb) as Hn. apply traced_bind.
  eapply traced_mono; [by apply (traced_store m b pk w)|]. cbn beta.
  intros _ o w1 (-> & b' & Hlen & Hy & H1 & Hp). set (m1 := {| m with ms_buffer := Some b' |}) in *.
  assert (Hk : kept_back m1 = kept_back m).
  { apply packets_snoc in Hp as E; [exact E|]. by rewrite (length_kept_back m b). }
  assert (Hm1 : macro_ok m1).
  { destruct Hm as [M1 M2 M3 M4]. split; simpl; [done| |done|].
    - intros b0 [= <-]. split; [done|]. destruct (M2 b Hb) as (_ & l0 & E0 & E1). exists l0. by rewrite Hlen.
    - intros Hc. destruct (M4 Hc) as (? & ? & ?). by split. }
  eapply traced_mono; [apply (traced_search m1 b' l pk w1); try done|].
  - simpl. lia.
  - by rewrite Hk.
  - cbn beta. intros r o w2 (m' & A & C & D & E & F). exists m'. rewrite Hk in E. done.
Qed.

Lemma traced_invertMacros m pk w :
  holds m w -> macro_ok m -> packet_ok pk -> is_Some (ms_inversion m) ->
  traced (invertMacros pk) (handled m pk) w.
Proof.
  intros Hw Hm Hpk [l Hl]. pose proof (at_macros _ _ _ _ (proj1 Hw)) as E.
  unfold KeyboardRun.invertMacros. apply traced_kget.
  assert (El : _macroInversion (kbd w) = Some l) by (by rewrite <- Hl, <- E).
  eapply traced_deref; [exact El|].
  assert (Ec : _macroCurrent (kbd w) = ms_current m) by (by rewrite <- E).
  assert (Et : _macroTimer (kbd w) = ms_timer m) by (by rewrite <- E).
  assert (Eb : _macroBuffer (kbd w) = ms_buffer m) by (by rewrite <- E). rewrite Ec, Et, Eb.
  destruct (negb _ || negb _) eqn:Hn.
  { apply traced_ret. exists m. do 3 (split; [done|]).
    assert (Hk : kept_back m = []); [|rewrite Hk; split; [apply explained_nil|done]].
    apply kept_back_none; [done|]. destruct (Z.lt_ge_cases 0 (ms_current m)) as [Hc|]; [|done].
    destruct (mo_room _ Hm Hc) as (H1 & H2 & _). rewrite !bool_decide_eq_true_2 in Hn by done. done. }
  apply orb_false_iff in Hn as [Ht%negb_false_iff%bool_decide_eq_true Hb%negb_false_iff%bool_decide_eq_true].
  destruct Hb as [b Hb]. apply traced_bind. destruct (Z.ltb_spec 0 (ms_current m)) as [Hc|Hc].
  - apply (traced_tooLate m); [done..|]. intros [|].
    + eapply traced_mono; [by apply (traced_dispatchInvertBuffer m w)|]. cbn beta. intros _ o w1 [-> H1].
      eapply traced_mono; [apply (traced_storeAndSearch (emptied m) pk w1 b l); try done; by apply emptied_ok|].
      cbn beta. intros r o w2 (m' & A & C & D & F & G). exists m'. do 3 (split; [done|]). split; [|done].
      rewrite (kept_back_none (emptied m)) in F by (try apply emptied_ok; done).
      eapply explained_app; [|exact F]. rewrite <- (app_nil_r (kept_back m)) at 1. apply explained_plain.
    + apply traced_ret. by apply (traced_storeAndSearch m pk w b l).
  - apply traced_ret. by apply (traced_storeAndSearch m pk w b l).
Qed.

(** What [handlePacket] leaves. *)
Definition settled m ins (outs : list (list Z)) w' : Prop := exists m',
  holds m' w' /\ macro_ok m' /\ ms_inversion m' = ms_inversion m /\
  explained (default [] (ms_inversion m)) (kept_back m ++ ins) outs (kept_back m').

Lemma traced_handlePacket m pk w :
  holds m w -> macro_ok m -> packet_ok pk ->
  traced (handlePacket pk) (fun _ outs w' => settled m [pk] outs w') w.
Proof.
  intros Hw Hm Hpk. pose proof (at_macros _ _ _ _ (proj1 Hw)) as E.
  assert (El : _macroInversion (kbd w) = ms_inversion m) by (by rewrite <- E).
  unfold KeyboardRun.handlePacket. apply traced_kget. rewrite El. apply traced_bind.
  assert (Hh : traced (match ms_inversion m with None => ret false | Some _ => invertMacros pk end)
    (handled m pk) w).
  { destruct (ms_inversion m) as [l|] eqn:Hl; [apply traced_invertMacros; [done..|by rewrite Hl]|].
    apply traced_ret. exists m. do 3 (split; [done|]). rewrite (kept_back_none m Hm); [split; [apply explained_nil|done]|].
    destruct (Z.lt_ge_cases 0 (ms_current m)) as [Hc|]; [|done].
    destruct (mo_room _ Hm Hc) as (_ & _ & l & Hl' & _). congruence. }
  eapply traced_mono; [exact Hh|]. cbn beta. intros r o w1 (m' & A & C & D & F & G).
  destruct r; cbn [negb when]; [apply traced_ret; rewrite app_nil_r; by exists m'|].
  apply traced_bind. eapply traced_mono; [by apply (traced_dispatch pk m')|]. cbn beta.
  intros _ o2 w2 [-> H2]. apply traced_ret. rewrite app_nil_r. exists m'. do 3 (split; [done|]).
  rewrite (G eq_refl). rewrite <- (app_nil_r (kept_back m ++ [pk])).
  eapply explained_app; [exact F|]. apply (explained_plain _ [pk] []).
Qed.

Lemma traced_expireMacro m w :
  holds m w -> macro_ok m -> traced expireMacro (fun _ outs w' => settled m [] outs w') w.
Proof.
  intros Hw Hm. unfold KeyboardRun.expireMacro. apply traced_kget.
  assert (Ec : _macroCurrent (kbd w) = ms_current m) by (by rewrite <- (at_macros _ _ _ _ (proj1 Hw))). rewrite Ec.
  assert (Hid : forall w', holds m w' -> settled m [] [] w').
  { intros w' Hw'. exists m. do 3 (split; [done|]). rewrite app_nil_r. apply explained_nil. }
  destruct (Z.ltb_spec 0 (ms_current m)) as [Hc|]; [|by apply traced_ret, Hid]. cbn [when].
  apply traced_bind. exists []. split; [by constructor|]. cbn beta.
  assert (H1 : holds m {| w with ticks := S (ticks w) |}) by exact Hw.
  apply (traced_tooLate m); [done..|]. intros [|]; [|by apply traced_ret, Hid].
  eapply traced_mono; [by apply (traced_dispatchInvertBuffer m)|]. cbn beta. intros _ o w1 [-> H2].
  exists (emptied m). split; [done|]. split; [by apply emptied_ok|]. split; [done|]. simpl.
  rewrite (kept_back_none (emptied m)) by (try apply emptied_ok; done).
  apply explained_plain.
Qed.

(** ** Histories *)

(** A packet from the keyboard, or the end of a timeout. *)
Inductive MacroOp := MacroPacket (pk : list Z) | MacroTimeout.

Definition run_macro (o : MacroOp) : M W unit :=
  match o with MacroPacket pk => handlePacket pk | MacroTimeout => expireMacro end.

Definition came_in (ops : list MacroOp) : list (list Z) :=
  omap (fun o => match o with MacroPacket pk => Some pk | MacroTimeout => None end) ops.

Definition macro_op_ok (o : MacroOp) : Prop :=
  match o with MacroPacket pk => packet_ok pk | MacroTimeout => True end.

(** C19: Cn: macro inversion loses no key and changes no order.  Along every history of
    packets and timeouts, whatever the configured macros, the packets kept back and
    those that come in are, in order, the packets dispatched -- each as it came, or
    the packet of a configured macro in place of a stretch whose key data are exactly
    that macro's sequence -- followed by the packets still kept back; and nothing
    leaves the macro buffer. *)
Theorem macros_lose_nothing ops m w :
  holds m w -> macro_ok m -> Forall macro_op_ok ops ->
  traced (for_each ops run_macro) (fun _ outs w' => settled m (came_in ops) outs w') w.
Proof.
  intros Hw Hm Hops. revert m w Hw Hm. induction Hops as [|o ops Ho _ IH]; intros m w Hw Hm.
  - apply traced_ret. exists m. do 3 (split; [done|]). simpl. rewrite app_nil_r. apply explained_nil.
  - simpl for_each. apply traced_bind.
    assert (H1 : traced (run_macro o) (fun _ outs w' => settled m (came_in [o]) outs w') w)
      by (destruct o; [by apply traced_handlePacket|by apply traced_expireMacro]).
    eapply traced_mono; [exact H1|]. cbn beta. intros _ o1 w1 (m1 & A & C & D & E).
    eapply traced_mono; [by apply IH|]. cbn beta. intros _ o2 w2 (m2 & A2 & C2 & D2 & E2).
    exists m2. do 2 (split; [done|]). split; [congruence|]. rewrite D in E2.
    assert (Ei : came_in (o :: ops) = came_in [o] ++ came_in ops) by (by destruct o).
    rewrite Ei, app_assoc. by eapply explained_app.
Qed.

(** C20: Cn: what is kept back does not stay: a timeout that comes more than the maximal
    macro time after the last packet lets every packet go, in order, and keeps none. *)
Theorem late_timeout_flushes m w pk :
  holds m w -> macro_ok m -> last (kept_back m) = Some pk ->
  _macroMaxTime (kbd w) < u64 (absolutetime_to_nanoseconds (u64 (clock (ticks w))) -
    absolutetime_to_nanoseconds (packetTime pk)) ->
  traced expireMacro (fun _ outs w' => outs = kept_back m /\ _macroCurrent (kbd w') = 0) w.
Proof.
  intros Hw Hm Hl Ht. pose proof (at_macros _ _ _ _ (proj1 Hw)) as E.
  assert (Ec : _macroCurrent (kbd w) = ms_current m) by (by rewrite <- E).
  assert (Hc : 0 < ms_current m).
  { destruct (Z.lt_ge_cases 0 (ms_current m)); [done|]. by rewrite kept_back_none in Hl. }
  destruct (macro_room m Hm Hc) as (b & l & Hb & _ & _ & _ & Hn).
  unfold KeyboardRun.expireMacro. apply traced_kget. rewrite Ec, (proj2 (Z.ltb_lt _ _)) by done. cbn [when].
  apply traced_bind. exists []. split; [by constructor|]. cbn beta.
  set (w0 := {| w with ticks := S (ticks w) |}). assert (H0 : holds m w0) by exact Hw.
  apply traced_bind. unfold KeyboardRun.tooLate. apply traced_kget.
  change (_macroCurrent (kbd w0)) with (_macroCurrent (kbd w)). rewrite Ec.
  apply (traced_macroPacket m w0 b (Z.to_nat (ms_current m))); [done..|lia|lia|]. intros pk' Hpk.
  assert (pk' = pk) as ->.
  { rewrite last_lookup, (length_kept_back m b) in Hl by done. unfold kept_back in Hl. rewrite Hb in Hl.
    replace (pred (Z.to_nat (ms_current m))) with (Z.to_nat (ms_current m - 1)) in Hl by lia. congruence. }
  apply traced_kget, traced_ret. change (_macroMaxTime (kbd w0)) with (_macroMaxTime (kbd w)).
  rewrite (proj2 (Z.ltb_lt _ _)) by done. eapply traced_mono; [by apply (traced_dispatchInvertBuffer m)|].
  cbn beta. intros _ o w1 [-> H1]. split; [done|]. by pose proof (f_equal ms_current (at_macros _ _ _ _ (proj1 H1))).
Qed.

(** What a packet leaves behind, for a run known to succeed. *)
Lemma handlePacket_holds m packet w w' :
  holds m w -> macro_ok m -> packet_ok packet -> handlePacket packet w = Ok (w', tt) ->
  holds (macros (kbd w')) w' /\ macro_ok (macros (kbd w')).
Proof.
  intros Hw Hm Hp E. destruct (wp_ok _ _ _ _ _ (traced_handlePacket m packet w Hw Hm Hp) E)
    as (outs & _ & m' & Hw' & Hm' & _ & _).
  by rewrite (at_macros _ _ _ _ (proj1 Hw')).
Qed.

End Macros.

(** ** A driver with one macro: left Windows, then P, is the key of code e0 05. *)
Definition bench_macro : list Z := [0xff; 0xff; 0x02; 0x05; 0; 0; 0; 0; 0x02; 0x5b; 0x01; 0x19].

Definition bench_kbd : ApplePS2Keyboard :=
  {| (loadMacros [("Macro Inversion", OSArray [OSData bench_macro])] init) with
     _device := Some 0; _sleepEjectTimer := Some None; _macroTimer := Some None;
     _PS2ToADBMap := PS2ToADBMapStock |}.

Definition bench_world : @KbdWorld BenchHost := mkKbdWorld bench_kbd (mkBenchHost false true false) 0 [].

(** A packet with time [t]. *)
Definition bench_packet (b0 b1 t : Z) : list Z := [b0; b1; 0; 0; 0; 0; 0; 0] ++ le64 t.

Lemma bench_packet_ok b0 b1 t : is_byte b0 -> is_byte b1 -> packet_ok (bench_packet b0 b1 t).
Proof.
  intros H0 H1. split; [done|]. unfold is_byte in *.
  apply Forall_app_2; [repeat (apply Forall_cons_2; [lia|]); done|]. apply Forall_forall.
  intros x (i & -> & _)%list_elem_of_fmap. apply u8_range.
Qed.

Lemma bench_kbd_attached : attached 0 true (macros bench_kbd) bench_kbd /\ macro_ok (macros bench_kbd).
Proof.
  destruct (loadMacros_probed [("Macro Inversion", OSArray [OSData bench_macro])] init) as [Hb Hm _];
    [apply init_ok|done..|].
  split.
  - split; [|done..]. unfold bench_kbd. revert Hb. generalize (loadMacros [("Macro Inversion", OSArray [OSData bench_macro])] init).
    intros k Hk. destruct Hk. split; simpl; try done. by intros p [= <-].
  - destruct Hm as [M1 M2 M3 M4]. by split.
Qed.

(** The key codes and directions reported. *)
Definition reported_keys (l : list KeyEvent) : list (Z * bool) :=
  omap (fun e => match e with EvKey c d _ => Some (c, d) | _ => None end) l.

Definition bench_clock (n : nat) : Z := 100000000 + Z.of_nat n.

Definition bench_ops : list MacroOp :=
  [MacroPacket (bench_packet 2 0x5b 10); MacroPacket (bench_packet 1 0x19 20);
   MacroPacket (bench_packet 2 0x5b 30); MacroTimeout].

Lemma bench_ops_ok : Forall macro_op_ok bench_ops.
Proof. repeat (apply Forall_cons_2; [first [done|by apply bench_packet_ok]|]). done. Qed.

(** The macro's key, then the lone Windows key after the timeout. *)
Lemma bench_same : bus_same (kbus bench_world) (kbus bench_world).
Proof. by split. Qed.

Lemma macros_lose_nothing_witness :
  let run := for_each bench_ops (run_macro bench_clock (fun t => t) 18) in
  macro_ok (macros bench_kbd) /\ Forall macro_op_ok bench_ops /\
  traced bench_clock (fun t => t) 18 run
    (fun _ outs w' => settled 0 (kbus bench_world) (macros bench_kbd) (came_in bench_ops) outs w') bench_world /\
  match run bench_world with
  | Ok (w', _) => reported_keys (klog w') = [(0x6b, true); (0x37, true)]
  | _ => False
  end.
Proof.
  intros run. destruct bench_kbd_attached as [Ha Hm]. split; [exact Hm|]. split; [exact bench_ops_ok|].
  split; [|vm_compute; reflexivity].
  exact (macros_lose_nothing bench_clock (fun t => t) 18 0 (kbus bench_world) bench_ops (macros bench_kbd) bench_world
    (conj Ha bench_same) Hm bench_ops_ok).
Defined.

(** A packet is kept back at time 10; the clock is past 100000000. *)
Definition bench_kept : @KbdWorld BenchHost :=
  match handlePacket bench_clock (fun t => t) 18 (bench_packet 2 0x5b 10) bench_world with
  | Ok (w, _) => w
  | _ => bench_world
  end.

Lemma bench_kept_eq :
  handlePacket bench_clock (fun t => t) 18 (bench_packet 2 0x5b 10) bench_world = Ok (bench_kept, tt).
Proof. vm_compute. reflexivity. Qed.

Lemma bench_kept_last : last (kept_back (macros (kbd bench_kept))) = Some (bench_packet 2 0x5b 10).
Proof. vm_compute. reflexivity. Qed.

Lemma bench_kept_late : _macroMaxTime (kbd bench_kept) <
  u64 (u64 (bench_clock (ticks bench_kept)) - packetTime (bench_packet 2 0x5b 10)).
Proof. vm_compute. reflexivity. Qed.

#[local] Opaque bench_kept.

Lemma bench_kept_holds : holds 0 (kbus bench_world) (macros (kbd bench_kept)) bench_kept /\ macro_ok (macros (kbd bench_kept)).
Proof.
  destruct bench_kbd_attached as [Ha Hm].
  exact (handlePacket_holds bench_clock (fun t => t) 18 0 (kbus bench_world) (macros bench_kbd) (bench_packet 2 0x5b 10)
    bench_world bench_kept (conj Ha bench_same) Hm (bench_packet_ok 2 0x5b 10 ltac:(done) ltac:(done)) bench_kept_eq).
Qed.

Lemma late_timeout_flushes_witness :
  last (kept_back (macros (kbd bench_kept))) = Some (bench_packet 2 0x5b 10) /\
  traced bench_clock (fun t => t) 18 (expireMacro bench_clock (fun t => t) 18)
    (fun _ outs w' => outs = kept_back (macros (kbd bench_kept)) /\ _macroCurrent (kbd w') = 0) bench_kept.
Proof.
  destruct bench_kept_holds as [Hw Hm]. split; [exact bench_kept_last|].
  exact (late_timeout_flushes bench_clock (fun t => t) 18 0 (kbus bench_world) (macros (kbd bench_kept)) bench_kept
    (bench_packet 2 0x5b 10) Hw Hm bench_kept_last bench_kept_late).
Defined.
