(* ===== verification/KeyboardLife.v ===== *)
(** * The keyboard driver's life

    From [probe] with any configuration, through [start], any history of interrupts,
    work-loop calls, timeouts, messages, parameters, lamps and power changes, to
    [stop]: nothing leaves an array, dereferences null or takes the lock twice. *)
From S2P Require Import Prelude PS2Types RingBuffer Bus OSTypes KeyTables Keyboard KeyboardRun KeyboardInv KeyboardSafe KeyboardBench KeyboardMacro.

(** What the kernel may call on a driver that has started. *)
Inductive KbdOp :=
| KbdByte (data : Z)
| KbdPackets (rounds : nat)
| KbdMacroTimer (rounds : nat)
| KbdSleepTimer
| KbdMessageOp (m : KbdMessage)
| KbdParams (dict : option OSDict)
| KbdCapsLed (locked : bool)
| KbdNumLed (locked : bool)
| KbdPower (whatToDo : Z).

Section Life.
Context {B : Type} `{HK : KeyboardHost B} `{HL : !KeyboardHostLaws B}.
Context (clock : nat -> Z) (absolutetime_to_nanoseconds : Z -> Z) (version_major : Z) (junk : list Z).
Context (Hjunk : packet_ok junk).
#[local] Abbreviation W := (@KbdWorld B).
#[local] Abbreviation handlePacket := (handlePacket clock absolutetime_to_nanoseconds version_major).
#[local] Abbreviation packetReadyRound := (packetReadyRound clock absolutetime_to_nanoseconds version_major).
#[local] Abbreviation packetReady := (packetReady clock absolutetime_to_nanoseconds version_major).
#[local] Abbreviation expireMacro := (expireMacro clock absolutetime_to_nanoseconds version_major).
#[local] Abbreviation initKeyboard := (initKeyboard clock absolutetime_to_nanoseconds version_major junk).
#[local] Abbreviation start := (start clock absolutetime_to_nanoseconds version_major junk).
#[local] Abbreviation message := (message clock absolutetime_to_nanoseconds version_major junk).
#[local] Abbreviation stackPacket := (stackPacket junk).
Implicit Types (w : W) (k : ApplePS2Keyboard) (m : MacroState).

Definition run_kbd (o : KbdOp) : M W unit :=
  match o with
  | KbdByte data => interruptOccurred clock (u8 data) ;; ret tt
  | KbdPackets rounds => packetReady rounds
  | KbdMacroTimer rounds => macroTimerFires clock absolutetime_to_nanoseconds version_major rounds
  | KbdSleepTimer => sleepEjectTimerFires clock
  | KbdMessageOp m => message m ;; ret tt
  | KbdParams dict => kstep (setParamPropertiesGated dict)
  | KbdCapsLed b => setAlphaLockFeedback clock b
  | KbdNumLed b => setNumLockFeedback clock b
  | KbdPower what => setDevicePowerState clock absolutetime_to_nanoseconds version_major junk what
  end.

(** [super] is what the superclass's [probe] returns; [loop] whether the driver still
    has a work loop when it stops. *)
Definition run_life (p : Z) (super : bool) (config : option OSDict) (env : StartEnv) (ops : list KbdOp)
    (loop : bool) : M W unit :=
  k ← kget (probe super config); r ← deref k;
  match r with
  | None => ret tt
  | Some k =>
    kset (fun _ => k) ;;
    started ← start p env;
    when started (for_each ops run_kbd ;; stop clock loop)
  end.

(** ** A driver that runs *)
Section Running.
Context (p : Z) (base : B).

Definition running w : Prop := exists m, holds p base m w /\ macro_ok m.

Definition alive {X} (c : M W X) : Prop := forall w, running w -> wp c (fun _ w' => running w') w.

Lemma alive_ret {X} (x : X) : alive (ret x).
Proof. intros w Hw. exact Hw. Qed.

Lemma alive_bind {X Y} (c : M W X) (f : X -> M W Y) : alive c -> (forall x, alive (f x)) -> alive (c ≫= f).
Proof. intros Hc Hf w Hw. apply wp_bind. eapply wp_mono; [by apply Hc|]. intros x w' Hw'. by apply Hf. Qed.

Lemma alive_when b (c : M W unit) : (b = true -> alive c) -> alive (when b c).
Proof. destruct b; intros Hc; [by apply Hc|apply alive_ret]. Qed.

Lemma alive_steady {X} (c : M W X) : (forall m, steady p true m c) -> alive c.
Proof.
  intros Hc w (m & [Hw Hb] & Hm). eapply wp_mono; [by apply Hc; [|apply Hb]|]. cbn beta.
  intros x w' [H1 S1]. exists m. split; [split; [done|by eapply kbd_bus_same_trans]|done].
Qed.

Lemma alive_kget {X Y} (f : ApplePS2Keyboard -> X) (g : X -> M W Y) :
  (forall k m, attached p true m k -> alive (g (f k))) -> alive (kget f ≫= g).
Proof. intros Hg w Hw. apply wp_bind, wp_gets. destruct Hw as (m & Hh & Hm). eapply Hg; [apply Hh|by exists m]. Qed.

Lemma alive_handlePacket packet : packet_ok packet -> alive (handlePacket packet).
Proof.
  intros Hp w (m & Hw & Hm).
  eapply wp_mono; [by apply (traced_handlePacket clock absolutetime_to_nanoseconds version_major p base m packet w)|].
  cbn beta. intros _ w' (outs & _ & m' & H1 & H2 & _). by exists m'.
Qed.

Lemma alive_expireMacro : alive expireMacro.
Proof.
  intros w (m & Hw & Hm).
  eapply wp_mono; [by apply (traced_expireMacro clock absolutetime_to_nanoseconds version_major p base m w)|].
  cbn beta. intros _ w' (outs & _ & m' & H1 & H2 & _). by exists m'.
Qed.

(** ** The work loop *)

Lemma tail_ok k : base_ok k -> packet_ok (tailPacket k).
Proof.
  intros Hk. pose proof (ko_ring _ Hk) as Hr. unfold tailPacket. split.
  - rewrite (tail_slice_slot kPacketLength).
    apply (slot_length KBD_RING kPacketLength); try done; [apply Hr|apply (ok_tail _ _ (al_ring _ _ _ Hr))|apply Hr].
  - unfold tail_slice. by apply Forall_take, Forall_drop, ko_ring_bytes.
Qed.

Lemma consumed k m timers : attached p timers m k -> attached p timers m
  {| k with _ringBuffer := advanceTail KBD_RING kPacketLength (_ringBuffer k) |}.
Proof. intros Hk. apply ring_set; [done| |apply Hk]. apply advanceTail_aligned; [done..|apply Hk]. Qed.

Lemma alive_packetReadyRound : alive (packetReadyRound tt).
Proof.
  unfold KeyboardRun.packetReadyRound. apply alive_kget. intros k0 m0 _.
  destruct (_ <? _); [apply alive_ret|]. apply alive_kget. intros k m Hk.
  pose proof (tail_ok k (at_base _ _ _ _ Hk)) as Hp. destruct (packet_get _ 0 Hp ltac:(lia)) as (p0 & E & _). rewrite E.
  apply alive_bind; [apply alive_ret|]. intros p0'. apply alive_bind.
  { apply alive_when. intros _. by apply alive_handlePacket. }
  intros _. apply alive_bind; [|intros; apply alive_ret].
  apply alive_steady. intros m'. apply steady_kset. intros k'. apply consumed.
Qed.

Lemma alive_packetReady rounds : alive (packetReady rounds).
Proof.
  unfold KeyboardRun.packetReady. induction rounds as [|n IH]; intros w Hw; [done|]. simpl.
  pose proof (alive_packetReadyRound w Hw) as Hr. unfold wp in *.
  destruct (packetReadyRound tt w) as [[w' [[]|[]]]| |]; [|done..]. by apply IH.
Qed.

(** ** Timers, messages, parameters *)

Lemma timer_taken k m t : attached p true m k -> macro_ok m -> _macroTimer k = Some t ->
  attached p true {| m with ms_timer := Some None |} {| k with _macroTimer := Some None |} /\
  macro_ok {| m with ms_timer := Some None |}.
Proof.
  intros [Hb Hd Hs Hm] Ho Ht. split.
  - split; simpl; [destruct Hb; by split|done|done|]. rewrite <- Hm. done.
  - destruct Ho as [M1 M2 M3 M4]. split; simpl; [done..|]. intros Hc. destruct (M4 Hc) as (_ & ? & ?). eauto.
Qed.

Lemma alive_macroTimerFires rounds :
  alive (macroTimerFires clock absolutetime_to_nanoseconds version_major rounds).
Proof.
  intros w Hw. unfold macroTimerFires. apply wp_bind, wp_gets.
  destruct (_macroTimer (kbd w)) as [[t|]|] eqn:E; [|exact Hw..].
  apply wp_bind, wp_modify. assert (Ha : alive (onMacroTimer clock absolutetime_to_nanoseconds version_major rounds)).
  { apply alive_bind; [apply alive_packetReady|]. intros _. apply alive_expireMacro. }
  apply Ha. destruct Hw as (m & [Hk Hb] & Hm). destruct (timer_taken _ m _ Hk Hm E) as [H1 H2].
  eexists. split; [split; [exact H1|exact Hb]|exact H2].
Qed.

Lemma alive_sleepTimer : alive (sleepEjectTimerFires clock).
Proof.
  apply alive_kget. intros k m Hk. destruct (_sleepEjectTimer k) as [[t|]|]; [|apply alive_ret..].
  apply alive_steady. intros m'. apply kbd_steady_bind; [|intros _; apply steady_onSleepEjectTimer].
  apply steady_kset. intros k' [H1 H2 H3 H4]. split; simpl; [destruct H1; by split|done|eauto|done].
Qed.

Lemma length_le64 z : length (le64 z) = 8%nat.
Proof. done. Qed.

Lemma le64_bytes z : Forall is_byte (le64 z).
Proof. apply Forall_forall. intros x (i & -> & _)%list_elem_of_fmap. apply u8_range. Qed.

Lemma stamp_ok l t : packet_ok l -> packet_ok (stampPacket t l).
Proof.
  intros [Hl Hb]. unfold stampPacket. split.
  - rewrite !length_app, length_take, length_drop, length_le64, Hl. done.
  - apply Forall_app_2; [by apply Forall_take|]. apply Forall_app_2; [apply le64_bytes|by apply Forall_drop].
Qed.

Lemma stackPacket_ok b0 b1 t : packet_ok (stackPacket b0 b1 t).
Proof.
  destruct Hjunk as [Hl Hb].
  assert (H2 : packet_ok (u8 b0 :: u8 b1 :: drop 2 junk)).
  { split; [simpl; by rewrite length_drop, Hl|].
    do 2 (apply Forall_cons_2; [apply u8_range|]). by apply Forall_drop. }
  unfold KeyboardRun.stackPacket. destruct t as [t|]; [by apply stamp_ok|done].
Qed.

Lemma alive_acpiNotification argument :
  alive (acpiNotification clock absolutetime_to_nanoseconds version_major junk argument).
Proof.
  unfold acpiNotification. destruct argument as [arg|]; [|apply alive_ret].
  destruct (negb _); [apply alive_ret|].
  assert (Ht : alive (clock_get_uptime clock)) by (apply alive_steady; intros m; apply steady_clock).
  assert (Hp : forall b0 b1 t, alive (handlePacket (stackPacket b0 b1 t))) by (intros; apply alive_handlePacket, stackPacket_ok).
  apply alive_bind; [apply alive_when; intros _; apply alive_bind; [done|intros; apply Hp]|]. intros _.
  apply alive_when. intros _. apply alive_bind; [done|]. intros t. apply alive_bind; [apply Hp|]. intros _.
  apply alive_bind; [done|]. intros t'. apply Hp.
Qed.

Lemma alive_message msg : alive (message msg).
Proof.
  destruct msg as [arg|arg|[enable|]|[keystroke|]|]; cbn [KeyboardRun.message]; try apply alive_ret.
  - apply alive_bind; [apply alive_acpiNotification|intros; apply alive_ret].
  - destruct arg; [|apply alive_ret]. apply alive_kget. intros. apply alive_ret.
  - apply alive_kget. intros k m Hk. apply alive_bind; [|intros; apply alive_ret].
    apply alive_when. intros _. apply alive_steady. intros m'. apply steady_kset. intros k' [[] ? ? ?].
    split; [by split|done..].
  - destruct (eatKey keystroke); [apply alive_ret|]. apply alive_bind; [|intros; apply alive_ret].
    apply alive_steady. intros m'. apply steady_dispatchX.
Qed.

Lemma alive_params dict : alive (kstep (setParamPropertiesGated dict)).
Proof.
  apply alive_steady. intros m. apply steady_kstep. intros k [H1 H2 H3 H4].
  destruct (keeping_setParamPropertiesGated dict k H1) as (k' & E & [B' D S' M' L]). exists k'. split; [done|].
  split; [done|congruence|by rewrite S'|congruence].
Qed.

(** ** Power *)

Lemma steady_releaseKey m scan : in_table scan ->
  steady p true m (releaseKey clock absolutetime_to_nanoseconds version_major junk scan).
Proof.
  intros Hs. apply steady_kget_bind. intros k Hk. destruct (attached_isDown p true m k scan Hk Hs) as (d & E). rewrite E.
  apply steady_deref_bind. exists d. split; [done|]. apply kbd_steady_when. intros _.
  apply kbd_steady_bind; [|intros; apply kbd_steady_ret]. apply steady_dispatch; [done|apply stackPacket_ok].
Qed.

Lemma steady_initKeyboard m : steady p true m initKeyboard.
Proof.
  unfold KeyboardRun.initKeyboard. apply kbd_steady_bind; [by apply kbd_steady_submit|intros _].
  apply kbd_steady_bind; [apply steady_for_each; intros s Hs; apply steady_releaseKey|intros _].
  { apply elem_of_seqZ in Hs. unfold in_table, KBV_NUM_KEYCODES in *. lia. }
  apply kbd_steady_bind; [apply steady_kset|intros _].
  { intros k [[] ? ? ?]. split; [by split|done..]. }
  apply steady_kget_bind. intros k _. apply kbd_steady_bind; [apply steady_setLEDs|intros _].
  apply kbd_steady_bind; [apply steady_kset|intros _].
  { intros k1 [Hb ? ? ?]. pose proof (ok_length _ _ (al_ring _ _ _ (ko_ring _ Hb))) as Hl.
    destruct Hb. split; [split; simpl; try done|done..]. }
  apply kbd_steady_bind; [apply steady_setKeyboardEnable|intros _].
  apply kbd_steady_device. intros _. apply kbd_steady_bind; [apply steady_onHost, law_setCommandByte|].
  intros. apply kbd_steady_ret.
Qed.

Lemma alive_run o : alive (run_kbd o).
Proof.
  destruct o; cbn [run_kbd].
  - apply alive_bind; [|intros; apply alive_ret]. apply alive_steady. intros m.
    apply steady_interruptOccurred, u8_range.
  - apply alive_packetReady.
  - apply alive_macroTimerFires.
  - apply alive_sleepTimer.
  - apply alive_bind; [apply alive_message|intros; apply alive_ret].
  - apply alive_params.
  - apply alive_steady. intros m. apply steady_setAlphaLockFeedback.
  - apply alive_steady. intros m. apply steady_setLed.
  - apply alive_steady. intros m. unfold setDevicePowerState.
    destruct (_ =? _); [apply steady_setKeyboardEnable|].
    destruct (_ =? _); [apply steady_initKeyboard|apply kbd_steady_ret].
Qed.

End Running.

(** ** Start *)

(** From [start]'s first request on; the lock is as [l]. *)
Definition starting (p : Z) (m : MacroState) (l : bool) w : Prop :=
  attached p true m (kbd w) /\ bus_ok (kbus w) /\ bus_locked (kbus w) = l.

Lemma starting_steady {X} p m l (c : M W X) w :
  steady p true m c -> starting p m l w ->
  wp c (fun _ w' => starting p m l w' /\ (bus_installed (kbus w) = true -> bus_installed (kbus w') = true)) w.
Proof.
  intros Hc (H1 & H2 & H3). eapply wp_mono; [by apply Hc|]. cbn beta. intros x w' [H4 [H5 H6 H7]].
  split; [|done]. split; [done|]. split; [done|congruence].
Qed.

(** An operation of the host that is not steady. *)
Lemma starting_host {X} p m l l' (c : M B X) (installed : Prop) w :
  starting p m l w ->
  wp c (fun _ b => bus_ok b /\ bus_locked b = l' /\ (installed -> bus_installed b = true)) (kbus w) ->
  wp (onHost clock c) (fun _ w' => starting p m l' w' /\ (installed -> bus_installed (kbus w') = true)) w.
Proof.
  intros (H1 & H2 & H3) Hc.
  eapply wp_mono; [apply (wp_onHost clock p true m c w
    (fun _ b => bus_locked b = l' /\ (installed -> bus_installed b = true)) H1); exact Hc|].
  cbn beta. intros x w' [H4 (b & [H5 H6] & [H7 H8 H9])].
  split; [split; [done|split; [done|congruence]]|auto].
Qed.

(** The driver [start] sets up, before it takes the lock. *)
Definition prepared (p : Z) (env : StartEnv) k : ApplePS2Keyboard :=
  let k := {| k with _device := Some p; _cmdGate := env_gate env; _sleepEjectTimer := Some None;
              _provider := env_acpi env |} in
  match backlightLevels env with Some l => {| k with _backlightLevels := Some l |} | None => k end.

Lemma backlightLevels_ok env l :
  backlightLevels env = Some l -> env_acpi env = true /\ (0 < length l)%nat.
Proof.
  unfold backlightLevels. destruct (env_acpi env); [|done]. cbn [negb].
  destruct (env_KKCL env) as [o|]; [|done]. simpl. destruct (asArray o) as [a|]; [|done]. simpl.
  destruct (Z.ltb_spec (Z.of_nat (length a)) 2) as [|Hl]; [done|]. intros [= <-].
  rewrite length_map. split; [done|lia].
Qed.

Lemma prepared_attached p env k :
  0 <= p < kPS2MuxMaxIdx -> probed k -> attached p true (macros k) (prepared p env k).
Proof.
  intros Hp [Hk _ _ Hl]. unfold prepared. destruct (backlightLevels env) as [l|] eqn:E;
    (split; [destruct Hk; split; simpl; try done|done|eauto|done]).
  - by intros q [= <-].
  - intros l' [= <-]. by apply (backlightLevels_ok env).
  - by intros q [= <-].
  - intros l'. congruence.
Qed.

Lemma timer_given m t : macro_ok m -> ms_current m = 0 ->
  macro_ok {| m with ms_timer := t |}.
Proof. intros [M1 M2 M3 M4] Hc. split; simpl; try done. lia. Qed.

(** The rest of [start], from a prepared driver. *)
Definition startPrepared (env : StartEnv) : M W bool :=
  onHost clock bus_lock ;;
  initKeyboard ;;
  boot ← kget _numLockOnAtBoot;
  when boot (onHost clock (host_setNumLock true)) ;;
  kset (fun k => {| k with _macroTimer := if env_macroTimer env then Some None else None |}) ;;
  onHost clock bus_installInterrupt ;;
  kset (fun k => {| k with _interruptHandlerInstalled := true |}) ;;
  onHost clock bus_unlock ;;
  onHost clock bus_installPower ;;
  kset (fun k => {| k with _powerControlHandlerInstalled := true |}) ;;
  ret true.

(** What a start leaves: a running driver on a bus that is not locked. *)
Definition started (p : Z) (r : bool) w : Prop :=
  bus_ok (kbus w) /\ bus_locked (kbus w) = false /\
  if r then bus_installed (kbus w) = true /\ running p (kbus w) w else _device (kbd w) = None.

Lemma startPrepared_ok p env m w :
  starting p m false w -> macro_ok m -> ms_current m = 0 -> wp (startPrepared env) (started p) w.
Proof.
  intros Hw Hm Hc. unfold startPrepared.
  apply wp_bind. eapply wp_mono; [apply (starting_host p m false true _ False w Hw)|].
  { destruct Hw as (_ & H2 & H3). eapply wp_mono; [by apply law_lock|]. cbn beta. intros _ b (? & ? & _). by split_and!. }
  cbn beta. intros _ w' [H' _]. clear w Hw. rename w' into w, H' into Hw. apply wp_bind.
  eapply wp_mono; [apply (starting_steady p m true _ w (steady_initKeyboard p m) Hw)|].
  cbn beta. intros _ w' [H' _]. clear w Hw. rename w' into w, H' into Hw. apply wp_bind, wp_gets, wp_bind.
  assert (Hn : steady p true m (when (_numLockOnAtBoot (kbd w)) (onHost clock (host_setNumLock true)))).
  { apply kbd_steady_when. intros _. apply steady_onHost, law_setNumLock. }
  eapply wp_mono; [apply (starting_steady p m true _ w Hn Hw)|].
  cbn beta. intros _ w' [H' _]. clear w Hw Hn. rename w' into w, H' into Hw. apply wp_bind, wp_modify.
  set (m1 := {| m with ms_timer := if env_macroTimer env then Some None else None |}).
  assert (Hm1 : macro_ok m1) by (by apply timer_given).
  match goal with |- wp _ _ ?w0 => assert (H0 : starting p m1 true w0); [|revert H0; generalize w0; clear w Hw] end.
  { destruct Hw as ([A1 A2 A3 A4] & H2 & H3). split; [|done].
    split; simpl; [destruct A1; by split|done|done|by unfold m1; rewrite <- A4]. }
  clearbody m1. clear m Hm Hc. intros w Hw.
  apply wp_bind. eapply wp_mono; [apply (starting_host p m1 true true _ True w Hw)|].
  { destruct Hw as (_ & H2 & H3). eapply wp_mono; [by apply law_installInterrupt|]. cbn beta.
    intros _ b (? & ? & ?). split_and!; [done|congruence|done]. }
  cbn beta. intros _ w' [H' Hi]. clear w Hw. rename w' into w, H' into Hw. specialize (Hi I). apply wp_bind, wp_modify.
  match goal with |- wp _ _ ?w0 => assert (H0 : starting p m1 true w0 /\ bus_installed (kbus w0) = true);
    [|revert H0; generalize w0; clear w Hw Hi] end.
  { destruct Hw as ([A1 A2 A3 A4] & H2 & H3). split; [|done]. split; [|done].
    split; simpl; [destruct A1; by split|done..]. }
  intros w [Hw Hi]. apply wp_bind.
  eapply wp_mono; [apply (starting_host p m1 true false _ (bus_installed (kbus w) = true) w Hw)|].
  { destruct Hw as (_ & H2 & H3). eapply wp_mono; [by apply law_unlock|]. cbn beta.
    intros _ b (? & ? & ?). by split_and!. }
  cbn beta. intros _ w1 [H1 Hi1]. specialize (Hi1 Hi). clear w Hw Hi. apply wp_bind.
  eapply wp_mono; [apply (starting_steady p m1 false _ w1); [|exact H1]|].
  { apply steady_onHost, law_installPower. }
  cbn beta. intros _ w [(A & H2 & H3) Hi]. apply wp_bind, wp_modify, wp_ret.
  split; [done|]. split; [done|]. split; [by apply Hi|]. exists m1. split; [|done].
  split; [|by apply bus_same_refl]. destruct A as [A1 A2 A3 A4]. split; simpl; [destruct A1; by split|done..].
Qed.

(** An assignment to members, the driver after it named. *)
Lemma wp_kset {X} f (m : M W X) Q w :
  (forall w', kbd w' = f (kbd w) -> kbus w' = kbus w -> wp m Q w') -> wp (kset f ;; m) Q w.
Proof. intros Hm. apply wp_bind, wp_modify. by apply Hm. Qed.

Lemma start_ok p env w :
  0 <= p < kPS2MuxMaxIdx -> probed (kbd w) -> _device (kbd w) = None ->
  bus_ok (kbus w) -> bus_locked (kbus w) = false -> wp (start p env) (started p) w.
Proof.
  intros Hp Hk Hd Hb Hl. unfold KeyboardRun.start. destruct (env_super env); [|by split_and!]. cbn [negb].
  assert (Hfail : forall w', _device (kbd w') = None -> kbus w' = kbus w -> started p false w').
  { intros w' E Eb. unfold started. by rewrite Eb. }
  apply wp_kset. intros w1 E1 B1. apply wp_kset. intros w2 E2 B2.
  destruct (_ || _); [apply wp_kset; intros w3 E3 B3; apply wp_ret, Hfail; [exact (f_equal _device E3)|congruence]|].
  destruct (negb _); [apply wp_kset; intros w3 E3 B3; apply wp_ret, Hfail; [exact (f_equal _device E3)|congruence]|].
  apply wp_kset. intros w3 E3 B3. apply wp_kset. intros w4 E4 B4.
  assert (H0 : starting p (macros (kbd w)) false w4).
  { split; [|rewrite B4, B3, B2, B1; by split].
    assert (E : kbd w4 = prepared p env (kbd w)).
    { destruct (kbd w). cbn in E1. rewrite E1 in E2. cbn in E2. rewrite E2 in E3. cbn in E3.
      rewrite E3 in E4. exact E4. }
    rewrite E. by apply prepared_attached. }
  apply (startPrepared_ok p env _ _ H0 (pr_macros _ Hk)). apply (pr_none _ Hk).
Qed.

(** ** Stop *)

(** A driver without its timers still takes bytes. *)
Lemma timers_freed p m k : attached p true m k -> attached p false (macros
  {| k with _cmdGate := false; _sleepEjectTimer := None; _macroTimer := None |})
  {| k with _cmdGate := false; _sleepEjectTimer := None; _macroTimer := None |}.
Proof. intros [A1 A2 A3 A4]. split; simpl; [destruct A1; by split|done..]. Qed.

Lemma attached_weak p m k : attached p true m k -> attached p false m k.
Proof. intros [A1 A2 A3 A4]. by split. Qed.

Definition stopped w : Prop := bus_ok (kbus w) /\ bus_locked (kbus w) = false /\ _device (kbd w) = None.

(** The end of [stop], once the timers are gone. *)
Lemma detach_ok p m w :
  attached p false m (kbd w) -> bus_ok (kbus w) -> bus_locked (kbus w) = false -> bus_installed (kbus w) = true ->
  wp (installed ← kget _interruptHandlerInstalled;
      when installed (onHost clock bus_uninstallInterrupt) ;;
      kset (fun k => {| k with _interruptHandlerInstalled := false |}) ;;
      power ← kget _powerControlHandlerInstalled;
      when power (onHost clock bus_uninstallPower) ;;
      kset (fun k => {| k with _powerControlHandlerInstalled := false; _device := None; _provider := false;
        _backlightLevels := None; _keysStandard := None; _keysSpecial := None;
        _macroInversion := None; _macroTranslation := None; _macroBuffer := None |})) (fun _ w' => stopped w') w.
Proof.
  intros Hw Hb Hl Hi. apply wp_bind, wp_gets, wp_bind.
  eapply (wp_mono _ (fun _ w' => attached p false m (kbd w') /\ bus_ok (kbus w') /\ bus_locked (kbus w') = false)).
  - apply wp_when; [intros _|done].
    eapply wp_mono; [apply (wp_onHost clock p false m _ w (fun _ b => bus_locked b = false) Hw)|].
    + eapply wp_mono; [by apply law_uninstallInterrupt|]. cbn beta. intros _ b [? ?]. split; [done|congruence].
    + cbn beta. intros _ w' [H1 (b & H2 & [H3 H4 _])]. split; [done|]. split; [done|congruence].
  - clear w Hw Hb Hl Hi. intros _ w (Hw & Hb & Hl). apply wp_bind, wp_modify, wp_bind, wp_gets, wp_bind.
    set (w1 := {| w with kbd := _ |}).
    assert (H1 : attached p false m (kbd w1)) by (destruct Hw as [[] ? ? ?]; split; [by split|done..]).
    eapply (wp_mono _ (fun _ w' => bus_ok (kbus w') /\ bus_locked (kbus w') = false)).
    + apply wp_when; [intros _|done].
      eapply wp_mono; [apply (steady_onHost clock p false m _ law_uninstallPower w1 H1 Hb)|].
      cbn beta. intros _ w' [_ [H2 H3 _]]. split; [done|by rewrite H3].
    + intros _ w' [H2 H3]. apply wp_modify. by split_and!.
Qed.

Lemma stop_ok p base loop w :
  running p base w -> bus_locked base = false -> bus_installed base = true ->
  wp (stop clock loop) (fun _ w' => stopped w') w.
Proof.
  intros (m & [Hw Hs] & Hm) Hl Hi. unfold KeyboardRun.stop. apply wp_bind.
  eapply wp_mono; [apply (steady_setKeyboardEnable clock p true m false w Hw (bs_ok _ _ Hs))|].
  cbn beta. intros _ w1 [H1 S1]. pose proof (kbd_bus_same_trans _ _ _ Hs S1) as [Hb1 Hl1 Hi1]. apply wp_bind.
  apply wp_when; intros _.
  - apply wp_modify. eapply (detach_ok p); [by apply (timers_freed p m)|done|cbn [kbus]; congruence|auto].
  - apply (detach_ok p m w1 (attached_weak p m _ H1)); [done|congruence|auto].
Qed.

(** C18: the keyboard driver is safe from [probe] to [stop].  Whatever the
    configuration, the ACPI device's answers, the host's behaviour within its
    promises and the bytes of the keyboard, a driver that is created, probed, started,
    called by interrupts, the work loop, timers, messages, parameter changes, lamps
    and power changes in any order, and stopped, never leaves one of its tables, its
    ring, its macro buffer or a packet, uses no null pointer or missing timer, never
    takes the lock twice, and ends off the device with the lock free. *)
Theorem keyboard_safe p super config env ops loop w :
  0 <= p < kPS2MuxMaxIdx -> kbd w = init -> bus_ok (kbus w) -> bus_locked (kbus w) = false ->
  wp (run_life p super config env ops loop) (fun _ w' => stopped w') w.
Proof.
  intros Hp Hk Hb Hl. unfold run_life. apply wp_bind, wp_gets. rewrite Hk.
  pose proof (probe_ok super config) as Hr. destruct (probe super config init) as [[k|]|]; [|by split_and!; rewrite ?Hk|done].
  destruct Hr as [Hpr Hd]. apply wp_bind, wp_ret, wp_bind, wp_modify, wp_bind.
  eapply wp_mono; [by apply (start_ok p env)|]. cbn beta. clear w Hk Hb Hl. intros [|] w (Hb & Hl & Hs).
  - destruct Hs as [Hi Hw]. cbn [when]. apply wp_bind.
    eapply (wp_mono _ (fun _ w' => running p (kbus w) w')).
    + apply wp_for_each; [done|]. intros o w' _ Hw'. by apply alive_run.
    + intros _ w' Hw'. by apply (stop_ok p (kbus w)).
  - by split_and!.
Qed.

End Life.

(** ** A life on the bench *)

Definition bench_env : StartEnv := mkStartEnv true true true true true true
  (Some (OSArray [OSNumber 100; OSNumber 50; OSNumber 0; OSNumber 20; OSNumber 80])).

Definition bench_junk : list Z := replicate 16 0.

Lemma bench_junk_ok : packet_ok bench_junk.
Proof. split; [done|]. apply Forall_replicate. unfold is_byte. lia. Qed.

Definition bench_config : OSDict := [("Macro Inversion", OSArray [OSData bench_macro])].

(** The key S, then a key held while the keyboard is switched off and on. *)
Definition bench_life : list KbdOp :=
  [KbdByte 0x1f; KbdByte 0x9f; KbdPackets 5; KbdParams (Some []); KbdCapsLed true; KbdByte 0x20; KbdPackets 5;
   KbdPower kPS2C_DisableDevice; KbdPower kPS2C_EnableDevice; KbdMessageOp (GetKeyboardStatus true);
   KbdSleepTimer; KbdMacroTimer 5].

Definition fresh_world : @KbdWorld BenchHost := mkKbdWorld init (mkBenchHost false false true) 0 [].

Lemma keyboard_safe_witness :
  let run := run_life bench_clock (fun t => t) 18 bench_junk 0 true (Some bench_config) bench_env bench_life true in
  packet_ok bench_junk /\ kbd fresh_world = init /\
  wp run (fun _ w' => stopped w') fresh_world /\
  match run fresh_world with
  | Ok (w', _) => reported_keys (klog w') = [(0x01, true); (0x01, false); (0x02, true); (0x02, false)]
  | _ => False
  end.
Proof.
  intros run. split; [exact bench_junk_ok|]. split; [reflexivity|]. split; [|vm_compute; reflexivity].
  exact (keyboard_safe bench_clock (fun t => t) 18 bench_junk bench_junk_ok 0 true (Some bench_config) bench_env
    bench_life true fresh_world ltac:(done) eq_refl I eq_refl).
Defined.
