(* ===== verification/KeyboardScan.v ===== *)
(** * The keyboard driver: from scan codes to packets

    What the interrupt routine makes of a stream of bytes, as a machine with three
    members: the last byte, the prefix seen, and the set of keys that are down.  The
    driver's 512-bit key vector is that set. *)
From S2P Require Import Prelude PS2Types RingBuffer RingSpec Bus OSTypes KeyTables Keyboard KeyboardRun KeyboardInv KeyboardSafe KeyboardBench KeyboardMacro.

(** ** The key bit vector is a set *)

Lemma kbv_split n : 0 <= n -> n = 32 * Z.shiftr n KBV_BITS_SHIFT + Z.land n KBV_BITS_MASK /\
  0 <= Z.land n KBV_BITS_MASK < 32.
Proof.
  intros Hn. unfold KBV_BITS_SHIFT, KBV_BITS_MASK. rewrite Z.shiftr_div_pow2 by lia.
  change 0x1f with (Z.ones 5). rewrite land_low by lia. change (2 ^ 5) with 32.
  pose proof (Z.div_mod n 32 ltac:(lia)). pose proof (Z.mod_pos_bound n 32 ltac:(lia)). lia.
Qed.

Lemma kbv_bit_pow n : 0 <= n -> kbv_bit n = 2 ^ Z.land n KBV_BITS_MASK.
Proof. intros Hn. unfold kbv_bit. apply Z.shiftl_1_l. Qed.

Lemma nz_land_pow x j : 0 <= j -> nz (Z.land x (2 ^ j)) = Z.testbit x j.
Proof.
  intros Hj. unfold nz. destruct (Z.testbit x j) eqn:E.
  - apply negb_true_iff, Z.eqb_neq. intros H0. apply (f_equal (fun z => Z.testbit z j)) in H0.
    rewrite Z.land_spec, Z.pow2_bits_true, E, Z.bits_0 in H0 by done. done.
  - apply negb_false_iff, Z.eqb_eq. apply Z.bits_inj'. intros i Hi. rewrite Z.land_spec, Z.bits_0.
    destruct (Z.eq_dec i j) as [->|Hne]; [by rewrite E|]. rewrite Z.pow2_bits_false by done. apply andb_false_r.
Qed.

(** Reading a key after writing one. *)
Lemma keyDown_update f i j v x v' :
  0 <= i -> 0 <= j -> arr_get v (Z.shiftr i KBV_BITS_SHIFT) = Some x ->
  (forall n, 0 <= n -> n <> Z.land i KBV_BITS_MASK -> Z.testbit (f x) n = Z.testbit x n) ->
  arr_set v (Z.shiftr i KBV_BITS_SHIFT) (f x) = Some v' ->
  KBV_IS_KEYDOWN j v' = if i =? j then Some (Z.testbit (f x) (Z.land i KBV_BITS_MASK)) else KBV_IS_KEYDOWN j v.
Proof.
  intros Hi Hj Hx Hf Hv. destruct (kbv_split i Hi) as [Ei Bi]. destruct (kbv_split j Hj) as [Ej Bj].
  pose proof (arr_get_bound _ _ _ Hx) as Hb. rewrite arr_set_Some in Hv by done. injection Hv as <-.
  assert (Hsj : 0 <= Z.shiftr j KBV_BITS_SHIFT) by (by apply Z.shiftr_nonneg).
  unfold KBV_IS_KEYDOWN. rewrite (arr_get_insert v _ _ _ Hb Hsj), kbv_bit_pow by done.
  destruct (Z.eqb_spec (Z.shiftr i KBV_BITS_SHIFT) (Z.shiftr j KBV_BITS_SHIFT)) as [Es|Es].
  - rewrite <- Es, Hx. cbn [mbind option_bind]. rewrite !nz_land_pow by lia.
    destruct (Z.eqb_spec i j) as [->|Hne]; [done|]. by rewrite Hf by lia.
  - destruct (Z.eqb_spec i j) as [->|Hne]; done.
Qed.

Lemma keyDown_down i j v v' : 0 <= i -> 0 <= j -> KBV_KEYDOWN i v = Some v' ->
  KBV_IS_KEYDOWN j v' = if i =? j then Some true else KBV_IS_KEYDOWN j v.
Proof.
  unfold KBV_KEYDOWN. intros Hi Hj. destruct (arr_get v (Z.shiftr i KBV_BITS_SHIFT)) as [x|] eqn:E; [|done].
  cbn [mbind option_bind]. intros Hv. destruct (kbv_split i Hi) as [_ Bi].
  rewrite (keyDown_update (fun x => Z.lor x (kbv_bit i)) i j v x v' Hi Hj E); [| |exact Hv].
  - by rewrite kbv_bit_pow, Z.lor_spec, Z.pow2_bits_true, orb_true_r by lia.
  - intros n Hn Hne. rewrite kbv_bit_pow, Z.lor_spec, Z.pow2_bits_false by done. apply orb_false_r.
Qed.

Lemma keyDown_up i j v v' : 0 <= i -> 0 <= j -> KBV_KEYUP i v = Some v' ->
  KBV_IS_KEYDOWN j v' = if i =? j then Some false else KBV_IS_KEYDOWN j v.
Proof.
  unfold KBV_KEYUP. intros Hi Hj. destruct (arr_get v (Z.shiftr i KBV_BITS_SHIFT)) as [x|] eqn:E; [|done].
  cbn [mbind option_bind]. intros Hv. destruct (kbv_split i Hi) as [_ Bi].
  rewrite (keyDown_update (fun x => clear_bits x (kbv_bit i)) i j v x v' Hi Hj E); [| |exact Hv]; unfold clear_bits.
  - by rewrite kbv_bit_pow, Z.ldiff_spec, Z.pow2_bits_true, andb_false_r by lia.
  - intros n Hn Hne. rewrite kbv_bit_pow, Z.ldiff_spec, Z.pow2_bits_false by done. apply andb_true_r.
Qed.

Definition down_as (v : list Z) (down : gset Z) : Prop :=
  forall i, in_table i -> KBV_IS_KEYDOWN i v = Some (bool_decide (i ∈ down)).

Lemma press_down v down c : down_as v down -> in_table c ->
  exists v', KBV_KEYDOWN c v = Some v' /\ down_as v' ({[c]} ∪ down).
Proof.
  intros Hd Hc. pose proof (Hd c Hc) as E. unfold KBV_IS_KEYDOWN in E.
  assert (exists v', KBV_KEYDOWN c v = Some v') as [v' Hv].
  { unfold KBV_KEYDOWN. destruct (arr_get v (Z.shiftr c KBV_BITS_SHIFT)) eqn:Eg; [|done].
    cbn. rewrite arr_set_Some; [by eexists|]. by eapply arr_get_bound. }
  exists v'. split; [done|]. intros i Hi. unfold in_table in *.
  rewrite (keyDown_down c i v v') by (done || lia). rewrite Hd by done.
  destruct (Z.eqb_spec c i) as [->|Hne]; f_equal.
  - symmetry. apply bool_decide_eq_true_2, elem_of_union_l, elem_of_singleton_2. done.
  - apply bool_decide_ext. rewrite elem_of_union, elem_of_singleton. intuition congruence.
Qed.

Lemma release_down v down c : down_as v down -> in_table c ->
  exists v', KBV_KEYUP c v = Some v' /\ down_as v' (down ∖ {[c]}).
Proof.
  intros Hd Hc. pose proof (Hd c Hc) as E. unfold KBV_IS_KEYDOWN in E.
  assert (exists v', KBV_KEYUP c v = Some v') as [v' Hv].
  { unfold KBV_KEYUP. destruct (arr_get v (Z.shiftr c KBV_BITS_SHIFT)) eqn:Eg; [|done].
    cbn. rewrite arr_set_Some; [by eexists|]. by eapply arr_get_bound. }
  exists v'. split; [done|]. intros i Hi. unfold in_table in *.
  rewrite (keyDown_up c i v v') by (done || lia). rewrite Hd by done.
  destruct (Z.eqb_spec c i) as [->|Hne]; f_equal.
  - symmetry. apply bool_decide_eq_false_2. rewrite elem_of_difference, elem_of_singleton. intuition congruence.
  - apply bool_decide_ext. rewrite elem_of_difference, elem_of_singleton. intuition congruence.
Qed.

(** ** The machine *)

Record KeyState := mkKeyState { ks_last : Z; ks_prefix : Z; ks_down : gset Z }.

(** A make or break code after [extended] prefixes: nothing if the key is down
    already, else the two bytes of a packet. *)
Definition keyCodeStep (breakless : Z -> bool) (extended data : Z) (down : gset Z) : gset Z * list (list Z) :=
  let code := 256 * extended + data mod 128 in
  let packet := [[extended + 1; data]] in
  if breakless code then (down, packet)
  else if 128 <=? data then (down ∖ {[code]}, packet)
  else if bool_decide (code ∈ down) then (down, [])
  else ({[code]} ∪ down, packet).

Definition keyStep (breakless : Z -> bool) (s : KeyState) (data : Z) : KeyState * list (list Z) :=
  if (ks_last s =? 0xAA) && (data =? 0) then ({| s with ks_prefix := 0 |}, [[0; 0xAA]]) else
  let s := {| s with ks_last := data |} in
  if (data =? 0xFA) || (data =? 0xFE) then (s, []) else
  if data =? 0xE0 then ({| s with ks_prefix := 1 |}, []) else
  if data =? 0xE1 then ({| s with ks_prefix := 2 |}, []) else
  if ks_prefix s =? 2 then ({| s with ks_prefix := 1 |}, []) else
  let '(down, out) := keyCodeStep breakless (ks_prefix s) data (ks_down s) in
  ({| s with ks_prefix := 0; ks_down := down |}, out).

Fixpoint keyStream (breakless : Z -> bool) (s : KeyState) (l : list Z) : KeyState * list (list Z) :=
  match l with
  | [] => (s, [])
  | b :: l' =>
    let '(s, out) := keyStep breakless s b in
    let '(s, outs) := keyStream breakless s l' in
    (s, out ++ outs)
  end.

(** The driver is in the machine's state. *)
Record tracks k s : Prop := {
  tk_last : _lastdata k = ks_last s;
  tk_prefix : _extendCount k = ks_prefix s;
  tk_down : down_as (_keyBitVector k) (ks_down s) }.

Definition breaklessKey k (code : Z) : bool :=
  match arr_get (_PS2flags k) code with Some f => nz (Z.land f kBreaklessKey) | None => false end.

(** The key data of the packets that wait; a full ring drops the next. *)
Definition waitingKeys (rb : RingBuffer Z) : list (list Z) := map (take 2) (pending KBD_RING kPacketLength rb).
Definition kbdEnqueue (q : list (list Z)) (d : list Z) : list (list Z) :=
  if Z.of_nat (length q) + 1 <? KBD_RING / kPacketLength then q ++ [d] else q.

(** ** Storing a packet *)
Section Scan.
Context {B : Type} `{HK : KeyboardHost B} (clock : nat -> Z).
#[local] Abbreviation W := (@KbdWorld B).
Implicit Types (w : W).

(** Only the ring and the clock move. *)
Definition with_buffer w (rb : RingBuffer Z) (t : nat) : W :=
  {| w with kbd := {| (kbd w) with _ringBuffer := rb |}; ticks := t |}.

Definition filling (rb : RingBuffer Z) (q : list (list Z)) (b0 b1 : Z) : Prop :=
  aligned KBD_RING kPacketLength rb /\ pending KBD_RING kPacketLength rb = q /\
  take 2 (slot_at kPacketLength (m_buffer rb) (m_head rb)) = [b0; b1].

Lemma headSet_eq w i x :
  aligned KBD_RING kPacketLength (_ringBuffer (kbd w)) -> 0 <= i < kPacketLength ->
  exists rb, headSet i x w = Ok (with_buffer w rb (ticks w), tt) /\
    aligned KBD_RING kPacketLength rb /\
    pending KBD_RING kPacketLength rb = pending KBD_RING kPacketLength (_ringBuffer (kbd w)) /\
    slot_at kPacketLength (m_buffer rb) (m_head rb) =
      <[Z.to_nat i := x]> (slot_at kPacketLength (m_buffer (_ringBuffer (kbd w))) (m_head (_ringBuffer (kbd w)))).
Proof.
  intros Hr Hi.
  pose proof (head_set_spec KBD_RING kPacketLength ltac:(done) ltac:(done) ltac:(done) _ i x Hr Hi) as E.
  eexists. split; [unfold headSet, kstep; rewrite (bind_ok _ _ w w _ eq_refl), E; reflexivity|].
  split; [by eapply head_set_aligned|]. split.
  - by eapply (head_set_pending KBD_RING kPacketLength); [done..|exact Hr|exact Hi|].
  - by eapply (head_set_slot KBD_RING kPacketLength); [done..|exact Hr|exact Hi|].
Qed.

(** The time stamp's bytes leave the key data alone. *)
Lemma stamp_filling l w q b0 b1 t :
  Forall (fun p => 2 <= p.1 < kPacketLength) l -> filling (_ringBuffer (kbd w)) q b0 b1 -> ticks w = t ->
  exists rb, for_each l (fun '(i, b) => headSet i b) w = Ok (with_buffer w rb t, tt) /\ filling rb q b0 b1.
Proof.
  intros Hl. revert w. induction Hl as [|[i b] l Hi _ IH]; intros w Hf Ht.
  { exists (_ringBuffer (kbd w)). split; [|done]. subst t. by destruct w as [[] ? ? ?]. }
  destruct Hf as (Hr & Hq & Hs). simpl in Hi. cbn [for_each].
  destruct (headSet_eq w i b Hr ltac:(lia)) as (rb & E & H1 & H2 & H3). rewrite (bind_ok _ _ _ _ _ E).
  edestruct (IH (with_buffer w rb (ticks w))) as (rb2 & E2 & F2); [|exact Ht|].
  { split; [done|]. cbn. split; [congruence|]. rewrite H3, take_insert_ge by lia. done. }
  exists rb2. split; [exact E2|exact F2].
Qed.

Lemma kbd_commit rb q b0 b1 :
  filling rb q b0 b1 ->
  waitingKeys (advanceHead KBD_RING kPacketLength rb) = kbdEnqueue (map (take 2) q) [b0; b1] /\
  aligned KBD_RING kPacketLength (advanceHead KBD_RING kPacketLength rb).
Proof.
  intros (Hr & Hq & Hs). split; [|by apply advanceHead_aligned]. unfold waitingKeys, kbdEnqueue.
  rewrite advanceHead_pending by done. rewrite (count_packets KBD_RING kPacketLength) by done. rewrite Hq, length_map.
  change (KBD_RING / kPacketLength) with 32. change KBD_RING with 512. change kPacketLength with 16 at 1 2.
  set (n := Z.of_nat (length q)).
  destruct (Z.ltb_spec (16 * n + 16) 512), (Z.ltb_spec (n + 1) 32); try lia; [|done].
  rewrite map_app. simpl. by rewrite Hs.
Qed.

Lemma slot_two (rb : RingBuffer Z) (b0 b1 : Z) : aligned KBD_RING kPacketLength rb ->
  take 2 (<[1%nat := b1]> (<[0%nat := b0]> (slot_at kPacketLength (m_buffer rb) (m_head rb)) : list Z)) = [b0; b1].
Proof.
  intros Hr. assert (Hl : length (slot_at kPacketLength (m_buffer rb) (m_head rb)) = 16%nat).
  { apply (slot_length KBD_RING kPacketLength); try done; apply Hr. }
  destruct (slot_at kPacketLength (m_buffer rb) (m_head rb)) as [|x [|y l]]; done.
Qed.

Lemma bufferPacket_eq w b0 b1 :
  aligned KBD_RING kPacketLength (_ringBuffer (kbd w)) -> is_byte b0 -> is_byte b1 ->
  exists rb, bufferPacket clock b0 b1 w = Ok (with_buffer w rb (S (ticks w)), tt) /\
    aligned KBD_RING kPacketLength rb /\
    waitingKeys rb = kbdEnqueue (waitingKeys (_ringBuffer (kbd w))) [b0; b1].
Proof.
  intros Hr H0 H1. unfold bufferPacket, is_byte in *. rewrite (u8_small b0), (u8_small b1) by done.
  destruct (headSet_eq w 0 b0 Hr ltac:(done)) as (r1 & E1 & A1 & Q1 & S1). rewrite (bind_ok _ _ _ _ _ E1).
  destruct (headSet_eq (with_buffer w r1 (ticks w)) 1 b1 A1 ltac:(done)) as (r2 & E2 & A2 & Q2 & S2).
  rewrite (bind_ok _ _ _ _ _ E2). cbn [with_buffer kbd _ringBuffer ticks] in *.
  assert (F2 : filling r2 (pending KBD_RING kPacketLength (_ringBuffer (kbd w))) b0 b1).
  { split; [done|]. split; [congruence|]. rewrite S2, S1. by apply slot_two. }
  set (w2 := with_buffer (with_buffer w r1 (ticks w)) r2 (ticks w)).
  rewrite (bind_ok (clock_get_uptime clock) _ w2 {| w2 with ticks := S (ticks w) |} (u64 (clock (ticks w)))) by done.
  destruct (stamp_filling (zip (seqZ kPacketTimeOffset 8) (le64 (u64 (clock (ticks w)))))
    {| w2 with ticks := S (ticks w) |} (pending KBD_RING kPacketLength (_ringBuffer (kbd w))) b0 b1 (S (ticks w))) as (r3 & E3 & F3); [|exact F2|done|].
  { apply Forall_forall. intros [i b] Hib%elem_of_zip_l%elem_of_seqZ. unfold kPacketTimeOffset, kPacketLength in *. simpl. lia. }
  rewrite (bind_ok _ _ _ _ _ E3). eexists. split; [reflexivity|]. cbn. destruct (kbd_commit r3 _ b0 b1 F3) as [Hw Ha].
  by split.
Qed.

(** ** The interrupt routine *)

Definition rawCode (extended data : Z) : Z := Z.lor (Z.shiftl extended 8) (Z.land data (Z.lnot kSC_UpBit)).

Definition rawCode_check (extended data : Z) : bool :=
  (rawCode extended data =? 256 * extended + data mod 128) &&
  eqb (nz (Z.land data kSC_UpBit)) (128 <=? data).

Lemma rawCode_eq extended data : 0 <= extended < 2 -> is_byte data ->
  rawCode extended data = 256 * extended + data mod 128 /\ nz (Z.land data kSC_UpBit) = (128 <=? data) /\
  in_table (rawCode extended data).
Proof.
  intros He Hb.
  assert (Hall : forallb (fun e => forallb (rawCode_check e) (seqZ 0 256)) (seqZ 0 2) = true) by (vm_compute; reflexivity).
  rewrite forallb_forall in Hall. specialize (Hall extended). rewrite <- list_elem_of_In, elem_of_seqZ in Hall.
  specialize (Hall ltac:(lia)). rewrite forallb_forall in Hall. specialize (Hall data).
  rewrite <- list_elem_of_In, elem_of_seqZ in Hall. specialize (Hall ltac:(unfold is_byte in Hb; lia)).
  apply andb_true_iff in Hall as [H1%Z.eqb_eq H2%eqb_prop]. split; [done|]. split; [done|].
  rewrite H1. unfold in_table. pose proof (Z.mod_pos_bound data 128 ltac:(done)). lia.
Qed.

(** Only what the interrupt routine owns has changed. *)
Definition scanned w w' : Prop :=
  kbus w' = kbus w /\ klog w' = klog w /\
  exists last ext bits rb, kbd w' = {| (kbd w) with _lastdata := last; _extendCount := ext;
                                       _keyBitVector := bits; _ringBuffer := rb |}.

Record scans w (s : KeyState) : Prop := {
  sc_tracks : tracks (kbd w) s;
  sc_prefix : 0 <= ks_prefix s <= 2;
  sc_flags : length (_PS2flags (kbd w)) = 512%nat;
  sc_ring : aligned KBD_RING kPacketLength (_ringBuffer (kbd w)) }.

Lemma scanned_refl w : scanned w w.
Proof. split; [done|]. split; [done|]. exists (_lastdata (kbd w)), (_extendCount (kbd w)), (_keyBitVector (kbd w)),
  (_ringBuffer (kbd w)). by destruct (kbd w). Qed.

Lemma scanned_trans w1 w2 w3 : scanned w1 w2 -> scanned w2 w3 -> scanned w1 w3.
Proof.
  intros (Hb & Hl & a & b & c & d & E) (Hb' & Hl' & a' & b' & c' & d' & E').
  split; [congruence|]. split; [congruence|]. exists a', b', c', d'. rewrite E', E. done.
Qed.

Lemma bufferPacket_step w s b0 b1 : scans w s -> is_byte b0 -> is_byte b1 ->
  exists w', bufferPacket clock b0 b1 w = Ok (w', tt) /\ scanned w w' /\ scans w' s /\
    waitingKeys (_ringBuffer (kbd w')) = kbdEnqueue (waitingKeys (_ringBuffer (kbd w))) [b0; b1].
Proof.
  intros [[Hl Hp Hd] Hp' Hf Hr] H0 H1. destruct (bufferPacket_eq w b0 b1 Hr H0 H1) as (rb & E & Ha & Hw).
  eexists. split; [exact E|]. split; [|by split].
  split; [done|]. split; [done|]. exists (_lastdata (kbd w)), (_extendCount (kbd w)), (_keyBitVector (kbd w)), rb.
  cbn. by destruct (kbd w).
Qed.

Lemma put_last w s x : scans w s ->
  let w' := {| w with kbd := {| (kbd w) with _lastdata := x |} |} in
  scanned w w' /\ scans w' {| s with ks_last := x |}.
Proof.
  intros [[Hl Hp Hd] Hp' Hf Hr]. split; [|split; [by split|done..]].
  split; [done|]. split; [done|]. exists x, (_extendCount (kbd w)), (_keyBitVector (kbd w)), (_ringBuffer (kbd w)).
  cbn. by destruct (kbd w).
Qed.

Lemma put_prefix w s x : scans w s -> 0 <= x <= 2 ->
  let w' := {| w with kbd := {| (kbd w) with _extendCount := x |} |} in
  scanned w w' /\ scans w' {| s with ks_prefix := x |}.
Proof.
  intros [[Hl Hp Hd] Hp' Hf Hr] Hx. split; [|split; [by split|done..]].
  split; [done|]. split; [done|]. exists (_lastdata (kbd w)), x, (_keyBitVector (kbd w)), (_ringBuffer (kbd w)).
  cbn. by destruct (kbd w).
Qed.

Lemma put_down w s v down : scans w s -> down_as v down ->
  let w' := {| w with kbd := {| (kbd w) with _keyBitVector := v |} |} in
  scanned w w' /\ scans w' {| s with ks_down := down |}.
Proof.
  intros [[Hl Hp Hd] Hp' Hf Hr] Hv. split; [|split; [by split|done..]].
  split; [done|]. split; [done|]. exists (_lastdata (kbd w)), (_extendCount (kbd w)), v, (_ringBuffer (kbd w)).
  cbn. by destruct (kbd w).
Qed.

(** What a step does: the packets it adds, and what it tells the controller. *)
Definition scan_step w (m : M W PS2InterruptResult) (s' : KeyState) (out : list (list Z)) : Prop :=
  exists w', m w = Ok (w', match out with [] => kPS2IR_packetBuffering | _ => kPS2IR_packetReady end) /\
    scanned w w' /\ scans w' s' /\
    waitingKeys (_ringBuffer (kbd w')) = fold_left kbdEnqueue out (waitingKeys (_ringBuffer (kbd w))).

Lemma scan_step_ret w s : scans w s -> scan_step w (ret kPS2IR_packetBuffering) s [].
Proof. intros Hs. exists w. split; [done|]. split; [apply scanned_refl|]. done. Qed.

Lemma scan_step_send w s e data : scans w s -> is_byte e -> is_byte data ->
  scan_step w (bufferPacket clock e data ;; ret kPS2IR_packetReady) s [[e; data]].
Proof.
  intros Hs He Hd. destruct (bufferPacket_step w s e data Hs He Hd) as (w' & E & Hk & Hs' & Hw).
  exists w'. by rewrite (bind_ok _ _ _ _ _ E).
Qed.

Lemma scan_step_after {X} w w' x (m : M W X) (g : X -> M W PS2InterruptResult) s' out :
  m w = Ok (w', x) -> scanned w w' -> _ringBuffer (kbd w') = _ringBuffer (kbd w) ->
  scan_step w' (g x) s' out -> scan_step w (m ≫= g) s' out.
Proof.
  intros E Hk Hr (w2 & E2 & Hk2 & Hs & Hw). exists w2. rewrite (bind_ok _ _ _ _ _ E). split; [done|].
  split; [by eapply scanned_trans|]. split; [done|]. by rewrite <- Hr.
Qed.

Lemma kstep_eq w f k' : f (kbd w) = Some k' -> kstep f w = Ok ({| w with kbd := k' |}, tt).
Proof. intros E. unfold kstep. rewrite (bind_ok _ _ w w (Some k')); [done|]. unfold kget, gets. by rewrite E. Qed.

Lemma scanCode_step w s e data :
  scans w s -> 0 <= e < 2 -> is_byte data ->
  let '(down, out) := keyCodeStep (breaklessKey (kbd w)) e data (ks_down s) in
  scan_step w (scanCode clock e data) {| s with ks_down := down |} out.
Proof.
  intros Hs He Hb. destruct (rawCode_eq e data He Hb) as (Er & Eu & Hin). pose proof Hin as Hin'.
  pose proof (tk_down _ _ (sc_tracks _ _ Hs)) as Hd. pose proof (sc_flags _ _ Hs) as Hf.
  assert (Hsame : {| s with ks_down := ks_down s |} = s) by (by destruct s).
  unfold keyCodeStep, scanCode, breaklessKey. fold (rawCode e data). rewrite <- Er. unfold in_table in Hin.
  destruct (arr_get_Some (_PS2flags (kbd w)) (rawCode e data)) as (x & Ex & _); [lia|].


  rewrite Ex, <- Eu. set (bits := _keyBitVector (kbd w)) in *.
  assert (Hsend : forall w' v, scans w' v -> scan_step w' (bufferPacket clock (e + 1) data ;; ret kPS2IR_packetReady)
    v [[e + 1; data]]).
  { intros w' v Hv. apply scan_step_send; [done|unfold is_byte; lia|done]. }
  destruct (nz (Z.land x kBreaklessKey)) eqn:Eb; [|destruct (nz (Z.land data kSC_UpBit)) eqn:Eup];
    [| |destruct (bool_decide (rawCode e data ∈ ks_down s)) eqn:Ed];
    (eapply (scan_step_after w w (Some x)); [by unfold kget, gets; rewrite Ex|apply scanned_refl|done|]);
    (eapply (scan_step_after w w x); [reflexivity|apply scanned_refl|done|]); rewrite Eb, ?Eup.
  - rewrite Hsame. eapply scan_step_after; [reflexivity|apply scanned_refl|done|]. by apply Hsend.
  - destruct (release_down _ _ _ Hd Hin') as (v & Ev & Hv). destruct (put_down w s v _ Hs Hv) as [Hk Hs'].
    eapply scan_step_after; [|exact Hk|done|].
    { erewrite bind_ok; [reflexivity|]. apply kstep_eq. fold bits. by rewrite Ev. }
    by apply Hsend.
  - rewrite Hsame. eapply (scan_step_after w w true); [|apply scanned_refl|done|by apply scan_step_ret].
    rewrite (bind_ok _ _ w w (Some true)); [done|]. unfold kget, gets. fold bits. by rewrite Hd, Ed.
  - destruct (press_down _ _ _ Hd Hin') as (v & Ev & Hv). destruct (put_down w s v _ Hs Hv) as [Hk Hs'].
    eapply scan_step_after; [|exact Hk|done|].
    { rewrite (bind_ok _ _ w w (Some false)); [|unfold kget, gets; fold bits; by rewrite Hd, Ed].
      rewrite (bind_ok _ _ w w false) by done. erewrite bind_ok; [reflexivity|].
      apply kstep_eq. fold bits. by rewrite Ev. }
    by apply Hsend.
Qed.

Lemma scan_step_put w w' f (k : M W PS2InterruptResult) s' out :
  w' = {| w with kbd := f (kbd w) |} -> scanned w w' -> _ringBuffer (kbd w') = _ringBuffer (kbd w) ->
  scan_step w' k s' out -> scan_step w (kset f ;; k) s' out.
Proof. intros -> Hk Hr Hs. by eapply scan_step_after. Qed.

Lemma scan_step_prefix w s x m s' out : scans w s -> 0 <= x <= 2 ->
  (forall w', scanned w w' -> scans w' {| s with ks_prefix := x |} -> scan_step w' m s' out) ->
  scan_step w (kset (fun k => {| k with _extendCount := x |}) ;; m) s' out.
Proof.
  intros Hs Hx Hm. destruct (put_prefix w s x Hs Hx) as [Hk Hs'].
  eapply scan_step_put; [reflexivity|done..|by apply Hm].
Qed.

Lemma scan_step_get {X} w (f : ApplePS2Keyboard -> X) (m : X -> M W PS2InterruptResult) x s' out :
  f (kbd w) = x -> scan_step w (m x) s' out -> scan_step w (v ← kget f; m v) s' out.
Proof. intros <- Hm. eapply scan_step_after; [reflexivity|apply scanned_refl|done|done]. Qed.

Lemma scanned_flags w w' : scanned w w' -> breaklessKey (kbd w') = breaklessKey (kbd w).
Proof. intros (_ & _ & a & b & c & d & E). unfold breaklessKey. by rewrite E. Qed.

(** A byte that is neither a reply nor a prefix. *)
Lemma plain_byte w s data : scans w s -> is_byte data ->
  let '(s', out) := if ks_prefix s =? 2 then ({| s with ks_prefix := 1 |}, []) else
    let '(down, out) := keyCodeStep (breaklessKey (kbd w)) (ks_prefix s) data (ks_down s) in
    ({| s with ks_prefix := 0; ks_down := down |}, out) in
  scan_step w (extended ← kget _extendCount;
    if extended =? 0 then scanCode clock extended data else
    kset (fun k => {| k with _extendCount := u8 (extended - 1) |}) ;;
    if u8 (extended - 1) =? 0 then scanCode clock extended data else ret kPS2IR_packetBuffering) s' out.
Proof.
  intros Hs Hb. pose proof (sc_prefix _ _ Hs) as Hp. pose proof (tk_prefix _ _ (sc_tracks _ _ Hs)) as Ht.
  assert (ks_prefix s = 0 \/ ks_prefix s = 1 \/ ks_prefix s = 2) as [E|[E|E]] by lia; rewrite E in *; cbn [Z.eqb Pos.eqb].
  - pose proof (scanCode_step w s 0 data Hs ltac:(lia) Hb) as Hc.
    destruct (keyCodeStep (breaklessKey (kbd w)) 0 data (ks_down s)) as [down out].
    eapply scan_step_get; [exact Ht|]. cbn [Z.eqb].
    replace {| s with ks_prefix := 0; ks_down := down |} with {| s with ks_down := down |}; [exact Hc|].
    destruct s as [a b d]; cbn in E. by subst b.
  - assert (Hc : forall w', scanned w w' -> scans w' {| s with ks_prefix := 0 |} ->
      let '(down, out) := keyCodeStep (breaklessKey (kbd w)) 1 data (ks_down s) in
      scan_step w' (scanCode clock 1 data) {| s with ks_prefix := 0; ks_down := down |} out).
    { intros w' Hk Hs'. pose proof (scanCode_step w' _ 1 data Hs' ltac:(lia) Hb) as Hc.
      rewrite (scanned_flags w w' Hk) in Hc. exact Hc. }
    destruct (keyCodeStep (breaklessKey (kbd w)) 1 data (ks_down s)) as [down out].
    eapply scan_step_get; [exact Ht|]. cbn [Z.eqb Pos.eqb]. eapply (scan_step_prefix _ _ 0); [exact Hs|lia|exact Hc].
  - eapply scan_step_get; [exact Ht|]. cbn [Z.eqb Pos.eqb]. eapply (scan_step_prefix _ _ 1); [exact Hs|lia|].
    intros w' _ Hs'. by apply scan_step_ret.
Qed.

(** One byte. *)
Lemma interruptOccurred_keys w s data : scans w s -> is_byte data ->
  let '(s', out) := keyStep (breaklessKey (kbd w)) s data in
  scan_step w (interruptOccurred clock data) s' out.
Proof.
  intros Hs Hb. unfold keyStep, interruptOccurred.
  pose proof (tk_last _ _ (sc_tracks _ _ Hs)) as Hl. destruct ((ks_last s =? 0xAA) && (data =? 0)) eqn:E0.
  { eapply scan_step_get; [exact Hl|]. unfold kSC_Reset. rewrite E0.
    destruct (bufferPacket_step w s 0 0xAA Hs ltac:(done) ltac:(done)) as (w1 & E & Hk & Hs1 & Hw).
    destruct (put_prefix w1 s 0 Hs1 ltac:(done)) as [Hk' Hs'].
    eexists. rewrite (bind_ok _ _ _ _ _ E). split; [reflexivity|].
    split; [by eapply scanned_trans|]. by split. }
  destruct (put_last w s data Hs) as [Hk1 Hs1]. cbv zeta in Hk1, Hs1.
  set (w1 := {| w with kbd := {| (kbd w) with _lastdata := data |} |}) in *.
  set (s1 := {| s with ks_last := data |}) in *.
  unfold kSC_Reset, kSC_Acknowledge, kSC_Resend, kSC_Extend, kSC_Pause.
  assert (Hgo : forall (m : M W PS2InterruptResult) s' out, scan_step w1 m s' out -> 
    scan_step w (lastdata ← kget _lastdata; if (lastdata =? 0xAA) && (data =? 0) then
      bufferPacket clock 0x00 0xAA ;; kset (fun k => {| k with _extendCount := 0 |}) ;; ret kPS2IR_packetReady else
      kset (fun k => {| k with _lastdata := data |}) ;; m) s' out).
  { intros m s' out Hm. eapply scan_step_get; [exact Hl|]. rewrite E0. eapply scan_step_put; [reflexivity|exact Hk1|done|exact Hm]. }
  pose proof (plain_byte w1 s1 data Hs1 Hb) as Hplain.
  destruct (Z.eqb_spec data 0xFA) as [->|H1]; [by apply Hgo, scan_step_ret|].
  destruct (Z.eqb_spec data 0xFE) as [->|H2]; [by apply Hgo, scan_step_ret|]. cbn [orb].
  destruct (Z.eqb_spec data 0xE0) as [->|H3].
  { apply Hgo. eapply scan_step_prefix; [exact Hs1|lia|]. intros ? ? Hs2. exact (scan_step_ret _ _ Hs2). }
  destruct (Z.eqb_spec data 0xE1) as [->|H4].
  { apply Hgo. eapply scan_step_prefix; [exact Hs1|lia|]. intros ? ? Hs2. exact (scan_step_ret _ _ Hs2). }
  change (breaklessKey (kbd w1)) with (breaklessKey (kbd w)) in Hplain.
  destruct (if ks_prefix s1 =? 2 then _ else _) as [s' out]. by apply Hgo.
Qed.

(** ** Every stream of bytes *)

(** C17: The keyboard's interrupt routine is the scan-code machine: whatever bytes
    arrive, it never fails; its members follow the machine's (the last byte, the
    prefix, the set of keys down); the packets that wait are the ones the machine puts
    out, a packet that finds the ring full being dropped; and nothing else of the
    driver, the host or the event log moves. *)
Theorem scan_stream w s l :
  scans w s -> Forall is_byte l ->
  let '(s', out) := keyStream (breaklessKey (kbd w)) s l in
  exists w', for_each l (fun b => interruptOccurred clock b ;; ret tt) w = Ok (w', tt) /\
    scanned w w' /\ scans w' s' /\
    waitingKeys (_ringBuffer (kbd w')) = fold_left kbdEnqueue out (waitingKeys (_ringBuffer (kbd w))).
Proof.
  intros Hs Hl. revert w s Hs. induction Hl as [|b l Hb _ IH]; intros w s Hs.
  { exists w. split; [done|]. by split; [apply scanned_refl|]. }
  cbn [keyStream for_each]. pose proof (interruptOccurred_keys w s b Hs Hb) as H1.
  destruct (keyStep (breaklessKey (kbd w)) s b) as [s1 out1]. destruct H1 as (w1 & E1 & Hk1 & Hs1 & Hw1).
  specialize (IH w1 s1 Hs1). rewrite (scanned_flags _ _ Hk1) in IH.
  destruct (keyStream (breaklessKey (kbd w)) s1 l) as [s2 out2]. destruct IH as (w2 & E2 & Hk2 & Hs2 & Hw2).
  exists w2. rewrite (bind_ok _ _ w w1 tt); [|by rewrite (bind_ok _ _ _ _ _ E1)].
  split; [done|]. split; [by eapply scanned_trans|]. split; [done|]. by rewrite fold_left_app, <- Hw1.
Qed.
End Scan.

(** ** A stream on the bench *)

(** Z down, repeated and up; the right GUI key with its prefix; an acknowledgement; the
    pause key; a reset. *)
Definition scan_bytes : list Z :=
  [0x1e; 0x1e; 0x1e; 0x9e; 0xe0; 0x5c; 0xfa; 0xe0; 0xdc; 0xe1; 0x1d; 0x45; 0xe1; 0x9d; 0xc5; 0x2a; 0xaa; 0x00; 0x2a].
Definition key_world : @KbdWorld BenchHost := mkKbdWorld init (mkBenchHost false true true) 0 [].

Definition no_keys_check (v : list Z) : bool :=
  forallb (fun i => match KBV_IS_KEYDOWN i v with Some b => negb b | None => false end) (seqZ 0 512).

Lemma no_keys_down v : no_keys_check v = true -> down_as v ∅.
Proof.
  unfold no_keys_check. rewrite forallb_forall. intros H i Hi. specialize (H i).
  rewrite <- list_elem_of_In, elem_of_seqZ in H. specialize (H ltac:(unfold in_table in Hi; lia)).
  destruct (KBV_IS_KEYDOWN i v) as [[]|]; done.
Qed.

Lemma key_world_scans : scans key_world (mkKeyState 0 0 ∅).
Proof.
  split; [|done|done|].
  - split; [done|done|]. apply no_keys_down. vm_compute. reflexivity.
  - exact (ko_ring _ init_ok).
Qed.

Definition scan_packets : list (list Z) :=
  [[1; 0x1e]; [1; 0x9e]; [2; 0x5c]; [2; 0xdc]; [2; 0x45]; [2; 0xc5]; [1; 0x2a]; [1; 0xaa]; [0; 0xaa]; [1; 0x2a]].

Lemma scan_packets_eq : (keyStream (breaklessKey init) (mkKeyState 0 0 ∅) scan_bytes).2 = scan_packets.
Proof. vm_compute. reflexivity. Qed.

Lemma scan_packets_fit : fold_left kbdEnqueue scan_packets (waitingKeys (_ringBuffer init)) = scan_packets.
Proof. vm_compute. reflexivity. Qed.

Lemma scan_stream_witness :
  Forall is_byte scan_bytes /\
  exists w', for_each scan_bytes (fun b => interruptOccurred bench_clock b ;; ret tt) key_world = Ok (w', tt) /\
    waitingKeys (_ringBuffer (kbd w')) = scan_packets.
Proof.
  assert (Hl : Forall is_byte scan_bytes) by (apply (bool_decide_unpack _); vm_compute; exact I).
  split; [exact Hl|]. pose proof (scan_stream bench_clock key_world (mkKeyState 0 0 ∅) scan_bytes key_world_scans Hl) as H.
  pose proof scan_packets_eq as E. change (kbd key_world) with init in H.
  destruct (keyStream (breaklessKey init) (mkKeyState 0 0 ∅) scan_bytes) as [s' out]. cbn [snd] in E. subst out.
  destruct H as (w' & Er & _ & _ & Hw). exists w'. split; [exact Er|]. rewrite Hw. exact scan_packets_fit.
Defined.
