(* ===== verification/RingLoop.v ===== *)
(** * The work loop of a packet driver

    The drivers whose interrupt routine fills a ring of fixed-size packets share the
    shape of [packetReady]: while a packet waits, handle it and advance the tail.
    Here is that loop over any driver object, with the proof that it ends and
    handles each waiting packet once. *)
From S2P Require Import Prelude PS2Types RingBuffer RingSpec Bus DriverWorld.

(** A driver's ring of [ringSize] bytes in packets of [ringPacket], which may depend on
    the device found. *)
Class PacketRing (D : Type) := {
  ringSize : Z;
  ringPacket : D -> Z;
  ringOf : D -> RingBuffer Z;
  setRing : RingBuffer Z -> D -> D }.

Class PacketRingLaws (D : Type) `{PacketRing D, BusDriver D} := {
  ring_size_bound : ringSize < 2147483648;
  ringOf_set : forall rb d, ringOf (setRing rb d) = rb;
  ringPacket_set : forall rb d, ringPacket (setRing rb d) = ringPacket d;
  setRing_installed : forall rb d, drv_installed (setRing rb d) = drv_installed d }.

Section Loop.
Context {B : Type} `{PS2Bus B} {D E : Type} `{PacketRing D}.
#[local] Abbreviation W := (DrvWorld B D E).
#[local] Abbreviation C := (M W).

(** The pass of the loop. *)
Definition ringRound (handle : list Z -> C unit) (_ : unit) : C (unit + unit) :=
  n ← dget (fun d => count ringSize (ringOf d));
  length ← dget ringPacket;
  if n <? length then ret (inr tt) else
  packet ← dget (fun d => tail_slice (ringPacket d) (ringOf d));
  handle packet ;;
  dset (fun d => setRing (advanceTail ringSize (ringPacket d) (ringOf d)) d) ;;
  ret (inl tt).

Definition ringQueued (w : W) : nat := Z.to_nat (count ringSize (ringOf (self w))).

Definition drainRing (handle : list Z -> C unit) : C unit := loop ringQueued (ringRound handle) tt.

(** What waits, and one packet of it handled. *)
Definition waitingPackets (d : D) : list (list Z) := pending ringSize (ringPacket d) (ringOf d).
Definition dropFirst (d : D) : D := setRing (advanceTail ringSize (ringPacket d) (ringOf d)) d.
Definition handleFirst (handle : list Z -> C unit) (packet : list Z) : C unit :=
  handle packet ;; dset dropFirst.

End Loop.

(** An invariant that only asks the ring to be aligned survives the loss of a packet. *)
Lemma dropFirst_inv {D} `{HL : PacketRingLaws D} (I : D -> Prop) n :
  0 < n < ringSize -> ringSize mod n = 0 -> (forall d, I d -> ringPacket d = n) ->
  (forall d, I d -> aligned ringSize n (ringOf d)) ->
  (forall d rb, I d -> aligned ringSize n rb -> I (setRing rb d)) ->
  forall d, I d -> n <= count ringSize (ringOf d) -> I (dropFirst d).
Proof.
  intros Hb Hm Hp Hr Hs d Hd Hc. pose proof ring_size_bound as Hn. unfold dropFirst. rewrite (Hp _ Hd).
  apply Hs; [done|]. apply advanceTail_aligned; [done..|by apply Hr].
Qed.

Section Drain.
Context {B : Type} `{HB : PS2Bus B} {D E : Type} `{HL : PacketRingLaws D} `{HT : Tells E}.
#[local] Abbreviation W := (DrvWorld B D E).
#[local] Abbreviation C := (M W).
Context (T : Z -> Prop) (I : D -> Prop) (handle : list Z -> C unit).

(** [n]: the length of a packet. *)
Context (n : Z) (Hb : 0 < n < ringSize) (Hm : ringSize mod n = 0).
Context (Hpacket : forall d, I d -> ringPacket d = n).
#[local] Abbreviation ring_aligned := (aligned ringSize n).

(** The driver with a known ring. *)
Definition has_ring (rb : RingBuffer Z) (d : D) : Prop := I d /\ ringOf d = rb.

Context (Hring : forall d, I d -> ring_aligned (ringOf d)).
Context (Hdrop : forall d, I d -> n <= count ringSize (ringOf d) -> I (dropFirst d)).
Context (Hhandle : forall rb packet, length packet = Z.to_nat n -> packet = tail_slice n rb -> n <= count ringSize rb ->
  ends_at T (has_ring rb) (has_ring rb) (handle packet)).

(** The world after the driver alone has run. *)
Definition ran (w w' : W) : Prop :=
  I (self w') /\ host w' = host w /\ now w' = now w /\
  drv_installed (self w') = drv_installed (self w) /\
  (Forall may_tell (told w) -> Forall may_tell (told w')).

Lemma ran_trans w1 w2 w3 : ran w1 w2 -> ran w2 w3 -> ran w1 w3.
Proof.
  intros (A1 & A2 & A3 & A4 & A5) (C1 & C2 & C3 & C4 & C5). split; [done|].
  split_and!; [congruence..|auto].
Qed.

Lemma handleFirst_spec (w : W) packet :
  T (now w) -> I (self w) -> n <= count ringSize (ringOf (self w)) -> packet = tail_slice n (ringOf (self w)) ->
  waitingPackets (self w) = packet :: waitingPackets (dropFirst (self w)) ->
  exists w', handleFirst handle packet w = Ok (w', tt) /\ ran w w' /\
    waitingPackets (self w') = waitingPackets (dropFirst (self w)) /\
    count ringSize (ringOf (self w')) = count ringSize (ringOf (self w)) - n.
Proof.
  pose proof ring_size_bound as Hn.
  intros HTn Hd Hc Ht Hp. pose proof (Hring _ Hd) as Hr.
  assert (Hl : length packet = Z.to_nat n).
  { eapply (pending_packet_length ringSize n); [done..|exact Hr|]. unfold waitingPackets in Hp.
    rewrite (Hpacket _ Hd) in Hp. rewrite Hp. by left. }
  assert (He : ends_at (B := B) T (has_ring (ringOf (self w)))
    (has_ring (advanceTail ringSize n (ringOf (self w)))) (handleFirst handle packet)).
  { eapply ends_at_bind; [by apply Hhandle|]. intros _. apply ends_at_weak, ends_dset; [|intros d; apply setRing_installed].
    intros d [Hi Er]. split; [apply Hdrop; [done|by rewrite Er]|].
    unfold dropFirst. by rewrite (Hpacket _ Hi), ringOf_set, Er. }
  destruct (He w HTn (conj Hd eq_refl)) as (w' & [] & E0 & [H1 H2] & H3 & H4 & H5 & H6).
  exists w'. split; [done|]. split; [by split|]. unfold waitingPackets, dropFirst.
  rewrite (Hpacket _ H1), H2, ringPacket_set, ringOf_set, (Hpacket _ Hd). split; [done|]. by apply advanceTail_count.
Qed.

Lemma ringRound_eq (w : W) :
  ringRound handle tt w =
  if count ringSize (ringOf (self w)) <? ringPacket (self w) then Ok (w, inr tt)
  else (handleFirst handle (tail_slice (ringPacket (self w)) (ringOf (self w))) ;; ret (inl tt)) w.
Proof.
  unfold ringRound. rewrite (bind_ok (dget _) _ w w (count ringSize (ringOf (self w)))) by done.
  rewrite (bind_ok (dget _) _ w w (ringPacket (self w))) by done.
  cbn beta. destruct (_ <? _); [done|].
  rewrite (bind_ok (dget _) _ w w (tail_slice (ringPacket (self w)) (ringOf (self w)))) by done.
  unfold handleFirst. by rewrite bind_assoc.
Qed.

(** Any fuel beyond the number of waiting bytes is enough. *)
Lemma ring_rounds fuel (w : W) :
  T (now w) -> I (self w) -> (ringQueued w < fuel)%nat ->
  exists w', iter fuel (ringRound handle) tt w = Ok (w', tt) /\
    for_each (waitingPackets (self w)) (handleFirst handle) w = Ok (w', tt) /\
    waitingPackets (self w') = [] /\ ran w w'.
Proof.
  pose proof ring_size_bound as Hn.
  intros HTn Hd Hf. revert w HTn Hf Hd. induction fuel as [|fuel IH]; intros w HTn Hf Hd; [lia|].
  pose proof (Hring _ Hd) as Hr. simpl. rewrite ringRound_eq, (Hpacket _ Hd).
  destruct (Z.ltb_spec (count ringSize (ringOf (self w))) n) as [Hc|Hc].
  - assert (Hw : waitingPackets (self w) = []) by (unfold waitingPackets; rewrite (Hpacket _ Hd); by apply pending_nil). rewrite Hw.
    exists w. by split_and!.
  - assert (Hp : waitingPackets (self w) = tail_slice n (ringOf (self w)) :: waitingPackets (dropFirst (self w))).
    { unfold waitingPackets, dropFirst. rewrite ringOf_set, ringPacket_set, (Hpacket _ Hd). by apply advanceTail_pending. }
    destruct (handleFirst_spec w _ HTn Hd Hc eq_refl Hp) as (w1 & E0 & H1 & Hw1 & Hc1).
    rewrite (bind_ok _ _ _ _ _ E0). rewrite Hp. cbn [for_each]. rewrite (bind_ok _ _ _ _ _ E0), <- Hw1.
    destruct (IH w1) as (w' & E' & Ef & Hn' & H').
    { destruct H1 as (_ & _ & Et & _). by rewrite Et. }
    { unfold ringQueued in *. lia. }
    { apply H1. }
    exists w'. split_and!; [done..|]. by eapply ran_trans.
Qed.

(** The loop ends and is a pass over the waiting packets. *)
Lemma drainRing_at (w : W) : T (now w) -> I (self w) ->
  total (drainRing handle) (fun _ w' => for_each (waitingPackets (self w)) (handleFirst handle) w = Ok (w', tt) /\
    waitingPackets (self w') = [] /\ I (self w') /\ host w' = host w) w.
Proof.
  intros Ht Hd. destruct (ring_rounds (S (ringQueued w)) w Ht Hd) as (w' & E0 & Ef & Hw & Hd' & Hh & _); [lia|].
  by exists w', tt.
Qed.

Lemma ends_at_drainRing : ends_at T I I (drainRing handle).
Proof.
  intros w Ht Hw. destruct (ring_rounds (S (ringQueued w)) w Ht Hw) as (w' & E0 & _ & _ & Hwk); [lia|]. by exists w', tt.
Qed.

End Drain.

(** The same for handlers that never look at the clock, or do not care what it says. *)
Section Timeless.
Context {B : Type} `{HB : PS2Bus B} {D E : Type} `{HL : PacketRingLaws D} `{HT : Tells E}.
#[local] Abbreviation W := (DrvWorld B D E).
Context (I : D -> Prop) (handle : list Z -> M W unit).
Context (n : Z) (Hb : 0 < n < ringSize) (Hm : ringSize mod n = 0).
Context (Hpacket : forall d, I d -> ringPacket d = n).
Context (Hring : forall d, I d -> aligned ringSize n (ringOf d)).
Context (Hdrop : forall d, I d -> n <= count ringSize (ringOf d) -> I (dropFirst d)).
Context (Hhandle : forall rb packet, length packet = Z.to_nat n -> packet = tail_slice n rb -> n <= count ringSize rb ->
  ends (has_ring I rb) (has_ring I rb) (handle packet)).

Lemma drainRing_spec (w : W) : I (self w) ->
  total (drainRing handle) (fun _ w' => for_each (waitingPackets (self w)) (handleFirst handle) w = Ok (w', tt) /\
    waitingPackets (self w') = [] /\ I (self w') /\ host w' = host w) w.
Proof. apply (drainRing_at (fun _ => True) I handle n); [done..| |done]. intros. by apply ends_at_weak, Hhandle. Qed.

Lemma ends_drainRing : ends I I (drainRing handle).
Proof. apply ends_at_always, (ends_at_drainRing (fun _ => True) I handle n); [done..|]. intros. by apply ends_at_weak, Hhandle. Qed.

End Timeless.
