(* ===== verification/Talk.v ===== *)
(** * Conversations with a device

    Rules for the drivers' longer computations over any bus: a computation that ends in
    an invariant which depends on its result ([leads]), and a conversation with the
    device, which keeps an invariant whether or not the lock is held and brings back
    a result of a known kind ([asks]). *)
From S2P Require Import Prelude PS2Types Bus DriverWorld.

Section Leads.
Context {B : Type} `{HB : PS2Bus B} `{HL : !PS2BusLaws B} {D E : Type} `{HD : BusDriver D} `{HT : Tells E}.
#[local] Abbreviation W := (DrvWorld B D E).
#[local] Abbreviation C := (M W).
Implicit Types I J : D -> Prop.

(** From a good world to one whose invariant depends on the result. *)
Definition leads {X} I l (J : X -> D -> Prop) l' (m : C X) : Prop :=
  forall w, good I l w -> wp m (fun x w' => good (J x) l' w') w.

(** A conversation: the invariant stays, whether or not the lock is held, and the
    result is in [R]. *)
Definition asks {X} I (R : X -> Prop) (m : C X) : Prop :=
  forall l w, good I l w -> wp m (fun x w' => R x /\ good I l w') w.

Lemma talk_leads_bind {X Y} I l (J : X -> _) l' (K : Y -> _) l'' (m : C X) (k : X -> C Y) :
  leads I l J l' m -> (forall x, leads (J x) l' K l'' (k x)) -> leads I l K l'' (m ≫= k).
Proof. intros Hm Hk w Hw. apply wp_bind. eapply wp_mono; [by apply Hm|]. intros x w' Hw'. by apply Hk. Qed.

Lemma leads_asks {X Y} I R l (K : Y -> _) l' (m : C X) (k : X -> C Y) :
  asks I R m -> (forall x, R x -> leads I l K l' (k x)) -> leads I l K l' (m ≫= k).
Proof.
  intros Hm Hk w Hw. apply wp_bind. eapply wp_mono; [by apply Hm|]. intros x w' [Hx Hw']. by apply (Hk x Hx).
Qed.

Lemma leads_ret {X} I l (K : X -> _) x : (forall d, I d -> K x d) -> leads I l K l (ret x).
Proof. intros HK w [H1 H2 H3 H4 H5]. split; auto. Qed.

Lemma leads_moves {X Y} I l J l' (K : Y -> _) l'' (m : C X) (k : X -> C Y) :
  moves I l J l' m -> (forall x, leads J l' K l'' (k x)) -> leads I l K l'' (m ≫= k).
Proof. intros Hm Hk. by apply (talk_leads_bind I l (fun _ => J) l'). Qed.

Lemma leads_dget {X Y} I l (K : Y -> _) l' (f : D -> X) (k : X -> C Y) :
  (forall d, I d -> leads I l K l' (k (f d))) -> leads I l K l' (dget f ≫= k).
Proof. intros Hk w Hw. apply wp_bind, wp_gets. apply (Hk (self w)); [apply Hw|done]. Qed.

Lemma leads_deref {X Y} I l (K : Y -> _) l' (o : option X) (x : X) (k : X -> C Y) :
  o = Some x -> leads I l K l' (k x) -> leads I l K l' (deref o ≫= k).
Proof. intros -> Hk w Hw. apply wp_bind, wp_ret. by apply Hk. Qed.

Lemma leads_dset I J l f : (forall d, I d -> J (f d)) -> (forall d, drv_installed (f d) = drv_installed d) ->
  leads I l (fun _ => J) l (dset f).
Proof. intros Hf Hi. by apply (moves_dset I J l). Qed.

Lemma talk_leads_mono {X} I I' l (J J' : X -> _) l' (m : C X) :
  (forall d, I' d -> I d) -> (forall x d, J x d -> J' x d) -> leads I l J l' m -> leads I' l J' l' m.
Proof.
  intros HI HJ Hm w [H1 H2 H3 H4 H5]. eapply wp_mono; [apply Hm; split; auto|].
  cbn beta. intros x w' [H6 H7 H8 H9 H10]. split; auto.
Qed.

Lemma asks_moves {X} I R l (m : C X) : asks I R m -> moves I l I l m.
Proof. intros Hm w Hw. eapply wp_mono; [by apply Hm|]. by intros x w' []. Qed.

Lemma moves_asks {X} I (m : C X) : (forall l, moves I l I l m) -> asks I (fun _ => True) m.
Proof. intros Hm l w Hw. eapply wp_mono; [by apply Hm|]. by intros x w'. Qed.

Lemma asks_leads {X} I l (m : C X) : asks I (fun _ => True) m -> leads I l (fun _ => I) l m.
Proof. intros Hm w Hw. eapply wp_mono; [by apply Hm|]. by intros x w' []. Qed.

Lemma asks_ends {X} I (m : C X) : ends I I m -> asks I (fun _ => True) m.
Proof. intros Hm. apply moves_asks. intros l. by apply moves_ends. Qed.

Lemma asks_bind {X Y} I R S (m : C X) (k : X -> C Y) :
  asks I R m -> (forall x, R x -> asks I S (k x)) -> asks I S (m ≫= k).
Proof.
  intros Hm Hk l w Hw. apply wp_bind. eapply wp_mono; [by apply Hm|]. intros x w' [Hx Hw']. by apply (Hk x Hx).
Qed.

Lemma asks_seq {X Y} I (R : Y -> Prop) (m : C X) (k : X -> C Y) :
  asks I (fun _ => True) m -> (forall x, asks I R (k x)) -> asks I R (m ≫= k).
Proof. intros Hm Hk. eapply asks_bind; [exact Hm|]. by intros x _. Qed.

Lemma asks_ret {X} I (R : X -> Prop) x : R x -> asks I R (ret x).
Proof. intros Hx l w Hw. apply wp_ret. by split. Qed.

Lemma asks_dget {X Y} I S (f : D -> X) (k : X -> C Y) :
  (forall d, I d -> asks I S (k (f d))) -> asks I S (dget f ≫= k).
Proof. intros Hk l w Hw. apply wp_bind, wp_gets. apply (Hk (self w)); [apply Hw|done]. Qed.

Lemma asks_deref {X Y} I S (o : option X) (x : X) (k : X -> C Y) :
  o = Some x -> asks I S (k x) -> asks I S (deref o ≫= k).
Proof. intros -> Hk l w Hw. apply wp_bind, wp_ret. by apply Hk. Qed.

Lemma asks_dset I f :
  (forall d, I d -> I (f d)) -> (forall d, drv_installed (f d) = drv_installed d) -> asks I (fun _ => True) (dset f).
Proof. intros Hf Hi. apply moves_asks. intros l. by apply moves_dset. Qed.

Lemma asks_tell I e : may_tell e -> asks I (fun _ => True) (tell e).
Proof. intros He. apply moves_asks. intros l. by apply moves_tell. Qed.

Lemma asks_when I (b : bool) (m : C unit) : (b = true -> asks I (fun _ => True) m) -> asks I (fun _ => True) (when b m).
Proof. destruct b; [auto|intros _; by apply asks_ret]. Qed.

Lemma asks_true {X} I R (m : C X) : asks I R m -> asks I (fun _ => True) m.
Proof. intros Hm l w Hw. eapply wp_mono; [by apply Hm|]. by intros x w' []. Qed.

Lemma asks_each {A} I (l : list A) (f : A -> C unit) :
  (forall a, asks I (fun _ => True) (f a)) -> asks I (fun _ => True) (for_each l f).
Proof. intros Hf. induction l as [|a l IH]; [by apply asks_ret|]. cbn [for_each]. apply asks_seq; [apply Hf|by intros _]. Qed.

(** *** Requests *)
Section Requests.
Context (I : D -> Prop) `{HU : !Undisturbed (B := B) I} (p : Z).
Context (Hp : 0 <= p < kPS2MuxMaxIdx) (HI : forall d, I d -> drv_device d = Some p).

(** [_device->submitRequestAndBlock], for a device that may be null. *)
Lemma asks_request cs : Z.of_nat (length cs) < 256 ->
  asks I (answered cs) (dev ← dget drv_device; p ← deref dev; requestDevice p cs).
Proof.
  intros Hc. apply asks_dget. intros d Hd. eapply asks_deref; [exact (HI d Hd)|].
  intros l w [H1 H2 H3 H4 H5]. unfold requestDevice. eapply (wp_controller I _ (answered cs) l w H1 H5).
  assert (Hu : u8 (Z.of_nat (length cs)) = Z.of_nat (length cs)) by (apply u8_small; lia).
  eapply wp_mono; [apply law_submit; [done|cbn [commandsCount commands port TPS2Request]; lia..]|].
  cbn beta. intros r b [[Hb Hl Hi] Hs]. split; [apply Hs|]. split; [done|]. split; [congruence|]. auto.
Qed.

Lemma asks_result cs r i : answered cs r -> 0 <= i < Z.of_nat (length cs) ->
  asks I (fun _ => True) (commandResult r i).
Proof.
  intros Ha Hi. apply (f_equal length) in Ha. rewrite !length_map in Ha.
  destruct (arr_get_Some (commands r) i) as (c & E0 & _); [lia|]. eapply asks_deref; [exact E0|]. by apply asks_ret.
Qed.

Lemma asks_sleep ms : asks I (fun _ => True) (onController (bus_sleep ms)).
Proof. apply moves_asks. intros l. apply moves_steady; [exact _|apply law_sleep]. Qed.

End Requests.
End Leads.
