(* ===== verification/Trackpad.v ===== *)
(** * What the touchpad drivers share

    Parts that the Elan, the Synaptics and the ALPS driver write in the same words:
    [SimpleAverage] and the force-touch modes of VoodooPS2TrackpadCommon.h, the loops that
    read settings from a dictionary, the properties for a version of Darwin, and the
    set of pointing devices that stop the touchpad. *)
From Stdlib Require Import SpecFloat.
From stdpp Require Import pretty.
From S2P Require Import Prelude PS2Types Bus DriverWorld Talk OSTypes.

(** [ForceTouchMode] *)
Definition FORCE_TOUCH_DISABLED : Z := 0.
Definition FORCE_TOUCH_BUTTON : Z := 1.
Definition FORCE_TOUCH_THRESHOLD : Z := 2.
Definition FORCE_TOUCH_VALUE : Z := 3.
Definition FORCE_TOUCH_CUSTOM : Z := 4.

(** ** The pressure of the custom force-touch mode

    [double] is the IEEE numbers of the Standard Library's SpecFloat. *)
Definition toDouble (z : Z) : spec_float := binary_normalize 53 1024 z 0 false.
Definition mulDouble : spec_float -> spec_float -> spec_float := SFmul 53 1024.
Definition divDouble : spec_float -> spec_float -> spec_float := SFdiv 53 1024.

(** [(int) x], for a number that an [int] can hold. *)
Definition ofDouble (x : spec_float) : Z :=
  match x with
  | S754_finite s m e =>
    let z := if e <? 0 then Z.shiftr (Zpos m) (- e) else Z.shiftl (Zpos m) e in if s then - z else z
  | _ => 0
  end.

(** [base] multiplied [n] times. *)
Definition powDouble (base : spec_float) (n : Z) : spec_float :=
  Nat.iter (Z.to_nat n) (fun value => mulDouble value base) (toDouble 1).

(** The pressure with one finger. *)
Definition customPressure (downThreshold upThreshold power pressure : Z) : Z :=
  let value :=
    if downThreshold <=? pressure then toDouble 1
    else if pressure <=? upThreshold then toDouble 0
    else powDouble (divDouble (toDouble (pressure - upThreshold)) (toDouble (s32 (downThreshold - upThreshold)))) power in
  ofDouble (mulDouble value (toDouble 255)).

(** Started from a recovery system or an installer. *)
Definition recovery (bootArg : string -> bool) : bool :=
  existsb bootArg ["rp0"; "rp"; "container-dmg"; "root-dmg"; "auth-root-dmg"]%string.

(** ** Keys *)

(** The bits of the modifier keys from key code 0x36 on. *)
Definition masks : list Z := [0x10; 0x100000; 0; 0; 0x080000; 0x040000; 0; 0x08; 0x04; 0x200000].

Definition modifierKey (adbKeyCode : Z) : bool :=
  existsb (Z.eqb adbKeyCode) [0x38; 0x3c; 0x3b; 0x3e; 0x3a; 0x3d; 0x37; 0x36; 0x3f].

Lemma masks_total key : modifierKey key = true -> exists m, arr_get masks (key - 0x36) = Some m.
Proof.
  intros H. unfold modifierKey in H. apply existsb_exists in H. destruct H as (x & Hx & E%Z.eqb_eq). subst x.
  repeat (destruct Hx as [<-|Hx]; [by eexists|]). destruct Hx.
Qed.

(** ** Averages of the last [N] values *)

Record SimpleAverage := mkAverage { m_values : list Z; m_count : Z; m_sum : Z; m_index : Z }.

Section Average.
Context (N : Z).

(** The buffer keeps its contents when the average is reset. *)
Definition resetAverage (a : SimpleAverage) : SimpleAverage := {| a with m_count := 0; m_sum := 0; m_index := 0 |}.

(** [filter], without its result; [None] is an access outside the buffer. *)
Definition filterAverage (data : Z) (a : SimpleAverage) : option SimpleAverage :=
  let sum := s32 (m_sum a + data) in
  old ← arr_get (m_values a) (m_index a);
  let sum := if m_count a =? N then s32 (sum - old) else sum in
  values ← arr_set (m_values a) (m_index a) data;
  let index := if N <=? m_index a + 1 then 0 else m_index a + 1 in
  let count := if m_count a <? N then m_count a + 1 else m_count a in
  Some (mkAverage values count sum index).

Definition newest (a : SimpleAverage) : option Z :=
  if m_count a =? 0 then Some 0 else
  let index := m_index a - 1 in
  arr_get (m_values a) (if index <? 0 then m_count a - 1 else index).

Definition oldest (a : SimpleAverage) : option Z :=
  if m_count a =? 0 then Some 0
  else arr_get (m_values a) (if m_count a <? N then 0 else m_index a).

Definition average (a : SimpleAverage) : Z := if m_count a =? 0 then 0 else Z.quot (m_sum a) (m_count a).

Definition newAverage : SimpleAverage := mkAverage (replicate (Z.to_nat N) 0) 0 0 0.

End Average.

(** ** Pointing devices *)

(** Codes of the class of a Bluetooth device, from the system's headers. *)
Record BluetoothCodes := mkBluetoothCodes {
  kBluetoothDeviceClassMajorPeripheral : Z;
  kBluetoothDeviceClassMinorPeripheral1Pointing : Z;
  kBluetoothDeviceClassMinorPeripheral1Combo : Z;
  kBluetoothDeviceClassMinorPeripheral2Unclassified : Z;
  kBluetoothDeviceClassMinorPeripheral2DigitizerTablet : Z;
  kBluetoothDeviceClassMinorPeripheral2DigitalPen : Z }.

(** A pointing device, by its class. *)
Definition isPointer (bt : BluetoothCodes) (classOfDevice : Z) : bool :=
  let deviceClassMajor := Z.shiftr (Z.land classOfDevice 0x1F00) 8 in
  let deviceClassMinor := Z.shiftr (Z.land classOfDevice 0xFF) 2 in
  let minor1 := Z.land deviceClassMinor 0x30 in
  let minor2 := Z.land deviceClassMinor 0x0F in
  (deviceClassMajor =? kBluetoothDeviceClassMajorPeripheral bt) &&
  ((minor1 =? kBluetoothDeviceClassMinorPeripheral1Pointing bt) ||
   (minor1 =? kBluetoothDeviceClassMinorPeripheral1Combo bt)) &&
  ((minor2 =? kBluetoothDeviceClassMinorPeripheral2Unclassified bt) ||
   (minor2 =? kBluetoothDeviceClassMinorPeripheral2DigitizerTablet bt) ||
   (minor2 =? kBluetoothDeviceClassMinorPeripheral2DigitalPen bt)).

(** What a notifier tells of: a device, and the class of a Bluetooth device. *)
Inductive HidEvent := UsbPublished | UsbTerminated | BluetoothPublished (classOfDevice : option Z) | BluetoothTerminated.

Definition published (e : HidEvent) : bool := match e with UsbPublished | BluetoothPublished _ => true | _ => false end.
Definition isUsb (e : HidEvent) : bool := match e with UsbPublished | UsbTerminated => true | _ => false end.

(** The set of attached devices afterwards. *)
Definition attach (service : Z) (l : list Z) : list Z := if bool_decide (service ∈ l) then l else l ++ [service].
Definition detach (service : Z) (l : list Z) : list Z := filter (fun s => s <> service) l.
Definition hidStep (bt : BluetoothCodes) (e : HidEvent) (service : Z) (l : list Z) : list Z :=
  match e with
  | UsbPublished => attach service l
  | UsbTerminated | BluetoothTerminated => detach service l
  | BluetoothPublished c => match c with
                            | Some c => if isPointer bt (u32 c) then attach service l else l
                            | None => l
                            end
  end.

(** ** Properties for a version of Darwin *)
Definition versionProperties (version_major version_minor : Z) (config : OSDict) : option OSDict :=
  let dictAt name := o ← getObject config name; asDictionary o in
  match dictAt ("Darwin " +:+ pretty version_major +:+ "." +:+ pretty version_minor)%string with
  | Some d => Some d
  | None =>
    match dictAt ("Darwin " +:+ pretty version_major +:+ ".x")%string with
    | Some d => Some d
    | None => if 16 <=? version_major then dictAt "Darwin 16+"%string else None
    end
  end.

(** ** Settings *)

(** A driver with settings [S], and what it tells of them: numbers of 32 bits, numbers of
    64 bits, booleans. *)
Class Configured (D S E : Type) := {
  onSettings : (S -> S) -> D -> D;
  numberSet : string -> Z -> E;
  number64Set : string -> Z -> E;
  booleanSet : string -> bool -> E }.

Section Settings.
Context {B : Type} `{PS2Bus B} {D E S : Type} `{BusDriver D} `{Configured D S E}.
#[local] Abbreviation C := (M (DrvWorld B D E)).

Definition changeSettings (f : S -> S) : C unit := dset (onSettings f).

Definition readInt64 (config : OSDict) (name : string) (f : Z -> S -> S) : C unit :=
  match getNumber64 config name with
  | Some v => changeSettings (f v) ;; tell (number64Set name v)
  | None => ret tt
  end.
Definition readInt32 (config : OSDict) (name : string) (f : Z -> S -> S) : C unit :=
  match getNumber32 config name with
  | Some v => changeSettings (f (s32 v)) ;; tell (numberSet name v)
  | None => ret tt
  end.
Definition readBool (config : OSDict) (name : string) (f : bool -> S -> S) : C unit :=
  match getBoolean config name with
  | Some v => changeSettings (f v) ;; tell (booleanSet name v)
  | None => ret tt
  end.

(** A switch that a number or a boolean sets. *)
Definition readLowbit (config : OSDict) (name : string) (f : bool -> S -> S) : C unit :=
  match getNumber32 config name with
  | Some v => let v := nz (Z.land v 0x1) in
              changeSettings (f v) ;; tell (numberSet name (if v then 1 else 0))
  | None => readBool config name f
  end.

End Settings.

(** ** Their rules *)

Section Rules.
Context {B : Type} `{HB : PS2Bus B} {D E S : Type} `{HD : BusDriver D} `{HC : Configured D S E} `{HT : Tells E}.
#[local] Abbreviation C := (M (DrvWorld B D E)).
#[local] Abbreviation ends := (ends (B := B) (E := E)).

(** An invariant that the settings do not matter to. *)
Context (I : D -> Prop) (HI : forall f d, I d -> I (onSettings f d)).
Context (Hinstalled : forall f d, drv_installed (onSettings f d) = drv_installed d)
  (Htell : forall name, (forall v, may_tell (numberSet name v)) /\ (forall v, may_tell (number64Set name v)) /\ (forall v, may_tell (booleanSet name v))).

Lemma ends_each {A} (l : list A) (f : A -> C unit) : (forall a, ends I I (f a)) -> ends I I (for_each l f).
Proof.
  intros Hf. induction l as [|a l IH]; [apply ends_ret|]. cbn [for_each]. apply (ends_bind I I I); [apply Hf|by intros _].
Qed.

Lemma ends_seq {X Y} (m : C X) (k : X -> C Y) : ends I I m -> (forall x, ends I I (k x)) -> ends I I (m ≫= k).
Proof. apply (ends_bind I I I). Qed.

Lemma ends_store f e : may_tell e -> ends I I (changeSettings f ;; tell e).
Proof.
  intros He. apply ends_seq; [|intros _; by apply ends_tell]. apply ends_dset; [intros d; apply HI|apply Hinstalled].
Qed.

Lemma ends_readInt64 c name f : ends I I (readInt64 c name f).
Proof. unfold readInt64. destruct (getNumber64 c name); [apply ends_store, Htell|apply ends_ret]. Qed.

Lemma ends_readInt32 c name f : ends I I (readInt32 c name f).
Proof. unfold readInt32. destruct (getNumber32 c name); [apply ends_store, Htell|apply ends_ret]. Qed.

Lemma ends_readBool c name f : ends I I (readBool c name f).
Proof. unfold readBool. destruct (getBoolean c name); [apply ends_store, Htell|apply ends_ret]. Qed.

Lemma ends_readLowbit c name f : ends I I (readLowbit c name f).
Proof. unfold readLowbit. destruct (getNumber32 c name); [apply ends_store, Htell|apply ends_readBool]. Qed.

End Rules.

(** ** Packets of six bytes *)

Lemma packet_bytes (packet : list Z) : length packet = 6%nat ->
  exists p0 p1 p2 p3 p4 p5, packet = [p0; p1; p2; p3; p4; p5].
Proof. destruct packet as [|? [|? [|? [|? [|? [|? []]]]]]]; try done. eauto 10. Qed.
