(* ===== verification/Motion.v ===== *)
(** * Relative motion packets

    What the mouse and the Sentelic touchpad share: the first three bytes of a packet
    hold the buttons, two sign bits and two motions. *)
From S2P Require Import Prelude.

(** The sign and the byte of a motion. *)
Definition motion (sign : bool) (b : Z) : Z := Z.lor (if sign then 0xffffff00 else 0) b.

(** ** Encoding *)

Definition sign (z : Z) : Z := if z <? 0 then 1 else 0.

(** The fields one by one, by the finitely many cases. *)
Lemma seqZ_all (P : Z -> bool) a n z : forallb P (seqZ a n) = true -> a <= z < a + n -> P z = true.
Proof. rewrite forallb_forall. intros H Hz. apply H. rewrite <- list_elem_of_In, elem_of_seqZ. done. Qed.

Lemma motion_decode z : -256 <= z < 256 -> s32 (motion (z <? 0) (z mod 256)) = z.
Proof.
  intros Hz. apply Z.eqb_eq.
  by apply (seqZ_all (fun z => s32 (motion (z <? 0) (z mod 256)) =? z) (-256) 512); [vm_compute|lia].
Qed.

Lemma motion_decode_neg z : -256 <= z < 256 -> s32 (u32 (- motion (z <? 0) (z mod 256))) = - z.
Proof.
  intros Hz. apply Z.eqb_eq.
  by apply (seqZ_all (fun z => s32 (u32 (- motion (z <? 0) (z mod 256))) =? - z) (-256) 512); [vm_compute|lia].
Qed.

Definition byte0_check (b : Z) : bool :=
  forallb (fun sx => forallb (fun sy =>
    let p0 := b mod 8 + 8 + 16 * sx + 32 * sy in
    (Z.land p0 0x7 =? b mod 8) && eqb (nz (Z.land p0 0x10)) (sx =? 1) && eqb (nz (Z.land p0 0x20)) (sy =? 1) &&
    nz (Z.land p0 0x08) && (0 <=? p0) && (p0 <? 64)) (seqZ 0 2)) (seqZ 0 2).

Lemma byte0_decode b x y : 0 <= b < 32 ->
  let p0 := b mod 8 + 8 + 16 * sign x + 32 * sign y in
  Z.land p0 0x7 = b mod 8 /\ nz (Z.land p0 0x10) = (x <? 0) /\ nz (Z.land p0 0x20) = (y <? 0) /\
  nz (Z.land p0 0x08) = true /\ 0 <= p0 < 64.
Proof.
  intros Hb. assert (H : byte0_check b = true) by (apply (seqZ_all byte0_check 0 32); [by vm_compute|lia]).
  assert (Hs : forall z, 0 <= sign z < 0 + 2) by (intros z; unfold sign; destruct (_ <? _); lia).
  pose proof (seqZ_all _ 0 2 (sign x) H (Hs x)) as H1. cbv beta in H1.
  pose proof (seqZ_all _ 0 2 (sign y) H1 (Hs y)) as H2. cbv beta zeta in H2.
  rewrite !andb_true_iff in H2. destruct H2 as [[[[[A%Z.eqb_eq C%eqb_prop] D%eqb_prop] E] F%Z.leb_le] G%Z.ltb_lt].
  cbv zeta. rewrite A, C, D, E. unfold sign in *. destruct (x <? 0), (y <? 0); split_and!; try done; lia.
Qed.
