(* ===== verification/Mouse.v ===== *)
(** * The mouse driver: ApplePS2Mouse

    VoodooPS2Mouse/VoodooPS2Mouse.h and .cpp, operation by operation, in the world of
    [DriverWorld.v]: packets of three or four bytes, the simulated middle button, the
    Intellimouse handshake, settings, power and life cycle. *)
From S2P Require Import Prelude PS2Types RingBuffer Bus DriverWorld RingLoop OSTypes Motion.

Definition kPacketLengthMax : Z := 4.
Definition kPacketLengthStandard : Z := 3.
Definition kPacketLengthIntellimouse : Z := 4.

(** The size of the ring buffer. *)
Definition MOUSE_RING : Z := kPacketLengthMax * 32.

Inductive PS2MouseId := kMouseTypeStandard | kMouseTypeIntellimouse | kMouseTypeIntellimouseExplorer.

#[global] Instance PS2MouseId_eq_dec : EqDecision PS2MouseId.
Proof. solve_decision. Defined.

(** The enumerators' values, as the mouse sends them. *)
Definition mouseIdOf (b : Z) : PS2MouseId :=
  if b =? 0x04 then kMouseTypeIntellimouseExplorer
  else if b =? 0x03 then kMouseTypeIntellimouse
  else kMouseTypeStandard.

Inductive mbuttonstate := STATE_NOBUTTONS | STATE_MIDDLE | STATE_WAIT4TWO | STATE_WAIT4NONE | STATE_NOOP.

#[global] Instance mbuttonstate_eq_dec : EqDecision mbuttonstate.
Proof. solve_decision. Defined.

Inductive MBComingFrom := fromTimer | fromMouse.

#[global] Instance MBComingFrom_eq_dec : EqDecision MBComingFrom.
Proof. solve_decision. Defined.

(** The object; [_cmdGate] says whether there is one, [_buttonTimer] is the timer's
    time-out when it is armed.  The int flags [forceres], [forcesetres] and
    [_fakemiddlebutton] are only ever tested. *)
Record ApplePS2Mouse := mkMouse {
  _device : option Z;
  _interruptHandlerInstalled : bool;
  _powerControlHandlerInstalled : bool;
  _ringBuffer : RingBuffer Z;
  _packetByteCount : Z;
  _lastdata : Z;
  _packetLength : Z;
  _resolution : Z;
  _type : PS2MouseId;
  _buttonCount : Z;
  _mouseInfoBytes : Z;
  _mouseResetCount : Z;
  _cmdGate : bool;
  defres : Z;
  forceres : bool;
  mouseyinverter : Z;
  scrollyinverter : Z;
  forcesetres : bool;
  resmode : Z;
  scrollres : Z;
  wakedelay : Z;
  _mbuttonstate : mbuttonstate;
  lastbuttons : Z;
  _pendingbuttons : Z;
  _buttontime : Z;
  _buttonTimer : option (option Z);
  _maxmiddleclicktime : Z;
  _fakemiddlebutton : bool }.

(** [init], on memory that [OSObject] zero-fills. *)
Definition newMouse : ApplePS2Mouse := {|
  _device := None;
  _interruptHandlerInstalled := false; _powerControlHandlerInstalled := false;
  _ringBuffer := mkRing (replicate (Z.to_nat MOUSE_RING) 0) 0 0;
  _packetByteCount := 0; _lastdata := 0; _packetLength := kPacketLengthStandard;
  _resolution := 0; _type := kMouseTypeStandard; _buttonCount := 3;
  _mouseInfoBytes := u32 (-1); _mouseResetCount := 0; _cmdGate := false;
  defres := s32 (Z.shiftl 150 16); forceres := false;
  mouseyinverter := 1; scrollyinverter := 1; forcesetres := false;
  resmode := -1; scrollres := 10; wakedelay := 1000;
  _mbuttonstate := STATE_NOBUTTONS; lastbuttons := 0; _pendingbuttons := 0; _buttontime := 0;
  _buttonTimer := None; _maxmiddleclicktime := 100000000; _fakemiddlebutton := false |}.

(** The keys of the properties the driver publishes. *)
Inductive MouseKey :=
| kIOHIDScrollResolutionKey
| kIOHIDScrollAccelerationTypeKey
| kIOHIDPointerAccelerationTypeKey
| kDeliverNotifications
| settingKey (name : string).

Inductive MouseProperty := MouseNumber (z : Z) | MouseBoolean (b : bool) | kIOHIDMouseAccelerationType.

(** What the driver tells the HID system and the I/O registry. *)
Inductive MouseEvent :=
| MousePointer (dx dy buttons time : Z)
| MouseScroll (delta time : Z)
| MouseSet (key : MouseKey) (v : MouseProperty)
| MouseRemove (key : MouseKey).

(** ** Bytes from the mouse *)

(** Bytes [l] through [head()], [advanceHead]. *)
Definition putPacket (b0 b1 : Z) (d : ApplePS2Mouse) : option ApplePS2Mouse :=
  rb ← head_set 0 b0 (_ringBuffer d);
  rb ← head_set 1 b1 rb;
  Some {| d with _ringBuffer := advanceHead MOUSE_RING kPacketLengthMax rb |}.

Definition interruptOccurred (data : Z) : M ApplePS2Mouse PS2InterruptResult := fun d =>
  let data := u8 data in
  if (_lastdata d =? kSC_Reset) && (data =? 0x00) then
    match putPacket 0x00 kSC_Reset d with
    | Some d => Ok ({| d with _packetByteCount := 0 |}, kPS2IR_packetReady)
    | None => Crash
    end
  else
  let d := {| d with _lastdata := data |} in
  if (_packetByteCount d =? 0) && ((data =? kSC_Acknowledge) || negb (nz (Z.land data 0x08))) then
    if _mouseResetCount d <? 5 then
      match putPacket 0x00 kSC_Acknowledge {| d with _mouseResetCount := u32 (_mouseResetCount d + 1) |} with
      | Some d => Ok (d, kPS2IR_packetReady)
      | None => Crash
      end
    else Ok (d, kPS2IR_packetBuffering)
  else
  match head_set (_packetByteCount d) data (_ringBuffer d) with
  | None => Crash
  | Some rb =>
    let d := {| d with _ringBuffer := rb; _packetByteCount := u32 (_packetByteCount d + 1) |} in
    if _packetByteCount d =? _packetLength d
    then Ok ({| d with _mouseResetCount := 0;
                _ringBuffer := advanceHead MOUSE_RING kPacketLengthMax rb;
                _packetByteCount := 0 |}, kPS2IR_packetReady)
    else Ok (d, kPS2IR_packetBuffering)
  end.

#[export] Instance mouse_driver : BusDriver ApplePS2Mouse := {|
  drv_interrupt := interruptOccurred;
  drv_device := _device;
  drv_installed := _interruptHandlerInstalled |}.

#[export] Instance mouse_ring : PacketRing ApplePS2Mouse := {|
  ringSize := MOUSE_RING;
  ringPacket _ := kPacketLengthMax;
  ringOf := _ringBuffer;
  setRing rb d := {| d with _ringBuffer := rb |} |}.

(** ** Packets *)

(** Buttons, motion and wheel of a packet; a third coordinate and two more buttons come
    with the fourth byte. *)
Record MouseReport := mkReport { rp_buttons : Z; rp_dx : Z; rp_dy : Z; rp_dz : Z }.

Definition decodeMouse (type : PS2MouseId) (packetSize : Z) (packet : list Z) : option MouseReport :=
  p0 ← arr_get packet 0;
  p1 ← arr_get packet 1;
  p2 ← arr_get packet 2;
  let buttons := Z.land p0 0x7 in
  let dx := s32 (motion (nz (Z.land p0 0x10)) p1) in
  let dy := s32 (u32 (- motion (nz (Z.land p0 0x20)) p2)) in
  if 3 <? packetSize then
    p3 ← arr_get packet 3;
    let buttons := if bool_decide (type = kMouseTypeIntellimouseExplorer)
                   then Z.lor buttons (Z.shiftr (Z.land p3 0x30) 1) else buttons in
    Some (mkReport buttons dx dy (s16 (Z.shiftr (s8 (Z.shiftl p3 4)) 4)))
  else Some (mkReport buttons dx dy 0).

(** ** The driver *)
Section Driver.
Context {B : Type} `{PS2Bus B} (absolutetime_to_nanoseconds : Z -> Z).
#[local] Abbreviation C := (M (DrvWorld B ApplePS2Mouse MouseEvent)).

Definition clock_get_uptime : C Z := t ← gets now; ret (u64 t).
Definition toNanoseconds (t : Z) : Z := u64 (absolutetime_to_nanoseconds t).

Definition dispatchRelativePointerEventX (dx dy buttons time : Z) : C unit := tell (MousePointer dx dy buttons time).
Definition dispatchScrollWheelEventX (delta time : Z) : C unit := tell (MouseScroll (s16 delta) time).

(** A call on a timer that was never made is a null dereference. *)
Definition setTimerTimeout (time : Z) : C unit :=
  dstep (fun d => _ ← _buttonTimer d; Some {| d with _buttonTimer := Some (Some time) |}).
Definition cancelTimer : C unit :=
  dstep (fun d => _ ← _buttonTimer d; Some {| d with _buttonTimer := Some None |}).

Definition setState (s : mbuttonstate) : C unit := dset (fun d => {| d with _mbuttonstate := s |}).

(** A single button goes down: hold it back for a while. *)
Definition holdBack (buttons now_ns : Z) (s : mbuttonstate) : C unit :=
  dset (fun d => {| d with _pendingbuttons := buttons; _buttontime := now_ns |}) ;;
  m ← dget _maxmiddleclicktime;
  setTimerTimeout m ;;
  setState s.

Definition letGo (s : mbuttonstate) : C unit :=
  dset (fun d => {| d with _pendingbuttons := 0 |}) ;; cancelTimer ;; setState s.

(** The first [switch] of [middleButton]. *)
Definition middleStep (buttons now_abs now_ns : Z) (from : MBComingFrom) (timeout : bool) : C unit :=
  s ← dget _mbuttonstate;
  match s with
  | STATE_NOBUTTONS =>
    if nz (Z.land buttons 0x4) then setState STATE_NOOP
    else if 0x3 =? buttons then setState STATE_MIDDLE
    else when (negb (0x0 =? buttons)) (holdBack buttons now_ns STATE_WAIT4TWO)
  | STATE_WAIT4TWO =>
    pending ← dget _pendingbuttons;
    if negb timeout && (0x3 =? buttons) then letGo STATE_MIDDLE
    else when (timeout || negb (buttons =? pending))
      (when (bool_decide (from = fromTimer) || negb (nz (Z.land buttons pending)))
         (dispatchRelativePointerEventX 0 0 (Z.lor buttons pending) now_abs) ;;
       letGo (if 0x0 =? buttons then STATE_NOBUTTONS else STATE_NOOP))
  | STATE_MIDDLE =>
    if 0x0 =? buttons then setState STATE_NOBUTTONS
    else when (negb (0x3 =? Z.land buttons 0x3)) (holdBack buttons now_ns STATE_WAIT4NONE)
  | STATE_WAIT4NONE =>
    pending ← dget _pendingbuttons;
    if negb timeout && (0x0 =? buttons) then letGo STATE_NOBUTTONS
    else when (timeout || negb (buttons =? pending))
      (when (bool_decide (from = fromTimer))
         (dispatchRelativePointerEventX 0 0 (Z.lor buttons pending) now_abs) ;;
       letGo (if 0x0 =? buttons then STATE_NOBUTTONS else STATE_NOOP))
  | STATE_NOOP => when (0x0 =? buttons) (setState STATE_NOBUTTONS)
  end.

(** The second one. *)
Definition shownButtons (s : mbuttonstate) (buttons : Z) : Z :=
  match s with
  | STATE_MIDDLE => 0x4
  | STATE_WAIT4NONE | STATE_WAIT4TWO => clear_bits buttons 0x3
  | STATE_NOBUTTONS | STATE_NOOP => buttons
  end.

Definition middleButton (buttons now_abs : Z) (from : MBComingFrom) : C Z :=
  d ← dget (fun d => d);
  if negb (_fakemiddlebutton d) || (_buttonCount d <=? 2) then ret buttons else
  let now_ns := toNanoseconds now_abs in
  let timeout := bool_decide (from = fromTimer) || (_maxmiddleclicktime d <? u64 (now_ns - _buttontime d)) in
  middleStep buttons now_abs now_ns from timeout ;;
  s ← dget _mbuttonstate;
  ret (shownButtons s buttons).

Definition onButtonTimer : C unit :=
  now_abs ← clock_get_uptime;
  last ← dget lastbuttons;
  middleButton last now_abs fromTimer ;; ret tt.

(** The timer's action runs when it is armed and its time has come; it disarms. *)
Definition buttonTimerFires : C unit :=
  t ← dget _buttonTimer;
  match t with
  | Some (Some _) => dset (fun d => {| d with _buttonTimer := Some None |}) ;; onButtonTimer
  | _ => ret tt
  end.

Definition dispatchRelativePointerEventWithPacket (packet : list Z) (packetSize : Z) : C unit :=
  type ← dget _type;
  r ← deref (decodeMouse type packetSize packet);
  now_abs ← clock_get_uptime;
  buttons ← middleButton (rp_buttons r) now_abs fromMouse;
  dset (fun d => {| d with lastbuttons := buttons |}) ;;
  y ← dget mouseyinverter;
  dispatchRelativePointerEventX (rp_dx r) (s32 (y * rp_dy r)) buttons now_abs ;;
  when (nz (rp_dz r))
    (s ← dget scrollyinverter;
     dispatchScrollWheelEventX (s32 (s32 (- s) * rp_dz r)) now_abs).

Definition handlePacket (packet : list Z) : C unit :=
  p0 ← deref (arr_get packet 0);
  when (negb (0x00 =? p0))
    (size ← dget _packetLength; dispatchRelativePointerEventWithPacket packet size).

Definition packetReady : C unit := drainRing handlePacket.

(** ** Settings *)

Definition setInt64 (config : OSDict) (name : string) (f : Z -> ApplePS2Mouse -> ApplePS2Mouse) : C unit :=
  match getNumber64 config name with
  | Some v => dset (f v) ;; tell (MouseSet (settingKey name) (MouseNumber v))
  | None => ret tt
  end.
Definition setBool (config : OSDict) (name : string) (f : bool -> ApplePS2Mouse -> ApplePS2Mouse) : C unit :=
  match getBoolean config name with
  | Some v => dset (f v) ;; tell (MouseSet (settingKey name) (MouseBoolean v))
  | None => ret tt
  end.
Definition setInt32 (config : OSDict) (name : string) (f : Z -> ApplePS2Mouse -> ApplePS2Mouse) : C unit :=
  match getNumber32 config name with
  | Some v => dset (f (s32 v)) ;; tell (MouseSet (settingKey name) (MouseNumber v))
  | None => ret tt
  end.

(** The members and their names, in the order they are read. *)
Definition boolvars : list (string * (bool -> ApplePS2Mouse -> ApplePS2Mouse)) :=
  [("ForceDefaultResolution"%string, fun v d => {| d with forceres := v |});
   ("ForceSetResolution"%string, fun v d => {| d with forcesetres := v |});
   ("FakeMiddleButton"%string, fun v d => {| d with _fakemiddlebutton := v |})].
Definition int32vars : list (string * (Z -> ApplePS2Mouse -> ApplePS2Mouse)) :=
  [("DefaultResolution"%string, fun v d => {| d with defres := v |});
   ("ResolutionMode"%string, fun v d => {| d with resmode := v |});
   ("ScrollResolution"%string, fun v d => {| d with scrollres := v |});
   ("MouseYInverter"%string, fun v d => {| d with mouseyinverter := v |});
   ("ScrollYInverter"%string, fun v d => {| d with scrollyinverter := v |});
   ("WakeDelay"%string, fun v d => {| d with wakedelay := v |});
   ("ButtonCount"%string, fun v d => {| d with _buttonCount := v |})].

Definition setParamPropertiesGated (config : option OSDict) : C unit :=
  match config with
  | None => ret tt
  | Some config =>
    setInt64 config "MiddleClickTime" (fun v d => {| d with _maxmiddleclicktime := v |}) ;;
    for_each boolvars (fun '(name, f) => setBool config name f) ;;
    for_each int32vars (fun '(name, f) => setInt32 config name f) ;;
    dset (fun d => {| d with defres := s32 (Z.shiftl (defres d) 16) |})
  end.

Definition setParamProperties (dict : option OSDict) : C unit :=
  gate ← dget _cmdGate; when gate (setParamPropertiesGated dict).

Definition setProperties (props : OSObject) : C unit :=
  gate ← dget _cmdGate;
  match asDictionary props with
  | Some dict => when gate (setParamPropertiesGated (Some dict))
  | None => ret tt
  end.

(** ** Requests *)

(** [_device->submitRequestAndBlock] *)
Definition request (l : list PS2Command) : C PS2Request := p ← dget drv_device; p ← deref p; requestDevice p l.

Definition compareAck : PS2Command := cmd kPS2C_ReadDataPortAndCompare kSC_Acknowledge.
Definition readPort : PS2Command := cmd kPS2C_ReadDataPort 0.

Definition setMouseEnable (enable : bool) : C unit :=
  request [cmd kPS2C_WriteDataPort (if enable then kDP_Enable else kDP_SetDefaultsAndDisable); compareAck] ;; ret tt.

Definition setMouseSampleRate (sampleRate : Z) : C unit :=
  request [cmd kPS2C_WriteDataPort kDP_SetMouseSampleRate; compareAck;
           cmd kPS2C_WriteDataPort sampleRate; compareAck] ;; ret tt.

Definition setMouseResolution (resolution : Z) : C unit :=
  request [cmd kPS2C_WriteDataPort kDP_SetMouseResolution; compareAck;
           cmd kPS2C_WriteDataPort resolution; compareAck] ;; ret tt.

Definition getMouseInformation : C Z :=
  r ← request [cmd kPS2C_WriteDataPort kDP_GetMouseInformation; compareAck; readPort; readPort; readPort];
  if completed r 5 then
    b2 ← commandResult r 2; b3 ← commandResult r 3; b4 ← commandResult r 4;
    ret (Z.lor (Z.lor (Z.shiftl b2 16) (Z.shiftl b3 8)) b4)
  else ret (u32 (-1)).

Definition getMouseID : C Z :=
  r ← request [cmd kPS2C_WriteDataPort kDP_GetId; compareAck; readPort];
  if completed r 3 then commandResult r 2 else ret (u8 (-1)).

Definition sampleRates (l : list Z) : C unit := for_each l setMouseSampleRate.

Definition setIntellimouseMode : C PS2MouseId :=
  sampleRates [200; 100; 80] ;;
  onController (bus_sleep 50) ;;
  b ← getMouseID;
  id ← (if bool_decide (mouseIdOf b = kMouseTypeIntellimouse) then
          sampleRates [200; 200; 80] ;;
          onController (bus_sleep 50) ;;
          b ← getMouseID;
          ret (if bool_decide (mouseIdOf b = kMouseTypeIntellimouseExplorer)
               then kMouseTypeIntellimouseExplorer else kMouseTypeIntellimouse)
        else ret (mouseIdOf b));
  info ← dget _mouseInfoBytes;
  setMouseSampleRate (Z.land info 0x0000FF) ;;
  ret id.

(** Dots per inch of the resolution the mouse reports. *)
Definition reportedResolution (info : Z) : Z :=
  let r := Z.land info 0x00FF00 in
  if r =? 0x0000 then 25 else if r =? 0x0100 then 50 else if r =? 0x0200 then 100
  else if r =? 0x0300 then 200 else 150.

Definition readResolution : C unit :=
  info ← dget _mouseInfoBytes;
  if info =? u32 (-1) then
    d ← dget (fun d => d);
    when (forcesetres d && negb (resmode d =? -1)) (setMouseResolution (u8 (resmode d))) ;;
    info ← getMouseInformation;
    dset (fun d => {| d with _mouseInfoBytes := info;
      _resolution := if forceres d then defres d else Z.shiftl (reportedResolution info) 16 |})
  else setMouseResolution (Z.land (Z.shiftr info 8) 3).

(** What follows the handshake. *)
Definition setType (id : PS2MouseId) : C unit :=
  dset (fun d => {| d with _type := id |}) ;;
  (if bool_decide (id = kMouseTypeStandard) then
     dset (fun d => {| d with _packetLength := kPacketLengthStandard |}) ;;
     tell (MouseRemove kIOHIDScrollResolutionKey) ;;
     tell (MouseRemove kIOHIDScrollAccelerationTypeKey)
   else
     dset (fun d => {| d with _packetLength := kPacketLengthIntellimouse;
       _buttonCount := if bool_decide (id = kMouseTypeIntellimouseExplorer) then 5 else 3 |}) ;;
     r ← dget scrollres;
     tell (MouseSet kIOHIDScrollResolutionKey (MouseNumber (u32 (Z.shiftl r 16)))) ;;
     tell (MouseSet kIOHIDScrollAccelerationTypeKey kIOHIDMouseAccelerationType)) ;;
  tell (MouseSet kIOHIDPointerAccelerationTypeKey kIOHIDMouseAccelerationType).

(** Three buttons of two, and an empty ring. *)
Definition resetPackets (d : ApplePS2Mouse) : ApplePS2Mouse :=
  {| d with
     _buttonCount := if (_buttonCount d =? 2) && _fakemiddlebutton d && bool_decide (is_Some (_buttonTimer d))
                     then 3 else _buttonCount d;
     _packetByteCount := 0; _ringBuffer := reset (_ringBuffer d) |}.

Definition resetMouse : C unit :=
  request [cmd kPS2C_WriteDataPort kDP_SetDefaults; cmd kPS2C_WriteDataPort kDP_GetMouseInformation;
           compareAck; readPort; readPort; readPort] ;;
  readResolution ;;
  id ← setIntellimouseMode;
  setType id ;;
  dset resetPackets ;;
  setMouseEnable true.

Definition initMouse : C unit := setMouseEnable false ;; resetMouse.

Definition setDevicePowerState (whatToDo : Z) : C unit :=
  if whatToDo =? kPS2C_DisableDevice then setMouseEnable false
  else when (whatToDo =? kPS2C_EnableDevice)
    (delay ← dget wakedelay; onController (bus_sleep delay) ;; resetMouse).

(** ** Life cycle *)

(** The information request of [probe], answered in full by a mouse. *)
Definition probeRequest (p : Z) : C bool :=
  r ← requestDevice p
    [cmd kPS2C_WriteDataPort kDP_GetMouseInformation; compareAck; readPort; readPort; readPort];
  ret (completed r 5).

(** [probe] on the nub of port [p]; [config] is what [makeConfigurationNode] finds,
    which holds the controller's lock while it looks. *)
Definition probe (p : Z) (config : option OSDict) : C bool :=
  onController bus_lock ;;
  onController bus_unlock ;;
  match config with
  | Some c =>
    if bool_decide (getBoolean c "DisableDevice" = Some true) then ret false
    else setParamPropertiesGated (Some c) ;; probeRequest p
  | None => probeRequest p
  end.

(** The second half of [start]; [timer]: the button timer can be made. *)
Definition startDevice (timer : bool) : C unit :=
  onController bus_lock ;;
  resetMouse ;;
  dset (fun d => {| d with _buttonTimer := if timer then Some None else None |}) ;;
  (onController bus_installInterrupt ;;
   dset (fun d => {| d with _interruptHandlerInstalled := true |})) ;;
  onController bus_unlock ;;
  onController bus_installPower ;;
  dset (fun d => {| d with _powerControlHandlerInstalled := true |}) ;;
  tell (MouseSet kDeliverNotifications (MouseBoolean true)).

(** [workLoop], [gate]: there is a work loop, a command gate can be made. *)
Definition start (p : Z) (workLoop gate timer : bool) : C bool :=
  dset (fun d => {| d with _device := Some p; _cmdGate := gate |}) ;;
  if negb workLoop || negb gate then dset (fun d => {| d with _device := None |}) ;; ret false
  else startDevice timer ;; ret true.

Definition stop (workLoop : bool) : C unit :=
  setMouseEnable false ;;
  when workLoop (dset (fun d => {| d with _cmdGate := false; _buttonTimer := None |})) ;;
  i ← dget drv_installed;
  when i (onController bus_uninstallInterrupt ;;
          dset (fun d => {| d with _interruptHandlerInstalled := false |})) ;;
  dset (fun d => {| d with _interruptHandlerInstalled := false |}) ;;
  q ← dget _powerControlHandlerInstalled;
  when q (onController bus_uninstallPower) ;;
  dset (fun d => {| d with _powerControlHandlerInstalled := false |}) ;;
  dset (fun d => {| d with _device := None |}).

End Driver.
