(* ===== verification/MouseSpec.v ===== *)
(** * What the mouse driver promises

    Its invariant, and every entry point against the interface of [Bus.v]: safety from
    [probe] to [stop]. *)
From S2P Require Import Prelude PS2Types RingBuffer RingSpec Controller ControllerLemmas TestBench Bus.
From S2P Require Import BusController DriverWorld OSTypes KeyboardBench RingLoop Mouse.

(** * Entry points *)

(** ** The invariant *)

#[local] Abbreviation mouse_aligned := (aligned MOUSE_RING kPacketLengthMax).

(** While the packet length changes a packet may be longer than it should. *)
Record mouse_loose (d : ApplePS2Mouse) : Prop := {
  mo_port : forall p, _device d = Some p -> 0 <= p < kPS2MuxMaxIdx;
  mo_ring : mouse_aligned (_ringBuffer d);
  mo_length : _packetLength d = kPacketLengthStandard \/ _packetLength d = kPacketLengthIntellimouse;
  mo_some : 0 <= _packetByteCount d < kPacketLengthMax }.

Record mouse_ok (d : ApplePS2Mouse) : Prop := {
  mo_loose : mouse_loose d;
  mo_bytes : _packetByteCount d < _packetLength d }.

Lemma newMouse_ok : mouse_ok newMouse.
Proof. split; [split|]; try done. by left. Qed.

Ltac mouse_fields :=
  let d := fresh "d" in let Hd := fresh "Hd" in
  intros d Hd; repeat match goal with
    | H : on_device _ _ _ |- _ => destruct H as [H ?]
    | H : has_ring _ _ _ |- _ => destruct H as [H ?]
    | H : mouse_ok _ |- _ => destruct H
    | H : mouse_loose _ |- _ => destruct H
    end; repeat (split; simpl; try done).

#[export] Instance mouse_ring_laws : PacketRingLaws ApplePS2Mouse.
Proof. by split. Qed.

#[export] Instance mouse_tells : Tells MouseEvent := fun _ => True.

(** ** The interrupt routine *)

Lemma putPacket_eq b0 b1 d : mouse_aligned (_ringBuffer d) ->
  exists rb, putPacket b0 b1 d = Some {| d with _ringBuffer := rb |} /\ mouse_aligned rb /\
    (pending MOUSE_RING kPacketLengthMax rb = pending MOUSE_RING kPacketLengthMax (_ringBuffer d) \/
     exists rest, pending MOUSE_RING kPacketLengthMax rb =
       pending MOUSE_RING kPacketLengthMax (_ringBuffer d) ++ [b0 :: b1 :: rest]).
Proof.
  intros Hr. unfold putPacket.
  destruct (head_set 0 b0 (_ringBuffer d)) as [r1|] eqn:E1;
    [|by rewrite (head_set_spec MOUSE_RING kPacketLengthMax ltac:(done) ltac:(done) ltac:(done) _ 0 b0 Hr ltac:(done)) in E1].
  destruct (head_set_aligned MOUSE_RING kPacketLengthMax _ _ _ _ Hr E1) as [H1 _]. cbn [mbind option_bind].
  destruct (head_set 1 b1 r1) as [r2|] eqn:E2;
    [|by rewrite (head_set_spec MOUSE_RING kPacketLengthMax ltac:(done) ltac:(done) ltac:(done) _ 1 b1 H1 ltac:(done)) in E2].
  destruct (head_set_aligned MOUSE_RING kPacketLengthMax _ _ _ _ H1 E2) as [H2 _]. cbn [mbind option_bind].
  pose proof (head_set_pending MOUSE_RING kPacketLengthMax ltac:(done) ltac:(done) ltac:(done) _ 0 _ _ Hr ltac:(done) E1) as Q1.
  pose proof (head_set_pending MOUSE_RING kPacketLengthMax ltac:(done) ltac:(done) ltac:(done) _ 1 _ _ H1 ltac:(done) E2) as Q2.
  pose proof (head_set_slot MOUSE_RING kPacketLengthMax ltac:(done) ltac:(done) ltac:(done) _ 0 _ _ Hr ltac:(done) E1) as S1.
  pose proof (head_set_slot MOUSE_RING kPacketLengthMax ltac:(done) ltac:(done) ltac:(done) _ 1 _ _ H1 ltac:(done) E2) as S2.
  eexists. split; [reflexivity|]. split; [by apply advanceHead_aligned|].
  rewrite advanceHead_pending by done. destruct (_ <? _); [right|by left; rewrite Q2, Q1].
  rewrite Q2, Q1, S2, S1.
  assert (Hlen : length (slot_at kPacketLengthMax (m_buffer (_ringBuffer d)) (m_head (_ringBuffer d))) = 4%nat).
  { apply (slot_length MOUSE_RING kPacketLengthMax); try done; apply Hr. }
  revert Hlen. generalize (slot_at kPacketLengthMax (m_buffer (_ringBuffer d)) (m_head (_ringBuffer d))).
  intros [|x [|y l]] Hlen; [done..|]. by exists l.
Qed.

(** The members an interrupt does not touch. *)
Definition mouse_frame (d : ApplePS2Mouse) : ApplePS2Mouse :=
  {| d with _packetByteCount := 0; _lastdata := 0; _mouseResetCount := 0; _ringBuffer := mkRing [] 0 0 |}.

Lemma mouse_interrupt_ok d data :
  mouse_ok d -> exists d' r, interruptOccurred data d = Ok (d', r) /\ mouse_ok d' /\ mouse_frame d' = mouse_frame d.
Proof.
  intros Hd. pose proof Hd as [[Hp Hr Hl Hs] Hb]. unfold interruptOccurred. cbv zeta.
  destruct (_ && _).
  { destruct (putPacket_eq 0x00 kSC_Reset d Hr) as (rb & -> & H1 & _). do 2 eexists. split; [done|].
    split; [|done]. split; [by split|]. simpl. by destruct Hl as [->| ->]. }
  cbn [_packetByteCount _mouseResetCount]. destruct (_ && _).
  { destruct (_ <? _).
    - match goal with |- context [putPacket _ _ ?d1] =>
        destruct (putPacket_eq 0x00 kSC_Acknowledge d1 Hr) as (rb & -> & H1 & _) end.
      do 2 eexists. split; [done|]. by split; [split; [split|]|].
    - do 2 eexists. split; [done|]. by split; [split; [split|]|]. }
  cbn [_ringBuffer].
  pose proof (head_set_spec MOUSE_RING kPacketLengthMax ltac:(done) ltac:(done) ltac:(done) _ _ (u8 data) Hr Hs) as E.
  rewrite E. destruct (head_set_aligned MOUSE_RING kPacketLengthMax _ _ _ _ Hr E) as [H1 _]. cbn [_packetLength].
  rewrite u32_small by (unfold kPacketLengthMax in *; lia).
  destruct (Z.eqb_spec (_packetByteCount d + 1) (_packetLength d)) as [_|Hne]; do 2 eexists; (split; [done|]);
    (split; [|done]).
  - split; [split|]; simpl; try done; [by apply advanceHead_aligned|]. by destruct Hl as [->| ->].
  - split; [split|]; simpl; try done; unfold kPacketLengthMax, kPacketLengthStandard, kPacketLengthIntellimouse in *;
      destruct Hl as [El|El]; rewrite El in *; lia.
Qed.

(** [t]: the button timer has been made, as it is after [start]; [o]: the nub. *)
Record mouse_inv (t : bool) (o : option Z) (d : ApplePS2Mouse) : Prop := {
  mi_ok : mouse_ok d;
  mi_device : _device d = o;
  mi_timer : t = true -> is_Some (_buttonTimer d) }.

#[export] Instance mouse_inv_keeps t o : KeepsInv (mouse_inv t o).
Proof.
  split; [intros d p [Hd _ _]; apply Hd|]. intros d data [Hd Ho Ht].
  destruct (mouse_interrupt_ok d data Hd) as (d' & r & E & Hd' & Ef). exists d', r.
  split; [done|]. split; [split; [done|by rewrite <- Ho; exact (f_equal _device Ef)|]|].
  - pose proof (f_equal _buttonTimer Ef) as Et. change (_buttonTimer d' = _buttonTimer d) in Et. by rewrite Et.
  - split; [exact (f_equal _device Ef)|exact (f_equal _interruptHandlerInstalled Ef)].
Qed.

Ltac mouse_inv_fields :=
  let d := fresh "d" in let Hd := fresh "Hd" in
  intros d Hd; repeat match goal with
    | H : has_ring _ _ _ |- _ => destruct H as [H ?]
    | H : mouse_inv _ _ _ |- _ => destruct H
    | H : mouse_ok _ |- _ => destruct H
    | H : mouse_loose _ |- _ => destruct H
    end; repeat (split; simpl; try done).

(** ** The entry points *)
Section Entries.
Context {B : Type} `{HB : PS2Bus B} `{HL : !PS2BusLaws B} (abs : Z -> Z).
#[local] Abbreviation W := (DrvWorld B ApplePS2Mouse MouseEvent).
#[local] Abbreviation C := (M W).
#[local] Abbreviation moves := (moves (B := B) (E := MouseEvent)).
#[local] Abbreviation ends := (ends (B := B) (E := MouseEvent)).

(** *** The driver alone *)

Section Alone.
Context (o : option Z).

(** What the work loop keeps: the invariant and the ring. *)
#[local] Abbreviation at_work rb := (has_ring (mouse_inv true o) rb).

Lemma ends_timer rb x : ends (at_work rb) (at_work rb)
  (dstep (fun d => _ ← _buttonTimer d; Some {| d with _buttonTimer := Some x |})).
Proof.
  apply ends_dstep. intros d Hd. destruct (mi_timer _ _ _ (proj1 Hd) eq_refl) as [y Ex]. rewrite Ex.
  eexists. split; [reflexivity|]. split; [|done]. revert d Hd Ex. mouse_inv_fields.
Qed.

Ltac at_work_step :=
  lazymatch goal with
  | |- DriverWorld.ends _ _ (dget _ ≫= _) => apply ends_dget_bind; intros ? ?; apply ends_weak
  | |- DriverWorld.ends ?I _ (_ ≫= _) => apply (ends_bind I I); [|intros ?]
  | |- DriverWorld.ends _ _ (dstep _) => apply ends_timer
  | |- DriverWorld.ends _ _ (tell _) => apply ends_tell; done
  | |- DriverWorld.ends _ _ (ret _) => apply ends_ret
  | |- DriverWorld.ends _ _ (gets _) => apply ends_gets
  | |- DriverWorld.ends _ _ (when _ _) => apply ends_when; intros _
  | |- DriverWorld.ends _ _ (dset _) => apply ends_dset; [mouse_inv_fields|done]
  | |- DriverWorld.ends _ _ (if ?b then _ else _) => destruct b
  end.

Lemma ends_holdBack rb b t s : ends (at_work rb) (at_work rb) (holdBack b t s).
Proof. unfold holdBack, setTimerTimeout, setState. repeat at_work_step. Qed.
Lemma ends_letGo rb s : ends (at_work rb) (at_work rb) (letGo s).
Proof. unfold letGo, cancelTimer, setState. repeat at_work_step. Qed.

Lemma ends_middleStep rb b t n from x : ends (at_work rb) (at_work rb) (middleStep b t n from x).
Proof.
  unfold middleStep, setState, dispatchRelativePointerEventX. apply ends_dget_bind. intros d Hd. apply ends_weak.
  destruct (_mbuttonstate d); repeat at_work_step;
    lazymatch goal with |- DriverWorld.ends _ _ (letGo _) => apply ends_letGo | _ => apply ends_holdBack end.
Qed.

Lemma ends_middleButton rb b t from : ends (at_work rb) (at_work rb) (middleButton abs b t from).
Proof.
  unfold middleButton. apply ends_dget_bind. intros d Hd. apply ends_weak. destruct (_ || _); [apply ends_ret|].
  apply (ends_bind _ (at_work rb)); [apply ends_middleStep|]. intros _. repeat at_work_step.
Qed.

Lemma ends_uptime rb : ends (at_work rb) (at_work rb) clock_get_uptime.
Proof. unfold clock_get_uptime. repeat at_work_step. Qed.

Lemma ends_onButtonTimer rb : ends (at_work rb) (at_work rb) (onButtonTimer abs).
Proof.
  unfold onButtonTimer. at_work_step; [apply ends_uptime|]. repeat at_work_step. apply ends_middleButton.
Qed.

Lemma decodeMouse_total type size packet : length packet = 4%nat -> exists r, decodeMouse type size packet = Some r.
Proof.
  intros Hl. destruct packet as [|a [|b [|c [|e []]]]]; try done. unfold decodeMouse. cbn. destruct (_ <? _); eauto.
Qed.

Lemma ends_handlePacket_mouse rb packet : length packet = Z.to_nat kPacketLengthMax ->
  ends (at_work rb) (at_work rb) (handlePacket abs packet).
Proof.
  intros Hl. unfold handlePacket. destruct (arr_get_Some packet 0) as (p0 & E & _); [rewrite Hl; done|].
  eapply ends_deref_bind; [exact E|]. at_work_step. at_work_step.
  unfold dispatchRelativePointerEventWithPacket. apply ends_dget_bind. intros d1 _. apply ends_weak.
  destruct (decodeMouse_total (_type d1) (_packetLength d) packet Hl) as (r & Er).
  eapply ends_deref_bind; [exact Er|]. unfold dispatchRelativePointerEventX, dispatchScrollWheelEventX.
  at_work_step; [apply ends_uptime|]. at_work_step; [apply ends_middleButton|]. repeat at_work_step.
Qed.

Lemma ends_packetReady_mouse : ends (mouse_inv true o) (mouse_inv true o) (packetReady abs).
Proof.
  apply (ends_drainRing _ _ kPacketLengthMax); [done..|intros d Hd; apply Hd| |intros; by apply ends_handlePacket_mouse].
  apply (dropFirst_inv _ kPacketLengthMax); [done..|intros d Hd; apply Hd|].
  intros d rb Hd Hr. revert d Hd. mouse_inv_fields.
Qed.

(** The work loop ends, and is a pass over the waiting packets. *)
Lemma packetReady_pass (w : W) : mouse_inv true o (self w) ->
  total (packetReady abs) (fun _ w' =>
    for_each (waitingPackets (self w)) (handleFirst (handlePacket abs)) w = Ok (w', tt) /\
    waitingPackets (self w') = [] /\ mouse_inv true o (self w') /\ host w' = host w) w.
Proof.
  apply (drainRing_spec _ _ kPacketLengthMax); [done..|intros d Hd; apply Hd| |intros; by apply ends_handlePacket_mouse].
  apply (dropFirst_inv _ kPacketLengthMax); [done..|intros d Hd; apply Hd|].
  intros d rb Hd Hr. revert d Hd. mouse_inv_fields.
Qed.

(** *** Settings *)

Lemma ends_setting {X} t (x : option X) f key v :
  (forall x, ends (mouse_inv t o) (mouse_inv t o) (dset (f x))) ->
  ends (mouse_inv t o) (mouse_inv t o)
    match x with Some x => dset (f x) ;; tell (MouseSet key (v x)) | None => ret tt end.
Proof.
  intros Hf. destruct x; [|apply ends_ret]. apply (ends_bind _ (mouse_inv t o)); [apply Hf|intros _; by apply ends_tell].
Qed.

Lemma ends_settings {X} t (l : list X) (g : X -> C unit) :
  Forall (fun x => ends (mouse_inv t o) (mouse_inv t o) (g x)) l -> ends (mouse_inv t o) (mouse_inv t o) (for_each l g).
Proof.
  induction 1 as [|x l Hx _ IH]; [apply ends_ret|]. cbn [for_each].
  apply (ends_bind _ (mouse_inv t o)); [exact Hx|intros _; exact IH].
Qed.

Lemma ends_setParamPropertiesGated t c : ends (mouse_inv t o) (mouse_inv t o) (setParamPropertiesGated c).
Proof.
  destruct c as [c|]; [|apply ends_ret]. unfold setParamPropertiesGated.
  apply (ends_bind _ (mouse_inv t o)); [apply ends_setting; intros x; apply ends_dset; [mouse_inv_fields|done]|]. intros _.
  apply (ends_bind _ (mouse_inv t o)).
  { apply ends_settings. repeat (apply Forall_cons_2; [apply ends_setting; intros x; apply ends_dset; [mouse_inv_fields|done]|]).
    by apply Forall_nil. }
  intros _. apply (ends_bind _ (mouse_inv t o)); [|intros _; apply ends_dset; [mouse_inv_fields|done]].
  apply ends_settings. repeat (apply Forall_cons_2; [apply ends_setting; intros x; apply ends_dset; [mouse_inv_fields|done]|]).
  by apply Forall_nil.
Qed.

End Alone.

(** *** Requests *)
Section AtDevice.
Context (t : bool) (p : Z) (Hp : 0 <= p < kPS2MuxMaxIdx).
#[local] Abbreviation at_mouse := (mouse_inv t (Some p)).
#[local] Abbreviation steady m := (forall l, moves at_mouse l at_mouse l m).

Lemma moves_mouse_request {X} cs l J l' (k : PS2Request -> C X) :
  Z.of_nat (length cs) < 256 -> (forall r, answered cs r -> moves at_mouse l J l' (k r)) ->
  moves at_mouse l J l' (request cs ≫= k).
Proof.
  intros Hc Hk w Hw.
  assert (E : (request cs ≫= k) w = (requestDevice p cs ≫= k) w).
  { unfold request. rewrite bind_assoc, (bind_ok _ _ w w (Some p)).
    - by rewrite bind_assoc, (bind_ok _ _ w w p).
    - unfold dget, gets. cbn [drv_device mouse_driver]. by rewrite (mi_device _ _ _ (gd_self _ _ _ Hw)). }
  unfold wp. rewrite E. revert w Hw E. intros w Hw _. revert w Hw.
  by apply moves_request; [exact _|..].
Qed.

Ltac mouse_step :=
  lazymatch goal with
  | |- DriverWorld.moves _ _ _ _ (request _ ≫= _) => apply moves_mouse_request; [simpl; lia|intros ? ?]
  | |- DriverWorld.moves _ _ _ _ (dset _) => apply moves_dset; [mouse_inv_fields|done]
  | |- DriverWorld.moves ?I ?l _ _ (dget _ ≫= _) => apply moves_dget_bind; intros ? ?; apply moves_weak
  | |- DriverWorld.moves ?I ?l _ _ (commandResult _ _ ≫= _) => eapply moves_result; [eassumption|simpl; lia|intros ?]
  | |- DriverWorld.moves ?I ?l _ _ (_ ≫= _) => apply (drv_moves_bind I l I l); [|intros ?]
  | _ => moves_step
  end.

Lemma steady_setMouseEnable b : steady (setMouseEnable b).
Proof. intros l. unfold setMouseEnable. repeat mouse_step. Qed.
Lemma steady_setMouseSampleRate r : steady (setMouseSampleRate r).
Proof. intros l. unfold setMouseSampleRate. repeat mouse_step. Qed.
Lemma steady_setMouseResolution r : steady (setMouseResolution r).
Proof. intros l. unfold setMouseResolution. repeat mouse_step. Qed.
Lemma steady_getMouseInformation : steady getMouseInformation.
Proof. intros l. unfold getMouseInformation. repeat mouse_step. Qed.

Lemma steady_getMouseID : steady getMouseID.
Proof.
  intros l. unfold getMouseID. apply moves_mouse_request; [simpl; lia|]. intros r Ha. destruct (completed _ _); [|mouse_step].
  intros w Hw. apply wp_bind, wp_deref. apply (f_equal length) in Ha. rewrite !length_map in Ha. simpl in Ha.
  destruct (arr_get_Some (commands r) 2) as (c & E & _); [lia|]. exists c. by split; [|apply wp_ret].
Qed.

Lemma steady_sampleRates r : steady (sampleRates r).
Proof.
  intros l. unfold sampleRates. induction r as [|x r IH]; [apply moves_ret|]. cbn [for_each].
  mouse_step; [apply steady_setMouseSampleRate|exact IH].
Qed.

Lemma steady_setIntellimouseMode : steady setIntellimouseMode.
Proof.
  intros l. unfold setIntellimouseMode.
  mouse_step; [apply steady_sampleRates|]. mouse_step; [mouse_step|].
  mouse_step; [apply steady_getMouseID|]. mouse_step.
  - destruct (bool_decide _); [|mouse_step]. mouse_step; [apply steady_sampleRates|]. mouse_step; [mouse_step|].
    mouse_step; [apply steady_getMouseID|]. mouse_step.
  - mouse_step. mouse_step; [apply steady_setMouseSampleRate|]. mouse_step.
Qed.

Lemma steady_readResolution : steady readResolution.
Proof.
  intros l. unfold readResolution. mouse_step. mouse_step; [|apply steady_setMouseResolution].
  mouse_step. mouse_step; [mouse_step; apply steady_setMouseResolution|].
  mouse_step; [apply steady_getMouseInformation|]. mouse_step.
Qed.

(** Between the new packet length and the empty ring. *)
Definition loose_at (d : ApplePS2Mouse) : Prop :=
  mouse_loose d /\ (t = true -> is_Some (_buttonTimer d)) /\ _device d = Some p.

Lemma moves_setType l id : moves at_mouse l loose_at l (setType id).
Proof.
  unfold setType. mouse_step; [mouse_step|].
  apply (drv_moves_bind _ _ loose_at l); [|intros _; by apply moves_tell].
  destruct (bool_decide (id = kMouseTypeStandard)); (apply (drv_moves_bind _ _ loose_at l); [apply moves_dset; [|done]|intros _]).
  - intros d [[[] _] ? ?]. split; [split|]; try done. by left.
  - apply (drv_moves_bind _ _ loose_at l); [|intros _]; by apply moves_tell.
  - intros d [[[] _] ? ?]. split; [split|]; try done. by right.
  - apply moves_dget_bind. intros d _. apply moves_weak.
    apply (drv_moves_bind _ _ loose_at l); [|intros _]; by apply moves_tell.
Qed.

Lemma moves_resetPackets l : moves loose_at l at_mouse l (dset resetPackets).
Proof.
  apply moves_dset; [|done]. intros d ([Hd Hr Hl Hb] & Ht & Ho). split; [|exact Ho|exact Ht].
  split; [split|]; try done.
  - apply aligned_reset; [done|done|]. apply Hr.
  - cbn [resetPackets _packetByteCount _packetLength]. by destruct Hl as [->| ->].
Qed.

Lemma steady_resetMouse : steady resetMouse.
Proof.
  intros l. unfold resetMouse. mouse_step. mouse_step; [apply steady_readResolution|].
  mouse_step; [apply steady_setIntellimouseMode|].
  apply (drv_moves_bind _ _ loose_at l); [apply moves_setType|intros _].
  apply (drv_moves_bind _ _ at_mouse l); [apply moves_resetPackets|intros _]. apply steady_setMouseEnable.
Qed.

Lemma steady_mouse_power what : steady (setDevicePowerState what).
Proof.
  intros l. unfold setDevicePowerState. mouse_step; [apply steady_setMouseEnable|]. mouse_step. mouse_step.
  mouse_step; [mouse_step|apply steady_resetMouse].
Qed.

Lemma steady_mouse_settings c : steady (setParamPropertiesGated c).
Proof. intros l. apply moves_ends, ends_setParamPropertiesGated. Qed.

End AtDevice.

End Entries.

(** * Promises *)

(** ** Safety *)

(** What may happen between [start] and [stop], with the arguments that matter. *)
Inductive MouseOp :=
| MouseByte (data : Z)
| MousePackets
| MouseTimer
| MousePower (whatToDo : Z)
| MouseParams (dict : option OSDict)
| MouseProps (props : OSObject)
| MouseTime (t : Z).

Section Life.
Context {B : Type} `{HB : PS2Bus B} (abs : Z -> Z).
#[local] Abbreviation W := (DrvWorld B ApplePS2Mouse MouseEvent).
#[local] Abbreviation C := (M W).

Definition run_mouse (o : MouseOp) : C unit :=
  match o with
  | MouseByte data => interrupted data ;; ret tt
  | MousePackets => packetReady abs
  | MouseTimer => buttonTimerFires abs
  | MousePower what => setDevicePowerState what
  | MouseParams d => setParamProperties d
  | MouseProps props => setProperties props
  | MouseTime t => modify (fun w => {| w with now := t |})
  end.

(** The life of a driver object on port [p]; [gate]: the command gate can be made;
    [loop]: there is still a work loop at the end. *)
Definition mouse_life (p : Z) (config : option OSDict) (gate : bool) (ops : list MouseOp) (loop : bool)
  : C unit :=
  found ← probe p config;
  when found
    (started ← start p true gate true;
     when started (for_each ops run_mouse ;; stop loop)).

End Life.

Section Safe.
Context {B : Type} `{HB : PS2Bus B} `{HL : !PS2BusLaws B} (abs : Z -> Z).
#[local] Abbreviation W := (DrvWorld B ApplePS2Mouse MouseEvent).
#[local] Abbreviation C := (M W).
#[local] Abbreviation moves := (moves (B := B) (E := MouseEvent)).
Context (p : Z) (Hp : 0 <= p < kPS2MuxMaxIdx).

Lemma moves_buttonTimerFires :
  moves (mouse_inv true (Some p)) false (mouse_inv true (Some p)) false (buttonTimerFires abs).
Proof.
  unfold buttonTimerFires. apply moves_dget_bind. intros d Hd. apply moves_weak.
  destruct (_buttonTimer d) as [[x|]|]; try apply moves_ret.
  apply (drv_moves_bind _ _ (mouse_inv true (Some p)) false).
  { apply moves_dset; [|done]. clear d Hd. mouse_inv_fields. }
  intros _. apply moves_ends. intros w Hw.
  destruct (ends_onButtonTimer abs (Some p) (_ringBuffer (self w)) w (conj Hw eq_refl)) as (w' & x' & E & [[Hw' _] Hr]).
  by exists w', x'.
Qed.

Lemma moves_run_mouse o :
  moves (mouse_inv true (Some p)) false (mouse_inv true (Some p)) false (run_mouse abs o).
Proof.
  destruct o as [data| | |what|d|props|t]; cbn [run_mouse].
  - apply (drv_moves_bind _ _ (mouse_inv true (Some p)) false); [|intros _; apply moves_ret].
    intros w [H1 H2 H3 H4 H5]. unfold wp, interrupted.
    destruct (inv_interrupt (self w) data H1) as (d' & r & E & Hd' & _ & Ei). rewrite E.
    split; try done. cbn [self]. by rewrite Ei.
  - apply moves_ends, ends_packetReady_mouse.
  - apply moves_buttonTimerFires.
  - by apply steady_mouse_power.
  - unfold setParamProperties. apply moves_dget_bind. intros d0 _. apply moves_weak, drv_moves_when. intros _.
    by apply steady_mouse_settings.
  - unfold setProperties. apply moves_dget_bind. intros d0 _. apply moves_weak.
    destruct (asDictionary props); [|apply moves_ret]. apply drv_moves_when. intros _. by apply steady_mouse_settings.
  - intros w []. by split.
Qed.

(** *** Life cycle *)

Lemma moves_probeRequest o : moves (mouse_inv false o) false (mouse_inv false o) false (probeRequest p).
Proof.
  unfold probeRequest. apply moves_request; [exact _|done|simpl; lia|]. intros r _. apply moves_ret.
Qed.

Lemma moves_mouse_probe o config : moves (mouse_inv false o) false (mouse_inv false o) false (probe p config).
Proof.
  unfold probe. apply (drv_moves_bind _ _ (mouse_inv false o) true); [apply moves_lock; exact _|intros _].
  apply (drv_moves_bind _ _ (mouse_inv false o) false); [apply moves_unlock; exact _|intros _].
  destruct config as [c|]; [|apply moves_probeRequest]. destruct (bool_decide _); [apply moves_ret|].
  apply (drv_moves_bind _ _ (mouse_inv false o) false); [|intros _; apply moves_probeRequest].
  apply moves_ends, ends_setParamPropertiesGated.
Qed.

Lemma moves_gone t o l f : (forall d, f d = {| d with _device := None |}) ->
  moves (mouse_inv t o) l (mouse_inv t None) l (dset f).
Proof.
  intros Hf. apply moves_dset; [|intros d; by rewrite Hf]. intros d [[[] ?] ? ?]. rewrite Hf. by split; [split; [split|]|..].
Qed.

Lemma moves_startDevice :
  moves (mouse_inv false (Some p)) false (mouse_inv true (Some p)) false (startDevice true).
Proof.
  unfold startDevice.
  apply (drv_moves_bind _ _ (mouse_inv false (Some p)) true); [apply moves_lock; exact _|intros _].
  apply (drv_moves_bind _ _ (mouse_inv false (Some p)) true); [by apply steady_resetMouse|intros _].
  apply (drv_moves_bind _ _ (mouse_inv true (Some p)) true).
  { apply moves_dset; [|done]. intros d [[[] ?] ? ?]. by split; [split; [split|]|..]. }
  intros _. apply (drv_moves_bind _ _ (mouse_inv true (Some p)) true).
  { apply (moves_install (mouse_inv true (Some p))). mouse_inv_fields. }
  intros _. apply (drv_moves_bind _ _ (mouse_inv true (Some p)) false); [apply moves_unlock; exact _|intros _].
  apply (drv_moves_bind _ _ (mouse_inv true (Some p)) false); [apply moves_steady; [exact _|apply law_installPower]|intros _].
  apply (drv_moves_bind _ _ (mouse_inv true (Some p)) false); [apply moves_dset; [mouse_inv_fields|done]|intros _].
  by apply moves_tell.
Qed.

(** A start that fails leaves no nub behind. *)
Lemma start_mouse_ok gate (w : W) : good (mouse_inv false None) false w ->
  wp (start p true gate true) (fun ok w' =>
    if ok : bool then good (mouse_inv true (Some p)) false w' else good (mouse_inv false None) false w') w.
Proof.
  intros [[[[] ?] ? ?] ? ? ? ?]. apply wp_bind, wp_modify. destruct gate; cbn [negb orb]; apply wp_bind.
  - eapply wp_mono; [apply moves_startDevice|by intros ? ? ?]. split; try done.
    split; [split; [split|]|..]; try done. by intros q [= <-].
  - apply wp_modify. by split; [split; [split; [split|]|..]|..].
Qed.

Lemma moves_mouse_stop loop : moves (mouse_inv true (Some p)) false (mouse_inv false None) false (stop loop).
Proof.
  unfold stop. apply (drv_moves_bind _ _ (mouse_inv true (Some p)) false); [by apply steady_setMouseEnable|intros _].
  apply (drv_moves_bind _ _ (mouse_inv false (Some p)) false).
  { destruct loop; [apply moves_dset; [|done]|eapply moves_mono; [done| |apply moves_ret]];
      intros d [[[] ?] ? ?]; by split; [split; [split|]|..]. }
  intros _ w Hw. apply wp_bind, wp_gets, wp_bind.
  eapply (wp_mono _ (fun _ w' => good (mouse_inv false (Some p)) false w')).
  { apply wp_when; [|done]. intros E.
    apply (moves_uninstall (mouse_inv false (Some p)) (mouse_inv false (Some p)) false); [mouse_inv_fields|done|exact Hw|exact E]. }
  intros _ w' Hw'. revert w' Hw'. clear w Hw.
  match goal with |- forall w', good ?I ?l w' -> wp ?m _ w' =>
    change (moves I l (mouse_inv false None) false m) end.
  apply (drv_moves_bind _ _ (mouse_inv false (Some p)) false).
  { intros w [H1 H2 H3 H4 H5]. split; try done. cbn [self]. revert H1. generalize (self w). mouse_inv_fields. }
  intros _. apply moves_dget_bind. intros d _. apply moves_weak.
  apply (drv_moves_bind _ _ (mouse_inv false (Some p)) false).
  { apply drv_moves_when. intros _. apply moves_steady; [exact _|apply law_uninstallPower]. }
  intros _. apply (drv_moves_bind _ _ (mouse_inv false (Some p)) false); [apply moves_dset; [mouse_inv_fields|done]|].
  intros _. by apply (moves_gone false (Some p)).
Qed.


End Safe.

(** ** A life on the bench *)

Definition mouse_bench : DrvWorld BenchHost ApplePS2Mouse MouseEvent :=
  mkDrvWorld newMouse (mkBenchHost false false false) 5 [].

(** A configuration that simulates the middle button; a motion with the left button
    down, the timer, the button up again; sleep and wake. *)
Definition mouse_config : OSDict := [("FakeMiddleButton"%string, OSBoolean true); ("DefaultResolution"%string, OSNumber 240)].
Definition mouse_ops : list MouseOp :=
  [MouseByte 0x09; MouseByte 5; MouseByte 3; MousePackets; MouseTime 7; MouseTimer;
   MouseByte 0x08; MouseByte 0; MouseByte 0; MousePackets; MouseParams (Some []);
   MousePower kPS2C_DisableDevice; MousePower kPS2C_EnableDevice; MouseByte 0x00].

Definition pointers (l : list MouseEvent) : list (Z * Z * Z) :=
  omap (fun e => match e with MousePointer dx dy b _ => Some (dx, dy, b) | _ => None end) l.

