(* ===== verification/MouseReports.v ===== *)
(** * From the mouse's bytes to the HID system

    What a mouse sends for a report, the way of such bytes through the interrupt
    routine, the ring and the work loop, and what the driver makes of a motion whose
    bytes look like the announcement of a reset. *)
From S2P Require Import Prelude PS2Types RingBuffer RingSpec Bus KeyboardBench.
From S2P Require Import DriverWorld RingLoop OSTypes Motion Mouse MouseSpec.

(** ** Encoding *)

(** A report a mouse of this type and packet size can send; the driver counts upwards
    motion positive. *)
Record report_ok (type : PS2MouseId) (size : Z) (r : MouseReport) : Prop := {
  ro_buttons : 0 <= rp_buttons r < (if (3 <? size) && bool_decide (type = kMouseTypeIntellimouseExplorer) then 32 else 8);
  ro_dx : -256 <= rp_dx r < 256;
  ro_dy : -256 < rp_dy r <= 256;
  ro_dz : if 3 <? size then -8 <= rp_dz r < 8 else rp_dz r = 0 }.

Definition encodeMouse (size : Z) (r : MouseReport) : list Z :=
  [rp_buttons r mod 8 + 8 + 16 * sign (rp_dx r) + 32 * sign (- rp_dy r);
   rp_dx r mod 256; (- rp_dy r) mod 256] ++
  (if 3 <? size then [rp_dz r mod 16 + 16 * (rp_buttons r / 8)] else []).

Lemma length_encodeMouse r size : size = 3 \/ size = 4 -> Z.of_nat (length (encodeMouse size r)) = size.
Proof. by intros [-> | ->]. Qed.

Definition byte3_check (b z : Z) : bool :=
  let p3 := z mod 16 + 16 * (b / 8) in
  (s16 (Z.shiftr (s8 (Z.shiftl p3 4)) 4) =? z) && (Z.lor (b mod 8) (Z.shiftr (Z.land p3 0x30) 1) =? b) &&
  (0 <=? p3) && (p3 <? 256).

Lemma byte3_decode b z : 0 <= b < 32 -> -8 <= z < 8 ->
  let p3 := z mod 16 + 16 * (b / 8) in
  s16 (Z.shiftr (s8 (Z.shiftl p3 4)) 4) = z /\ Z.lor (b mod 8) (Z.shiftr (Z.land p3 0x30) 1) = b /\ is_byte p3.
Proof.
  intros Hb Hz.
  assert (H : forallb (fun b => forallb (byte3_check b) (seqZ (-8) 16)) (seqZ 0 32) = true) by (vm_compute; reflexivity).
  pose proof (seqZ_all _ 0 32 b H ltac:(lia)) as H1. cbv beta in H1.
  pose proof (seqZ_all _ (-8) 16 z H1 ltac:(lia)) as H2. unfold byte3_check in H2. cbv zeta in H2.
  rewrite !andb_true_iff in H2. destruct H2 as [[[A%Z.eqb_eq C%Z.eqb_eq] D%Z.leb_le] E%Z.ltb_lt]. cbv zeta.
  unfold is_byte. split_and!; [done|done|lia|lia].
Qed.

Lemma decodeMouse_bytes type size p0 p1 p2 p3 rest :
  decodeMouse type size (p0 :: p1 :: p2 :: p3 :: rest) =
  Some (if 3 <? size then
    mkReport (if bool_decide (type = kMouseTypeIntellimouseExplorer)
              then Z.lor (Z.land p0 0x7) (Z.shiftr (Z.land p3 0x30) 1) else Z.land p0 0x7)
      (s32 (motion (nz (Z.land p0 0x10)) p1)) (s32 (u32 (- motion (nz (Z.land p0 0x20)) p2)))
      (s16 (Z.shiftr (s8 (Z.shiftl p3 4)) 4))
  else mkReport (Z.land p0 0x7) (s32 (motion (nz (Z.land p0 0x10)) p1))
         (s32 (u32 (- motion (nz (Z.land p0 0x20)) p2))) 0).
Proof. unfold decodeMouse, arr_get. simpl. by destruct (3 <? size). Qed.

(** Whatever follows in its slot, an encoded report decodes to itself. *)
Lemma decodeMouse_encode type size r x rest :
  size = 3 \/ size = 4 -> report_ok type size r ->
  decodeMouse type size (take 4 (encodeMouse size r ++ x :: rest)) = Some r.
Proof.
  intros Hs [Hb Hx Hy Hz]. destruct r as [b dx dy z]. cbn [rp_buttons rp_dx rp_dy rp_dz] in *.
  assert (Hb32 : 0 <= b < 32) by (destruct (_ && _); lia).
  destruct (byte0_decode b dx (- dy) Hb32) as (E1 & E2 & E3 & _).
  destruct Hs as [-> | ->]; unfold encodeMouse; cbn [rp_buttons rp_dx rp_dy rp_dz app firstn];
    change (3 <? 3) with false; change (3 <? 4) with true; cbn [app firstn];
    rewrite decodeMouse_bytes, E1, E2, E3, motion_decode, motion_decode_neg, Z.opp_involutive by lia.
  - change (3 <? 3) with false in *. cbn [andb] in *. by rewrite Z.mod_small, Hz by lia.
  - change (3 <? 4) with true in *. cbn [andb] in *. destruct (byte3_decode b z Hb32 Hz) as (-> & Eb & _). rewrite Eb.
    destruct (bool_decide _); [done|]. by rewrite Z.mod_small by lia.
Qed.

(** ** The interrupt routine *)

#[local] Abbreviation mouse_slot d := (slot_at kPacketLengthMax (m_buffer (_ringBuffer d)) (m_head (_ringBuffer d))).

(** The bytes [l] of a packet have arrived. *)
Record collecting (l : list Z) (d : ApplePS2Mouse) : Prop := {
  co_ok : mouse_ok d;
  co_count : _packetByteCount d = Z.of_nat (length l);
  co_bytes : take (length l) (mouse_slot d) = l }.

(** A full ring drops the next packet. *)
Definition mouseEnqueue (q : list (list Z)) (p : list Z) : list (list Z) :=
  if Z.of_nat (length q) + 1 <? MOUSE_RING / kPacketLengthMax then q ++ [p] else q.

(** The waiting packets, without the padding. *)
Definition mouseWaiting (d : ApplePS2Mouse) : list (list Z) :=
  map (take (Z.to_nat (_packetLength d))) (waitingPackets d).

(** The byte [b] is no reset after [d]'s last one, and may start a packet if none has. *)
Definition ordinary (d : ApplePS2Mouse) (b : Z) : Prop :=
  is_byte b /\ ~ (_lastdata d = kSC_Reset /\ b = 0) /\
  (_packetByteCount d = 0 -> b <> kSC_Acknowledge /\ nz (Z.land b 0x08) = true).

Lemma mouse_store l b d :
  collecting l d -> ordinary d b ->
  let rb := {| (_ringBuffer d) with m_buffer :=
    <[Z.to_nat (m_head (_ringBuffer d) + Z.of_nat (length l)) := b]> (m_buffer (_ringBuffer d)) |} in
  interruptOccurred b d =
    (if Z.of_nat (length l) + 1 =? _packetLength d
     then Ok ({| d with _lastdata := b; _mouseResetCount := 0; _packetByteCount := 0;
                _ringBuffer := advanceHead MOUSE_RING kPacketLengthMax rb |}, kPS2IR_packetReady)
     else Ok ({| d with _lastdata := b; _ringBuffer := rb; _packetByteCount := Z.of_nat (length l) + 1 |},
              kPS2IR_packetBuffering)) /\
  aligned MOUSE_RING kPacketLengthMax rb /\
  pending MOUSE_RING kPacketLengthMax rb = waitingPackets d /\
  take (S (length l)) (slot_at kPacketLengthMax (m_buffer rb) (m_head rb)) = l ++ [b].
Proof.
  intros [[[Hp Hr Hl Hs] Hb] Hc Ht] (Hbyte & Hreset & Hfirst). cbv zeta.
  rewrite Hc in Hs, Hb. pose proof (head_set_spec MOUSE_RING kPacketLengthMax ltac:(done) ltac:(done) ltac:(done) _ _ b Hr Hs) as E.
  set (rb := {| (_ringBuffer d) with m_buffer := _ |}) in *. split; [|split; [|split]].
  - unfold interruptOccurred. cbv zeta. rewrite (u8_small b) by exact Hbyte.
    destruct (_ && _) eqn:E1.
    { apply andb_true_iff in E1 as [H1%Z.eqb_eq H2%Z.eqb_eq]. by destruct Hreset. }
    cbn [_packetByteCount _ringBuffer _packetLength _mouseResetCount].
    destruct ((_packetByteCount d =? 0) && _) eqn:E2.
    { apply andb_true_iff in E2 as [H1%Z.eqb_eq H2]. destruct (Hfirst H1) as [H3 H4]. rewrite H4 in H2.
      apply orb_true_iff in H2 as [H2%Z.eqb_eq|H2]; done. }
    rewrite Hc, E, u32_small by (unfold kPacketLengthMax in *; lia). by destruct (_ =? _).
  - by eapply head_set_aligned.
  - by eapply (head_set_pending MOUSE_RING kPacketLengthMax); [done..|exact Hr|exact Hs|].
  - rewrite (head_set_slot MOUSE_RING kPacketLengthMax ltac:(done) ltac:(done) ltac:(done) _ _ _ _ Hr Hs E), Nat2Z.id.
    assert (Hlen : length (mouse_slot d) = 4%nat).
    { apply (slot_length MOUSE_RING kPacketLengthMax); try done; apply Hr. }
    rewrite (take_S_r _ _ b).
    + by rewrite take_insert_ge, Ht by lia.
    + apply list_lookup_insert_eq. unfold kPacketLengthMax in Hs. lia.
Qed.

(** The members that a stream of packets does not touch. *)
Definition same_mouse (d d' : ApplePS2Mouse) : Prop := mouse_frame d' = mouse_frame d.

(** A byte inside a packet. *)
Lemma mouse_byte l b d : collecting l d -> ordinary d b -> Z.of_nat (length l) + 1 < _packetLength d ->
  exists d' r, interruptOccurred b d = Ok (d', r) /\ collecting (l ++ [b]) d' /\ same_mouse d d' /\
    _lastdata d' = b /\ waitingPackets d' = waitingPackets d.
Proof.
  intros Hl Hb Hlt. destruct (mouse_store l b d Hl Hb) as (E & Ha & Hq & Ht). rewrite E.
  destruct (Z.eqb_spec (Z.of_nat (length l) + 1) (_packetLength d)); [lia|].
  do 2 eexists. split; [reflexivity|]. split; [|done]. destruct Hl as [[[Hp Hr Hk Hs] Hc] Hn Hs'].
  split; cbn [_packetByteCount _ringBuffer]; rewrite ?length_app.
  - split; [split|]; cbn [_device _ringBuffer _packetLength _packetByteCount]; try done;
      unfold kPacketLengthMax, kPacketLengthStandard, kPacketLengthIntellimouse in *; lia.
  - simpl. lia.
  - replace (length l + length [b])%nat with (S (length l)) by (simpl; lia). exact Ht.
Qed.

(** The last byte. *)
Lemma mouse_commit l b d : collecting l d -> ordinary d b -> Z.of_nat (length l) + 1 = _packetLength d ->
  exists d' r, interruptOccurred b d = Ok (d', r) /\ collecting [] d' /\ same_mouse d d' /\
    _lastdata d' = b /\ mouseWaiting d' = mouseEnqueue (mouseWaiting d) (l ++ [b]).
Proof.
  intros Hl Hb Hlt. destruct (mouse_store l b d Hl Hb) as (E & Ha & Hq & Ht). rewrite E.
  destruct (Z.eqb_spec (Z.of_nat (length l) + 1) (_packetLength d)); [|lia].
  do 2 eexists. split; [reflexivity|]. destruct Hl as [[[Hp Hr Hk Hs] Hc] Hn Hs'].
  split; [|split; [done|split; [done|]]].
  - split; cbn [_packetByteCount _ringBuffer]; [|done|done]. split; [split|]; cbn; try done; [by apply advanceHead_aligned|].
    by destruct Hk as [->| ->].
  - unfold mouseWaiting, mouseEnqueue, waitingPackets. cbn [ringOf ringSize ringPacket mouse_ring _ringBuffer _packetLength].
    rewrite advanceHead_pending by done. rewrite (count_packets MOUSE_RING kPacketLengthMax) by done.
    rewrite Hq, length_map. change (waitingPackets d) with (pending MOUSE_RING kPacketLengthMax (_ringBuffer d)).
    set (q := pending MOUSE_RING kPacketLengthMax (_ringBuffer d)).
    change (MOUSE_RING / kPacketLengthMax) with 32. change MOUSE_RING with 128. change kPacketLengthMax with 4 at 1 2.
    destruct (Z.ltb_spec (4 * Z.of_nat (length q) + 4) 128), (Z.ltb_spec (Z.of_nat (length q) + 1) 32); try lia; [|done].
    rewrite map_app. cbn [map]. do 2 f_equal. rewrite <- e, Z2Nat.inj_add, Nat2Z.id by lia.
    change (Z.to_nat 1) with 1%nat. by rewrite Nat.add_1_r.
Qed.


Fixpoint no_reset (last : Z) (l : list Z) : Prop :=
  match l with
  | [] => True
  | b :: l' => ~ (last = kSC_Reset /\ b = 0) /\ no_reset b l'
  end.

Definition interrupts (l : list Z) : M ApplePS2Mouse unit := for_each l (fun b => interruptOccurred b ;; ret tt).

(** The bytes [l] that complete a packet begun with [l0]. *)
Lemma mouse_rest l : forall l0 d, collecting l0 d -> l0 <> [] -> l <> [] -> Forall is_byte l ->
  no_reset (_lastdata d) l -> Z.of_nat (length l0 + length l) = _packetLength d ->
  exists d', interrupts l d = Ok (d', tt) /\ collecting [] d' /\ same_mouse d d' /\
    _lastdata d' = List.last l 0 /\ mouseWaiting d' = mouseEnqueue (mouseWaiting d) (l0 ++ l).
Proof.
  induction l as [|b l IH]; intros l0 d Hc H0 Hne Hl Hn Hlen; [done|].
  apply Forall_cons_1 in Hl as [Hb Hl]. destruct Hn as [Hr Hn]. simpl in Hlen.
  assert (Ho : ordinary d b).
  { split; [done|]. split; [done|]. rewrite (co_count _ _ Hc). destruct l0; [done|simpl; lia]. }
  unfold interrupts. cbn [for_each]. destruct l as [|b' l].
  - destruct (mouse_commit l0 b d Hc Ho) as (d' & r & E & H1 & H2 & H3 & H4); [simpl in Hlen; lia|].
    exists d'. by rewrite bind_assoc, (bind_ok _ _ _ _ _ E).
  - destruct (mouse_byte l0 b d Hc Ho) as (d1 & r & E & H1 & H2 & H3 & H4); [simpl in Hlen; lia|].
    rewrite bind_assoc, (bind_ok _ _ _ _ _ E).
    assert (Ek : _packetLength d1 = _packetLength d) by exact (f_equal _packetLength H2).
    destruct (IH (l0 ++ [b]) d1 H1) as (d' & E' & A1 & A2 & A3 & A4).
    { by destruct l0. } { done. } { done. } { by rewrite H3. }
    { rewrite length_app, Ek. simpl in *. lia. }
    exists d'. split; [exact E'|]. split; [done|]. split; [unfold same_mouse in *; congruence|]. split; [done|].
    rewrite A4, <- app_assoc. f_equal. unfold mouseWaiting. by rewrite Ek, H4.
Qed.

(** The bytes of a report. *)
Definition report_plain (d : ApplePS2Mouse) (r : MouseReport) : Prop := report_ok (_type d) (_packetLength d) r.

Lemma encode_bytes type size r : size = 3 \/ size = 4 -> report_ok type size r ->
  Forall is_byte (encodeMouse size r) /\
  exists p0 l, encodeMouse size r = p0 :: l /\ l <> [] /\ 0 < p0 < 64 /\ nz (Z.land p0 0x08) = true.
Proof.
  intros Hs [Hb Hx Hy Hz]. destruct r as [b dx dy z]. cbn [rp_buttons rp_dx rp_dy rp_dz] in *.
  assert (Hb32 : 0 <= b < 32) by (destruct (_ && _); lia).
  destruct (byte0_decode b dx (- dy) Hb32) as (_ & _ & _ & E & Hr).
  assert (Hm : forall x, is_byte (x mod 256)) by (intros x; apply Z.mod_pos_bound; lia).
  assert (Hp : 0 < b mod 8 + 8 + 16 * sign dx + 32 * sign (- dy) < 64).
  { pose proof (Z.mod_pos_bound b 8 ltac:(lia)). unfold sign in *. destruct (_ <? _), (_ <? _); lia. }
  unfold encodeMouse. cbn [rp_buttons rp_dx rp_dy rp_dz app]. split.
  - destruct Hs as [-> | ->]; repeat (apply Forall_cons_2; [first [apply Hm|unfold is_byte; lia]|]); [apply Forall_nil_2|].
    change (3 <? 4) with true in *. cbn [andb] in *. apply Forall_cons_2; [|apply Forall_nil_2]. by apply byte3_decode.
  - by do 2 eexists.
Qed.

Lemma mouse_report r d : collecting [] d -> report_plain d r ->
  no_reset (_lastdata d) (encodeMouse (_packetLength d) r) ->
  exists d', interrupts (encodeMouse (_packetLength d) r) d = Ok (d', tt) /\ collecting [] d' /\ same_mouse d d' /\
    _lastdata d' = List.last (encodeMouse (_packetLength d) r) 0 /\
    mouseWaiting d' = mouseEnqueue (mouseWaiting d) (encodeMouse (_packetLength d) r).
Proof.
  intros Hc Hr Hn. pose proof (mo_length _ (mo_loose _ (co_ok _ _ Hc))) as Hk.
  pose proof (length_encodeMouse r _ Hk) as Hlen. destruct (encode_bytes _ _ _ Hk Hr) as (Hb & p0 & l & E & Hl & Hp & Hbit).
  rewrite E in *. apply Forall_cons_1 in Hb as [Hb0 Hb]. destruct Hn as [Hn0 Hn].
  assert (Ho : ordinary d p0).
  { split; [done|]. split; [done|]. intros _. split; [|done]. unfold kSC_Acknowledge. lia. }
  destruct (mouse_byte [] p0 d Hc Ho) as (d1 & r1 & E1 & H1 & H2 & H3 & H4).
  { unfold kPacketLengthStandard, kPacketLengthIntellimouse in *. simpl. lia. }
  assert (Ek : _packetLength d1 = _packetLength d) by exact (f_equal _packetLength H2).
  destruct (mouse_rest l [p0] d1 H1) as (d' & E' & A1 & A2 & A3 & A4); [done..|by rewrite H3|simpl in *; lia|].
  exists d'. unfold interrupts in *. cbn [for_each]. rewrite bind_assoc, (bind_ok _ _ _ _ _ E1). split; [exact E'|].
  split; [done|]. split; [unfold same_mouse in *; congruence|]. split; [by destruct l|].
  rewrite A4. f_equal. unfold mouseWaiting. by rewrite Ek, H4.
Qed.

Fixpoint reportBytes (size : Z) (rs : list MouseReport) : list Z :=
  match rs with [] => [] | r :: rs' => encodeMouse size r ++ reportBytes size rs' end.

Lemma last_default (x d1 d2 : Z) l : List.last (x :: l) d1 = List.last (x :: l) d2.
Proof. revert x. induction l as [|y l IH]; intros x; [done|]. exact (IH y). Qed.

Lemma no_reset_app last l1 l2 : no_reset last (l1 ++ l2) -> no_reset last l1 /\ no_reset (List.last l1 last) l2.
Proof.
  revert last. induction l1 as [|b l1 IH]; intros last; [done|]. simpl. intros [H1 H2]. destruct (IH _ H2) as [H3 H4].
  split; [done|]. destruct l1 as [|c l1]; [done|]. by rewrite (last_default c last b).
Qed.

Lemma interrupts_then l1 l2 d d' : interrupts l1 d = Ok (d', tt) -> interrupts (l1 ++ l2) d = interrupts l2 d'.
Proof.
  unfold interrupts. revert d. induction l1 as [|b l1 IH]; intros d; simpl; [by intros [= ->]|].
  unfold mbind, M_bind, bind. destruct (interruptOccurred b d) as [[d1 r]| |]; [|done..]. cbn. apply IH.
Qed.

(** A stream of reports. *)
Lemma mouse_stream rs d : collecting [] d -> Forall (report_plain d) rs ->
  no_reset (_lastdata d) (reportBytes (_packetLength d) rs) ->
  exists d', interrupts (reportBytes (_packetLength d) rs) d = Ok (d', tt) /\ collecting [] d' /\ same_mouse d d' /\
    mouseWaiting d' = fold_left mouseEnqueue (map (encodeMouse (_packetLength d)) rs) (mouseWaiting d).
Proof.
  revert d. induction rs as [|r rs IH]; intros d Hc Hr Hn.
  { exists d. by split_and!. }
  apply Forall_cons_1 in Hr as [Hr Hrs]. cbn [reportBytes] in *. apply no_reset_app in Hn as [Hn1 Hn2].
  destruct (mouse_report r d Hc Hr Hn1) as (d1 & E1 & H1 & H2 & H3 & H4).
  assert (Ek : _packetLength d1 = _packetLength d) by exact (f_equal _packetLength H2).
  assert (Et : _type d1 = _type d) by exact (f_equal _type H2).
  destruct (IH d1 H1) as (d' & E' & A1 & A2 & A3).
  { eapply Forall_impl; [exact Hrs|]. intros r'. unfold report_plain. by rewrite Ek, Et. }
  { rewrite Ek, H3. destruct (encodeMouse (_packetLength d) r) as [|b l] eqn:E; [done|].
    by rewrite (last_default b 0 (_lastdata d)). }
  exists d'. rewrite (interrupts_then _ _ _ _ E1), <- Ek. split; [done|]. split; [done|].
  split; [unfold same_mouse in *; congruence|]. cbn [map fold_left]. by rewrite A3, H4, Ek.
Qed.

(** ** The work loop *)

Section Work.
Context {B : Type} `{HB : PS2Bus B} (abs : Z -> Z).
#[local] Abbreviation W := (DrvWorld B ApplePS2Mouse MouseEvent).

(** What the HID system gets for a report when no middle button is simulated. *)
Definition reportEvents (d : ApplePS2Mouse) (t : Z) (r : MouseReport) : list MouseEvent :=
  MousePointer (rp_dx r) (s32 (mouseyinverter d * rp_dy r)) (rp_buttons r) t ::
  (if nz (rp_dz r) then [MouseScroll (s16 (s32 (s32 (- scrollyinverter d) * rp_dz r))) t] else []).

Definition plainButtons (d : ApplePS2Mouse) : bool := negb (_fakemiddlebutton d) || (_buttonCount d <=? 2).

Lemma plain_middleButton b t from (w : W) : plainButtons (self w) = true -> middleButton abs b t from w = Ok (w, b).
Proof. intros H. unfold middleButton, dget, gets, mbind, M_bind, bind. unfold plainButtons in H. by rewrite H. Qed.

Lemma handlePacket_events packet r (w : W) :
  plainButtons (self w) = true -> decodeMouse (_type (self w)) (_packetLength (self w)) packet = Some r ->
  (exists p0, arr_get packet 0 = Some p0 /\ p0 <> 0) ->
  handlePacket abs packet w =
  Ok ({| w with self := {| (self w) with lastbuttons := rp_buttons r |};
         told := told w ++ reportEvents (self w) (u64 (now w)) r |}, tt).
Proof.
  intros Hp Hd (p0 & E0 & Hne). unfold handlePacket. rewrite E0, (bind_ok _ _ w w p0) by done.
  destruct (Z.eqb_spec 0 p0); [by subst|]. cbn [negb when].
  rewrite (bind_ok _ _ w w (_packetLength (self w))) by done. unfold dispatchRelativePointerEventWithPacket.
  rewrite (bind_ok _ _ w w (_type (self w))) by done. rewrite Hd, (bind_ok _ _ w w r) by done.
  rewrite (bind_ok _ _ w w (u64 (now w))) by done. rewrite (bind_ok _ _ w w (rp_buttons r)) by (by apply plain_middleButton).
  unfold reportEvents. destruct (nz (rp_dz r)); [|done].
  match goal with |- _ = Ok ({| told := _ ++ [?e1; ?e2] |}, tt) =>
    replace (told w ++ [e1; e2]) with ((told w ++ [e1]) ++ [e2]) by (by rewrite <- app_assoc) end. done.
Qed.

(** Reports that wait, and what is left of them. *)
Lemma reports_handled (pks : list (list Z)) rs (w : W) :
  plainButtons (self w) = true ->
  Forall2 (fun packet r => decodeMouse (_type (self w)) (_packetLength (self w)) packet = Some r /\
    exists p0, arr_get packet 0 = Some p0 /\ p0 <> 0) pks rs ->
  exists w', for_each pks (handleFirst (handlePacket abs)) w = Ok (w', tt) /\
    told w' = told w ++ concat (map (reportEvents (self w) (u64 (now w))) rs).
Proof.
  intros Hp Hf. revert rs w Hp Hf. induction pks as [|packet pks IH]; intros rs w Hp Hf.
  { apply Forall2_nil_inv_l in Hf as ->. exists w. by rewrite app_nil_r. }
  apply Forall2_cons_inv_l in Hf as (r & rs' & [Hd H0] & Hf & ->). cbn [for_each].
  pose proof (handlePacket_events packet r w Hp Hd H0) as E1.
  match type of E1 with _ = Ok (?w2, tt) => set (w1 := w2) in * end.
  rewrite (bind_ok (handleFirst (handlePacket abs) packet) _ w {| w1 with self := dropFirst (self w1) |} tt);
    [|unfold handleFirst; by rewrite (bind_ok _ _ _ _ _ E1)].
  set (w2 := {| w1 with self := dropFirst (self w1) |}).
  destruct (IH rs' w2) as (w' & E & Et); [exact Hp|exact Hf|].
  exists w'. split; [exact E|]. rewrite Et. cbn [map concat]. change (told w2) with (told w1). subst w1. cbn [told]. by rewrite <- app_assoc.
Qed.
End Work.

Lemma decodeMouse_slot type size r packet :
  size = 3 \/ size = 4 -> report_ok type size r -> length packet = 4%nat ->
  take (Z.to_nat size) packet = encodeMouse size r ->
  decodeMouse type size packet = Some r /\ exists p0, arr_get packet 0 = Some p0 /\ p0 <> 0.
Proof.
  intros Hs Hr Hl He. split.
  - destruct packet as [|a [|b [|c [|e []]]]]; try done.
    destruct Hs as [-> | ->]; [rewrite <- (decodeMouse_encode type 3 r e [] (or_introl eq_refl) Hr)
      |rewrite <- (decodeMouse_encode type 4 r e [] (or_intror eq_refl) Hr)]; by rewrite <- He.
  - destruct (encode_bytes type size r Hs Hr) as (_ & p0 & l & E & _ & Hp & _). rewrite E in He.
    destruct packet as [|a packet]; [done|]. exists a. split; [done|].
    destruct Hs as [-> | ->]; injection He as -> _; lia.
Qed.

Lemma enqueue_fits q l : Z.of_nat (length q + length l) < 32 -> fold_left mouseEnqueue l q = q ++ l.
Proof.
  revert q. induction l as [|p l IH]; intros q Hl; simpl in *; [by rewrite app_nil_r|].
  assert (E : mouseEnqueue q p = q ++ [p]).
  { unfold mouseEnqueue. change (MOUSE_RING / kPacketLengthMax) with 32. destruct (Z.ltb_spec (Z.of_nat (length q) + 1) 32); [done|lia]. }
  rewrite E, IH by (rewrite length_app; simpl; lia). by rewrite <- app_assoc.
Qed.

Section Reports.
Context {B : Type} `{HB : PS2Bus B} (abs : Z -> Z) (o : option Z).
#[local] Abbreviation W := (DrvWorld B ApplePS2Mouse MouseEvent).


End Reports.

(** ** On the bench *)

Definition mouse_started : ApplePS2Mouse :=
  {| newMouse with _device := Some 1; _buttonTimer := Some None; _packetLength := 4;
     _type := kMouseTypeIntellimouseExplorer; mouseyinverter := -1 |}.

Lemma mouse_started_ok : mouse_inv true (Some 1) mouse_started.
Proof. split; [|done|by eexists]. split; [split|]; try done; [by intros p [= <-]|by right]. Qed.

Definition started_world : DrvWorld BenchHost ApplePS2Mouse MouseEvent :=
  mkDrvWorld mouse_started (mkBenchHost false true false) 5 [].

Definition some_reports : list MouseReport := [mkReport 17 (-256) 3 (-1); mkReport 0 170 (-5) 0].

Lemma some_reports_ok : Forall (report_ok kMouseTypeIntellimouseExplorer 4) some_reports.
Proof. repeat (apply Forall_cons_2; [split; simpl; lia|]). by apply Forall_nil. Qed.

Lemma some_reports_plain : no_reset 0 (reportBytes 4 some_reports).
Proof. vm_compute. repeat split; by intros [? ?]. Qed.

