(* ===== verification/MouseButtons.v ===== *)
(** * The simulated middle button, and what goes wrong

    With two buttons, pressing both is a middle click: a single button that goes down
    is held back until the other one follows, it is let go, or its time is up.  Here
    is what the HID system sees of clicks and chords, of a button that is held, of a
    motion that looks like a reset, and of a resolution that is set twice. *)
From S2P Require Import Prelude PS2Types RingBuffer RingSpec Bus KeyboardBench.
From S2P Require Import DriverWorld RingLoop OSTypes Motion Mouse MouseSpec MouseReports.

(** ** One call of [middleButton] *)

Section Buttons.
Context {B : Type} `{HB : PS2Bus B} (abs : Z -> Z).
#[local] Abbreviation W := (DrvWorld B ApplePS2Mouse MouseEvent).
#[local] Abbreviation C := (M W).

(** The simulation is on, and the driver's members for it. *)
Record simulates (s : mbuttonstate) (pending start : Z) (armed : option Z) (d : ApplePS2Mouse) : Prop := {
  sm_fake : _fakemiddlebutton d = true;
  sm_count : 2 < _buttonCount d;
  sm_state : _mbuttonstate d = s;
  sm_pending : _pendingbuttons d = pending;
  sm_start : _buttontime d = start;
  sm_timer : _buttonTimer d = Some armed }.

Definition idle := simulates STATE_NOBUTTONS 0.
Definition single (b : Z) : Prop := b = 1 \/ b = 2.

(** The members after a call. *)
Definition moved (s : mbuttonstate) (pending start : Z) (armed : option Z) (d : ApplePS2Mouse) : ApplePS2Mouse :=
  {| d with _mbuttonstate := s; _pendingbuttons := pending; _buttontime := start; _buttonTimer := Some armed |}.

Lemma moved_simulates s p t a s' p' t' a' d : simulates s p t a d -> simulates s' p' t' a' (moved s' p' t' a' d).
Proof. intros []. by split. Qed.

Lemma middleButton_eq s p t a b now_abs from (w : W) : simulates s p t a (self w) ->
  middleButton abs b now_abs from w =
  (middleStep b now_abs (toNanoseconds abs now_abs) from
     (bool_decide (from = fromTimer) ||
      (_maxmiddleclicktime (self w) <? u64 (toNanoseconds abs now_abs - t))) ;;
   s ← dget _mbuttonstate; ret (shownButtons s b)) w.
Proof.
  intros [Hf Hc _ _ Ht _]. unfold middleButton. rewrite (bind_ok (dget _) _ w w (self w)) by done.
  rewrite Hf, Ht. cbn [negb orb]. by destruct (Z.leb_spec (_buttonCount (self w)) 2); [lia|].
Qed.

(** A single button goes down: it is held back. *)
Lemma press_held t a b now_abs (w : W) : simulates STATE_NOBUTTONS 0 t a (self w) -> single b ->
  middleButton abs b now_abs fromMouse w =
  Ok ({| w with self := moved STATE_WAIT4TWO b (toNanoseconds abs now_abs)
                          (Some (_maxmiddleclicktime (self w))) (self w) |}, 0).
Proof.
  intros Hs Hb. rewrite (middleButton_eq _ _ _ _ _ _ _ _ Hs). destruct Hs as [_ _ Hs _ _ Ha].
  destruct w as [d h tm l], d; cbn in *; subst. destruct Hb as [-> | ->]; done.
Qed.

(** It is let go: the click is shown. *)
Lemma release_shown b t a now_abs (w : W) : simulates STATE_WAIT4TWO b t a (self w) -> single b ->
  middleButton abs 0 now_abs fromMouse w =
  Ok ({| w with self := moved STATE_NOBUTTONS 0 t None (self w);
                told := told w ++ [MousePointer 0 0 b now_abs] |}, 0).
Proof.
  intros Hs Hb. rewrite (middleButton_eq _ _ _ _ _ _ _ _ Hs). destruct Hs as [_ _ Hs Hp Ht Ha].
  destruct w as [d h tm l], d; cbn in *; subst. destruct Hb as [-> | ->]; by destruct (_ <? _).
Qed.

(** The other one follows in time: a middle button. *)
Lemma chord_shown b t a now_abs (w : W) : simulates STATE_WAIT4TWO b t a (self w) -> single b ->
  u64 (toNanoseconds abs now_abs - t) <= _maxmiddleclicktime (self w) ->
  middleButton abs 3 now_abs fromMouse w =
  Ok ({| w with self := moved STATE_MIDDLE 0 t None (self w) |}, 4).
Proof.
  intros Hs Hb Hle. rewrite (middleButton_eq _ _ _ _ _ _ _ _ Hs).
  destruct (Z.ltb_spec (_maxmiddleclicktime (self w)) (u64 (toNanoseconds abs now_abs - t))); [lia|].
  destruct Hs as [_ _ Hs Hp Ht Ha]. destruct w as [d h tm l], d; cbn in *; subst. by destruct Hb as [-> | ->].
Qed.

(** Both are let go. *)
Lemma middle_released t a now_abs (w : W) : simulates STATE_MIDDLE 0 t a (self w) ->
  middleButton abs 0 now_abs fromMouse w = Ok ({| w with self := moved STATE_NOBUTTONS 0 t a (self w) |}, 0).
Proof.
  intros Hs. rewrite (middleButton_eq _ _ _ _ _ _ _ _ Hs). destruct Hs as [_ _ Hs Hp Ht Ha].
  destruct w as [d h tm l], d; cbn in *; subst. done.
Qed.

(** Its time is up: the button is shown, and forgotten. *)
Lemma timer_shows b t x (w : W) : simulates STATE_WAIT4TWO b t (Some x) (self w) -> single b ->
  lastbuttons (self w) = 0 ->
  buttonTimerFires abs w =
  Ok ({| w with self := moved STATE_NOBUTTONS 0 t None (self w);
                told := told w ++ [MousePointer 0 0 b (u64 (now w))] |}, tt).
Proof.
  intros [Hf Hc Hs Hp Ht Ha] Hb Hl. unfold buttonTimerFires.
  rewrite (bind_ok (dget _) _ w w (Some (Some x))) by (unfold dget, gets; by rewrite Ha).
  set (w1 := {| w with self := {| (self w) with _buttonTimer := Some None |} |}).
  rewrite (bind_ok (dset _) _ w w1 tt) by done. unfold onButtonTimer.
  rewrite (bind_ok _ _ w1 w1 (u64 (now w))) by done. rewrite (bind_ok (dget _) _ w1 w1 0).
  2:{ unfold dget, gets. cbn [self w1 lastbuttons]. by rewrite Hl. }
  assert (Hs1 : simulates STATE_WAIT4TWO b t None (self w1)) by by split.
  rewrite (bind_ok _ _ w1 {| w with self := moved STATE_NOBUTTONS 0 t None (self w);
    told := told w ++ [MousePointer 0 0 b (u64 (now w))] |} 0); [done|].
  rewrite (middleButton_eq _ _ _ _ _ _ _ _ Hs1).
  subst w1. clear Hs1. destruct w as [d h tm l], d; cbn in *; subst. by destruct Hb as [-> | ->].
Qed.

(** ** Packets *)

(** A packet of three bytes. *)
Definition sendReport (r : MouseReport) : C unit :=
  dispatchRelativePointerEventWithPacket abs (take 4 (encodeMouse 3 r ++ [0])) 3.

(** The world after [b] has been shown with the motion of [r]. *)
Definition shown (b : Z) (r : MouseReport) (w : W) : W :=
  {| w with self := {| (self w) with lastbuttons := b |};
            told := told w ++ [MousePointer (rp_dx r) (s32 (mouseyinverter (self w) * rp_dy r)) b (u64 (now w))] |}.

Lemma sendReport_eq r b (w w1 : W) : report_ok (_type (self w)) 3 r ->
  middleButton abs (rp_buttons r) (u64 (now w)) fromMouse w = Ok (w1, b) -> now w1 = now w ->
  sendReport r w = Ok (shown b r w1, tt).
Proof.
  intros Hr E En. unfold sendReport, dispatchRelativePointerEventWithPacket.
  rewrite (bind_ok (dget _) _ w w (_type (self w))) by done.
  rewrite (decodeMouse_encode _ 3 r 0 [] (or_introl eq_refl) Hr), (bind_ok _ _ w w r) by done.
  rewrite (bind_ok _ _ w w (u64 (now w))) by done. rewrite (bind_ok _ _ _ _ _ E).
  pose proof (ro_dz _ _ _ Hr) as Hz. change (3 <? 3) with false in Hz. cbn iota in Hz. rewrite Hz.
  rewrite <- En. done.
Qed.

Lemma shown_simulates s p t a b r (w : W) : simulates s p t a (self w) -> simulates s p t a (self (shown b r w)).
Proof. intros []. by split. Qed.

(** The clock stands at [t] when the report arrives. *)
Definition at_time (t : Z) (r : MouseReport) : C unit := modify (fun w => {| w with now := t |}) ;; sendReport r.

Definition seen (d : ApplePS2Mouse) (r : MouseReport) (b t : Z) : MouseEvent :=
  MousePointer (rp_dx r) (s32 (mouseyinverter d * rp_dy r)) b (u64 t).


(** A button that is held is not kept down.  The timer shows a button that was held
    back, but works from the buttons last shown, among which it is not, and so forgets
    that it is down: the next motion with the button still down lets it go and holds
    it back anew. *)
Theorem held_button_flickers b t0 t1 t2 r0 r2 start a (w : W) :
  idle start a (self w) -> single b -> rp_buttons r0 = b -> rp_buttons r2 = b ->
  report_ok (_type (self w)) 3 r0 -> report_ok (_type (self w)) 3 r2 ->
  total (at_time t0 r0 ;; (modify (fun w => {| w with now := t1 |}) ;; buttonTimerFires abs) ;; at_time t2 r2)
    (fun _ w' => told w' = told w ++ [seen (self w) r0 0 t0; MousePointer 0 0 b (u64 t1); seen (self w) r2 0 t2] /\
      _mbuttonstate (self w') = STATE_WAIT4TWO) w.
Proof.
  intros Hi Hb E0 Eb Hr0 Hr2.
  set (w0 := {| w with now := t0 |}). set (w1 := shown 0 r0 {| w0 with self := moved STATE_WAIT4TWO b
    (toNanoseconds abs (u64 t0)) (Some (_maxmiddleclicktime (self w))) (self w) |}).
  assert (E1 : at_time t0 r0 w = Ok (w1, tt)).
  { unfold at_time. rewrite (bind_ok _ _ w w0 tt) by done. apply sendReport_eq; [done| |done].
    rewrite E0. by apply (press_held start a b (u64 t0) w0). }
  assert (H1 : simulates STATE_WAIT4TWO b (toNanoseconds abs (u64 t0)) (Some (_maxmiddleclicktime (self w))) (self w1)).
  { apply shown_simulates. cbn [self]. by apply (moved_simulates STATE_NOBUTTONS 0 start a). }
  set (w1' := {| w1 with now := t1 |}).
  pose proof (timer_shows b _ _ w1' H1 Hb eq_refl) as E2.
  match type of E2 with _ = Ok (?x, _) => set (w2 := x) in * end.
  assert (H2 : simulates STATE_NOBUTTONS 0 (toNanoseconds abs (u64 t0)) None (self w2)).
  { by apply (moved_simulates _ _ _ _ _ _ _ _ _ H1). }
  eexists _, tt. rewrite (bind_ok _ _ _ _ _ E1). erewrite bind_ok.
  2:{ rewrite (bind_ok _ _ w1 w1' tt) by done. exact E2. }
  split.
  { unfold at_time. rewrite (bind_ok _ _ w2 {| w2 with now := t2 |} tt) by done.
    apply sendReport_eq; [done|rewrite Eb; by apply (press_held _ _ b (u64 t2) {| w2 with now := t2 |} H2)|done]. }
  split; [|done]. cbn -[u64 s32 Z.mul]. by rewrite <- !app_assoc.
Qed.

End Buttons.

(** ** Findings *)

Section Findings.
Context {B : Type} `{HB : PS2Bus B} (abs : Z -> Z).
#[local] Abbreviation W := (DrvWorld B ApplePS2Mouse MouseEvent).
#[local] Abbreviation C := (M W).

(** A motion of 170 counts to the right and none up or down is lost.  Its bytes AA 00
    are taken for the announcement of a reset: the packet is replaced by a mark that
    the work loop passes over, and no reset follows. *)
Theorem motion_taken_for_reset o p0 (w : W) :
  mouse_inv true o (self w) -> _packetByteCount (self w) = 0 -> waitingPackets (self w) = [] ->
  ordinary (self w) p0 -> p0 <> kSC_Reset ->
  total (for_each [p0; 0xAA; 0x00] (fun b => interrupted b ;; ret tt) ;; packetReady abs)
    (fun _ w' => told w' = told w /\ host w' = host w /\ waitingPackets (self w') = [] /\
      _packetByteCount (self w') = 0) w.
Proof.
  intros Hd Hc Hq Ho Hne.
  assert (Hcol : collecting [] (self w)) by (split; [apply Hd|done|done]).
  pose proof (mo_length _ (mo_loose _ (mi_ok _ _ _ Hd))) as Hk.
  assert (Hk2 : 3 <= _packetLength (self w)) by (unfold kPacketLengthStandard, kPacketLengthIntellimouse in Hk; lia).
  destruct (mouse_byte [] p0 (self w) Hcol Ho ltac:(simpl; lia)) as (d1 & r1 & E1 & H1 & Hs1 & Hl1 & Hq1).
  assert (Ek1 : _packetLength d1 = _packetLength (self w)) by exact (f_equal _packetLength Hs1).
  assert (Ho1 : ordinary d1 0xAA).
  { split; [done|]. split; [by intros [_ ?]|]. by rewrite (co_count _ _ H1). }
  destruct (mouse_byte [p0] 0xAA d1 H1 Ho1 ltac:(simpl; lia)) as (d2 & r2 & E2 & H2 & Hs2 & Hl2 & Hq2).
  destruct (putPacket_eq 0x00 kSC_Reset d2 (mo_ring _ (mo_loose _ (co_ok _ _ H2)))) as (rb & E3 & Ha & Hp).
  set (d3 := {| d2 with _ringBuffer := rb; _packetByteCount := 0 |}).
  assert (Er : interruptOccurred 0x00 d2 = Ok (d3, kPS2IR_packetReady)).
  { unfold interruptOccurred. change (u8 0x00) with 0. rewrite Hl2. change ((0xAA =? kSC_Reset) && (0 =? 0x00)) with true.
    cbv iota zeta. by rewrite E3. }
  assert (Hi : interrupts [p0; 0xAA; 0x00] (self w) = Ok (d3, tt)).
  { unfold interrupts. cbn [for_each]. rewrite bind_assoc, (bind_ok _ _ _ _ _ E1).
    rewrite (bind_ok (ret tt) _ d1 d1 tt) by done. rewrite bind_assoc, (bind_ok _ _ _ _ _ E2).
    rewrite (bind_ok (ret tt) _ d2 d2 tt) by done. by rewrite bind_assoc, (bind_ok _ _ _ _ _ Er). }
  apply total_bind. eexists _, tt. split; [by apply interrupted_each|]. set (w1 := {| w with self := d3 |}).
  assert (Hs3 : mouse_frame d3 = mouse_frame (self w)) by (transitivity (mouse_frame d2); [done|unfold same_mouse in *; congruence]).
  assert (Hd3 : mouse_inv true o (self w1)).
  { destruct (mouse_interrupt_ok d2 0x00 (co_ok _ _ H2)) as (d' & r & E & Hok & _). rewrite Er in E. injection E as <- <-.
    split; [exact Hok|by rewrite <- (mi_device _ _ _ Hd); exact (f_equal _device Hs3)|].
    intros _. pose proof (f_equal _buttonTimer Hs3) as Et. change (_buttonTimer d3 = _buttonTimer (self w)) in Et.
    cbn [self w1]. rewrite Et. by apply (mi_timer _ _ _ Hd). }
  destruct (packetReady_pass abs o w1 Hd3) as (w3 & [] & Ew & Ef & Hw3 & _ & Hh).
  exists w3, tt. split; [exact Ew|].
  assert (Hwait : waitingPackets (self w1) = [] \/ exists rest, waitingPackets (self w1) = [0x00 :: kSC_Reset :: rest]).
  { unfold waitingPackets in *. cbn [ringOf ringSize ringPacket mouse_ring self w1 _ringBuffer d3] in *.
    rewrite Hq2, Hq1, Hq in Hp. exact Hp. }
  destruct Hwait as [Hnil|[rest Hone]].
  - rewrite Hnil in Ef. injection Ef as <-. by split_and!.
  - rewrite Hone in Ef. cbn in Ef. injection Ef as <-. by split_and!.
Qed.

(** A setting that is not the default resolution leaves it alone. *)
Definition keeps_defres (m : C unit) : Prop := forall w, total m (fun _ w' => defres (self w') = defres (self w)) w.

Lemma keeps_defres_bind (m k : C unit) : keeps_defres m -> keeps_defres k -> keeps_defres (m ;; k).
Proof.
  intros Hm Hk w. apply total_bind. eapply total_mono; [by apply Hm|]. cbn beta. intros _ w1 E.
  eapply total_mono; [by apply Hk|]. cbn beta. intros _ w2 ->. exact E.
Qed.

Lemma keeps_defres_setting {X} (x : option X) f key v : (forall x d, defres (f x d) = defres d) ->
  keeps_defres match x with Some y => dset (f y) ;; tell (MouseSet key (v y)) | None => ret tt end.
Proof. intros Hf w. destruct x as [y|]; do 2 eexists; (split; [reflexivity|]); [apply Hf|done]. Qed.

Lemma keeps_defres_all {X} (l : list X) (g : X -> C unit) : Forall (fun x => keeps_defres (g x)) l -> keeps_defres (for_each l g).
Proof. induction 1 as [|x l Hx _ IH]; [intros w; by do 2 eexists|by apply keeps_defres_bind]. Qed.

(** A configuration without a default resolution loses the default one.  The settings'
    last step turns the default resolution into fixed point even when it was not set,
    and [init]'s value is fixed point already: it is shifted out. *)
Theorem default_resolution_lost config (w : W) :
  self w = newMouse -> getNumber32 config "DefaultResolution" = None ->
  total (setParamPropertiesGated (Some config)) (fun _ w' => defres (self w') = 0) w.
Proof.
  intros Hs Hn. unfold setParamPropertiesGated. apply total_bind.
  assert (Hk : keeps_defres (setInt64 config "MiddleClickTime" (fun v d => {| d with _maxmiddleclicktime := v |}))).
  { by apply keeps_defres_setting. }
  eapply total_mono; [apply Hk|]. cbn beta. intros _ w1 E1. apply total_bind.
  assert (Hb : keeps_defres (for_each boolvars (fun '(name, f) => setBool config name f))).
  { apply keeps_defres_all. repeat (apply Forall_cons_2; [by apply keeps_defres_setting|]). by apply Forall_nil. }
  eapply total_mono; [apply Hb|]. cbn beta. intros _ w2 E2. apply total_bind.
  assert (Hi : keeps_defres (for_each int32vars (fun '(name, f) => setInt32 config name f))).
  { apply keeps_defres_all. apply Forall_cons_2; [unfold setInt32; rewrite Hn; intros w'; by do 2 eexists|].
    repeat (apply Forall_cons_2; [apply (keeps_defres_setting _ (fun v => _ (s32 v))); done|]). by apply Forall_nil. }
  eapply total_mono; [apply Hi|]. cbn beta. intros _ w3 E3.
  do 2 eexists. split; [reflexivity|]. cbn [self defres]. by rewrite E3, E2, E1, Hs.
Qed.

End Findings.

(** ** On the bench *)

Definition simulating : ApplePS2Mouse := {| newMouse with _fakemiddlebutton := true; _buttonTimer := Some None |}.
Definition simulating_world : DrvWorld BenchHost ApplePS2Mouse MouseEvent :=
  mkDrvWorld simulating (mkBenchHost false true false) 0 [].

Lemma simulating_idle : idle 0 None simulating.
Proof. by split. Qed.

Definition report_of (b x y : Z) : MouseReport := mkReport b x y 0.

Lemma report_of_ok b x y : 0 <= b < 8 -> -256 <= x < 256 -> -256 < y <= 256 -> report_ok kMouseTypeStandard 3 (report_of b x y).
Proof. intros. by split. Qed.


Lemma held_button_flickers_witness :
  total (at_time (fun t => t) 10 (report_of 1 2 3) ;;
         (modify (fun w => {| w with now := 200 |}) ;; buttonTimerFires (fun t => t)) ;;
         at_time (fun t => t) 300 (report_of 1 4 5)) (fun _ w' =>
    told w' = [MousePointer 2 3 0 10; MousePointer 0 0 1 200; MousePointer 4 5 0 300] /\
    _mbuttonstate (self w') = STATE_WAIT4TWO) simulating_world.
Proof.
  exact (held_button_flickers (fun t => t) 1 10 200 300 (report_of 1 2 3) (report_of 1 4 5) 0 None
    simulating_world simulating_idle ltac:(by left) eq_refl eq_refl (report_of_ok 1 2 3 ltac:(lia) ltac:(lia) ltac:(lia))
    (report_of_ok 1 4 5 ltac:(lia) ltac:(lia) ltac:(lia))).
Defined.

(** The bytes are those of a report. *)
Lemma motion_taken_for_reset_witness :
  encodeMouse 3 (report_of 0 170 0) = [0x08; 0xAA; 0x00] /\
  total (for_each [0x08; 0xAA; 0x00] (fun b => interrupted b ;; ret tt) ;; packetReady (fun t => t))
    (fun _ w' => told w' = [] /\ host w' = host started_world /\ waitingPackets (self w') = [] /\
      _packetByteCount (self w') = 0) started_world.
Proof.
  split; [reflexivity|].
  exact (motion_taken_for_reset (fun t => t) (Some 1) 0x08 started_world mouse_started_ok eq_refl eq_refl
    ltac:(split; [done|split; [by intros [? ?]|done]]) ltac:(done)).
Defined.

Lemma default_resolution_lost_witness :
  let w := mkDrvWorld newMouse (mkBenchHost false false false) 0 [] in
  let config := [("ForceDefaultResolution"%string, OSBoolean true)] in
  total (setParamPropertiesGated (Some config)) (fun _ w' => defres (self w') = 0) w.
Proof.
  intros w config. exact (default_resolution_lost config w eq_refl eq_refl).
Defined.
