(* ===== verification/Sentelic.v ===== *)
(** * The Sentelic touchpad driver: ApplePS2SentelicFSP

    VoodooPS2Trackpad/VoodooPS2SentelicFSP.h and .cpp, operation by operation, in the
    world of [DriverWorld.v].  A request object that the code fills again and again is
    a fresh request each time: only the members it has just written are read back. *)
From S2P Require Import Prelude PS2Types RingBuffer Bus DriverWorld RingLoop OSTypes Motion.

Definition kPacketLengthMax : Z := 4.

(** The size of the ring buffer. *)
Definition FSP_RING : Z := kPacketLengthMax * 32.

Definition kModeByteValueGesturesEnabled : Z := 0x00.
Definition kModeByteValueGesturesDisabled : Z := 0x04.

Definition FSP_REG_DEVICE_ID : Z := 0x00.
Definition FSP_REG_VERSION : Z := 0x01.
Definition FSP_REG_REVISION : Z := 0x04.
Definition FSP_REG_OPC_QDOWN : Z := 0x31.
Definition FSP_REG_SYSCTL1 : Z := 0x10.
Definition FSP_DEVICE_MAGIC : Z := 0x01.
Definition FSP_BIT_EN_REG_CLK : Z := 0x20.
Definition FSP_BIT_EN_OPC_TAG : Z := 0x80.
Definition FSP_PKT_TYPE_NORMAL_OPC : Z := 0x03.
Definition FSP_PKT_TYPE_SHIFT : Z := 6.

Record ApplePS2SentelicFSP := mkSentelic {
  _device : option Z;
  _interruptHandlerInstalled : bool;
  _powerControlHandlerInstalled : bool;
  _ringBuffer : RingBuffer Z;
  _packetByteCount : Z;
  _packetSize : Z;
  _resolution : Z;
  _touchPadVersion : Z;
  _touchPadModeByte : Z }.

(** [init], on memory that [OSObject] zero-fills. *)
Definition newSentelic : ApplePS2SentelicFSP := {|
  _device := None;
  _interruptHandlerInstalled := false; _powerControlHandlerInstalled := false;
  _ringBuffer := mkRing (replicate (Z.to_nat FSP_RING) 0) 0 0;
  _packetByteCount := 0; _packetSize := 0; _resolution := Z.shiftl 100 16;
  _touchPadVersion := 0; _touchPadModeByte := kModeByteValueGesturesDisabled |}.

(** What the driver tells the HID system and the I/O registry. *)
Inductive SentelicEvent :=
| FspPointer (dx dy buttons time : Z)
| FspScroll (delta time : Z)
| FspClicking (v : Z)
| FspAccelerationType.

(** ** Bytes from the touchpad *)

Definition interruptOccurred (data : Z) : M ApplePS2SentelicFSP PS2InterruptResult := fun d =>
  let data := u8 data in
  if (_packetByteCount d =? 0) && ((data =? kSC_Acknowledge) || negb (nz (Z.land data 0x08)))
  then Ok (d, kPS2IR_packetBuffering) else
  match head_set (_packetByteCount d) data (_ringBuffer d) with
  | None => Crash
  | Some rb =>
    let d := {| d with _ringBuffer := rb; _packetByteCount := u32 (_packetByteCount d + 1) |} in
    if _packetByteCount d =? _packetSize d
    then Ok ({| d with _ringBuffer := advanceHead FSP_RING kPacketLengthMax rb;
                _packetByteCount := 0 |}, kPS2IR_packetReady)
    else Ok (d, kPS2IR_packetBuffering)
  end.

(** The nub passes a byte on once the driver has installed its action. *)
Definition interruptAction (data : Z) : M ApplePS2SentelicFSP PS2InterruptResult := fun d =>
  if _interruptHandlerInstalled d then interruptOccurred data d else Ok (d, kPS2IR_packetBuffering).

#[export] Instance sentelic_driver : BusDriver ApplePS2SentelicFSP := {|
  drv_interrupt := interruptAction;
  drv_device := _device;
  drv_installed := _interruptHandlerInstalled |}.

#[export] Instance sentelic_ring : PacketRing ApplePS2SentelicFSP := {|
  ringSize := FSP_RING;
  ringPacket _ := kPacketLengthMax;
  ringOf := _ringBuffer;
  setRing rb d := {| d with _ringBuffer := rb |} |}.

(** ** Packets *)

(** Buttons, motion, and the wheel of a packet of four bytes; a click tagged as a tap on
    the pad counts only with gestures enabled. *)
Definition decodeSentelic (mode packetSize : Z) (packet : list Z) : option (Z * Z * Z * option Z) :=
  p0 ← arr_get packet 0;
  p1 ← arr_get packet 1;
  p2 ← arr_get packet 2;
  let buttons :=
    if (mode =? kModeByteValueGesturesEnabled) || negb (Z.shiftr p0 FSP_PKT_TYPE_SHIFT =? FSP_PKT_TYPE_NORMAL_OPC)
    then Z.lor (Z.lor (if nz (Z.land p0 0x1) then 0x1 else 0) (if nz (Z.land p0 0x2) then 0x2 else 0))
               (if nz (Z.land p0 0x4) then 0x4 else 0)
    else 0 in
  let dx := s32 (motion (nz (Z.land p0 0x10)) p1) in
  let dy := s32 (u32 (- motion (nz (Z.land p0 0x20)) p2)) in
  if packetSize =? 4 then
    p3 ← arr_get packet 3;
    Some (buttons, dx, dy, Some (Z.land p3 8 - Z.land p3 7))
  else Some (buttons, dx, dy, None).

(** ** Registers *)

(** Values the touchpad would take for commands. *)
Definition reservedSwap (z : Z) : bool :=
  (z =? 10) || (z =? 20) || (z =? 40) || (z =? 60) || (z =? 80) || (z =? 100) || (z =? 200).
Definition reservedNot (z : Z) : bool := (z =? 0xe9) || (z =? 0xee) || (z =? 0xf2) || (z =? 0xff).

(** Whether a value is sent as it is, with its nibbles swapped, or complemented. *)
Inductive Selector := SelectPlain | SelectSwapped | SelectInverted.

Definition mangle (z : Z) : Selector * Z :=
  if reservedSwap z then (SelectSwapped, u8 (Z.lor (Z.shiftr z 4) (Z.shiftl z 4)))
  else if reservedNot z then (SelectInverted, u8 (Z.lnot z))
  else (SelectPlain, u8 z).

Definition selectByte (plain swapped inverted : Z) (s : Selector) : Z :=
  match s with SelectPlain => plain | SelectSwapped => swapped | SelectInverted => inverted end.

(** The commands of a register read before its result is asked for, and of a write. *)
Definition readSequence (reg : Z) : list Z :=
  let '(s, v) := mangle reg in [0xf3; 0x66; 0x88; 0xf3; selectByte 0x66 0xCC 0x68 s; v].
Definition writeSequence (reg val : Z) : list Z :=
  let '(s, v) := mangle reg in
  let '(s', v') := mangle val in
  [0xf3; selectByte 0x55 0x77 0x74 s; v; 0xf3; selectByte 0x33 0x44 0x47 s'; v'].

(** ** The driver *)
Section Driver.
Context {B : Type} `{PS2Bus B}.
#[local] Abbreviation C := (M (DrvWorld B ApplePS2SentelicFSP SentelicEvent)).

Definition sendAck (z : Z) : PS2Command := cmd kPS2C_SendCommandAndCompareAck z.
Definition readByte : PS2Command := cmd kPS2C_ReadDataPort 0.

(** [fsp_ps2_command]; the value it returns is never used. *)
Definition fsp_ps2_command (p z : Z) : C Z :=
  r ← requestDevice p [cmd kPS2C_WriteDataPort z; readByte];
  if completed r 2 then commandResult r 1 else ret (-1).

Definition fsp_commands (p : Z) (l : list Z) : C unit := for_each l (fun z => fsp_ps2_command p z ;; ret tt).

Definition fsp_reg_read (p reg : Z) : C Z :=
  fsp_commands p (readSequence reg) ;;
  r ← requestDevice p [sendAck kDP_GetMouseInformation; readByte; readByte; readByte];
  if completed r 4 then commandResult r 3 else ret (u32 (-1)).

Definition fsp_reg_write (p reg val : Z) : C unit := fsp_commands p (writeSequence reg val).

Definition fsp_write_enable (p : Z) (enable : bool) : C unit :=
  wen ← fsp_reg_read p FSP_REG_SYSCTL1;
  fsp_reg_write p FSP_REG_SYSCTL1
    (if enable then Z.lor (s32 wen) FSP_BIT_EN_REG_CLK else clear_bits (s32 wen) FSP_BIT_EN_REG_CLK).

Definition fsp_opctag_enable (p : Z) (enable : bool) : C unit :=
  fsp_write_enable p true ;;
  opc ← fsp_reg_read p FSP_REG_OPC_QDOWN;
  fsp_reg_write p FSP_REG_OPC_QDOWN
    (if enable then Z.lor (s32 opc) FSP_BIT_EN_OPC_TAG else clear_bits (s32 opc) FSP_BIT_EN_OPC_TAG) ;;
  fsp_write_enable p false.

Definition fsp_intellimouse_mode (p : Z) : C Z :=
  r ← requestDevice p
    [sendAck kDP_SetMouseSampleRate; sendAck 200; sendAck kDP_SetMouseSampleRate; sendAck 200;
     sendAck kDP_SetMouseSampleRate; sendAck 80; sendAck kDP_GetId; readByte];
  commandResult r 7.

Definition setTouchPadEnable (enable : bool) : C unit :=
  dev ← dget drv_device; p ← deref dev;
  requestDevice p [sendAck (if enable then kDP_Enable else kDP_SetDefaultsAndDisable)] ;;
  fsp_opctag_enable p true ;;
  id ← fsp_intellimouse_mode p;
  when (id =? 4) (dset (fun d => {| d with _packetSize := 4 |})).

(** *** Work loop *)

Definition dispatchRelativePointerEventWithPacket (packet : list Z) (packetSize : Z) : C unit :=
  mode ← dget _touchPadModeByte;
  r ← deref (decodeSentelic mode packetSize packet);
  t ← gets now;
  let '(buttons, dx, dy, dz) := r in
  tell (FspPointer dx dy buttons (u64 t)) ;;
  match dz with
  | Some dz => tell (FspScroll (s16 dz) (u64 t))
  | None => ret tt
  end.

Definition handlePacket (packet : list Z) : C unit :=
  size ← dget _packetSize; dispatchRelativePointerEventWithPacket packet size.

Definition packetReady : C unit := drainRing handlePacket.

(** *** Settings, power, life cycle *)

Definition setParamProperties (dict : OSDict) : C unit :=
  match getNumber32 dict "Clicking" with
  | Some v =>
    let new := if nz (Z.land v 0x1) then kModeByteValueGesturesEnabled else kModeByteValueGesturesDisabled in
    old ← dget _touchPadModeByte;
    when (negb (old =? new))
      (dset (fun d => {| d with _touchPadModeByte := new |}) ;; tell (FspClicking v))
  | None => ret tt
  end.

Definition resetPackets (d : ApplePS2SentelicFSP) : ApplePS2SentelicFSP :=
  {| d with _packetByteCount := 0; _ringBuffer := reset (_ringBuffer d) |}.

Definition setDevicePowerState (whatToDo : Z) : C unit :=
  if whatToDo =? kPS2C_DisableDevice then setTouchPadEnable false
  else when (whatToDo =? kPS2C_EnableDevice)
    (onController (bus_sleep 1000) ;; dset resetPackets ;; setTouchPadEnable true).

(** The three reads of [probe]. *)
Definition probeRegisters (p : Z) : C bool :=
  id ← fsp_reg_read p FSP_REG_DEVICE_ID;
  if id =? FSP_DEVICE_MAGIC then
    version ← fsp_reg_read p FSP_REG_VERSION;
    revision ← fsp_reg_read p FSP_REG_REVISION;
    dset (fun d => {| d with _touchPadVersion := u16 (Z.lor (u32 (Z.shiftl version 8)) revision) |}) ;;
    ret true
  else ret false.

(** [config]: what [makeConfigurationNode] finds, under the controller's lock. *)
Definition probe (p : Z) (config : option OSDict) : C bool :=
  onController bus_lock ;;
  onController bus_unlock ;;
  if bool_decide ((c ← config; getBoolean c "DisableDevice") = Some true) then ret false
  else probeRegisters p.

Definition start (p : Z) : C bool :=
  dset (fun d => {| d with _device := Some p; _packetSize := 3 |}) ;;
  mode ← dget _touchPadModeByte;
  tell (FspClicking (if mode =? kModeByteValueGesturesEnabled then 1 else 0)) ;;
  tell FspAccelerationType ;;
  onController bus_lock ;;
  setTouchPadEnable true ;;
  (onController bus_installInterrupt ;;
   dset (fun d => {| d with _interruptHandlerInstalled := true |})) ;;
  onController bus_unlock ;;
  onController bus_installPower ;;
  dset (fun d => {| d with _powerControlHandlerInstalled := true |}) ;;
  ret true.

Definition stop : C unit :=
  setTouchPadEnable false ;;
  i ← dget drv_installed;
  when i (onController bus_uninstallInterrupt ;;
          dset (fun d => {| d with _interruptHandlerInstalled := false |})) ;;
  dset (fun d => {| d with _interruptHandlerInstalled := false |}) ;;
  q ← dget _powerControlHandlerInstalled;
  when q (onController bus_uninstallPower) ;;
  dset (fun d => {| d with _powerControlHandlerInstalled := false |}) ;;
  dset (fun d => {| d with _device := None |}).

(** Never called by the driver: a register of the touchpad, two bits per command. *)
Definition selectorBits (z : Z) : list PS2Command :=
  concat (map (fun s => [sendAck kDP_SetMouseResolution; sendAck (Z.land (Z.shiftr z s) 0x3)]) [6; 4; 2; 0]).

Definition getTouchPadData (dataSelector : Z) : C Z :=
  dev ← dget drv_device; p ← deref dev;
  r ← requestDevice p
    ([sendAck kDP_SetDefaultsAndDisable] ++ selectorBits dataSelector ++
     [sendAck kDP_GetMouseInformation; readByte; readByte; readByte]);
  if completed r 13 then
    b10 ← commandResult r 10; b11 ← commandResult r 11; b12 ← commandResult r 12;
    ret (Z.lor (Z.lor (Z.shiftl b10 16) (Z.shiftl b11 8)) b12)
  else ret (u32 (-1)).

Definition setTouchPadModeByte (modeByteValue : Z) (enableStreamMode : bool) : C bool :=
  dev ← dget drv_device; p ← deref dev;
  r ← requestDevice p
    ([sendAck kDP_SetDefaultsAndDisable] ++ selectorBits modeByteValue ++
     [sendAck kDP_SetMouseSampleRate; sendAck 20;
      sendAck (if enableStreamMode then kDP_Enable else kDP_SetMouseScaling1To1)]);
  ret (completed r 12).

End Driver.
