(* ===== verification/SentelicSpec.v ===== *)
(** * What the Sentelic driver promises

    Its invariant, and every entry point against the interface of [Bus.v]: safety from
    [probe] to [stop].  The commands of a register access, which avoid the values the touchpad
    reserves and can be read back, and the events of a packet. *)
From S2P Require Import Prelude PS2Types RingBuffer RingSpec Bus DriverWorld OSTypes KeyboardBench RingLoop.
From S2P Require Import Motion Sentelic.

(** * Entry points *)

#[local] Abbreviation fsp_aligned := (aligned FSP_RING kPacketLengthMax).

(** [o]: the nub; a driver without a nub has not been started, and takes no bytes. *)
Record fsp_inv (o : option Z) (d : ApplePS2SentelicFSP) : Prop := {
  fs_device : _device d = o;
  fs_port : forall p, o = Some p -> 0 <= p < kPS2MuxMaxIdx;
  fs_ring : fsp_aligned (_ringBuffer d);
  fs_size : match o with Some _ => _packetSize d = 3 \/ _packetSize d = 4 | None => _interruptHandlerInstalled d = false end;
  fs_bytes : 0 <= _packetByteCount d < match o with Some _ => _packetSize d | None => 1 end }.

Lemma newSentelic_ok : fsp_inv None newSentelic.
Proof. by split. Qed.

#[export] Instance sentelic_ring_laws : PacketRingLaws ApplePS2SentelicFSP.
Proof. by split. Qed.

#[export] Instance sentelic_tells : Tells SentelicEvent := fun _ => True.

Ltac fsp_fields :=
  let d := fresh "d" in let Hd := fresh "Hd" in
  intros d Hd; repeat match goal with
    | H : has_ring _ _ _ |- _ => destruct H as [H ?]
    | H : fsp_inv _ _ |- _ => destruct H
    end; repeat (split; simpl; try done).

(** The members an interrupt does not touch. *)
Definition fsp_frame (d : ApplePS2SentelicFSP) : ApplePS2SentelicFSP :=
  {| d with _packetByteCount := 0; _ringBuffer := mkRing [] 0 0 |}.

Lemma fsp_interrupt_ok p d data : fsp_inv (Some p) d ->
  exists d' r, interruptOccurred data d = Ok (d', r) /\ fsp_inv (Some p) d' /\ fsp_frame d' = fsp_frame d.
Proof.
  intros Hd. pose proof Hd as [Ho Hp Hr Hs Hb]. unfold interruptOccurred. cbv zeta.
  destruct (_ && _); [by exists d, kPS2IR_packetBuffering|].
  assert (Hi : 0 <= _packetByteCount d < kPacketLengthMax) by (unfold kPacketLengthMax; lia).
  pose proof (head_set_spec FSP_RING kPacketLengthMax ltac:(done) ltac:(done) ltac:(done) _ _ (u8 data) Hr Hi) as E.
  rewrite E. destruct (head_set_aligned FSP_RING kPacketLengthMax _ _ _ _ Hr E) as [H1 _]. cbn [_packetByteCount _packetSize].
  rewrite u32_small by (unfold kPacketLengthMax in *; lia).
  destruct (Z.eqb_spec (_packetByteCount d + 1) (_packetSize d)) as [_|Hne]; do 2 eexists; (split; [done|]); (split; [|done]).
  - split; cbn [_device _ringBuffer _packetSize _packetByteCount]; try done; [by apply advanceHead_aligned|lia].
  - split; cbn [_device _ringBuffer _packetSize _packetByteCount]; try done; lia.
Qed.

#[export] Instance fsp_inv_keeps o : KeepsInv (fsp_inv o).
Proof.
  split; [intros d p Hd E; apply (fs_port _ _ Hd); rewrite <- (fs_device _ _ Hd); exact E|]. intros d data Hd.
  cbn [drv_interrupt sentelic_driver drv_device drv_installed]. unfold interruptAction.
  destruct (_interruptHandlerInstalled d) eqn:Ei; [|by exists d, kPS2IR_packetBuffering].
  destruct o as [p|]; [|destruct Hd; congruence].
  destruct (fsp_interrupt_ok p d data Hd) as (d' & r & E & Hd' & Ef). exists d', r.
  split; [done|]. split; [done|]. split; [exact (f_equal _device Ef)|].
  pose proof (f_equal _interruptHandlerInstalled Ef) as H.
  change (_interruptHandlerInstalled d' = _interruptHandlerInstalled d) in H. congruence.
Qed.

Section Entries.
Context {B : Type} `{HB : PS2Bus B} `{HL : !PS2BusLaws B}.
#[local] Abbreviation W := (DrvWorld B ApplePS2SentelicFSP SentelicEvent).
#[local] Abbreviation C := (M W).
#[local] Abbreviation moves := (moves (B := B) (E := SentelicEvent)).
#[local] Abbreviation ends := (ends (B := B) (E := SentelicEvent)).

(** *** The work loop *)

Lemma decodeSentelic_total mode size packet : length packet = 4%nat -> exists r, decodeSentelic mode size packet = Some r.
Proof.
  intros Hl. destruct packet as [|a [|b [|c [|e []]]]]; try done. unfold decodeSentelic, arr_get. simpl.
  destruct (size =? 4); eauto.
Qed.

Lemma ends_handlePacket_fsp o rb packet : length packet = Z.to_nat kPacketLengthMax ->
  ends (has_ring (fsp_inv o) rb) (has_ring (fsp_inv o) rb) (handlePacket packet).
Proof.
  intros Hl. unfold handlePacket, dispatchRelativePointerEventWithPacket. apply ends_dget_bind. intros d _. apply ends_weak.
  apply ends_dget_bind. intros d1 _. apply ends_weak.
  destruct (decodeSentelic_total (_touchPadModeByte d1) (_packetSize d) packet Hl) as ([[[b x] y] z] & E).
  eapply ends_deref_bind; [exact E|]. apply (ends_bind _ (has_ring (fsp_inv o) rb)); [apply ends_gets|]. intros t.
  apply (ends_bind _ (has_ring (fsp_inv o) rb)); [by apply ends_tell|]. intros _. destruct z; [by apply ends_tell|apply ends_ret].
Qed.

Lemma ends_packetReady_fsp o : ends (fsp_inv o) (fsp_inv o) packetReady.
Proof.
  apply (ends_drainRing _ _ kPacketLengthMax); [done..|intros d Hd; apply Hd| |intros; by apply ends_handlePacket_fsp].
  apply (dropFirst_inv _ kPacketLengthMax); [done..|intros d Hd; apply Hd|].
  intros d rb Hd Hr. revert d Hd. fsp_fields.
Qed.

Lemma ends_setParamProperties_fsp o c : ends (fsp_inv o) (fsp_inv o) (setParamProperties c).
Proof.
  unfold setParamProperties. destruct (getNumber32 _ _); [|apply ends_ret]. apply ends_dget_bind. intros d _.
  apply ends_weak, ends_when. intros _. apply (ends_bind _ (fsp_inv o)); [apply ends_dset; [fsp_fields|done]|].
  intros _. by apply ends_tell.
Qed.

(** *** Requests, on any port, with or without a nub *)
Section AtPort.
Context (o : option Z) (p : Z) (Hp : 0 <= p < kPS2MuxMaxIdx).
#[local] Abbreviation steady m := (forall l, moves (fsp_inv o) l (fsp_inv o) l m).

Lemma moves_answer cs r i l : answered cs r -> 0 <= i < Z.of_nat (length cs) ->
  moves (fsp_inv o) l (fsp_inv o) l (commandResult r i).
Proof.
  intros Ha Hi w Hw. apply wp_bind, wp_deref. apply (f_equal length) in Ha. rewrite !length_map in Ha.
  destruct (arr_get_Some (commands r) i) as (c & E & _); [lia|]. exists c. by split; [|apply wp_ret].
Qed.

Ltac fsp_step :=
  lazymatch goal with
  | |- DriverWorld.moves _ _ _ _ (requestDevice _ _ ≫= _) => apply moves_request; [exact _|exact Hp|simpl; lia|intros ? ?]
  | |- DriverWorld.moves _ _ _ _ (commandResult _ _) => eapply moves_answer; [eassumption|simpl; lia]
  | |- DriverWorld.moves _ _ _ _ (dset _) => apply moves_dset; [fsp_fields|done]
  | |- DriverWorld.moves ?I ?l _ _ (_ ≫= _) => apply (drv_moves_bind I l I l); [|intros ?]
  | _ => moves_step
  end.

Lemma steady_fsp_ps2_command z : steady (fsp_ps2_command p z).
Proof. intros l. unfold fsp_ps2_command. repeat fsp_step. Qed.

Lemma steady_fsp_commands cs : steady (fsp_commands p cs).
Proof.
  intros l. unfold fsp_commands. induction cs as [|z cs IH]; [apply moves_ret|]. cbn [for_each].
  fsp_step; [|exact IH]. fsp_step; [apply steady_fsp_ps2_command|apply moves_ret].
Qed.

Lemma steady_fsp_reg_read reg : steady (fsp_reg_read p reg).
Proof. intros l. unfold fsp_reg_read. fsp_step; [apply steady_fsp_commands|]. repeat fsp_step. Qed.
Lemma steady_fsp_reg_write reg v : steady (fsp_reg_write p reg v).
Proof. intros l. apply steady_fsp_commands. Qed.
Lemma steady_fsp_write_enable b : steady (fsp_write_enable p b).
Proof. intros l. unfold fsp_write_enable. fsp_step; [apply steady_fsp_reg_read|apply steady_fsp_reg_write]. Qed.
Lemma steady_fsp_opctag_enable b : steady (fsp_opctag_enable p b).
Proof.
  intros l. unfold fsp_opctag_enable. fsp_step; [apply steady_fsp_write_enable|]. fsp_step; [apply steady_fsp_reg_read|].
  fsp_step; [apply steady_fsp_reg_write|apply steady_fsp_write_enable].
Qed.
Lemma steady_fsp_intellimouse_mode : steady (fsp_intellimouse_mode p).
Proof. intros l. unfold fsp_intellimouse_mode. repeat fsp_step. Qed.

Lemma steady_probeRegisters : steady (probeRegisters p).
Proof.
  intros l. unfold probeRegisters. fsp_step; [apply steady_fsp_reg_read|]. fsp_step; [|fsp_step].
  fsp_step; [apply steady_fsp_reg_read|]. fsp_step; [apply steady_fsp_reg_read|]. repeat fsp_step.
Qed.
End AtPort.

Section AtDevice.
Context (p : Z) (Hp : 0 <= p < kPS2MuxMaxIdx).
#[local] Abbreviation at_fsp := (fsp_inv (Some p)).
#[local] Abbreviation steady m := (forall l, moves at_fsp l at_fsp l m).

Lemma steady_fsp_setTouchPadEnable b : steady (setTouchPadEnable b).
Proof.
  intros l. unfold setTouchPadEnable. apply moves_dget_bind. intros d Hd. apply moves_weak.
  cbn [drv_device sentelic_driver]. rewrite (fs_device _ _ Hd). eapply moves_deref_bind; [done|].
  apply moves_request; [exact _|exact Hp|simpl; lia|intros r _].
  apply (drv_moves_bind _ _ at_fsp l); [by apply steady_fsp_opctag_enable|intros _].
  apply (drv_moves_bind _ _ at_fsp l); [by apply steady_fsp_intellimouse_mode|intros id].
  apply drv_moves_when. intros _. apply moves_dset; [|done].
  intros d' [H1 H2 H3 H4 H5]. split; cbn [_device _packetSize _packetByteCount _ringBuffer]; try done; [by right|lia].
Qed.

Lemma fsp_resetPackets_ok d : at_fsp d -> at_fsp (resetPackets d).
Proof.
  intros [H1 H2 H3 H4 H5]. split; cbn [resetPackets _device _packetSize _packetByteCount _ringBuffer]; try done; [|lia].
  apply aligned_reset; [done|done|]. apply H3.
Qed.

Lemma steady_fsp_power what : steady (setDevicePowerState what).
Proof.
  intros l. unfold setDevicePowerState. destruct (_ =? _); [apply steady_fsp_setTouchPadEnable|].
  apply drv_moves_when. intros _. apply (drv_moves_bind _ _ at_fsp l); [apply moves_steady; [exact _|apply law_sleep]|intros _].
  apply (drv_moves_bind _ _ at_fsp l); [apply moves_dset; [apply fsp_resetPackets_ok|done]|intros _].
  apply steady_fsp_setTouchPadEnable.
Qed.

Lemma moves_fsp_probe c : moves (fsp_inv None) false (fsp_inv None) false (probe p c).
Proof.
  unfold probe. apply (drv_moves_bind _ _ (fsp_inv None) true); [apply moves_lock; exact _|intros _].
  apply (drv_moves_bind _ _ (fsp_inv None) false); [apply moves_unlock; exact _|intros _].
  destruct (bool_decide _); [apply moves_ret|by apply steady_probeRegisters].
Qed.

Lemma moves_fsp_start : moves (fsp_inv None) false at_fsp false (start p).
Proof.
  unfold start. apply (drv_moves_bind _ _ at_fsp false).
  { apply moves_dset; [|done]. intros d [H1 H2 H3 H4 H5].
    split; cbn [_device _packetSize _packetByteCount _ringBuffer]; try done; [by intros q [= <-]|by left|lia]. }
  intros _. apply moves_dget_bind. intros d _. apply moves_weak.
  do 2 (apply (drv_moves_bind _ _ at_fsp false); [by apply moves_tell|intros _]).
  apply (drv_moves_bind _ _ at_fsp true); [apply moves_lock; exact _|intros _].
  apply (drv_moves_bind _ _ at_fsp true); [apply steady_fsp_setTouchPadEnable|intros _].
  apply (drv_moves_bind _ _ at_fsp true); [apply (moves_install at_fsp); fsp_fields|intros _].
  apply (drv_moves_bind _ _ at_fsp false); [apply moves_unlock; exact _|intros _].
  apply (drv_moves_bind _ _ at_fsp false); [apply moves_steady; [exact _|apply law_installPower]|intros _].
  apply (drv_moves_bind _ _ at_fsp false); [apply moves_dset; [fsp_fields|done]|intros _]. apply moves_ret.
Qed.

(** The invariant that [stop] leaves, whatever was collected. *)
Definition fsp_stopped (d : ApplePS2SentelicFSP) : Prop := _device d = None /\ _interruptHandlerInstalled d = false.

Lemma moves_fsp_stop : moves at_fsp false fsp_stopped false stop.
Proof.
  unfold stop. apply (drv_moves_bind _ _ at_fsp false); [apply steady_fsp_setTouchPadEnable|intros _].
  intros w Hw. apply wp_bind, wp_gets, wp_bind.
  eapply (wp_mono _ (fun _ w' => good at_fsp false w')).
  { apply wp_when; [|done]. intros E. apply (moves_uninstall at_fsp at_fsp false); [fsp_fields|done|exact Hw|exact E]. }
  intros _ w' Hw'. revert w' Hw'. clear w Hw.
  match goal with |- forall w', good ?I ?l w' -> wp ?m _ w' => change (moves I l fsp_stopped false m) end.
  set (J := fun d => at_fsp d /\ _interruptHandlerInstalled d = false).
  assert (KJ : KeepsInv J).
  { split; [intros d q [Hd _]; by apply inv_port|]. intros d data [Hd Hi].
    destruct (inv_interrupt d data Hd) as (d' & r & E & Hd' & Ed & Ei). exists d', r.
    split; [done|]. split; [split; [done|]|done]. cbn [drv_installed sentelic_driver] in Ei. congruence. }
  apply (drv_moves_bind _ _ J false).
  { intros w [H1 H2 H3 H4 H5]. split; try done. split; [|done]. revert H1. generalize (self w). fsp_fields. }
  intros _. apply moves_dget_bind. intros d _. apply moves_weak.
  apply (drv_moves_bind _ _ J false).
  { apply drv_moves_when. intros _. apply moves_steady; [exact _|apply law_uninstallPower]. }
  intros _. apply (drv_moves_bind _ _ J false); [apply moves_dset; [|done]; intros d' [[] ?]; by split|].
  intros _. apply moves_dset; [|done]. intros d' [_ ?]. by split.
Qed.

End AtDevice.

End Entries.

(** * Promises *)

(** ** Registers *)

(** What the touchpad makes of a selected value. *)
Definition unmangle (s : Selector) (v : Z) : Z :=
  match s with
  | SelectPlain => v
  | SelectSwapped => u8 (Z.lor (Z.shiftr v 4) (Z.shiftl v 4))
  | SelectInverted => u8 (Z.lnot v)
  end.

Definition reserved (z : Z) : bool := reservedSwap z || reservedNot z.

Definition mangle_check (z : Z) : bool :=
  let '(s, v) := mangle z in (unmangle s v =? z) && negb (reserved v) && (0 <=? v) && (v <? 256).

(** The register and the value a sequence of six writes means to the touchpad. *)
Definition readWrite (l : list Z) : option (Z * Z) :=
  match l with
  | [0xf3; s; v; 0xf3; s'; v'] =>
    r ← (if s =? 0x55 then Some (unmangle SelectPlain v) else if s =? 0x77 then Some (unmangle SelectSwapped v)
         else if s =? 0x74 then Some (unmangle SelectInverted v) else None);
    x ← (if s' =? 0x33 then Some (unmangle SelectPlain v') else if s' =? 0x44 then Some (unmangle SelectSwapped v')
         else if s' =? 0x47 then Some (unmangle SelectInverted v') else None);
    Some (r, x)
  | _ => None
  end.

Lemma mangle_ok z : is_byte z ->
  unmangle (mangle z).1 (mangle z).2 = z /\ reserved (mangle z).2 = false /\ is_byte (mangle z).2.
Proof.
  intros Hz. assert (H : mangle_check z = true) by (apply (seqZ_all mangle_check 0 256); [by vm_compute|exact Hz]).
  unfold mangle_check in H. destruct (mangle z) as [s v]. rewrite !andb_true_iff in H.
  destruct H as [[[H1%Z.eqb_eq H2] H3%Z.leb_le] H4%Z.ltb_lt]. cbn [fst snd].
  split; [done|]. split; [by apply negb_true_iff|]. unfold is_byte. lia.
Qed.

(** C29: a register write says what it means.  For every register and every value, the
    commands sent name that register and that value again when the touchpad's three
    ways of reading them are applied, are bytes, and the two values among them are none
    of those the touchpad reserves. *)
Theorem register_write_roundtrip reg val : is_byte reg -> is_byte val ->
  readWrite (writeSequence reg val) = Some (reg, val) /\ Forall is_byte (writeSequence reg val) /\
  (forall v, writeSequence reg val !! 2%nat = Some v \/ writeSequence reg val !! 5%nat = Some v -> reserved v = false).
Proof.
  intros Hr Hv. destruct (mangle_ok reg Hr) as (E1 & R1 & B1). destruct (mangle_ok val Hv) as (E2 & R2 & B2).
  unfold writeSequence. destruct (mangle reg) as [s1 v1], (mangle val) as [s2 v2]. cbn [fst snd] in *.
  split; [|split].
  - destruct s1, s2; cbn -[unmangle u8]; cbn [unmangle] in *; by rewrite E1, E2.
  - repeat (apply Forall_cons_2; [first [done|by destruct s1|by destruct s2]|]). by apply Forall_nil.
  - intros v [[= <-]|[= <-]]; done.
Qed.

Lemma register_write_roundtrip_witness :
  is_byte 0xe9 /\ is_byte 200 /\ readWrite (writeSequence 0xe9 200) = Some (0xe9, 200) /\
  writeSequence 0xe9 200 = [0xf3; 0x74; 0x16; 0xf3; 0x44; 0x8c].
Proof.
  split; [done|]. split; [done|]. split; [exact (proj1 (register_write_roundtrip 0xe9 200 ltac:(done) ltac:(done)))|reflexivity].
Defined.

(** ** Safety *)

(** What may happen between [start] and [stop], with the arguments that matter. *)
Inductive SentelicOp :=
| FspByte (data : Z)
| FspPackets
| FspPower (whatToDo : Z)
| FspParams (dict : OSDict).

Section Life.
Context {B : Type} `{HB : PS2Bus B}.
#[local] Abbreviation C := (M (DrvWorld B ApplePS2SentelicFSP SentelicEvent)).

Definition run_fsp (o : SentelicOp) : C unit :=
  match o with
  | FspByte data => interrupted data ;; ret tt
  | FspPackets => packetReady
  | FspPower what => setDevicePowerState what
  | FspParams d => setParamProperties d
  end.

(** The life of a driver object on port [p]. *)
Definition fsp_life (p : Z) (config : option OSDict) (ops : list SentelicOp) : C unit :=
  found ← probe p config;
  when found (start p ;; for_each ops run_fsp ;; stop).

End Life.

Section Safe.
Context {B : Type} `{HB : PS2Bus B} `{HL : !PS2BusLaws B} (p : Z) (Hp : 0 <= p < kPS2MuxMaxIdx).
#[local] Abbreviation W := (DrvWorld B ApplePS2SentelicFSP SentelicEvent).
#[local] Abbreviation moves := (moves (B := B) (E := SentelicEvent)).

Lemma moves_run_fsp o : moves (fsp_inv (Some p)) false (fsp_inv (Some p)) false (run_fsp o).
Proof.
  destruct o as [data| |what|d]; cbn [run_fsp].
  - apply (drv_moves_bind _ _ (fsp_inv (Some p)) false); [|intros _; apply moves_ret].
    intros w [H1 H2 H3 H4 H5]. unfold wp, interrupted.
    destruct (inv_interrupt (self w) data H1) as (d' & r & E & Hd' & _ & Ei). rewrite E.
    split; try done. cbn [self]. by rewrite Ei.
  - apply moves_ends, ends_packetReady_fsp.
  - by apply steady_fsp_power.
  - apply moves_ends, ends_setParamProperties_fsp.
Qed.

(** C28: the Sentelic driver is safe from [probe] to [stop].  Over any bus that keeps the
    promises of [PS2BusLaws], whatever its configuration, the touchpad's bytes and
    answers, the settings and power changes of its life and their order, the driver
    leaves no array, uses no null pointer, takes and releases the controller's lock in
    turn, and ends off its device with the lock free. *)
Theorem fsp_safe config ops (w : W) :
  self w = newSentelic -> told w = [] -> bus_ok (host w) -> bus_locked (host w) = false ->
  wp (fsp_life p config ops) (fun _ w' =>
    _device (self w') = None /\ bus_ok (host w') /\ bus_locked (host w') = false) w.
Proof.
  intros Hs Ht Hb Hl. assert (Hw : good (fsp_inv None) false w).
  { split; [rewrite Hs; apply newSentelic_ok|done|done|by rewrite Hs|rewrite Ht; constructor]. }
  clear Hs Ht Hb Hl. unfold fsp_life. apply wp_bind. eapply wp_mono; [by apply moves_fsp_probe|].
  cbn beta. intros found w1 H1. apply wp_when; [|intros _; destruct H1 as [H1 ? ? ? ?]; split; [apply H1|done]].
  intros _. apply wp_bind. eapply wp_mono; [by apply (moves_fsp_start p Hp)|]. cbn beta. intros _ w2 H2.
  apply wp_bind. eapply (wp_mono _ (fun _ w' => good (fsp_inv (Some p)) false w')).
  { apply wp_for_each; [exact H2|]. intros o w' _ Hw'. by apply moves_run_fsp. }
  intros _ w3 H3. eapply wp_mono; [by apply (moves_fsp_stop p Hp)|]. by intros _ w' [[] ? ? ? ?].
Qed.

End Safe.

(** ** A life on the bench *)

(** A controller whose touchpad answers every read with 1: a magic that is right. *)
#[local] Instance one_bus : PS2Bus BenchHost := answering (answerAll 1).
#[local] Instance one_laws : PS2BusLaws BenchHost := answering_laws _ (answerAll_shape 1).

Definition fsp_bench : DrvWorld BenchHost ApplePS2SentelicFSP SentelicEvent :=
  mkDrvWorld newSentelic (mkBenchHost false false false) 5 [].

(** A motion with a button down, noise, a tap that is filtered out, and sleep. *)
Definition fsp_ops : list SentelicOp :=
  [FspByte 0xFA; FspByte 0x29; FspByte 5; FspByte 0xFF; FspByte 0xC9; FspByte 1; FspByte 0; FspPackets;
   FspParams [("Clicking"%string, OSNumber 1)]; FspPower kPS2C_DisableDevice; FspPower kPS2C_EnableDevice].

Lemma fsp_safe_witness :
  let run := fsp_life 1 None fsp_ops in
  wp run (fun _ w' => _device (self w') = None /\ bus_ok (host w') /\ bus_locked (host w') = false) fsp_bench /\
  match run fsp_bench with
  | Ok (w', _) => told w' = [FspClicking 0; FspAccelerationType; FspPointer 5 1 1 5; FspPointer 1 0 0 5; FspClicking 1]
  | _ => False
  end.
Proof.
  intros run. split; [|vm_compute; reflexivity].
  exact (fsp_safe 1 ltac:(done) None fsp_ops fsp_bench eq_refl eq_refl I eq_refl).
Defined.
