(* ===== verification/Config.v ===== *)
(** * The controller's configuration

    The part of VoodooPS2Controller.cpp that builds the configuration a driver is
    given: the platform profile, chosen by the names in the DSDT header, merged over
    the default, with the overrides of the ACPI method RMCF on top.

    The I/O registry and ACPI are parameters: the entries from the controller up to
    the root of the service plane, the properties of the ACPI platform expert, and
    what each evaluation of RMCF returns.  Memory is never short. *)
From S2P Require Import Prelude Controller OSTypes.
From Stdlib Require Import Ascii.

(** ** Names of the platform *)

Definition kDefault : string := "Default".

(** The members of [DSDT_HEADER] that are read, by their offsets, and its size. *)
Definition DSDT_HEADER_size : Z := 36.
Definition oemID_offset : nat := 10.
Definition oemID_size : nat := 6.
Definition oemTableID_offset : nat := 16.
Definition oemTableID_size : nat := 8.
(** 'D' | 'S'<<8 | 'D'<<16 | 'T'<<24, byte by byte. *)
Definition DSDT_SIGNATURE : list Z := [0x44; 0x53; 0x44; 0x54].

(** The DSDT, of the properties of the ACPI platform expert. *)
Definition getDSDT (platformExpert : option OSDict) : option (list Z) :=
  reg ← platformExpert;
  o ← getObject reg "ACPI Tables"; dict ← asDictionary o;
  o ← getObject dict "DSDT"; data ← asData o;
  if Z.of_nat (length data) <? DSDT_HEADER_size then None
  else if bool_decide (take 4 data = DSDT_SIGNATURE) then Some data else None.

(** [stripTrailingSpaces]: backwards from the end, as long as there are spaces. *)
Fixpoint dropSpaces (l : list Z) : list Z :=
  match l with
  | c :: l' => if c =? 32 then dropSpaces l' else l
  | [] => []
  end.
Definition stripTrailingSpaces (str : list Z) : list Z := rev (dropSpaces (rev str)).

(** The characters of a buffer up to its NUL. *)
Fixpoint cString (buffer : list Z) : list Z :=
  match buffer with
  | c :: l => if c =? 0 then [] else c :: cString l
  | [] => []
  end.

Fixpoint toString (l : list Z) : string :=
  match l with
  | [] => EmptyString
  | c :: l' => String (ascii_of_nat (Z.to_nat c)) (toString l')
  end.

(** A field of the header, copied to a buffer that a NUL ends. *)
Definition headerName (dsdt : list Z) (offset size : nat) : string :=
  toString (stripTrailingSpaces (cString (take size (drop offset dsdt)))).

(** An entry of the I/O registry: its properties, and whether it is an ACPI device. *)
Record RegistryEntry := mkEntry {
  entry_properties : OSDict;
  entry_acpi : bool }.

(** [reg]: the entry and its parents. *)
Fixpoint getPlatformOverride (reg : list RegistryEntry) (sz : string) : option string :=
  match reg with
  | [] => None
  | e :: parents =>
    match (o ← getObject (entry_properties e) sz; asString o) with
    | Some id => Some id
    | None => getPlatformOverride parents sz
    end
  end.

Definition getPlatformManufacturer (reg : list RegistryEntry) (expert : option OSDict) : option string :=
  match getPlatformOverride reg "RM,oem-id" with
  | Some id => Some id
  | None => dsdt ← getDSDT expert; Some (headerName dsdt oemID_offset oemID_size)
  end.

Definition getPlatformProduct (reg : list RegistryEntry) (expert : option OSDict) : option string :=
  match getPlatformOverride reg "RM,oem-table-id" with
  | Some id => Some id
  | None => dsdt ← getDSDT expert; Some (headerName dsdt oemTableID_offset oemTableID_size)
  end.

(** ** Links between configurations *)

(** A link's text, up to a semicolon. *)
Fixpoint linkTarget (link : string) : string :=
  match link with
  | EmptyString => EmptyString
  | String c s => if bool_decide (c = ";"%char) then EmptyString else String c (linkTarget s)
  end.

(** What [root] says of a name: a configuration, or the name to look under instead. *)
Definition linkOf (root : OSDict) (name : string) : option string :=
  o ← getObject root name; s ← asString o; Some (linkTarget s).
Definition nodeOf (root : OSDict) (name : string) : option OSDict :=
  o ← getObject root name; asDictionary o.

(** [_getConfigurationNode]; [None]: not back within [fuel] calls. *)
Fixpoint _getConfigurationNode (fuel : nat) (root : OSDict) (name : string) : option (option OSDict) :=
  match fuel with
  | O => None
  | S fuel =>
    match nodeOf root name with
    | Some configuration => Some (Some configuration)
    | None => match linkOf root name with
              | Some target => _getConfigurationNode fuel root target
              | None => Some None
              end
    end
  end.

(** Enough calls for every name of [root] to be visited once. *)
Definition linkFuel (root : OSDict) : nat := S (length root).

Definition getConfigurationNode (reg : list RegistryEntry) (expert : option OSDict) (list_ : OSDict) :
    option (option OSDict) :=
  match getPlatformManufacturer reg expert with
  | None => Some None
  | Some manufacturer =>
    match nodeOf list_ manufacturer with
    | None => Some None
    | Some manufacturerNode =>
      _getConfigurationNode (linkFuel manufacturerNode) manufacturerNode
        (default kDefault (getPlatformProduct reg expert))
    end
  end.

(** ** Overrides from ACPI

    ACPI has no booleans and no dictionaries: they arrive as strings and packages.
    A translation works in place: besides its result the functions return what the
    object they were given has become. *)

Definition translateString (sz : string) : option OSObject :=
  match sz with
  | ">y"%string => Some (OSBoolean true)
  | ">n"%string => Some (OSBoolean false)
  | ">>y"%string => Some (OSString ">y")
  | ">>n"%string => Some (OSString ">n")
  | _ => None
  end.

Section Translate.
Variable translateEntry : OSObject -> OSObject * option OSObject.

(** The entries of an array, each replaced by its translation. *)
Fixpoint translateEntries (l : list OSObject) : list OSObject :=
  match l with
  | [] => []
  | o :: l' => let '(o', t) := translateEntry o in default o' t :: translateEntries l'
  end.

(** Keys and values. *)
Fixpoint translatePairs (l : list OSObject) (dict : OSDict) : list OSObject * option OSDict :=
  match l with
  | [] => ([], Some dict)
  | OSString key :: v :: l' =>
    let '(v', t) := translateEntry v in
    let '(l'', r) := translatePairs l' (setObject dict key (default v' t)) in
    (OSString key :: v' :: l'', r)
  | _ => (l, None)
  end.

Definition translateArray (l : list OSObject) : list OSObject * option OSObject :=
  match l with
  | [] => (l, None)
  | OSArray [] :: rest => let rest' := translateEntries rest in (rest', Some (OSArray rest'))
  | _ => if Z.odd (Z.of_nat (length l)) then (l, None)
         else let '(l', r) := translatePairs l [] in (l', OSDictionary <$> r)
  end.

End Translate.

Fixpoint translateEntry (obj : OSObject) : OSObject * option OSObject :=
  match obj with
  | OSArray l => let '(l', r) := translateArray translateEntry l in (OSArray l', r)
  | OSString s => (obj, translateString s)
  | _ => (obj, None)
  end.

(** [r]: what the evaluation returned. *)
Definition getConfigurationOverride (r : option OSObject) : option OSDict :=
  r ← r; array ← asArray r;
  obj ← (translateArray translateEntry array).2;
  asDictionary obj.

(** ** The configuration of a driver *)

(** The controller, its cache of RMCF, and how often RMCF was evaluated. *)
Record ConfigWorld (C A : Type) := mkConfigWorld {
  cf_controller : World C A;
  _rmcfCache : option OSDict;
  evaluations : nat }.
Arguments mkConfigWorld {C A}.
Arguments cf_controller {C A}.
Arguments _rmcfCache {C A}.
Arguments evaluations {C A}.

Section Make.
Context {C A : Type}.
#[local] Abbreviation W := (ConfigWorld C A).
Context (expert : option OSDict) (reg : list RegistryEntry) (rmcf : nat -> option OSObject).

Definition onLock (m : M (World C A) unit) : M W unit := fun w =>
  match m (cf_controller w) with
  | Ok (c, _) => Ok ({| w with cf_controller := c |}, tt)
  | Wait => Wait
  | Crash => Crash
  end.

(** A search that does not come back. *)
Definition returned {X} (r : option X) : M W X :=
  match r with Some x => ret x | None => wait end.

(** The cache, else RMCF of the nearest ACPI device. *)
Definition loadOverride : M W (option OSDict) :=
  cache ← gets _rmcfCache;
  match cache with
  | Some over => ret (Some over)
  | None =>
    if existsb entry_acpi reg then
      n ← gets evaluations;
      let over := getConfigurationOverride (rmcf n) in
      modify (fun w => {| w with _rmcfCache := over; evaluations := S n |}) ;;
      ret over
    else ret None
  end.

(** The default, overridden by the platform's. *)
Definition mergeProfile (defaultNode platformNode : option OSDict) : option OSDict :=
  match defaultNode, platformNode with
  | Some d, Some p => Some (mergeDict d p)
  | Some d, None => Some d
  | None, p => p
  end.

Definition mergeSection (result : option OSDict) (over : option OSDict) (section : string) : option OSDict :=
  match (over ← over; nodeOf over section), result with
  | Some sect, None => Some sect
  | Some sect, Some result => Some (mergeDict result sect)
  | None, _ => result
  end.

Definition makeConfigurationNode (list_ : option OSDict) (section : string) : M W (option OSDict) :=
  match list_ with
  | None => ret None
  | Some list_ =>
    onLock lock ;;
    defaultNode ← returned (_getConfigurationNode (linkFuel list_) list_ kDefault);
    platformNode ← returned (getConfigurationNode reg expert list_);
    let result := mergeProfile defaultNode platformNode in
    over ← loadOverride;
    let result := mergeSection result over section in
    onLock unlock ;;
    ret result
  end.

End Make.
