(* ===== verification/ConfigSpec.v ===== *)
(** * What the configuration promises

    Following links ends exactly when they do not come back on themselves; overrides
    written for ACPI are read as they were meant; and the section of the override
    comes before the platform's profile and that before the default. *)
From S2P Require Import Prelude Controller OSTypes Config.
From Stdlib Require Import Ascii.

Lemma NoDup_or_twice (l : list string) :
  NoDup l \/ exists i j x, (i < j)%nat /\ l !! i = Some x /\ l !! j = Some x.
Proof.
  induction l as [|y l [Hl|(i & j & x & Hij & Hi & Hj)]]; [left; constructor| |].
  - destruct (decide (y ∈ l)) as [[j Hj]%list_elem_of_lookup|Hy]; [right|left; by constructor].
    exists 0%nat, (S j), y. split; [lia|by split].
  - right. exists (S i), (S j), x. split; [lia|by split].
Qed.

(** ** Links *)

(** The names that are links, from [name] on, and what the last one points to. *)
Inductive resolves (root : OSDict) : string -> list string -> option OSDict -> Prop :=
| resolves_node name d : nodeOf root name = Some d -> resolves root name [] (Some d)
| resolves_none name : nodeOf root name = None -> linkOf root name = None -> resolves root name [] None
| resolves_link name target names r :
    nodeOf root name = None -> linkOf root name = Some target -> resolves root target names r ->
    resolves root name (name :: names) r.

(** The name that [n] links lead to. *)
Fixpoint follow (root : OSDict) (n : nat) (name : string) : option string :=
  match n with
  | O => Some name
  | S n => target ← linkOf root name; follow root n target
  end.

Section Links.
Context (root : OSDict).

Lemma link_not_node name target : linkOf root name = Some target -> nodeOf root name = None.
Proof. unfold linkOf, nodeOf. destruct (getObject root name) as [[]|]; done. Qed.

Lemma link_key name target : linkOf root name = Some target -> name ∈ root.*1.
Proof. unfold linkOf. destruct (getObject root name) as [o|] eqn:E; [intros _; by eapply getObject_key|done]. Qed.

Lemma node_resolves fuel name r :
  _getConfigurationNode fuel root name = Some r <->
  exists names, resolves root name names r /\ (length names < fuel)%nat.
Proof.
  revert name. induction fuel as [|fuel IH]; intros name; simpl.
  { split; [done|]. intros (names & _ & Hn). lia. }
  split.
  - destruct (nodeOf root name) as [d|] eqn:En; [|destruct (linkOf root name) as [target|] eqn:El].
    + intros [= <-]. exists []. split; [by constructor|simpl; lia].
    + intros (names & Hr & Hl)%IH. exists (name :: names). split; [by econstructor|simpl; lia].
    + intros [= <-]. exists []. split; [by constructor|simpl; lia].
  - intros (names & Hr & Hl). destruct Hr as [name d En|name En El|name target names r En El Hr].
    + by rewrite En.
    + by rewrite En, El.
    + rewrite En, El. apply IH. exists names. split; [done|simpl in Hl; lia].
Qed.

Lemma resolves_unique name names r names' r' :
  resolves root name names r -> resolves root name names' r' -> names = names'.
Proof.
  intros H. revert names' r'. induction H as [| |name target names r En El Hr IH]; intros names' r' H';
    inversion H' as [| |? target']; subst; try congruence.
  f_equal. eapply IH. replace target with target' by congruence. done.
Qed.

(** Every name on the way resolves, by fewer links. *)
Lemma resolves_suffix name names r x : resolves root name names r -> x ∈ names ->
  exists names', resolves root x names' r /\ (length names' <= length names)%nat.
Proof.
  induction 1 as [| |name target names r En El Hr IH]; [by intros ?%not_elem_of_nil..|].
  intros [->|Hx]%elem_of_cons; [exists (name :: names); split; [by econstructor|done]|].
  destruct (IH Hx) as (names' & H1 & H2). exists names'. split; [done|simpl; lia].
Qed.

Lemma resolves_NoDup name names r : resolves root name names r -> NoDup names.
Proof.
  induction 1 as [| |name target names r En El Hr IH]; [constructor..|]. constructor; [|done].
  intros Hx. destruct (resolves_suffix _ _ _ _ Hr Hx) as (names' & H1 & H2).
  assert (E : name :: names = names') by (eapply resolves_unique; [by econstructor|done]).
  subst names'. simpl in H2. lia.
Qed.

Lemma resolves_keys name names r : resolves root name names r -> names ⊆ root.*1.
Proof.
  induction 1 as [| |name target names r En El Hr IH]; [by intros x ?%not_elem_of_nil..|].
  intros x [->|Hx]%elem_of_cons; [by eapply link_key|by apply IH].
Qed.

Lemma resolves_short name names r : resolves root name names r -> (length names <= length root)%nat.
Proof.
  intros H. rewrite <- (length_fmap fst root). apply NoDup_incl_length; [by apply NoDup_ListNoDup, (resolves_NoDup name _ r)|].
  intros x Hx%list_elem_of_In. apply list_elem_of_In. by eapply resolves_keys.
Qed.

Lemma follow_resolves n name x names r : resolves root name names r -> follow root n name = Some x ->
  exists names', resolves root x names' r /\ (length names' + n = length names)%nat.
Proof.
  revert name names. induction n as [|n IH]; intros name names Hr; simpl.
  { intros [= <-]. exists names. split; [done|lia]. }
  destruct (linkOf root name) as [target|] eqn:El; [|done]. simpl. intros Hx.
  destruct Hr as [name d En|name En El'|name target' names r En El' Hr]; [|congruence|].
  - rewrite (link_not_node _ _ El) in En. done.
  - replace target' with target in Hr by congruence. destruct (IH _ _ Hr Hx) as (names' & H1 & H2).
    exists names'. split; [done|simpl; lia].
Qed.

(** While no answer comes, every name is a link. *)
Lemma follow_unresolved fuel name n : _getConfigurationNode fuel root name = None -> (n < fuel)%nat ->
  exists x target, follow root n name = Some x /\ linkOf root x = Some target.
Proof.
  revert name n. induction fuel as [|fuel IH]; intros name n; [lia|]. simpl.
  destruct (nodeOf root name); [done|]. destruct (linkOf root name) as [target|] eqn:El; [|done].
  intros E Hn. destruct n as [|n]; [by exists name, target|]. simpl. rewrite El. apply IH; [done|lia].
Qed.

(** C40: links are followed to their end, or round in a circle.  If the search comes
    back at all it does so within one call for every name there is and one more; it
    does not come back exactly when two different numbers of links lead to the same
    name, and then no number of calls is enough: nothing in the code ends it. *)
Theorem links_end_or_loop name :
  (forall fuel r, _getConfigurationNode fuel root name = Some r ->
     _getConfigurationNode (linkFuel root) root name = Some r) /\
  (_getConfigurationNode (linkFuel root) root name = None <->
     exists i j x, (i < j)%nat /\ follow root i name = Some x /\ follow root j name = Some x).
Proof.
  split; [|split].
  - intros fuel r (names & Hr & _)%node_resolves. apply node_resolves. exists names. split; [done|].
    apply resolves_short in Hr. unfold linkFuel. lia.
  - intros E. pose proof (fun n => follow_unresolved _ _ n E) as Hf.
    set (l := map (fun n => default name (follow root n name)) (seq 0 (linkFuel root))).
    assert (Hl : forall n x, l !! n = Some x <-> (n < linkFuel root)%nat /\ follow root n name = Some x).
    { intros n x. unfold l. rewrite list_lookup_fmap. destruct (Nat.lt_ge_cases n (linkFuel root)) as [Hn|Hn].
      - rewrite lookup_seq_lt by done. simpl. destruct (Hf n Hn) as (y & t & -> & _). simpl. naive_solver.
      - rewrite lookup_seq_ge by done. simpl. split; [done|intros [? _]; lia]. }
    destruct (NoDup_or_twice l) as [Hd|(i & j & x & Hij & Hi & Hj)].
    + exfalso. assert (Hk : l ⊆ root.*1).
      { intros x Hx. apply list_elem_of_lookup in Hx as [n [Hn Hx]%Hl].
        destruct (Hf n Hn) as (y & t & Hy & Ht). replace x with y by congruence. by eapply link_key. }
      assert (H : (length l <= length root.*1)%nat).
      { apply NoDup_incl_length; [by apply NoDup_ListNoDup|].
        intros x Hx%list_elem_of_In. by apply list_elem_of_In, Hk. }
      unfold l in H. rewrite length_map, length_seq, length_fmap in H. unfold linkFuel in H. lia.
    + apply Hl in Hi as [_ Hi], Hj as [_ Hj]. by exists i, j, x.
  - intros (i & j & x & Hij & Hi & Hj). destruct (_getConfigurationNode _ _ _) as [r|] eqn:E; [|done].
    apply node_resolves in E as (names & Hr & _).
    destruct (follow_resolves _ _ _ _ _ Hr Hi) as (n1 & R1 & L1).
    destruct (follow_resolves _ _ _ _ _ Hr Hj) as (n2 & R2 & L2).
    rewrite (resolves_unique _ _ _ _ _ R1 R2) in L1. lia.
Qed.

End Links.

(** ** Overrides *)

(** A value that can be written in ACPI: no empty dictionary, and not the two strings
    that stand for strings. *)
Inductive writable : OSObject -> Prop :=
| write_string s : s <> ">>y"%string -> s <> ">>n"%string -> writable (OSString s)
| write_number z : writable (OSNumber z)
| write_boolean b : writable (OSBoolean b)
| write_data l : writable (OSData l)
| write_array l : Forall writable l -> writable (OSArray l)
| write_dictionary d : d <> [] -> NoDup d.*1 -> Forall (fun kv => writable kv.2) d -> writable (OSDictionary d).

(** The package written for a value: booleans and the strings that look like them
    escaped, an array marked by an empty one, a dictionary as keys and values. *)
Fixpoint encodeObject (o : OSObject) : OSObject :=
  match o with
  | OSString s => OSString (if bool_decide (s = ">y"%string) then ">>y" else
                            if bool_decide (s = ">n"%string) then ">>n" else s)
  | OSBoolean b => OSString (if b then ">y" else ">n")
  | OSArray l => OSArray (OSArray [] :: map encodeObject l)
  | OSDictionary d => OSArray (concat (map (fun '(k, o) => [OSString k; encodeObject o]) d))
  | o => o
  end.

(** What a translation makes of an object: its result, or the object as it is then. *)
Definition translated (o : OSObject) : OSObject := let '(o', t) := translateEntry o in default o' t.

Lemma translateString_encode s : s <> ">>y"%string -> s <> ">>n"%string ->
  translated (encodeObject (OSString s)) = OSString s.
Proof.
  intros H1 H2. unfold translated. simpl.
  destruct (bool_decide_reflect (s = ">y"%string)) as [->|H3]; [done|].
  destruct (bool_decide_reflect (s = ">n"%string)) as [->|H4]; [done|].
  assert (E : translateString s = None); [|by rewrite E].
  unfold translateString. repeat (case_match; try done); subst; congruence.
Qed.

Lemma translateEntries_map (f : OSObject -> OSObject) l :
  translateEntries translateEntry (map f l) = map (fun o => translated (f o)) l.
Proof.
  induction l as [|o l IH]; [done|]. simpl. unfold translated at 1. destruct (translateEntry (f o)). by rewrite IH.
Qed.

Lemma translatePairs_flat (f : OSObject -> OSObject) (d acc : OSDict) :
  NoDup (acc.*1 ++ d.*1) -> Forall (fun kv => translated (f kv.2) = kv.2) d ->
  (translatePairs translateEntry (concat (map (fun '(k, o) => [OSString k; f o]) d)) acc).2 = Some (acc ++ d).
Proof.
  revert acc. induction d as [|[k o] d IH]; intros acc Hk Hd; [by rewrite app_nil_r|].
  inversion Hd as [|? ? Ho Hd']; subst. simpl in Ho. simpl. unfold translated in Ho.
  destruct (translateEntry (f o)) as [o' t]. rewrite Ho.
  csimpl in Hk. assert (Hn : k ∉ acc.*1).
  { intros Hx. apply NoDup_app in Hk as (_ & Hk & _). apply (Hk _ Hx), list_elem_of_here. }
  rewrite (setObject_new _ _ _ Hn). specialize (IH (acc ++ [(k, o)])).
  rewrite fmap_app, <- !app_assoc in IH. specialize (IH Hk Hd').
  destruct (translatePairs _ _ _) as [l r]. simpl in *. rewrite IH. done.
Qed.

Lemma flat_even (f : OSObject -> OSObject) (d : OSDict) :
  Z.odd (Z.of_nat (length (concat (map (fun '(k, o) => [OSString k; f o]) d)))) = false.
Proof.
  induction d as [|[k o] d IH]; [done|]. simpl length.
  rewrite !Nat2Z.inj_succ, Z.odd_succ, Z.even_succ. exact IH.
Qed.

(** C39: an override is read as it was meant.  Every value without an empty dictionary and
    without the strings ">>y" and ">>n", however deep, is what the translation makes
    of the package written for it. *)
Theorem override_roundtrip o : writable o -> translated (encodeObject o) = o.
Proof.
  induction o as [s|z|b|l|l IH|d IH|] using OSObject_nested_ind; intros Ho; try done.
  - inversion Ho. by apply translateString_encode.
  - by destruct b.
  - inversion Ho as [| | | |? Hl|]; subst. unfold translated. simpl. f_equal. rewrite translateEntries_map.
    rewrite <- (map_id l) at 2. apply map_ext_in. intros o Hin%list_elem_of_In.
    apply (proj1 (Forall_forall _ _) IH o Hin), (proj1 (Forall_forall _ _) Hl o Hin).
  - inversion Ho as [| | | | |? Hne Hk Hd]; subst. unfold translated. simpl.
    assert (Hf : Forall (fun kv => translated (encodeObject kv.2) = kv.2) d).
    { apply Forall_forall. intros kv Hin. apply (proj1 (Forall_forall _ _) IH kv Hin), (proj1 (Forall_forall _ _) Hd kv Hin). }
    pose proof (flat_even encodeObject d) as Hodd. pose proof (translatePairs_flat encodeObject d [] Hk Hf) as E.
    destruct d as [|[k o] d]; [done|]. cbn [map concat app] in *. unfold translateArray. rewrite Hodd.
    destruct (translatePairs _ _ _) as [l' r]. cbn [snd] in E. by subst.
Qed.

Lemma override_roundtrip_witness :
  let o := OSDictionary [("Keyboard"%string, OSDictionary [("Swap"%string, OSBoolean true);
             ("Keys"%string, OSArray [OSString ">y"; OSArray []; OSNumber 4])])] in
  writable o /\ translated (encodeObject o) = o.
Proof.
  intros o. assert (Hw : writable o); [|split; [done|by apply override_roundtrip]].
  constructor; [done|apply NoDup_singleton|]. constructor; [|constructor]. constructor; [done| |].
  - apply NoDup_cons. split; [by intros ?%list_elem_of_singleton|apply NoDup_singleton].
  - repeat constructor; done.
Defined.

(** *** Translation keeps objects well made *)

Record trans_ok (o : OSObject) : Prop := {
  trans_object : object_ok (translateEntry o).1;
  trans_result : forall t, (translateEntry o).2 = Some t -> object_ok t }.

Lemma trans_ok_default o : trans_ok o -> object_ok (translated o).
Proof. intros [H1 H2]. unfold translated. destruct (translateEntry o) as [o' [t|]]; simpl in *; auto. Qed.

Lemma translateEntries_ok l : Forall trans_ok l -> Forall object_ok (translateEntries translateEntry l).
Proof.
  induction 1 as [|o l Ho _ IH]; simpl; [constructor|]. apply trans_ok_default in Ho. unfold translated in Ho.
  destruct (translateEntry o). by constructor.
Qed.

Lemma translatePairs_ok n l acc : (length l <= n)%nat -> Forall object_ok l -> Forall trans_ok l -> dict_ok acc ->
  Forall object_ok (translatePairs translateEntry l acc).1 /\
  (forall d, (translatePairs translateEntry l acc).2 = Some d -> dict_ok d).
Proof.
  revert l acc. induction n as [|n IH]; intros l acc Hn Hl Ht Ha.
  { destruct l; [|simpl in Hn; lia]. split; [done|by intros ? [= <-]]. }
  destruct l as [|k [|v l]]; [split; [done|by intros ? [= <-]]|by destruct k|].
  destruct k as [key| | | | | |]; try (by split).
  apply Forall_cons in Hl as [Hkey Hl]. apply Forall_cons in Ht as [_ Ht].
  apply Forall_cons in Hl as [_ Hl]. apply Forall_cons in Ht as [Hv Ht].
  pose proof (trans_ok_default _ Hv) as Hd. destruct Hv as [Hv _]. unfold translated in Hd. simpl.
  destruct (translateEntry v) as [v' t]. simpl in Hv.
  destruct (IH l (setObject acc key (default v' t)) ltac:(simpl in Hn; lia) Hl Ht (dict_ok_set _ _ _ Ha Hd)) as [I1 I2].
  destruct (translatePairs translateEntry l _) as [l' r]. simpl in *. split; [by repeat constructor|done].
Qed.

Lemma translateArray_ok l : Forall object_ok l -> Forall trans_ok l ->
  Forall object_ok (translateArray translateEntry l).1 /\
  (forall t, (translateArray translateEntry l).2 = Some t -> object_ok t).
Proof.
  intros Hl Ht. assert (Hp := translatePairs_ok _ l [] (le_n _) Hl Ht (ok_dictionary [] (NoDup_nil_2) (Forall_nil_2 _))).
  assert (Hdict : Forall object_ok (if Z.odd (Z.of_nat (length l)) then (l, None)
      else let '(l', r) := translatePairs translateEntry l [] in (l', OSDictionary <$> r)).1 /\
    (forall t, (if Z.odd (Z.of_nat (length l)) then (l, None)
      else let '(l', r) := translatePairs translateEntry l [] in (l', OSDictionary <$> r)).2 = Some t -> object_ok t)).
  { destruct (Z.odd _); [by split|]. destruct (translatePairs _ _ _) as [l' [d|]]; simpl in *; [|by split; [apply Hp|]].
    split; [apply Hp|]. intros t [= <-]. by apply Hp. }
  destruct l as [|[s|z|b|data|[|x l0]|d|] l]; try exact Hdict; [done|].
  apply Forall_cons in Ht as [_ Ht]. apply translateEntries_ok in Ht. split; [done|]. intros t [= <-]. by constructor.
Qed.

Lemma translate_ok o : object_ok o -> trans_ok o.
Proof.
  induction o as [s|z|b|l|l IH|d IH|] using OSObject_nested_ind; intros Ho; try (by split).
  - split; [done|]. simpl. unfold translateString. intros t.
    repeat (case_match; try done); intros [= <-]; constructor.
  - inversion Ho as [| | | |? Hl| |]; subst. assert (Ht : Forall trans_ok l).
    { apply Forall_forall. intros o Hin. apply (proj1 (Forall_forall _ _) IH o Hin), (proj1 (Forall_forall _ _) Hl o Hin). }
    destruct (translateArray_ok l Hl Ht) as [H1 H2]. split; simpl; destruct (translateArray _ _); simpl in *; [by constructor|done].
Qed.

Lemma getConfigurationOverride_ok r d :
  (forall o, r = Some o -> object_ok o) -> getConfigurationOverride r = Some d -> dict_ok d.
Proof.
  intros Hr. unfold getConfigurationOverride. destruct r as [o|]; [|done]. specialize (Hr o eq_refl). simpl.
  destruct o as [| | | |l| |]; try done. simpl. inversion Hr as [| | | |? Hl| |]; subst.
  destruct (translateArray_ok l Hl) as [_ H]; [by eapply Forall_impl; [|exact translate_ok]|].
  destruct (translateArray translateEntry l).2 as [t|]; [|done]. specialize (H t eq_refl). simpl.
  destruct t; try done. by intros [= <-].
Qed.

(** ** Precedence *)

Lemma nodeOf_ok root name d : dict_ok root -> nodeOf root name = Some d -> dict_ok d.
Proof.
  unfold nodeOf. intros Hr. destruct (getObject root name) as [o|] eqn:E; [|done].
  apply (dict_ok_get _ _ _ Hr) in E. simpl. destruct o; try done. by intros [= <-].
Qed.

Lemma configurationNode_ok fuel root name d :
  dict_ok root -> _getConfigurationNode fuel root name = Some (Some d) -> dict_ok d.
Proof.
  intros Hr. revert name. induction fuel as [|fuel IH]; intros name; simpl; [done|].
  destruct (nodeOf root name) as [d'|] eqn:En; [intros [= <-]; by eapply nodeOf_ok|].
  destruct (linkOf root name); [apply IH|done].
Qed.

Lemma platformNode_ok reg expert root d :
  dict_ok root -> getConfigurationNode reg expert root = Some (Some d) -> dict_ok d.
Proof.
  intros Hr. unfold getConfigurationNode. destruct (getPlatformManufacturer _ _) as [m|]; [|done].
  destruct (nodeOf root m) as [node|] eqn:En; [|done]. intros E. eapply configurationNode_ok; [|done].
  by eapply nodeOf_ok.
Qed.

(** The value of a key in a dictionary that may be missing. *)
Definition valueIn (d : option OSDict) (key : string) : option OSObject := d ← d; getObject d key.

(** The first of several answers. *)
Definition firstOf {X} (a b : option X) : option X := match a with Some x => Some x | None => b end.

Lemma mergeProfile_value base over : (forall d, over = Some d -> NoDup d.*1) ->
  (forall key, valueIn (mergeProfile base over) key = firstOf (valueIn over key) (valueIn base key)) /\
  (mergeProfile base over = None <-> over = None /\ base = None).
Proof.
  intros Hk. destruct over as [s|], base as [b|]; simpl; (split; [intros key|naive_solver]); try done.
  - by rewrite getObject_mergeDict by by apply Hk.
  - by destruct (getObject s key).
Qed.

Lemma mergeSection_value base over section :
  (forall d, (over ← over; nodeOf over section) = Some d -> NoDup d.*1) ->
  (forall key, valueIn (mergeSection base over section) key =
     firstOf (valueIn (over ← over; nodeOf over section) key) (valueIn base key)) /\
  (mergeSection base over section = None <-> (over ← over; nodeOf over section) = None /\ base = None).
Proof.
  intros Hk. unfold mergeSection. destruct (over ← over; nodeOf over section) as [s|], base as [b|];
    (split; [intros key; simpl|naive_solver]); try done.
  - by rewrite getObject_mergeDict by by apply Hk.
  - by destruct (getObject s key).
Qed.

Section Precedence.
Context {C A : Type} (expert : option OSDict) (reg : list RegistryEntry) (rmcf : nat -> option OSObject).
#[local] Abbreviation W := (ConfigWorld C A).

(** The overrides in effect: those in the cache, or what RMCF returns now. *)
Definition overrides (w : W) : option OSDict :=
  match _rmcfCache w with
  | Some over => Some over
  | None => if existsb entry_acpi reg then getConfigurationOverride (rmcf (evaluations w)) else None
  end.

Definition asked (w : W) : bool := match _rmcfCache w with Some _ => false | None => existsb entry_acpi reg end.

Lemma loadOverride_eq (w : W) : exists w', loadOverride reg rmcf w = Ok (w', overrides w) /\
  cf_controller w' = cf_controller w /\ _rmcfCache w' = overrides w /\
  evaluations w' = (evaluations w + if asked w then 1 else 0)%nat.
Proof.
  unfold loadOverride, overrides, asked. rewrite (bind_ok _ _ w w (_rmcfCache w)) by done.
  destruct (_rmcfCache w) as [over|] eqn:E.
  { exists w. split; [done|]. split; [done|]. split; [done|lia]. }
  destruct (existsb entry_acpi reg).
  - eexists. split; [done|]. split; [done|]. split; [done|]. simpl. lia.
  - exists w. split; [done|]. split; [done|]. split; [done|lia].
Qed.

Definition cmdbyteLock (w : W) : option bool := _cmdbyteLock (ctl (cf_controller w)).

Lemma onLock_lock (w : W) : cmdbyteLock w = Some false -> exists w', onLock lock w = Ok (w', tt) /\
  cmdbyteLock w' = Some true /\ _rmcfCache w' = _rmcfCache w /\ evaluations w' = evaluations w.
Proof.
  destruct w as [[h t c] cache n]. unfold cmdbyteLock. simpl. intros E. eexists. split.
  { unfold onLock, lock, field, update, gets, modify, mbind, M_bind, bind. simpl. rewrite E. reflexivity. }
  by split_and!.
Qed.

Lemma onLock_unlock (w : W) : cmdbyteLock w = Some true -> exists w', onLock unlock w = Ok (w', tt) /\
  cmdbyteLock w' = Some false /\ _rmcfCache w' = _rmcfCache w /\ evaluations w' = evaluations w.
Proof.
  destruct w as [[h t c] cache n]. unfold cmdbyteLock. simpl. intros E. eexists. split.
  { unfold onLock, unlock, field, update, gets, modify, mbind, M_bind, bind. simpl. rewrite E. reflexivity. }
  by split_and!.
Qed.

(** C39: the configuration of a driver.  When the links of the profile do not go round,
    the call returns; a key's value is the RMCF section's if it has one, else the
    platform's, else the default's, and nothing is returned exactly when all three are
    missing.  RMCF is asked only while nothing is cached, what it gives is cached, and
    the controller's lock, free before, is free again. *)
Theorem configuration_precedence list_ section defaultNode platformNode (w : W) :
  dict_ok list_ -> (forall n o, rmcf n = Some o -> object_ok o) ->
  (forall d, _rmcfCache w = Some d -> dict_ok d) -> cmdbyteLock w = Some false ->
  _getConfigurationNode (linkFuel list_) list_ kDefault = Some defaultNode ->
  getConfigurationNode reg expert list_ = Some platformNode ->
  total (makeConfigurationNode expert reg rmcf (Some list_) section) (fun r w' =>
    let sect := over ← overrides w; nodeOf over section in
    (forall key, valueIn r key = firstOf (valueIn sect key) (firstOf (valueIn platformNode key) (valueIn defaultNode key))) /\
    (r = None <-> sect = None /\ platformNode = None /\ defaultNode = None) /\
    _rmcfCache w' = overrides w /\ evaluations w' = (evaluations w + if asked w then 1 else 0)%nat /\
    cmdbyteLock w' = Some false) w.
Proof.
  intros Hl Hr Hc Hlock Ed Ep.
  assert (Hover : forall d, overrides w = Some d -> dict_ok d).
  { unfold overrides. intros d. destruct (_rmcfCache w) as [over|] eqn:E; [intros [= <-]; by apply Hc|].
    destruct (existsb _ _); [|done]. apply getConfigurationOverride_ok, Hr. }
  assert (Hsect : forall d, (over ← overrides w; nodeOf over section) = Some d -> NoDup d.*1).
  { intros d. destruct (overrides w) as [over|]; [|done]. simpl. intros E. eapply dict_ok_keys, nodeOf_ok; [by apply Hover|done]. }
  assert (Hplat : forall d, platformNode = Some d -> NoDup d.*1).
  { intros d ->. by eapply dict_ok_keys, platformNode_ok. }
  unfold makeConfigurationNode. rewrite Ed, Ep.
  destruct (onLock_lock w Hlock) as (w1 & E1 & C1 & R1 & N1).
  destruct (loadOverride_eq w1) as (w2 & E2 & C2 & R2 & N2).
  destruct (onLock_unlock w2) as (w3 & E3 & C3 & R3 & N3); [unfold cmdbyteLock in *; congruence|].
  assert (Eo : overrides w1 = overrides w) by (unfold overrides; by rewrite R1, N1).
  assert (Ea : asked w1 = asked w) by (unfold asked; by rewrite R1).
  exists w3. eexists. rewrite (bind_ok _ _ _ _ _ E1), (bind_ok _ _ w1 w1 defaultNode), (bind_ok _ _ w1 w1 platformNode) by done.
  rewrite (bind_ok _ _ _ _ _ E2), (bind_ok _ _ _ _ _ E3), Eo. split; [done|].
  destruct (mergeProfile_value defaultNode platformNode) as [P1 P2]; [done|].
  destruct (mergeSection_value (mergeProfile defaultNode platformNode) (overrides w) section) as [S1 S2]; [done|].
  split; [intros key; by rewrite S1, P1|]. split; [rewrite S2, P2; naive_solver|].
  split; [congruence|]. split; [by rewrite N3, N2, N1, Ea|done].
Qed.

End Precedence.

(** A profile with a platform that links to another, and an override in ACPI. *)
Definition bench_profile : OSDict :=
  [("Default"%string, OSDictionary [("A"%string, OSNumber 1); ("B"%string, OSNumber 2); ("C"%string, OSNumber 3)]);
   ("LENOVO"%string, OSDictionary [("T480"%string, OSString "T470;the same pad");
      ("T470"%string, OSDictionary [("B"%string, OSNumber 20); ("C"%string, OSNumber 30)])])].
Definition bench_dsdt : list Z :=
  DSDT_SIGNATURE ++ replicate 6 0 ++ [76; 69; 78; 79; 86; 79] ++ [84; 52; 56; 48; 32; 32; 32; 32] ++ replicate 12 0.
Definition bench_expert : option OSDict :=
  Some [("ACPI Tables"%string, OSDictionary [("DSDT"%string, OSData bench_dsdt)])].
Definition bench_override : OSObject :=
  encodeObject (OSDictionary [("Mouse"%string, OSDictionary [("C"%string, OSBoolean true)])]).
Definition config_bench : ConfigWorld unit unit := mkConfigWorld (mkWorld [] [] initController) None 0.

Lemma bench_profile_ok : dict_ok bench_profile.
Proof. repeat first [done | refine (bool_decide_unpack _ _); vm_compute; exact I | progress simpl | constructor]. Qed.

Lemma bench_override_ok : object_ok bench_override.
Proof. repeat first [done | refine (bool_decide_unpack _ _); vm_compute; exact I | progress simpl | constructor]. Qed.

Lemma configuration_precedence_witness :
  let make := makeConfigurationNode bench_expert [mkEntry [] true] (fun _ => Some bench_override) (Some bench_profile) "Mouse" in
  total make (fun r w' => cmdbyteLock w' = Some false /\ evaluations w' = 1%nat) config_bench /\
  match make config_bench with
  | Ok (_, r) => r = Some [("A"%string, OSNumber 1); ("B"%string, OSNumber 20); ("C"%string, OSBoolean true)]
  | _ => False
  end.
Proof.
  intros make. split; [|vm_compute; reflexivity].
  eapply total_mono.
  - apply (configuration_precedence bench_expert [mkEntry [] true] (fun _ => Some bench_override) bench_profile "Mouse"
      (Some [("A"%string, OSNumber 1); ("B"%string, OSNumber 2); ("C"%string, OSNumber 3)])
      (Some [("B"%string, OSNumber 20); ("C"%string, OSNumber 30)]) config_bench bench_profile_ok).
    + intros _ o [= <-]. exact bench_override_ok.
    + done.
    + reflexivity.
    + vm_compute. reflexivity.
    + vm_compute. reflexivity.
  - cbn beta zeta. intros r w' (_ & _ & _ & E & L). split; [exact L|exact E].
Defined.
