(* ===== verification/Elan.v ===== *)
(** * The Elan touchpad driver: data and packets

    VoodooPS2Trackpad/VoodooPS2Elan.h and the part of VoodooPS2Elan.cpp that does not talk
    to the touchpad: the object, the bytes of an interrupt, the checks that tell the
    packets of the four hardware versions apart, and what each packet does to the
    virtual fingers. *)
From S2P Require Import Prelude PS2Types RingBuffer Bus DriverWorld RingLoop OSTypes Touch Trackpad.

(** ** Constants *)

Definition kPacketLengthMax : Z := 6.

(** The size of the ring buffer. *)
Definition ELAN_RING : Z := kPacketLengthMax * 32.

Definition ETP_FW_ID_QUERY : Z := 0x00.
Definition ETP_FW_VERSION_QUERY : Z := 0x01.
Definition ETP_CAPABILITIES_QUERY : Z := 0x02.
Definition ETP_SAMPLE_QUERY : Z := 0x03.
Definition ETP_RESOLUTION_QUERY : Z := 0x04.
Definition ETP_REGISTER_READ : Z := 0x10.
Definition ETP_REGISTER_WRITE : Z := 0x11.
Definition ETP_REGISTER_READWRITE : Z := 0x00.
Definition ETP_PS2_CUSTOM_COMMAND : Z := 0xf8.
Definition ETP_PS2_COMMAND_TRIES : nat := 3.
Definition ETP_PS2_COMMAND_DELAY : Z := 500.
Definition ETP_READ_BACK_TRIES : nat := 5.
Definition ETP_READ_BACK_DELAY : Z := 2000.
Definition ETP_R10_ABSOLUTE_MODE : Z := 0x04.
Definition ETP_EDGE_FUZZ_V1 : Z := 32.
Definition ETP_XMIN_V1 : Z := 0 + ETP_EDGE_FUZZ_V1.
Definition ETP_XMAX_V1 : Z := 576 - ETP_EDGE_FUZZ_V1.
Definition ETP_YMIN_V1 : Z := 0 + ETP_EDGE_FUZZ_V1.
Definition ETP_YMAX_V1 : Z := 384 - ETP_EDGE_FUZZ_V1.
Definition ETP_XMIN_V2 : Z := 0.
Definition ETP_XMAX_V2 : Z := 1152.
Definition ETP_YMIN_V2 : Z := 0.
Definition ETP_YMAX_V2 : Z := 768.
Definition ETP_MAX_FINGERS : Z := 5.
Definition ETP_WEIGHT_VALUE : Z := 5.

(** [PACKET_UNKNOWN] and the others. *)
Inductive ElanPacketType :=
| PACKET_UNKNOWN | PACKET_DEBOUNCE | PACKET_V3_HEAD | PACKET_V3_TAIL
| PACKET_V4_HEAD | PACKET_V4_MOTION | PACKET_V4_STATUS | PACKET_TRACKPOINT.

(** [ETP_NEW_IC_SMBUS_HOST_NOTIFY]; the comparison with zero is what the macro yields. *)
Definition newIcSmbusHostNotify (fw_version : Z) : bool :=
  (Z.land fw_version 0x0f2000 =? 0x0f2000) && (0 <? Z.land fw_version 0x0000ff).

(** ** The object *)

Record elan_virtual_finger_state := mkElanFinger {
  vf_prev : TouchCoordinates;
  vf_now : TouchCoordinates;
  vf_pressure : Z;
  vf_width : Z;
  vf_touch : bool;
  vf_button : bool }.

Record elantech_device_info := mkInfo {
  capabilities : list Z;
  samples : list Z;
  debug : Z;
  hw_version : Z;
  fw_version : Z;
  x_min : Z; y_min : Z; x_max : Z; y_max : Z;
  x_res : Z; y_res : Z;
  x_traces : Z; y_traces : Z;
  width : Z;
  bus : Z;
  paritycheck : bool;
  jumpy_cursor : bool;
  reports_pressure : bool;
  crc_enabled : bool;
  set_hw_resolution : bool;
  is_buttonpad : bool;
  has_trackpoint : bool;
  has_middle_button : bool }.

(** The registers the driver writes, and [mt[0]]: no other is used. *)
Record elantech_data := mkData {
  reg_07 : Z; reg_10 : Z; reg_11 : Z; reg_21 : Z;
  single_finger_reports : Z;
  mt0_x : Z; mt0_y : Z;
  parity : list Z }.

(** The members the settings set. *)
Record ElanSettings := mkSettings {
  wakedelay : Z;
  _trackpointDeadzone : Z;
  _trackpointMultiplierX : Z; _trackpointMultiplierY : Z;
  _trackpointDividerX : Z; _trackpointDividerY : Z;
  _trackpointScrollMultiplierX : Z; _trackpointScrollMultiplierY : Z;
  _trackpointScrollDividerX : Z; _trackpointScrollDividerY : Z;
  _mouseResolution : Z;
  _mouseSampleRate : Z;
  _forceTouchMode : Z;
  maxaftertyping : Z;
  _processusbmouse : bool;
  _processbluetoothmouse : bool;
  _set_hw_resolution : bool;
  usb_mouse_stops_trackpad : bool }.

(** The members that follow the touchpad's packets. *)
Record ElanTouch := mkElanTouch {
  inputEvent : VoodooInputEvent;
  leftButton : Z; rightButton : Z;
  lastLeftButton : Z; lastRightButton : Z;
  lastFingers : Z;
  heldFingers : Z;
  headPacketsCount : Z;
  virtualFinger : list elan_virtual_finger_state }.

(** [_cmdGate] says whether there is one; [attachedHIDPointerDevices] is the set, [usb_notify]
    and [bluetooth_notify] whether the two notifiers of that kind were made. *)
Record ApplePS2Elan := mkElan {
  voodooInputInstance : option Z;
  _device : option Z;
  _interruptHandlerInstalled : bool;
  _powerControlHandlerInstalled : bool;
  _packetByteCount : Z;
  _packetLength : Z;
  _ringBuffer : RingBuffer Z;
  _cmdGate : bool;
  touches : ElanTouch;
  settings : ElanSettings;
  ignoreall : bool;
  keytime : Z;
  attachedHIDPointerDevices : option (list Z);
  usb_notify : bool;
  bluetooth_notify : bool;
  etd : elantech_data;
  info : elantech_device_info }.

Definition noElanFinger : elan_virtual_finger_state := mkElanFinger noCoordinates noCoordinates 0 0 false false.

Definition noElanInfo : elantech_device_info := {|
  capabilities := [0; 0; 0]; samples := [0; 0; 0]; debug := 0; hw_version := 0; fw_version := 0;
  x_min := 0; y_min := 0; x_max := 0; y_max := 0; x_res := 0; y_res := 0; x_traces := 0; y_traces := 0;
  width := 0; bus := 0; paritycheck := false; jumpy_cursor := false; reports_pressure := false;
  crc_enabled := false; set_hw_resolution := false; is_buttonpad := false; has_trackpoint := false;
  has_middle_button := false |}.

Definition initSettings : ElanSettings := {|
  wakedelay := 1000; _trackpointDeadzone := 1;
  _trackpointMultiplierX := 120; _trackpointMultiplierY := 120;
  _trackpointDividerX := 120; _trackpointDividerY := 120;
  _trackpointScrollMultiplierX := 120; _trackpointScrollMultiplierY := 120;
  _trackpointScrollDividerX := 120; _trackpointScrollDividerY := 120;
  _mouseResolution := 0x3; _mouseSampleRate := 200; _forceTouchMode := FORCE_TOUCH_BUTTON;
  maxaftertyping := 500000000; _processusbmouse := true; _processbluetoothmouse := true;
  _set_hw_resolution := false; usb_mouse_stops_trackpad := true |}.

(** The object as its constructor leaves it; [n] is VoodooInput's
    [VOODOO_INPUT_MAX_TRANSDUCERS]. *)
Definition newElan (n : Z) : ApplePS2Elan := {|
  voodooInputInstance := None; _device := None;
  _interruptHandlerInstalled := false; _powerControlHandlerInstalled := false;
  _packetByteCount := 0; _packetLength := 0;
  _ringBuffer := mkRing (replicate (Z.to_nat ELAN_RING) 0) 0 0;
  _cmdGate := false;
  touches := {|
    inputEvent := mkInputEvent (replicate (Z.to_nat n) noTransducer) 0 0;
    leftButton := 0; rightButton := 0; lastLeftButton := 0; lastRightButton := 0;
    lastFingers := 0; heldFingers := 0; headPacketsCount := 0;
    virtualFinger := replicate (Z.to_nat ETP_MAX_FINGERS) noElanFinger |};
  settings := initSettings;
  ignoreall := false; keytime := 0;
  attachedHIDPointerDevices := None; usb_notify := false; bluetooth_notify := false;
  etd := mkData 0 0 0 0 0 0 0 (replicate 256 0);
  info := noElanInfo |}.

(** What the driver tells VoodooInput and the I/O registry. *)
Inductive ElanKey :=
| ekLogicalMaxX | ekLogicalMaxY | ekPhysicalMaxX | ekPhysicalMaxY | ekTransform | ekSupported
| ekSetting (name : string).

Inductive ElanValue := ElanNumber (z : Z) | ElanBoolean (b : bool).

Inductive ElanEvent :=
| ElanTouchEvent (client : Z) (e : VoodooInputEvent)
| ElanTrackpoint (client timestamp buttons dx dy : Z)
| ElanDimensions (client xMin xMax yMin yMax : Z)
| ElanSet (key : ElanKey) (v : ElanValue)
| ElanInject (key : string) (o : OSObject)
| ElanTrackpointSettings (s : ElanSettings)
| ElanInfo (hw fw bus : Z)
| ElanRegister.

(** ** Bytes from the touchpad *)

Definition interruptOccurred (data : Z) : M ApplePS2Elan PS2InterruptResult := fun d =>
  match head_set (_packetByteCount d) (u8 data) (_ringBuffer d) with
  | None => Crash
  | Some rb =>
    let n := u32 (_packetByteCount d + 1) in
    if n =? _packetLength d
    then Ok ({| d with _ringBuffer := advanceHead ELAN_RING (_packetLength d) rb; _packetByteCount := 0 |},
             kPS2IR_packetReady)
    else Ok ({| d with _ringBuffer := rb; _packetByteCount := n |}, kPS2IR_packetBuffering)
  end.

(** The nub passes a byte on once the driver has installed its action. *)
Definition interruptAction (data : Z) : M ApplePS2Elan PS2InterruptResult := fun d =>
  if _interruptHandlerInstalled d then interruptOccurred data d else Ok (d, kPS2IR_packetBuffering).

#[export] Instance elan_driver : BusDriver ApplePS2Elan := {|
  drv_interrupt := interruptAction;
  drv_device := _device;
  drv_installed := _interruptHandlerInstalled |}.

#[export] Instance elan_ring : PacketRing ApplePS2Elan := {|
  ringSize := ELAN_RING;
  ringPacket := _packetLength;
  ringOf := _ringBuffer;
  setRing rb d := {| d with _ringBuffer := rb |} |}.

#[export] Instance elan_configured : Configured ApplePS2Elan ElanSettings ElanEvent := {|
  onSettings f d := {| d with settings := f (settings d) |};
  numberSet name v := ElanSet (ekSetting name) (ElanNumber v);
  number64Set name v := ElanSet (ekSetting name) (ElanNumber v);
  booleanSet name v := ElanSet (ekSetting name) (ElanBoolean v) |}.

(** ** Which packet it is

    [packet] is what [tail()] points at; [None] is a read outside of it. *)

(** [memcmp] with a packet of six bytes. *)
Definition samePacket (packet l : list Z) : option bool :=
  _ ← arr_get packet 5; Some (bool_decide (take 6 packet = l)).

Definition elantechDebounceCheckV2 (packet : list Z) : option bool :=
  samePacket packet [0x84; 0xff; 0xff; 0x02; 0xff; 0xff].

Definition elantechPacketCheckV1 (i : elantech_device_info) (parity : list Z) (packet : list Z) : option bool :=
  p0 ← arr_get packet 0; b1 ← arr_get packet 1; b2 ← arr_get packet 2; b3 ← arr_get packet 3;
  let '(p1, p2) :=
    if fw_version i <? 0x020000
    then (Z.shiftr (Z.land p0 0x20) 5, Z.shiftr (Z.land p0 0x10) 4)
    else (Z.shiftr (Z.land p0 0x10) 4, Z.shiftr (Z.land p0 0x20) 5) in
  let p3 := Z.shiftr (Z.land p0 0x04) 2 in
  q1 ← arr_get parity b1; q2 ← arr_get parity b2; q3 ← arr_get parity b3;
  Some ((q1 =? p1) && (q2 =? p2) && (q3 =? p3)).

Definition elantechPacketCheckV2 (i : elantech_device_info) (packet : list Z) : option bool :=
  p0 ← arr_get packet 0; p1 ← arr_get packet 1; p3 ← arr_get packet 3; p4 ← arr_get packet 4;
  Some (if reports_pressure i then (Z.land p0 0x0c =? 0x04) && (Z.land p3 0x0f =? 0x02)
        else if Z.land p0 0xc0 =? 0x80 then (Z.land p0 0x0c =? 0x0c) && (Z.land p3 0x0e =? 0x08)
        else (Z.land p0 0x3c =? 0x3c) && (Z.land p1 0xf0 =? 0x00) &&
             (Z.land p3 0x3e =? 0x38) && (Z.land p4 0xf0 =? 0x00)).

Definition elantechPacketCheckV3 (i : elantech_device_info) (packet : list Z) : option ElanPacketType :=
  debounce ← samePacket packet [0xc4; 0xff; 0xff; 0x02; 0xff; 0xff];
  p0 ← arr_get packet 0; p3 ← arr_get packet 3;
  Some (if debounce : bool then PACKET_DEBOUNCE
        else if crc_enabled i then
          if Z.land p3 0x09 =? 0x08 then PACKET_V3_HEAD
          else if Z.land p3 0x09 =? 0x09 then PACKET_V3_TAIL
          else PACKET_UNKNOWN
        else if (Z.land p0 0x0c =? 0x04) && (Z.land p3 0xcf =? 0x02) then PACKET_V3_HEAD
        else if (Z.land p0 0x0c =? 0x0c) && (Z.land p3 0xce =? 0x0c) then PACKET_V3_TAIL
        else if Z.land p3 0x0f =? 0x06 then PACKET_TRACKPOINT
        else PACKET_UNKNOWN).

Definition elantechPacketCheckV4 (i : elantech_device_info) (packet : list Z) : option ElanPacketType :=
  p0 ← arr_get packet 0; p3 ← arr_get packet 3; s1 ← arr_get (samples i) 1;
  let packet_type := Z.land p3 0x03 in
  if has_trackpoint i && (Z.land p3 0x0f =? 0x06) then Some PACKET_TRACKPOINT else
  let ic_version := Z.shiftr (Z.land (fw_version i) 0x0f0000) 16 in
  let sanity_check :=
    if crc_enabled i then Z.land p3 0x08 =? 0x00
    else if (ic_version =? 7) && (s1 =? 0x2A) then Z.land p3 0x1c =? 0x10
    else (Z.land p0 0x08 =? 0x00) && (Z.land p3 0x1c =? 0x10) in
  Some (if negb sanity_check then PACKET_UNKNOWN
        else match packet_type with
             | 0 => PACKET_V4_STATUS
             | 1 => PACKET_V4_HEAD
             | 2 => PACKET_V4_MOTION
             | _ => PACKET_UNKNOWN
             end).

(** ** What a packet says of the fingers *)

(** [(int)(sin30deg * h)] and [(int)(cos30deg * h)] for a height [h] of 100. *)
Definition fingerHeight : Z := 100.
Definition fingerDy : Z := 50.
Definition fingerDx : Z := 86.

(** A finger to place: whether it was not there before, and where it is. *)
Definition FingerPlace : Type := bool * Z * Z.

(** Three fingers around a point. *)
Definition threeFingers (fresh : bool) (x y : Z) : list FingerPlace :=
  [(fresh, x, y - fingerHeight); (fresh, x - fingerDx, y + fingerDy); (fresh, x + fingerDx, y + fingerDy)].

Definition placesV1 (lastFingers fingers x y : Z) : list FingerPlace :=
  let fresh := negb (lastFingers =? fingers) in
  if fingers =? 1 then [(fresh, x, y)]
  else if fingers =? 2 then [(fresh, x, y - fingerHeight); (fresh, x + fingerDx, y + fingerDy)]
  else if fingers =? 3 then threeFingers fresh x y
  else [].

(** Versions 2 and 3. *)
Definition placesV2 (lastFingers fingers x1 y1 x2 y2 : Z) : list FingerPlace :=
  let fresh1 := negb (lastFingers =? 1) && negb (lastFingers =? 2) in
  if fingers =? 1 then [(fresh1, x1, y1)]
  else if fingers =? 2 then [(fresh1, x1, y1); (negb (lastFingers =? 2), x2, y2)]
  else if fingers =? 3 then threeFingers (negb (lastFingers =? 3)) x1 y1
  else [].

Definition placeFinger (button : bool) (place : FingerPlace) (f : elan_virtual_finger_state) :
    elan_virtual_finger_state :=
  let '(fresh, x, y) := place in
  let now := {| (vf_now f) with tc_x := u32 x; tc_y := u32 y |} in
  {| f with vf_touch := true; vf_button := button; vf_prev := if fresh : bool then now else vf_now f; vf_now := now |}.

(** [virtualFinger[i] = f(virtualFinger[i])] *)
Definition onFinger (i : Z) (f : elan_virtual_finger_state -> elan_virtual_finger_state)
    (l : list elan_virtual_finger_state) : option (list elan_virtual_finger_state) :=
  s ← arr_get l i; arr_set l i (f s).

Fixpoint placeFingers (button : bool) (i : Z) (places : list FingerPlace) (l : list elan_virtual_finger_state) :
    option (list elan_virtual_finger_state) :=
  match places with
  | [] => Some l
  | p :: places' => l ← onFinger i (placeFinger button p) l; placeFingers button (i + 1) places' l
  end.

(** [virtualFinger[i].touch = false] for the first three. *)
Definition liftThree (l : list elan_virtual_finger_state) : option (list elan_virtual_finger_state) :=
  let lift f := {| f with vf_touch := false |} in
  l ← onFinger 0 lift l; l ← onFinger 1 lift l; onFinger 2 lift l.

(** The common end of the reports of versions 1 to 3. *)
Definition showFingers (p0 fingers : Z) (places : list FingerPlace) (t : ElanTouch) : option ElanTouch :=
  l ← liftThree (virtualFinger t);
  l ← placeFingers (nz (Z.land p0 0x03)) 0 places l;
  Some {| t with leftButton := Z.land p0 0x01; rightButton := Z.land p0 0x02; virtualFinger := l;
                 lastFingers := fingers |}.

(** A coordinate of twelve bits. *)
Definition coordinate12 (hi lo : Z) : Z := Z.lor (Z.shiftl (Z.land hi 0x0f) 8) lo.

Definition fingersV1 (i : elantech_device_info) (p0 p1 : Z) : Z :=
  if fw_version i <? 0x020000
  then Z.shiftr (Z.land p1 0x80) 7 + Z.shiftr (Z.land p1 0x30) 4
  else Z.shiftr (Z.land p0 0xc0) 6.

(** The first two reports of one finger are dropped on some firmware: whether this one
    is, and the count after it. *)
Definition jumpy (i : elantech_device_info) (reports fingers : Z) : bool * Z :=
  if jumpy_cursor i then
    if negb (fingers =? 1) then (false, 0)
    else if reports <? 2 then (true, reports + 1)
    else (false, reports)
  else (false, reports).

Definition pointV1 (i : elantech_device_info) (packet : list Z) : option (Z * Z) :=
  p1 ← arr_get packet 1; p2 ← arr_get packet 2; p3 ← arr_get packet 3;
  Some (Z.lor (Z.shiftl (Z.land p1 0x0c) 6) p2,
        u32 (y_max i - Z.lor (Z.shiftl (Z.land p1 0x03) 8) p3)).

(** Coordinates of a packet of version 2. *)
Definition pointsV2 (i : elantech_device_info) (fingers : Z) (packet : list Z) : option (Z * Z * Z * Z) :=
  p0 ← arr_get packet 0; p1 ← arr_get packet 1; p2 ← arr_get packet 2;
  p3 ← arr_get packet 3; p4 ← arr_get packet 4; p5 ← arr_get packet 5;
  Some (if (fingers =? 3) || (fingers =? 1) then
          (coordinate12 p1 p2, u32 (y_max i - coordinate12 p4 p5), 0, 0)
        else if fingers =? 2 then
          (Z.shiftl (Z.lor (Z.shiftl (Z.land p0 0x10) 4) p1) 2,
           u32 (y_max i - Z.shiftl (Z.lor (Z.shiftl (Z.land p0 0x20) 3) p2) 2),
           Z.shiftl (Z.lor (Z.shiftl (Z.land p3 0x10) 4) p4) 2,
           u32 (y_max i - Z.shiftl (Z.lor (Z.shiftl (Z.land p3 0x20) 3) p5) 2))
        else (0, 0, 0, 0)).

(** A trackpoint packet: buttons and motion, if its constant bits are right. *)
Definition trackpointOf (p0 p1 p2 p3 p4 p5 : Z) : option (Z * Z * Z) :=
  let t := Z.lor (Z.lor p0 (Z.shiftl p1 8)) (Z.lor (Z.shiftl p2 16) (Z.shiftl p3 24)) in
  let signature := clear_bits t 7 in
  if negb (signature =? 0x06000030) && negb (signature =? 0x16008020) &&
     negb (signature =? 0x26800010) && negb (signature =? 0x36808000) then None else
  Some (Z.lor (Z.lor (Z.land p0 0x1) (Z.land p0 0x4)) (Z.land p0 0x2),
        p4 - Z.shiftl (Z.lxor p1 0x80) 1,
        Z.shiftl (Z.lxor p2 0x80) 1 - p5).

Definition decodeTrackpoint (packet : list Z) : option (option (Z * Z * Z)) :=
  p0 ← arr_get packet 0; p1 ← arr_get packet 1; p2 ← arr_get packet 2;
  p3 ← arr_get packet 3; p4 ← arr_get packet 4; p5 ← arr_get packet 5;
  Some (trackpointOf p0 p1 p2 p3 p4 p5).

(** *** Version 4 *)

(** One round of the loop of [processPacketStatusV4]. *)
Fixpoint statusFingers (fingers i : Z) (l : list elan_virtual_finger_state) :
    list elan_virtual_finger_state * Z :=
  match l with
  | [] => ([], 0)
  | f :: l' =>
    let '(l'', count) := statusFingers fingers (i + 1) l' in
    let touch := nz (Z.land fingers (Z.shiftl 1 i)) in
    ({| f with vf_touch := touch |} :: l'', if touch then count + 1 else count)
  end.

Definition processStatus (packet : list Z) (t : ElanTouch) : option (ElanTouch * bool) :=
  p0 ← arr_get packet 0; p1 ← arr_get packet 1;
  let '(l, count) := statusFingers (Z.land p1 0x1f) 0 (virtualFinger t) in
  Some ({| t with leftButton := Z.land p0 0x1; rightButton := Z.land p0 0x2; virtualFinger := l;
                  heldFingers := count; headPacketsCount := 0 |}, count =? 0).

Definition headFinger (p0 pres traces x y : Z) (f : elan_virtual_finger_state) : elan_virtual_finger_state := {|
  vf_prev := vf_now f;
  vf_now := {| (vf_now f) with tc_x := u32 x; tc_y := u32 y |};
  vf_pressure := u8 pres;
  vf_width := u8 traces;
  vf_touch := vf_touch f;
  vf_button := nz (Z.land p0 0x3) |}.

(** The result also says whether the fingers are to be sent. *)
Definition processHead (i : elantech_device_info) (packet : list Z) (t : ElanTouch) : option (ElanTouch * bool) :=
  p0 ← arr_get packet 0; p1 ← arr_get packet 1; p2 ← arr_get packet 2;
  p3 ← arr_get packet 3; p4 ← arr_get packet 4; p5 ← arr_get packet 5;
  let id := Z.shiftr (Z.land p3 0xe0) 5 - 1 in
  let t := {| t with leftButton := Z.land p0 0x1; rightButton := Z.land p0 0x2;
                     headPacketsCount := s32 (headPacketsCount t + 1) |} in
  if id <? 0 then Some (t, false) else
  let x := coordinate12 p1 p2 in
  let y := s32 (y_max i - coordinate12 p4 p5) in
  let pres := Z.lor (Z.land p1 0xf0) (Z.shiftr (Z.land p4 0xf0) 4) in
  let traces := Z.shiftr (Z.land p0 0xf0) 4 in
  l ← onFinger id (headFinger p0 pres traces x y) (virtualFinger t);
  let t := {| t with virtualFinger := l |} in
  if headPacketsCount t =? heldFingers t then Some ({| t with headPacketsCount := 0 |}, true)
  else Some (t, false).

Definition moveFinger (p0 dx dy : Z) (f : elan_virtual_finger_state) : elan_virtual_finger_state :=
  {| f with vf_button := nz (Z.land p0 0x3); vf_prev := vf_now f;
     vf_now := {| (vf_now f) with tc_x := u32 (tc_x (vf_now f) + dx); tc_y := u32 (tc_y (vf_now f) - dy) |} |}.

Definition processMotion (packet : list Z) (t : ElanTouch) : option (ElanTouch * bool) :=
  p0 ← arr_get packet 0; p1 ← arr_get packet 1; p2 ← arr_get packet 2;
  p3 ← arr_get packet 3; p4 ← arr_get packet 4; p5 ← arr_get packet 5;
  let t := {| t with leftButton := Z.land p0 0x1; rightButton := Z.land p0 0x2 |} in
  let id := Z.shiftr (Z.land p0 0xe0) 5 - 1 in
  if id <? 0 then Some (t, false) else
  let sid := Z.shiftr (Z.land p3 0xe0) 5 - 1 in
  let weight := if nz (Z.land p0 0x10) then ETP_WEIGHT_VALUE else 1 in
  l ← onFinger id (moveFinger p0 (s8 p1 * weight) (s8 p2 * weight)) (virtualFinger t);
  l ← (if 0 <=? sid then onFinger sid (moveFinger p0 (s8 p4 * weight) (s8 p5 * weight)) l else Some l);
  Some ({| t with virtualFinger := l |}, true).
