(* ===== verification/ElanDriver.v ===== *)
(** * The Elan touchpad driver: operations

    The rest of VoodooPS2Elan.cpp, in the world of [DriverWorld.v]: what is sent to
    VoodooInput, the work loop, the commands by which the touchpad is detected and
    set up, settings, messages, power, attached mice and life cycle.
    [absolutetime_to_nanoseconds] is a parameter.  The text of the log is left out. *)
From S2P Require Import Prelude PS2Types RingBuffer Bus DriverWorld RingLoop OSTypes Touch Trackpad Elan.

(** ** What is sent *)

Definition GetBestFingerType (i : Z) : MT2FingerType :=
  match i with
  | 0 => kMT2FingerTypeIndexFinger
  | 1 => kMT2FingerTypeMiddleFinger
  | 2 => kMT2FingerTypeRingFinger
  | 3 => kMT2FingerTypeThumb
  | 4 => kMT2FingerTypeLittleFinger
  | _ => kMT2FingerTypeIndexFinger
  end.

Definition elanTransducer (forceButton buttonpad : bool) (timestamp i count : Z) (state : elan_virtual_finger_state) :
    VoodooInputTransducer :=
  let down := buttonpad && vf_button state in
  let force := forceButton && down in
  {| tr_current := if force then {| (vf_now state) with tc_pressure := 255; tc_width := 10 |} else vf_now state;
     tr_previous := vf_prev state;
     tr_timestamp := timestamp;
     tr_isValid := true;
     tr_isPhysicalButtonDown := if force then false else down;
     tr_isTransducerActive := true;
     tr_supportsPressure := force;
     tr_secondaryId := i;
     tr_fingerType := GetBestFingerType count;
     tr_isFinger := true |}.

(** The first loop of [sendTouchData], on the fingers [l] from index [i] on. *)
Fixpoint elanFill (forceButton buttonpad : bool) (timestamp : Z) (l : list elan_virtual_finger_state) (i count : Z)
    (ts : list VoodooInputTransducer) : option (list VoodooInputTransducer * Z) :=
  match l with
  | [] => Some (ts, count)
  | state :: l' =>
    if negb (vf_touch state) then elanFill forceButton buttonpad timestamp l' (i + 1) count ts else
    ts ← arr_set ts count (elanTransducer forceButton buttonpad timestamp i count state);
    elanFill forceButton buttonpad timestamp l' (i + 1) (count + 1) ts
  end.

(** A slot that is not used. *)
Definition elanClear (t : VoodooInputTransducer) : VoodooInputTransducer :=
  {| t with tr_isValid := false; tr_isPhysicalButtonDown := false; tr_isTransducerActive := false |}.

(** The three loops. *)
Definition elanTransducers (d : ApplePS2Elan) (timestamp : Z) : option (list VoodooInputTransducer * Z) :=
  '(ts, count) ← elanFill (_forceTouchMode (settings d) =? FORCE_TOUCH_BUTTON) (is_buttonpad (info d)) timestamp
                   (virtualFinger (touches d)) 0 0 (ev_transducers (inputEvent (touches d)));
  ts ← (if 4 <=? count then assignThumb count ts else Some ts);
  Some (take (Z.to_nat count) ts ++ map elanClear (drop (Z.to_nat count) ts), count).

(** The buttons of the report that goes with the touches, if there is one. *)
Definition reportedButtons (t : ElanTouch) (count : Z) : option Z :=
  if count =? 0 then Some (Z.lor (leftButton t) (rightButton t)) else
  let left := negb (lastLeftButton t =? leftButton t) in
  let right := negb (lastRightButton t =? rightButton t) in
  if left || right
  then Some (Z.lor (if left then leftButton t else 0) (if right then rightButton t else 0))
  else None.

(** The physical size of an axis; [None] is a division by zero. *)
Definition physicalMax (max min res : Z) : option Z :=
  if res =? 0 then None else Some (u32 (u32 (max - min + 1) * 100) / res).

Section Driver.
Context {B : Type} `{PS2Bus B} (absolutetime_to_nanoseconds : Z -> Z).
#[local] Abbreviation W := (DrvWorld B ApplePS2Elan ElanEvent).
#[local] Abbreviation C := (M W).

Definition setTouches (f : ElanTouch -> ElanTouch) : C unit :=
  dset (fun d => {| d with touches := f (touches d) |}).

(** [messageClient] with a client that may be null. *)
Definition tellClient (e : Z -> ElanEvent) : C unit :=
  client ← dget voodooInputInstance;
  match client with Some c => tell (e c) | None => ret tt end.

Definition sendTouchData : C unit :=
  now ← gets now;
  let timestamp := u64 now in
  let timestamp_ns := absolutetime_to_nanoseconds timestamp in
  quiet ← dget (fun d => u64 (timestamp_ns - keytime d) <? maxaftertyping (settings d));
  if quiet : bool then ret tt else
  r ← dget (fun d => elanTransducers d timestamp);
  '(ts, count) ← deref r;
  let e := mkInputEvent ts (u8 count) timestamp in
  setTouches (fun t => {| t with inputEvent := e |}) ;;
  tellClient (fun c => ElanTouchEvent c e) ;;
  buttonpad ← dget (fun d => is_buttonpad (info d));
  if buttonpad : bool then ret tt else
  buttons ← dget (fun d => reportedButtons (touches d) count);
  (match buttons with
   | Some b => tellClient (fun c => ElanTrackpoint c timestamp b 0 0)
   | None => ret tt
   end) ;;
  setTouches (fun t => {| t with lastLeftButton := leftButton t; lastRightButton := rightButton t |}).

(** The properties of the pad's size. *)
Definition setDimensions : C unit :=
  i ← dget info;
  tell (ElanSet ekLogicalMaxX (ElanNumber (u32 (x_max i - x_min i)))) ;;
  tell (ElanSet ekLogicalMaxY (ElanNumber (u32 (y_max i - y_min i)))) ;;
  px ← deref (physicalMax (x_max i) (x_min i) (x_res i));
  tell (ElanSet ekPhysicalMaxX (ElanNumber px)) ;;
  py ← deref (physicalMax (y_max i) (y_min i) (y_res i));
  tell (ElanSet ekPhysicalMaxY (ElanNumber py)).

Definition elantechRescale (x y : Z) : C unit :=
  i ← dget info;
  dset (fun d => {| d with info := {| (info d) with
    x_max := if x_max i <? x then x else x_max i;
    y_max := if y_max i <? y then y else y_max i |} |}) ;;
  when ((x_max i <? x) || (y_max i <? y))
    (setDimensions ;;
     i ← dget info;
     tellClient (fun c => ElanDimensions c (s32 (x_min i)) (s32 (x_max i)) (s32 (y_min i)) (s32 (y_max i)))).

(** ** Reports *)

(** [showFingers] and [sendTouchData]. *)
Definition reportFingers (p0 fingers : Z) (places : Z -> list FingerPlace) : C unit :=
  dstep (fun d => t ← showFingers p0 fingers (places (lastFingers (touches d))) (touches d);
                  Some {| d with touches := t |}) ;;
  sendTouchData.

Definition elantechReportAbsoluteV1 (packet : list Z) : C unit :=
  p0 ← deref (arr_get packet 0); p1 ← deref (arr_get packet 1);
  i ← dget info;
  let fingers := fingersV1 i p0 p1 in
  reports ← dget (fun d => single_finger_reports (etd d));
  let '(discard, reports) := jumpy i reports fingers in
  dset (fun d => {| d with etd := {| (etd d) with single_finger_reports := reports |} |}) ;;
  if discard : bool then ret tt else
  '(x, y) ← deref (pointV1 i packet);
  reportFingers p0 fingers (fun last => placesV1 last fingers x y).

Definition elantechReportAbsoluteV2 (packet : list Z) : C unit :=
  p0 ← deref (arr_get packet 0);
  let fingers := Z.shiftr (Z.land p0 0xc0) 6 in
  i ← dget info;
  '(x1, y1, x2, y2) ← deref (pointsV2 i fingers packet);
  reportFingers p0 fingers (fun last => placesV2 last fingers x1 y1 x2 y2).

Definition elantechReportAbsoluteV3 (packetType : ElanPacketType) (packet : list Z) : C unit :=
  p0 ← deref (arr_get packet 0); p1 ← deref (arr_get packet 1); p2 ← deref (arr_get packet 2);
  p4 ← deref (arr_get packet 4); p5 ← deref (arr_get packet 5);
  let fingers := Z.shiftr (Z.land p0 0xc0) 6 in
  let x := coordinate12 p1 p2 in
  let y := coordinate12 p4 p5 in
  if (fingers =? 3) || (fingers =? 1) then
    elantechRescale x y ;;
    i ← dget info;
    reportFingers p0 fingers (fun last => placesV2 last fingers x (u32 (y_max i - y)) 0 0)
  else if fingers =? 2 then
    match packetType with
    | PACKET_V3_HEAD =>
      dset (fun d => {| d with etd := {| (etd d) with mt0_x := x; mt0_y := u32 (y_max (info d) - y) |} |})
    | _ =>
      x1 ← dget (fun d => mt0_x (etd d)); y1 ← dget (fun d => mt0_y (etd d));
      elantechRescale x y ;;
      i ← dget info;
      reportFingers p0 fingers (fun last => placesV2 last fingers x1 y1 x (u32 (y_max i - y)))
    end
  else reportFingers p0 fingers (fun last => []).

(** A packet of version 4, and [sendTouchData] if it asks for it. *)
Definition reportV4 (f : ApplePS2Elan -> option (ElanTouch * bool)) : C unit :=
  r ← dget f; '(t, send) ← deref r;
  setTouches (fun _ => t) ;; when send sendTouchData.

Definition elantechReportAbsoluteV4 (packetType : ElanPacketType) (packet : list Z) : C unit :=
  match packetType with
  | PACKET_V4_STATUS => reportV4 (fun d => processStatus packet (touches d))
  | PACKET_V4_HEAD => reportV4 (fun d => processHead (info d) packet (touches d))
  | PACKET_V4_MOTION => reportV4 (fun d => processMotion packet (touches d))
  | _ => ret tt
  end.

Definition elantechReportTrackpoint (packet : list Z) : C unit :=
  r ← deref (decodeTrackpoint packet);
  match r with
  | None => ret tt
  | Some (buttons, dx, dy) =>
    now ← gets now;
    let timestamp := u64 now in
    dset (fun d => {| d with keytime := absolutetime_to_nanoseconds timestamp |}) ;;
    tellClient (fun c => ElanTrackpoint c timestamp buttons dx dy)
  end.

(** What the loop of [packetReady] does with the packet at [tail()]. *)
Definition processPacket (packet : list Z) : C unit :=
  i ← dget info;
  match hw_version i with
  | 1 =>
    p ← dget (fun d => parity (etd d));
    ok ← (if paritycheck i then deref (elantechPacketCheckV1 i p packet) else ret true);
    when ok (elantechReportAbsoluteV1 packet)
  | 2 =>
    debounce ← deref (elantechDebounceCheckV2 packet);
    if debounce : bool then ret tt else
    ok ← (if paritycheck i then deref (elantechPacketCheckV2 i packet) else ret true);
    when ok (elantechReportAbsoluteV2 packet)
  | 3 =>
    packetType ← deref (elantechPacketCheckV3 i packet);
    match packetType with
    | PACKET_UNKNOWN | PACKET_DEBOUNCE => ret tt
    | PACKET_TRACKPOINT => elantechReportTrackpoint packet
    | _ => elantechReportAbsoluteV3 packetType packet
    end
  | 4 =>
    packetType ← deref (elantechPacketCheckV4 i packet);
    match packetType with
    | PACKET_UNKNOWN => ret tt
    | PACKET_TRACKPOINT => elantechReportTrackpoint packet
    | _ => elantechReportAbsoluteV4 packetType packet
    end
  | _ => ret tt
  end.

Definition handlePacket (packet : list Z) : C unit :=
  ignore ← dget ignoreall; when (negb ignore) (processPacket packet).

Definition packetReady : C unit := drainRing handlePacket.

(** ** Commands

    Functions of the source that return non-zero for failure return [true] here, with
    what they have written through their pointer, if they have. *)

Definition elanAck (z : Z) : PS2Command := cmd kPS2C_SendCommandAndCompareAck z.
Definition elanRead : PS2Command := cmd kPS2C_ReadDataPort 0.

(** [_device->submitRequestAndBlock] *)
Definition submitElan (l : list PS2Command) : C PS2Request :=
  dev ← dget drv_device; p ← deref dev; requestDevice p l.

(** [for (i) params[i] = request.commands[i + 1].inOrOut;] *)
Fixpoint readParams (r : PS2Request) (n : nat) (i : Z) : C (list Z) :=
  match n with
  | O => ret []
  | S n => b ← commandResult r i; l ← readParams r n (i + 1); ret (b :: l)
  end.

Definition ps2_command (I : nat) (command : Z) : C (bool * list Z) :=
  r ← submitElan (elanAck command :: replicate I elanRead);
  params ← readParams r I 1;
  ret (negb (completed r (1 + Z.of_nat I)), params).

(** Without parameters. *)
Definition ps2_command0 (command : Z) : C bool := r ← ps2_command 0 command; ret r.1.

(** [a || b || ...] *)
Fixpoint anyFails (l : list (C bool)) : C bool :=
  match l with
  | [] => ret false
  | m :: l' => failed ← m; if failed : bool then ret true else anyFails l'
  end.

(** [do ... while (tries > 0)], with a pause after each try that fails. *)
Fixpoint retrying {X} (tries : nat) (delay : Z) (m : C (bool * X)) : C (bool * X) :=
  r ← m;
  if negb r.1 then ret r else
  onController (bus_sleep delay) ;;
  match tries with
  | O | S O => ret r
  | S tries => retrying tries delay m
  end.

Definition elantech_ps2_command (I : nat) (command : Z) : C (bool * list Z) :=
  retrying ETP_PS2_COMMAND_TRIES ETP_PS2_COMMAND_DELAY (ps2_command I command).
Definition elantech_ps2_command0 (command : Z) : C bool := r ← elantech_ps2_command 0 command; ret r.1.

(** The command, two bits at a time. *)
Definition slicedCommands (command : Z) : list PS2Command :=
  elanAck kDP_SetMouseScaling1To1 ::
  concat (map (fun i => [elanAck kDP_SetMouseResolution; elanAck (Z.land (Z.shiftr (u8 command) i) 3)]) [6; 4; 2; 0]).

Definition ps2_sliced_command (command : Z) : C bool :=
  r ← submitElan (slicedCommands command); ret (negb (completed r 9)).

(** [before || ps2_command<I>(param, command)] *)
Definition query (before : list (C bool)) (m : C (bool * list Z)) : C (bool * option (list Z)) :=
  failed ← anyFails before;
  if failed : bool then ret (true, None) else '(failed, params) ← m; ret (failed, Some params).

Definition synaptics_send_cmd (I : nat) (c : Z) : C (bool * option (list Z)) :=
  query [ps2_sliced_command c] (ps2_command I kDP_GetMouseInformation).

Definition elantech_send_cmd (I : nat) (c : Z) : C (bool * option (list Z)) :=
  query [ps2_command0 ETP_PS2_CUSTOM_COMMAND; ps2_command0 c] (ps2_command I kDP_GetMouseInformation).

Definition send_cmd (I : nat) (c : Z) : C (bool * option (list Z)) :=
  i ← dget info;
  if 3 <=? hw_version i then elantech_send_cmd I c else synaptics_send_cmd I c.

(** ** Detection *)

Definition elantech_is_signature_valid (param : list Z) : option bool :=
  p0 ← arr_get param 0; p1 ← arr_get param 1; p2 ← arr_get param 2;
  Some (if p0 =? 0 then false
        else if p1 =? 0 then true
        else if (0x06 <=? Z.land p0 0x0f) && (Z.land p1 0xaf =? 0x0f) && (p2 <? 40) then true
        else negb (existsb (Z.eqb p2) [200; 100; 80; 60; 40; 20; 10])).

Definition elantech_convert_res (val : Z) : Z := u32 ((val * 10 + 790) * 10) / 254.

Definition setInfo (f : elantech_device_info -> elantech_device_info) : C unit :=
  dset (fun d => {| d with info := f (info d) |}).

Definition elantech_get_resolution_v4 : C bool :=
  '(failed, w) ← elantech_send_cmd 3 ETP_RESOLUTION_QUERY;
  if failed : bool then ret true else
  param ← deref w; p1 ← deref (arr_get param 1); p2 ← deref (arr_get param 2);
  setInfo (fun i => {| i with x_res := elantech_convert_res (Z.land p1 0x0f);
                              y_res := elantech_convert_res (Z.shiftr (Z.land p1 0xf0) 4); bus := p2 |}) ;;
  ret false.

(** The answer to the magic knock. *)
Definition knockAnswer (param : list Z) : option bool :=
  p0 ← arr_get param 0; p1 ← arr_get param 1; p2 ← arr_get param 2;
  Some (negb (p0 =? 0x3c) || negb (p1 =? 0x03) || (negb (p2 =? 0xc8) && negb (p2 =? 0x00))).

Definition elantechDetect : C bool :=
  '(failed, w) ← query (map ps2_command0 [kDP_SetDefaults; kDP_SetDefaultsAndDisable;
      kDP_SetMouseScaling1To1; kDP_SetMouseScaling1To1; kDP_SetMouseScaling1To1])
    (ps2_command 3 kDP_GetMouseInformation);
  if failed : bool then ret true else
  param ← deref w; unexpected ← deref (knockAnswer param);
  if unexpected : bool then ret true else
  '(failed, w) ← synaptics_send_cmd 3 ETP_FW_VERSION_QUERY;
  if failed : bool then ret true else
  param ← deref w; valid ← deref (elantech_is_signature_valid param);
  ret (negb valid).

(** The hardware version of a firmware. *)
Definition hardwareVersion (fw : Z) : option Z :=
  if (fw <? 0x020030) || (fw =? 0x020600) then Some 1 else
  let ver := Z.shiftr (Z.land fw 0x0f0000) 16 in
  if (ver =? 2) || (ver =? 4) then Some 2
  else if ver =? 5 then Some 3
  else if (6 <=? ver) && (ver <=? 15) then Some 4
  else None.

Definition elantechSetProperties : C bool :=
  fw ← dget (fun d => fw_version (info d));
  match hardwareVersion fw with
  | None => ret true
  | Some hw =>
    hires ← dget (fun d => _set_hw_resolution (settings d));
    setInfo (fun i => {| i with
      hw_version := hw; paritycheck := true;
      jumpy_cursor := (fw =? 0x020022) || (fw =? 0x020600);
      debug := if 1 <? hw then 1 else debug i;
      reports_pressure := ((1 <? hw) && (0x020800 <=? fw)) || reports_pressure i;
      crc_enabled := Z.land fw 0x4000 =? 0x4000;
      set_hw_resolution := hires |}) ;;
    dset (fun d => {| d with _packetLength := if hw =? 1 then 4 else 6 |}) ;;
    ret false
  end.

(** The range of version 2, from the answers to two more queries. *)
Definition fixedRangeV2 (fw : Z) : bool := (fw =? 0x020800) || (fw =? 0x020b00) || (fw =? 0x020030).

Definition queryRangeV2 : C bool :=
  i ← dget info;
  let fw := fw_version i in
  if fixedRangeV2 fw then
    setInfo (fun i => {| i with x_min := ETP_XMIN_V2; y_min := ETP_YMIN_V2; x_max := ETP_XMAX_V2; y_max := ETP_YMAX_V2 |}) ;;
    ret false
  else
  '(failed, w) ← send_cmd 3 ETP_FW_ID_QUERY;
  if failed : bool then ret true else
  param ← deref w; p1 ← deref (arr_get param 1);
  c1 ← deref (arr_get (capabilities i) 1); c2 ← deref (arr_get (capabilities i) 2);
  let k := if (0x020800 <? fw) && (fw <? 0x020900) then 1 else 2 in
  let fixed_dpi := nz (Z.land p1 0x10) in
  if (Z.shiftr fw 16 =? 0x14) && fixed_dpi then
    '(failed, w) ← send_cmd 3 ETP_SAMPLE_QUERY;
    if failed : bool then ret true else
    param ← deref w; p1 ← deref (arr_get param 1); p2 ← deref (arr_get param 2);
    setInfo (fun i => {| i with x_max := u32 (Z.quot ((c1 - k) * p1) 2); y_max := u32 (Z.quot ((c2 - k) * p2) 2) |}) ;;
    ret false
  else
  let '(x, y) := if fw =? 0x040216 then (819, 405)
                 else if (fw =? 0x040219) || (fw =? 0x040215) then (900, 500)
                 else (u32 ((c1 - k) * 64), u32 ((c2 - k) * 64)) in
  setInfo (fun i => {| i with x_max := x; y_max := y |}) ;;
  ret false.

(** The range of versions 3 and 4. *)
Definition queryRangeV3 : C bool :=
  '(failed, w) ← send_cmd 3 ETP_FW_ID_QUERY;
  if failed : bool then ret true else
  param ← deref w; p0 ← deref (arr_get param 0); p1 ← deref (arr_get param 1); p2 ← deref (arr_get param 2);
  setInfo (fun i => {| i with x_max := Z.lor (Z.shiftl (Z.land 0x0f p0) 8) p1;
                              y_max := Z.lor (Z.shiftl (Z.land 0xf0 p0) 4) p2 |}) ;;
  ret false.

Definition queryTracesV4 : C bool :=
  i ← dget info;
  c1 ← deref (arr_get (capabilities i) 1); c2 ← deref (arr_get (capabilities i) 2);
  if (c1 <? 2) || (x_max i <? c1) then ret true else
  setInfo (fun i => {| i with width := x_max i / (c1 - 1); x_traces := c1;
    y_traces := if (2 <=? c2) && (c2 <=? y_max i) then c2 else y_traces i |}) ;;
  ret false.

Definition queryRange : C bool :=
  i ← dget info;
  match hw_version i with
  | 1 =>
    setInfo (fun i => {| i with x_min := ETP_XMIN_V1; y_min := ETP_YMIN_V1; x_max := ETP_XMAX_V1; y_max := ETP_YMAX_V1 |}) ;;
    ret false
  | 2 => queryRangeV2
  | 3 => queryRangeV3
  | 4 => failed ← queryRangeV3; if failed : bool then ret true else queryTracesV4
  | _ => ret false
  end.

(** [(param[0] << 16) | (param[1] << 8) | param[2]] *)
Definition firmwareOf (param : list Z) : option Z :=
  p0 ← arr_get param 0; p1 ← arr_get param 1; p2 ← arr_get param 2;
  Some (Z.lor (Z.lor (Z.shiftl p0 16) (Z.shiftl p1 8)) p2).

(** What a query has written to a member. *)
Definition storeWritten (w : option (list Z)) (f : list Z -> elantech_device_info -> elantech_device_info) : C unit :=
  match w with Some l => setInfo (f l) | None => ret tt end.

(** Capabilities and samples. *)
Definition queryCapabilities : C bool :=
  '(failed, w) ← send_cmd 3 ETP_CAPABILITIES_QUERY;
  storeWritten w (fun l i => {| i with capabilities := l |}) ;;
  if failed : bool then ret true else
  i ← dget info;
  if hw_version i =? 1 then ret false else
  '(failed, w) ← send_cmd 3 ETP_SAMPLE_QUERY;
  storeWritten w (fun l i => {| i with samples := l |}) ;;
  ret failed.

Definition elantechQueryInfo : C bool :=
  '(failed, w) ← synaptics_send_cmd 3 ETP_FW_VERSION_QUERY;
  if failed : bool then ret true else
  param ← deref w; fw ← deref (firmwareOf param);
  setInfo (fun i => {| i with fw_version := fw |}) ;;
  unknown ← elantechSetProperties;
  if unknown : bool then ret true else
  failed ← queryCapabilities;
  if failed : bool then ret true else
  i ← dget info;
  s1 ← deref (arr_get (samples i) 1); c0 ← deref (arr_get (capabilities i) 0);
  if (s1 =? 0x74) && (hw_version i =? 0x03) then ret true else
  setInfo (fun i => {| i with has_trackpoint := Z.land c0 0x80 =? 0x80; x_res := 31; y_res := 31 |}) ;;
  (if hw_version i =? 4 then elantech_get_resolution_v4 ;; ret tt else ret tt) ;;
  failed ← queryRange;
  if failed : bool then ret true else
  setInfo (fun i => {| i with is_buttonpad := nz (Z.land (fw_version i) 0x001000) |}) ;;
  setInfo (fun i => {| i with has_middle_button := newIcSmbusHostNotify (fw_version i) && negb (is_buttonpad i) |}) ;;
  ret false.

(** ** Registers *)

Definition registerExists (reg : Z) : bool :=
  negb ((reg <? 0x07) || (0x26 <? reg)) && negb ((0x11 <? reg) && (reg <? 0x20)).

(** The commands before the answer is read, with their retries from version 2 on. *)
Definition readRegister (hw reg : Z) : C (bool * option (list Z)) :=
  let fast selector :=
    query (map elantech_ps2_command0 [ETP_PS2_CUSTOM_COMMAND; selector; ETP_PS2_CUSTOM_COMMAND; reg])
          (elantech_ps2_command 3 kDP_GetMouseInformation) in
  match hw with
  | 1 => query (map ps2_sliced_command [ETP_REGISTER_READ; reg]) (ps2_command 3 kDP_GetMouseInformation)
  | 2 => fast ETP_REGISTER_READ
  | 3 | 4 => fast ETP_REGISTER_READWRITE
  | _ => ret (false, Some [0; 0; 0])
  end.

(** The value, unless the read fails. *)
Definition elantechReadReg (reg : Z) : C (option Z) :=
  if negb (registerExists reg) then ret None else
  i ← dget info;
  '(failed, w) ← readRegister (hw_version i) reg;
  if failed : bool then ret None else
  param ← deref w;
  v ← deref (arr_get param (if hw_version i =? 4 then 1 else 0));
  ret (Some v).

(** The commands of a write, for each hardware version. *)
Definition writeCommands (hw reg val : Z) : list Z :=
  match hw with
  | 2 => [ETP_PS2_CUSTOM_COMMAND; ETP_REGISTER_WRITE; ETP_PS2_CUSTOM_COMMAND; reg; ETP_PS2_CUSTOM_COMMAND; val;
          kDP_SetMouseScaling1To1]
  | 3 => [ETP_PS2_CUSTOM_COMMAND; ETP_REGISTER_READWRITE; ETP_PS2_CUSTOM_COMMAND; reg; ETP_PS2_CUSTOM_COMMAND; val;
          kDP_SetMouseScaling1To1]
  | 4 => [ETP_PS2_CUSTOM_COMMAND; ETP_REGISTER_READWRITE; ETP_PS2_CUSTOM_COMMAND; reg;
          ETP_PS2_CUSTOM_COMMAND; ETP_REGISTER_READWRITE; ETP_PS2_CUSTOM_COMMAND; val; kDP_SetMouseScaling1To1]
  | _ => []
  end.

Definition elantechWriteReg (reg val : Z) : C bool :=
  if negb (registerExists reg) then ret true else
  i ← dget info;
  if hw_version i =? 1 then
    anyFails (map ps2_sliced_command [ETP_REGISTER_WRITE; reg; val] ++ [ps2_command0 kDP_SetMouseScaling1To1])
  else anyFails (map elantech_ps2_command0 (writeCommands (hw_version i) reg val)).

Definition setData (f : elantech_data -> elantech_data) : C unit :=
  dset (fun d => {| d with etd := f (etd d) |}).

(** The registers of absolute mode. *)
Definition writeMode : C bool :=
  i ← dget info;
  match hw_version i with
  | 1 =>
    setData (fun e => {| e with reg_10 := 0x16; reg_11 := 0x8f |}) ;;
    anyFails [elantechWriteReg 0x10 0x16; elantechWriteReg 0x11 0x8f]
  | 2 =>
    setData (fun e => {| e with reg_10 := 0x54; reg_11 := 0x88; reg_21 := 0x60 |}) ;;
    anyFails [elantechWriteReg 0x10 0x54; elantechWriteReg 0x11 0x88; elantechWriteReg 0x21 0x60]
  | 3 =>
    let v := if set_hw_resolution i then 0x0b else 0x01 in
    setData (fun e => {| e with reg_10 := v |}) ;; elantechWriteReg 0x10 v
  | 4 =>
    setData (fun e => {| e with reg_07 := 0x01 |}) ;; elantechWriteReg 0x07 0x01
  | _ => ret false
  end.

Definition readBack : C (bool * Z) :=
  v ← elantechReadReg 0x10;
  ret (match v with Some v => (false, v) | None => (true, 0) end).

Definition elantechSetAbsoluteMode : C bool :=
  failed ← writeMode;
  i ← dget info;
  if (hw_version i =? 4) || failed then ret failed else
  '(failed, val) ← retrying ETP_READ_BACK_TRIES ETP_READ_BACK_DELAY readBack;
  if failed : bool then ret true
  else ret ((hw_version i =? 1) && negb (nz (Z.land val ETP_R10_ABSOLUTE_MODE))).

(** [for (i = 1; i < 256; i++) parity[i] = parity[i & (i - 1)] ^ 1;] *)
Fixpoint parityLoop (l : list Z) (parity : list Z) : option (list Z) :=
  match l with
  | [] => Some parity
  | i :: l' =>
    p ← arr_get parity (Z.land i (i - 1));
    parity ← arr_set parity i (Z.lxor p 1);
    parityLoop l' parity
  end.
Definition parityTable (parity : list Z) : option (list Z) :=
  parity ← arr_set parity 0 1; parityLoop (seqZ 1 255) parity.

Definition elantechSetInputParams : C unit :=
  setDimensions ;;
  tell (ElanSet ekTransform (ElanNumber 0)) ;;
  tell (ElanSet ekSupported (ElanBoolean true)) ;;
  tell ElanRegister.

Definition elantechSetupPS2 : C bool :=
  dstep (fun d => l ← parityTable (parity (etd d)); Some {| d with etd := {| (etd d) with parity := l |} |}) ;;
  failed ← elantechSetAbsoluteMode;
  if failed : bool then ret true else
  elantechSetInputParams ;;
  s ← dget settings;
  submitElan (map elanAck
    [kDP_SetDefaultsAndDisable; kDP_SetMouseSampleRate; _mouseSampleRate s; kDP_SetMouseResolution;
     _mouseResolution s; kDP_SetMouseScaling1To1; kDP_Enable]) ;;
  ret false.

(** The answer is only logged. *)
Definition resetMouse : C unit := ps2_command 2 kDP_Reset ;; ret tt.

Definition setTouchPadEnable (enable : bool) : C unit :=
  ps2_command0 (if enable then kDP_Enable else kDP_SetDefaultsAndDisable) ;; ret tt.

(** ** Settings *)

Definition setting (name : string) (v : ElanValue) : C unit := tell (ElanSet (ekSetting name) v).

(** The members and their names, in the order they are read. *)
Definition int32vars : list (string * (Z -> ElanSettings -> ElanSettings)) :=
  [("WakeDelay"%string, fun v s => {| s with wakedelay := v |});
   ("TrackpointDeadzone"%string, fun v s => {| s with _trackpointDeadzone := v |});
   ("TrackpointMultiplierX"%string, fun v s => {| s with _trackpointMultiplierX := v |});
   ("TrackpointMultiplierY"%string, fun v s => {| s with _trackpointMultiplierY := v |});
   ("TrackpointDividerX"%string, fun v s => {| s with _trackpointDividerX := v |});
   ("TrackpointDividerY"%string, fun v s => {| s with _trackpointDividerY := v |});
   ("TrackpointScrollMultiplierX"%string, fun v s => {| s with _trackpointScrollMultiplierX := v |});
   ("TrackpointScrollMultiplierY"%string, fun v s => {| s with _trackpointScrollMultiplierY := v |});
   ("TrackpointScrollDividerY"%string, fun v s => {| s with _trackpointScrollDividerX := v |});
   ("TrackpointScrollDividerY"%string, fun v s => {| s with _trackpointScrollDividerY := v |});
   ("MouseResolution"%string, fun v s => {| s with _mouseResolution := v |});
   ("MouseSampleRate"%string, fun v s => {| s with _mouseSampleRate := v |});
   ("ForceTouchMode"%string, fun v s => {| s with _forceTouchMode := v |})].
Definition boolvars : list (string * (bool -> ElanSettings -> ElanSettings)) :=
  [("ProcessUSBMouseStopsTrackpad"%string, fun v s => {| s with _processusbmouse := v |});
   ("ProcessBluetoothMouseStopsTrackpad"%string, fun v s => {| s with _processbluetoothmouse := v |});
   ("SetHwResolution"%string, fun v s => {| s with _set_hw_resolution := v |})].

Definition setTrackpointProperties : C unit := s ← dget settings; tell (ElanTrackpointSettings s).

Definition setParamPropertiesGated (config : option OSDict) : C unit :=
  match config with
  | None => ret tt
  | Some config =>
    (match getBoolean config "UseHighRate" with
     | Some v => setting "UseHighRate" (ElanBoolean v) | None => ret tt end) ;;
    for_each int32vars (fun '(name, f) => readInt32 config name f) ;;
    readInt64 config "QuietTimeAfterTyping" (fun v s => {| s with maxaftertyping := v |}) ;;
    for_each boolvars (fun '(name, f) => readBool config name f) ;;
    readLowbit config "USBMouseStopsTrackpad" (fun v s => {| s with usb_mouse_stops_trackpad := v |}) ;;
    dset (fun d => match attachedHIDPointerDevices d with
                   | Some (_ :: _) => {| d with ignoreall := usb_mouse_stops_trackpad (settings d) |}
                   | _ => d
                   end) ;;
    setTrackpointProperties
  end.

Definition setProperties (props : OSObject) : C unit :=
  gate ← dget _cmdGate;
  match asDictionary props with
  | Some dict => when gate (setParamPropertiesGated (Some dict))
  | None => ret tt
  end.

(** The properties for a version of Darwin. *)
Definition injectVersionDependentProperties (version_major version_minor : Z) (config : OSDict) : C unit :=
  match versionProperties version_major version_minor config with
  | Some dict => for_each dict (fun '(key, o) => tell (ElanInject key o))
  | None => ret tt
  end.

(** ** Messages, power, attached mice *)

Inductive ElanMessage :=
| GetDisableTouchpad | SetDisableTouchpad (enable : bool) | ResetTouchpad (reqCode : Z)
| NotifyKeyTime (t : Z) | OtherMessage.

Definition clearPackets (d : ApplePS2Elan) : ApplePS2Elan :=
  {| d with _packetByteCount := 0; _ringBuffer := reset (_ringBuffer d) |}.

(** The reset and setup after a message or sleep. *)
Definition setUpAgain : C unit := resetMouse ;; elantechSetupPS2 ;; setTouchPadEnable true.

(** The result is what [*pResult] is set to. *)
Definition message (m : ElanMessage) : C (option bool) :=
  match m with
  | GetDisableTouchpad => ignore ← dget ignoreall; ret (Some (negb ignore))
  | SetDisableTouchpad enable => dset (fun d => {| d with ignoreall := negb enable |}) ;; ret None
  | ResetTouchpad reqCode =>
    when (reqCode =? 1)
      (setTouchPadEnable false ;;
       ms ← dget (fun d => wakedelay (settings d));
       onController (bus_sleep (u32 ms)) ;;
       dset (fun d => clearPackets {| d with ignoreall := false |}) ;;
       setUpAgain) ;;
    ret None
  | NotifyKeyTime t => dset (fun d => {| d with keytime := t |}) ;; ret None
  | OtherMessage => ret None
  end.

Definition setDevicePowerState (whatToDo : Z) : C unit :=
  if whatToDo =? kPS2C_DisableDevice then setTouchPadEnable false
  else when (whatToDo =? kPS2C_EnableDevice)
    (ms ← dget (fun d => wakedelay (settings d));
     onController (bus_sleep (u32 ms)) ;;
     dset clearPackets ;;
     setUpAgain).

Definition notificationHIDAttachedHandlerGated (bt : BluetoothCodes) (e : HidEvent) (service : Z) : C unit :=
  made ← dget (fun d => if isUsb e then usb_notify d else bluetooth_notify d);
  when made
    (attached ← dget attachedHIDPointerDevices; l ← deref attached;
     let l := hidStep bt e service l in
     dset (fun d => {| d with attachedHIDPointerDevices := Some l;
       ignoreall := if usb_mouse_stops_trackpad (settings d) then
                      match l with
                      | [] => if published e then ignoreall d else false
                      | _ => if published e then true else ignoreall d
                      end
                    else ignoreall d |})).

Definition notificationHIDAttachedHandler (bt : BluetoothCodes) (e : HidEvent) (service : Z) : C unit :=
  gate ← dget _cmdGate; when gate (notificationHIDAttachedHandlerGated bt e service).

(** [flushCollection] on the set, which is then released. *)
Definition unregisterHIDPointerNotifications : C unit :=
  attached ← dget attachedHIDPointerDevices; deref attached ;;
  dset (fun d => {| d with attachedHIDPointerDevices := None |}).

(** ** Life cycle *)

(** [config]: what [makeConfigurationNode] finds, under the controller's lock. *)
Definition probe (version_major version_minor p : Z) (config : option OSDict) : C bool :=
  dset (fun d => {| d with _device := Some p |}) ;;
  onController bus_lock ;;
  onController bus_unlock ;;
  if bool_decide ((c ← config; getBoolean c "DisableDevice") = Some true)
  then dset (fun d => {| d with _device := None |}) ;; ret false
  else
  (match config with
   | Some c => setParamPropertiesGated (Some c) ;; injectVersionDependentProperties version_major version_minor c
   | None => ret tt
   end) ;;
  resetMouse ;;
  failed ← elantechDetect;
  if failed : bool then ret false else
  resetMouse ;;
  failed ← elantechQueryInfo;
  if failed : bool then ret false else
  dset (fun d => {| d with _device := None |}) ;;
  ret true.

Definition handleOpen (forClient : option Z) (isVoodooInput : bool) : C bool :=
  match forClient with
  | Some c => if isVoodooInput then dset (fun d => {| d with voodooInputInstance := Some c |}) ;; ret true else ret false
  | None => ret false
  end.

Definition handleIsOpen (forClient : option Z) : C bool :=
  client ← dget voodooInputInstance;
  ret (match forClient with
       | None => bool_decide (client <> None)
       | Some _ => bool_decide (client = forClient)
       end).

Definition handleClose (forClient : option Z) : C unit :=
  dset (fun d => if bool_decide (forClient = voodooInputInstance d) then {| d with voodooInputInstance := None |} else d).

(** Between taking and giving up the lock. *)
Definition startDevice : C unit :=
  onController bus_lock ;;
  dset (fun d => {| d with attachedHIDPointerDevices := Some [];
                           usb_notify := _processusbmouse (settings d) || usb_notify d;
                           bluetooth_notify := _processbluetoothmouse (settings d) || bluetooth_notify d |}) ;;
  elantechSetupPS2 ;;
  (onController bus_installInterrupt ;; dset (fun d => {| d with _interruptHandlerInstalled := true |})) ;;
  setTouchPadEnable true ;;
  onController bus_unlock.

(** [workLoop], [gate]: there is a work loop, a command gate can be made. *)
Definition start (p : Z) (workLoop gate : bool) : C bool :=
  dset (fun d => {| d with _device := Some p |}) ;;
  i ← dget info;
  tell (ElanInfo (hw_version i) (fw_version i) (bus i)) ;;
  dset (fun d => {| d with _cmdGate := gate |}) ;;
  if negb workLoop || negb gate then dset (fun d => {| d with _device := None |}) ;; ret false else
  startDevice ;;
  onController bus_installPower ;;
  dset (fun d => {| d with _powerControlHandlerInstalled := true |}) ;;
  ret true.

Definition stop (workLoop : bool) : C unit :=
  unregisterHIDPointerNotifications ;;
  setTouchPadEnable false ;;
  when workLoop (dset (fun d => {| d with _cmdGate := false |})) ;;
  i ← dget drv_installed;
  when i (onController bus_uninstallInterrupt ;;
          dset (fun d => {| d with _interruptHandlerInstalled := false |})) ;;
  q ← dget _powerControlHandlerInstalled;
  when q (onController bus_uninstallPower ;; dset (fun d => {| d with _powerControlHandlerInstalled := false |})) ;;
  dset (fun d => {| d with _device := None |}).

End Driver.
