(* ===== verification/ElanSafe.v ===== *)
(** * The Elan driver stays in its arrays

    The invariant of the driver and what keeps it: bytes, packets and touches.  A packet
    of version 4 can name a finger that the driver has no room for; [packet_known]
    says that it does not.  Every packet that names only fingers there are is handled to its
    end, whatever it says, and the work loop ends. *)
From S2P Require Import Prelude PS2Types RingBuffer RingSpec Bus Touch DriverWorld OSTypes KeyboardBench.
From S2P Require Import RingLoop Trackpad Elan ElanDriver.

(** * The invariant *)

(** ** The invariant *)

Record touch_ok (n : Z) (t : ElanTouch) : Prop := {
  to_room : ETP_MAX_FINGERS <= n;
  to_transducers : Z.of_nat (length (ev_transducers (inputEvent t))) = n;
  to_fingers : length (virtualFinger t) = 5%nat }.

Record elan_loose (n : Z) (d : ApplePS2Elan) : Prop := {
  el_touches : touch_ok n (touches d);
  el_parity : length (parity (etd d)) = 256%nat;
  el_capabilities : length (capabilities (info d)) = 3%nat;
  el_samples : length (samples (info d)) = 3%nat;
  el_length : Z.of_nat (length (m_buffer (_ringBuffer d))) = ELAN_RING;
  el_bytes : Forall is_byte (m_buffer (_ringBuffer d)) }.

(** The length of the packets of a version. *)
Definition lengthOf (hw : Z) : Z := if hw =? 1 then 4 else 6.

(** What the queries find. *)
Record resolved (i : elantech_device_info) : Prop := {
  rs_version : 1 <= hw_version i <= 4;
  rs_xres : x_res i <> 0;
  rs_yres : y_res i <> 0 }.

(** [o]: the nub.  A driver whose touchpad is known. *)
Record elan_ok (n : Z) (o : option Z) (d : ApplePS2Elan) : Prop := {
  eo_loose : elan_loose n d;
  eo_device : _device d = o;
  eo_port : forall p, o = Some p -> 0 <= p < kPS2MuxMaxIdx;
  eo_info : resolved (info d);
  eo_packet : _packetLength d = lengthOf (hw_version (info d));
  eo_ring : aligned ELAN_RING (_packetLength d) (_ringBuffer d);
  eo_count : 0 <= _packetByteCount d < _packetLength d }.

(** A driver before that: no byte has come. *)
Record elan_raw (n : Z) (o : option Z) (P : ApplePS2Elan -> Prop) (d : ApplePS2Elan) : Prop := {
  er_loose : elan_loose n d;
  er_device : _device d = o;
  er_port : forall p, o = Some p -> 0 <= p < kPS2MuxMaxIdx;
  er_off : _interruptHandlerInstalled d = false;
  er_ring : m_head (_ringBuffer d) = 0 /\ m_tail (_ringBuffer d) = 0;
  er_count : _packetByteCount d = 0;
  er_also : P d }.

Lemma newElan_raw n : ETP_MAX_FINGERS <= n -> elan_raw n None (fun _ => True) (newElan n).
Proof.
  intros Hn. split; try done. split; [|done..|by apply Forall_replicate].
  split; [done| |done]. cbn. rewrite length_replicate. unfold ETP_MAX_FINGERS in Hn. lia.
Qed.

Lemma lengthOf_ring hw : 0 < lengthOf hw < ELAN_RING /\ ELAN_RING mod lengthOf hw = 0 /\ lengthOf hw <= 6.
Proof. unfold lengthOf. by destruct (hw =? 1). Qed.

Lemma elan_packet_ring n o d : elan_ok n o d ->
  0 < _packetLength d < ELAN_RING /\ ELAN_RING mod _packetLength d = 0.
Proof. intros Hd. rewrite (eo_packet _ _ _ Hd). destruct (lengthOf_ring (hw_version (info d))) as (H1 & H2 & _). by split. Qed.

(** ** Bytes *)

(** The members an interrupt does not touch. *)
Definition elan_frame (d : ApplePS2Elan) : ApplePS2Elan :=
  {| d with _packetByteCount := 0; _ringBuffer := mkRing [] 0 0 |}.

Lemma elan_frame_ok n o d d' : elan_ok n o d -> elan_frame d' = elan_frame d ->
  aligned ELAN_RING (_packetLength d) (_ringBuffer d') -> Forall is_byte (m_buffer (_ringBuffer d')) ->
  0 <= _packetByteCount d' < _packetLength d -> elan_ok n o d'.
Proof.
  intros [[L1 L2 L3 L4 L5 L6] H2 H3 H4 H5 H6 H7] Ef Ha Hb Hc.
  pose proof (al_ring _ _ _ Ha) as [Hl _ _]. destruct d, d'. injection Ef as; subst. split; done.
Qed.

Lemma elan_interrupt_ok n o d data : elan_ok n o d ->
  exists d' r, interruptOccurred data d = Ok (d', r) /\ elan_ok n o d' /\ elan_frame d' = elan_frame d.
Proof.
  intros Hd. destruct (elan_packet_ring _ _ _ Hd) as [Hp Hm].
  pose proof (eo_ring _ _ _ Hd) as Hr. pose proof (eo_count _ _ _ Hd) as Hc.
  pose proof (head_set_spec ELAN_RING (_packetLength d) Hp ltac:(done) Hm _ _ (u8 data) Hr Hc) as E.
  destruct (head_set_aligned ELAN_RING (_packetLength d) _ _ _ _ Hr E) as [H1 _].
  assert (Hb : Forall is_byte (m_buffer {| (_ringBuffer d) with m_buffer :=
    <[Z.to_nat (m_head (_ringBuffer d) + _packetByteCount d) := u8 data]> (m_buffer (_ringBuffer d)) |})).
  { cbn. apply Forall_insert; [apply (el_bytes _ _ (eo_loose _ _ _ Hd))|apply u8_range]. }
  unfold interruptOccurred. rewrite E. revert H1 Hb. generalize {| (_ringBuffer d) with m_buffer :=
    <[Z.to_nat (m_head (_ringBuffer d) + _packetByteCount d) := u8 data]> (m_buffer (_ringBuffer d)) |}.
  intros rb H1 Hb. unfold ELAN_RING, kPacketLengthMax in Hp. cbv zeta. rewrite u32_small by lia.
  destruct (Z.eqb_spec (_packetByteCount d + 1) (_packetLength d)) as [_|Hne];
    do 2 eexists; (split; [done|]); (split; [|done]); apply (elan_frame_ok n o d); try done.
  - by apply advanceHead_aligned.
  - unfold advanceHead. cbn. by destruct (_ <=? _).
  - cbn. lia.
  - cbn. lia.
Qed.

#[export] Instance elan_ok_keeps n o : KeepsInv (elan_ok n o).
Proof.
  split; [intros d p Hd E; apply (eo_port _ _ _ Hd); rewrite <- (eo_device _ _ _ Hd); exact E|]. intros d data Hd.
  cbn [drv_interrupt elan_driver drv_device drv_installed]. unfold interruptAction.
  destruct (_interruptHandlerInstalled d) eqn:Ei; [|by exists d, kPS2IR_packetBuffering].
  destruct (elan_interrupt_ok n o d data Hd) as (d' & r & E & Hd' & Ef). exists d', r.
  split; [done|]. split; [done|]. split; [exact (f_equal _device Ef)|]. rewrite <- Ei.
  exact (f_equal _interruptHandlerInstalled Ef).
Qed.

#[export] Instance elan_raw_keeps n o P : KeepsInv (elan_raw n o P).
Proof.
  split; [intros d p Hd E; apply (er_port _ _ _ _ Hd); rewrite <- (er_device _ _ _ _ Hd); exact E|]. intros d data Hd.
  cbn [drv_interrupt elan_driver drv_device drv_installed]. unfold interruptAction.
  pose proof (er_off _ _ _ _ Hd) as Ei. rewrite Ei. exists d, kPS2IR_packetBuffering. by split_and!.
Qed.

#[export] Instance elan_tells : Tells ElanEvent := fun _ => True.

#[export] Instance elan_ring_laws : PacketRingLaws ApplePS2Elan.
Proof. by split. Qed.

(** Once the touchpad is known the ring is ready for its packets. *)
Lemma raw_ok n o d : elan_raw n o (fun d => resolved (info d) /\ _packetLength d = lengthOf (hw_version (info d))) d ->
  elan_ok n o d.
Proof.
  intros [H1 H2 H3 H4 [H5 H6] H7 [H8 H9]]. destruct (lengthOf_ring (hw_version (info d))) as (L1 & L2 & _).
  split; try done; rewrite H9; [|rewrite H7; lia]. pose proof (el_length _ _ H1). unfold ELAN_RING, kPacketLengthMax in *.
  split; rewrite ?H5, ?H6; [|by rewrite Z.mod_0_l by lia..]. split; rewrite ?H5, ?H6; lia.
Qed.

(** ** Touches *)

Lemma onFinger_ok i f l : 0 <= i < Z.of_nat (length l) -> exists l', onFinger i f l = Some l' /\ length l' = length l.
Proof.
  intros Hi. destruct (arr_get_Some l i Hi) as (x & E & _). unfold onFinger. rewrite E. simpl.
  rewrite arr_set_Some by done. eexists. split; [done|]. apply length_insert.
Qed.

Lemma placeFingers_ok button i places l : 0 <= i -> i + Z.of_nat (length places) <= Z.of_nat (length l) ->
  exists l', placeFingers button i places l = Some l' /\ length l' = length l.
Proof.
  revert i l. induction places as [|p places IH]; intros i l Hi Hl; simpl; [by exists l|]. simpl in Hl.
  destruct (onFinger_ok i (placeFinger button p) l ltac:(lia)) as (l1 & -> & E1). simpl.
  destruct (IH (i + 1) l1 ltac:(lia) ltac:(lia)) as (l' & -> & E). exists l'. split; [done|congruence].
Qed.

Lemma showFingers_ok n p0 fingers places t : touch_ok n t -> (length places <= 3)%nat ->
  exists t', showFingers p0 fingers places t = Some t' /\ touch_ok n t'.
Proof.
  intros [H1 H2 H3] Hp. unfold showFingers, liftThree.
  destruct (onFinger_ok 0 (fun f => {| f with vf_touch := false |}) (virtualFinger t)) as (l1 & -> & E1); [lia|]. simpl.
  destruct (onFinger_ok 1 (fun f => {| f with vf_touch := false |}) l1) as (l2 & -> & E2); [lia|]. simpl.
  destruct (onFinger_ok 2 (fun f => {| f with vf_touch := false |}) l2) as (l3 & -> & E3); [lia|]. simpl.
  destruct (placeFingers_ok (nz (Z.land p0 0x03)) 0 places l3) as (l4 & -> & E4); [lia..|]. simpl.
  eexists. split; [done|]. split; [done|done|]. cbn. congruence.
Qed.

Lemma placesV1_length a b x y : (length (placesV1 a b x y) <= 3)%nat.
Proof. unfold placesV1. repeat case_match; simpl; lia. Qed.
Lemma placesV2_length a b x1 y1 x2 y2 : (length (placesV2 a b x1 y1 x2 y2) <= 3)%nat.
Proof. unfold placesV2. repeat case_match; simpl; lia. Qed.

Lemma statusFingers_length fingers i l : length (statusFingers fingers i l).1 = length l.
Proof.
  revert i. induction l as [|f l IH]; intros i; [done|]. simpl. specialize (IH (i + 1)).
  destruct (statusFingers fingers (i + 1) l). simpl in *. by rewrite IH.
Qed.

(** Six bytes. *)
Lemma processStatus_ok n packet t : length packet = 6%nat -> touch_ok n t ->
  exists t' send, processStatus packet t = Some (t', send) /\ touch_ok n t'.
Proof.
  intros (p0 & p1 & p2 & p3 & p4 & p5 & ->)%packet_bytes [H1 H2 H3]. unfold processStatus. simpl.
  pose proof (statusFingers_length (Z.land p1 0x1f) 0 (virtualFinger t)) as E.
  destruct (statusFingers _ _ _) as [l c]. do 2 eexists. split; [done|]. split; [done|done|]. cbn in *. congruence.
Qed.

(** The number of the finger that three bits name. *)
Definition fingerId (b : Z) : Z := Z.shiftr (Z.land b 0xe0) 5 - 1.

Lemma processHead_ok n i p0 p1 p2 p3 p4 p5 t : fingerId p3 < ETP_MAX_FINGERS -> touch_ok n t ->
  exists t' send, processHead i [p0; p1; p2; p3; p4; p5] t = Some (t', send) /\ touch_ok n t'.
Proof.
  intros Hi [H1 H2 H3]. unfold processHead. simpl. fold (fingerId p3).
  destruct (Z.ltb_spec (fingerId p3) 0) as [_|Hn]; [do 2 eexists; split; [done|by split]|].
  match goal with |- context [onFinger _ ?f _] => destruct (onFinger_ok (fingerId p3) f (virtualFinger t)) as (l & -> & E) end.
  { unfold ETP_MAX_FINGERS in Hi. lia. }
  simpl. destruct (_ =? _); do 2 eexists; (split; [done|]); (split; [done|done|]); cbn; congruence.
Qed.

Lemma processMotion_ok n p0 p1 p2 p3 p4 p5 t :
  (0 <= fingerId p0 -> fingerId p0 < ETP_MAX_FINGERS /\ fingerId p3 < ETP_MAX_FINGERS) -> touch_ok n t ->
  exists t' send, processMotion [p0; p1; p2; p3; p4; p5] t = Some (t', send) /\ touch_ok n t'.
Proof.
  intros Hi [H1 H2 H3]. unfold processMotion, ETP_MAX_FINGERS in *. simpl. fold (fingerId p3) (fingerId p0).
  destruct (Z.ltb_spec (fingerId p0) 0) as [_|Hn]; [do 2 eexists; split; [done|by split]|].
  match goal with |- context [onFinger (fingerId p0) ?f _] => destruct (onFinger_ok (fingerId p0) f (virtualFinger t)) as (l & -> & E) end; [lia|].
  simpl. destruct (Z.leb_spec 0 (fingerId p3)) as [Hp|_].
  - match goal with |- context [onFinger (fingerId p3) ?f _] => destruct (onFinger_ok (fingerId p3) f l) as (l' & -> & E') end; [lia|].
    do 2 eexists. split; [done|]. split; [done|done|]. cbn. congruence.
  - do 2 eexists. split; [done|]. split; [done|done|]. cbn. congruence.
Qed.

(** ** What is sent *)

Lemma elanFill_ok fb bp ts0 l i count ts : 0 <= count -> count + Z.of_nat (length l) <= Z.of_nat (length ts) ->
  exists ts' count', elanFill fb bp ts0 l i count ts = Some (ts', count') /\ length ts' = length ts /\
    count <= count' <= count + Z.of_nat (length l).
Proof.
  revert i count ts. induction l as [|f l IH]; intros i count ts Hc Hl; simpl in *; [exists ts, count; split; [done|split; [done|lia]]|].
  destruct (negb (vf_touch f)).
  - destruct (IH (i + 1) count ts Hc ltac:(lia)) as (ts' & c' & -> & E & H). exists ts', c'. split; [done|]. split; [done|lia].
  - rewrite arr_set_Some by lia. simpl. set (ts1 := <[_ := _]> ts).
    assert (E1 : length ts1 = length ts) by apply length_insert.
    destruct (IH (i + 1) (count + 1) ts1 ltac:(lia) ltac:(lia)) as (ts' & c' & -> & E & H).
    exists ts', c'. split; [done|]. split; [congruence|lia].
Qed.

Lemma elanTransducers_ok n d ts0 : touch_ok n (touches d) ->
  exists ts count, elanTransducers d ts0 = Some (ts, count) /\ Z.of_nat (length ts) = n /\ 0 <= count <= ETP_MAX_FINGERS.
Proof.
  intros [H1 H2 H3]. unfold elanTransducers, ETP_MAX_FINGERS in *.
  match goal with |- context [elanFill ?a ?b ?c ?d ?e ?f ?g] =>
    destruct (elanFill_ok a b c d e f g ltac:(lia) ltac:(lia)) as (ts & count & -> & E & Hc) end.
  simpl. assert (Ht : exists ts', (if 4 <=? count then assignThumb count ts else Some ts) = Some ts' /\ length ts' = length ts).
  { destruct (Z.leb_spec 4 count); [|by exists ts]. apply assignThumb_ok. lia. }
  destruct Ht as (ts' & -> & E'). simpl. do 2 eexists. split; [done|].
  rewrite length_app, length_map, length_take, length_drop. split; lia.
Qed.

(** * The work loop *)

(** The fingers that a packet of version 4 is about to move. *)
Definition namedFingers (i : elantech_device_info) (packet : list Z) : list Z :=
  match elantechPacketCheckV4 i packet with
  | Some PACKET_V4_HEAD => [fingerId (nth 3 packet 0)]
  | Some PACKET_V4_MOTION =>
    if fingerId (nth 0 packet 0) <? 0 then [] else [fingerId (nth 0 packet 0); fingerId (nth 3 packet 0)]
  | _ => []
  end.

Definition packet_known (i : elantech_device_info) (packet : list Z) : Prop :=
  hw_version i = 4 -> Forall (fun id => id < ETP_MAX_FINGERS) (namedFingers i packet).

(** A driver whose waiting packets name only fingers there are, with its attached mice. *)
Definition elan_work (n : Z) (o : option Z) (mice : option (list Z)) (d : ApplePS2Elan) : Prop :=
  elan_ok n o d /\ attachedHIDPointerDevices d = mice /\ Forall (packet_known (info d)) (waitingPackets d).

(** The members that neither the ring nor the touchpad's kind depend on. *)
Definition work_frame (d : ApplePS2Elan) : ApplePS2Elan :=
  {| d with touches := mkElanTouch (mkInputEvent [] 0 0) 0 0 0 0 0 0 0 []; keytime := 0;
            etd := mkData 0 0 0 0 0 0 0 (parity (etd d)) |}.

Lemma work_frame_ok n o m d d' : elan_work n o m d -> work_frame d' = work_frame d -> touch_ok n (touches d') -> elan_work n o m d'.
Proof.
  intros [[[L1 L2 L3 L4 L5 L6] H2 H3 H4 H5 H6 H7] [Hm Hk]] Ef Ht. destruct d, d'. unfold work_frame in Ef. cbn in *.
  injection Ef as; subst. split; [|done]. split; try done. split; try done. cbn in *. congruence.
Qed.

(** The resolutions that the queries found are not zero. *)
Lemma ends_setDimensions {B} `{HB : PS2Bus B} (I : ApplePS2Elan -> Prop) : (forall d, I d -> resolved (info d)) ->
  ends (B := B) (E := ElanEvent) I I setDimensions.
Proof.
  intros HI. unfold setDimensions. apply ends_dget_bind. intros d Hd. apply ends_weak. destruct (HI d Hd) as [_ Hx Hy].
  do 2 (apply (ends_bind I I I); [by apply ends_tell|intros _]).
  eapply ends_deref_bind; [unfold physicalMax; by rewrite (proj2 (Z.eqb_neq _ _) Hx)|].
  apply (ends_bind I I I); [by apply ends_tell|intros _].
  eapply ends_deref_bind; [unfold physicalMax; by rewrite (proj2 (Z.eqb_neq _ _) Hy)|]. by apply ends_tell.
Qed.

Section Work.
Context {B : Type} `{HB : PS2Bus B} `{HL : !PS2BusLaws B} (abs : Z -> Z).
#[local] Abbreviation W := (DrvWorld B ApplePS2Elan ElanEvent).
#[local] Abbreviation C := (M W).
#[local] Abbreviation ends := (ends (B := B) (E := ElanEvent)).

(** At work on a known ring, for a known version [v] of the hardware. *)
Context (n : Z) (o : option Z) (mice : option (list Z)) (rb : RingBuffer Z) (v : Z).
#[local] Abbreviation at_ring := (has_ring (elan_work n o mice) rb).
#[local] Abbreviation at_work := (fun d => has_ring (elan_work n o mice) rb d /\ hw_version (info d) = v).

Lemma at_work_frame d d' : at_work d -> work_frame d' = work_frame d -> touch_ok n (touches d') -> at_work d'.
Proof.
  intros [[Hw Hr] Hv] Ef Ht. pose proof (f_equal info Ef) as Ei. split; [|cbn in Ei; congruence].
  split; [by apply (work_frame_ok n o mice d)|]. rewrite <- Hr. exact (f_equal _ringBuffer Ef).
Qed.

Lemma at_work_touch d : at_work d -> touch_ok n (touches d).
Proof. intros [[[Hd _] _] _]. apply (el_touches _ _ (eo_loose _ _ _ Hd)). Qed.

Lemma ends_setTouches f : (forall t, touch_ok n t -> touch_ok n (f t)) -> ends at_work at_work (setTouches f).
Proof.
  intros Hf. apply ends_dset; [|done]. intros d Hd. apply (at_work_frame d); [done|done|]. cbn. by apply Hf, at_work_touch.
Qed.

(** A step that only reads the driver. *)
Lemma ends_look {X Y} I J (f : ApplePS2Elan -> X) (k : X -> C Y) :
  (forall d, I d -> ends I J (k (f d))) -> ends I J (dget f ≫= k).
Proof. intros Hk. apply ends_dget_bind. intros d Hd. apply ends_weak. by apply Hk. Qed.

Lemma ends_next {X Y} I J (m : C X) (k : X -> C Y) : ends I I m -> (forall x, ends I J (k x)) -> ends I J (m ≫= k).
Proof. apply (ends_bind I I J). Qed.

Lemma ends_tellClient e : ends at_work at_work (tellClient e).
Proof. apply ends_look. intros d _. destruct (voodooInputInstance d); [by apply ends_tell|apply ends_ret]. Qed.

Lemma elan_ends_sendTouchData : ends at_work at_work (sendTouchData abs).
Proof.
  unfold sendTouchData. apply ends_next; [apply ends_gets|intros t]. cbv zeta. apply ends_look. intros d _.
  destruct (_ <? _); [apply ends_ret|]. apply ends_look. intros d1 Hd1.
  destruct (elanTransducers_ok n d1 (u64 t) (at_work_touch _ Hd1)) as (ts & count & E & Hl & _).
  eapply ends_deref_bind; [exact E|]. cbv beta iota.
  apply ends_next; [apply ends_setTouches; intros t0 [T1 T2 T3]; by split|intros _].
  apply ends_next; [apply ends_tellClient|intros _]. apply ends_look. intros d2 _.
  destruct (is_buttonpad (info d2)); [apply ends_ret|]. apply ends_look. intros d3 _.
  apply ends_next; [destruct (reportedButtons _ _); [apply ends_tellClient|apply ends_ret]|intros _].
  apply ends_setTouches. intros t0 [T1 T2 T3]. by split.
Qed.

Lemma ends_setTouchesTo f (k : ElanTouch -> option ElanTouch) :
  (forall d, f d = (t ← k (touches d); Some {| d with touches := t |})) ->
  (forall t, touch_ok n t -> exists t', k t = Some t' /\ touch_ok n t') -> ends at_work at_work (dstep f).
Proof.
  intros Hf Hk. apply ends_dstep. intros d Hd. rewrite Hf.
  destruct (Hk _ (at_work_touch _ Hd)) as (t' & -> & Ht). eexists. split; [done|]. split; [|done]. by apply (at_work_frame d).
Qed.

Lemma ends_reportFingers p0 fingers places : (forall a, (length (places a) <= 3)%nat) ->
  ends at_work at_work (reportFingers abs p0 fingers places).
Proof.
  intros Hp. apply ends_next; [|intros _; apply elan_ends_sendTouchData].
  apply (ends_setTouchesTo _ (fun t => showFingers p0 fingers (places (lastFingers t)) t)); [done|].
  intros t Ht. by apply showFingers_ok.
Qed.

(** *** Each version *)

Lemma ends_ReportV1 p0 p1 p2 p3 l : ends at_work at_work (elantechReportAbsoluteV1 abs (p0 :: p1 :: p2 :: p3 :: l)).
Proof.
  unfold elantechReportAbsoluteV1. do 2 (eapply ends_deref_bind; [reflexivity|]).
  apply ends_look. intros d _. apply ends_look. intros d1 _. destruct (jumpy _ _ _) as [discard r].
  apply ends_next; [apply ends_dset; [|done]; intros d2 Hd2; apply (at_work_frame d2); [done|done|exact (at_work_touch _ Hd2)]|intros _].
  destruct discard; [apply ends_ret|]. eapply ends_deref_bind; [reflexivity|]. cbv beta iota. apply ends_reportFingers.
  intros a. apply placesV1_length.
Qed.

Lemma ends_ReportV2 p0 p1 p2 p3 p4 p5 : ends at_work at_work (elantechReportAbsoluteV2 abs [p0; p1; p2; p3; p4; p5]).
Proof.
  unfold elantechReportAbsoluteV2. eapply ends_deref_bind; [reflexivity|]. apply ends_look. intros d _.
  destruct (pointsV2 _ _ _) as [[[[x1 y1] x2] y2]|] eqn:E; [|done]. eapply ends_deref_bind; [reflexivity|].
  apply ends_reportFingers. intros a. apply placesV2_length.
Qed.

(** A larger pad is only found on version 3. *)
Lemma ends_rescale x y : v = 3 -> ends at_work at_work (elantechRescale x y).
Proof.
  intros Hv. unfold elantechRescale. apply ends_look. intros i _. apply ends_next.
  - apply ends_dset; [|done]. intros d [[[[[L1 L2 L3 L4 L5 L6] H2 H3 [I1 I2 I3] H5 H6 H7] [Hmi Hk]] Hr] Hd].
    split; [|exact Hd]. split; [|exact Hr]. split; [by repeat (split; [done|]) || (split; try done; by split)|].
    split; [exact Hmi|]. apply Forall_forall. intros packet _ H4. cbn in H4. congruence.
  - intros _. apply ends_when. intros _. apply ends_next.
    { apply ends_setDimensions. intros d [[[Hd _] _] _]. apply (eo_info _ _ _ Hd). }
    intros _.
    apply ends_look. intros d _. apply ends_tellClient.
Qed.

Lemma ends_ReportV3 type p0 p1 p2 p3 p4 p5 : v = 3 ->
  ends at_work at_work (elantechReportAbsoluteV3 abs type [p0; p1; p2; p3; p4; p5]).
Proof.
  intros Hv. unfold elantechReportAbsoluteV3. do 5 (eapply ends_deref_bind; [reflexivity|]). cbv zeta.
  destruct (_ || _); [|destruct (_ =? 2)].
  - apply ends_next; [by apply ends_rescale|intros _]. apply ends_look. intros d _.
    apply ends_reportFingers. intros a. apply placesV2_length.
  - assert (Htail : forall A B : Z, ends at_work at_work (elantechRescale (coordinate12 p1 p2) (coordinate12 p4 p5) ;;
      i ← dget info; reportFingers abs p0 (Z.shiftr (Z.land p0 0xc0) 6) (fun last =>
        placesV2 last (Z.shiftr (Z.land p0 0xc0) 6) A B (coordinate12 p1 p2) (u32 (y_max i - coordinate12 p4 p5))))).
    { intros A D. apply ends_next; [by apply ends_rescale|intros _]. apply ends_look. intros d _.
      apply ends_reportFingers. intros a. apply placesV2_length. }
    destruct type; try (apply ends_look; intros d _; apply ends_look; intros d1 _; apply Htail).
    apply ends_dset; [|done]. intros d Hd. apply (at_work_frame d); [done|done|exact (at_work_touch _ Hd)].
  - apply ends_reportFingers. simpl. lia.
Qed.

Lemma ends_Trackpoint p0 p1 p2 p3 p4 p5 : ends at_work at_work (elantechReportTrackpoint abs [p0; p1; p2; p3; p4; p5]).
Proof.
  unfold elantechReportTrackpoint. eapply ends_deref_bind; [reflexivity|]. destruct (trackpointOf _ _ _ _ _ _) as [[[b dx] dy]|]; [|apply ends_ret].
  apply ends_next; [apply ends_gets|intros t]. cbv zeta.
  apply ends_next; [|intros _; apply ends_tellClient].
  apply ends_dset; [|done]. intros d Hd. apply (at_work_frame d); [done|done|exact (at_work_touch _ Hd)].
Qed.

Lemma ends_reportV4 f :
  (forall d, at_work d -> exists t' send, f d = Some (t', send) /\ touch_ok n t') -> ends at_work at_work (reportV4 abs f).
Proof.
  intros Hf. unfold reportV4. apply ends_look. intros d Hd. destruct (Hf d Hd) as (t' & send & E & Ht).
  eapply ends_deref_bind; [exact E|]. cbv beta iota.
  apply ends_next; [by apply ends_setTouches|intros _]. apply ends_when. intros _. apply elan_ends_sendTouchData.
Qed.

Lemma PacketCheckV1_total i l p0 p1 p2 p3 : length l = 256%nat -> is_byte p1 -> is_byte p2 -> is_byte p3 ->
  exists ok, elantechPacketCheckV1 i l [p0; p1; p2; p3] = Some ok.
Proof.
  intros Hl H1 H2 H3. unfold is_byte in *. unfold elantechPacketCheckV1.
  destruct (arr_get_Some l p1 ltac:(lia)) as (q1 & E1 & _), (arr_get_Some l p2 ltac:(lia)) as (q2 & E2 & _),
    (arr_get_Some l p3 ltac:(lia)) as (q3 & E3 & _). simpl. rewrite E1, E2, E3. destruct (_ <? _); simpl; eauto.
Qed.

(** What is known of the packet at the tail. *)
Lemma at_tail d packet : at_work d -> packet = tail_slice (lengthOf v) rb -> lengthOf v <= count ELAN_RING rb ->
  length packet = Z.to_nat (lengthOf v) /\ Forall is_byte packet /\ packet_known (info d) packet.
Proof.
  intros [[[Hd [_ Hk]] Hr] Hv] -> Hc. destruct (elan_packet_ring _ _ _ Hd) as [Hp Hm].
  pose proof (eo_packet _ _ _ Hd) as El. rewrite Hv in El. pose proof (eo_ring _ _ _ Hd) as Ha.
  change (ringOf d) with (_ringBuffer d) in Hr. rewrite El, Hr in *.
  assert (E : waitingPackets d = tail_slice (lengthOf v) rb :: pending ELAN_RING (lengthOf v) (advanceTail ELAN_RING (lengthOf v) rb)).
  { unfold waitingPackets. cbn [ringSize ringPacket ringOf elan_ring]. rewrite El, Hr. by apply advanceTail_pending. }
  rewrite E in Hk. split; [|split].
  - eapply (pending_packet_length ELAN_RING (lengthOf v)); [done..|exact Ha|].
    unfold waitingPackets in E. cbn [ringSize ringPacket ringOf elan_ring] in E. rewrite El, Hr in E. rewrite E. by left.
  - unfold tail_slice. apply Forall_take, Forall_drop. rewrite <- Hr. apply (el_bytes _ _ (eo_loose _ _ _ Hd)).
  - by apply Forall_inv in Hk.
Qed.

Lemma ends_when_known I (m : C bool) (k : C unit) : (exists b, m = ret b) -> ends I I k -> ends I I (b ← m; when b k).
Proof. intros [b ->] Hk. apply ends_next; [apply ends_ret|intros x]. apply ends_when. by intros _. Qed.

Lemma ends_processV1 d packet : length packet = 4%nat -> Forall is_byte packet -> v = 1 -> at_work d ->
  ends at_work at_work (p ← dget (fun d => parity (etd d));
    ok ← (if paritycheck (info d) then deref (elantechPacketCheckV1 (info d) p packet) else ret true);
    when ok (elantechReportAbsoluteV1 abs packet)).
Proof.
  intros Hl Hb Hv Hd. destruct packet as [|p0 [|p1 [|p2 [|p3 []]]]]; try done.
  apply ends_look. intros d1 [[[Hd1 _] _] _]. pose proof (el_parity _ _ (eo_loose _ _ _ Hd1)) as Hp.
  rewrite !Forall_cons in Hb. destruct Hb as (_ & B1 & B2 & B3 & _).
  destruct (PacketCheckV1_total (info d) _ p0 p1 p2 p3 Hp B1 B2 B3) as [ok E]. rewrite E.
  destruct (paritycheck (info d)); (apply ends_when_known; [by eexists|]); apply ends_ReportV1.
Qed.

Lemma PacketCheckV4_total i p0 p1 p2 p3 p4 p5 : length (samples i) = 3%nat ->
  exists type, elantechPacketCheckV4 i [p0; p1; p2; p3; p4; p5] = Some type.
Proof.
  intros Hs. unfold elantechPacketCheckV4. destruct (arr_get_Some (samples i) 1 ltac:(lia)) as (s1 & E & _).
  simpl. rewrite E. simpl. destruct (_ && _); eauto.
Qed.

Lemma elan_ends_processPacket packet : packet = tail_slice (lengthOf v) rb -> lengthOf v <= count ELAN_RING rb ->
  ends at_work at_work (processPacket abs packet).
Proof.
  intros Hp Hc. unfold processPacket. apply ends_look. intros d Hd.
  destruct (at_tail d packet Hd Hp Hc) as (Hl & Hb & Hk). clear Hp Hc.
  pose proof (rs_version _ (eo_info _ _ _ (proj1 (proj1 (proj1 Hd))))) as Hr. pose proof (proj2 Hd) as Hv.
  assert (v = 1 \/ v = 2 \/ v = 3 \/ v = 4) as [E|[E|[E|E]]] by lia;
    rewrite E in Hv, Hl; rewrite Hv; cbn [lengthOf Z.eqb Pos.eqb] in Hl; cbv iota.
  - apply (ends_processV1 d); [done..|].
    split; [apply Hd|congruence].
  - destruct (packet_bytes packet Hl) as (p0 & p1 & p2 & p3 & p4 & p5 & ->).
    eapply ends_deref_bind; [reflexivity|]. destruct (bool_decide _); [apply ends_ret|].
    destruct (paritycheck (info d)); (apply ends_when_known; [by eexists|]); apply ends_ReportV2.
  - destruct (packet_bytes packet Hl) as (p0 & p1 & p2 & p3 & p4 & p5 & ->).
    eapply ends_deref_bind; [reflexivity|].
    match goal with |- context [match ?t with PACKET_UNKNOWN => _ | _ => _ end] => destruct t end;
      first [apply ends_ret|apply ends_Trackpoint|by apply ends_ReportV3].
  - destruct (packet_bytes packet Hl) as (p0 & p1 & p2 & p3 & p4 & p5 & ->).
    specialize (Hk ltac:(lia)). unfold namedFingers in Hk.
    destruct (PacketCheckV4_total (info d) p0 p1 p2 p3 p4 p5) as [type Et].
    { apply (el_samples _ _ (eo_loose _ _ _ (proj1 (proj1 (proj1 Hd))))). }
    rewrite Et in *. eapply ends_deref_bind; [reflexivity|].
    destruct type; try apply ends_ret; [| | |apply ends_Trackpoint]; apply ends_reportV4; intros d1 Hd1.
    + apply Forall_inv in Hk. apply processHead_ok; [exact Hk|by apply at_work_touch].
    + apply processMotion_ok; [|by apply at_work_touch]. cbn [nth] in Hk. intros H0.
      rewrite (proj2 (Z.ltb_ge _ _) H0) in Hk. split; [exact (Forall_inv Hk)|exact (Forall_inv (Forall_inv_tail Hk))].
    + apply processStatus_ok; [done|by apply at_work_touch].
Qed.

Lemma elan_ends_handlePacket packet : packet = tail_slice (lengthOf v) rb -> lengthOf v <= count ELAN_RING rb ->
  ends at_work at_work (handlePacket abs packet).
Proof.
  intros Hp Hc. unfold handlePacket. apply ends_look. intros d _. apply ends_when. intros _. by apply elan_ends_processPacket.
Qed.

End Work.

(** ** The loop *)

Lemma elan_setRing n o d rb : elan_ok n o d -> aligned ELAN_RING (_packetLength d) rb -> Forall is_byte (m_buffer rb) ->
  elan_ok n o {| d with _ringBuffer := rb |}.
Proof. intros Hd Ha Hb. apply (elan_frame_ok n o d); [done|done|exact Ha|exact Hb|exact (eo_count _ _ _ Hd)]. Qed.

(** What waits after a packet is gone waited before. *)
Lemma elan_work_drop n o m d : elan_work n o m d -> _packetLength d <= count ELAN_RING (_ringBuffer d) ->
  elan_work n o m (dropFirst d).
Proof.
  intros [Hd [Hmi Hk]] Hc. destruct (elan_packet_ring _ _ _ Hd) as [Hp Hm]. pose proof (eo_ring _ _ _ Hd) as Ha.
  assert (Ha' := advanceTail_aligned ELAN_RING (_packetLength d) Hp ltac:(done) Hm _ Ha).
  split; [apply elan_setRing; [done|exact Ha'|apply (el_bytes _ _ (eo_loose _ _ _ Hd))]|].
  split; [exact Hmi|]. unfold waitingPackets in *. cbn [ringSize ringPacket ringOf elan_ring] in *.
  rewrite (advanceTail_pending ELAN_RING (_packetLength d)) in Hk by done. by apply Forall_inv_tail in Hk.
Qed.

Lemma ends_packetReady {B} `{HB : PS2Bus B} abs n o m :
  ends (B := B) (elan_work n o m) (elan_work n o m) (packetReady abs).
Proof.
  intros w Hw. assert (He : ends (B := B) (fun d => elan_work n o m d /\ hw_version (info d) = hw_version (info (self w)))
    (fun d => elan_work n o m d /\ hw_version (info d) = hw_version (info (self w))) (packetReady abs)).
  { set (v := hw_version (info (self w))). destruct (lengthOf_ring v) as (L1 & L2 & _). unfold packetReady.
    assert (HP : forall d, elan_work n o m d /\ hw_version (info d) = v -> _packetLength d = lengthOf v).
    { intros d [[Hd _] <-]. apply (eo_packet _ _ _ Hd). }
    apply (ends_drainRing _ _ (lengthOf v)); [done|done|exact HP| | |].
    - intros d Hd. rewrite <- (HP d Hd). apply (eo_ring _ _ _ (proj1 (proj1 Hd))).
    - intros d Hd Hc. rewrite <- (HP d Hd) in Hc. split; [exact (elan_work_drop _ _ _ _ (proj1 Hd) Hc)|apply Hd].
    - intros rb packet _ Ht Hc. refine (ends_mono _ _ _ _ _ _ _ (elan_ends_handlePacket abs n o m rb v packet Ht Hc)).
      + by intros d [[H1 H2] H3].
      + by intros d [[H1 H2] H3]. }
  eapply total_mono; [by apply He|]. cbn beta. intros x w' ([H1 _] & H2). by split.
Qed.
