(* ===== verification/ElanRun.v ===== *)
(** * Finding and setting up the Elan touchpad

    The commands keep every invariant that interrupts keep, and bring back as many bytes as
    they ask for, whatever the touchpad answers.  [probe], [start], [stop] and what happens in
    between keep the driver's invariant: the queries leave a version from 1 to 4, the length
    of its packets and resolutions that can be divided by. *)
From S2P Require Import Prelude PS2Types RingBuffer RingSpec Bus Touch DriverWorld OSTypes KeyboardBench.
From S2P Require Import RingLoop Talk Trackpad Elan ElanDriver ElanSafe.

(** * Commands *)

Section Commands.
Context {B : Type} `{HB : PS2Bus B} `{HL : !PS2BusLaws B}.
#[local] Abbreviation W := (DrvWorld B ApplePS2Elan ElanEvent).
#[local] Abbreviation C := (M W).
#[local] Abbreviation asks := (asks (B := B) (E := ElanEvent)).
Context (I : ApplePS2Elan -> Prop) `{!KeepsInv I} (p : Z).
Context (Hp : 0 <= p < kPS2MuxMaxIdx) (HI : forall d, I d -> _device d = Some p).

Lemma asks_submit cs : Z.of_nat (length cs) < 256 -> asks I (answered cs) (submitElan cs).
Proof. by apply (asks_request I p). Qed.

Lemma asks_readParams cs r k i : answered cs r -> 0 <= i -> i + Z.of_nat k <= Z.of_nat (length cs) ->
  asks I (fun ps => length ps = k) (readParams r k i).
Proof.
  intros Ha. revert i. induction k as [|k IH]; intros i Hi Hk; [by apply asks_ret|]. cbn [readParams].
  eapply asks_bind; [apply (asks_result I cs); [done|lia]|]. intros b _.
  eapply asks_bind; [apply IH; lia|]. intros ps Hps. apply asks_ret. cbn. by rewrite Hps.
Qed.

Lemma asks_ps2_command k c : (k <= 3)%nat -> asks I (fun x => length x.2 = k) (ps2_command k c).
Proof.
  intros Hk. unfold ps2_command. eapply asks_bind; [apply asks_submit; simpl; rewrite length_replicate; lia|]. intros r Hr.
  eapply asks_bind; [apply (asks_readParams _ _ k 1 Hr); [done|simpl; rewrite length_replicate; lia]|]. intros ps Hps.
  by apply asks_ret.
Qed.

Lemma asks_ps2_command0 c : asks I (fun _ => True) (ps2_command0 c).
Proof. eapply asks_bind; [apply asks_ps2_command; lia|]. intros r _. by apply asks_ret. Qed.

Lemma asks_sliced c : asks I (fun _ => True) (ps2_sliced_command c).
Proof. eapply asks_bind; [by apply asks_submit|]. intros r _. by apply asks_ret. Qed.

Lemma asks_retrying {X} R t delay (m : C (bool * X)) : asks I R m -> asks I R (retrying t delay m).
Proof.
  intros Hm. assert (Hgo : forall (rest : bool * X -> C (bool * X)), (forall r, R r -> asks I R (rest r)) ->
    asks I R (r ← m; if negb r.1 then ret r else onController (bus_sleep delay) ;; rest r)).
  { intros rest Hr. eapply asks_bind; [exact Hm|]. intros r HR. destruct (negb r.1); [by apply asks_ret|].
    eapply asks_bind; [apply asks_sleep; exact _|]. intros _ _. by apply Hr. }
  induction t as [|[|t] IH]; cbn [retrying]; apply Hgo; intros r Hr; [by apply asks_ret..|exact IH].
Qed.

Lemma asks_elantech k c : (k <= 3)%nat -> asks I (fun x => length x.2 = k) (elantech_ps2_command k c).
Proof. intros Hk. by apply asks_retrying, asks_ps2_command. Qed.

Lemma asks_elantech0 c : asks I (fun _ => True) (elantech_ps2_command0 c).
Proof. eapply asks_bind; [apply asks_elantech; lia|]. intros r _. by apply asks_ret. Qed.

Lemma asks_anyFails l : Forall (asks I (fun _ => True)) l -> asks I (fun _ => True) (anyFails l).
Proof.
  induction 1 as [|m l Hm _ IH]; [by apply asks_ret|]. cbn [anyFails]. eapply asks_bind; [exact Hm|].
  intros [] _; [by apply asks_ret|exact IH].
Qed.

Lemma asks_anyFails_map {A} (f : A -> C bool) l : (forall a, asks I (fun _ => True) (f a)) ->
  asks I (fun _ => True) (anyFails (map f l)).
Proof. intros Hf. apply asks_anyFails, Forall_map. by apply Forall_forall. Qed.

(** [k] bytes, unless it failed early. *)
Definition brings (k : nat) (x : bool * option (list Z)) : Prop :=
  match x.2 with Some l => length l = k | None => x.1 = true end.

Lemma asks_query k before m : Forall (asks I (fun _ => True)) before -> asks I (fun x => length x.2 = k) m ->
  asks I (brings k) (query before m).
Proof.
  intros Hb Hm. eapply asks_bind; [by apply asks_anyFails|]. intros [] _; [by apply asks_ret|].
  eapply asks_bind; [exact Hm|]. intros [f l] Hl. by apply asks_ret.
Qed.

Lemma asks_synaptics c : asks I (brings 3) (synaptics_send_cmd 3 c).
Proof.
  apply asks_query; [|by apply asks_ps2_command]. repeat apply Forall_cons_2; [|by apply Forall_nil_2]. apply asks_sliced.
Qed.

Lemma asks_send_elantech c : asks I (brings 3) (elantech_send_cmd 3 c).
Proof.
  apply asks_query; [|by apply asks_ps2_command]. repeat apply Forall_cons_2; [..|by apply Forall_nil_2]; apply asks_ps2_command0.
Qed.

Lemma asks_send_cmd c : asks I (brings 3) (send_cmd 3 c).
Proof. apply asks_dget. intros d _. destruct (_ <=? _); [apply asks_send_elantech|apply asks_synaptics]. Qed.

(** Registers. *)

Lemma asks_readRegister hw reg : asks I (brings 3) (readRegister hw reg).
Proof.
  assert (Hfast : forall s, asks I (brings 3) (query (map elantech_ps2_command0 [ETP_PS2_CUSTOM_COMMAND; s; ETP_PS2_CUSTOM_COMMAND; reg])
    (elantech_ps2_command 3 kDP_GetMouseInformation))).
  { intros s. apply asks_query; [|by apply asks_elantech]. apply Forall_map, Forall_forall. intros c _. apply asks_elantech0. }
  unfold readRegister. destruct hw as [|[[]|[|[]|]|]|]; try by apply asks_ret; try apply Hfast.
  all: try apply Hfast; try by apply asks_ret.
  apply asks_query; [|by apply asks_ps2_command]. apply Forall_map, Forall_forall. intros c _. apply asks_sliced.
Qed.

Lemma asks_readReg reg : asks I (fun _ => True) (elantechReadReg reg).
Proof.
  unfold elantechReadReg. destruct (negb _); [by apply asks_ret|]. apply asks_dget. intros d _.
  eapply asks_bind; [apply asks_readRegister|]. intros [f w] Hw. unfold brings in Hw. cbn [fst snd] in Hw. cbv iota beta.
  destruct f; [by apply asks_ret|]. destruct w as [ps|]; [|done]. eapply asks_deref; [done|].
  destruct (arr_get_Some ps (if hw_version (info d) =? 4 then 1 else 0)) as (x & E & _); [destruct (_ =? _); lia|].
  eapply asks_deref; [exact E|]. by apply asks_ret.
Qed.

Lemma asks_writeReg reg val : asks I (fun _ => True) (elantechWriteReg reg val).
Proof.
  unfold elantechWriteReg. destruct (negb _); [by apply asks_ret|]. apply asks_dget. intros d _.
  destruct (_ =? _); [|apply asks_anyFails_map, asks_elantech0]. apply asks_anyFails, Forall_app_2.
  - apply Forall_map, Forall_forall. intros c _. apply asks_sliced.
  - apply Forall_cons_2; [apply asks_ps2_command0|by apply Forall_nil_2].
Qed.

Lemma asks_resetMouse : asks I (fun _ => True) resetMouse.
Proof. eapply asks_bind; [by apply asks_ps2_command; lia|]. intros _ _. by apply asks_ret. Qed.

Lemma asks_setTouchPadEnable b : asks I (fun _ => True) (setTouchPadEnable b).
Proof. eapply asks_bind; [apply asks_ps2_command0|]. intros _ _. by apply asks_ret. Qed.

(** Detection only asks. *)
Lemma asks_detect : asks I (fun _ => True) elantechDetect.
Proof.
  assert (Hthree : forall ps : list Z, length ps = 3%nat -> exists a b c, ps = [a; b; c]).
  { intros [|a [|b [|c []]]]; try done. eauto. }
  unfold elantechDetect. eapply asks_bind.
  { apply (asks_query 3); [|by apply asks_ps2_command]. apply Forall_map, Forall_forall. intros c _. apply asks_ps2_command0. }
  intros [f w] Hw. unfold brings in Hw. cbn [fst snd] in Hw. cbv iota beta. destruct f; [by apply asks_ret|].
  destruct w as [ps|]; [|done]. destruct (Hthree ps Hw) as (a & b & c & ->).
  do 2 (eapply asks_deref; [reflexivity|]). destruct (negb _ || negb _ || _); [by apply asks_ret|].
  eapply asks_bind; [apply asks_synaptics|].
  intros [f w] Hw'. unfold brings in Hw'. cbn [fst snd] in Hw'. cbv iota beta. destruct f; [by apply asks_ret|].
  destruct w as [ps|]; [|done]. destruct (Hthree ps Hw') as (a' & b' & c' & ->).
  do 2 (eapply asks_deref; [reflexivity|]). by apply asks_ret.
Qed.

End Commands.

(** * From probe to stop *)

(** ** What the queries find *)

Definition versioned (d : ApplePS2Elan) : Prop :=
  1 <= hw_version (info d) <= 4 /\ _packetLength d = lengthOf (hw_version (info d)).
Definition found (d : ApplePS2Elan) : Prop :=
  resolved (info d) /\ _packetLength d = lengthOf (hw_version (info d)).

Lemma raw_mono n o (P Q : ApplePS2Elan -> Prop) d : elan_raw n o P d -> Q d -> elan_raw n o Q d.
Proof. by intros [H1 H2 H3 H4 H5 H6 H7] H8. Qed.

Lemma raw_setInfo n o (P Q : ApplePS2Elan -> Prop) i d : elan_raw n o P d ->
  length (capabilities i) = 3%nat -> length (samples i) = 3%nat ->
  Q {| d with info := i |} -> elan_raw n o Q {| d with info := i |}.
Proof. intros [[L1 L2 L3 L4 L5 L6] H2 H3 H4 H5 H6 H7] Hc Hs Hq. by split. Qed.

Lemma hardwareVersion_bounds fw hw : hardwareVersion fw = Some hw -> 1 <= hw <= 4.
Proof. unfold hardwareVersion. repeat case_match; intros [= <-]; lia. Qed.

(** At least 31 dots. *)
Lemma convert_res_pos z : 0 <= z < 16 -> elantech_convert_res z <> 0.
Proof.
  intros Hz. unfold elantech_convert_res. rewrite u32_small by lia.
  pose proof (Z.div_le_mono 7900 ((z * 10 + 790) * 10) 254 ltac:(lia) ltac:(lia)) as H. change (7900 / 254) with 31 in H. lia.
Qed.

Section Find.
Context {B : Type} `{HB : PS2Bus B} `{HL : !PS2BusLaws B} (n p : Z) (Hp : 0 <= p < kPS2MuxMaxIdx).
#[local] Abbreviation W := (DrvWorld B ApplePS2Elan ElanEvent).
#[local] Abbreviation C := (M W).
#[local] Abbreviation raw P := (elan_raw n (Some p) P).
#[local] Abbreviation asks := (asks (B := B)).
#[local] Abbreviation leads := (leads (B := B)).
#[local] Abbreviation any := (fun _ : ApplePS2Elan => True).

(** [false] says that it is so. *)
Definition unless (P Q : ApplePS2Elan -> Prop) (failed : bool) : ApplePS2Elan -> Prop := if failed then raw P else raw Q.

Lemma raw_device P d : raw P d -> _device d = Some p.
Proof. apply er_device. Qed.

Lemma asks_setInfo P f :
  (forall d, P d -> P {| d with info := f (info d) |}) ->
  (forall i, length (capabilities i) = 3%nat -> length (samples i) = 3%nat ->
     length (capabilities (f i)) = 3%nat /\ length (samples (f i)) = 3%nat) ->
  asks (raw P) (fun _ => True) (setInfo f).
Proof.
  intros HP Hf. apply asks_dset; [|done]. intros d Hd.
  destruct (Hf (info d) (el_capabilities _ _ (er_loose _ _ _ _ Hd)) (el_samples _ _ (er_loose _ _ _ _ Hd))) as [H1 H2].
  apply (raw_setInfo _ _ P); [done..|]. apply HP, (er_also _ _ _ _ Hd).
Qed.

(** The members of a touchpad's size. *)
Lemma found_size f : (forall i, hw_version (f i) = hw_version i /\ x_res (f i) = x_res i /\ y_res (f i) = y_res i) ->
  forall d, found d -> found {| d with info := f (info d) |}.
Proof.
  intros Hf d [[H1 H2 H3] H4]. destruct (Hf (info d)) as (E1 & E2 & E3). split; [split|]; cbn; by rewrite ?E1, ?E2, ?E3.
Qed.

Lemma asks_size f :
  (forall i, hw_version (f i) = hw_version i /\ x_res (f i) = x_res i /\ y_res (f i) = y_res i) ->
  (forall i, capabilities (f i) = capabilities i /\ samples (f i) = samples i) ->
  asks (raw found) (fun _ => True) (setInfo f).
Proof.
  intros H1 H2. apply asks_setInfo; [by apply found_size|]. intros i Hc Hs. destruct (H2 i) as [-> ->]. done.
Qed.

(** An answer of three bytes is read. *)
Lemma asks_answer {X} I c R (k : list Z -> C X) (k' : C X) :
  KeepsInv I -> (forall d, I d -> _device d = Some p) ->
  (forall a b c, asks I R (k [a; b; c])) -> asks I R k' ->
  asks I R ('(failed, w) ← send_cmd 3 c; if failed : bool then k' else param ← deref w; k param).
Proof.
  intros HK HI Hk Hk'. eapply asks_bind; [by apply (asks_send_cmd I p)|]. intros [f w] Hw.
  unfold brings in Hw. cbn [fst snd] in Hw. cbv beta iota. destruct f; [done|]. destruct w as [[|a [|b [|d []]]]|]; try done.
  by eapply asks_deref.
Qed.

Lemma asks_queryRangeV3 : asks (raw found) (fun _ => True) queryRangeV3.
Proof.
  unfold queryRangeV3. apply asks_answer; [exact _|apply raw_device| |by apply asks_ret]. intros a b c.
  do 3 (eapply asks_deref; [reflexivity|]). eapply asks_bind; [by apply asks_size|]. intros _ _. by apply asks_ret.
Qed.

Lemma asks_capability {X} P j R (k : Z -> C X) : 0 <= j < 3 -> (forall c, asks (raw P) R (k c)) ->
  forall d, raw P d -> asks (raw P) R (c ← deref (arr_get (capabilities (info d)) j); k c).
Proof.
  intros Hj Hk d Hd. pose proof (el_capabilities _ _ (er_loose _ _ _ _ Hd)) as Hc.
  destruct (arr_get_Some (capabilities (info d)) j ltac:(lia)) as (c & E & _). by eapply asks_deref.
Qed.

Lemma asks_queryRangeV2 : asks (raw found) (fun _ => True) queryRangeV2.
Proof.
  assert (Hset : forall f, (forall i, hw_version (f i) = hw_version i /\ x_res (f i) = x_res i /\ y_res (f i) = y_res i) ->
    (forall i, capabilities (f i) = capabilities i /\ samples (f i) = samples i) ->
    asks (raw found) (fun _ => True) (setInfo f ;; ret false)).
  { intros f H1 H2. eapply asks_bind; [by apply asks_size|]. intros _ _. by apply asks_ret. }
  unfold queryRangeV2. apply asks_dget. intros d Hd. cbv zeta. destruct (fixedRangeV2 _); [by apply Hset|].
  apply asks_answer; [exact _|apply raw_device| |by apply asks_ret]. intros a b c.
  eapply asks_deref; [reflexivity|].
  apply (asks_capability found); [done| |done]. intros c1. apply (asks_capability found); [done| |done]. intros c2.
  destruct (_ && _).
  - apply asks_answer; [exact _|apply raw_device| |by apply asks_ret]. intros a' b' c'.
    do 2 (eapply asks_deref; [reflexivity|]). by apply Hset.
  - destruct (if _ =? 0x040216 then _ else _) as [x y]. by apply Hset.
Qed.

Lemma asks_queryRange : asks (raw found) (fun _ => True) queryRange.
Proof.
  unfold queryRange. apply asks_dget. intros d Hd.
  destruct (hw_version (info d)) as [|[[]|[|[]|]|]|]; try by apply asks_ret.
  - apply asks_queryRangeV3.
  - eapply asks_bind; [apply asks_queryRangeV3|]. intros [] _; [by apply asks_ret|]. unfold queryTracesV4.
    apply asks_dget. intros d' Hd'. apply (asks_capability found); [done| |done]. intros c1.
    apply (asks_capability found); [done| |done]. intros c2. destruct (_ || _); [by apply asks_ret|].
    eapply asks_bind; [by apply asks_size|]. intros _ _. by apply asks_ret.
  - apply asks_queryRangeV2.
  - eapply asks_bind; [by apply asks_size|]. intros _ _. by apply asks_ret.
Qed.

Lemma asks_resolution_v4 : asks (raw found) (fun _ => True) elantech_get_resolution_v4.
Proof.
  unfold elantech_get_resolution_v4. eapply asks_bind; [by apply (asks_send_elantech _ p Hp (raw_device _))|]. intros [f w] Hw.
  unfold brings in Hw. cbn [fst snd] in Hw. cbv beta iota. destruct f; [by apply asks_ret|].
  destruct w as [[|a [|b [|c []]]]|]; try done. do 3 (eapply asks_deref; [reflexivity|]).
  eapply asks_bind; [|intros _ _; by apply asks_ret]. apply asks_setInfo; [|done].
  intros d [[H1 H2 H3] H4]. split; [split; [done|apply convert_res_pos|apply convert_res_pos]|done].
  - change (Z.land b 0x0f) with (Z.land b (Z.ones 4)). rewrite Z.land_ones by done. by apply Z.mod_pos_bound.
  - rewrite Z.shiftr_land. change (Z.shiftr 0xf0 4) with (Z.ones 4). rewrite Z.land_ones by done. by apply Z.mod_pos_bound.
Qed.

(** *** The queries in order *)

Lemma leads_fails P Q l : leads (raw P) l (unless any Q) l (ret true).
Proof. apply leads_ret. intros d Hd. by apply (raw_mono _ _ P). Qed.

Lemma leads_SetProperties l : leads (raw any) l (unless any versioned) l elantechSetProperties.
Proof.
  unfold elantechSetProperties. apply leads_dget. intros d _. destruct (hardwareVersion _) as [hw|] eqn:E; [|apply leads_fails].
  apply hardwareVersion_bounds in E. apply leads_dget. intros d1 _.
  eapply (talk_leads_bind _ _ (fun _ => raw (fun d => hw_version (info d) = hw))).
  { apply leads_dset; [|done]. intros d2 Hd. apply (raw_setInfo _ _ any); [done| | |done]; apply (er_loose _ _ _ _ Hd). }
  intros _. eapply (talk_leads_bind _ _ (fun _ => raw versioned)); [|intros _; by apply leads_ret].
  apply leads_dset; [|done]. intros d2 [[L1 L2 L3 L4 L5 L6] H2 H3 H4 H5 H6 H7]. split; try done. by split; cbn; rewrite H7.
Qed.

Lemma asks_storeWritten x f : brings 3 x ->
  (forall d l, versioned d -> versioned {| d with info := f l (info d) |}) ->
  (forall i l, length l = 3%nat -> length (capabilities i) = 3%nat -> length (samples i) = 3%nat ->
     length (capabilities (f l i)) = 3%nat /\ length (samples (f l i)) = 3%nat) ->
  asks (raw versioned) (fun _ => True) (storeWritten x.2 f).
Proof.
  intros Hx H1 H2. unfold brings in Hx. destruct x.2 as [ps|]; [|by apply asks_ret].
  apply asks_setInfo; [intros d; apply H1|]. intros i. by apply H2.
Qed.

Lemma asks_queryCapabilities : asks (raw versioned) (fun _ => True) queryCapabilities.
Proof.
  unfold queryCapabilities. eapply asks_bind; [by apply (asks_send_cmd _ p Hp (raw_device _))|]. intros [f w] Hw.
  eapply asks_bind; [by apply (asks_storeWritten (f, w))|]. intros _ _. destruct f; [by apply asks_ret|].
  apply asks_dget. intros d _. destruct (_ =? 1); [by apply asks_ret|].
  eapply asks_bind; [by apply (asks_send_cmd _ p Hp (raw_device _))|]. intros [f' w'] Hw'.
  eapply asks_bind; [by apply (asks_storeWritten (f', w'))|]. intros _ _. by apply asks_ret.
Qed.

Lemma leads_QueryInfo l : leads (raw any) l (unless any found) l elantechQueryInfo.
Proof.
  unfold elantechQueryInfo. eapply leads_asks; [by apply (asks_synaptics _ p Hp (raw_device _))|]. intros [f w] Hw.
  unfold brings in Hw. cbn [fst snd] in Hw. cbv beta iota. destruct f; [apply leads_fails|].
  destruct w as [[|a [|b [|c []]]]|]; try done. do 2 (eapply leads_deref; [reflexivity|]).
  eapply leads_asks; [by apply asks_setInfo|]. intros _ _.
  eapply talk_leads_bind; [apply leads_SetProperties|]. intros []; [by apply leads_ret|].
  eapply leads_asks; [apply asks_queryCapabilities|]. intros [] _; [apply leads_fails|].
  apply leads_dget. intros d Hd. pose proof (el_capabilities _ _ (er_loose _ _ _ _ Hd)) as Hc.
  pose proof (el_samples _ _ (er_loose _ _ _ _ Hd)) as Hs.
  destruct (arr_get_Some (samples (info d)) 1 ltac:(lia)) as (s1 & E1 & _), (arr_get_Some (capabilities (info d)) 0 ltac:(lia)) as (c0 & E0 & _).
  eapply leads_deref; [exact E1|]. eapply leads_deref; [exact E0|]. destruct (_ && _); [apply leads_fails|].
  eapply (talk_leads_bind _ _ (fun _ => raw found)).
  { apply leads_dset; [|done]. intros d1 Hd1. destruct (er_also _ _ _ _ Hd1) as [V1 V2].
    apply (raw_setInfo _ _ versioned); [done|apply (er_loose _ _ _ _ Hd1)..|]. by split. }
  intros _. eapply (leads_asks _ (fun _ => True)).
  { destruct (_ =? 4); [|by apply asks_ret]. eapply asks_bind; [apply asks_resolution_v4|]. intros _ _. by apply asks_ret. }
  intros _ _. eapply leads_asks; [apply asks_queryRange|]. intros [] _; [apply leads_fails|].
  do 2 (eapply leads_asks; [by apply asks_size|]; intros _ _). by apply leads_ret.
Qed.

End Find.

(** ** Settings *)

(** An invariant that does not look at the settings. *)
Definition open_settings (I : ApplePS2Elan -> Prop) : Prop :=
  forall d s g, I d -> I {| d with settings := s; ignoreall := g |}.

Section Settings.
Context {B : Type} `{HB : PS2Bus B} (I : ApplePS2Elan -> Prop) (HI : open_settings I).
#[local] Abbreviation W := (DrvWorld B ApplePS2Elan ElanEvent).
#[local] Abbreviation C := (M W).
#[local] Abbreviation ends := (ends (B := B) (E := ElanEvent)).

Lemma settings_kept (f : ElanSettings -> ElanSettings) d : I d -> I (onSettings f d).
Proof. intros Hd. destruct d. exact (HI _ _ _ Hd). Qed.

Lemma elan_ends_setParamPropertiesGated c : ends I I (setParamPropertiesGated c).
Proof.
  destruct c as [c|]; [|apply ends_ret]. cbn [setParamPropertiesGated]. pose proof settings_kept as HS.
  apply ends_seq; [destruct (getBoolean c _); [by apply ends_tell|apply ends_ret]|intros _].
  apply ends_seq; [apply ends_each; intros [name f]; by apply ends_readInt32|intros _].
  apply ends_seq; [by apply ends_readInt64|intros _].
  apply ends_seq; [apply ends_each; intros [name f]; by apply ends_readBool|intros _].
  apply ends_seq; [by apply ends_readLowbit|intros _].
  apply (ends_bind I I I).
  { apply ends_dset; intros d; [|by destruct (attachedHIDPointerDevices d) as [[]|]]. intros Hd.
    pose proof (HI d (settings d) (usb_mouse_stops_trackpad (settings d)) Hd) as H.
    destruct d as [? ? ? ? ? ? ? ? ? ? ? ? [[]|] ? ? ? ?]; done. }
  intros _. apply ends_dget_bind. intros d _. apply ends_weak. by apply ends_tell.
Qed.

Lemma ends_inject a b c : ends I I (injectVersionDependentProperties a b c).
Proof.
  unfold injectVersionDependentProperties. destruct (versionProperties a b c); [|apply ends_ret].
  apply ends_each. intros [k o]. by apply ends_tell.
Qed.

Lemma ends_setProperties props : ends I I (setProperties props).
Proof.
  unfold setProperties. apply ends_dget_bind. intros d _. apply ends_weak. destruct (asDictionary props); [|apply ends_ret].
  apply ends_when. intros _. apply elan_ends_setParamPropertiesGated.
Qed.

End Settings.

(** ** Probe *)

Lemma raw_open n o : open_settings (elan_raw n o (fun _ => True)).
Proof. intros d s g [[L1 L2 L3 L4 L5 L6] H2 H3 H4 H5 H6 H7]. by split. Qed.

Section Probe.
Context {B : Type} `{HB : PS2Bus B} `{HL : !PS2BusLaws B} (n p : Z) (Hp : 0 <= p < kPS2MuxMaxIdx).
#[local] Abbreviation leads := (leads (B := B)).
#[local] Abbreviation raw o P := (elan_raw n o P).

(** A driver that [probe] refuses is as it was, or keeps its nub; one that it accepts knows its touchpad. *)
Definition probed (ok : bool) (d : ApplePS2Elan) : Prop :=
  if ok then elan_raw n None found d else exists o, elan_raw n o (fun _ => True) d.

Lemma raw_setDevice o o' P d : elan_raw n o P d -> (forall q, o' = Some q -> 0 <= q < kPS2MuxMaxIdx) ->
  P {| d with _device := o' |} -> elan_raw n o' P {| d with _device := o' |}.
Proof. intros [[L1 L2 L3 L4 L5 L6] H2 H3 H4 H5 H6 H7] Hq HP. by split. Qed.

Lemma leads_probe a b config : leads (elan_raw n None (fun _ => True)) false probed false (probe a b p config).
Proof.
  set (I := elan_raw n (Some p) (fun _ => True)). pose proof (elan_raw_keeps n (Some p) (fun _ => True) : KeepsInv I) as HK.
  assert (Hfail : forall l, leads I l probed l (ret false)) by (intros l; apply leads_ret; intros d Hd; by exists (Some p)).
  unfold probe. eapply (talk_leads_bind _ _ (fun _ => I)).
  { apply leads_dset; [|done]. intros d Hd. apply (raw_setDevice None); [done|by intros q [= <-]|done]. }
  intros _. eapply (leads_moves _ _ I true); [apply moves_lock; exact _|]. intros _.
  eapply (leads_moves _ _ I false); [apply moves_unlock; exact _|]. intros _.
  destruct (bool_decide _).
  { eapply (talk_leads_bind _ _ (fun _ => elan_raw n None (fun _ => True))).
    - apply leads_dset; [|done]. intros d Hd. by apply (raw_setDevice (Some p)).
    - intros _. apply leads_ret. intros d Hd. by exists None. }
  eapply (leads_moves _ _ I false).
  { apply moves_ends. destruct config as [c|]; [|apply ends_ret].
    apply (ends_bind I I I); [apply elan_ends_setParamPropertiesGated, raw_open|intros _; by apply ends_inject]. }
  intros _. eapply leads_asks; [apply (asks_resetMouse I p Hp), er_device|]. intros _ _.
  eapply leads_asks; [apply (asks_detect I p Hp), er_device|]. intros [] _; [apply Hfail|].
  eapply leads_asks; [apply (asks_resetMouse I p Hp), er_device|]. intros _ _.
  eapply talk_leads_bind; [by apply leads_QueryInfo|]. intros []; [apply Hfail|]. cbn [unless].
  eapply (talk_leads_bind _ _ (fun _ => elan_raw n None found)); [|intros _; by apply leads_ret].
  apply leads_dset; [|done]. intros d Hd. apply (raw_setDevice (Some p)); [done..|apply (er_also _ _ _ _ Hd)].
Qed.

End Probe.

(** ** At work *)

(** A started driver: it has a set for the mice. *)
Record elan_on (n p : Z) (d : ApplePS2Elan) : Prop := {
  on_ok : elan_ok n (Some p) d;
  on_mice : attachedHIDPointerDevices d <> None }.

#[export] Instance elan_on_keeps n p : KeepsInv (elan_on n p).
Proof.
  split; [intros d q [Hd _]; exact (inv_port d q Hd)|]. intros d data [Hd Hm].
  cbn [drv_interrupt elan_driver drv_device drv_installed]. unfold interruptAction.
  destruct (_interruptHandlerInstalled d) eqn:Ei; [|by exists d, kPS2IR_packetBuffering].
  destruct (elan_interrupt_ok n (Some p) d data Hd) as (d' & r & E & Hd' & Ef). exists d', r.
  split; [done|]. pose proof (f_equal attachedHIDPointerDevices Ef) as Ea.
  split; [split; [done|]|split; [exact (f_equal _device Ef)|rewrite <- Ei; exact (f_equal _interruptHandlerInstalled Ef)]].
  change (attachedHIDPointerDevices d' = attachedHIDPointerDevices d) in Ea. by rewrite Ea.
Qed.

Lemma on_open n p : open_settings (elan_on n p).
Proof. intros d s g [[[L1 L2 L3 L4 L5 L6] H2 H3 H4 H5 H6 H7] Hm]. split; [by split|exact Hm]. Qed.

(** The members that [elan_on] does not look at. *)
Definition on_frame (d : ApplePS2Elan) : ApplePS2Elan :=
  {| d with settings := initSettings; ignoreall := false; keytime := 0; voodooInputInstance := None; _cmdGate := false;
            _powerControlHandlerInstalled := false; _interruptHandlerInstalled := false; usb_notify := false;
            bluetooth_notify := false; attachedHIDPointerDevices := None; etd := mkData 0 0 0 0 0 0 0 [] |}.

Lemma on_frame_ok n p d d' : elan_on n p d -> on_frame d' = on_frame d -> length (parity (etd d')) = 256%nat ->
  attachedHIDPointerDevices d' <> None -> elan_on n p d'.
Proof.
  intros [[[L1 L2 L3 L4 L5 L6] H2 H3 H4 H5 H6 H7] Hm] Ef Hl Hm'. destruct d, d'. unfold on_frame in Ef. cbn in *.
  injection Ef as; subst. split; [|done]. by split.
Qed.

Lemma on_parity n p d : elan_on n p d -> length (parity (etd d)) = 256%nat.
Proof. intros [[[]] _]. done. Qed.

Lemma on_clear n p d : elan_on n p d -> elan_on n p (clearPackets d).
Proof.
  intros [Hd Hm]. pose proof Hd as [[L1 L2 L3 L4 L5 L6] H2 H3 H4 H5 H6 H7]. destruct (elan_packet_ring _ _ _ Hd) as [Hp Hmod].
  split; [|done]. split; try done. cbn. lia.
Qed.

(** The parity table fits. *)
Lemma parityLoop_total l parity : Forall (fun i => 0 <= i < 256) l -> length parity = 256%nat ->
  exists t, parityLoop l parity = Some t /\ length t = 256%nat.
Proof.
  intros Hl. revert parity. induction Hl as [|i l Hi _ IH]; intros parity Hp; [by exists parity|]. cbn [parityLoop].
  assert (Hb : 0 <= Z.land i (i - 1) < 256).
  { by apply (land_bound i (i - 1) 8). }
  destruct (arr_get_Some parity _ ltac:(rewrite Hp; exact Hb)) as (x & E & _). rewrite E. cbn [mbind option_bind].
  rewrite arr_set_Some by lia. cbn [mbind option_bind]. apply IH. by rewrite length_insert.
Qed.

Lemma parityTable_total parity : length parity = 256%nat -> exists t, parityTable parity = Some t /\ length t = 256%nat.
Proof.
  intros Hp. unfold parityTable. rewrite arr_set_Some by lia. cbn [mbind option_bind].
  apply parityLoop_total; [|by rewrite length_insert]. apply Forall_forall. intros i Hi. apply elem_of_seqZ in Hi. lia.
Qed.

Section Life.
Context {B : Type} `{HB : PS2Bus B} `{HL : !PS2BusLaws B} (abs : Z -> Z) (n p : Z) (Hp : 0 <= p < kPS2MuxMaxIdx).
#[local] Abbreviation W := (DrvWorld B ApplePS2Elan ElanEvent).
#[local] Abbreviation C := (M W).
#[local] Abbreviation on := (elan_on n p).
#[local] Abbreviation asks := (asks (B := B)).
#[local] Abbreviation moves := (moves (B := B) (E := ElanEvent)).
#[local] Abbreviation ends := (ends (B := B) (E := ElanEvent)).

Lemma on_device_port d : on d -> _device d = Some p.
Proof. intros Hd. apply (eo_device _ _ _ (on_ok _ _ _ Hd)). Qed.

Lemma asks_keep f : (forall d, on_frame (f d) = on_frame d /\ parity (etd (f d)) = parity (etd d) /\
    attachedHIDPointerDevices (f d) = attachedHIDPointerDevices d /\ drv_installed (f d) = drv_installed d) ->
  asks on (fun _ => True) (dset f).
Proof.
  intros Hf. apply asks_dset; [|apply Hf]. intros d Hd. destruct (Hf d) as (H1 & H2 & H3 & _).
  apply (on_frame_ok _ _ d); [done|done|rewrite H2; by apply (on_parity n p)|rewrite H3; apply Hd].
Qed.

Lemma asks_writeMode : asks on (fun _ => True) writeMode.
Proof.
  assert (Hset : forall f, (forall e, parity (f e) = parity e) -> asks on (fun _ => True) (setData f)).
  { intros f Hf. apply asks_keep. intros d. cbn. by rewrite Hf. }
  assert (Hw : forall r v, asks on (fun _ => True) (elantechWriteReg r v)) by (intros; apply (asks_writeReg _ p Hp on_device_port)).
  unfold writeMode. apply asks_dget. intros d _.
  destruct (hw_version (info d)) as [|[[]|[|[]|]|]|]; try by apply asks_ret.
  all: apply asks_seq; [by apply Hset|intros _]; first [apply Hw|apply asks_anyFails; repeat apply Forall_cons_2; first [by apply Forall_nil_2|apply Hw]].
Qed.

Lemma asks_setAbsoluteMode : asks on (fun _ => True) elantechSetAbsoluteMode.
Proof.
  unfold elantechSetAbsoluteMode. apply asks_seq; [apply asks_writeMode|intros f]. apply asks_dget. intros d _.
  destruct (_ || _); [by apply asks_ret|]. apply asks_seq.
  - apply (asks_retrying on). apply asks_seq; [apply (asks_readReg _ p Hp on_device_port)|intros v; by apply asks_ret].
  - intros [[] v]; by apply asks_ret.
Qed.

Lemma asks_setupPS2 : asks on (fun _ => True) elantechSetupPS2.
Proof.
  unfold elantechSetupPS2. apply asks_seq.
  { apply asks_ends, ends_dstep. intros d Hd. destruct (parityTable_total _ (on_parity _ _ _ Hd)) as (t & -> & Ht).
    eexists. split; [reflexivity|]. split; [|done]. apply (on_frame_ok _ _ d); [done|done|exact Ht|apply Hd]. }
  intros _. apply asks_seq; [apply asks_setAbsoluteMode|intros [|]; [by apply asks_ret|]]. apply asks_seq.
  { apply asks_ends. unfold elantechSetInputParams. apply (ends_bind on on on).
    - apply ends_setDimensions. intros d Hd. apply (eo_info _ _ _ (on_ok _ _ _ Hd)).
    - intros _. do 2 (apply (ends_bind on on on); [by apply ends_tell|intros _]). by apply ends_tell. }
  intros _. apply asks_dget. intros d _. eapply asks_bind; [by apply (asks_submit _ p Hp on_device_port)|].
  intros r _. by apply asks_ret.
Qed.

Lemma asks_setUpAgain : asks on (fun _ => True) setUpAgain.
Proof.
  unfold setUpAgain. apply asks_seq; [apply (asks_resetMouse _ p Hp on_device_port)|intros _].
  apply asks_seq; [apply asks_setupPS2|intros _]. apply (asks_setTouchPadEnable _ p Hp on_device_port).
Qed.

Lemma asks_rest ms (k : C unit) : asks on (fun _ => True) k -> asks on (fun _ => True) (onController (bus_sleep ms) ;; k).
Proof. intros Hk. apply asks_seq; [apply asks_sleep; exact _|by intros _]. Qed.

Lemma asks_message m : asks on (fun _ => True) (message m).
Proof.
  destruct m as [|enable|reqCode|t|]; cbn [message].
  - apply asks_dget. intros d _. by apply asks_ret.
  - apply asks_seq; [by apply asks_keep|intros _; by apply asks_ret].
  - apply asks_seq; [|intros _; by apply asks_ret]. destruct (reqCode =? 1); [cbn [when]|by apply asks_ret].
    apply asks_seq; [apply (asks_setTouchPadEnable _ p Hp on_device_port)|intros _]. apply asks_dget. intros d _.
    apply asks_rest, asks_seq; [|intros _; apply asks_setUpAgain].
    apply asks_dset; [|done]. intros d1 Hd1. apply on_clear. apply (on_frame_ok _ _ d1); [done|done|exact (on_parity _ _ _ Hd1)|apply Hd1].
  - apply asks_seq; [by apply asks_keep|intros _; by apply asks_ret].
  - by apply asks_ret.
Qed.

Lemma asks_power what : asks on (fun _ => True) (setDevicePowerState what).
Proof.
  unfold setDevicePowerState. destruct (_ =? _); [apply (asks_setTouchPadEnable _ p Hp on_device_port)|].
  destruct (_ =? _); [cbn [when]|by apply asks_ret]. apply asks_dget. intros d _.
  apply asks_rest, asks_seq; [|intros _; apply asks_setUpAgain]. apply asks_dset; [apply on_clear|done].
Qed.

Lemma asks_hid bt e service : asks on (fun _ => True) (notificationHIDAttachedHandler bt e service).
Proof.
  unfold notificationHIDAttachedHandler, notificationHIDAttachedHandlerGated. apply asks_dget. intros d _.
  destruct (_cmdGate d); [cbn [when]|by apply asks_ret]. apply asks_dget. intros d1 _.
  destruct (if isUsb e then _ else _); [cbn [when]|by apply asks_ret].
  apply asks_dget. intros d2 Hd2. pose proof (on_mice _ _ _ Hd2) as Hm.
  destruct (attachedHIDPointerDevices d2) as [l|]; [|done]. eapply asks_deref; [reflexivity|]. cbv zeta.
  apply asks_dset; [|done]. intros d3 Hd3. apply (on_frame_ok _ _ d3); [done|done|exact (on_parity _ _ _ Hd3)|done].
Qed.

Lemma asks_open c b : asks on (fun _ => True) (handleOpen c b).
Proof. destruct c; [|by apply asks_ret]. destruct b; [|by apply asks_ret]. apply asks_seq; [by apply asks_keep|intros _; by apply asks_ret]. Qed.

Lemma asks_close c : asks on (fun _ => True) (handleClose c).
Proof. apply asks_keep. intros d. by case_bool_decide. Qed.

(** *** From start to stop *)

Lemma ready_on d l q b : elan_raw n (Some p) found d ->
  on {| d with attachedHIDPointerDevices := Some l; usb_notify := q; bluetooth_notify := b |}.
Proof.
  intros Hd. pose proof (raw_ok n (Some p) d Hd) as [[L1 L2 L3 L4 L5 L6] H2 H3 H4 H5 H6 H7]. split; [by split|done].
Qed.

Lemma leads_startDevice : leads (elan_raw n (Some p) found) false (fun _ => on) false startDevice.
Proof.
  unfold startDevice. eapply (leads_moves _ _ (elan_raw n (Some p) found) true); [apply moves_lock; exact _|]. intros _.
  eapply (leads_moves _ _ on true).
  { apply moves_dset; [|done]. intros d Hd. by apply ready_on. }
  intros _. eapply leads_asks; [apply asks_setupPS2|]. intros _ _. eapply (leads_moves _ _ on true).
  { apply (moves_install on). intros d Hd. apply (on_frame_ok _ _ d); [done|done|exact (on_parity _ _ _ Hd)|apply Hd]. }
  intros _. eapply leads_asks; [apply (asks_setTouchPadEnable _ p Hp on_device_port)|]. intros _ _.
  apply (moves_unlock on).
Qed.

Definition started (ok : bool) (d : ApplePS2Elan) : Prop := if ok then on d else elan_raw n None found d.

Lemma leads_start workLoop gate : leads (elan_raw n None found) false started false (start p workLoop gate).
Proof.
  unfold start. eapply (leads_moves _ _ (elan_raw n (Some p) found) false).
  { apply moves_dset; [|done]. intros d Hd. apply (raw_setDevice _ None); [done|by intros q [= <-]|apply (er_also _ _ _ _ Hd)]. }
  intros _. apply leads_dget. intros d _.
  eapply (leads_moves _ _ (elan_raw n (Some p) found) false); [by apply moves_tell|]. intros _.
  eapply (leads_moves _ _ (elan_raw n (Some p) found) false).
  { apply moves_dset; [|done]. intros d1 [[L1 L2 L3 L4 L5 L6] H2 H3 H4 H5 H6 H7]. by split. }
  intros _. destruct (_ || _).
  - eapply (leads_moves _ _ (elan_raw n None found) false); [|intros _; by apply leads_ret].
    apply moves_dset; [|done]. intros d1 Hd. apply (raw_setDevice _ (Some p)); [done|done|apply (er_also _ _ _ _ Hd)].
  - eapply talk_leads_bind; [apply leads_startDevice|]. intros [].
    eapply leads_asks; [apply moves_asks; intros l; apply moves_steady; [exact _|apply law_installPower]|]. intros _ _.
    eapply leads_asks; [by apply asks_keep|]. intros _ _. by apply leads_ret.
Qed.

Definition elan_stopped (d : ApplePS2Elan) : Prop := _device d = None /\ _interruptHandlerInstalled d = false.

(** A driver that takes no more bytes. *)
Definition deaf (d : ApplePS2Elan) : Prop := elan_ok n (Some p) d /\ _interruptHandlerInstalled d = false.

Lemma deaf_keeps : KeepsInv deaf.
Proof.
  split; [intros d q [Hd _]; exact (inv_port d q Hd)|]. intros d data [Hd Hi].
  destruct (inv_interrupt d data Hd) as (d' & r & E & Hd' & Ed & Ei). exists d', r.
  split; [done|]. split; [split; [done|]|done]. cbn [drv_installed elan_driver] in Ei. congruence.
Qed.

Lemma moves_lastSteps : moves deaf false elan_stopped false
  (q ← dget _powerControlHandlerInstalled;
   when q (onController bus_uninstallPower ;; dset (fun d => {| d with _powerControlHandlerInstalled := false |})) ;;
   dset (fun d => {| d with _device := None |})).
Proof.
  pose proof deaf_keeps as HK. apply moves_dget_bind. intros d _. apply moves_weak.
  apply (drv_moves_bind _ _ deaf false); [|intros _; apply moves_dset; [by intros d1 [_ Hi]|done]].
  apply drv_moves_when. intros _. apply (drv_moves_bind _ _ deaf false); [apply moves_steady; [exact _|apply law_uninstallPower]|].
  intros _. apply moves_dset; [|done]. intros d1 [[[L1 L2 L3 L4 L5 L6] H2 H3 H4 H5 H6 H7] Hi]. by split.
Qed.

Lemma ok_frame_ok d g i : elan_ok n (Some p) d ->
  elan_ok n (Some p) {| d with _cmdGate := g; _interruptHandlerInstalled := i; attachedHIDPointerDevices := None |}.
Proof. intros [[L1 L2 L3 L4 L5 L6] H2 H3 H4 H5 H6 H7]. by split. Qed.

Lemma moves_elan_stop workLoop : moves on false elan_stopped false (stop workLoop).
Proof.
  unfold stop.
  apply (drv_moves_bind _ _ (elan_ok n (Some p)) false).
  { apply moves_ends. unfold unregisterHIDPointerNotifications. apply ends_dget_bind. intros d Hd. apply ends_weak.
    pose proof (on_mice _ _ _ Hd) as Hm. destruct (attachedHIDPointerDevices d) as [l|]; [|done].
    eapply ends_deref_bind; [reflexivity|]. apply ends_dset; [|done]. intros d1 [Hd1 _]. destruct d1.
    exact (ok_frame_ok _ _ _ Hd1). }
  intros _. apply (drv_moves_bind _ _ (elan_ok n (Some p)) false).
  { eapply asks_moves, (asks_setTouchPadEnable _ p Hp). apply eo_device. }
  intros _. apply (drv_moves_bind _ _ (elan_ok n (Some p)) false).
  { apply drv_moves_when. intros _. apply moves_dset; [|done]. intros d [[L1 L2 L3 L4 L5 L6] H2 H3 H4 H5 H6 H7]. by split. }
  intros _ w Hw. apply wp_bind, wp_gets, wp_bind. eapply (wp_mono _ (fun _ w' => good deaf false w')).
  2:{ intros _ w' Hw'. by apply moves_lastSteps. }
  cbn [drv_installed elan_driver]. destruct (_interruptHandlerInstalled (self w)) eqn:Ei; cbn [when].
  - apply (moves_uninstall (elan_ok n (Some p)) deaf false); [|done|exact Hw|exact Ei].
    intros d [[L1 L2 L3 L4 L5 L6] H2 H3 H4 H5 H6 H7]. split; [by split|done].
  - destruct Hw as [H1 H2 H3 H4 H5]. by split.
Qed.

End Life.
