(* ===== verification/ElanSpec.v ===== *)
(** * What the Elan driver promises

    Safety from [probe] to [stop] while packets name only fingers there are, the crash
    when one names another, and the frames of version 4, which become exactly
    their fingers. *)
From S2P Require Import Prelude PS2Types RingBuffer RingSpec Bus KeyboardBench.
From S2P Require Import DriverWorld Talk RingLoop OSTypes Touch Trackpad Elan ElanDriver ElanSafe ElanRun.

(** ** Safety *)

(** What may happen between [start] and [stop], with the arguments that matter. *)
Inductive ElanOp :=
| ElanByte (data : Z)
| ElanPackets
| ElanMessaged (m : ElanMessage)
| ElanPower (whatToDo : Z)
| ElanProperties (props : OSObject)
| ElanMouse (bt : BluetoothCodes) (e : HidEvent) (service : Z)
| ElanOpened (client : option Z) (isVoodooInput : bool)
| ElanClosed (client : option Z).

(** The waiting packets name only fingers there are. *)
Definition fingers_known (d : ApplePS2Elan) : Prop := Forall (packet_known (info d)) (waitingPackets d).

Definition allowed (o : ElanOp) (d : ApplePS2Elan) : Prop :=
  match o with ElanPackets => fingers_known d | _ => True end.

Section Life.
Context {B : Type} `{HB : PS2Bus B} (abs : Z -> Z) (n p : Z).
#[local] Abbreviation W := (DrvWorld B ApplePS2Elan ElanEvent).
#[local] Abbreviation C := (M W).

Definition run_elan (o : ElanOp) : C unit :=
  match o with
  | ElanByte data => interrupted data ;; ret tt
  | ElanPackets => packetReady abs
  | ElanMessaged m => message m ;; ret tt
  | ElanPower what => setDevicePowerState what
  | ElanProperties props => setProperties props
  | ElanMouse bt e service => notificationHIDAttachedHandler bt e service
  | ElanOpened c b => handleOpen c b ;; ret tt
  | ElanClosed c => handleClose c
  end.

(** A new driver before [probe]. *)
Record elan_new (w : W) : Prop := {
  en_self : self w = newElan n;
  en_told : told w = [];
  en_host : bus_ok (host w);
  en_lock : bus_locked (host w) = false }.

(** The worlds a driver on port [p] is in between [start] and [stop]. *)
Inductive elan_running : W -> Prop :=
| elan_started w0 w1 w2 major minor config workLoop gate :
    elan_new w0 -> probe major minor p config w0 = Ok (w1, true) -> start p workLoop gate w1 = Ok (w2, true) ->
    elan_running w2
| elan_stepped w w' o : elan_running w -> allowed o (self w) -> run_elan o w = Ok (w', tt) -> elan_running w'.

End Life.

Section Safe.
Context {B : Type} `{HB : PS2Bus B} `{HL : !PS2BusLaws B} (abs : Z -> Z) (n p : Z) (Hp : 0 <= p < kPS2MuxMaxIdx).
Context (Hn : ETP_MAX_FINGERS <= n).
#[local] Abbreviation W := (DrvWorld B ApplePS2Elan ElanEvent).
#[local] Abbreviation running := (elan_running (B := B) abs n p).

Lemma elan_new_good w : elan_new n w -> good (elan_raw n None (fun _ => True)) false w.
Proof.
  intros [H1 H2 H3 H4]. split; [rewrite H1; by apply newElan_raw|done|done|by rewrite H1|rewrite H2; constructor].
Qed.

Lemma run_elan_ok o (w : W) : good (elan_on n p) false w -> allowed o (self w) ->
  wp (run_elan abs o) (fun _ w' => good (elan_on n p) false w') w.
Proof.
  intros Hw Ho. assert (Hask : forall m : M W unit, asks (elan_on n p) (fun _ => True) m -> wp m (fun _ w' => good (elan_on n p) false w') w).
  { intros m Hm. eapply wp_mono; [by apply Hm|]. by intros _ w' []. }
  destruct o as [data| |m|what|props|bt e service|c b|c]; cbn [run_elan].
  - apply wp_bind. destruct Hw as [H1 H2 H3 H4 H5]. unfold wp, interrupted.
    destruct (inv_interrupt (self w) data H1) as (d' & r & E & Hd' & _ & Ei). rewrite E.
    split; try done. cbn [self]. by rewrite Ei.
  - pose proof Hw as [[Hok Hm] H2 H3 H4 H5]. cbn [allowed] in Ho.
    apply total_wp. eapply total_mono; [apply (ends_packetReady abs n (Some p) (attachedHIDPointerDevices (self w))); by split|].
    cbn beta. intros _ w' ((K1 & K2 & _) & E1 & _ & E2 & E3). split; [split; [done|by rewrite K2]|..]; rewrite ?E1, ?E2; auto.
  - apply Hask. eapply asks_bind; [by apply asks_message|]. intros _ _. by apply asks_ret.
  - by apply Hask, asks_power.
  - apply Hask, asks_ends, ends_setProperties, on_open.
  - by apply Hask, asks_hid.
  - apply Hask. eapply asks_bind; [by apply asks_open|]. intros _ _. by apply asks_ret.
  - by apply Hask, asks_close.
Qed.

Lemma running_good w : running w -> good (elan_on n p) false w.
Proof.
  induction 1 as [w0 w1 w2 major minor config workLoop gate Hnew E1 E2|w w' o _ IH Ho E].
  - pose proof (wp_ok _ _ _ _ _ (leads_probe n p Hp major minor config w0 (elan_new_good _ Hnew)) E1) as H1.
    exact (wp_ok _ _ _ _ _ (leads_start n p Hp workLoop gate w1 H1) E2).
  - exact (wp_ok _ _ _ _ _ (run_elan_ok o w IH Ho) E).
Qed.

(** C30: the Elan driver is safe from [probe] to [stop] as long as the packets of its
    work loop name only fingers there are.  Over any bus that keeps the promises of
    [PS2BusLaws], whatever the configuration and the touchpad's answers, [probe] and
    [start] crash nowhere; in every state reached from there by bytes, work-loop calls
    on such packets, messages, settings, attached mice, clients and power changes in
    any order, none of them leaves an array, divides by zero or uses a null pointer,
    the work loop ends, and [stop] leaves the driver off its device with the lock free. *)
Theorem elan_safe major minor config (w0 : W) :
  elan_new n w0 ->
  wp (probe major minor p config) (fun found w1 => found = true -> forall workLoop gate,
    wp (start p workLoop gate) (fun _ _ => True) w1) w0 /\
  (forall w, running w ->
    (forall o, allowed o (self w) -> wp (run_elan abs o) (fun _ _ => True) w) /\
    (fingers_known (self w) -> exists w', packetReady abs w = Ok (w', tt)) /\
    forall workLoop, wp (stop workLoop) (fun _ w' =>
      _device (self w') = None /\ bus_ok (host w') /\ bus_locked (host w') = false) w).
Proof.
  intros H0. split; [|intros w Hw%running_good; split; [|split]].
  - eapply wp_mono; [exact (leads_probe n p Hp major minor config w0 (elan_new_good _ H0))|].
    cbn beta. intros found w1 H1 -> workLoop gate. eapply wp_mono; [by apply (leads_start n p Hp workLoop gate w1 H1)|done].
  - intros o Ho. eapply wp_mono; [by apply run_elan_ok|done].
  - intros Hk. pose proof Hw as [[Hok Hm] H2 H3 H4 H5].
    destruct (ends_packetReady abs n (Some p) (attachedHIDPointerDevices (self w)) w) as (w' & [] & E & _); [by split|].
    by exists w'.
  - intros workLoop. eapply wp_mono; [by apply (moves_elan_stop n p Hp)|]. by intros _ w' [[] ? ? ? ?].
Qed.

End Safe.

(** ** A life on the bench *)

#[export] Instance packet_known_dec i packet : Decision (packet_known i packet).
Proof. unfold packet_known. apply _. Defined.
#[export] Instance allowed_dec o d : Decision (allowed o d).
Proof. destruct o; cbn [allowed]; unfold fingers_known; apply _. Defined.

(** A touchpad of version 4 that answers each question alike. *)
#[local] Instance elan_bus : PS2Bus BenchHost := answering (answerList [0; 0x3c; 0x03; 0x00]).
#[local] Instance elan_laws : PS2BusLaws BenchHost := answering_laws _ (answerList_shape _).

Definition elan_bench : DrvWorld BenchHost ApplePS2Elan ElanEvent :=
  mkDrvWorld (newElan 10) (mkBenchHost false false false) 600000000 [].

(** Operations one after the other, as long as they are allowed and end. *)
Fixpoint run_allowed (ops : list ElanOp) (w : DrvWorld BenchHost ApplePS2Elan ElanEvent) :
    option (DrvWorld BenchHost ApplePS2Elan ElanEvent) :=
  match ops with
  | [] => Some w
  | o :: ops =>
    if bool_decide (allowed o (self w)) then
      match run_elan (fun t => t) o w with Ok (w', _) => run_allowed ops w' | _ => None end
    else None
  end.

Lemma run_allowed_running p ops w w' : elan_running (fun t => t) 10 p w -> run_allowed ops w = Some w' ->
  elan_running (fun t => t) 10 p w'.
Proof.
  revert w. induction ops as [|o ops IH]; intros w Hw; cbn [run_allowed]; [by intros [= <-]|].
  case_bool_decide as Ho; [|done]. destruct (run_elan (fun t => t) o w) as [[w1 []]| |] eqn:E; [|done..].
  apply IH. by apply (elan_stepped _ _ _ w w1 o).
Qed.

(** A run that ends with [true]. *)
Definition succeeds {S} (r : outcome (S * bool)) : option S :=
  match r with Ok (w, true) => Some w | _ => None end.

Lemma succeeds_bind {S X} (r : outcome (S * bool)) (k : S -> option X) x :
  (w ← succeeds r; k w) = Some x -> exists w, r = Ok (w, true) /\ k w = Some x.
Proof. destruct r as [[w []]| |]; try done. by exists w. Qed.

(** [probe], [start] and then the operations. *)
Definition elan_from_probe (w0 : DrvWorld BenchHost ApplePS2Elan ElanEvent) (ops : list ElanOp) :
    option (DrvWorld BenchHost ApplePS2Elan ElanEvent) :=
  w1 ← succeeds (probe 20 0 1 None w0); w2 ← succeeds (start 1 true true w1); run_allowed ops w2.

Lemma from_probe_running w0 ops w : elan_new 10 w0 -> elan_from_probe w0 ops = Some w ->
  elan_running (fun t => t) 10 1 w.
Proof.
  intros H0 E. unfold elan_from_probe in E. destruct (succeeds_bind _ _ _ E) as (w1 & E1 & F). destruct (succeeds_bind _ _ _ F) as (w2 & E2 & G).
  apply (run_allowed_running 1 ops w2); [|exact G].
  exact (elan_started _ _ _ w0 w1 w2 20 0 None true true H0 E1 E2).
Qed.

(** A client, one finger, sleep, and a mouse that comes and goes. *)
Definition elan_ops : list ElanOp :=
  ElanOpened (Some 7) true ::
  map ElanByte [0x00; 0x01; 0x00; 0x10; 0x00; 0x00; 0x00; 0x01; 0x23; 0x31; 0x00; 0x10] ++
  [ElanPackets; ElanMouse (mkBluetoothCodes 5 1 2 3 4 5) UsbPublished 9; ElanMouse (mkBluetoothCodes 5 1 2 3 4 5) UsbTerminated 9;
   ElanPower kPS2C_DisableDevice; ElanPower kPS2C_EnableDevice; ElanMessaged (ResetTouchpad 1)].

(** What VoodooInput sees of an event: the number of contacts, and the finger and the place
    of each slot in use. *)
Definition contactOf (t : VoodooInputTransducer) : Z * Z * Z :=
  (tr_secondaryId t, tc_x (tr_current t), tc_y (tr_current t)).
Definition contactsOf (e : VoodooInputEvent) : Z * list (Z * Z * Z) :=
  (ev_contact_count e, map contactOf (filter (fun t => tr_isValid t = true) (ev_transducers e))).
Definition sentContacts (l : list ElanEvent) : list (Z * list (Z * Z * Z)) :=
  omap (fun e => match e with ElanTouchEvent _ e => Some (contactsOf e) | _ => None end) l.

Lemma elan_ops_run : exists w, elan_from_probe elan_bench elan_ops = Some w /\ sentContacts (told w) = [(1, [(0, 0x123, 0x2f0)])].
Proof. eexists. split; vm_compute; reflexivity. Qed.

Lemma elan_safe_witness : exists w, elan_from_probe elan_bench elan_ops = Some w /\
  wp (stop true) (fun _ w' => _device (self w') = None /\ bus_ok (host w') /\ bus_locked (host w') = false) w.
Proof.
  assert (H0 : elan_new 10 elan_bench) by (by split).
  assert (H1 : 0 <= 1 < kPS2MuxMaxIdx) by done. assert (H2 : ETP_MAX_FINGERS <= 10) by done.
  destruct elan_ops_run as (w & E & _). exists w. split; [exact E|].
  exact (proj2 (proj2 (proj2 (elan_safe (fun t => t) 10 1 H1 H2 20 0 None elan_bench H0) w
    (from_probe_running _ _ _ H0 E))) true).
Defined.

(** ** A finger there is no room for *)

Lemma onFinger_out i f l : Z.of_nat (length l) <= i -> onFinger i f l = None.
Proof. intros Hi. unfold onFinger, arr_get.
  rewrite (proj2 (Z.ltb_ge i 0)) by lia. by rewrite lookup_ge_None_2 by lia.
Qed.

Lemma processHead_out i p0 p1 p2 p3 p4 p5 t : length (virtualFinger t) = 5%nat -> ETP_MAX_FINGERS <= fingerId p3 ->
  processHead i [p0; p1; p2; p3; p4; p5] t = None.
Proof.
  intros Hl Hi. unfold ETP_MAX_FINGERS in Hi. unfold processHead. simpl. fold (fingerId p3).
  destruct (Z.ltb_spec (fingerId p3) 0) as [?|_]; [lia|]. by rewrite onFinger_out by (simpl; lia).
Qed.

Lemma processMotion_out p0 p1 p2 p3 p4 p5 t : length (virtualFinger t) = 5%nat -> 0 <= fingerId p0 ->
  ETP_MAX_FINGERS <= fingerId p0 \/ ETP_MAX_FINGERS <= fingerId p3 ->
  processMotion [p0; p1; p2; p3; p4; p5] t = None.
Proof.
  intros Hl H0 Hi. unfold ETP_MAX_FINGERS in Hi. unfold processMotion. simpl. fold (fingerId p0) (fingerId p3).
  destruct (Z.ltb_spec (fingerId p0) 0) as [?|_]; [lia|].
  destruct (decide (fingerId p0 < 5)) as [Hs|Hs]; [|by rewrite onFinger_out by (simpl; lia)].
  match goal with |- context [onFinger (fingerId p0) ?f _] => destruct (onFinger_ok (fingerId p0) f (virtualFinger t)) as (l & -> & E) end; [lia|].
  simpl. destruct (Z.leb_spec 0 (fingerId p3)) as [_|?]; [|lia]. by rewrite onFinger_out by lia.
Qed.

Section Unknown.
Context {B : Type} `{HB : PS2Bus B} (abs : Z -> Z) (n : Z) (o : option Z).
#[local] Abbreviation W := (DrvWorld B ApplePS2Elan ElanEvent).

Lemma reportV4_out f (w : W) : f (self w) = None -> reportV4 abs f w = Crash.
Proof. intros E. unfold reportV4. rewrite (bind_ok (dget f) _ w w (f (self w))) by done. by rewrite E. Qed.

Lemma unknown_crashes packet (w : W) : length packet = 6%nat -> hw_version (info (self w)) = 4 -> ignoreall (self w) = false ->
  touch_ok n (touches (self w)) -> Exists (fun id => ETP_MAX_FINGERS <= id) (namedFingers (info (self w)) packet) ->
  handlePacket abs packet w = Crash.
Proof.
  intros (p0 & p1 & p2 & p3 & p4 & p5 & ->)%packet_bytes Hv Hi [_ _ Hl] Hx. unfold namedFingers in Hx. unfold handlePacket.
  rewrite (bind_ok (dget _) _ w w (ignoreall (self w))) by done. rewrite Hi. cbn [when negb]. unfold processPacket.
  rewrite (bind_ok (dget _) _ w w (info (self w))) by done. rewrite Hv.
  destruct (elantechPacketCheckV4 (info (self w)) [p0; p1; p2; p3; p4; p5]) as [type|] eqn:Et; [|done].
  rewrite (bind_ok (deref (Some type)) _ w w type) by done. destruct type; try by inversion Hx.
  - apply reportV4_out, processHead_out; [done|]. inversion Hx as [? ? H|? ? H]; [exact H|inversion H].
  - cbn [nth] in Hx. destruct (Z.ltb_spec (fingerId p0) 0) as [?|H0]; [inversion Hx|].
    apply reportV4_out, processMotion_out; [done|done|]. rewrite !Exists_cons, Exists_nil in Hx. tauto.
Qed.

(** C31: a packet that names a sixth or a seventh finger takes the Elan driver out of its
    array.  A head or motion packet of version 4 has three bits for the number of a finger,
    and the driver five virtual fingers; when the next packet of a driver at work names
    one beyond them, [packetReady] crashes, whatever else the packet says. *)
Theorem elan_unknown_finger packet rest (w : W) :
  elan_ok n o (self w) -> hw_version (info (self w)) = 4 -> ignoreall (self w) = false ->
  waitingPackets (self w) = packet :: rest ->
  Exists (fun id => ETP_MAX_FINGERS <= id) (namedFingers (info (self w)) packet) ->
  packetReady abs w = Crash.
Proof.
  intros Hd Hv Hi Hw Hx. destruct (elan_packet_ring _ _ _ Hd) as [Hp Hm]. pose proof (eo_ring _ _ _ Hd) as Ha.
  assert (Hl : length packet = Z.to_nat (_packetLength (self w))).
  { eapply (pending_packet_length ELAN_RING (_packetLength (self w))); [done..|exact Ha|].
    unfold waitingPackets in Hw. cbn [ringSize ringPacket ringOf elan_ring] in Hw. rewrite Hw. by left. }
  rewrite (eo_packet _ _ _ Hd), Hv in Hl. unfold packetReady, drainRing, loop. cbn [iter]. rewrite ringRound_eq.
  unfold waitingPackets in Hw. cbn [ringSize ringPacket ringOf elan_ring] in *.
  destruct (Z.ltb_spec (count ELAN_RING (_ringBuffer (self w))) (_packetLength (self w))) as [Hc|Hc].
  { rewrite (pending_nil ELAN_RING (_packetLength (self w))) in Hw; done. }
  rewrite (advanceTail_pending ELAN_RING (_packetLength (self w))) in Hw by done. injection Hw as <- _.
  assert (E : handleFirst (handlePacket abs) (tail_slice (_packetLength (self w)) (_ringBuffer (self w))) w = Crash).
  { unfold handleFirst, mbind, M_bind, bind.
    by rewrite (unknown_crashes _ w Hl Hv Hi (el_touches _ _ (eo_loose _ _ _ Hd)) Hx). }
  unfold mbind, M_bind, bind. by rewrite E.
Qed.

End Unknown.

(** A touchpad that names a seventh finger. *)
Definition seventh_ops : list ElanOp := map ElanByte [0x00; 0x01; 0x23; 0xF1; 0x00; 0x10].

Definition sees_seventh (w : DrvWorld BenchHost ApplePS2Elan ElanEvent) : bool :=
  (hw_version (info (self w)) =? 4) && negb (ignoreall (self w)) &&
  bool_decide (waitingPackets (self w) = [[0x00; 0x01; 0x23; 0xF1; 0x00; 0x10]]) &&
  bool_decide (namedFingers (info (self w)) [0x00; 0x01; 0x23; 0xF1; 0x00; 0x10] = [6]).

Lemma seventh_run : exists w, elan_from_probe elan_bench seventh_ops = Some w /\ sees_seventh w = true.
Proof.
  assert (H : match elan_from_probe elan_bench seventh_ops with Some w => sees_seventh w | None => false end = true)
    by (vm_compute; reflexivity).
  destruct (elan_from_probe elan_bench seventh_ops) as [w|]; [by exists w|done].
Qed.

Lemma elan_unknown_finger_witness : exists w, elan_from_probe elan_bench seventh_ops = Some w /\
  packetReady (fun t => t) w = Crash.
Proof.
  assert (H0 : elan_new 10 elan_bench) by (by split).
  assert (H1 : 0 <= 1 < kPS2MuxMaxIdx) by done. assert (H2 : ETP_MAX_FINGERS <= 10) by done.
  assert (H3 : Exists (fun id => ETP_MAX_FINGERS <= id) [6]) by (by left).
  destruct seventh_run as (w & E & Hs). exists w. split; [exact E|]. unfold sees_seventh in Hs.
  rewrite !andb_true_iff in Hs. destruct Hs as [[[Hv%Z.eqb_eq Hi%negb_true_iff] Hw%bool_decide_eq_true] Hf%bool_decide_eq_true].
  assert (Hg : good (elan_on 10 1) false w) by exact (running_good (fun t => t) 10 1 H1 H2 w (from_probe_running _ _ _ H0 E)).
  refine (elan_unknown_finger (fun t => t) 10 (Some 1) _ [] w (on_ok _ _ _ (gd_self _ _ _ Hg)) Hv Hi Hw _).
  rewrite Hf. exact H3.
Defined.

(** ** Buttons *)

(** While a finger touches, a report holds only the buttons that changed: a left button that
    is held goes missing when the right one changes. *)
Theorem held_button_dropped t count : 0 < count -> leftButton t = 1 -> lastLeftButton t = 1 ->
  lastRightButton t <> rightButton t -> reportedButtons t count = Some (rightButton t).
Proof.
  intros Hc Hl Hll Hr. unfold reportedButtons. rewrite (proj2 (Z.eqb_neq count 0)) by lia.
  by rewrite Hl, Hll, (proj2 (Z.eqb_neq _ _) Hr).
Qed.
