(* ===== verification/ElanFrames.v ===== *)
(** * The frames of an Elan touchpad of version 4

    A touchpad sends a frame as a status packet, which says what fingers touch it, and
    a head packet for each of them, in any order.  The driver makes exactly those
    fingers of it. *)
From Stdlib Require Import Sorting.Sorted.
From S2P Require Import Prelude PS2Types RingBuffer Bus KeyboardBench.
From S2P Require Import DriverWorld Talk RingLoop OSTypes Touch Trackpad Elan ElanDriver ElanSafe ElanRun ElanSpec.

(** ** Frames *)

Record Contact := mkContact { ct_id : Z; ct_x : Z; ct_y : Z; ct_pressure : Z; ct_traces : Z }.

(** On a pad of [ymax] rows, which the touchpad counts from the other side. *)
Definition contact_ok (ymax : Z) (c : Contact) : Prop :=
  0 <= ct_id c < ETP_MAX_FINGERS /\ 0 <= ct_x c < 4096 /\ 0 <= ct_y c <= ymax /\ ymax - ct_y c < 4096 /\
  is_byte (ct_pressure c) /\ 0 <= ct_traces c < 16.

(** The fingers, one bit each. *)
Definition fingerMask (cs : list Contact) : Z := foldr (fun c m => Z.lor (Z.shiftl 1 (ct_id c)) m) 0 cs.

(** [b]: the buttons. *)
Definition statusPacket (b : Z) (cs : list Contact) : list Z := [b; fingerMask cs; 0; 0x10; 0; 0].
Definition headPacket (b ymax : Z) (c : Contact) : list Z :=
  let y := ymax - ct_y c in
  [Z.lor (Z.shiftl (ct_traces c) 4) b;
   Z.lor (Z.land (ct_pressure c) 0xf0) (Z.shiftr (ct_x c) 8); Z.land (ct_x c) 0xff;
   Z.lor (Z.shiftl (ct_id c + 1) 5) 0x11;
   Z.lor (Z.shiftl (Z.land (ct_pressure c) 0x0f) 4) (Z.shiftr y 8); Z.land y 0xff].

Definition frame (b ymax : Z) (cs : list Contact) : list (list Z) := statusPacket b cs :: map (headPacket b ymax) cs.

(** What the frame says of each. *)
Definition contactData (c : Contact) : Z * Z * Z := (ct_id c, ct_x c, ct_y c).
Definition by_finger (a b : Z * Z * Z) : Prop := a.1.1 < b.1.1.

(** ** Bits *)

Lemma id_cases i (P : Z -> Prop) : 0 <= i < 5 -> P 0 -> P 1 -> P 2 -> P 3 -> P 4 -> P i.
Proof. intros Hi. assert (i = 0 \/ i = 1 \/ i = 2 \/ i = 3 \/ i = 4) as [->|[->|[->|[->| ->]]]] by lia; auto. Qed.

Lemma coordinate_split a x : 0 <= x < 4096 -> Z.land a 0x0f = 0 ->
  coordinate12 (Z.lor a (Z.shiftr x 8)) (Z.land x 0xff) = x.
Proof.
  intros Hx Ha. unfold coordinate12. rewrite Z.land_lor_distr_l, Ha, Z.lor_0_l.
  assert (E : Z.land (Z.shiftr x 8) 0x0f = Z.shiftr x 8).
  { change 0x0f with (Z.ones 4). rewrite Z.land_ones, Z.shiftr_div_pow2 by done. apply Z.mod_small. change (2 ^ 8) with 256. change (2 ^ 4) with 16.
    split; [apply Z.div_pos; lia|apply Z.div_lt_upper_bound; lia]. }
  rewrite E. change 0xff with (Z.ones 8). rewrite <- Z.ldiff_ones_r by done. apply Z.lor_ldiff_and.
Qed.

Lemma land_shl4 z : Z.land (Z.shiftl z 4) 0x0f = 0.
Proof.
  change 0x0f with (Z.ones 4). rewrite Z.land_ones, Z.shiftl_mul_pow2 by done. apply Z.mod_mul. done.
Qed.

Lemma land_f0 z : Z.land (Z.land z 0xf0) 0x0f = 0.
Proof. rewrite <- Z.land_assoc. apply Z.land_0_r. Qed.

Lemma buttons_low t b : 0 <= b < 4 -> Z.land (Z.lor (Z.shiftl t 4) b) 0x08 = 0.
Proof.
  intros Hb. rewrite Z.land_lor_distr_l.
  assert (E : Z.land (Z.shiftl t 4) 0x08 = 0).
  { change 0x08 with (Z.land 0x0f 0x08). by rewrite Z.land_assoc, land_shl4. }
  rewrite E. assert (b = 0 \/ b = 1 \/ b = 2 \/ b = 3) as [->|[->|[->| ->]]] by lia; reflexivity.
Qed.

Lemma fingerMask_spec cs i : Forall (fun c => 0 <= ct_id c < 5) cs -> 0 <= i < 5 ->
  nz (Z.land (Z.land (fingerMask cs) 0x1f) (Z.shiftl 1 i)) = bool_decide (i ∈ map ct_id cs).
Proof.
  intros Hcs Hi. assert (Hb : Z.testbit (fingerMask cs) i = bool_decide (i ∈ map ct_id cs)).
  { induction Hcs as [|c cs Hc _ IH]; [by rewrite Z.bits_0|]. cbn [fingerMask foldr map]. rewrite Z.lor_spec, Z.shiftl_1_l, Z.pow2_bits_eqb by lia.
    change (foldr _ 0 cs) with (fingerMask cs). rewrite IH.
    destruct (Z.eqb_spec (ct_id c) i) as [->|Hne]; simpl.
    - symmetry. apply bool_decide_eq_true. by left.
    - apply bool_decide_ext. rewrite elem_of_cons. split; [by right|]. by intros [->|?]. }
  rewrite <- Hb, <- Z.land_assoc. assert (E : Z.land 0x1f (Z.shiftl 1 i) = 2 ^ i) by (apply (id_cases i); [done|done..]).
  rewrite E. unfold nz. rewrite Z.land_comm. destruct (Z.testbit (fingerMask cs) i) eqn:Et.
  - apply negb_true_iff, Z.eqb_neq. intros E0. apply (f_equal (fun z => Z.testbit z i)) in E0.
    rewrite Z.land_spec, Z.pow2_bits_true, Et, Z.bits_0 in E0 by lia. done.
  - apply negb_false_iff, Z.eqb_eq, Z.bits_inj'. intros j Hj. rewrite Z.land_spec, Z.bits_0, Z.pow2_bits_eqb by lia.
    destruct (Z.eqb_spec i j) as [<-|_]; [by rewrite Et|done].
Qed.

(** ** Which packets they are *)

Lemma statusPacket_type i b cs : 0 <= b < 4 -> length (samples i) = 3%nat ->
  elantechPacketCheckV4 i (statusPacket b cs) = Some PACKET_V4_STATUS.
Proof.
  intros Hb Hs. unfold elantechPacketCheckV4. destruct (arr_get_Some (samples i) 1 ltac:(lia)) as (s1 & E & _).
  rewrite E. simpl.
  rewrite andb_false_r.
  assert (Hb8 : Z.land b 8 = 0) by (assert (b = 0 \/ b = 1 \/ b = 2 \/ b = 3) as [->|[->|[->| ->]]] by lia; reflexivity).
  rewrite Hb8. destruct (crc_enabled i); [done|]. by destruct (_ && (s1 =? 42)).
Qed.

Lemma headPacket_type i b c : 0 <= b < 4 -> contact_ok (y_max i) c -> length (samples i) = 3%nat ->
  elantechPacketCheckV4 i (headPacket b (y_max i) c) = Some PACKET_V4_HEAD.
Proof.
  intros Hb (Hid & _) Hs. unfold elantechPacketCheckV4, headPacket, ETP_MAX_FINGERS in *.
  destruct (arr_get_Some (samples i) 1 ltac:(lia)) as (s1 & E & _).
  cbv zeta. rewrite E. simpl. rewrite buttons_low by done.
  assert (H3 : forall m k, In (m, k) [(0x0f, 1); (0x03, 1); (0x08, 0); (0x1c, 0x10)] ->
    Z.land (Z.lor (Z.shiftl (ct_id c + 1) 5) 0x11) m = k).
  { intros m k Hmk. apply (id_cases (ct_id c)); [done|..]; simpl in Hmk;
      destruct Hmk as [[= <- <-]|[[= <- <-]|[[= <- <-]|[[= <- <-]|[]]]]]; reflexivity. }
  rewrite (H3 0x0f 1), (H3 0x03 1), (H3 0x08 0), (H3 0x1c 0x10) by (simpl; auto).
  cbn. rewrite andb_false_r. destruct (crc_enabled i); [done|]. by destruct (_ && (s1 =? 42)).
Qed.

(** ** What they do to the fingers *)

(** After the heads of [done], of a frame of [cs]. *)
Record framed (cs done : list Contact) (t : ElanTouch) : Prop := {
  fr_length : length (virtualFinger t) = 5%nat;
  fr_held : heldFingers t = Z.of_nat (length cs);
  fr_touch : forall i f, virtualFinger t !! i = Some f -> vf_touch f = bool_decide (Z.of_nat i ∈ map ct_id cs);
  fr_place : forall c f, c ∈ done -> virtualFinger t !! Z.to_nat (ct_id c) = Some f ->
    tc_x (vf_now f) = ct_x c /\ tc_y (vf_now f) = ct_y c }.

Lemma statusFingers_lookup m l : forall k i f, fst (statusFingers m k l) !! i = Some f ->
  vf_touch f = nz (Z.land m (Z.shiftl 1 (k + Z.of_nat i))).
Proof.
  induction l as [|f0 l IH]; intros k i f; [done|]. simpl. specialize (IH (k + 1)).
  destruct (statusFingers m (k + 1) l) as [l' c]. destruct i as [|i]; simpl.
  - intros [= <-]. by rewrite Z.add_0_r.
  - intros Hf. rewrite (IH i f Hf). do 3 f_equal. lia.
Qed.

Lemma statusFingers_count m l : forall k, snd (statusFingers m k l) =
  Z.of_nat (length (filter (fun i => nz (Z.land m (Z.shiftl 1 i)) = true) (seqZ k (Z.of_nat (length l))))).
Proof.
  induction l as [|f0 l IH]; intros k; [done|]. cbn [statusFingers length]. specialize (IH (k + 1)).
  destruct (statusFingers m (k + 1) l) as [l' c]. rewrite seqZ_cons by lia.
  replace (Z.pred (Z.of_nat (S (length l)))) with (Z.of_nat (length l)) by lia. rewrite filter_cons.
  replace (Z.succ k) with (k + 1) by lia. cbn [snd] in *. rewrite IH. destruct (nz _) eqn:E; case_decide; simpl; try congruence; lia.
Qed.

(** As many as there are. *)
Lemma frame_count cs : NoDup (map ct_id cs) -> Forall (fun c => 0 <= ct_id c < 5) cs ->
  length (filter (fun i => nz (Z.land (Z.land (fingerMask cs) 0x1f) (Z.shiftl 1 i)) = true) (seqZ 0 5)) = length cs.
Proof.
  intros Hn Hb. rewrite <- (length_map ct_id cs). apply Permutation_length, NoDup_Permutation; [|done|].
  - apply NoDup_filter, NoDup_seqZ.
  - intros i. rewrite list_elem_of_filter, elem_of_seqZ. split.
    + intros [E Hi]. rewrite fingerMask_spec in E by done. by apply bool_decide_eq_true in E.
    + intros Hi. assert (H5 : 0 <= i < 5) by (apply list_elem_of_fmap in Hi as (c & -> & Hc); by rewrite Forall_forall in Hb; apply Hb).
      split; [|lia]. rewrite fingerMask_spec by done. by apply bool_decide_eq_true.
Qed.

Lemma status_step b cs t : NoDup (map ct_id cs) -> Forall (fun c => 0 <= ct_id c < 5) cs ->
  length (virtualFinger t) = 5%nat ->
  exists t', processStatus (statusPacket b cs) t = Some (t', bool_decide (cs = [])) /\ framed cs [] t' /\ headPacketsCount t' = 0 /\
    inputEvent t' = inputEvent t.
Proof.
  intros Hn Hb Hl. unfold processStatus. simpl.
  pose proof (statusFingers_length (Z.land (fingerMask cs) 0x1f) 0 (virtualFinger t)) as E.
  pose proof (statusFingers_lookup (Z.land (fingerMask cs) 0x1f) (virtualFinger t) 0) as El.
  pose proof (statusFingers_count (Z.land (fingerMask cs) 0x1f) (virtualFinger t) 0) as Ec. rewrite Hl in *.
  change (Z.of_nat 5) with 5 in Ec. rewrite frame_count in Ec by done.
  destruct (statusFingers _ _ _) as [l c]. cbn [fst snd] in *. subst c.
  assert (E0 : (Z.of_nat (length cs) =? 0) = bool_decide (cs = [])) by (by destruct cs).
  rewrite E0. eexists. split; [reflexivity|]. split; [|done].
  split; cbn; [done|done| |by intros ? ? ?%elem_of_nil].
  intros i f Hf. rewrite (El i f Hf). apply lookup_lt_Some in Hf. rewrite E in Hf. apply fingerMask_spec; [done|lia].
Qed.

Lemma framed_head cs done_ c t t' g :
  framed cs done_ t -> NoDup (map ct_id (done_ ++ [c])) -> Forall (fun c => 0 <= ct_id c) (done_ ++ [c]) ->
  (forall f, vf_touch (g f) = vf_touch f /\ tc_x (vf_now (g f)) = ct_x c /\ tc_y (vf_now (g f)) = ct_y c) ->
  (exists f, virtualFinger t !! Z.to_nat (ct_id c) = Some f /\
    virtualFinger t' = <[Z.to_nat (ct_id c) := g f]> (virtualFinger t)) ->
  heldFingers t' = heldFingers t -> framed cs (done_ ++ [c]) t'.
Proof.
  intros [F1 F2 F3 F4] Hn Hpos Hg (f & Hf & E) Eh. rewrite map_app in Hn. apply NoDup_app in Hn as (_ & Hn & _).
  apply Forall_app in Hpos as [Hp1 Hp2]. apply Forall_inv in Hp2. split; [by rewrite E, length_insert|congruence|..]; rewrite E.
  - intros i f' [(<- & <- & _)|[Hne Hi]]%list_lookup_insert_Some; [|by apply F3].
    destruct (Hg f) as [-> _]. by apply F3.
  - intros c' f' [Hc|Hc%list_elem_of_singleton]%elem_of_app; [|subst c'; rewrite list_lookup_insert_eq by (by eapply lookup_lt_Some); intros [= <-]; apply Hg].
    rewrite Forall_forall in Hp1. specialize (Hp1 c' Hc).
    rewrite list_lookup_insert_ne; [by apply F4|]. intros En. apply (Hn (ct_id c')); [by apply list_elem_of_fmap_2|].
    simpl. apply list_elem_of_singleton. cbn beta in *. lia.
Qed.

(** What a head packet says. *)
Lemma head_step b cs done_ c i t :
  0 <= b < 4 -> contact_ok (y_max i) c -> y_max i < 2147483648 -> NoDup (map ct_id (done_ ++ [c])) ->
  Forall (fun c => 0 <= ct_id c) (done_ ++ [c]) -> framed cs done_ t -> Z.of_nat (length done_) < 5 -> headPacketsCount t = Z.of_nat (length done_) ->
  exists t', processHead i (headPacket b (y_max i) c) t =
      Some (t', bool_decide (length (done_ ++ [c]) = length cs)) /\
    framed cs (done_ ++ [c]) t' /\ inputEvent t' = inputEvent t /\
    (length (done_ ++ [c]) <> length cs -> headPacketsCount t' = Z.of_nat (length (done_ ++ [c]))).
Proof.
  intros Hb (Hid & Hx & Hy & Hyr & Hp & Htr) Hm Hn Hpos [F1 F2 F3 F4] Hd Hh. unfold ETP_MAX_FINGERS in Hid.
  unfold processHead, headPacket. cbv zeta. simpl.
  assert (E3 : Z.shiftr (Z.land (Z.lor (Z.shiftl (ct_id c + 1) 5) 0x11) 0xe0) 5 - 1 = ct_id c) by (apply (id_cases (ct_id c)); done).
  change 17 with 0x11. change 224 with 0xe0. rewrite E3.
  rewrite (proj2 (Z.ltb_ge _ _)) by lia. rewrite !coordinate_split by first [lia|apply land_f0|apply land_shl4].
  rewrite s32_small by lia. replace (y_max i - (y_max i - ct_y c)) with (ct_y c) by lia.
  assert (Hl : (Z.to_nat (ct_id c) < length (virtualFinger t))%nat) by (rewrite F1; lia).
  destruct (lookup_lt_is_Some_2 _ _ Hl) as [f Hf]. unfold onFinger, arr_get. rewrite (proj2 (Z.ltb_ge _ _)) by lia. rewrite Hf. simpl.
  rewrite arr_set_Some by lia. simpl. rewrite Hh, F2, s32_small by lia.
  assert (El : (Z.of_nat (length done_) + 1 =? Z.of_nat (length cs)) = bool_decide (length (done_ ++ [c]) = length cs)).
  { rewrite length_app. simpl. case_bool_decide; [apply Z.eqb_eq|apply Z.eqb_neq]; lia. }
  rewrite El. assert (Hu : u32 (ct_x c) = ct_x c /\ u32 (ct_y c) = ct_y c) by (rewrite !u32_small by lia; done).
  case_bool_decide as Ee; eexists; (split; [reflexivity|]); (split; [|split; [done|]]).
  1, 3: eapply (framed_head cs done_ c t _ (headFinger (Z.lor (Z.shiftl (ct_traces c) 4) b) _ _ (ct_x c) (ct_y c)));
    [by split|done|done|intros f'; cbn; split; [done|exact Hu]|exists f; by split|done].
  - by intros ?.
  - intros _. cbn. rewrite length_app. simpl. lia.
Qed.

(** ** What is sent *)

(** The touching fingers from index [i] on. *)
Fixpoint touching (l : list elan_virtual_finger_state) (i : Z) : list (Z * Z * Z) :=
  match l with
  | [] => []
  | f :: l' => if vf_touch f then (i, tc_x (vf_now f), tc_y (vf_now f)) :: touching l' (i + 1) else touching l' (i + 1)
  end.

(** What a slot shows. *)
Definition shown (t : VoodooInputTransducer) : Z * Z * Z * bool := (contactOf t, tr_isValid t).

Lemma assignThumb_shown count ts ts' : assignThumb count ts = Some ts' -> map shown ts' = map shown ts.
Proof. by apply assignThumb_keeps. Qed.

Lemma elanFill_shown fb bp ts0 l : forall i count ts ts' count',
  0 <= count -> count + Z.of_nat (length l) <= Z.of_nat (length ts) ->
  elanFill fb bp ts0 l i count ts = Some (ts', count') ->
  count' = count + Z.of_nat (length (touching l i)) /\ length ts' = length ts /\
  map shown (take (Z.to_nat count') ts') = map shown (take (Z.to_nat count) ts) ++ map (fun c => (c, true)) (touching l i).
Proof.
  induction l as [|f l IH]; intros i count ts ts' count' Hc Hl; cbn [elanFill touching length map] in *.
  { intros [= <- <-]. split; [lia|split; [done|]]. by rewrite app_nil_r. }
  destruct (vf_touch f); cbn [negb]; [|intros E; by apply IH; [|lia|]].
  rewrite arr_set_Some by lia. cbn [mbind option_bind]. set (tr := elanTransducer _ _ _ _ _ _).
  intros E. apply IH in E as (-> & El & ->); [|lia|rewrite length_insert; lia]. rewrite length_insert in El.
  cbn [length map]. split; [lia|split; [done|]]. replace (Z.to_nat (count + 1)) with (S (Z.to_nat count)) by lia.
  rewrite (take_S_r _ _ tr) by (apply list_lookup_insert_eq; lia). rewrite take_insert_ge by lia.
  rewrite map_app, <- app_assoc. f_equal. cbn [map app]. f_equal. unfold tr, shown, contactOf, elanTransducer.
  by destruct (fb && (bp && vf_button f)).
Qed.

Lemma elan_filter_cleared l : filter (fun t => tr_isValid t = true) (map elanClear l) = [].
Proof. induction l as [|t l IH]; [done|]. cbn [map]. rewrite filter_cons. case_decide; [done|exact IH]. Qed.

Lemma filter_shown l cs : map shown l = map (fun c => (c, true)) cs ->
  map contactOf (filter (fun t => tr_isValid t = true) l) = cs.
Proof.
  revert cs. induction l as [|t l IH]; intros [|c cs]; cbn [map]; intros E; try done. injection E as E1 E2 E3.
  rewrite filter_cons, decide_True by done. cbn [map]. f_equal; [done|by apply IH].
Qed.

Lemma transducers_shown n d ts0 ts count : touch_ok n (touches d) -> elanTransducers d ts0 = Some (ts, count) ->
  count = Z.of_nat (length (touching (virtualFinger (touches d)) 0)) /\
  map contactOf (filter (fun t => tr_isValid t = true) ts) = touching (virtualFinger (touches d)) 0.
Proof.
  intros [H1 H2 H3] E. unfold elanTransducers, ETP_MAX_FINGERS in *.
  match type of E with context [elanFill ?a ?b ?c ?l ?i ?k ?t] => destruct (elanFill a b c l i k t) as [[ts1 c1]|] eqn:E1 end; [|done].
  apply elanFill_shown in E1 as (Ec & El & Em); [|done|lia]. simpl in E, Em.
  set (tc := touching (virtualFinger (touches d)) 0) in *.
  assert (Ht : exists ts2, ts2 ≫= (fun ts => Some (take (Z.to_nat c1) ts ++ map elanClear (drop (Z.to_nat c1) ts), c1)) = Some (ts, count) /\
    forall t, ts2 = Some t -> map shown t = map shown ts1).
  { eexists. split; [exact E|]. destruct (4 <=? c1); [intros t; apply assignThumb_shown|by intros t [= <-]]. }
  destruct Ht as ([ts2|] & Et & Hs); [|done]. injection Et as <- <-. specialize (Hs ts2 eq_refl). split; [lia|].
  rewrite filter_app, map_app.
  rewrite elan_filter_cleared, app_nil_r. apply filter_shown. rewrite <- Em, <- !firstn_map. by rewrite Hs.
Qed.

(** *** The contacts of a frame *)

Lemma touching_spec l : forall i c, c ∈ touching l i <-> exists f, i <= c.1.1 /\ l !! Z.to_nat (c.1.1 - i) = Some f /\
  vf_touch f = true /\ c = (c.1.1, tc_x (vf_now f), tc_y (vf_now f)).
Proof.
  induction l as [|f0 l IH]; intros i c; cbn [touching].
  { split; [by intros ?%elem_of_nil|]. by intros (f & _ & ? & _). }
  assert (Hnext : c ∈ touching l (i + 1) <-> exists f, i + 1 <= c.1.1 /\ (f0 :: l) !! Z.to_nat (c.1.1 - i) = Some f /\
    vf_touch f = true /\ c = (c.1.1, tc_x (vf_now f), tc_y (vf_now f))).
  { rewrite IH. split; intros (f & H1 & H2 & H3); exists f; (split; [done|split; [|done]]).
    - replace (Z.to_nat (c.1.1 - i)) with (S (Z.to_nat (c.1.1 - (i + 1)))) by lia. done.
    - replace (Z.to_nat (c.1.1 - i)) with (S (Z.to_nat (c.1.1 - (i + 1)))) in H2 by lia. done. }
  destruct (vf_touch f0) eqn:E0.
  - rewrite elem_of_cons, Hnext. split.
    + intros [->|(f & H1 & H2)]; [|exists f; split; [lia|done]]. exists f0. cbn [fst snd]. rewrite Z.sub_diag. split; [lia|done].
    + intros (f & H1 & H2 & H3 & H4). destruct (decide (c.1.1 = i)) as [Ei|Ei]; [left|right; exists f; split; [lia|done]].
      rewrite Ei, Z.sub_diag in H2. injection H2 as <-. by rewrite H4, Ei.
  - rewrite Hnext. split; intros (f & H1 & H2 & H3 & H4); exists f; (split; [|done]); [lia|].
    destruct (decide (c.1.1 = i)) as [Ei|Ei]; [|lia]. rewrite Ei, Z.sub_diag in H2. injection H2 as <-. congruence.
Qed.

Lemma touching_sorted l : forall i, StronglySorted by_finger (touching l i).
Proof.
  induction l as [|f l IH]; intros i; cbn [touching]; [constructor|]. destruct (vf_touch f); [|apply IH].
  constructor; [apply IH|]. apply Forall_forall. intros c Hc. apply touching_spec in Hc as (f' & H1 & _).
  unfold by_finger. cbn [fst]. lia.
Qed.

Lemma by_finger_NoDup l : StronglySorted by_finger l -> NoDup l.
Proof.
  induction 1 as [|c l _ IH H]; [constructor|]. constructor; [|done]. intros Hc. rewrite Forall_forall in H.
  specialize (H c Hc). unfold by_finger in H. lia.
Qed.

Lemma touching_frame cs t : NoDup (map ct_id cs) -> Forall (fun c => 0 <= ct_id c < 5) cs -> framed cs cs t ->
  touching (virtualFinger t) 0 ≡ₚ map contactData cs.
Proof.
  intros Hn Hb [F1 F2 F3 F4]. apply NoDup_Permutation.
  - apply by_finger_NoDup, touching_sorted.
  - apply (NoDup_fmap_1 (fun c => c.1.1)). change (fmap (M := list) ?g (map contactData cs)) with (map g (map contactData cs)). by rewrite map_map.
  - intros k. rewrite touching_spec. split.
    + intros (f & H1 & Hf & Ht & ->). rewrite Z.sub_0_r in Hf. rewrite (F3 _ f Hf), Z2Nat.id in Ht by done.
      apply bool_decide_eq_true, list_elem_of_fmap in Ht as (c & Ec & Hc). rewrite Ec in Hf.
      destruct (F4 c f Hc Hf) as [-> ->]. apply list_elem_of_fmap. exists c. split; [|done]. unfold contactData. by rewrite <- Ec.
    + intros (c & -> & Hc)%list_elem_of_fmap. rewrite Forall_forall in Hb. specialize (Hb c Hc). cbn beta in Hb.
      destruct (lookup_lt_is_Some_2 (virtualFinger t) (Z.to_nat (ct_id c)) ltac:(lia)) as [f Hf].
      exists f. cbn [contactData fst snd]. rewrite Z.sub_0_r. destruct (F4 c f Hc Hf) as [-> ->].
      split; [lia|split; [done|split; [|done]]]. rewrite (F3 _ _ Hf), Z2Nat.id by lia. apply bool_decide_eq_true.
      by apply list_elem_of_fmap_2.
Qed.

(** ** A frame through the driver *)

Section Frame.
Context {B : Type} `{HB : PS2Bus B} (abs : Z -> Z) (n client : Z) (i : elantech_device_info).
#[local] Abbreviation W := (DrvWorld B ApplePS2Elan ElanEvent).

(** A driver of version 4 with a client, when no key was hit lately. *)
Record listening (w : W) : Prop := {
  ls_info : info (self w) = i;
  ls_client : voodooInputInstance (self w) = Some client;
  ls_loud : (u64 (abs (u64 (now w)) - keytime (self w)) <? maxaftertyping (settings (self w))) = false;
  ls_touch : touch_ok n (touches (self w)) }.

Definition with_touches (t : ElanTouch) (w : W) : W := {| w with self := {| (self w) with touches := t |} |}.

Lemma reportV4_step f t send (w : W) : f (self w) = Some (t, send) ->
  reportV4 abs f w = when send (sendTouchData abs) (with_touches t w).
Proof.
  intros E. unfold reportV4. rewrite (bind_ok (dget f) _ w w (f (self w))) by done. rewrite E.
  rewrite (bind_ok (deref _) _ w w (t, send)) by done. cbv beta iota.
  by rewrite (bind_ok (setTouches _) _ w (with_touches t w) tt) by done.
Qed.

Lemma sendTouchData_sends (w : W) : listening w ->
  exists w', sendTouchData abs w = Ok (w', tt) /\ sentContacts (told w') = sentContacts (told w) ++
    [(Z.of_nat (length (touching (virtualFinger (touches (self w))) 0)), touching (virtualFinger (touches (self w))) 0)].
Proof.
  intros [H1 H2 H3 H4]. unfold sendTouchData. rewrite (bind_ok (gets now) _ w w (now w)) by done. cbv zeta.
  rewrite (bind_ok (dget _) _ w w false) by (unfold dget, gets; by rewrite H3). cbv iota.
  destruct (elanTransducers_ok n (self w) (u64 (now w)) H4) as (ts & count & E & _ & Hc).
  destruct (transducers_shown n (self w) _ ts count H4 E) as [Ec Es].
  rewrite (bind_ok (dget _) _ w w (Some (ts, count))) by (unfold dget, gets; by rewrite E).
  rewrite (bind_ok (deref _) _ w w (ts, count)) by done. cbv beta iota.
  set (e := mkInputEvent ts (u8 count) (u64 (now w))).
  set (w1 := with_touches {| (touches (self w)) with inputEvent := e |} w).
  rewrite (bind_ok (setTouches _) _ w w1 tt) by done.
  set (w2 := {| w1 with told := told w1 ++ [ElanTouchEvent client e] |}).
  rewrite (bind_ok (tellClient _) _ w1 w2 tt) by (unfold tellClient, dget, mbind, M_bind, bind, gets; cbn; by rewrite H2).
  assert (E2 : sentContacts (told w2) = sentContacts (told w) ++
    [(Z.of_nat (length (touching (virtualFinger (touches (self w))) 0)), touching (virtualFinger (touches (self w))) 0)]).
  { cbn [told w2 w1 with_touches]. unfold sentContacts at 1. rewrite omap_app. cbn. unfold contactsOf. cbn [e ev_contact_count ev_transducers].
    rewrite Es, u8_small by (unfold ETP_MAX_FINGERS in Hc; lia). by rewrite Ec. }
  rewrite (bind_ok (dget _) _ w2 w2 (is_buttonpad (info (self w2)))) by done.
  destruct (is_buttonpad _); [by exists w2|].
  rewrite (bind_ok (dget _) _ w2 w2 (reportedButtons (touches (self w2)) count)) by done.
  destruct (reportedButtons _ _) as [b|].
  - set (w3 := {| w2 with told := told w2 ++ [ElanTrackpoint client (u64 (now w)) b 0 0] |}).
    rewrite (bind_ok (tellClient _) _ w2 w3 tt) by (unfold tellClient, dget, mbind, M_bind, bind, gets; cbn; by rewrite H2).
    eexists. split; [reflexivity|]. rewrite <- E2. cbn [told w3]. unfold sentContacts at 1. rewrite omap_app. cbn. apply app_nil_r.
  - rewrite (bind_ok (ret tt) _ w2 w2 tt) by done. eexists. split; [reflexivity|exact E2].
Qed.

(** Each packet changes the touches, and the last one of a frame sends them. *)
Lemma process_v4 packet type (w : W) : info (self w) = i -> hw_version i = 4 ->
  elantechPacketCheckV4 i packet = Some type -> type = PACKET_V4_STATUS \/ type = PACKET_V4_HEAD ->
  processPacket abs packet w = elantechReportAbsoluteV4 abs type packet w.
Proof.
  intros Ei Hv Et Hty. unfold processPacket. rewrite (bind_ok (dget info) _ w w i) by (unfold dget, gets; by rewrite Ei).
  rewrite Hv, Et. rewrite (bind_ok (deref _) _ w w type) by done. by destruct Hty as [-> | ->].
Qed.

Context (b : Z) (Hb : 0 <= b < 4) (Hv : hw_version i = 4) (Hs : length (samples i) = 3%nat) (Hy : y_max i < 2147483648).
Context (cs : list Contact) (Hn : NoDup (map ct_id cs)) (Hcs : Forall (contact_ok (y_max i)) cs).

Lemma ids_ok : Forall (fun c => 0 <= ct_id c < 5) cs.
Proof. eapply Forall_impl; [exact Hcs|]. intros c [H _]. exact H. Qed.

(** The touches of a whole frame, and the event that was sent. *)
Definition frame_done (w w' : W) : Prop := exists l,
  l ≡ₚ map contactData cs /\ StronglySorted by_finger l /\
  sentContacts (told w') = sentContacts (told w) ++ [(Z.of_nat (length cs), l)].

Lemma frame_sends t (w : W) : listening w -> touch_ok n t -> framed cs cs t ->
  exists w', sendTouchData abs (with_touches t w) = Ok (w', tt) /\ frame_done w w'.
Proof.
  intros [H1 H2 H3 H4] Ht Hf. destruct (sendTouchData_sends (with_touches t w)) as (w' & E & Es); [by split|].
  exists w'. split; [done|]. pose proof (touching_frame cs t Hn ids_ok Hf) as Hp.
  exists (touching (virtualFinger t) 0). split; [done|split; [apply touching_sorted|]].
  apply Permutation_length in Hp. rewrite length_map in Hp. rewrite <- Hp. exact Es.
Qed.

Lemma heads_reported todo : forall done_ (w : W), cs = done_ ++ todo -> todo <> [] -> listening w ->
  framed cs done_ (touches (self w)) -> headPacketsCount (touches (self w)) = Z.of_nat (length done_) ->
  exists w', for_each (map (headPacket b (y_max i)) todo) (processPacket abs) w = Ok (w', tt) /\ frame_done w w'.
Proof.
  induction todo as [|c todo IH]; intros done_ w Ecs Hne Hw Hf Hh; [done|]. cbn [map for_each].
  assert (Hlen : (length cs <= 5)%nat).
  { rewrite <- (length_map ct_id cs). change 5%nat with (length (seqZ 0 5)). apply submseteq_length, NoDup_submseteq; [done|].
    intros k (c' & -> & Hc')%list_elem_of_fmap. pose proof ids_ok as Hi. rewrite Forall_forall in Hi. specialize (Hi c' Hc').
    apply elem_of_seqZ. cbn beta in Hi. lia. }
  assert (Hc : contact_ok (y_max i) c) by (rewrite Ecs in Hcs; by apply Forall_app in Hcs as [_ ?%Forall_inv]).
  assert (Ecs' : cs = (done_ ++ [c]) ++ todo) by (by rewrite <- app_assoc).
  assert (Hl5 : (length done_ < 5)%nat) by (rewrite Ecs, length_app in Hlen; simpl in Hlen; lia).
  destruct (head_step b cs done_ c i (touches (self w)) Hb Hc Hy) as (t' & E & Hf' & Ee & Ht'); [..|done|lia|done|].
  { rewrite Ecs', map_app in Hn. by apply NoDup_app in Hn as (? & _). }
  { pose proof ids_ok as Hi. rewrite Ecs' in Hi. apply Forall_app in Hi as [Hi _]. eapply Forall_impl; [exact Hi|]. cbn beta. lia. }
  pose proof Hw as [H1 H2 H3 [T1 T2 T3]].
  assert (Hto : touch_ok n t') by (split; [done|by rewrite Ee|apply Hf']).
  assert (Ep : processPacket abs (headPacket b (y_max i) c) w =
    when (bool_decide (length (done_ ++ [c]) = length cs)) (sendTouchData abs) (with_touches t' w)).
  { rewrite (process_v4 _ PACKET_V4_HEAD w H1 Hv); [|by apply headPacket_type|by right].
    cbn [elantechReportAbsoluteV4]. apply reportV4_step. by rewrite H1. }
  destruct todo as [|c' todo].
  - rewrite app_nil_r in Ecs'. rewrite <- Ecs' in *. rewrite bool_decide_true in Ep by done.
    destruct (frame_sends t' w Hw Hto Hf') as (w' & Es & Hd). exists w'. cbn [map for_each]. rewrite (bind_ok _ _ w w' tt) by (by rewrite Ep). by split.
  - rewrite bool_decide_false in Ep by (rewrite Ecs', (length_app (done_ ++ [c])); simpl; lia).
    destruct (IH (done_ ++ [c]) (with_touches t' w)) as (w' & Ef & Hd); [done|done|by split|done| |].
    { apply Ht'. rewrite Ecs', (length_app (done_ ++ [c])). simpl. lia. }
    exists w'. rewrite (bind_ok _ _ w (with_touches t' w) tt) by (by rewrite Ep). by split.
Qed.

(** C29: a frame of version 4 becomes exactly its fingers.  For every set of fingers on the
    pad, with their places, pressures and widths, and every order of their head packets,
    the status packet and the head packets of the frame make the driver send one event:
    with as many contacts as there are fingers, one slot in use for each of them, in the
    order of their numbers and at its place, and no other slot in use. *)
Theorem elan_frame_reported (w : W) : listening w ->
  exists w', for_each (frame b (y_max i) cs) (processPacket abs) w = Ok (w', tt) /\ frame_done w w'.
Proof.
  intros Hw. pose proof Hw as [H1 H2 H3 [T1 T2 T3]]. unfold frame. cbn [for_each].
  destruct (status_step b cs (touches (self w)) Hn ids_ok T3) as (t' & E & Hf & Hh & Ee).
  assert (Hto : touch_ok n t') by (split; [done|by rewrite Ee|apply Hf]).
  assert (Ep : processPacket abs (statusPacket b cs) w = when (bool_decide (cs = [])) (sendTouchData abs) (with_touches t' w)).
  { rewrite (process_v4 _ PACKET_V4_STATUS w H1 Hv); [|by apply statusPacket_type|by left].
    cbn [elantechReportAbsoluteV4]. by apply reportV4_step. }
  case_bool_decide as Ec.
  - assert (Hf' : framed cs cs t') by (rewrite Ec at 2; exact Hf).
    destruct (frame_sends t' w Hw Hto Hf') as (w' & Es & Hd). exists w'. rewrite (bind_ok _ _ w w' tt) by (by rewrite Ep).
    rewrite Ec. by split.
  - destruct (heads_reported cs [] (with_touches t' w)) as (w' & Ef & Hd); [done|done|by split|done|done|].
    exists w'. rewrite (bind_ok _ _ w (with_touches t' w) tt) by (by rewrite Ep). by split.
Qed.

End Frame.

Definition frame_info : elantech_device_info := {| noElanInfo with hw_version := 4; y_max := 800; is_buttonpad := true |}.
Definition frame_world : DrvWorld BenchHost ApplePS2Elan ElanEvent :=
  mkDrvWorld {| (newElan 10) with voodooInputInstance := Some 7; info := frame_info |} (mkBenchHost false false false) 600000000 [].
Definition frame_contacts : list Contact := [mkContact 3 2000 799 200 5; mkContact 0 17 0 90 3].

Lemma frame_run : match for_each (frame 1 800 frame_contacts) (processPacket (fun t => t)) frame_world with
  | Ok (w', _) => sentContacts (told w') = [(2, [(0, 17, 0); (3, 2000, 799)])] | _ => False end.
Proof. vm_compute. reflexivity. Qed.

Lemma elan_frame_reported_witness : listening (fun t => t) 10 7 frame_info frame_world /\
  exists w', for_each (frame 1 800 frame_contacts) (processPacket (fun t => t)) frame_world = Ok (w', tt) /\
    frame_done frame_contacts frame_world w'.
Proof.
  assert (Hl : listening (fun t => t) 10 7 frame_info frame_world) by (by split).
  assert (Hn : NoDup (map ct_id frame_contacts)) by (refine (bool_decide_unpack _ _); vm_compute; exact I).
  assert (Hc : Forall (contact_ok (y_max frame_info)) frame_contacts).
  { repeat apply Forall_cons_2; [| |by apply Forall_nil_2]; unfold contact_ok, is_byte, ETP_MAX_FINGERS; cbn; lia. }
  split; [exact Hl|].
  exact (elan_frame_reported (fun t => t) 10 7 frame_info 1 ltac:(lia) eq_refl eq_refl ltac:(reflexivity) frame_contacts Hn Hc
    frame_world Hl).
Defined.
