(* ===== verification/Synaptics.v ===== *)
(** * The Synaptics touchpad driver: data and packets

    VoodooPS2Trackpad/VoodooPS2SynapticsTouchPad.h and the part of the .cpp file that
    works on the object alone: the answers to the queries, the bytes of an interrupt,
    what each packet says, and how physical fingers become virtual ones.
    [kMT2FingerTypeCount] is VoodooInput's, the length of [freeFingerTypes]; finger types
    are the numbers of its enum.  [None] is an access outside an array. *)
From S2P Require Import Prelude PS2Types RingBuffer Bus DriverWorld RingLoop OSTypes Touch Trackpad.

(** ** Constants *)

Definition kPacketLength : Z := 6.

(** The size of the ring buffer. *)
Definition SYNA_RING : Z := kPacketLength * 32.

Definition SYNAPTICS_IDENTIFY_QUERY : Z := 0x00.
Definition SYNA_MODEL_QUERY : Z := 0x01.
Definition SYNA_CAPABILITIES_QUERY : Z := 0x02.
Definition SYNA_SCALE_QUERY : Z := 0x08.
Definition SYNA_EXTENDED_ID_QUERY : Z := 0x09.
Definition SYNA_CONT_CAPS_QUERY : Z := 0x0C.
Definition SYNA_LOGIC_MAX_QUERY : Z := 0x0D.
Definition SYNA_LOGIC_MIN_QUERY : Z := 0x0F.
Definition SYNA_SECUREPAD_QUERY : Z := 0x10.
Definition SYNA_MODE_ABSOLUTE : Z := 0x80.
Definition SYNA_MODE_HIGH_RATE : Z := 0x40.
Definition SYNA_MODE_SLEEP : Z := 0x08.
Definition SYNA_MODE_EXT_W : Z := 0x04.
Definition SYNA_MODE_W_MODE : Z := 0x01.
Definition SYNA_W_EXTENDED : Z := 0x02.
Definition SYNA_W_PASSTHRU : Z := 0x03.
Definition SYNAPTICS_MAX_EXT_BTNS : Z := 8.
Definition SYNAPTICS_MAX_FINGERS : Z := 5.
Definition XMAX : Z := 6143.
Definition YMAX : Z := 6143.
Definition ABS_POS_BITS : Z := 13.
Definition X_MAX_POSITIVE : Z := 8176.
Definition Y_MAX_POSITIVE : Z := 8176.
Definition FINGER_DIST : Z := 1000000.
Definition INT_MAX : Z := 2147483647.

(** Finger types by number. *)
Definition typeUndefined : Z := 0.
Definition typeThumb : Z := 1.
Definition typeIndexFinger : Z := 2.
Definition fingerTypeOf (i : Z) : MT2FingerType :=
  match i with
  | 0 => kMT2FingerTypeUndefined
  | 1 => kMT2FingerTypeThumb
  | 2 => kMT2FingerTypeIndexFinger
  | 3 => kMT2FingerTypeMiddleFinger
  | 4 => kMT2FingerTypeRingFinger
  | 5 => kMT2FingerTypeLittleFinger
  | _ => kMT2FingerTypeOther i
  end.

(** ** The answers to the queries

    Each is a structure laid over three bytes; bit fields start at the lowest bit. *)

Definition bit (z i : Z) : bool := Z.testbit z i.

(** [n] bits from bit [i] on. *)
Definition bits (z i n : Z) : Z := Z.land (Z.shiftr z i) (Z.ones n).

Record synaptics_identify_trackpad := mkIdentity { minor_ver : Z; synaptics_const : Z; major_ver : Z }.
Definition identityOf (b0 b1 b2 : Z) : synaptics_identify_trackpad := mkIdentity b0 b1 (bits b2 0 4).

Record synaptics_model := mkModel { guest_present : bool; more_extended_caps : bool; model_number : Z; mode_byte : Z }.
Definition modelOf (b0 b1 b2 : Z) : synaptics_model :=
  mkModel (bit b0 0) (bit b0 1) (bits (Z.lor b0 (Z.shiftl b1 8)) 2 14) b2.

(** The members the driver reads. *)
Record synaptics_capabilities := mkCapabilities {
  middle_btn : bool; extended_queries : Z; extended_w_supported : bool; passthrough : bool }.
Definition capabilitiesOf (b0 b1 b2 : Z) : synaptics_capabilities :=
  mkCapabilities (bit b0 2) (bits b0 4 3) (bit b2 5) (bit b2 7).

Record synaptics_scale := mkScale { xupmm : Z; yupmm : Z }.
Definition scaleOf (b0 b1 b2 : Z) : synaptics_scale := mkScale b0 b2.

Record synaptics_extended_id := mkExtendedId { has_leds : bool; extended_btns : Z }.
Definition extendedIdOf (b0 b1 b2 : Z) : synaptics_extended_id := mkExtendedId (bit b0 6) (bits b1 4 4).

Record synaptics_cont_capabilities := mkContCaps {
  reports_max : bool; advanced_gestures : bool; one_btn_clickpad : bool;
  reports_v : bool; reports_min : bool; intertouch : bool; intertouch_addr : Z }.
Definition contCapsOf (b0 b1 b2 : Z) : synaptics_cont_capabilities :=
  mkContCaps (bit b0 1) (bit b0 3) (bit b0 4) (bit b1 3) (bit b1 5) (bit b1 6) b2.

Record synaptics_logic_min_max := mkLogic { x_high : Z; x_low : Z; logic_y : Z }.
Definition logicOf (b0 b1 b2 : Z) : synaptics_logic_min_max :=
  mkLogic b0 (bits b1 0 4) (bits (Z.lor b1 (Z.shiftl b2 8)) 4 12).
Definition SYNA_LOGIC_X (l : synaptics_logic_min_max) : Z := Z.lor (Z.shiftl (x_high l) 5) (Z.shiftl (x_low l) 1).
Definition SYNA_LOGIC_Y (l : synaptics_logic_min_max) : Z := Z.shiftl (logic_y l) 1.

Record synaptics_securepad_id := mkSecurepad { trackstick_btns : bool; is_securepad : bool; securepad_width : Z; securepad_height : Z }.
Definition securepadOf (b0 b1 b2 : Z) : synaptics_securepad_id := mkSecurepad (bit b0 0) (bit b0 1) b1 b2.

(** ** The object *)

Record synaptics_hw_state := mkHw { hw_x : Z; hw_y : Z; hw_z : Z; hw_w : Z; virtualFingerIndex : Z }.

Record synaptics_virtual_finger_state := mkVirtual {
  x_avg : SimpleAverage;
  y_avg : SimpleAverage;
  vf_pressure : Z;
  vf_width : Z;
  vf_touch : bool;
  vf_button : bool;
  vf_fingerType : Z }.

(** The members that follow the fingers. *)
Record SynapticsTouch := mkTouch {
  fingerStates : list synaptics_hw_state;
  virtualFingerStates : list synaptics_virtual_finger_state;
  freeFingerTypes : list bool;
  lastFingerCount : Z;
  hadLiftFinger : bool;
  clampedFingerCount : Z;
  agmFingerCount : Z;
  wasSkipped : bool;
  _clickpad_pressed : bool }.

(** The members of the pad's size. *)
Record SynapticsSize := mkSize {
  margin_size_x : Z; margin_size_y : Z;
  logical_max_x : Z; logical_max_y : Z;
  logical_min_x : Z; logical_min_y : Z;
  physical_max_x : Z; physical_max_y : Z }.

(** The members the settings set. *)
Record SynapticsSettings := mkSettings {
  _forceTouchMode : Z;
  _forceTouchPressureThreshold : Z;
  _forceTouchCustomDownThreshold : Z;
  _forceTouchCustomUpThreshold : Z;
  _forceTouchCustomPower : Z;
  z_finger : Z;
  noled : bool;
  maxaftertyping : Z;
  maxafterspecialtyping : Z;
  specialKey : Z;
  wakedelay : Z;
  hwresetonstart : bool;
  minXOverride : Z; minYOverride : Z; maxXOverride : Z; maxYOverride : Z;
  _scrollMultiplierX : Z; _scrollMultiplierY : Z;
  _scrollDivisorX : Z; _scrollDivisorY : Z;
  _mouseMultiplierX : Z; _mouseMultiplierY : Z;
  _mouseDivisorX : Z; _mouseDivisorY : Z;
  _deadzone : Z;
  usb_mouse_stops_trackpad : bool;
  disableDeepSleep : bool;
  _processusbmouse : bool;
  _processbluetoothmouse : bool }.

(** [_cmdGate] and [_provider] say whether there is one, [usb_notify] and
    [bluetooth_notify] whether the two notifiers of that kind were made. *)
Record ApplePS2SynapticsTouchPad := mkSynaptics {
  voodooInputInstance : option Z;
  _device : option Z;
  _interruptHandlerInstalled : bool;
  _powerControlHandlerInstalled : bool;
  _ringBuffer : RingBuffer Z;
  _packetByteCount : Z;
  _lastdata : Z;
  _identity : synaptics_identify_trackpad;
  _capabilities : synaptics_capabilities;
  _extended_id : synaptics_extended_id;
  _securepad : synaptics_securepad_id;
  _scale : synaptics_scale;
  _cont_caps : synaptics_cont_capabilities;
  _cmdGate : bool;
  _provider : bool;
  inputEvent : VoodooInputEvent;
  size : SynapticsSize;
  touches : SynapticsTouch;
  lastSentFingerCount : Z;
  settings : SynapticsSettings;
  _lastExtendedButtons : Z;
  _lastPassthruButtons : Z;
  keytime : Z;
  keycode : Z;
  ignoreall : bool;
  _modifierdown : Z;
  attachedHIDPointerDevices : option (list Z);
  usb_notify : bool;
  bluetooth_notify : bool }.

Definition newHw : synaptics_hw_state := mkHw 0 0 0 0 (-1).
Definition newVirtual : synaptics_virtual_finger_state :=
  mkVirtual (newAverage 5) (newAverage 5) 0 0 false false typeUndefined.

(** Every type is free but the undefined one. *)
Definition allTypes (count : Z) : list bool := false :: replicate (Z.to_nat (count - 1)) true.

Definition newTouch (count : Z) : SynapticsTouch := {|
  fingerStates := replicate (Z.to_nat SYNAPTICS_MAX_FINGERS) newHw;
  virtualFingerStates := replicate (Z.to_nat SYNAPTICS_MAX_FINGERS) newVirtual;
  freeFingerTypes := allTypes count;
  lastFingerCount := 0; hadLiftFinger := false; clampedFingerCount := 0; agmFingerCount := 0;
  wasSkipped := false; _clickpad_pressed := false |}.

Definition initSettings : SynapticsSettings := {|
  _forceTouchMode := FORCE_TOUCH_BUTTON; _forceTouchPressureThreshold := 100;
  _forceTouchCustomDownThreshold := 90; _forceTouchCustomUpThreshold := 20; _forceTouchCustomPower := 8;
  z_finger := 45; noled := false; maxaftertyping := 500000000; maxafterspecialtyping := 0;
  specialKey := 0x80; wakedelay := 1000; hwresetonstart := false;
  minXOverride := -1; minYOverride := -1; maxXOverride := -1; maxYOverride := -1;
  _scrollMultiplierX := 1; _scrollMultiplierY := 1; _scrollDivisorX := 1; _scrollDivisorY := 1;
  _mouseMultiplierX := 1; _mouseMultiplierY := 1; _mouseDivisorX := 1; _mouseDivisorY := 1; _deadzone := 1;
  usb_mouse_stops_trackpad := true; disableDeepSleep := false;
  _processusbmouse := true; _processbluetoothmouse := true |}.

(** The object as constructor and [init] leave it, on memory that [OSObject] zero-fills;
    [n] is VoodooInput's [VOODOO_INPUT_MAX_TRANSDUCERS], [types] its [kMT2FingerTypeCount]. *)
Definition newSynaptics (n types : Z) : ApplePS2SynapticsTouchPad := {|
  voodooInputInstance := None; _device := None;
  _interruptHandlerInstalled := false; _powerControlHandlerInstalled := false;
  _ringBuffer := mkRing (replicate (Z.to_nat SYNA_RING) 0) 0 0; _packetByteCount := 0; _lastdata := 0;
  _identity := identityOf 0 0 0; _capabilities := capabilitiesOf 0 0 0; _extended_id := extendedIdOf 0 0 0;
  _securepad := securepadOf 0 0 0; _scale := scaleOf 0 0 0; _cont_caps := contCapsOf 0 0 0;
  _cmdGate := false; _provider := false;
  inputEvent := mkInputEvent (replicate (Z.to_nat n) noTransducer) 0 0;
  size := mkSize 0 0 0 0 0 0 0 0;
  touches := newTouch types;
  lastSentFingerCount := 0; settings := initSettings;
  _lastExtendedButtons := 0; _lastPassthruButtons := 0; keytime := 0; keycode := 0; ignoreall := false;
  _modifierdown := 0; attachedHIDPointerDevices := None; usb_notify := false; bluetooth_notify := false |}.

(** What the driver tells VoodooInput, the I/O registry and ACPI. *)
Inductive SynaKey :=
| skBoardId | skIntertouch | skLogicalMaxX | skLogicalMaxY | skPhysicalMaxX | skPhysicalMaxY | skTransform | skSupported
| skSetting (name : string).

Inductive SynaValue := SynaNumber (z : Z) | SynaBoolean (b : bool).

Inductive SynaEvent :=
| SynaTouchEvent (client : Z) (e : VoodooInputEvent)
| SynaTrackpoint (client timestamp dx dy buttons : Z)
| SynaDimensions (client xMin xMax yMin yMax : Z)
| SynaTrackpointUpdate (client : Z)
| SynaSet (key : SynaKey) (v : SynaValue)
| SynaInject (key : string) (o : OSObject)
| SynaTrackpointSettings (s : SynapticsSettings)
| SynaInfo (major minor : Z)
| SynaAcpi (ignore : bool)
| SynaRegister.

#[export] Instance syna_configured : Configured ApplePS2SynapticsTouchPad SynapticsSettings SynaEvent := {|
  onSettings f d := {| d with settings := f (settings d) |};
  numberSet name v := SynaSet (skSetting name) (SynaNumber v);
  number64Set name v := SynaSet (skSetting name) (SynaNumber v);
  booleanSet name v := SynaSet (skSetting name) (SynaBoolean v) |}.

(** ** Bytes from the touchpad *)

(** A packet of the driver's own: a zero, and what it is for. *)
Definition storeMarker (reason : Z) (rb : RingBuffer Z) : option (RingBuffer Z) :=
  rb ← head_set 0 0x00 rb; rb ← head_set 1 reason rb; Some (advanceHead SYNA_RING kPacketLength rb).

Definition marked (reason : Z) (d : ApplePS2SynapticsTouchPad) : outcome (ApplePS2SynapticsTouchPad * PS2InterruptResult) :=
  match storeMarker reason (_ringBuffer d) with
  | Some rb => Ok ({| d with _ringBuffer := rb; _packetByteCount := 0 |}, kPS2IR_packetReady)
  | None => Crash
  end.

Definition interruptOccurred (data : Z) : M ApplePS2SynapticsTouchPad PS2InterruptResult := fun d =>
  let data := u8 data in
  if (kSC_Reset =? _lastdata d) && (0x00 =? data) then marked kSC_Reset d else
  let d := {| d with _lastdata := data |} in
  if (0 =? _packetByteCount d) && negb (Z.land data 0xc8 =? 0x80) then marked 0 d
  else if (3 =? _packetByteCount d) && negb (Z.land data 0xc8 =? 0xc0) then marked 3 d
  else
  match head_set (_packetByteCount d) data (_ringBuffer d) with
  | None => Crash
  | Some rb =>
    let n := u32 (_packetByteCount d + 1) in
    if kPacketLength =? n
    then Ok ({| d with _ringBuffer := advanceHead SYNA_RING kPacketLength rb; _packetByteCount := 0 |}, kPS2IR_packetReady)
    else Ok ({| d with _ringBuffer := rb; _packetByteCount := n |}, kPS2IR_packetBuffering)
  end.

(** The nub passes a byte on once the driver has installed its action. *)
Definition interruptAction (data : Z) : M ApplePS2SynapticsTouchPad PS2InterruptResult := fun d =>
  if _interruptHandlerInstalled d then interruptOccurred data d else Ok (d, kPS2IR_packetBuffering).

#[export] Instance synaptics_driver : BusDriver ApplePS2SynapticsTouchPad := {|
  drv_interrupt := interruptAction;
  drv_device := _device;
  drv_installed := _interruptHandlerInstalled |}.

#[export] Instance synaptics_ring : PacketRing ApplePS2SynapticsTouchPad := {|
  ringSize := SYNA_RING;
  ringPacket _ := kPacketLength;
  ringOf := _ringBuffer;
  setRing rb d := {| d with _ringBuffer := rb |} |}.
