(* ===== verification/SynapticsTouch.v ===== *)
(** * The Synaptics touchpad driver: fingers

    What the packets of VoodooPS2SynapticsTouchPad.cpp do to the physical fingers, and
    [renumberFingers], which gives each physical finger a virtual one, so that the same
    finger keeps its number while others come and go.  The text of the log is left out. *)
From S2P Require Import Prelude PS2Types RingBuffer Bus DriverWorld RingLoop OSTypes Touch Trackpad Synaptics.

Implicit Types (t : SynapticsTouch) (sz : SynapticsSize).

(** ** Access *)

Definition hwAt (i : Z) t : option synaptics_hw_state := arr_get (fingerStates t) i.
Definition virtAt (j : Z) t : option synaptics_virtual_finger_state := arr_get (virtualFingerStates t) j.

(** [fingerStates[i] = f(fingerStates[i])], and the same for a virtual finger. *)
Definition onHw (i : Z) (f : synaptics_hw_state -> synaptics_hw_state) t : option SynapticsTouch :=
  s ← hwAt i t; l ← arr_set (fingerStates t) i (f s); Some {| t with fingerStates := l |}.
Definition onVirt (j : Z) (f : synaptics_virtual_finger_state -> synaptics_virtual_finger_state) t : option SynapticsTouch :=
  s ← virtAt j t; l ← arr_set (virtualFingerStates t) j (f s); Some {| t with virtualFingerStates := l |}.
Definition setFree (type : Z) (b : bool) t : option SynapticsTouch :=
  l ← arr_set (freeFingerTypes t) type b; Some {| t with freeFingerTypes := l |}.

Definition indices : list Z := seqZ 0 SYNAPTICS_MAX_FINGERS.

(** ** Packets *)

(** A coordinate of thirteen bits; the highest values stand for negative ones. *)
Definition signedX (x : Z) : Z :=
  if X_MAX_POSITIVE <? x then x - Z.shiftl 1 ABS_POS_BITS else if x =? X_MAX_POSITIVE then XMAX else x.
Definition signedY (y : Z) : Z :=
  if Y_MAX_POSITIVE <? y then y - Z.shiftl 1 ABS_POS_BITS else if y =? Y_MAX_POSITIVE then YMAX else y.

(** [w] of a packet. *)
Definition packetW (b0 b3 : Z) : Z :=
  Z.lor (Z.lor (Z.shiftr (Z.land b0 0x30) 2) (Z.shiftr (Z.land b0 0x04) 1)) (Z.shiftr (Z.land b3 0x04) 2).

Definition normalX (b1 b3 b4 : Z) : Z := Z.lor (Z.lor b4 (Z.shiftl (Z.land b1 0x0f) 8)) (Z.shiftl (Z.land b3 0x10) 8).
Definition normalY (b1 b3 b5 : Z) : Z := Z.lor (Z.lor b5 (Z.shiftl (Z.land b1 0xf0) 4)) (Z.shiftl (Z.land b3 0x20) 7).

(** The first physical finger of a normal packet. *)
Definition normalFinger (buf : list Z) (w : Z) (f : synaptics_hw_state) : option synaptics_hw_state :=
  b1 ← arr_get buf 1; b2 ← arr_get buf 2; b3 ← arr_get buf 3; b4 ← arr_get buf 4; b5 ← arr_get buf 5;
  let x := normalX b1 b3 b4 in
  let y := normalY b1 b3 b5 in
  Some {| f with hw_x := signedX x; hw_y := signedY y;
    hw_z := if 4 <=? w then b2 else Z.land b2 0xfe;
    hw_w := if 4 <=? w then w
            else 8 + Z.lor (Z.lor (Z.shiftl (Z.land b2 1) 2) (Z.land b5 2)) (Z.land b4 (Z.shiftr 2 1)) |}.

(** The number of fingers, and what becomes of [agmFingerCount]. *)
Definition countFingers (z_finger z w agm : Z) : Z * Z :=
  if z <? z_finger then (0, 0)
  else if 4 <=? w then (1, 0)
  else if w =? 0 then (Z.max 2 (Z.min agm SYNAPTICS_MAX_FINGERS), agm)
  else if w =? 1 then (Z.max 3 (Z.min agm SYNAPTICS_MAX_FINGERS), agm)
  else (0, agm).

(** [synaptics_parse_normal_packet] before [renumberFingers]. *)
Definition normalPacket (z_finger : Z) (buf : list Z) (w : Z) t : option SynapticsTouch :=
  f ← hwAt 0 t;
  f ← normalFinger buf w f;
  let '(fingers, agm) := countFingers z_finger (hw_z f) w (agmFingerCount t) in
  t ← onHw 0 (fun _ => if hw_z f <? z_finger then {| f with hw_w := 0 |} else f) t;
  Some {| t with agmFingerCount := agm; clampedFingerCount := Z.min fingers SYNAPTICS_MAX_FINGERS |}.

(** The second physical finger of an advanced gesture packet, at half the resolution. *)
Definition agmX (b1 b4 : Z) : Z := Z.shiftl (Z.lor (Z.shiftl (Z.land b4 0x0f) 8) b1) 1.
Definition agmY (b2 b4 : Z) : Z := Z.shiftl (Z.lor (Z.shiftl (Z.land b4 0xf0) 4) b2) 1.

Definition agmFinger (b1 b2 b3 b4 b5 : Z) (f : synaptics_hw_state) : synaptics_hw_state :=
  {| f with hw_x := signedX (agmX b1 b4); hw_y := signedY (agmY b2 b4);
    hw_z := Z.shiftl (Z.lor (Z.land b3 0x30) (Z.land b5 0x0f)) 1;
    hw_w := 8 + Z.lor (Z.lor (Z.shiftl (Z.land b5 1) 2) (Z.shiftl (Z.land b2 1) 1)) (Z.land b1 1) |}.

Definition synaptics_parse_agm_packet (buf : list Z) t : option SynapticsTouch :=
  b1 ← arr_get buf 1; b2 ← arr_get buf 2; b3 ← arr_get buf 3; b4 ← arr_get buf 4; b5 ← arr_get buf 5;
  match Z.shiftr (Z.land b5 0x30) 4 with
  | 1 => onHw 1 (agmFinger b1 b2 b3 b4 b5) t
  | 2 => Some {| t with agmFingerCount := Z.land b1 0x0f |}
  | _ => Some t
  end.

(** The extended buttons of bytes 4 and 5, which interleave them. *)
Definition extendedButtons (btns b4 b5 : Z) : Z :=
  let btnBits := Z.quot (btns + 1) 2 in
  let pick acc i :=
    let mask := u8 (Z.shiftl 1 i) in
    Z.lor (Z.lor acc (Z.shiftl (Z.land b4 mask) i)) (Z.shiftl (Z.land b5 mask) (i + 1)) in
  Z.land (fold_left pick (seqZ 0 btnBits) 0) (Z.shiftl 1 btns - 1).

(** [synaptics_parse_ext_btns]: the buttons after a packet, where [last] are those before. *)
Definition synaptics_parse_ext_btns (btns : Z) (buf : list Z) (w last : Z) : option Z :=
  b0 ← arr_get buf 0; b3 ← arr_get buf 3;
  if (Z.land (Z.lxor b0 b3) 0x2 =? 0) || (w =? SYNA_W_EXTENDED) then Some last else
  b4 ← arr_get buf 4; b5 ← arr_get buf 5;
  Some (extendedButtons btns b4 b5).

(** The buttons of byte 0, and whether the middle one is down. *)
Definition packetButtons (caps : synaptics_capabilities) (b0 b3 : Z) : Z :=
  Z.lor (Z.land b0 0x3) (if middle_btn caps && nz (Z.land (Z.lxor b0 b3) 0x1) then 0x4 else 0).

(** ** Virtual fingers *)

Definition sqr (x : Z) : Z := x * x.

Definition dist (physicalFinger virtualFinger : Z) t : option Z :=
  phy ← hwAt physicalFinger t; virt ← virtAt virtualFinger t;
  x ← newest (x_avg virt); y ← newest (y_avg virt);
  Some (s32 (sqr (hw_x phy - x) + sqr (hw_y phy - y))).

(** The first free type from [i] on. *)
Fixpoint findType (free : list bool) (i : Z) : option Z :=
  match free with
  | [] => None
  | b :: free' => if b : bool then Some i else findType free' (i + 1)
  end.

Definition assignFingerType (j : Z) t : option SynapticsTouch :=
  match findType (drop (Z.to_nat typeIndexFinger) (freeFingerTypes t)) typeIndexFinger with
  | Some i => t ← setFree i false t; onVirt j (fun v => {| v with vf_fingerType := i |}) t
  | None => onVirt j (fun v => {| v with vf_fingerType := typeUndefined |}) t
  end.

(** A virtual finger without a past. *)
Definition forget (v : synaptics_virtual_finger_state) : synaptics_virtual_finger_state :=
  {| v with x_avg := resetAverage (x_avg v); y_avg := resetAverage (y_avg v) |}.

Fixpoint findUntouched (l : list synaptics_virtual_finger_state) (j : Z) : option Z :=
  match l with
  | [] => None
  | v :: l' => if vf_touch v then findUntouched l' (j + 1) else Some j
  end.

(** The first virtual finger that is not touched, for a physical one. *)
Definition assignVirtualFinger (physicalFinger : Z) t : option SynapticsTouch :=
  if (physicalFinger <? 0) || (SYNAPTICS_MAX_FINGERS <=? physicalFinger) then Some t else
  match findUntouched (virtualFingerStates t) 0 with
  | None => Some t
  | Some j =>
    t ← onHw physicalFinger (fun f => {| f with virtualFingerIndex := j |}) t;
    t ← onVirt j (fun v => forget {| v with vf_touch := true |}) t;
    assignFingerType j t
  end.

Definition freeVirtual (v : synaptics_virtual_finger_state) : synaptics_virtual_finger_state :=
  {| (forget v) with vf_touch := false; vf_pressure := 0; vf_width := 0 |}.

(** The virtual finger of physical finger [i] is in use. *)
Definition markVirtual (i : Z) t : option SynapticsTouch :=
  f ← hwAt i t;
  let j := virtualFingerIndex f in
  if j =? -1 then Some t else
  t ← onVirt j (fun v => {| v with vf_touch := true |}) t;
  v ← virtAt j t;
  setFree (vf_fingerType v) false t.

Definition dropType (v : synaptics_virtual_finger_state) : synaptics_virtual_finger_state :=
  if vf_touch v then v else {| v with vf_fingerType := typeUndefined |}.

Definition freeAndMarkVirtualFingers t : option SynapticsTouch :=
  let t := {| t with freeFingerTypes := allTypes (Z.of_nat (length (freeFingerTypes t)));
                     virtualFingerStates := map freeVirtual (virtualFingerStates t) |} in
  t ← fold_opt markVirtual (seqZ 0 (clampedFingerCount t)) t;
  Some {| t with virtualFingerStates := map dropType (virtualFingerStates t) |}.

Definition upperFingerIndex t : option Z :=
  f0 ← hwAt 0 t; f1 ← hwAt 1 t; Some (if hw_y f0 <? hw_y f1 then 1 else 0).
Definition upperFinger t : option synaptics_hw_state := i ← upperFingerIndex t; hwAt i t.

Definition clone (src dst : synaptics_hw_state) : synaptics_hw_state :=
  {| src with virtualFingerIndex := virtualFingerIndex dst |}.

(** [clone(fingerStates[dst], upperFinger())] *)
Definition cloneUpper (dst : Z) t : option SynapticsTouch := u ← upperFinger t; onHw dst (clone u) t.

Definition swapFingers (dst src : Z) t : option SynapticsTouch :=
  s ← hwAt src t;
  let j := virtualFingerIndex s in
  v ← virtAt j t;
  t ← onHw dst (fun f => {| f with hw_x := average (x_avg v); hw_y := average (y_avg v); virtualFingerIndex := j |}) t;
  assignVirtualFinger src t.

(** ** Fingers that are not reported

    The touchpad reports two fingers; the others are imagined. *)

(** [value] is an [int], the limits are [uint32_t]. *)
Definition clip_no_update_limits (value minimum maximum : Z) : Z :=
  let value := if u32 value <? minimum then s32 minimum else value in
  if maximum <? u32 value then s32 maximum else value.

(** A finger moved by [dx] and [dy]. *)
Definition imagine sz (dx dy z w : Z) (f : synaptics_hw_state) : synaptics_hw_state :=
  {| f with hw_x := clip_no_update_limits (s32 (hw_x f + dx)) (logical_min_x sz) (logical_max_x sz);
            hw_y := clip_no_update_limits (s32 (hw_y f + dy)) (logical_min_y sz) (logical_max_y sz);
            hw_z := z; hw_w := w |}.

(** How far physical finger [f] is from where its virtual finger was last. *)
Definition moved (f : synaptics_hw_state) t : option (Z * Z) :=
  v ← virtAt (virtualFingerIndex f) t; x ← newest (x_avg v); y ← newest (y_avg v);
  Some (s32 (hw_x f - x), s32 (hw_y f - y)).

(** Four and more fingers follow the upper one, three the mean of the two. *)
Definition imagineFingers sz t : option SynapticsTouch :=
  f0 ← hwAt 0 t; f1 ← hwAt 1 t;
  if (virtualFingerIndex f0 =? -1) || (virtualFingerIndex f1 =? -1) then Some t
  else if 4 <=? clampedFingerCount t then
    fi ← upperFinger t; '(dx, dy) ← moved fi t;
    fold_opt (fun j => onHw j (imagine sz dx dy (hw_z fi) (hw_w fi))) (seqZ 2 (clampedFingerCount t - 2)) t
  else
    '(dx0, dy0) ← moved f0 t; '(dx1, dy1) ← moved f1 t;
    onHw 2 (imagine sz (Z.quot (s32 (dx0 + dx1)) 2) (Z.quot (s32 (dy0 + dy1)) 2)
                    (Z.quot (hw_z f0 + hw_z f1) 2) (Z.quot (hw_w f0 + hw_w f1) 2)) t.

(** ** Who is who *)

(** A jump of the only finger is a finger lifted and another put down. *)
Definition unpressJump t : option SynapticsTouch :=
  f ← hwAt 0 t;
  let j := virtualFingerIndex f in
  d ← dist 0 j t;
  if FINGER_DIST <? d then
    t ← onVirt j (fun v => {| (forget v) with vf_pressure := 0; vf_width := 0; vf_fingerType := typeUndefined |}) t;
    Some {| t with clampedFingerCount := 0 |}
  else Some t.

(** The first fingers, in the order the touchpad gives them. *)
Definition firstFinger (i : Z) t : option SynapticsTouch :=
  t ← onHw i (fun f => {| f with virtualFingerIndex := i |}) t;
  t ← onVirt i (fun v => {| v with vf_touch := true |}) t;
  t ← assignFingerType i t;
  t ← onVirt i forget t;
  if 2 <=? i then cloneUpper i t else Some t.

Definition cloneAndAssign (i : Z) t : option SynapticsTouch := t ← cloneUpper i t; assignVirtualFinger i t.

(** More fingers than before, and none has been lifted. *)
Definition addFingers t : option SynapticsTouch :=
  let last := lastFingerCount t in
  match clampedFingerCount t - last with
  | 1 => if 2 <=? last then swapFingers last 1 t else assignVirtualFinger 1 t
  | 2 => if last =? 1 then t ← assignVirtualFinger 1 t; cloneAndAssign 2 t
         else t ← swapFingers last 1 t; cloneAndAssign 3 t
  | 3 => t ← assignVirtualFinger 1 t; t ← cloneAndAssign 2 t; cloneAndAssign 3 t
  | 4 => t ← assignVirtualFinger 1 t; t ← cloneAndAssign 2 t; t ← cloneAndAssign 3 t; cloneAndAssign 4 t
  | _ => Some t
  end.

(** The nearest of the candidates [l] that are not to be skipped: its distance and itself. *)
Fixpoint nearest (skip : Z -> option bool) (d : Z -> option Z) (l : list Z) (best : Z * Z) : option (Z * Z) :=
  match l with
  | [] => Some best
  | i :: l' =>
    s ← skip i;
    if s : bool then nearest skip d l' best else
    x ← d i; nearest skip d l' (if x <? best.1 then (x, i) else best)
  end.

Definition farAway : Z * Z := (INT_MAX, -1).

Definition taken t (i : Z) : option bool := f ← hwAt i t; Some (negb (virtualFingerIndex f =? -1)).

(** The largest distances so far: [maxMinDist], [maxMinDistIndex], [secondMaxMinDist],
    [secondMaxMinDistIndex]. *)
Record Farthest := mkFarthest { first_d : Z; first_i : Z; second_d : Z; second_i : Z }.
Definition farther (d i : Z) (m : Farthest) : Farthest :=
  if first_d m <? d then mkFarthest d i (first_d m) (first_i m) else m.

(** A physical finger for virtual finger [j]. *)
Definition matchPhysical (j : Z) (tm : SynapticsTouch * Farthest) : option (SynapticsTouch * Farthest) :=
  let '(t, m) := tm in
  v ← virtAt j t;
  if negb (vf_touch v) then Some (t, m) else
  '(d, i) ← nearest (taken t) (fun i => dist i j t) (seqZ 0 (lastFingerCount t)) farAway;
  if i =? -1 then Some (t, m) else
  t ← onHw i (fun f => {| f with virtualFingerIndex := j |}) t;
  Some (t, farther d i m).

(** No physical finger has a virtual one. *)
Definition unlink t : SynapticsTouch :=
  {| t with fingerStates := map (fun f => {| f with virtualFingerIndex := -1 |}) (fingerStates t) |}.

Definition assignIfFree (i : Z) t : option SynapticsTouch :=
  b ← taken t i; if b : bool then Some t else assignVirtualFinger i t.

(** Pressure and width of an imagined finger. *)
Definition meanPressure (i : Z) t : option SynapticsTouch :=
  f0 ← hwAt 0 t; f1 ← hwAt 1 t;
  onHw i (fun f => {| f with hw_z := Z.quot (hw_z f0 + hw_z f1) 2; hw_w := Z.quot (hw_w f0 + hw_w f1) 2 |}) t.

(** The third finger, and the third to fifth. *)
Definition placeThird (m : Farthest) t : option SynapticsTouch :=
  t ← meanPressure 2 t;
  if (FINGER_DIST <? first_d m) && (0 <=? first_i m) then swapFingers 2 (first_i m) t
  else
    u ← upperFinger t;
    t ← onHw 2 (fun f => {| f with hw_x := hw_x u; hw_y := hw_y u |}) t;
    assignVirtualFinger 2 t.

Definition placeOthers (m : Farthest) t : option SynapticsTouch :=
  t ← meanPressure 2 t; t ← meanPressure 3 t;
  t ← (if (FINGER_DIST <? first_d m) && (0 <=? first_i m) then
         if lastFingerCount t <? 3 then
           t ← swapFingers 2 (first_i m) t;
           if (FINGER_DIST <? second_d m) && (0 <=? second_i m) then swapFingers 3 (second_i m) t
           else cloneAndAssign 3 t
         else swapFingers 3 (first_i m) t
       else
         t ← cloneUpper 2 t;
         t ← (if lastFingerCount t <? 3 then assignVirtualFinger 2 t else Some t);
         cloneAndAssign 3 t);
  if 5 <=? clampedFingerCount t then cloneAndAssign 4 t else Some t.

(** More fingers than before, after one has been lifted: the touchpad may have exchanged
    the fingers it reports. *)
Definition rematchFingers t : option SynapticsTouch :=
  '(t, m) ← fold_opt matchPhysical indices (unlink t, mkFarthest 0 (-1) 0 (-1));
  t ← fold_opt assignIfFree (seqZ 0 (Z.min 2 (clampedFingerCount t))) t;
  t ← (if clampedFingerCount t =? 3 then placeThird m t
       else if 4 <=? clampedFingerCount t then placeOthers m t
       else Some t);
  freeAndMarkVirtualFingers t.

(** A virtual finger for physical finger [i] among those not [used]. *)
Definition unusable (used : list bool) t (j : Z) : option bool :=
  v ← virtAt j t; if negb (vf_touch v) then Some true else arr_get used j.

Definition matchVirtual (i : Z) (tu : SynapticsTouch * list bool) : option (SynapticsTouch * list bool) :=
  let '(t, used) := tu in
  '(_, j) ← nearest (unusable used t) (fun j => dist i j t) indices farAway;
  t ← onHw i (fun f => {| f with virtualFingerIndex := j |}) t;
  if j =? -1 then Some (t, used) else
  used ← arr_set used j true;
  Some (t, used).

(** Fewer fingers than before. *)
Definition removeFingers t : option SynapticsTouch :=
  let t := {| (unlink t) with hadLiftFinger := 0 <? clampedFingerCount t |} in
  '(t, _) ← fold_opt matchVirtual (seqZ 0 (clampedFingerCount t)) (t, replicate (Z.to_nat SYNAPTICS_MAX_FINGERS) false);
  freeAndMarkVirtualFingers t.

Definition changeFingers t : option SynapticsTouch :=
  if lastFingerCount t =? 0 then fold_opt firstFinger (seqZ 0 (clampedFingerCount t)) t
  else if lastFingerCount t <? clampedFingerCount t then
    if hadLiftFinger t then rematchFingers t else addFingers t
  else removeFingers t.

(** Where physical finger [i] is now. *)
Definition followFinger (i : Z) t : option SynapticsTouch :=
  f ← hwAt i t;
  let j := virtualFingerIndex f in
  if (j <? 0) || (SYNAPTICS_MAX_FINGERS <=? j) then Some t else
  v ← virtAt j t;
  ax ← filterAverage 5 (hw_x f) (x_avg v);
  ay ← filterAverage 5 (hw_y f) (y_avg v);
  onVirt j (fun v => {| v with x_avg := ax; y_avg := ay; vf_width := u8 (hw_w f); vf_pressure := u8 (hw_z f);
                               vf_button := _clickpad_pressed t |}) t.

(** The lowest of the fingers from index [i] on, after [index] at [y]. *)
Fixpoint lowest (l : list synaptics_virtual_finger_state) (i : Z) (index y : Z) : Z :=
  match l with
  | [] => index
  | v :: l' =>
    if vf_touch v && (average (y_avg v) <? y) then lowest l' (i + 1) i (average (y_avg v))
    else lowest l' (i + 1) index y
  end.

(** Of four fingers or more the lowest becomes the thumb. *)
Definition findThumb t : option SynapticsTouch :=
  if (lastFingerCount t <? clampedFingerCount t) && (4 <=? clampedFingerCount t) then
    let i := lowest (virtualFingerStates t) 0 (-1) INT_MAX in
    if i =? -1 then Some t else
    v ← virtAt i t;
    t ← setFree (vf_fingerType v) true t;
    t ← onVirt i (fun v => {| v with vf_fingerType := typeThumb |}) t;
    setFree typeThumb false t
  else Some t.

(** [renumberFingers]; the result says whether the fingers can be sent. *)
Definition waitForAgm t : bool :=
  negb (clampedFingerCount t =? lastFingerCount t) && (lastFingerCount t <? clampedFingerCount t) &&
  (3 <=? clampedFingerCount t).

Definition renumberFingers sz t : option (SynapticsTouch * bool) :=
  t ← (if (clampedFingerCount t =? lastFingerCount t) && (3 <=? clampedFingerCount t)
       then imagineFingers sz t else Some t);
  t ← (if (clampedFingerCount t =? lastFingerCount t) && (clampedFingerCount t =? 1)
       then unpressJump t else Some t);
  if waitForAgm t && negb (wasSkipped t) then Some ({| t with wasSkipped := true |}, false) else
  let t := if waitForAgm t then {| t with wasSkipped := false |} else t in
  t ← (if clampedFingerCount t =? lastFingerCount t then Some t else changeFingers t);
  t ← fold_opt followFinger (seqZ 0 (clampedFingerCount t)) t;
  t ← findThumb t;
  Some (t, true).
