(* ===== verification/SynapticsDriver.v ===== *)
(** * The Synaptics touchpad driver: operations

    The rest of VoodooPS2SynapticsTouchPad.cpp, in the world of [DriverWorld.v]: what is
    sent to VoodooInput, the work loop, the commands that query and set up the touchpad,
    settings, messages, power, attached mice and life cycle.  Parameters are
    [absolutetime_to_nanoseconds] and [bootArg], whether the kernel was started with an
    argument ([PE_parse_boot_argn]).  The text of the log is left out. *)
From S2P Require Import Prelude PS2Types RingBuffer Bus DriverWorld RingLoop OSTypes Touch Trackpad.
From S2P Require Import Synaptics SynapticsTouch.

(** ** What is sent *)

(** [isPhysicalButtonDown] and the pressure of a contact. *)
Definition forceTouch (s : SynapticsSettings) (fingers : Z) (v : synaptics_virtual_finger_state) : bool * Z :=
  let threshold := if _forceTouchPressureThreshold s <? vf_pressure v then 255 else 0 in
  let mode := _forceTouchMode s in
  if mode =? FORCE_TOUCH_BUTTON then (false, if vf_button v then 255 else 0)
  else if mode =? FORCE_TOUCH_THRESHOLD then (vf_button v, threshold)
  else if mode =? FORCE_TOUCH_VALUE then (vf_button v, vf_pressure v)
  else if mode =? FORCE_TOUCH_CUSTOM then
    (vf_button v, if negb (fingers =? 1) then threshold else customPressure (_forceTouchCustomDownThreshold s) (_forceTouchCustomUpThreshold s) (_forceTouchCustomPower s) (vf_pressure v))
  else (vf_button v, 0).

(** [clip] for one axis: the limits and whether they changed, and the value.  The limits are
    [uint32_t], which the comparisons turn everything into. *)
Definition clip (value minimum maximum margin : Z) : Z * Z * Z * bool :=
  let below := u32 value <? u32 (minimum - margin) in
  let minimum := if below then u32 (value + margin) else minimum in
  let above := u32 (maximum + margin) <? u32 value in
  let maximum := if above then u32 (value - margin) else maximum in
  (clip_no_update_limits value minimum maximum, minimum, maximum, below || above).

(** The place of a contact, and the pad's size after it. *)
Definition placeContact (v : synaptics_virtual_finger_state) (sz : SynapticsSize) : Z * Z * SynapticsSize * bool :=
  let '(x, minx, maxx, changed_x) := clip (average (x_avg v)) (logical_min_x sz) (logical_max_x sz) (margin_size_x sz) in
  let '(y, miny, maxy, changed_y) := clip (average (y_avg v)) (logical_min_y sz) (logical_max_y sz) (margin_size_y sz) in
  (s32 (x - minx), s32 (maxy + 1 - y),
   {| sz with logical_min_x := minx; logical_max_x := maxx; logical_min_y := miny; logical_max_y := maxy |},
   changed_x || changed_y).

Definition synaTransducer (s : SynapticsSettings) (timestamp fingers i x y : Z) (v : synaptics_virtual_finger_state)
    (old : VoodooInputTransducer) : VoodooInputTransducer :=
  let '(down, pressure) := forceTouch s fingers v in
  {| tr_current := mkCoordinates (u32 x) (u32 y) pressure (Z.quot (vf_pressure v) 2);
     tr_previous := tr_current old;
     tr_timestamp := timestamp;
     tr_isValid := true;
     tr_isPhysicalButtonDown := down;
     tr_isTransducerActive := true;
     tr_supportsPressure := true;
     tr_secondaryId := i;
     tr_fingerType := fingerTypeOf (vf_fingerType v);
     tr_isFinger := true |}.

(** The first loop of [sendTouchData]; [freeFingerTypes] is only looked at for the log. *)
Record SynaFill := mkFill { fl_transducers : list VoodooInputTransducer; fl_count : Z; fl_size : SynapticsSize; fl_changed : bool }.

Definition fillContact (s : SynapticsSettings) (timestamp fingers : Z) (t : SynapticsTouch) (i : Z) (f : SynaFill) : option SynaFill :=
  v ← virtAt i t;
  if negb (vf_touch v) then Some f else
  old ← arr_get (fl_transducers f) (fl_count f);
  let '(x, y, sz, changed) := placeContact v (fl_size f) in
  _ ← arr_get (freeFingerTypes t) (vf_fingerType v);
  l ← arr_set (fl_transducers f) (fl_count f) (synaTransducer s timestamp fingers i x y v old);
  Some (mkFill l (fl_count f + 1) sz (fl_changed f || changed)).

Definition fillContacts (d : ApplePS2SynapticsTouchPad) (timestamp : Z) : option SynaFill :=
  fold_opt (fillContact (settings d) timestamp (clampedFingerCount (touches d)) (touches d)) indices
    (mkFill (ev_transducers (inputEvent d)) 0 (size d) false).

(** The second of a query's answers to the pad's size, in 0.01 mm; [None] is a division by zero. *)
Definition physicalSize (max min res : Z) : option Z :=
  if res =? 0 then None else Some (u32 (u32 (max + 1 - min) * 100) / res).

Section Driver.
Context {B : Type} `{PS2Bus B} (absolutetime_to_nanoseconds : Z -> Z) (bootArg : string -> bool).
#[local] Abbreviation W := (DrvWorld B ApplePS2SynapticsTouchPad SynaEvent).
#[local] Abbreviation C := (M W).

Definition setTouches (f : SynapticsTouch -> SynapticsTouch) : C unit :=
  dset (fun d => {| d with touches := f (touches d) |}).

(** [messageClient] with a client that may be null. *)
Definition tellClient (e : Z -> SynaEvent) : C unit :=
  client ← dget voodooInputInstance;
  match client with Some c => tell (e c) | None => ret tt end.

(** Whether a key was pressed a short time ago. *)
Definition quiet (timestamp : Z) (d : ApplePS2SynapticsTouchPad) : bool :=
  u64 (absolutetime_to_nanoseconds timestamp - keytime d) <?
  (if keycode d =? specialKey (settings d) then maxafterspecialtyping (settings d) else maxaftertyping (settings d)).

Definition sendContacts (timestamp : Z) : C unit :=
  r ← dget (fun d => fillContacts d timestamp);
  f ← deref r;
  let e := mkInputEvent (fl_transducers f) (u8 (fl_count f)) timestamp in
  dset (fun d => {| d with inputEvent := e; size := fl_size f |}) ;;
  when (fl_changed f)
    (sz ← dget size;
     tellClient (fun c => SynaDimensions c (s32 (logical_min_x sz)) (s32 (logical_max_x sz))
                                           (s32 (logical_min_y sz)) (s32 (logical_max_y sz)))) ;;
  sent ← dget lastSentFingerCount;
  when (negb (ev_contact_count e =? 0) || negb (sent =? 0)) (tellClient (fun c => SynaTouchEvent c e)) ;;
  dset (fun d => {| d with touches := {| (touches d) with lastFingerCount := clampedFingerCount (touches d) |};
                           lastSentFingerCount := ev_contact_count e |}).

Definition sendTouchData : C unit :=
  now ← gets now;
  let timestamp := u64 now in
  typing ← dget (quiet timestamp);
  if typing : bool then ret tt else
  changed ← dget (fun d => negb (lastFingerCount (touches d) =? clampedFingerCount (touches d)));
  if changed : bool then setTouches (fun t => {| t with lastFingerCount := clampedFingerCount t |})
  else sendContacts timestamp.

(** ** Packets *)

(** A report of buttons and motion. *)
Definition sendTrackpoint (dx dy buttons : Z) : C unit :=
  now ← gets now;
  tellClient (fun c => SynaTrackpoint c (u64 now) dx dy buttons).

Definition synaptics_parse_normal_packet (buf : list Z) (w : Z) : C unit :=
  dstep (fun d => t ← normalPacket (z_finger (settings d)) buf w (touches d); Some {| d with touches := t |}) ;;
  r ← dget (fun d => renumberFingers (size d) (touches d));
  '(t, send) ← deref r;
  setTouches (fun _ => t) ;;
  when send sendTouchData.

(** A signed motion. *)
Definition passthruMotion (sign b : Z) : Z := s32 (Z.lor (if nz sign then 0xffffff00 else 0) b).

Definition synaptics_parse_passthru (buf : list Z) (buttons : Z) : C unit :=
  b1 ← deref (arr_get buf 1); b4 ← deref (arr_get buf 4); b5 ← deref (arr_get buf 5);
  let passbuttons := Z.land b1 0x7 in
  dset (fun d => {| d with _lastPassthruButtons := passbuttons |}) ;;
  sendTrackpoint (passthruMotion (Z.land b1 0x10) b4) (- passthruMotion (Z.land b1 0x20) b5) (Z.lor buttons passbuttons).

(** The buttons a packet shows, the extended ones among them. *)
Definition parseButtons (buf : list Z) (w b0 b3 : Z) : C Z :=
  d ← dget id;
  let buttons := packetButtons (_capabilities d) b0 b3 in
  let btns := extended_btns (_extended_id d) in
  if 0 <? btns then
    e ← deref (synaptics_parse_ext_btns btns buf w (_lastExtendedButtons d));
    dset (fun d => {| d with _lastExtendedButtons := e |}) ;;
    ret (Z.lor buttons e)
  else ret buttons.

Definition synaptics_parse_hw_state (buf : list Z) : C unit :=
  b0 ← deref (arr_get buf 0); b3 ← deref (arr_get buf 3);
  let w := packetW b0 b3 in
  clickpad ← dget (fun d => one_btn_clickpad (_cont_caps d));
  when clickpad (setTouches (fun t => {| t with _clickpad_pressed := nz (Z.land (Z.lxor b0 b3) 0x1) |})) ;;
  buttons ← parseButtons buf w b0 b3;
  if w =? SYNA_W_PASSTHRU then synaptics_parse_passthru buf buttons else
  buttons ← dget (fun d => Z.lor buttons (_lastPassthruButtons d));
  (if w =? SYNA_W_EXTENDED
   then dstep (fun d => t ← synaptics_parse_agm_packet buf (touches d); Some {| d with touches := t |})
   else synaptics_parse_normal_packet buf w) ;;
  sendTrackpoint 0 0 buttons.

(** What the loop of [packetReady] does with the packet at [tail()]. *)
Definition handlePacket (packet : list Z) : C unit :=
  b0 ← deref (arr_get packet 0);
  ignore ← dget ignoreall;
  when (negb (0x00 =? b0) && negb ignore) (synaptics_parse_hw_state packet).

Definition packetReady : C unit := drainRing handlePacket.

(** ** Commands *)

Definition synaAck (z : Z) : PS2Command := cmd kPS2C_SendCommandAndCompareAck z.
Definition synaRead : PS2Command := cmd kPS2C_ReadDataPort 0.

(** [_device->submitRequestAndBlock] *)
Definition submitSyna (l : list PS2Command) : C PS2Request := dev ← dget drv_device; p ← deref dev; requestDevice p l.

(** A byte as four commands of two bits each. *)
Definition encodedBits (z : Z) : list PS2Command :=
  concat (map (fun i => [synaAck kDP_SetMouseResolution; synaAck (Z.land (Z.shiftr z i) 0x3)]) [6; 4; 2; 0]).

(** Three bytes of an answer, if all commands went through. *)
Definition threeBytes (r : PS2Request) (n i : Z) : C (option (Z * Z * Z)) :=
  if completed r n then
    b0 ← commandResult r i; b1 ← commandResult r (i + 1); b2 ← commandResult r (i + 2); ret (Some (b0, b1, b2))
  else ret None.

Definition getTouchPadData (dataSelector : Z) : C (option (Z * Z * Z)) :=
  r ← submitSyna ([synaAck kDP_SetDefaultsAndDisable] ++ encodedBits dataSelector ++
                  [synaAck kDP_GetMouseInformation; synaRead; synaRead; synaRead; synaAck kDP_SetDefaultsAndDisable]);
  threeBytes r 14 10.

(** Never called by the driver. *)
Definition getTouchPadStatus : C (option (Z * Z * Z)) :=
  r ← submitSyna [synaAck kDP_SetDefaultsAndDisable; synaAck kDP_GetMouseInformation; synaRead; synaRead; synaRead;
                  synaAck kDP_SetDefaultsAndDisable];
  threeBytes r 6 2.

Definition setTouchPadEnable (enable : bool) : C unit :=
  submitSyna [synaAck (if enable then kDP_Enable else kDP_SetDefaultsAndDisable)] ;; ret tt.

(** The mode byte for the touchpad that was found. *)
Definition modeByte (d : ApplePS2SynapticsTouchPad) (sleep : bool) : Z :=
  let mode := Z.lor (Z.lor SYNA_MODE_ABSOLUTE SYNA_MODE_W_MODE) SYNA_MODE_HIGH_RATE in
  let mode := if extended_w_supported (_capabilities d) || advanced_gestures (_cont_caps d) || reports_v (_cont_caps d)
              then Z.lor mode SYNA_MODE_EXT_W else mode in
  if sleep then Z.lor mode SYNA_MODE_SLEEP else mode.

Definition modeCommands (mode : Z) : list PS2Command :=
  [synaAck kDP_SetDefaultsAndDisable; synaAck kDP_SetDefaultsAndDisable;
   synaAck kDP_SetMouseScaling1To1; synaAck kDP_SetMouseScaling1To1] ++ encodedBits mode ++
  [synaAck kDP_SetMouseSampleRate; synaAck 20; synaAck kDP_SetMouseScaling1To1].

Definition setModeByte (sleep : bool) : C bool :=
  dev ← dget _device;
  match dev with
  | None => ret false
  | Some _ =>
    mode ← dget (fun d => modeByte d sleep);
    r ← submitSyna (modeCommands mode);
    ret (completed r 15)
  end.

(** The commands after the mode byte, the undocumented ones among them. *)
Definition gestureCommands : list PS2Command :=
  [synaAck kDP_SetMouseScaling1To1] ++ encodedBits 0x3 ++
  [synaAck kDP_SetMouseSampleRate; synaAck 200; synaAck kDP_Enable].

Definition enterAdvancedGestureMode : C bool :=
  dev ← dget _device;
  match dev with
  | None => ret false
  | Some _ => setModeByte false ;; r ← submitSyna gestureCommands; ret (completed r 12)
  end.

Definition setTouchpadLED (touchLED : Z) : C bool :=
  r ← submitSyna ([synaAck kDP_SetMouseScaling1To1] ++ encodedBits touchLED ++
                  [synaAck kDP_SetMouseSampleRate; synaAck 10; synaAck kDP_SetMouseScaling1To1]);
  ret (completed r 12).

Definition updateTouchpadLED : C unit :=
  d ← dget id;
  when (has_leds (_extended_id d) && negb (noled (settings d)))
    (setTouchpadLED (if ignoreall d then 0x88 else 0x10) ;; ret tt) ;;
  acpi ← dget _provider;
  ignore ← dget ignoreall;
  when acpi (tell (SynaAcpi ignore)).

Definition resetCommands (wakedelay : Z) : list PS2Command :=
  [synaAck kDP_SetDefaultsAndDisable; synaAck kDP_SetDefaultsAndDisable; cmd kPS2C_WriteDataPort kDP_Reset;
   cmd kPS2C_ReadDataPortAndCompare kSC_Acknowledge; cmd32 kPS2C_SleepMS (u32 (wakedelay * 2));
   cmd kPS2C_ReadDataPortAndCompare 0xAA; cmd kPS2C_ReadDataPortAndCompare 0x00].

Definition doHardwareReset : C unit :=
  ms ← dget (fun d => wakedelay (settings d)); submitSyna (resetCommands ms) ;; ret tt.

(** ** Queries *)

(** The answer to a query goes to a member. *)
Definition queryInto (selector : Z) (f : Z -> Z -> Z -> ApplePS2SynapticsTouchPad -> ApplePS2SynapticsTouchPad)
    (fails : ApplePS2SynapticsTouchPad -> ApplePS2SynapticsTouchPad) : C bool :=
  r ← getTouchPadData selector;
  match r with
  | Some (b0, b1, b2) => dset (f b0 b1 b2) ;; ret true
  | None => dset fails ;; ret false
  end.

Definition noted (name : SynaKey) (v : SynaValue) : C unit := tell (SynaSet name v).

(** Model and firmware. *)
Definition queryModel : C synaptics_model :=
  r ← getTouchPadData SYNA_MODEL_QUERY;
  match r with
  | Some (b0, b1, b2) =>
    i ← dget _identity;
    let model := modelOf b0 b1 b2 in
    when (0x705 <=? Z.lor (Z.shiftl (major_ver i) 8) (minor_ver i)) (noted skBoardId (SynaNumber (model_number model))) ;;
    ret model
  | None => ret (modelOf 0 0 0)
  end.

Definition queryExtendedId : C unit :=
  c ← dget _capabilities;
  when (1 <=? extended_queries c)
    (queryInto SYNA_EXTENDED_ID_QUERY
       (fun b0 b1 b2 d =>
          let e := extendedIdOf b0 b1 b2 in
          {| d with _extended_id := if SYNAPTICS_MAX_EXT_BTNS <? extended_btns e
                                    then {| e with extended_btns := 0 |} else e |}) id ;; ret tt).

Definition typicalScale : synaptics_scale := mkScale 85 94.

Definition queryScale : C unit :=
  queryInto SYNA_SCALE_QUERY
    (fun b0 b1 b2 d =>
       let s := scaleOf b0 b1 b2 in
       {| d with _scale := if (xupmm s =? 0) || (yupmm s =? 0) then typicalScale else s |})
    (fun d => {| d with _scale := typicalScale |}) ;; ret tt.

(** [reports_min] and [reports_max]. *)
Definition queryContinued : C (bool * bool) :=
  c ← dget _capabilities;
  if 4 <=? extended_queries c then
    ok ← queryInto SYNA_CONT_CAPS_QUERY (fun b0 b1 b2 d => {| d with _cont_caps := contCapsOf b0 b1 b2 |}) id;
    if ok : bool then
      cc ← dget _cont_caps;
      when (intertouch cc) (noted skIntertouch (SynaBoolean true)) ;;
      ret (reports_min cc, reports_max cc)
    else ret (false, false)
  else ret (false, false).

Definition setSize (f : SynapticsSize -> SynapticsSize) : C unit := dset (fun d => {| d with size := f (size d) |}).

(** The answer to a query of the pad's range, if it is asked for. *)
Definition queryLogic (ask : bool) (selector : Z) : C (option (Z * Z)) :=
  if negb ask then ret None else
  r ← getTouchPadData selector;
  ret (match r with
       | Some (b0, b1, b2) => let l := logicOf b0 b1 b2 in Some (SYNA_LOGIC_X l, SYNA_LOGIC_Y l)
       | None => None
       end).

Definition applyOverrides (s : SynapticsSettings) (sz : SynapticsSize) : SynapticsSize :=
  {| sz with
    logical_min_x := if minXOverride s =? -1 then logical_min_x sz else u32 (minXOverride s);
    logical_min_y := if minYOverride s =? -1 then logical_min_y sz else u32 (minYOverride s);
    logical_max_x := if maxXOverride s =? -1 then logical_max_x sz else u32 (maxXOverride s);
    logical_max_y := if maxYOverride s =? -1 then logical_max_y sz else u32 (maxYOverride s) |}.

(** The logical range: what the touchpad reports or a guess, less the margins. *)
Definition logicalRange (sc : synaptics_scale) (s : SynapticsSettings) (high low : option (Z * Z)) (sz : SynapticsSize) : SynapticsSize :=
  let '(maxx, maxy) := match high with Some p => p | None => (logical_max_x sz, logical_max_y sz) end in
  let mx := 5 * xupmm sc in
  let my := 5 * yupmm sc in
  let '(minx, miny) := match low with Some p => p | None => (u32 (maxx - 3 * mx), u32 (maxy - 3 * my)) end in
  applyOverrides s
    {| sz with margin_size_x := mx; margin_size_y := my;
               logical_max_x := u32 (maxx - mx); logical_max_y := u32 (maxy - my);
               logical_min_x := u32 (minx + mx); logical_min_y := u32 (miny + my) |}.

Definition setTrackpointProperties : C unit := s ← dget settings; tell (SynaTrackpointSettings s).

(** The properties of the pad's size. *)
Definition publishSize (reports_min : bool) : C unit :=
  d ← dget id;
  let sz := size d in
  noted skLogicalMaxX (SynaNumber (u32 (logical_max_x sz - logical_min_x sz))) ;;
  noted skLogicalMaxY (SynaNumber (u32 (logical_max_y sz - logical_min_y sz))) ;;
  px ← deref (physicalSize (logical_max_x sz) (if reports_min then logical_min_x sz else 0) (xupmm (_scale d)));
  py ← deref (physicalSize (logical_max_y sz) (if reports_min then logical_min_y sz else 0) (yupmm (_scale d)));
  setSize (fun sz => {| sz with physical_max_x := px; physical_max_y := py |}) ;;
  noted skPhysicalMaxX (SynaNumber px) ;;
  noted skPhysicalMaxY (SynaNumber py) ;;
  noted skTransform (SynaNumber 0).

Definition queryCapabilities : C unit :=
  queryInto SYNA_CAPABILITIES_QUERY (fun b0 b1 b2 d => {| d with _capabilities := capabilitiesOf b0 b1 b2 |})
    (fun d => {| d with _capabilities := capabilitiesOf 0 0 0 |}) ;;
  model ← queryModel;
  when (more_extended_caps model)
    (queryInto SYNA_SECUREPAD_QUERY (fun b0 b1 b2 d => {| d with _securepad := securepadOf b0 b1 b2 |})
       (fun d => {| d with _securepad := securepadOf 0 0 0 |}) ;; ret tt) ;;
  queryExtendedId ;;
  queryScale ;;
  '(reports_min, reports_max) ← queryContinued;
  high ← queryLogic reports_max SYNA_LOGIC_MAX_QUERY;
  low ← queryLogic reports_min SYNA_LOGIC_MIN_QUERY;
  dset (fun d => {| d with size := logicalRange (_scale d) (settings d) high low (size d) |}) ;;
  publishSize reports_min ;;
  setTrackpointProperties ;;
  noted skSupported (SynaBoolean true).

(** ** Settings *)

(** The members and their names, in the order they are read. *)
Definition int32vars : list (string * (Z -> SynapticsSettings -> SynapticsSettings)) :=
  [("FingerZ"%string, fun v s => {| s with z_finger := v |});
   ("WakeDelay"%string, fun v s => {| s with wakedelay := v |});
   ("MinLogicalXOverride"%string, fun v s => {| s with minXOverride := v |});
   ("MinLogicalYOverride"%string, fun v s => {| s with minYOverride := v |});
   ("MaxLogicalXOverride"%string, fun v s => {| s with maxXOverride := v |});
   ("MaxLogicalYOverride"%string, fun v s => {| s with maxYOverride := v |});
   ("TrackpointDeadzone"%string, fun v s => {| s with _deadzone := v |});
   ("TrackpointScrollXMultiplier"%string, fun v s => {| s with _scrollMultiplierX := v |});
   ("TrackpointScrollYMultiplier"%string, fun v s => {| s with _scrollMultiplierY := v |});
   ("TrackpointScrollXDivisor"%string, fun v s => {| s with _scrollDivisorX := v |});
   ("TrackpointScrollYDivisor"%string, fun v s => {| s with _scrollDivisorY := v |});
   ("MouseMultiplierX"%string, fun v s => {| s with _mouseMultiplierX := v |});
   ("MouseMultiplierY"%string, fun v s => {| s with _mouseMultiplierY := v |});
   ("MouseDivisorX"%string, fun v s => {| s with _mouseDivisorX := v |});
   ("MouseDivisorY"%string, fun v s => {| s with _mouseDivisorY := v |});
   ("ForceTouchMode"%string, fun v s => {| s with _forceTouchMode := v |});
   ("ForceTouchPressureThreshold"%string, fun v s => {| s with _forceTouchPressureThreshold := v |});
   ("SpecialKeyForQuietTime"%string, fun v s => {| s with specialKey := v |});
   ("ForceTouchCustomDownThreshold"%string, fun v s => {| s with _forceTouchCustomDownThreshold := v |});
   ("ForceTouchCustomUpThreshold"%string, fun v s => {| s with _forceTouchCustomUpThreshold := v |});
   ("ForceTouchCustomPower"%string, fun v s => {| s with _forceTouchCustomPower := v |})].
Definition boolvars : list (string * (bool -> SynapticsSettings -> SynapticsSettings)) :=
  [("DisableLEDUpdate"%string, fun v s => {| s with noled := v |});
   ("HWResetOnStart"%string, fun v s => {| s with hwresetonstart := v |});
   ("ProcessUSBMouseStopsTrackpad"%string, fun v s => {| s with _processusbmouse := v |});
   ("ProcessBluetoothMouseStopsTrackpad"%string, fun v s => {| s with _processbluetoothmouse := v |})].
Definition lowbitvars : list (string * (bool -> SynapticsSettings -> SynapticsSettings)) :=
  [("USBMouseStopsTrackpad"%string, fun v s => {| s with usb_mouse_stops_trackpad := v |});
   ("DisableDeepSleep"%string, fun v s => {| s with disableDeepSleep := v |})].
Definition int64vars : list (string * (Z -> SynapticsSettings -> SynapticsSettings)) :=
  [("QuietTimeAfterTyping"%string, fun v s => {| s with maxaftertyping := v |});
   ("QuietTimeAfterSpecialKey"%string, fun v s => {| s with maxafterspecialtyping := v |})].

Definition setPropertiesGated (config : option OSDict) : C unit :=
  match config with
  | None => ret tt
  | Some config =>
    for_each int64vars (fun '(name, f) => readInt64 config name f) ;;
    for_each boolvars (fun '(name, f) => readBool config name f) ;;
    for_each int32vars (fun '(name, f) => readInt32 config name f) ;;
    for_each lowbitvars (fun '(name, f) => readLowbit config name f) ;;
    mice ← dget (fun d => match attachedHIDPointerDevices d with Some (_ :: _) => true | _ => false end);
    when mice
      (dset (fun d => {| d with ignoreall := usb_mouse_stops_trackpad (settings d) |}) ;; updateTouchpadLED) ;;
    changeSettings (fun s => if (_forceTouchMode s =? FORCE_TOUCH_BUTTON) && recovery bootArg
                             then {| s with _forceTouchMode := FORCE_TOUCH_DISABLED |} else s) ;;
    setTrackpointProperties ;;
    tellClient SynaTrackpointUpdate
  end.

Definition setProperties (props : OSObject) : C unit :=
  gate ← dget _cmdGate;
  match asDictionary props with
  | Some dict => when gate (setPropertiesGated (Some dict))
  | None => ret tt
  end.

(** The properties for a version of Darwin. *)
Definition injectVersionDependentProperties (version_major version_minor : Z) (config : OSDict) : C unit :=
  match versionProperties version_major version_minor config with
  | Some dict => for_each dict (fun '(key, o) => tell (SynaInject key o))
  | None => ret tt
  end.

(** ** Messages, power, attached mice *)

Inductive SynaMessage :=
| GetDisableTouchpad | SetDisableTouchpad (enable : bool) | ResetTouchpad (reqCode : Z)
| NotifyKeyPressed (pInfo : PS2KeyInfo) | OtherMessage.

(** [kPS2M_notifyKeyPressed] *)
Definition keyPressed (pInfo : PS2KeyInfo) (d : ApplePS2SynapticsTouchPad) : option ApplePS2SynapticsTouchPad :=
  let key := adbKeyCode pInfo in
  let d' := {| d with keycode := key |} in
  if modifierKey key then
    mask ← arr_get masks (key - 0x36);
    Some (if goingDown pInfo then {| d' with _modifierdown := Z.lor (_modifierdown d) mask |}
          else {| d' with _modifierdown := clear_bits (_modifierdown d) mask; keytime := ki_time pInfo |})
  else Some {| d' with keytime := ki_time pInfo |}.

Definition initTouchPad : C unit :=
  dset (fun d => {| d with _packetByteCount := 0; _ringBuffer := reset (_ringBuffer d);
                           _lastPassthruButtons := 0; _lastExtendedButtons := 0; _modifierdown := 0;
                           touches := {| (touches d) with _clickpad_pressed := false |} |}) ;;
  enterAdvancedGestureMode ;;
  updateTouchpadLED.

Definition waitWakedelay : C unit := ms ← dget (fun d => wakedelay (settings d)); onController (bus_sleep (u32 ms)).

(** The result is what [*pResult] is set to. *)
Definition message (m : SynaMessage) : C (option bool) :=
  match m with
  | GetDisableTouchpad => ignore ← dget ignoreall; ret (Some (negb ignore))
  | SetDisableTouchpad enable =>
    ignore ← dget ignoreall;
    when (eqb enable ignore) (dset (fun d => {| d with ignoreall := negb enable |}) ;; updateTouchpadLED) ;;
    ret None
  | ResetTouchpad reqCode =>
    when (reqCode =? 1)
      (dset (fun d => {| d with ignoreall := false |}) ;;
       initTouchPad ;; waitWakedelay ;; setTouchPadEnable true ;; updateTouchpadLED) ;;
    ret None
  | NotifyKeyPressed pInfo => dstep (keyPressed pInfo) ;; ret None
  | OtherMessage => ret None
  end.

Definition setDevicePowerState (whatToDo : Z) : C unit :=
  deep ← dget (fun d => negb (disableDeepSleep (settings d)));
  if whatToDo =? kPS2C_DisableDevice then
    setTouchPadEnable false ;; when deep (setModeByte true ;; ret tt)
  else when (whatToDo =? kPS2C_EnableDevice)
    (when deep (waitWakedelay ;; setModeByte false ;; ret tt) ;;
     waitWakedelay ;; initTouchPad ;; waitWakedelay ;; setTouchPadEnable true).

(** The touchpad is ignored while there is a mouse, and its light shows it. *)
Definition noticeMice (e : HidEvent) (l : list Z) : C unit :=
  stops ← dget (fun d => usb_mouse_stops_trackpad (settings d));
  when (stops && negb (eqb (published e) (bool_decide (l = []))))
    (dset (fun d => {| d with ignoreall := published e |}) ;; updateTouchpadLED).

Definition notificationHIDAttachedHandlerGated (bt : BluetoothCodes) (e : HidEvent) (service : Z) : C unit :=
  made ← dget (fun d => if isUsb e then usb_notify d else bluetooth_notify d);
  when made
    (attached ← dget attachedHIDPointerDevices; l ← deref attached;
     let l := hidStep bt e service l in
     dset (fun d => {| d with attachedHIDPointerDevices := Some l |}) ;;
     noticeMice e l).

Definition notificationHIDAttachedHandler (bt : BluetoothCodes) (e : HidEvent) (service : Z) : C unit :=
  gate ← dget _cmdGate; when gate (notificationHIDAttachedHandlerGated bt e service).

(** [flushCollection] on the set, which is then released. *)
Definition unregisterHIDPointerNotifications : C unit :=
  attached ← dget attachedHIDPointerDevices; deref attached ;;
  dset (fun d => {| d with attachedHIDPointerDevices := None |}).

(** ** Life cycle *)

(** What [probe] returns: nothing, the driver itself, or an SMBus device in its place, which
    [ApplePS2SmbusDevice::withReset] makes. *)
Inductive ProbeResult := NoDevice | ThisDriver | SmbusDevice (trackstickButtons clickpad : bool).

Definition setDevice (o : option Z) : C unit := dset (fun d => {| d with _device := o |}).

(** [config]: what [makeConfigurationNode] finds, under the controller's lock;
    [companion]: the resource service has the companion's property. *)
Definition probe (version_major version_minor p : Z) (config : option OSDict) (companion : bool) : C ProbeResult :=
  setDevice (Some p) ;;
  onController bus_lock ;;
  onController bus_unlock ;;
  if bool_decide ((c ← config; getBoolean c "DisableDevice") = Some true) then setDevice None ;; ret NoDevice else
  (match config with
   | Some c => setPropertiesGated (Some c) ;; injectVersionDependentProperties version_major version_minor c
   | None => ret tt
   end) ;;
  found ← queryInto SYNAPTICS_IDENTIFY_QUERY (fun b0 b1 b2 d => {| d with _identity := identityOf b0 b1 b2 |}) id;
  i ← dget _identity;
  if negb found || negb (synaptics_const i =? 0x47) || (major_ver i <? 0x4) then ret NoDevice else
  queryCapabilities ;;
  cc ← dget _cont_caps;
  if intertouch cc && companion then
    s ← dget _securepad; ret (SmbusDevice (trackstick_btns s) (one_btn_clickpad cc))
  else setDevice None ;; ret ThisDriver.

Definition handleOpen (forClient : option Z) (isVoodooInput : bool) : C bool :=
  match forClient with
  | Some c => if isVoodooInput then dset (fun d => {| d with voodooInputInstance := Some c |}) ;; ret true else ret false
  | None => ret false
  end.

Definition handleIsOpen (forClient : option Z) : C bool :=
  client ← dget voodooInputInstance;
  ret (match forClient with
       | None => bool_decide (client <> None)
       | Some _ => bool_decide (client = forClient)
       end).

Definition handleClose (forClient : option Z) : C unit :=
  dset (fun d => if bool_decide (forClient = voodooInputInstance d) then {| d with voodooInputInstance := None |} else d).

(** Between taking and giving up the lock. *)
Definition startDevice : C unit :=
  onController bus_lock ;;
  hard ← dget (fun d => hwresetonstart (settings d));
  when hard doHardwareReset ;;
  dset (fun d => {| d with attachedHIDPointerDevices := Some [];
                           usb_notify := _processusbmouse (settings d) || usb_notify d;
                           bluetooth_notify := _processbluetoothmouse (settings d) || bluetooth_notify d |}) ;;
  enterAdvancedGestureMode ;;
  (onController bus_installInterrupt ;; dset (fun d => {| d with _interruptHandlerInstalled := true |})) ;;
  onController bus_unlock.

(** [workLoop], [gate]: there is a work loop, a command gate can be made; [acpi]: the device
    PS2M implements TPDN. *)
Definition start (p : Z) (workLoop gate acpi : bool) : C bool :=
  setDevice (Some p) ;;
  i ← dget _identity;
  tell (SynaInfo (major_ver i) (minor_ver i)) ;;
  dset (fun d => {| d with _cmdGate := gate |}) ;;
  if negb workLoop || negb gate then setDevice None ;; ret false else
  startDevice ;;
  onController bus_installPower ;;
  dset (fun d => {| d with _powerControlHandlerInstalled := true; _provider := acpi |}) ;;
  updateTouchpadLED ;;
  tell SynaRegister ;;
  ret true.

Definition stop (workLoop : bool) : C unit :=
  unregisterHIDPointerNotifications ;;
  dset (fun d => {| d with ignoreall := false |}) ;;
  updateTouchpadLED ;;
  setTouchPadEnable false ;;
  when workLoop (dset (fun d => {| d with _cmdGate := false |})) ;;
  i ← dget drv_installed;
  when i (onController bus_uninstallInterrupt ;;
          dset (fun d => {| d with _interruptHandlerInstalled := false |})) ;;
  q ← dget _powerControlHandlerInstalled;
  when q (onController bus_uninstallPower ;; dset (fun d => {| d with _powerControlHandlerInstalled := false |})) ;;
  dset (fun d => {| d with _device := None; _provider := false |}).

End Driver.
