(* ===== verification/Averages.v ===== *)
(** * The moving average

    [SimpleAverage] of VoodooPS2TrackpadCommon.h keeps the last [N] values in a ring; here is
    that it is the average of a list of recent values, and that it stays in its buffer. *)
From S2P Require Import Prelude Trackpad.

(** The sum of a list. *)
Definition sumZ (l : list Z) : Z := foldr Z.add 0 l.

Lemma s32_shift a b : s32 (s32 a + b) = s32 (a + b).
Proof.
  unfold s32. replace ((a + 2147483648) mod 4294967296 - 2147483648 + b + 2147483648)
    with ((a + 2147483648) mod 4294967296 + b) by lia.
  rewrite Zplus_mod_idemp_l. do 2 f_equal. lia.
Qed.

Lemma sumZ_take_S l k x : l !! k = Some x -> sumZ (take (S k) l) = sumZ (take k l) + x.
Proof.
  intros E. rewrite (take_S_r l k x E). unfold sumZ. rewrite foldr_app. cbn [foldr].
  generalize (take k l). intros m. induction m as [|y m IH]; cbn [foldr]; [lia|]. rewrite IH. lia.
Qed.

Section Average.
Context (N : Z) (HN : 0 < N).
Implicit Types (a : SimpleAverage).

(** Inside the buffer. *)
Record average_in a : Prop := {
  ai_length : Z.of_nat (length (m_values a)) = N;
  ai_count : 0 <= m_count a <= N;
  ai_index : 0 <= m_index a < N }.

Lemma newAverage_in : average_in (newAverage N).
Proof. split; cbn; [rewrite length_replicate|..]; lia. Qed.

Lemma reset_in a : average_in a -> average_in (resetAverage a).
Proof. intros [H1 H2 H3]. split; cbn; lia. Qed.

Lemma newest_in a : average_in a -> exists x, newest a = Some x.
Proof.
  intros [H1 H2 H3]. unfold newest. destruct (Z.eqb_spec (m_count a) 0); [by exists 0|].
  destruct (arr_get_Some (m_values a) (if m_index a - 1 <? 0 then m_count a - 1 else m_index a - 1)) as (x & E & _).
  - destruct (Z.ltb_spec (m_index a - 1) 0); lia.
  - by exists x.
Qed.

Lemma filter_in a x : average_in a -> exists a', filterAverage N x a = Some a' /\ average_in a'.
Proof.
  intros [H1 H2 H3]. unfold filterAverage. destruct (arr_get_Some (m_values a) (m_index a)) as (old & -> & _); [lia|].
  cbn [mbind option_bind]. rewrite arr_set_Some by lia. cbn [mbind option_bind]. eexists. split; [done|].
  split; cbn; [rewrite length_insert; lia|destruct (Z.ltb_spec (m_count a) N); lia|destruct (Z.leb_spec N (m_index a + 1)); lia].
Qed.

(** [hist]: the values since the last reset, newest first. *)
Record averages (hist : list Z) a : Prop := {
  av_in : average_in a;
  av_count : m_count a = Z.min N (Z.of_nat (length hist));
  av_index : m_index a = Z.of_nat (length hist) mod N;
  av_sum : m_sum a = s32 (sumZ (take (Z.to_nat N) hist));
  av_values : forall k x, Z.of_nat k < N -> hist !! k = Some x ->
    m_values a !! Z.to_nat ((Z.of_nat (length hist) - 1 - Z.of_nat k) mod N) = Some x }.

Lemma reset_averages a : average_in a -> averages [] (resetAverage a).
Proof.
  intros H. split; [by apply reset_in|cbn; lia|cbn; by rewrite Z.mod_0_l by lia|by rewrite take_nil|].
  intros k x _ E. by rewrite lookup_nil in E.
Qed.

(** The value that goes when a new one comes to a full buffer. *)
Lemma averages_oldest hist a : averages hist a -> N <= Z.of_nat (length hist) ->
  exists old, arr_get (m_values a) (m_index a) = Some old /\ hist !! Z.to_nat (N - 1) = Some old.
Proof.
  intros [[H1 H2 H3] H4 H5 H6 H7] Hn. destruct (lookup_lt_is_Some_2 hist (Z.to_nat (N - 1))) as [old E]; [lia|].
  exists old. split; [|done]. pose proof (H7 (Z.to_nat (N - 1)) old ltac:(lia) E) as Ev. rewrite Z2Nat.id in Ev by lia.
  replace (Z.of_nat (length hist) - 1 - (N - 1)) with (Z.of_nat (length hist) + (-1) * N) in Ev by lia.
  rewrite Z.mod_add in Ev by lia. unfold arr_get. rewrite (proj2 (Z.ltb_ge _ _)) by lia. by rewrite H5.
Qed.

Lemma index_step n : 0 <= n -> (if N <=? n mod N + 1 then 0 else n mod N + 1) = (n + 1) mod N.
Proof.
  intros Hn. pose proof (Z.mod_pos_bound n N ltac:(lia)). destruct (Z.leb_spec N (n mod N + 1)).
  - rewrite <- Zplus_mod_idemp_l. replace (n mod N + 1) with N by lia. by rewrite Z_mod_same_full.
  - rewrite <- Zplus_mod_idemp_l. by rewrite (Z.mod_small (n mod N + 1)) by lia.
Qed.

(** Where the value of [k] steps before is not where the new one goes. *)
Lemma index_other n k : 0 <= n -> 0 < k < N -> (n - k) mod N <> n mod N.
Proof.
  intros Hn Hk E. pose proof (Z.div_mod n N ltac:(lia)) as E1. pose proof (Z.div_mod (n - k) N ltac:(lia)) as E2.
  rewrite E in E2. assert (k = N * (n / N - (n - k) / N)) by lia.
  assert (n / N - (n - k) / N < 1) by nia. assert (0 < n / N - (n - k) / N) by nia. lia.
Qed.

Lemma filter_averages hist a x : averages hist a ->
  exists a', filterAverage N x a = Some a' /\ averages (x :: hist) a'.
Proof.
  intros H. pose proof H as [Hin H4 H5 H6 H7]. pose proof Hin as [H1 H2 H3].
  destruct (filter_in a x Hin) as (a' & E & Hin'). exists a'. split; [done|]. revert E. unfold filterAverage.
  destruct (arr_get_Some (m_values a) (m_index a)) as (old & Eo & _); [lia|]. rewrite Eo.
  cbn [mbind option_bind]. rewrite arr_set_Some by lia. intros [= <-].
  split; [done|cbn [m_count]..|].
  - rewrite H4, length_cons. destruct (Z.ltb_spec (Z.min N (Z.of_nat (length hist))) N); lia.
  - cbn [m_index]. rewrite H5, length_cons, index_step by lia. f_equal. lia.
  - cbn [m_sum]. rewrite H6, H4. replace (Z.to_nat N) with (S (Z.to_nat (N - 1))) by lia.
    rewrite firstn_cons. cbn [sumZ foldr]. fold (sumZ (take (Z.to_nat (N - 1)) hist)).
    destruct (Z.eqb_spec (Z.min N (Z.of_nat (length hist))) N) as [Hf|Hf].
    + destruct (averages_oldest hist a H) as (old' & Eo' & Eh); [lia|]. rewrite Eo in Eo'. injection Eo' as <-.
      rewrite (sumZ_take_S _ _ _ Eh). rewrite s32_shift.
      replace (s32 (sumZ (take (Z.to_nat (N - 1)) hist) + old + x) - old)
        with (s32 (sumZ (take (Z.to_nat (N - 1)) hist) + old + x) + - old) by lia.
      rewrite s32_shift. f_equal. lia.
    + rewrite s32_shift. rewrite !take_ge by lia. f_equal. lia.
  - cbn [m_values]. intros k y Hk Ey. rewrite length_cons, H5. destruct k as [|k].
    + injection Ey as ->. replace (Z.of_nat (S (length hist)) - 1 - Z.of_nat 0) with (Z.of_nat (length hist)) by lia.
      apply list_lookup_insert_eq. pose proof (Z.mod_pos_bound (Z.of_nat (length hist)) N ltac:(lia)). lia.
    + cbn in Ey. replace (Z.of_nat (S (length hist)) - 1 - Z.of_nat (S k)) with (Z.of_nat (length hist) - 1 - Z.of_nat k) by lia.
      rewrite list_lookup_insert_ne; [apply H7; [lia|done]|].
      pose proof (Z.mod_pos_bound (Z.of_nat (length hist)) N ltac:(lia)).
      pose proof (Z.mod_pos_bound (Z.of_nat (length hist) - 1 - Z.of_nat k) N ltac:(lia)).
      pose proof (index_other (Z.of_nat (length hist)) (1 + Z.of_nat k) ltac:(lia) ltac:(lia)) as Hne.
      replace (Z.of_nat (length hist) - (1 + Z.of_nat k)) with (Z.of_nat (length hist) - 1 - Z.of_nat k) in Hne by lia. lia.
Qed.

(** Several values, the newest last. *)
Lemma filters_averages l hist a : averages hist a ->
  exists a', fold_opt (filterAverage N) l a = Some a' /\ averages (rev l ++ hist) a'.
Proof.
  revert hist a. induction l as [|x l IH]; intros hist a H; [by exists a|].
  destruct (filter_averages hist a x H) as (a1 & E & H1). destruct (IH _ _ H1) as (a2 & E2 & H2).
  exists a2. cbn [fold_opt]. rewrite E. split; [done|]. cbn [rev]. by rewrite <- app_assoc.
Qed.

Lemma averages_newest x hist a : averages (x :: hist) a -> newest a = Some x.
Proof.
  intros [[H1 H2 H3] H4 H5 H6 H7]. unfold newest. rewrite length_cons in *.
  destruct (Z.eqb_spec (m_count a) 0) as [|_]; [lia|]. pose proof (H7 0%nat x ltac:(lia) eq_refl) as Ev.
  set (n := Z.of_nat (length hist)) in *.
  replace (Z.of_nat (S (length hist)) - 1 - Z.of_nat 0) with n in Ev by lia.
  replace (Z.of_nat (S (length hist))) with (n + 1) in * by lia.
  rewrite <- index_step in H5 by lia. unfold arr_get. pose proof (Z.mod_pos_bound n N ltac:(lia)) as Hb.
  destruct (Z.leb_spec N (n mod N + 1)) as [Hw|Hw]; rewrite H5.
  - rewrite (proj2 (Z.ltb_lt (0 - 1) 0)) by lia. assert (N - 1 <= n) by (pose proof (Z.mod_le n N ltac:(lia) ltac:(lia)); lia).
    rewrite (proj2 (Z.ltb_ge _ _)) by lia. rewrite <- Ev. do 2 f_equal. lia.
  - rewrite (proj2 (Z.ltb_ge (n mod N + 1 - 1) 0)) by lia. rewrite (proj2 (Z.ltb_ge _ _)) by lia.
    rewrite <- Ev. do 2 f_equal. lia.
Qed.

Lemma averages_average hist a : averages hist a -> hist <> [] ->
  average a = Z.quot (s32 (sumZ (take (Z.to_nat N) hist))) (Z.of_nat (length (take (Z.to_nat N) hist))).
Proof.
  intros [[H1 H2 H3] H4 H5 H6 H7] Hh. unfold average. rewrite length_take.
  assert (length hist <> 0%nat) by (intros E; by apply Hh, nil_length_inv).
  rewrite (proj2 (Z.eqb_neq _ _)) by lia. rewrite H6, H4. f_equal. lia.
Qed.

(** C38: the average of VoodooPS2TrackpadCommon.h is a moving average.  In whatever state
    inside its buffer it was, after a reset and any values [l], each of which it accepts, it
    is the quotient of the sum of the last [N] of them - of all, while there are fewer - by
    how many these are, with the sum in 32 bits; the newest value is the last one; and it
    is inside its buffer again. *)
Theorem average_of_recent l a : average_in a -> l <> [] ->
  exists a', fold_opt (filterAverage N) l (resetAverage a) = Some a' /\ average_in a' /\
    average a' = Z.quot (s32 (sumZ (take (Z.to_nat N) (rev l)))) (Z.min N (Z.of_nat (length l))) /\
    newest a' = last l.
Proof.
  intros Ha Hl. destruct (filters_averages l [] _ (reset_averages a Ha)) as (a' & E & H). exists a'. split; [done|]. split; [apply H|].
  rewrite app_nil_r in H. assert (Hr : rev l <> []) by (intros E0; apply Hl; by rewrite <- (rev_involutive l), E0). split.
  - rewrite (averages_average _ a' H Hr). f_equal. rewrite length_take, length_rev. lia.
  - destruct (rev l) as [|x l'] eqn:El; [done|]. rewrite (averages_newest _ _ _ H). apply (f_equal (@rev Z)) in El.
    rewrite rev_involutive in El. rewrite El. cbn [rev]. by rewrite last_snoc.
Qed.

End Average.

Lemma average_of_recent_witness : exists a', fold_opt (filterAverage 3) [10; 20; 30; 50] (resetAverage (newAverage 3)) = Some a' /\ average a' = 33 /\ newest a' = Some 50.
Proof.
  destruct (average_of_recent 3 ltac:(lia) [10; 20; 30; 50] (newAverage 3)) as (a' & E & _ & A & B); [by apply newAverage_in|done|].
  exists a'. split; [exact E|]. rewrite A, B. split; vm_compute; reflexivity.
Defined.

