(* ===== verification/SynapticsLinks.v ===== *)
(** * Physical and virtual fingers

    What [renumberFingers] keeps: the physical fingers that are down have different virtual
    fingers, these are touched, and with at most four fingers no other is; nothing leaves
    an array on the way. *)
From S2P Require Import Prelude PS2Types RingBuffer Bus DriverWorld RingLoop OSTypes Touch Trackpad Averages.
From S2P Require Import Synaptics SynapticsTouch.

Implicit Types (t : SynapticsTouch) (i j k n : Z).

(** ** Shape *)

Definition finger_index i : Prop := 0 <= i < SYNAPTICS_MAX_FINGERS.

Record virtual_ok (types : Z) (v : synaptics_virtual_finger_state) : Prop := {
  vo_x : average_in 5 (x_avg v);
  vo_y : average_in 5 (y_avg v);
  vo_type : 0 <= vf_fingerType v < types }.

Definition hw_ok (f : synaptics_hw_state) : Prop := -1 <= virtualFingerIndex f < SYNAPTICS_MAX_FINGERS.

Record shape (types : Z) t : Prop := {
  sh_types : typeThumb < types;
  sh_hw : length (fingerStates t) = 5%nat;
  sh_virtual : length (virtualFingerStates t) = 5%nat;
  sh_free : Z.of_nat (length (freeFingerTypes t)) = types;
  sh_hws : Forall hw_ok (fingerStates t);
  sh_virtuals : Forall (virtual_ok types) (virtualFingerStates t);
  sh_last : 0 <= lastFingerCount t <= SYNAPTICS_MAX_FINGERS;
  sh_clamped : 0 <= clampedFingerCount t <= SYNAPTICS_MAX_FINGERS }.

(** The members that no assignment of fingers touches. *)
Definition rest t : SynapticsTouch :=
  {| t with fingerStates := []; virtualFingerStates := []; freeFingerTypes := [] |}.

Lemma rest_last t t' : rest t' = rest t -> lastFingerCount t' = lastFingerCount t.
Proof. intros H. exact (f_equal lastFingerCount H). Qed.
Lemma rest_clamped t t' : rest t' = rest t -> clampedFingerCount t' = clampedFingerCount t.
Proof. intros H. exact (f_equal clampedFingerCount H). Qed.

(** The virtual finger of a physical one; whether a virtual finger is touched. *)
Definition vfi t i : Z := match hwAt i t with Some f => virtualFingerIndex f | None => -1 end.
Definition tj t j : bool := match virtAt j t with Some v => vf_touch v | None => false end.

Definition same_links t t' : Prop := (forall i, vfi t' i = vfi t i) /\ (forall j, tj t' j = tj t j).

Lemma same_links_refl t : same_links t t.
Proof. done. Qed.

Lemma same_links_trans t1 t2 t3 : same_links t1 t2 -> same_links t2 t3 -> same_links t1 t3.
Proof. intros [A1 A2] [B1 B2]. split; intros i; [by rewrite B1|by rewrite B2]. Qed.

(** A step that ends, and what it changes. *)
Definition step_to (types : Z) t (o : option SynapticsTouch) (Q : SynapticsTouch -> Prop) : Prop :=
  exists t', o = Some t' /\ shape types t' /\ rest t' = rest t /\ Q t'.

Definition neutral types t o : Prop := step_to types t o (same_links t).

Lemma step_bind types t o (k : SynapticsTouch -> option SynapticsTouch) P Q :
  step_to types t o P -> (forall t', shape types t' -> rest t' = rest t -> P t' -> step_to types t' (k t') Q) ->
  step_to types t (o ≫= k) Q.
Proof.
  intros (t1 & -> & S1 & R1 & H1) Hk. destruct (Hk t1 S1 R1 H1) as (t2 & E & S2 & R2 & H2).
  exists t2. split; [exact E|]. split; [done|]. split; [congruence|done].
Qed.

Lemma step_mono types t o (P Q : SynapticsTouch -> Prop) :
  step_to types t o P -> (forall t', shape types t' -> rest t' = rest t -> P t' -> Q t') -> step_to types t o Q.
Proof. intros (t1 & E & S1 & R1 & H1) HQ. exists t1. auto. Qed.

Lemma step_here types t (Q : SynapticsTouch -> Prop) : shape types t -> Q t -> step_to types t (Some t) Q.
Proof. intros. by exists t. Qed.

(** [Q] holds if it held before and only the links matter to it. *)
Lemma neutral_then types t o (Q : SynapticsTouch -> Prop) :
  neutral types t o -> (forall t', shape types t' -> rest t' = rest t -> same_links t t' -> Q t') -> step_to types t o Q.
Proof. apply step_mono. Qed.

Lemma hwAt_Some types t i : shape types t -> finger_index i -> exists f, hwAt i t = Some f /\ hw_ok f /\ vfi t i = virtualFingerIndex f.
Proof.
  intros [T1 H1 H2 H3 H4 H5 H6 H7] Hi. unfold finger_index, SYNAPTICS_MAX_FINGERS in Hi.
  destruct (arr_get_Some (fingerStates t) i) as (f & E & El); [lia|]. exists f. unfold vfi, hwAt. rewrite E.
  split; [done|]. split; [|done]. by eapply Forall_lookup_1.
Qed.

Lemma virtAt_Some types t j : shape types t -> finger_index j -> exists v, virtAt j t = Some v /\ virtual_ok types v /\ tj t j = vf_touch v.
Proof.
  intros [T1 H1 H2 H3 H4 H5 H6 H7] Hj. unfold finger_index, SYNAPTICS_MAX_FINGERS in Hj.
  destruct (arr_get_Some (virtualFingerStates t) j) as (v & E & El); [lia|]. exists v. unfold tj, virtAt. rewrite E.
  split; [done|]. split; [|done]. by eapply Forall_lookup_1.
Qed.

Lemma tj_index types t j : shape types t -> tj t j = true -> finger_index j.
Proof.
  intros S H. unfold tj in H. destruct (virtAt j t) as [v|] eqn:E; [|done]. apply arr_get_bound in E.
  rewrite (sh_virtual _ _ S) in E. exact E.
Qed.

Lemma vfi_range types t i : shape types t -> -1 <= vfi t i < SYNAPTICS_MAX_FINGERS.
Proof.
  intros S. unfold vfi. destruct (hwAt i t) as [f|] eqn:E; [|done]. pose proof E as Hb. apply arr_get_bound in Hb.
  destruct (hwAt_Some types t i S) as (f' & E' & Hf & _); [unfold finger_index; rewrite (sh_hw _ _ S) in Hb; exact Hb|].
  rewrite E in E'. by injection E' as ->.
Qed.

(** Updates. *)
Lemma onHw_step types t i f : shape types t -> finger_index i -> (forall s, hw_ok s -> hw_ok (f s)) ->
  step_to types t (onHw i f t) (fun t' => (forall i', i' <> i -> vfi t' i' = vfi t i') /\ (forall j, tj t' j = tj t j) /\
    exists s, hwAt i t = Some s /\ hwAt i t' = Some (f s)).
Proof.
  intros S Hi Hf. destruct (hwAt_Some types t i S Hi) as (s & E & Hs & _).
  pose proof S as [T1 H1 H2 H3 H4 H5 H6 H7]. unfold onHw. rewrite E. cbn [mbind option_bind].
  unfold finger_index, SYNAPTICS_MAX_FINGERS in Hi. rewrite arr_set_Some by lia. eexists. split; [done|].
  split; [split; cbn; try done; [by rewrite length_insert|]|].
  - apply Forall_insert; [done|by apply Hf].
  - split; [done|]. split; [|split; [done|]].
    + intros i' Hne. unfold vfi, hwAt. cbn. destruct (Z.lt_ge_cases i' 0).
      * unfold arr_get. by rewrite (proj2 (Z.ltb_lt i' 0)) by done.
      * rewrite arr_get_insert by lia. by rewrite (proj2 (Z.eqb_neq i i')) by done.
    + exists s. split; [done|]. unfold hwAt. cbn. rewrite arr_get_insert by lia. by rewrite Z.eqb_refl.
Qed.

Lemma onVirt_step types t j f : shape types t -> finger_index j -> (forall v, virtual_ok types v -> virtual_ok types (f v)) ->
  step_to types t (onVirt j f t) (fun t' => (forall i, vfi t' i = vfi t i) /\ (forall j', j' <> j -> tj t' j' = tj t j') /\
    exists v, virtAt j t = Some v /\ virtAt j t' = Some (f v)).
Proof.
  intros S Hj Hf. destruct (virtAt_Some types t j S Hj) as (s & E & Hs & _).
  pose proof S as [T1 H1 H2 H3 H4 H5 H6 H7]. unfold onVirt. rewrite E. cbn [mbind option_bind].
  unfold finger_index, SYNAPTICS_MAX_FINGERS in Hj. rewrite arr_set_Some by lia. eexists. split; [done|].
  split; [split; cbn; try done; [by rewrite length_insert|]|].
  - apply Forall_insert; [done|by apply Hf].
  - split; [done|]. split; [done|]. split.
    + intros j' Hne. unfold tj, virtAt. cbn. destruct (Z.lt_ge_cases j' 0).
      * unfold arr_get. by rewrite (proj2 (Z.ltb_lt j' 0)) by done.
      * rewrite arr_get_insert by lia. by rewrite (proj2 (Z.eqb_neq j j')) by done.
    + exists s. split; [done|]. unfold virtAt. cbn. rewrite arr_get_insert by lia. by rewrite Z.eqb_refl.
Qed.

Lemma onHw_neutral types t i f : shape types t -> finger_index i ->
  (forall s, virtualFingerIndex (f s) = virtualFingerIndex s) -> neutral types t (onHw i f t).
Proof.
  intros S Hi Hf. eapply step_mono; [apply (onHw_step _ _ _ _ S Hi)|].
  - intros s Hs. unfold hw_ok. by rewrite Hf.
  - cbn beta. intros t' _ _ (H1 & H2 & s & E & E'). split; [|done]. intros i'.
    destruct (Z.eq_dec i' i) as [->|Hne]; [|by apply H1]. unfold vfi. by rewrite E, E', Hf.
Qed.

Lemma onVirt_neutral types t j f : shape types t -> finger_index j ->
  (forall v, virtual_ok types v -> virtual_ok types (f v)) -> (forall v, vf_touch (f v) = vf_touch v) -> neutral types t (onVirt j f t).
Proof.
  intros S Hj Hf Ht. eapply step_mono; [by apply (onVirt_step _ _ _ _ S Hj)|].
  cbn beta. intros t' _ _ (H1 & H2 & v & E & E'). split; [done|]. intros j'.
  destruct (Z.eq_dec j' j) as [->|Hne]; [|by apply H2]. unfold tj. by rewrite E, E', Ht.
Qed.

Lemma setFree_neutral types t i b : shape types t -> 0 <= i < types -> neutral types t (setFree i b t).
Proof.
  intros S Hi. pose proof S as [T1 H1 H2 H3 H4 H5 H6 H7]. unfold setFree. rewrite arr_set_Some by lia.
  eexists. split; [done|]. split; [split; cbn; try done; by rewrite length_insert|]. by split.
Qed.

Lemma neutral_bind types t o (k : SynapticsTouch -> option SynapticsTouch) :
  neutral types t o -> (forall t', shape types t' -> rest t' = rest t -> same_links t t' -> neutral types t' (k t')) ->
  neutral types t (o ≫= k).
Proof.
  intros H Hk. eapply step_bind; [exact H|]. intros t' S R L. eapply step_mono; [by apply Hk|].
  intros t2 _ _ L2. by eapply same_links_trans.
Qed.

(** A neutral step before another. *)
Lemma neutral_first types t o (k : SynapticsTouch -> option SynapticsTouch) Q :
  neutral types t o -> (forall t', shape types t' -> rest t' = rest t -> same_links t t' -> step_to types t' (k t') Q) ->
  step_to types t (o ≫= k) Q.
Proof. apply step_bind. Qed.

(** Virtual fingers that stay well formed. *)
Lemma forget_ok types v : virtual_ok types v -> virtual_ok types (forget v).
Proof. intros [H1 H2 H3]. split; cbn; [by apply reset_in..|done]. Qed.

Lemma setType_ok types v i : 0 <= i < types -> virtual_ok types v -> virtual_ok types {| v with vf_fingerType := i |}.
Proof. intros Hi [H1 H2 H3]. by split. Qed.

Lemma findType_bound free i x : findType free i = Some x -> i <= x < i + Z.of_nat (length free).
Proof.
  revert i. induction free as [|[] free IH]; intros i; cbn [findType length]; [done|intros [= ->]; lia|]. intros E%IH. lia.
Qed.

Lemma assignFingerType_neutral types t j : shape types t -> finger_index j -> neutral types t (assignFingerType j t).
Proof.
  intros S Hj. pose proof (sh_types _ _ S) as Ht. unfold typeThumb in Ht. unfold assignFingerType.
  destruct (findType _ _) as [i|] eqn:E.
  - apply findType_bound in E. rewrite length_drop in E. pose proof (sh_free _ _ S) as Hf. unfold typeIndexFinger in E.
    apply neutral_bind; [apply setFree_neutral; [done|lia]|]. intros t' S' _ _.
    apply onVirt_neutral; [done..| |done]. intros v. apply setType_ok. lia.
  - apply onVirt_neutral; [done..| |done]. intros v. apply setType_ok. unfold typeUndefined. lia.
Qed.

(** ** Links *)

(** The virtual fingers that are touched. *)
Definition touched t : list Z := filter (fun j => tj t j = true) indices.

Lemma elem_touched types t j : shape types t -> j ∈ touched t <-> tj t j = true.
Proof.
  intros S. unfold touched. rewrite list_elem_of_filter. split; [by intros []|]. intros H. split; [done|].
  apply elem_of_seqZ. pose proof (tj_index _ _ _ S H) as Hj. exact Hj.
Qed.

Lemma touched_NoDup t : NoDup (touched t).
Proof. apply NoDup_filter, NoDup_seqZ. Qed.

Lemma touched_le t : (length (touched t) <= 5)%nat.
Proof. unfold touched. etransitivity; [apply length_filter|]. done. Qed.

Lemma touched_same types t t' : shape types t -> shape types t' -> (forall j, tj t' j = tj t j) -> touched t' = touched t.
Proof. intros _ _ H. unfold touched. apply list_filter_iff. intros j. by rewrite H. Qed.

Lemma touched_add types t t' j : shape types t -> shape types t' -> tj t j = false -> (forall j', tj t' j' = (j' =? j) || tj t j') ->
  Z.of_nat (length (touched t')) = Z.of_nat (length (touched t)) + 1.
Proof.
  intros S S' Hj H. assert (E : touched t' ≡ₚ j :: touched t).
  { apply NoDup_Permutation; [apply touched_NoDup|constructor; [|apply touched_NoDup]|].
    - rewrite (elem_touched _ _ _ S). by rewrite Hj.
    - intros x. rewrite (elem_touched _ _ _ S'), elem_of_cons, (elem_touched _ _ _ S), H, orb_true_iff, Z.eqb_eq. done. }
  apply Permutation_length in E. rewrite E. cbn [length]. lia.
Qed.

(** The fingers below [k] have different virtual fingers, which are touched; [n] are. *)
Record linked k n t : Prop := {
  li_touched : forall i, 0 <= i < k -> tj t (vfi t i) = true;
  li_distinct : forall i i', 0 <= i < k -> 0 <= i' < k -> vfi t i = vfi t i' -> i = i';
  li_count : Z.of_nat (length (touched t)) = n }.

Lemma linked_same types k n t t' : shape types t -> shape types t' -> same_links t t' -> linked k n t -> linked k n t'.
Proof.
  intros S S' [L1 L2] [H1 H2 H3]. split.
  - intros i Hi. rewrite L1, L2. auto.
  - intros i i' Hi Hi'. rewrite !L1. auto.
  - by rewrite (touched_same _ _ _ S S' L2).
Qed.

Lemma linked_le k k' n t : k' <= k -> linked k n t -> linked k' n t.
Proof. intros Hk [H1 H2 H3]. split; [intros i Hi; apply H1; lia|intros i i' Hi Hi'; apply H2; lia|done]. Qed.

(** As many touched as linked at least. *)
Lemma linked_count types k n t : shape types t -> 0 <= k -> linked k n t -> k <= n <= 5.
Proof.
  intros S Hk [H1 H2 H3]. pose proof (touched_le t). split; [|lia].
  assert (Hs : (length (map (vfi t) (seqZ 0 k)) <= length (touched t))%nat).
  { apply submseteq_length, NoDup_submseteq.
    - change (map (vfi t) (seqZ 0 k)) with (vfi t <$> seqZ 0 k). apply (NoDup_fmap_2_strong (vfi t)); [|apply NoDup_seqZ].
      intros i i' Hi%elem_of_seqZ Hi'%elem_of_seqZ. apply H2; lia.
    - intros j Hj. apply list_elem_of_In, in_map_iff in Hj. destruct Hj as (i & <- & Hi).
      apply list_elem_of_In, elem_of_seqZ in Hi. apply (elem_touched _ _ _ S), H1. lia. }
  rewrite length_map, length_seqZ in Hs. lia.
Qed.

Lemma neutral_linked types k n t o : linked k n t -> shape types t -> neutral types t o -> step_to types t o (linked k n).
Proof. intros L S H. eapply step_mono; [exact H|]. intros t' S' _ L'. by apply (linked_same types k n t). Qed.

(** *** A new virtual finger *)

Lemma findUntouched_spec l j :
  match findUntouched l j with
  | Some x => exists m, x = j + Z.of_nat m /\ exists v, l !! m = Some v /\ vf_touch v = false
  | None => Forall (fun v => vf_touch v = true) l
  end.
Proof.
  revert j. induction l as [|v l IH]; intros j; cbn [findUntouched]; [constructor|].
  destruct (vf_touch v) eqn:E; [|exists 0%nat; split; [lia|by exists v]]. specialize (IH (j + 1)).
  destruct (findUntouched l (j + 1)) as [x|]; [|by constructor]. destruct IH as (m & -> & v' & El & Hv).
  exists (Datatypes.S m). split; [lia|]. by exists v'.
Qed.

Lemma filter_everything (P : Z -> Prop) `{!forall x, Decision (P x)} (l : list Z) : (forall x, x ∈ l -> P x) -> filter P l = l.
Proof.
  induction l as [|x l IH]; intros HP; [done|]. rewrite filter_cons_True by (apply HP, list_elem_of_here).
  f_equal. apply IH. intros y Hy. by apply HP, list_elem_of_further.
Qed.

Lemma untouched_exists types t : shape types t ->
  match findUntouched (virtualFingerStates t) 0 with
  | Some j => finger_index j /\ tj t j = false
  | None => length (touched t) = 5%nat
  end.
Proof.
  intros S. pose proof (findUntouched_spec (virtualFingerStates t) 0) as H. pose proof (sh_virtual _ _ S) as Hl.
  destruct (findUntouched _ _) as [j|].
  - destruct H as (m & -> & v & E & Hv). pose proof (lookup_lt_Some _ _ _ E) as Hm.
    split; [unfold finger_index, SYNAPTICS_MAX_FINGERS; lia|]. unfold tj, virtAt, arr_get.
    rewrite (proj2 (Z.ltb_ge _ _)) by lia. replace (Z.to_nat (0 + Z.of_nat m)) with m by lia. by rewrite E.
  - unfold touched. rewrite filter_everything; [done|].
    intros j Hj%elem_of_seqZ. destruct (virtAt_Some types t j S Hj) as (v & E & _ & ->).
    unfold virtAt, arr_get in E. destruct (j <? 0); [done|]. by apply (Forall_lookup_1 _ _ _ _ H E).
Qed.

(** A virtual finger that comes into use, if there is one left. *)
Definition assigned i t t' : Prop :=
  t' = t /\ length (touched t) = 5%nat \/
  exists j, tj t j = false /\ finger_index j /\ (forall j', tj t' j' = (j' =? j) || tj t j') /\
    (forall i', vfi t' i' = if i' =? i then j else vfi t i').

Lemma assign_step types t i : shape types t -> finger_index i -> step_to types t (assignVirtualFinger i t) (assigned i t).
Proof.
  intros S Hi. unfold assignVirtualFinger. pose proof Hi as [Hi1 Hi2].
  rewrite (proj2 (Z.ltb_ge i 0)), (proj2 (Z.leb_gt _ _)) by done. cbn [orb].
  pose proof (untouched_exists _ _ S) as Hu. destruct (findUntouched _ _) as [j|]; [|by apply step_here; [|left]].
  destruct Hu as [Hj Hf]. eapply step_bind; [apply (onHw_step _ _ _ _ S Hi)|].
  { intros s _. unfold hw_ok, finger_index, SYNAPTICS_MAX_FINGERS in *. cbn. lia. }
  cbn beta. intros t1 S1 _ (A1 & A2 & s & _ & E1).
  eapply step_bind; [apply (onVirt_step _ _ j _ S1 Hj)|].
  { intros v [V1 V2 V3]. apply forget_ok. by split. }
  cbn beta. intros t2 S2 _ (B1 & B2 & v & _ & E2).
  eapply step_mono; [by apply assignFingerType_neutral|]. intros t3 S3 _ [C1 C2]. right. exists j.
  split; [done|]. split; [done|]. split.
  - intros j'. rewrite C2. destruct (Z.eqb_spec j' j) as [->|Hne]; cbn [orb]; [|by rewrite B2, A2]. unfold tj. by rewrite E2.
  - intros i'. rewrite C1, B1. destruct (Z.eqb_spec i' i) as [->|Hne]; [|by apply A1]. unfold vfi. by rewrite E1.
Qed.

Lemma assigned_linked types k n t t' i : shape types t -> shape types t' -> 0 <= i <= k -> n < 5 -> linked k n t -> assigned i t t' ->
  linked (Z.max k (i + 1)) (n + 1) t'.
Proof.
  intros S S' Hi Hn [H1 H2 H3] [[-> Hl]|(j & Hf & Hj & HT & HP)]; [lia|]. split.
  - intros x Hx. rewrite HT, HP. destruct (Z.eqb_spec x i); [by rewrite Z.eqb_refl|].
    rewrite H1 by lia. apply orb_true_r.
  - intros x y Hx Hy. rewrite !HP.
    destruct (Z.eqb_spec x i) as [->|], (Z.eqb_spec y i) as [->|]; try done; intros E.
    + pose proof (H1 y ltac:(lia)) as Hy'. rewrite <- E in Hy'. congruence.
    + pose proof (H1 x ltac:(lia)) as Hx'. rewrite E in Hx'. congruence.
    + apply H2; [lia..|done].
  - by rewrite (touched_add _ _ _ _ S S' Hf HT), H3.
Qed.

Lemma assign_linked types k n t i : shape types t -> finger_index i -> i <= k -> n < 5 -> linked k n t ->
  step_to types t (assignVirtualFinger i t) (linked (Z.max k (i + 1)) (n + 1)).
Proof.
  intros S Hi Hk Hn L. eapply step_mono; [by apply assign_step|]. intros t' S' _ A.
  destruct Hi. by apply (assigned_linked types k n t).
Qed.

(** Whether or not one is left. *)
Lemma assign_any types k n t i : shape types t -> 0 <= k -> finger_index i -> i <= k -> linked k n t ->
  step_to types t (assignVirtualFinger i t) (fun t' => exists n', linked k n' t').
Proof.
  intros S Hk0 Hi Hk L. pose proof (linked_count _ _ _ _ S Hk0 L).
  destruct (Z.lt_ge_cases n 5) as [Hn|Hn].
  - eapply step_mono; [by apply (assign_linked types k n)|]. intros t' _ _ L'. exists (n + 1).
    eapply linked_le; [|exact L']. lia.
  - eapply step_mono; [by apply assign_step|]. intros t' S' _ [[-> _]|(j & Hf & _ & HT & _)]; [by exists n|].
    pose proof (touched_add _ _ _ _ S S' Hf HT). pose proof (touched_le t'). pose proof (li_count _ _ _ L). lia.
Qed.

(** *** Places *)

Lemma upperFinger_ok types t : shape types t -> exists u i, upperFinger t = Some u /\ (i = 0 \/ i = 1) /\ hwAt i t = Some u.
Proof.
  intros S. unfold upperFinger, upperFingerIndex.
  destruct (hwAt_Some types t 0 S) as (f0 & E0 & _); [done|]. destruct (hwAt_Some types t 1 S) as (f1 & E1 & _); [done|].
  rewrite E0, E1. cbn [mbind option_bind]. destruct (hw_y f0 <? hw_y f1); [exists f1, 1|exists f0, 0]; auto.
Qed.

Lemma cloneUpper_neutral types t i : shape types t -> finger_index i -> neutral types t (cloneUpper i t).
Proof.
  intros S Hi. unfold cloneUpper. destruct (upperFinger_ok _ _ S) as (u & i0 & -> & _). cbn [mbind option_bind].
  by apply onHw_neutral.
Qed.

Lemma meanPressure_neutral types t i : shape types t -> finger_index i -> neutral types t (meanPressure i t).
Proof.
  intros S Hi. unfold meanPressure. destruct (hwAt_Some types t 0 S) as (f0 & E0 & _); [done|].
  destruct (hwAt_Some types t 1 S) as (f1 & E1 & _); [done|]. rewrite E0, E1. cbn [mbind option_bind]. by apply onHw_neutral.
Qed.

Lemma cloneAndAssign_linked types k n t i : shape types t -> finger_index i -> i <= k -> n < 5 -> linked k n t ->
  step_to types t (cloneAndAssign i t) (linked (Z.max k (i + 1)) (n + 1)).
Proof.
  intros S Hi Hk Hn L. eapply neutral_first; [by apply cloneUpper_neutral|]. intros t' S' _ L'.
  apply assign_linked; try done. by apply (linked_same types _ _ t).
Qed.

(** The old virtual finger of [src] goes to [dst], and [src] gets a new one. *)
Lemma swap_linked types k n t dst src : shape types t -> finger_index dst -> 0 <= dst <= k -> 0 <= src < k -> src < 5 -> n < 5 ->
  linked k n t -> step_to types t (swapFingers dst src t) (linked (Z.max k (dst + 1)) (n + 1)).
Proof.
  intros S Hd Hdk Hs Hs5 Hn L. pose proof L as [H1 H2 H3].
  assert (Hsi : finger_index src) by (unfold finger_index, SYNAPTICS_MAX_FINGERS; lia).
  unfold swapFingers. destruct (hwAt_Some types t src S Hsi) as (s & Es & _ & Ev). rewrite Es. cbn [mbind option_bind].
  pose proof (H1 src Hs) as HT. rewrite Ev in HT. pose proof (tj_index _ _ _ S HT) as Hj.
  destruct (virtAt_Some types t _ S Hj) as (v & E & _). rewrite E. cbn [mbind option_bind].
  eapply step_bind; [apply (onHw_step _ _ _ _ S Hd)|].
  { intros f _. unfold hw_ok, finger_index in *. cbn. lia. }
  cbn beta. intros t1 S1 _ (A1 & A2 & f & _ & E1).
  assert (P1 : forall i, vfi t1 i = if i =? dst then vfi t src else vfi t i).
  { intros i. destruct (Z.eqb_spec i dst) as [->|]; [|by apply A1]. unfold vfi at 1. by rewrite E1, Ev. }
  eapply step_mono; [by apply assign_step|]. intros t2 S2 _ [[-> Hl]|(j & Hf & _ & HT2 & HP)].
  { rewrite (touched_same _ _ _ S S1 A2) in Hl. lia. }
  rewrite A2 in Hf. split.
  - intros x Hx. rewrite HT2, HP, P1, A2. destruct (Z.eqb_spec x src); [by rewrite Z.eqb_refl|].
    destruct (Z.eqb_spec x dst); rewrite H1 by lia; apply orb_true_r.
  - assert (Hne : forall x, 0 <= x < k -> vfi t x <> j) by (intros x Hx E'; pose proof (H1 x Hx); congruence).
    pose proof (Hne src Hs) as Hns.
    assert (Hq : forall x, 0 <= x < Z.max k (dst + 1) -> x <> src -> exists x', 0 <= x' < k /\ vfi t2 x = vfi t x' /\
      (x = dst /\ x' = src \/ x' = x /\ x <> dst)).
    { intros x Hx Hxs. rewrite HP, P1, (proj2 (Z.eqb_neq x src)) by done.
      destruct (Z.eqb_spec x dst) as [->|]; [exists src|exists x]; (split; [lia|]); auto. }
    assert (Hqs : vfi t2 src = j) by (by rewrite HP, Z.eqb_refl).
    intros x y Hx Hy E'. destruct (Z.eq_dec x src) as [->|Hxs], (Z.eq_dec y src) as [->|Hys]; [done|..].
    + destruct (Hq y Hy Hys) as (y' & Hy' & Ey & _). exfalso. apply (Hne y' Hy'). congruence.
    + destruct (Hq x Hx Hxs) as (x' & Hx' & Ex & _). exfalso. apply (Hne x' Hx'). congruence.
    + destruct (Hq x Hx Hxs) as (x' & Hx' & Ex & Cx), (Hq y Hy Hys) as (y' & Hy' & Ey & Cy).
      assert (x' = y') by (apply H2; [done..|congruence]). lia.
  - rewrite (touched_add types t1 t2 j S1 S2); [|by rewrite A2|exact HT2]. by rewrite (touched_same _ _ _ S S1 A2), H3.
Qed.
