(* ===== verification/SynapticsFingers.v ===== *)
(** * The assignment of fingers

    Every way [renumberFingers] takes ends, and leaves the fingers it may send linked to
    different virtual fingers; one way alone leaves the fifth finger without one. *)
From S2P Require Import Prelude PS2Types RingBuffer Bus DriverWorld RingLoop OSTypes Touch Trackpad Averages.
From S2P Require Import Synaptics SynapticsTouch SynapticsLinks.

Implicit Types (t : SynapticsTouch) (i j k n c : Z).

(** A loop whose body is a step. *)
Lemma step_fold types (f : Z -> SynapticsTouch -> option SynapticsTouch) start n t (I : Z -> SynapticsTouch -> Prop) :
  0 <= n -> shape types t -> I start t ->
  (forall i t1, start <= i < start + n -> shape types t1 -> rest t1 = rest t -> I i t1 -> step_to types t1 (f i t1) (I (i + 1))) ->
  step_to types t (fold_opt f (seqZ start n) t) (I (start + n)).
Proof.
  intros Hn S HI Hf.
  destruct (fold_opt_seqZ f (fun i t1 => shape types t1 /\ rest t1 = rest t /\ I i t1) start n t) as (t' & E & S' & R' & I'); [done|done| |].
  - intros i t1 Hi (S1 & R1 & I1). destruct (Hf i t1 Hi S1 R1 I1) as (t2 & E2 & S2 & R2 & I2).
    exists t2. split; [done|]. split; [done|]. split; [congruence|done].
  - by exists t'.
Qed.

Lemma neutral_fold types f start n t : 0 <= n -> shape types t ->
  (forall i t1, start <= i < start + n -> shape types t1 -> rest t1 = rest t -> same_links t t1 -> neutral types t1 (f i t1)) ->
  neutral types t (fold_opt f (seqZ start n) t).
Proof.
  intros Hn S Hf. apply (step_fold types f start n t (fun _ => same_links t)); [done..|].
  intros i t1 Hi S1 R1 L. eapply step_mono; [by apply Hf|]. intros t2 _ _ L2. by eapply same_links_trans.
Qed.

Lemma arr_get_map {A B} (f : A -> B) l i : arr_get (map f l) i = f <$> arr_get l i.
Proof. unfold arr_get. destruct (i <? 0); [done|]. apply list_lookup_fmap. Qed.

(** ** The nearest *)

Lemma nearest_spec skip d l best :
  (forall i, i ∈ l -> exists b, skip i = Some b) -> (forall i, i ∈ l -> skip i = Some false -> exists x, d i = Some x) ->
  exists r, nearest skip d l best = Some r /\ r.1 <= best.1 /\
    (forall i x, i ∈ l -> skip i = Some false -> d i = Some x -> r.1 <= x) /\
    (r = best \/ r.2 ∈ l /\ skip r.2 = Some false /\ d r.2 = Some r.1).
Proof.
  revert best. induction l as [|i l IH]; intros best Hs Hd; cbn [nearest].
  - exists best. split; [done|]. split; [lia|]. split; [by intros i x Hi%elem_of_nil|by left].
  - destruct (Hs i (list_elem_of_here i l)) as [b Eb]. rewrite Eb. cbn [mbind option_bind].
    assert (Hs' : forall i', i' ∈ l -> exists b, skip i' = Some b) by (intros; apply Hs; by apply list_elem_of_further).
    assert (Hd' : forall i', i' ∈ l -> skip i' = Some false -> exists x, d i' = Some x) by (intros; apply Hd; [by apply list_elem_of_further|done]).
    destruct b; cbn iota.
    + destruct (IH best Hs' Hd') as (r & -> & Hle & Hmin & Hr). exists r. split; [done|]. split; [done|]. split.
      * intros i' x [->|Hi']%elem_of_cons E; [congruence|by apply Hmin].
      * destruct Hr as [->|(H1 & H2)]; [by left|]. right. split; [by apply list_elem_of_further|done].
    + destruct (Hd i (list_elem_of_here i l) Eb) as [x Ex]. rewrite Ex. cbn [mbind option_bind].
      destruct (IH (if x <? best.1 then (x, i) else best) Hs' Hd') as (r & -> & Hle & Hmin & Hr). exists r. split; [done|].
      assert (Hb : r.1 <= best.1 /\ r.1 <= x) by (destruct (Z.ltb_spec x best.1); cbn in Hle; lia).
      split; [apply Hb|]. split.
      * intros i' x' [->|Hi']%elem_of_cons E E'; [|by apply (Hmin i')]. rewrite Ex in E'. injection E' as <-. apply Hb.
      * destruct Hr as [->|(H1 & H2)]; [|right; split; [by apply list_elem_of_further|done]].
        destruct (x <? best.1); [|by left]. right. cbn. split; [apply list_elem_of_here|done].
Qed.

(** Distances are below [INT_MAX], so some candidate is the nearest. *)
Lemma nearest_found skip d l :
  (forall i, i ∈ l -> exists b, skip i = Some b) -> (forall i, i ∈ l -> skip i = Some false -> exists x, d i = Some x /\ x < INT_MAX) ->
  exists r, nearest skip d l farAway = Some r /\
    (r.2 = -1 /\ (forall i, i ∈ l -> skip i = Some true) \/ r.2 ∈ l /\ skip r.2 = Some false).
Proof.
  intros Hs Hd. destruct (nearest_spec skip d l farAway) as (r & E & _ & Hmin & Hr); [done|naive_solver|].
  exists r. split; [done|]. destruct Hr as [->|(H1 & H2 & _)]; [|by right]. left. split; [done|].
  intros i Hi. destruct (Hs i Hi) as [[] Eb]; [done|]. destruct (Hd i Hi Eb) as (x & Ex & Hx).
  pose proof (Hmin i x Hi Eb Ex). cbn in *. lia.
Qed.

Lemma s32_sqr_sum a b : s32 (sqr a + sqr b) < INT_MAX.
Proof.
  assert (Hsq : forall x, (x * x) mod 4 = 0 \/ (x * x) mod 4 = 1).
  { intros x. rewrite Z.mul_mod by lia. assert (Hx : x mod 4 = 0 \/ x mod 4 = 1 \/ x mod 4 = 2 \/ x mod 4 = 3)
      by (pose proof (Z.mod_pos_bound x 4); lia).
    destruct Hx as [->|[->|[->| ->]]]; cbn; auto. }
  pose proof (Hsq a) as Ha. pose proof (Hsq b) as Hb. unfold s32, sqr, INT_MAX.
  generalize dependent (a * a). generalize dependent (b * b). clear Hsq. intros y Hy x Hx. Z.to_euclidean_division_equations. lia.
Qed.

Lemma dist_ok types t i j : shape types t -> finger_index i -> finger_index j -> exists d, dist i j t = Some d /\ d < INT_MAX.
Proof.
  intros S Hi Hj. unfold dist. destruct (hwAt_Some types t i S Hi) as (f & -> & _).
  destruct (virtAt_Some types t j S Hj) as (v & -> & [V1 V2 _] & _). cbn [mbind option_bind].
  destruct (newest_in _ _ V1) as [x ->], (newest_in _ _ V2) as [y ->]. cbn [mbind option_bind].
  eexists. split; [done|]. apply s32_sqr_sum.
Qed.

(** ** Marking the virtual fingers in use *)

(** The virtual fingers of the first [c] physical ones. *)
Definition in_use c t j : Prop := exists i, 0 <= i < c /\ vfi t i = j /\ j <> -1.

Lemma markVirtual_step types t i : shape types t -> finger_index i ->
  step_to types t (markVirtual i t) (fun t' => (forall i', vfi t' i' = vfi t i') /\
    (forall j, tj t' j = true <-> tj t j = true \/ j = vfi t i /\ j <> -1)).
Proof.
  intros S Hi. unfold markVirtual. destruct (hwAt_Some types t i S Hi) as (f & -> & Hf & ->). cbn [mbind option_bind].
  destruct (Z.eqb_spec (virtualFingerIndex f) (-1)) as [E|E]; [apply step_here; [done|]; split; [done|]; intros j; intuition congruence|].
  assert (Hj : finger_index (virtualFingerIndex f)) by (unfold hw_ok, finger_index in *; lia).
  generalize dependent (virtualFingerIndex f). intros j E Hj.
  eapply step_bind; [apply (onVirt_step types t j _ S Hj); intros v [V1 V2 V3]; by split|].
  cbn beta. intros t1 S1 _ (A1 & A2 & v & _ & E1). rewrite E1. cbn [mbind option_bind].
  destruct (virtAt_Some types t1 j S1 Hj) as (v' & E1' & [_ _ Hv] & HT). rewrite E1 in E1'. injection E1' as <-.
  eapply step_mono; [by apply (setFree_neutral types)|]. intros t2 _ _ [C1 C2]. split; [intros i'; by rewrite C1|].
  intros j'. rewrite C2. destruct (Z.eq_dec j' j) as [->|Hne]; [rewrite HT; cbn; tauto|rewrite A2 by done; tauto].
Qed.

Lemma allTypes_length n : 1 <= n -> Z.of_nat (length (allTypes n)) = n.
Proof. intros H. unfold allTypes. cbn [length]. rewrite length_replicate. lia. Qed.

Lemma freeVirtual_ok types v : virtual_ok types v -> virtual_ok types (freeVirtual v).
Proof. intros H%forget_ok. destruct H as [V1 V2 V3]. by split. Qed.

Lemma dropType_ok types v : 0 < types -> virtual_ok types v -> virtual_ok types (dropType v).
Proof.
  intros Ht [V1 V2 V3]. unfold dropType. destruct (vf_touch v); split; cbn; unfold typeUndefined; (done || lia).
Qed.

Lemma freeAndMark_step types t : shape types t ->
  step_to types t (freeAndMarkVirtualFingers t) (fun t' => (forall i, vfi t' i = vfi t i) /\
    (forall j, tj t' j = true <-> in_use (clampedFingerCount t) t j)).
Proof.
  intros S. pose proof S as [T1 H1 H2 H3 H4 H5 H6 H7]. unfold freeAndMarkVirtualFingers. unfold typeThumb in T1.
  set (t0 := {| t with freeFingerTypes := _; virtualFingerStates := _ |}).
  assert (S0 : shape types t0).
  { subst t0. split; cbn [freeFingerTypes virtualFingerStates fingerStates lastFingerCount clampedFingerCount]; try done.
    - by rewrite length_map.
    - rewrite H3. apply allTypes_length. lia.
    - apply Forall_map. eapply Forall_impl; [exact H5|]. intros v. apply freeVirtual_ok. }
  assert (HT0 : forall j, tj t0 j = false).
  { intros j. unfold tj, virtAt, t0. cbn [virtualFingerStates]. rewrite arr_get_map. by destruct (arr_get _ j). }
  assert (R0 : rest t0 = rest t) by done. assert (P0 : forall i, vfi t0 i = vfi t i) by done. clearbody t0.
  destruct (step_fold types markVirtual 0 (clampedFingerCount t0) t0
    (fun m t1 => (forall i, vfi t1 i = vfi t i) /\ (forall j, tj t1 j = true <-> in_use m t j))) as (t1 & E1 & S1 & R1 & P1 & T1').
  - apply S0.
  - done.
  - split; [done|]. intros j. rewrite HT0. split; [done|]. intros (i & Hi & _). lia.
  - intros i t1 Hi S1 R1 (P1 & Q1). eapply step_mono; [apply (markVirtual_step types); [done|]|].
    { pose proof (sh_clamped _ _ S0). unfold finger_index. lia. }
    cbn beta. intros t2 _ _ (P2 & Q2). split; [intros i'; by rewrite P2|]. intros j. rewrite Q2, Q1, P1. unfold in_use. split.
    + intros [(i' & Hi' & E)|[-> Hne]]; [exists i'|exists i]; (split; [lia|done]).
    + intros (i' & Hi' & E & Hne). destruct (Z.eq_dec i' i) as [->|]; [by right|left; exists i'; split; [lia|done]].
  - rewrite E1. cbn [mbind option_bind]. rewrite (rest_clamped _ _ R0) in T1'. eexists. split; [done|].
    destruct S1 as [U1 U2 U3 U4 U5 U6 U7 U8]. split; [|split; [|split; [done|]]].
    + split; try done; cbn [virtualFingerStates]; [by rewrite length_map|]. apply Forall_map. eapply Forall_impl; [exact U6|].
      intros v. apply dropType_ok. unfold typeThumb in U1. lia.
    + etransitivity; [|exact (eq_trans R1 R0)]. done.
    + intros j. rewrite <- T1'. unfold tj, virtAt. cbn [virtualFingerStates]. rewrite arr_get_map.
      destruct (arr_get _ j) as [v|]; [|done]. cbn. unfold dropType. by destruct (vf_touch v) eqn:Ev; rewrite ?Ev.
Qed.

(** The fingers below [k] have different virtual fingers. *)
Definition distinct k t : Prop :=
  (forall i, 0 <= i < k -> vfi t i <> -1) /\ (forall i i', 0 <= i < k -> 0 <= i' < k -> vfi t i = vfi t i' -> i = i').

Lemma linked_distinct types k n t : shape types t -> linked k n t -> distinct k t.
Proof.
  intros S [H1 H2 _]. split; [|done]. intros i Hi E. pose proof (tj_index _ _ _ S (H1 i Hi)) as Hx. rewrite E in Hx.
  by destruct Hx.
Qed.

Lemma mark_some types k t : shape types t -> k <= clampedFingerCount t -> distinct k t ->
  step_to types t (freeAndMarkVirtualFingers t) (fun t' => exists n, linked k n t').
Proof.
  intros S Hk [D1 D2]. eapply step_mono; [by apply freeAndMark_step|]. cbn beta. intros t' _ _ (HP & HT).
  eexists. split; [|intros i i' Hi Hi'; rewrite !HP; auto|done]. intros i Hi. apply HT. exists i. rewrite HP. split; [lia|auto].
Qed.

Lemma mark_all types t : shape types t -> distinct (clampedFingerCount t) t ->
  step_to types t (freeAndMarkVirtualFingers t) (linked (clampedFingerCount t) (clampedFingerCount t)).
Proof.
  intros S [D1 D2]. pose proof (sh_clamped _ _ S) as Hc. eapply step_mono; [by apply freeAndMark_step|].
  cbn beta. intros t' S' _ (HP & HT). split.
  - intros i Hi. apply HT. exists i. rewrite HP. auto.
  - intros i i' Hi Hi'. rewrite !HP. auto.
  - assert (E : touched t' ≡ₚ map (vfi t) (seqZ 0 (clampedFingerCount t))).
    { apply NoDup_Permutation; [apply touched_NoDup| |].
      - change (map ?f ?l) with (f <$> l). apply (NoDup_fmap_2_strong (vfi t)); [|apply NoDup_seqZ].
        intros i i' Hi%elem_of_seqZ Hi'%elem_of_seqZ. apply D2; lia.
      - intros j. rewrite (elem_touched _ _ _ S'), HT, list_elem_of_In, in_map_iff. unfold in_use. split.
        + intros (i & Hi & E & _). exists i. split; [done|]. apply list_elem_of_In, elem_of_seqZ. lia.
        + intros (i & <- & Hi). apply list_elem_of_In, elem_of_seqZ in Hi. exists i. split; [lia|]. split; [done|]. apply D1. lia. }
    rewrite (Permutation_length E), length_map, length_seqZ. lia.
Qed.

(** ** Fewer fingers *)

(** What as many fingers have as their images. *)
Lemma images_bound (f : Z -> Z) (l : list Z) m : 0 <= m -> NoDup l -> (forall j, j ∈ l -> exists i, 0 <= i < m /\ f i = j) ->
  Z.of_nat (length l) <= m.
Proof.
  intros Hm Hl Hf. assert (Hs : (length l <= length (f <$> seqZ 0 m))%nat).
  { apply submseteq_length, NoDup_submseteq; [done|]. intros j Hj. destruct (Hf j Hj) as (i & Hi & <-).
    apply list_elem_of_fmap_2, elem_of_seqZ. lia. }
  rewrite length_fmap, length_seqZ in Hs. lia.
Qed.

Lemma images_onto (f : Z -> Z) (l : list Z) m : Z.of_nat (length l) = m -> NoDup l ->
  (forall j, j ∈ l -> exists i, 0 <= i < m /\ f i = j) ->
  (forall i, 0 <= i < m -> f i ∈ l) /\ (forall i i', 0 <= i < m -> 0 <= i' < m -> f i = f i' -> i = i').
Proof.
  intros Hm Hl Hf. assert (Hlen : length (f <$> seqZ 0 m) = length l) by (rewrite length_fmap, length_seqZ; lia).
  assert (Hincl : List.incl l (f <$> seqZ 0 m)).
  { intros j Hj%list_elem_of_In. destruct (Hf j Hj) as (i & Hi & <-). apply list_elem_of_In, list_elem_of_fmap_2, elem_of_seqZ. lia. }
  apply NoDup_ListNoDup in Hl. split.
  - intros i Hi. apply list_elem_of_In. apply (List.NoDup_length_incl Hl) in Hincl; [|lia].
    apply Hincl, list_elem_of_In, list_elem_of_fmap_2, elem_of_seqZ. lia.
  - apply (List.NoDup_incl_NoDup Hl) in Hincl; [|lia]. apply NoDup_ListNoDup in Hincl. rewrite NoDup_alt in Hincl.
    assert (Hl' : forall i, 0 <= i < m -> (f <$> seqZ 0 m) !! Z.to_nat i = Some (f i)).
    { intros i Hi. rewrite list_lookup_fmap, lookup_seqZ_lt by lia. cbn. f_equal. f_equal. lia. }
    intros i i' Hi Hi' E. pose proof (Hl' i Hi) as Hx. rewrite E in Hx. specialize (Hincl _ _ _ Hx (Hl' i' Hi')). lia.
Qed.

Lemma unlink_shape types t : shape types t -> shape types (unlink t).
Proof.
  intros [T1 H1 H2 H3 H4 H5 H6 H7]. split; try done; cbn; [by rewrite length_map|]. apply Forall_map.
  apply Forall_forall. done.
Qed.

Lemma unlink_vfi t i : vfi (unlink t) i = -1.
Proof. unfold vfi, hwAt. cbn. rewrite arr_get_map. by destruct (arr_get _ i). Qed.

(** Fingers below [m] have virtual fingers, the used ones. *)
Record removing types t0 m (tu : SynapticsTouch * list bool) : Prop := {
  rm_shape : shape types tu.1;
  rm_rest : rest tu.1 = rest t0;
  rm_touch : forall j, tj tu.1 j = tj t0 j;
  rm_used : length tu.2 = 5%nat;
  rm_done : forall i, 0 <= i < m -> tj t0 (vfi tu.1 i) = true /\ arr_get tu.2 (vfi tu.1 i) = Some true;
  rm_distinct : forall i i', 0 <= i < m -> 0 <= i' < m -> vfi tu.1 i = vfi tu.1 i' -> i = i';
  rm_image : forall j, arr_get tu.2 j = Some true -> exists i, 0 <= i < m /\ vfi tu.1 i = j }.

Lemma matchVirtual_step types t0 m tu : shape types t0 -> finger_index m -> m < Z.of_nat (length (touched t0)) -> removing types t0 m tu ->
  exists tu', matchVirtual m tu = Some tu' /\ removing types t0 (m + 1) tu'.
Proof.
  intros S0 Hm Hn [S R HT HU HD HI HV]. destruct tu as [t used]. cbn [fst snd] in *.
  assert (Hused : forall j, finger_index j -> exists b, arr_get used j = Some b).
  { intros j Hj. unfold finger_index, SYNAPTICS_MAX_FINGERS in Hj. destruct (arr_get_Some used j) as (b & -> & _); [lia|eauto]. }
  assert (Hidx : forall j, j ∈ indices -> finger_index j) by (by intros j Hj%elem_of_seqZ).
  unfold matchVirtual.
  destruct (nearest_found (unusable used t) (fun j => dist m j t) indices) as ([x j] & -> & Hr).
  { intros j Hj%Hidx. unfold unusable. destruct (virtAt_Some types t j S Hj) as (v & -> & _). cbn [mbind option_bind].
    destruct (vf_touch v); cbn; eauto. }
  { intros j Hj%Hidx _. by apply (dist_ok types). }
  cbn [mbind option_bind snd] in *. destruct Hr as [[-> Hall]|[Hj Hfree]].
  { exfalso. assert (Hle : Z.of_nat (length (touched t0)) <= m); [|lia].
    apply (images_bound (vfi t)); [by destruct Hm|apply touched_NoDup|]. intros j Hj. apply (elem_touched types _ _ S0) in Hj.
    apply HV. pose proof (tj_index _ _ _ S0 Hj) as Hji. specialize (Hall j ltac:(by apply elem_of_seqZ)).
    rewrite <- HT in Hj. unfold unusable in Hall. destruct (virtAt_Some types t j S Hji) as (v & E & _ & Ev).
    rewrite E in Hall. cbn [mbind option_bind] in Hall. rewrite Ev in Hj. by rewrite Hj in Hall. }
  apply Hidx in Hj. unfold unusable in Hfree. destruct (virtAt_Some types t j S Hj) as (v & E & _ & Ev). rewrite E in Hfree.
  cbn [mbind option_bind] in Hfree. destruct (vf_touch v) eqn:Et; [|done]. cbn in Hfree.
  destruct (onHw_step types t m (fun f => {| f with virtualFingerIndex := j |}) S Hm) as (t' & -> & S' & R' & A1 & A2 & s & _ & E1).
  { intros s _. unfold hw_ok, finger_index in *. cbn. lia. }
  cbn [mbind option_bind]. pose proof Hj as [Hj0 Hj5]. rewrite (proj2 (Z.eqb_neq j (-1))) by lia. unfold SYNAPTICS_MAX_FINGERS in Hj5.
  rewrite arr_set_Some by lia. cbn [mbind option_bind]. eexists. split; [done|].
  assert (Evm : vfi t' m = j) by (unfold vfi; by rewrite E1).
  assert (Evi : forall i, i <> m -> vfi t' i = vfi t i) by done.
  split; cbn [fst snd]; [done|congruence|intros i; by rewrite A2|by rewrite length_insert|..].
  - intros i Hi. destruct (Z.eq_dec i m) as [->|Hne].
    + rewrite Evm. split; [by rewrite <- HT|]. rewrite arr_get_insert by lia. by rewrite Z.eqb_refl.
    + rewrite Evi by done. destruct (HD i) as [D1 D2]; [lia|]. split; [done|]. pose proof (arr_get_bound _ _ _ D2).
      rewrite arr_get_insert by lia. by destruct (j =? vfi t i).
  - assert (Hx : forall i, 0 <= i < m -> vfi t i <> j) by (intros i Hi Ei; destruct (HD i Hi) as [_ D2]; congruence).
    intros i i' Hi Hi' Ei. destruct (Z.eq_dec i m) as [->|Hne], (Z.eq_dec i' m) as [->|Hne']; [done|..].
    + rewrite Evm, Evi in Ei by done. exfalso. apply (Hx i'); [lia|done].
    + rewrite Evm, Evi in Ei by done. exfalso. apply (Hx i); [lia|done].
    + rewrite !Evi in Ei by done. apply HI; [lia..|done].
  - intros j' Hj'. pose proof (arr_get_bound _ _ _ Hj') as Hb. rewrite length_insert in Hb. rewrite arr_get_insert in Hj' by lia.
    destruct (Z.eqb_spec j j') as [Ej|Hne]; [exists m; split; [destruct Hm; lia|congruence]|]. destruct (HV j' Hj') as (i & Hi & Ei).
    exists i. split; [lia|]. rewrite Evi by lia. done.
Qed.

Lemma removeFingers_step types t : shape types t -> clampedFingerCount t <= Z.of_nat (length (touched t)) ->
  step_to types {| t with hadLiftFinger := 0 <? clampedFingerCount t |} (removeFingers t)
    (linked (clampedFingerCount t) (clampedFingerCount t)).
Proof.
  intros S Hn. unfold removeFingers. set (t0 := {| (unlink t) with hadLiftFinger := _ |}).
  assert (S0 : shape types t0). { destruct (unlink_shape types t S) as [T1 H1 H2 H3 H4 H5 H6 H7]. by split. }
  assert (Ec : clampedFingerCount t0 = clampedFingerCount t) by done. assert (En : touched t0 = touched t) by done.
  assert (R0 : rest t0 = rest {| t with hadLiftFinger := 0 <? clampedFingerCount t |}) by done. clearbody t0.
  rewrite Ec. rewrite <- En in Hn. pose proof (sh_clamped _ _ S) as Hc.
  destruct (fold_opt_seqZ matchVirtual (removing types t0) 0 (clampedFingerCount t)
              (t0, replicate (Z.to_nat SYNAPTICS_MAX_FINGERS) false)) as ([t1 used] & -> & [S1 R1 HT1 _ HD1 HI1 _]).
  - lia.
  - split; cbn [fst snd]; try done; [intros; lia..|]. intros j Hj. exfalso. pose proof (arr_get_bound _ _ _ Hj).
    destruct (arr_get_Some (replicate (Z.to_nat SYNAPTICS_MAX_FINGERS) false) j) as (b & E & El); [done|].
    rewrite E in Hj. injection Hj as ->. apply lookup_replicate in El. by destruct El.
  - intros i tu Hi HR. apply matchVirtual_step; [done|unfold finger_index; lia|lia|done].
  - cbn [mbind option_bind fst snd] in *. pose proof (rest_clamped _ _ R1) as Ec1. rewrite Ec in Ec1.
    destruct (mark_all types t1 S1) as (t2 & E2 & S2 & R2 & L2).
    + rewrite Ec1. split; [|exact HI1]. intros i Hi E. destruct (HD1 i Hi) as [Hx _]. rewrite E in Hx.
      by apply (tj_index types _ _ S0) in Hx as [].
    + exists t2. split; [done|]. split; [done|]. split; [congruence|]. by rewrite Ec1 in L2.
Qed.

(** ** More fingers, after one has been lifted *)

(** Every touched virtual finger below [j] has got a physical one again. *)
Record matching types t0 j (tm : SynapticsTouch * Farthest) : Prop := {
  mt_shape : shape types tm.1;
  mt_rest : rest tm.1 = rest t0;
  mt_touch : forall j', tj tm.1 j' = tj t0 j';
  mt_range : forall i, vfi tm.1 i = -1 \/ 0 <= i < lastFingerCount t0 /\ tj t0 (vfi tm.1 i) = true /\ vfi tm.1 i < j;
  mt_distinct : forall i i', vfi tm.1 i <> -1 -> vfi tm.1 i = vfi tm.1 i' -> i = i';
  mt_image : forall j', 0 <= j' < j -> tj t0 j' = true -> exists i, 0 <= i < lastFingerCount t0 /\ vfi tm.1 i = j';
  mt_first : -1 <= first_i tm.2 < lastFingerCount t0;
  mt_second : -1 <= second_i tm.2 < lastFingerCount t0 }.

(** Not all fingers are taken while a touched virtual finger is left. *)
Lemma not_all_taken types t0 j tm : shape types t0 -> finger_index j -> Z.of_nat (length (touched t0)) = lastFingerCount t0 ->
  matching types t0 j tm -> tj t0 j = true -> (forall i, 0 <= i < lastFingerCount t0 -> vfi tm.1 i <> -1) -> False.
Proof.
  intros S0 Hj Hn [S R HT HR HD HI _ _] Ht Hall.
  assert (Hs : (length (j :: (vfi tm.1 <$> seqZ 0 (lastFingerCount t0))) <= length (touched t0))%nat).
  { apply submseteq_length, NoDup_submseteq.
    - constructor; [intros (i & Ei & Hi)%list_elem_of_fmap|].
      + apply elem_of_seqZ in Hi. destruct (HR i) as [E|(_ & _ & E)]; [by apply (Hall i); [lia|]|lia].
      + apply (NoDup_fmap_2_strong (vfi tm.1)); [|apply NoDup_seqZ]. intros i i' Hi%elem_of_seqZ _. apply HD, Hall. lia.
    - intros x [->|(i & -> & Hi%elem_of_seqZ)%list_elem_of_fmap]%elem_of_cons; apply (elem_touched types _ _ S0); [done|].
      destruct (HR i) as [E|(_ & E & _)]; [by apply Hall in E; [|lia]|done]. }
  cbn [length] in Hs. rewrite length_fmap, length_seqZ in Hs. lia.
Qed.

Lemma matchPhysical_step types t0 j tm : shape types t0 -> finger_index j -> Z.of_nat (length (touched t0)) = lastFingerCount t0 ->
  matching types t0 j tm -> exists tm', matchPhysical j tm = Some tm' /\ matching types t0 (j + 1) tm'.
Proof.
  intros S0 Hj Hn HM. pose proof HM as [S R HT HR HD HI H1 H2]. destruct tm as [t m]. cbn [fst snd] in *.
  assert (Hkeep : tj t0 j = false -> matching types t0 (j + 1) (t, m)).
  { intros Hf. split; cbn [fst snd]; try done.
    - intros i. destruct (HR i) as [?|(? & ? & ?)]; [by left|right; split; [done|]; split; [done|lia]].
    - intros j' Hj' Ht. apply HI; [|done]. assert (j' <> j) by congruence. lia. }
  unfold matchPhysical. destruct (virtAt_Some types t j S Hj) as (v & -> & _ & Ev). cbn [mbind option_bind].
  destruct (vf_touch v); cbn [negb]; [|exists (t, m); split; [done|]; apply Hkeep; by rewrite <- HT].
  rewrite HT in Ev. pose proof (sh_last _ _ S0) as Hlast. pose proof (rest_last _ _ R) as Elast. rewrite Elast.
  assert (Hidx : forall i, i ∈ seqZ 0 (lastFingerCount t0) -> 0 <= i < lastFingerCount t0 /\ finger_index i).
  { intros i Hi%elem_of_seqZ. unfold finger_index. lia. }
  destruct (nearest_found (taken t) (fun i => dist i j t) (seqZ 0 (lastFingerCount t0))) as ([d i] & -> & Hr).
  { intros i [_ Hi]%Hidx. unfold taken. destruct (hwAt_Some types t i S Hi) as (f & -> & _). cbn. eauto. }
  { intros i [_ Hi]%Hidx _. by apply (dist_ok types). }
  cbn [mbind option_bind snd] in *. destruct Hr as [[-> Hall]|[Hi Hfree]].
  { exfalso. apply (not_all_taken types t0 j (t, m)); try done. intros i Hi E. specialize (Hall i ltac:(apply elem_of_seqZ; lia)).
    unfold taken in Hall. cbn [fst] in E. destruct (hwAt_Some types t i S) as (f & Ef & _ & Evf); [unfold finger_index; lia|].
    rewrite Ef in Hall. cbn in Hall. rewrite <- Evf, E in Hall. done. }
  apply Hidx in Hi as [Hi Hfi]. rewrite (proj2 (Z.eqb_neq i (-1))) by lia.
  destruct (onHw_step types t i (fun f => {| f with virtualFingerIndex := j |}) S Hfi) as (t' & -> & S' & R' & A1 & A2 & s & _ & E1).
  { intros s _. unfold hw_ok, finger_index in *. cbn. lia. }
  cbn [mbind option_bind]. eexists. split; [done|]. destruct Hj as [Hj0 Hj5].
  assert (Evi : vfi t' i = j) by (unfold vfi; by rewrite E1).
  assert (Hold : vfi t i = -1).
  { unfold taken in Hfree. destruct (hwAt_Some types t i S Hfi) as (f & Ef & _ & ->). rewrite Ef in Hfree. cbn in Hfree.
    by destruct (Z.eqb_spec (virtualFingerIndex f) (-1)). }
  assert (Hne : forall x, vfi t x <> j). { intros x Ex. destruct (HR x) as [?|(_ & _ & ?)]; lia. }
  assert (Hfar : -1 <= first_i (farther d i m) < lastFingerCount t0 /\ -1 <= second_i (farther d i m) < lastFingerCount t0).
  { unfold farther. destruct (first_d m <? d); cbn; lia. }
  split; cbn [fst snd]; [done|congruence|intros x; by rewrite A2|..]; try apply Hfar.
  - intros x. destruct (Z.eq_dec x i) as [->|Hx]; [right; rewrite Evi; split; [done|]; split; [done|lia]|].
    rewrite A1 by done. destruct (HR x) as [?|(? & ? & ?)]; [by left|right; split; [done|]; split; [done|lia]].
  - intros x y. destruct (Z.eq_dec x i) as [->|Hx], (Z.eq_dec y i) as [->|Hy]; [done|..].
    + rewrite Evi, A1 by done. intros _ E. by exfalso; apply (Hne y).
    + rewrite Evi, A1 by done. intros _ E. by exfalso; apply (Hne x).
    + rewrite !A1 by done. apply HD.
  - intros j' Hj' Ht. destruct (Z.eq_dec j' j) as [->|Hjj]; [by exists i|].
    destruct (HI j') as (x & Hx & Ex); [lia|done|]. exists x. split; [done|]. rewrite A1; [done|]. intros ->. lia.
Qed.

Lemma matched types t : shape types t -> Z.of_nat (length (touched t)) = lastFingerCount t -> 0 < lastFingerCount t ->
  exists t1 m, fold_opt matchPhysical indices (unlink t, mkFarthest 0 (-1) 0 (-1)) = Some (t1, m) /\ shape types t1 /\ rest t1 = rest t /\
    linked (lastFingerCount t) (lastFingerCount t) t1 /\ (forall i, lastFingerCount t <= i -> vfi t1 i = -1) /\
    -1 <= first_i m < lastFingerCount t /\ -1 <= second_i m < lastFingerCount t.
Proof.
  intros S Hn Hl.
  destruct (fold_opt_seqZ matchPhysical (matching types t) 0 SYNAPTICS_MAX_FINGERS (unlink t, mkFarthest 0 (-1) 0 (-1)))
    as ([t1 m] & E & [S1 R1 HT HR HD HI H1 H2]).
  - done.
  - split; cbn [fst snd]; try done; cbn; [by apply unlink_shape|..].
    + intros i. left. apply unlink_vfi.
    + intros i i'. by rewrite unlink_vfi.
    + intros j' Hj'. lia.
    + lia.
    + lia.
  - intros i tm Hi. by apply matchPhysical_step.
  - exists t1, m. cbn [fst snd] in *. split; [exact E|]. split; [done|]. split; [done|].
    destruct (images_onto (vfi t1) (touched t) (lastFingerCount t)) as [O1 O2]; [done|apply touched_NoDup| |].
    { intros j Hj%(elem_touched types _ _ S). apply HI; [|done]. exact (tj_index _ _ _ S Hj). }
    split; [|split; [|done]].
    + split; [|done|].
      * intros i Hi. rewrite HT. by apply (elem_touched types _ _ S), O1.
      * by rewrite (touched_same types t t1 S S1 HT).
    + intros i Hi. destruct (HR i) as [?|[? _]]; [done|lia].
Qed.

Lemma assignIfFree_step types t i last : shape types t -> 0 <= i < 2 -> 0 < last <= 4 ->
  linked (Z.max last i) (Z.max last i) t /\ (forall x, Z.max last i <= x -> vfi t x = -1) ->
  step_to types t (assignIfFree i t) (fun t' => linked (Z.max last (i + 1)) (Z.max last (i + 1)) t' /\
                                                (forall x, Z.max last (i + 1) <= x -> vfi t' x = -1)).
Proof.
  intros S Hi Hl (L & HF). assert (Hfi : finger_index i) by (unfold finger_index, SYNAPTICS_MAX_FINGERS; lia).
  unfold assignIfFree, taken. destruct (hwAt_Some types t i S Hfi) as (f & -> & _ & Ev). cbn [mbind option_bind].
  rewrite <- Ev. destruct (Z.lt_ge_cases i last) as [Hil|Hil].
  - pose proof (linked_distinct _ _ _ _ S L) as [D _]. specialize (D i ltac:(lia)). rewrite (proj2 (Z.eqb_neq _ _)) by done.
    apply step_here; [done|]. replace (Z.max last (i + 1)) with (Z.max last i) by lia. by split.
  - rewrite HF by lia. cbn. replace (Z.max last i) with i in * by lia. replace (Z.max last (i + 1)) with (i + 1) by lia.
    eapply step_mono; [by apply assign_step|]. intros t' S' _ A. split.
    + pose proof (assigned_linked types i i t t' i S S' ltac:(lia) ltac:(lia) L A) as L'. by rewrite Z.max_r in L' by lia.
    + intros x Hx. destruct A as [[-> _]|(j & _ & _ & _ & ->)]; [apply HF; lia|]. rewrite (proj2 (Z.eqb_neq x i)) by lia.
      apply HF. lia.
Qed.

Lemma cloneAndAssign_any types k n t i : shape types t -> 0 <= k -> finger_index i -> i <= k -> linked k n t ->
  step_to types t (cloneAndAssign i t) (fun t' => exists n', linked k n' t').
Proof.
  intros S H0 Hi Hk L. eapply neutral_first; [by apply cloneUpper_neutral|]. intros t' S' _ L'.
  apply (assign_any types k n); try done. by apply (linked_same types _ _ t).
Qed.

Lemma placeThird_step types t m : shape types t -> linked 2 2 t -> first_i m < 2 -> step_to types t (placeThird m t) (linked 3 3).
Proof.
  intros S L Hm. unfold placeThird. eapply neutral_first; [by apply meanPressure_neutral|]. intros t1 S1 _ L1.
  apply (linked_same types 2 2 _ _ S S1 L1) in L. clear t S L1. destruct (_ && _) eqn:E.
  - apply andb_prop in E as [_ E%Z.leb_le]. apply (swap_linked types 2 2); (done || lia).
  - destruct (upperFinger_ok _ _ S1) as (u & i0 & -> & _). cbn [mbind option_bind].
    eapply neutral_first; [by apply onHw_neutral|]. intros t2 S2 _ L2. apply (assign_linked types 2 2); try done.
    by apply (linked_same types _ _ t1).
Qed.

(** The third finger, and the fourth. *)
Lemma placeFourth_step types t m k : shape types t -> 2 <= k <= 4 -> linked k k t -> first_i m < k -> second_i m < k ->
  (lastFingerCount t <? 3) = (k <? 3) ->
  step_to types t
    (if (FINGER_DIST <? first_d m) && (0 <=? first_i m) then
       if lastFingerCount t <? 3 then
         t ← swapFingers 2 (first_i m) t;
         if (FINGER_DIST <? second_d m) && (0 <=? second_i m) then swapFingers 3 (second_i m) t else cloneAndAssign 3 t
       else swapFingers 3 (first_i m) t
     else
       t ← cloneUpper 2 t;
       t ← (if lastFingerCount t <? 3 then assignVirtualFinger 2 t else Some t);
       cloneAndAssign 3 t)
    (fun t' => exists n, linked 4 n t').
Proof.
  intros S Hk L H1 H2 El.
  assert (Hle : forall k' n t', 4 <= k' -> linked k' n t' -> exists n', linked 4 n' t') by (intros; eexists; by eapply linked_le).
  rewrite El. destruct (_ && _) eqn:E.
  - apply andb_prop in E as [_ E%Z.leb_le]. destruct (Z.ltb_spec k 3).
    + assert (k = 2) as -> by lia. eapply step_bind; [apply (swap_linked types 2 2); (done || lia)|]. intros t1 S1 _ L1.
      destruct ((FINGER_DIST <? second_d m) && _) eqn:E2.
      * apply andb_prop in E2 as [_ E2%Z.leb_le]. eapply step_mono; [apply (swap_linked types 3 3); (done || lia)|].
        intros t2 _ _. apply Hle. lia.
      * eapply step_mono; [apply (cloneAndAssign_linked types 3 3); (done || lia)|]. intros t2 _ _. apply Hle. lia.
    + eapply step_mono; [apply (swap_linked types k k); (done || lia)|]. intros t2 _ _. apply Hle. lia.
  - eapply neutral_first; [by apply cloneUpper_neutral|]. intros t1 S1 R1 L1. rewrite (rest_last _ _ R1), El.
    apply (linked_same types k k _ _ S S1 L1) in L. eapply step_bind with (P := linked (Z.max k 3) (Z.max k 3)).
    + destruct (Z.ltb_spec k 3).
      * assert (k = 2) as -> by lia. by apply (assign_linked types 2 2).
      * apply step_here; [done|]. by replace (Z.max k 3) with k by lia.
    + intros t2 S2 _ L2. eapply step_mono; [apply (cloneAndAssign_linked types (Z.max k 3) (Z.max k 3)); try done; lia|].
      intros t3 _ _. apply Hle. lia.
Qed.

Lemma placeOthers_step types t m k : shape types t -> 2 <= k <= 4 -> linked k k t -> first_i m < k -> second_i m < k ->
  (lastFingerCount t <? 3) = (k <? 3) -> step_to types t (placeOthers m t) (fun t' => exists n, linked 4 n t').
Proof.
  intros S Hk L H1 H2 El. unfold placeOthers. eapply neutral_first; [by apply meanPressure_neutral|]. intros t1 S1 R1 L1.
  eapply neutral_first; [by apply meanPressure_neutral|]. intros t2 S2 R2 L2.
  apply (linked_same types k k _ _ S S1 L1), (linked_same types k k _ _ S1 S2 L2) in L.
  eapply step_bind; [apply (placeFourth_step types t2 m k); try done; by rewrite (rest_last _ _ R2), (rest_last _ _ R1)|].
  intros t3 S3 _ [n L3]. destruct (5 <=? _); [|apply step_here; eauto]. by apply (cloneAndAssign_any types 4 n).
Qed.

(** The links of [m] fingers between two packets: all of them, but for the fifth. *)
Definition mapped m t : Prop := if m <=? 4 then linked m m t else exists n, linked 4 n t.

Lemma mark_mapped types t c n : shape types t -> c = clampedFingerCount t -> linked (Z.min 4 c) n t ->
  step_to types t (freeAndMarkVirtualFingers t) (mapped c).
Proof.
  intros S -> L%(linked_distinct types); [|done]. unfold mapped. destruct (Z.leb_spec (clampedFingerCount t) 4).
  - apply mark_all; [done|]. by replace (Z.min 4 _) with (clampedFingerCount t) in L by lia.
  - apply mark_some; [done|lia|]. by replace (Z.min 4 _) with 4 in L by lia.
Qed.

Lemma rematchFingers_step types t : shape types t -> 0 < lastFingerCount t < clampedFingerCount t -> mapped (lastFingerCount t) t ->
  step_to types t (rematchFingers t) (mapped (clampedFingerCount t)).
Proof.
  intros S Hlt L. pose proof (sh_clamped _ _ S) as Hc. unfold SYNAPTICS_MAX_FINGERS in Hc. unfold mapped in L.
  rewrite (proj2 (Z.leb_le (lastFingerCount t) 4)) in L by lia.
  unfold rematchFingers. destruct (matched types t S (li_count _ _ _ L)) as (t1 & m & -> & S1 & R1 & L1 & F1 & M1 & M2); [lia|].
  cbn [mbind option_bind]. rewrite (rest_clamped _ _ R1), Z.min_l by lia.
  destruct (step_fold types assignIfFree 0 2 t1 (fun i t' => linked (Z.max (lastFingerCount t) i) (Z.max (lastFingerCount t) i) t' /\
    (forall x, Z.max (lastFingerCount t) i <= x -> vfi t' x = -1))) as (t2 & -> & S2 & R2 & L2 & _).
  - done.
  - done.
  - rewrite Z.max_l by lia. by split.
  - intros i t' Hi S' _ H. apply assignIfFree_step; (done || lia).
  - cbn [mbind option_bind]. rewrite (rest_clamped _ _ R2), (rest_clamped _ _ R1). change (0 + 2) with 2 in L2.
    assert (R : rest t2 = rest t) by congruence. assert (Er : forall o, step_to types t2 o (mapped (clampedFingerCount t)) -> step_to types t o (mapped (clampedFingerCount t))).
    { intros o (t3 & E3 & S3 & R3 & H3). exists t3. split; [done|]. split; [done|]. split; [congruence|done]. }
    apply Er. clear Er. eapply step_bind with (P := fun t' => exists n, linked (Z.min 4 (clampedFingerCount t)) n t').
    + destruct (Z.eqb_spec (clampedFingerCount t) 3) as [E3|E3].
      * rewrite E3. replace (Z.max _ 2) with 2 in L2 by lia. eapply step_mono; [apply (placeThird_step types); (done || lia)|].
        intros t3 _ _ L3. by exists 3.
      * destruct (Z.leb_spec 4 (clampedFingerCount t)).
        -- replace (Z.min 4 _) with 4 by lia. apply (placeOthers_step types t2 m (Z.max (lastFingerCount t) 2)); try done; try lia.
           rewrite (rest_last _ _ R). destruct (Z.ltb_spec (lastFingerCount t) 3), (Z.ltb_spec (Z.max (lastFingerCount t) 2) 3); (done || lia).
        -- apply step_here; [done|]. replace (Z.min 4 _) with 2 by lia. replace (Z.max _ 2) with 2 in L2 by lia. by exists 2.
    + intros t3 S3 R3 [n L3]. apply (mark_mapped types t3 _ n); try done. by rewrite (rest_clamped _ _ R3), (rest_clamped _ _ R).
Qed.
