(* ===== verification/SynapticsRenumber.v ===== *)
(** * renumberFingers

    The rest of the ways through [renumberFingers], and the whole: it ends, and when it says
    that the fingers can be sent, they are linked ([mapped]). *)
From S2P Require Import Prelude PS2Types RingBuffer Bus DriverWorld RingLoop OSTypes Touch Trackpad Averages.
From S2P Require Import Synaptics SynapticsTouch SynapticsLinks SynapticsFingers.

Implicit Types (t : SynapticsTouch) (i j k n c : Z).

(** ** The first fingers *)

(** Each finger has the virtual finger of its own number. *)
Definition straight m t : Prop := (forall i, 0 <= i < m -> vfi t i = i) /\ (forall j, tj t j = true <-> 0 <= j < m).

Lemma straight_linked types m t : shape types t -> 0 <= m -> straight m t -> linked m m t.
Proof.
  intros S Hm [HP HT]. split.
  - intros i Hi. rewrite HP by done. by apply HT.
  - intros i i' Hi Hi'. by rewrite !HP.
  - assert (E : touched t ≡ₚ seqZ 0 m).
    { apply NoDup_Permutation; [apply touched_NoDup|apply NoDup_seqZ|]. intros j.
      rewrite (elem_touched _ _ _ S), elem_of_seqZ, HT. lia. }
    rewrite (Permutation_length E), length_seqZ. lia.
Qed.

Lemma firstFinger_step types t i : shape types t -> finger_index i -> straight i t -> step_to types t (firstFinger i t) (straight (i + 1)).
Proof.
  intros S Hi [HP HT]. pose proof Hi as [Hi0 _]. unfold firstFinger.
  eapply step_bind; [apply (onHw_step _ _ _ _ S Hi); intros s _; unfold hw_ok, finger_index in *; cbn; lia|].
  cbn beta. intros t1 S1 _ (A1 & A2 & s & _ & E1).
  eapply step_bind; [apply (onVirt_step types t1 i _ S1 Hi); intros v [V1 V2 V3]; by split|].
  cbn beta. intros t2 S2 _ (B1 & B2 & v & _ & E2).
  assert (HS : straight (i + 1) t2).
  { split.
    - intros x Hx. rewrite B1. destruct (Z.eq_dec x i) as [->|]; [unfold vfi; by rewrite E1|]. rewrite A1 by done. apply HP. lia.
    - intros j. destruct (Z.eq_dec j i) as [->|]; [unfold tj; rewrite E2; cbn; split; [lia|done]|].
      rewrite B2 by done. rewrite A2, HT. lia. }
  eapply step_mono with (P := same_links t2).
  - apply neutral_bind; [by apply assignFingerType_neutral|]. intros t3 S3 _ _.
    apply neutral_bind; [apply onVirt_neutral; [done|done|apply forget_ok|done]|]. intros t4 S4 _ _.
    destruct (2 <=? i); [by apply cloneUpper_neutral|by apply step_here].
  - intros t3 _ _ [C1 C2]. destruct HS as [HP2 HT2]. split; [intros x Hx; rewrite C1; auto|intros j; by rewrite C2].
Qed.

Lemma firstFingers_step types t c : shape types t -> 0 <= c <= 5 -> linked 0 0 t -> step_to types t (fold_opt firstFinger (seqZ 0 c) t) (linked c c).
Proof.
  intros S Hc L. eapply step_mono; [apply (step_fold types firstFinger 0 c t straight)|].
  - lia.
  - done.
  - split; [intros; lia|]. intros j. rewrite <- (elem_touched types t j S). pose proof (li_count _ _ _ L) as Hn.
    destruct (touched t); [|done]. split; [by intros ?%elem_of_nil|lia].
  - intros i t1 Hi S1 _. apply firstFinger_step; [done|]. unfold finger_index, SYNAPTICS_MAX_FINGERS. lia.
  - cbn beta. intros t' S' _. apply (straight_linked types); [done|lia].
Qed.

(** ** More fingers, none lifted *)

Lemma linked_min c k n t : Z.min 4 c <= k -> linked k n t -> (c <= 4 -> n = c) -> mapped c t.
Proof.
  intros Hk L Hn. unfold mapped. destruct (Z.leb_spec c 4).
  - rewrite <- (Hn ltac:(lia)) at 2. eapply linked_le; [|exact L]. lia.
  - exists n. eapply linked_le; [|exact L]. lia.
Qed.

Lemma addFingers_step types t : shape types t -> 0 < lastFingerCount t < clampedFingerCount t -> mapped (lastFingerCount t) t ->
  step_to types t (addFingers t) (mapped (clampedFingerCount t)).
Proof.
  intros S Hlt L. pose proof (sh_clamped _ _ S) as Hc. unfold SYNAPTICS_MAX_FINGERS in Hc. unfold mapped in L.
  rewrite (proj2 (Z.leb_le (lastFingerCount t) 4)) in L by lia. unfold addFingers.
  generalize dependent (clampedFingerCount t). generalize dependent (lastFingerCount t). intros last L c Hlt Hc.
  assert (Hd : c - last = 1 \/ c - last = 2 \/ c - last = 3 \/ c - last = 4) by lia.
  destruct Hd as [E|[E|[E|E]]]; rewrite E.
  - destruct (Z.leb_spec 2 last).
    + eapply step_mono; [apply (swap_linked types last last); (done || (try unfold finger_index, SYNAPTICS_MAX_FINGERS; lia))|].
      intros t' S' _ L'. eapply linked_min; [|exact L'|]; lia.
    + eapply step_mono; [apply (assign_linked types last last); (done || lia)|]. intros t' S' _ L'. eapply linked_min; [|exact L'|]; lia.
  - destruct (Z.eqb_spec last 1) as [->|].
    + eapply step_bind; [apply (assign_linked types 1 1); done|]. intros t1 S1 _ L1.
      eapply step_mono; [apply (cloneAndAssign_linked types 2 2); done|]. intros t' S' _ L'. eapply linked_min; [|exact L'|]; lia.
    + eapply step_bind; [apply (swap_linked types last last); (done || (try unfold finger_index, SYNAPTICS_MAX_FINGERS; lia))|]. intros t1 S1 _ L1.
      eapply step_mono; [apply (cloneAndAssign_linked types (Z.max last (last + 1)) (last + 1)); (done || lia)|].
      intros t' S' _ L'. eapply linked_min; [|exact L'|]; lia.
  - eapply step_bind; [apply (assign_linked types last last); (done || lia)|]. intros t1 S1 _ L1.
    eapply step_bind; [apply (cloneAndAssign_linked types (Z.max last 2) (last + 1)); (done || lia)|]. intros t2 S2 _ L2.
    eapply step_mono; [apply (cloneAndAssign_linked types (Z.max (Z.max last 2) 3) (last + 1 + 1)); (done || lia)|].
    intros t' S' _ L'. eapply linked_min; [|exact L'|]; lia.
  - assert (last = 1) as -> by lia. eapply step_bind; [apply (assign_linked types 1 1); done|]. intros t1 S1 _ L1.
    eapply step_bind; [apply (cloneAndAssign_linked types 2 2); done|]. intros t2 S2 _ L2.
    eapply step_bind; [apply (cloneAndAssign_linked types 3 3); done|]. intros t3 S3 _ L3.
    eapply step_mono; [apply (cloneAndAssign_linked types 4 4); done|].
    intros t' S' _ L'. eapply linked_min; [|exact L'|]; lia.
Qed.

(** ** A change of the number of fingers *)

(** The members [renumberFingers] sets by itself. *)
Definition same_count t t' : Prop :=
  lastFingerCount t' = lastFingerCount t /\ clampedFingerCount t' = clampedFingerCount t.

Lemma mapped_touched types m t : shape types t -> 0 <= m -> mapped m t -> Z.min 4 m <= Z.of_nat (length (touched t)).
Proof.
  intros S Hm. unfold mapped. destruct (Z.leb_spec m 4).
  - intros [_ _ ->]. lia.
  - intros [n L]. pose proof (linked_count types 4 n t S ltac:(lia) L). rewrite (li_count _ _ _ L). lia.
Qed.

Lemma changeFingers_ok types t : shape types t -> lastFingerCount t <> clampedFingerCount t -> mapped (lastFingerCount t) t ->
  exists t', changeFingers t = Some t' /\ shape types t' /\ same_count t t' /\ mapped (clampedFingerCount t) t'.
Proof.
  intros S Hne L. pose proof (sh_clamped _ _ S) as Hc. pose proof (sh_last _ _ S) as Hl. unfold SYNAPTICS_MAX_FINGERS in *.
  assert (Hok : forall o Q, step_to types t o Q -> exists t', o = Some t' /\ shape types t' /\ same_count t t' /\ Q t').
  { intros o Q (t' & E & S' & R & HQ). exists t'. split; [done|]. split; [done|]. split; [|done].
    split; [by apply rest_last|by apply rest_clamped]. }
  unfold changeFingers. destruct (Z.eqb_spec (lastFingerCount t) 0) as [E0|].
  - apply Hok. rewrite E0 in L. eapply step_mono; [apply (firstFingers_step types t (clampedFingerCount t)); [done|lia|exact L]|].
    intros t' S' _ L'. apply (linked_min _ (clampedFingerCount t) (clampedFingerCount t)); (done || lia).
  - destruct (Z.ltb_spec (lastFingerCount t) (clampedFingerCount t)).
    + apply Hok. destruct (hadLiftFinger t); [apply rematchFingers_step|apply addFingers_step]; (done || lia).
    + pose proof (mapped_touched types _ _ S (proj1 Hl) L) as Hn.
      destruct (removeFingers_step types t S) as (t' & E & S' & R & L'); [lia|]. exists t'. split; [done|]. split; [done|].
      split; [split; [exact (rest_last _ _ R)|exact (rest_clamped _ _ R)]|].
      apply (linked_min _ (clampedFingerCount t) (clampedFingerCount t)); (done || lia).
Qed.

(** ** Steps that leave the links alone *)

Lemma moved_ok types t f : shape types t -> finger_index (virtualFingerIndex f) -> exists p, moved f t = Some p.
Proof.
  intros S Hf. unfold moved. destruct (virtAt_Some types t _ S Hf) as (v & -> & [V1 V2 _] & _). cbn [mbind option_bind].
  destruct (newest_in _ _ V1) as [x ->], (newest_in _ _ V2) as [y ->]. cbn. eauto.
Qed.

Lemma imagineFingers_neutral types sz t : shape types t -> neutral types t (imagineFingers sz t).
Proof.
  intros S. unfold imagineFingers. destruct (hwAt_Some types t 0 S) as (f0 & E0 & F0 & _); [done|].
  destruct (hwAt_Some types t 1 S) as (f1 & E1 & F1 & _); [done|]. rewrite E0, E1. cbn [mbind option_bind].
  destruct (_ || _) eqn:E; [by apply step_here|]. apply orb_false_elim in E as [N0%Z.eqb_neq N1%Z.eqb_neq].
  assert (I0 : finger_index (virtualFingerIndex f0)) by (unfold hw_ok, finger_index in *; lia).
  assert (I1 : finger_index (virtualFingerIndex f1)) by (unfold hw_ok, finger_index in *; lia).
  pose proof (sh_clamped _ _ S) as Hc. destruct (Z.leb_spec 4 (clampedFingerCount t)).
  - destruct (upperFinger_ok _ _ S) as (u & i & -> & Hi & Eu). cbn [mbind option_bind].
    assert (Iu : finger_index (virtualFingerIndex u)) by (destruct Hi as [->| ->]; congruence).
    destruct (moved_ok types t u S Iu) as [[dx dy] ->]. cbn [mbind option_bind].
    apply neutral_fold; [lia|done|]. intros j t1 Hj S1 _ _. apply onHw_neutral; [done| |done]. unfold finger_index. lia.
  - destruct (moved_ok types t f0 S I0) as [[dx0 dy0] ->]. cbn [mbind option_bind].
    destruct (moved_ok types t f1 S I1) as [[dx1 dy1] ->]. cbn [mbind option_bind]. by apply onHw_neutral.
Qed.

Lemma followFinger_neutral types t i : shape types t -> finger_index i -> neutral types t (followFinger i t).
Proof.
  intros S Hi. unfold followFinger. destruct (hwAt_Some types t i S Hi) as (f & -> & Hf & _). cbn [mbind option_bind].
  destruct (_ || _) eqn:E; [by apply step_here|]. apply orb_false_elim in E as [N0%Z.ltb_ge N1%Z.leb_gt].
  assert (Hj : finger_index (virtualFingerIndex f)) by (unfold finger_index; lia).
  destruct (virtAt_Some types t _ S Hj) as (v & E & [V1 V2 V3] & _). rewrite E. cbn [mbind option_bind].
  destruct (filter_in 5 ltac:(done) _ (hw_x f) V1) as (ax & -> & Hx). cbn [mbind option_bind].
  destruct (filter_in 5 ltac:(done) _ (hw_y f) V2) as (ay & -> & Hy). cbn [mbind option_bind].
  apply onVirt_neutral; [done|done| |done]. intros v' [_ _ V3']. by split.
Qed.

Lemma lowest_index l i index y : index = -1 \/ 0 <= index < i -> 0 <= i ->
  lowest l i index y = -1 \/ 0 <= lowest l i index y < i + Z.of_nat (length l).
Proof.
  revert i index y. induction l as [|v l IH]; intros i index y Hx Hi; cbn [lowest length]; [lia|].
  destruct (_ && _); [destruct (IH (i + 1) i (average (y_avg v)))|destruct (IH (i + 1) index y)]; lia.
Qed.

Lemma findThumb_neutral types t : shape types t -> neutral types t (findThumb t).
Proof.
  intros S. pose proof (sh_types _ _ S) as HT. unfold findThumb. destruct (_ && _); [|by apply step_here].
  destruct (lowest_index (virtualFingerStates t) 0 (-1) INT_MAX) as [E|E]; [by left|done|rewrite E; cbn; by apply step_here|].
  rewrite (sh_virtual _ _ S) in E. generalize dependent (lowest (virtualFingerStates t) 0 (-1) INT_MAX). intros i Hi.
  assert (Hfi : finger_index i) by done. rewrite (proj2 (Z.eqb_neq i (-1))) by (destruct Hfi; lia).
  destruct (virtAt_Some types t i S Hfi) as (v & -> & [_ _ Hv] & _). cbn [mbind option_bind].
  apply neutral_bind; [by apply setFree_neutral|]. intros t1 S1 _ _.
  apply neutral_bind; [apply onVirt_neutral; [done|done| |done]; intros v'; apply setType_ok; unfold typeThumb in *; lia|].
  intros t2 S2 _ _. apply setFree_neutral; [done|]. unfold typeThumb in *. lia.
Qed.

Lemma mapped_same types m t t' : shape types t -> shape types t' -> same_links t t' -> mapped m t -> mapped m t'.
Proof.
  intros S S' L. unfold mapped. destruct (m <=? 4); [by apply (linked_same types)|].
  intros [n H]. exists n. by apply (linked_same types _ _ t).
Qed.

(** The only finger, which may be taken for none after a jump. *)
Lemma unpressJump_ok types t : shape types t -> lastFingerCount t = 1 -> mapped 1 t ->
  exists t', unpressJump t = Some t' /\ shape types t' /\ same_links t t' /\ lastFingerCount t' = 1.
Proof.
  intros S Hl L. unfold unpressJump. destruct (hwAt_Some types t 0 S) as (f & -> & _ & Ev); [done|]. cbn [mbind option_bind].
  pose proof (li_touched _ _ _ L 0 ltac:(lia)) as HT. rewrite Ev in HT. pose proof (tj_index _ _ _ S HT) as Hj.
  destruct (dist_ok types t 0 (virtualFingerIndex f) S) as (d & -> & _); [done|done|]. cbn [mbind option_bind].
  destruct (FINGER_DIST <? d); [|exists t; done].
  destruct (onVirt_neutral types t (virtualFingerIndex f)
    (fun v => {| (forget v) with vf_pressure := 0; vf_width := 0; vf_fingerType := typeUndefined |})) as (t1 & -> & S1 & R1 & L1);
    [done|done| |done|].
  - intros v Hv%forget_ok. destruct Hv as [V1 V2 V3]. split; cbn; try done. pose proof (sh_types _ _ S). unfold typeUndefined, typeThumb in *. lia.
  - cbn [mbind option_bind]. eexists. split; [done|]. split; [|split; [done|]].
    + destruct S1. by split.
    + cbn. by rewrite (rest_last _ _ R1).
Qed.

(** ** The whole *)

(** Between two packets. *)
Definition between types t : Prop := shape types t /\ mapped (lastFingerCount t) t.

Lemma between_intro types t m : shape types t -> m = lastFingerCount t -> mapped m t -> between types t.
Proof. by intros S ->. Qed.

Lemma renumber_rest types t : shape types t -> mapped (clampedFingerCount t) t ->
  exists t', (t ← fold_opt followFinger (seqZ 0 (clampedFingerCount t)) t; t ← findThumb t; Some (t, true)) = Some (t', true) /\
    shape types t' /\ same_count t t' /\ mapped (clampedFingerCount t) t'.
Proof.
  intros S L. pose proof (sh_clamped _ _ S) as Hc.
  destruct (neutral_fold types followFinger 0 (clampedFingerCount t) t) as (t1 & -> & S1 & R1 & L1); [lia|done| |].
  { intros i t1 Hi S1 _ _. apply followFinger_neutral; [done|]. unfold finger_index. lia. }
  cbn [mbind option_bind]. destruct (findThumb_neutral types t1 S1) as (t2 & -> & S2 & R2 & L2). cbn [mbind option_bind].
  exists t2. split; [done|]. split; [done|]. split; [split; [by apply rest_last; congruence|apply rest_clamped; congruence]|].
  apply (mapped_same types _ t); [done|done| |done]. by eapply same_links_trans.
Qed.

Lemma renumberFingers_ok types sz t : between types t ->
  exists t' send, renumberFingers sz t = Some (t', send) /\ shape types t' /\ lastFingerCount t' = lastFingerCount t /\
    mapped (if send then clampedFingerCount t' else lastFingerCount t') t'.
Proof.
  intros [S L]. unfold renumberFingers.
  (* three and more fingers that stay *)
  assert (H1 : exists t1, (if (clampedFingerCount t =? lastFingerCount t) && (3 <=? clampedFingerCount t) then imagineFingers sz t else Some t) = Some t1 /\
    shape types t1 /\ lastFingerCount t1 = lastFingerCount t /\ mapped (lastFingerCount t) t1).
  { destruct (_ && _); [|by exists t]. destruct (imagineFingers_neutral types sz t S) as (t1 & -> & S1 & R1 & L1).
    exists t1. split; [done|]. split; [done|]. split; [by apply rest_last|]. by apply (mapped_same types _ t). }
  destruct H1 as (t1 & -> & S1 & C1 & L1). rewrite <- C1 in L1 |- *. clear t S L C1. cbn [mbind option_bind].
  (* one finger that stays *)
  assert (H2 : exists t2, (if (clampedFingerCount t1 =? lastFingerCount t1) && (clampedFingerCount t1 =? 1) then unpressJump t1 else Some t1) = Some t2 /\
    shape types t2 /\ lastFingerCount t2 = lastFingerCount t1 /\ mapped (lastFingerCount t1) t2).
  { destruct (_ && _) eqn:E; [|by exists t1]. apply andb_prop in E as [E1%Z.eqb_eq E2%Z.eqb_eq]. rewrite E2 in E1. rewrite <- E1 in *.
    destruct (unpressJump_ok types t1 S1) as (t2 & -> & S2 & L2 & C2); [done|done|].
    exists t2. split; [done|]. split; [done|]. split; [done|]. by apply (mapped_same types _ t1). }
  destruct H2 as (t2 & -> & S2 & C2 & L2). rewrite <- C2 in L2 |- *. clear t1 S1 L1 C2. cbn [mbind option_bind].
  destruct (waitForAgm t2 && negb (wasSkipped t2)).
  { set (t3 := {| t2 with wasSkipped := true |}). assert (S3 : shape types t3) by (destruct S2; by split).
    exists t3, false. split; [done|]. split; [done|]. split; [done|]. by apply (mapped_same types (lastFingerCount t2) t2). }
  set (t3 := if waitForAgm t2 then _ else t2).
  assert (H3 : shape types t3 /\ same_links t2 t3 /\ same_count t2 t3).
  { subst t3. destruct (waitForAgm t2); [|done]. split; [destruct S2; by split|done]. }
  clearbody t3. destruct H3 as (S3 & K3 & C3 & _). rewrite <- C3. apply (mapped_same types _ _ _ S2 S3 K3) in L2. rewrite <- C3 in L2.
  clear t2 S2 K3 C3.
  assert (H4 : exists t4, (if clampedFingerCount t3 =? lastFingerCount t3 then Some t3 else changeFingers t3) = Some t4 /\
    shape types t4 /\ same_count t3 t4 /\ mapped (clampedFingerCount t3) t4).
  { destruct (Z.eqb_spec (clampedFingerCount t3) (lastFingerCount t3)) as [E|E].
    - exists t3. rewrite E. done.
    - apply (changeFingers_ok types); [done|congruence|done]. }
  destruct H4 as (t4 & -> & S4 & [C4 D4] & L4). cbn [mbind option_bind]. rewrite <- D4 in L4.
  destruct (renumber_rest types t4 S4 L4) as (t5 & -> & S5 & [C5 D5] & L5). exists t5, true. split; [done|]. split; [done|].
  split; [congruence|]. by rewrite D5.
Qed.
