(* ===== verification/SynapticsSafe.v ===== *)
(** * The Synaptics driver stays in its arrays

    The invariant of the driver, and that bytes and packets keep it.  A packet that is
    handled in the quiet time after a key leaves the fingers half assigned, so the work
    loop keeps the invariant outside it, or while the touchpad is ignored; there every
    packet is handled to its end, and the contacts that VoodooInput is told are one for each
    virtual finger that touches. *)
From S2P Require Import Prelude PS2Types RingBuffer RingSpec Bus Touch DriverWorld OSTypes KeyboardBench.
From S2P Require Import RingLoop Trackpad Synaptics SynapticsTouch SynapticsDriver Averages SynapticsLinks.
From S2P Require Import SynapticsFingers SynapticsRenumber.

(** * The invariant *)

(** ** The invariant *)

(** [n], [types]: VoodooInput's numbers; [o]: the nub. *)
Record syna_ok (n types : Z) (o : option Z) (d : ApplePS2SynapticsTouchPad) : Prop := {
  so_room : SYNAPTICS_MAX_FINGERS <= n;
  so_transducers : Z.of_nat (length (ev_transducers (inputEvent d))) = n;
  so_touches : between types (touches d);
  so_device : _device d = o;
  so_port : forall p, o = Some p -> 0 <= p < kPS2MuxMaxIdx;
  so_ring : aligned SYNA_RING kPacketLength (_ringBuffer d);
  so_count : 0 <= _packetByteCount d < kPacketLength }.

Lemma newTouch_between types : typeThumb < types -> between types (newTouch types).
Proof.
  intros Ht. assert (S : shape types (newTouch types)).
  { split; cbn [newTouch fingerStates virtualFingerStates freeFingerTypes lastFingerCount clampedFingerCount]; try done.
    - apply allTypes_length. unfold typeThumb in Ht. lia.
    - by apply Forall_replicate.
    - apply Forall_replicate. split; cbn; [apply newAverage_in; lia..|]. unfold typeThumb, typeUndefined in *. lia. }
  split; [done|]. cbn. split; [intros i Hi; lia|intros i i' Hi; lia|]. done.
Qed.

Lemma newSynaptics_ok n types : SYNAPTICS_MAX_FINGERS <= n -> typeThumb < types -> syna_ok n types None (newSynaptics n types).
Proof.
  intros Hn Ht. split; try done; cbn.
  - rewrite length_replicate. unfold SYNAPTICS_MAX_FINGERS in Hn. lia.
  - by apply newTouch_between.
Qed.

(** ** Bytes *)

(** The members an interrupt does not touch. *)
Definition syna_frame (d : ApplePS2SynapticsTouchPad) : ApplePS2SynapticsTouchPad :=
  {| d with _packetByteCount := 0; _ringBuffer := mkRing [] 0 0; _lastdata := 0 |}.

Lemma syna_frame_ok n types o d d' : syna_ok n types o d -> syna_frame d' = syna_frame d ->
  aligned SYNA_RING kPacketLength (_ringBuffer d') -> 0 <= _packetByteCount d' < kPacketLength -> syna_ok n types o d'.
Proof. intros [H1 H2 H3 H4 H5 H6 H7] Ef Ha Hc. destruct d, d'. injection Ef as; subst. by split. Qed.

Lemma syna_ring_facts : 0 < kPacketLength < SYNA_RING /\ SYNA_RING mod kPacketLength = 0.
Proof. done. Qed.

Lemma syna_put (rb : RingBuffer Z) i x : aligned SYNA_RING kPacketLength rb -> 0 <= i < kPacketLength ->
  exists rb', head_set i x rb = Some rb' /\ aligned SYNA_RING kPacketLength rb'.
Proof.
  intros Ha Hi. destruct syna_ring_facts as [Hp Hm].
  pose proof (head_set_spec SYNA_RING kPacketLength Hp ltac:(done) Hm _ _ x Ha Hi) as E. eexists. split; [exact E|].
  by destruct (head_set_aligned SYNA_RING kPacketLength _ _ _ _ Ha E).
Qed.

Lemma syna_advance (rb : RingBuffer Z) : aligned SYNA_RING kPacketLength rb -> aligned SYNA_RING kPacketLength (advanceHead SYNA_RING kPacketLength rb).
Proof. apply advanceHead_aligned; done. Qed.

Lemma marked_ok n types o d0 d reason : syna_ok n types o d0 -> syna_frame d = syna_frame d0 -> _ringBuffer d = _ringBuffer d0 ->
  exists d', marked reason d = Ok (d', kPS2IR_packetReady) /\ syna_ok n types o d' /\ syna_frame d' = syna_frame d0.
Proof.
  intros Hd Ef Er. unfold marked, storeMarker. rewrite Er.
  destruct (syna_put (_ringBuffer d0) 0 0x00 (so_ring _ _ _ _ Hd)) as (rb1 & -> & A1); [done|]. cbn [mbind option_bind].
  destruct (syna_put rb1 1 reason A1) as (rb2 & -> & A2); [done|]. cbn [mbind option_bind]. eexists. split; [done|]. split; [|done].
  apply (syna_frame_ok n types o d0); [done|done|by apply syna_advance|done].
Qed.

Lemma syna_interrupt_ok n types o d data : syna_ok n types o d ->
  exists d' r, interruptOccurred data d = Ok (d', r) /\ syna_ok n types o d' /\ syna_frame d' = syna_frame d.
Proof.
  intros Hd. pose proof (so_count _ _ _ _ Hd) as Hc. unfold interruptOccurred. cbv zeta.
  assert (HM : forall d1 reason, syna_frame d1 = syna_frame d -> _ringBuffer d1 = _ringBuffer d ->
    exists d' r, marked reason d1 = Ok (d', r) /\ syna_ok n types o d' /\ syna_frame d' = syna_frame d).
  { intros d1 reason E1 E2. destruct (marked_ok n types o d d1 reason Hd E1 E2) as (d' & E & H). by exists d', kPS2IR_packetReady. }
  destruct (_ && _); [by apply HM|]. destruct (_ && _); [by apply HM|]. destruct (_ && _); [by apply HM|].
  cbn [_packetByteCount _ringBuffer].
  destruct (syna_put (_ringBuffer d) (_packetByteCount d) (u8 data) (so_ring _ _ _ _ Hd)) as (rb & -> & A1); [done|].
  unfold kPacketLength in Hc. rewrite u32_small by lia.
  destruct (Z.eqb_spec kPacketLength (_packetByteCount d + 1)) as [_|Hne];
    do 2 eexists; (split; [done|]); (split; [|done]); apply (syna_frame_ok n types o d); try done.
  - by apply syna_advance.
  - cbn. unfold kPacketLength in *. lia.
Qed.

#[export] Instance syna_ok_keeps n types o : KeepsInv (syna_ok n types o).
Proof.
  split; [intros d p Hd E; apply (so_port _ _ _ _ Hd); rewrite <- (so_device _ _ _ _ Hd); exact E|]. intros d data Hd.
  cbn [drv_interrupt synaptics_driver drv_device drv_installed]. unfold interruptAction.
  destruct (_interruptHandlerInstalled d) eqn:Ei; [|by exists d, kPS2IR_packetBuffering].
  destruct (syna_interrupt_ok n types o d data Hd) as (d' & r & E & Hd' & Ef). exists d', r.
  split; [done|]. split; [done|]. split; [exact (f_equal _device Ef)|]. rewrite <- Ei.
  exact (f_equal _interruptHandlerInstalled Ef).
Qed.

#[export] Instance syna_ring_laws : PacketRingLaws ApplePS2SynapticsTouchPad.
Proof. by split. Qed.

(** ** Packets *)

(** A change of members that the links do not depend on. *)
Lemma between_same types t t' : between types t -> shape types t' -> same_links t t' -> lastFingerCount t' = lastFingerCount t ->
  between types t'.
Proof. intros [S L] S' K E. split; [done|]. rewrite E. by apply (mapped_same types _ t). Qed.

Lemma between_rest types t t' : between types t -> fingerStates t' = fingerStates t -> virtualFingerStates t' = virtualFingerStates t ->
  freeFingerTypes t' = freeFingerTypes t -> lastFingerCount t' = lastFingerCount t -> 0 <= clampedFingerCount t' <= SYNAPTICS_MAX_FINGERS ->
  between types t'.
Proof.
  intros Hb E1 E2 E3 E4 Hc. apply (between_same types t); [done| | |done].
  - destruct Hb as [[T1 H1 H2 H3 H4 H5 H6 H7] _]. split; rewrite ?E1, ?E2, ?E3, ?E4; done.
  - split; intros i; unfold vfi, tj, hwAt, virtAt; by rewrite ?E1, ?E2.
Qed.

(** The pressure that a normal packet of kind [w] shows. *)
Definition packetZ (w : Z) (buf : list Z) : Z := if 4 <=? w then nth 2 buf 0 else Z.land (nth 2 buf 0) 0xfe.

Lemma normalFinger_total buf w f : length buf = 6%nat ->
  exists f', normalFinger buf w f = Some f' /\ virtualFingerIndex f' = virtualFingerIndex f /\ hw_z f' = packetZ w buf.
Proof. intros (p0 & p1 & p2 & p3 & p4 & p5 & ->)%packet_bytes. unfold normalFinger. cbn. eexists. split; [done|]. done. Qed.

Lemma countFingers_range z_finger z w agm : 0 <= (countFingers z_finger z w agm).1.
Proof. unfold countFingers. repeat destruct (_ <? _) || destruct (_ <=? _) || destruct (_ =? _); cbn; lia. Qed.

Lemma normalPacket_step types zf buf w t : length buf = 6%nat -> shape types t ->
  exists t', normalPacket zf buf w t = Some t' /\ shape types t' /\ same_links t t' /\ lastFingerCount t' = lastFingerCount t /\
    clampedFingerCount t' = Z.min (countFingers zf (packetZ w buf) w (agmFingerCount t)).1 SYNAPTICS_MAX_FINGERS.
Proof.
  intros Hl S. unfold normalPacket. destruct (hwAt_Some types t 0 S) as (f & E0 & Hf & Ev); [done|].
  rewrite E0. cbn [mbind option_bind]. destruct (normalFinger_total buf w f Hl) as (f' & -> & Ef & Ez). cbn [mbind option_bind].
  rewrite <- Ez. pose proof (countFingers_range zf (hw_z f') w (agmFingerCount t)) as Hc. destruct (countFingers _ _ _ _) as [fingers agm].
  cbn [fst] in *. set (g := fun _ : synaptics_hw_state => if hw_z f' <? zf then {| f' with hw_w := 0 |} else f').
  destruct (onHw_step types t 0 g S) as (t1 & -> & S1 & R1 & A1 & A2 & s & Es & E1); [done| |].
  { intros s _. unfold g, hw_ok in *. rewrite <- Ef in Hf. by destruct (_ <? _). }
  cbn [mbind option_bind]. eexists. split; [done|]. split; [|split; [|split; [by apply (rest_last t t1)|done]]].
  - destruct S1. split; try done. cbn. unfold SYNAPTICS_MAX_FINGERS. lia.
  - split; [|exact A2]. intros i. destruct (Z.eq_dec i 0) as [->|Hne]; [|by apply A1].
    unfold vfi. rewrite E0. change (hwAt 0 _) with (hwAt 0 t1). rewrite E1. unfold g. by destruct (_ <? _).
Qed.

Lemma normalPacket_ok types zf buf w t : length buf = 6%nat -> between types t ->
  exists t', normalPacket zf buf w t = Some t' /\ between types t'.
Proof.
  intros Hl Hb. destruct (normalPacket_step types zf buf w t Hl (proj1 Hb)) as (t' & E & S & K & L & _).
  exists t'. split; [done|]. by apply (between_same types t).
Qed.

Lemma agmPacket_eq p0 p1 p2 p3 p4 p5 t : synaptics_parse_agm_packet [p0; p1; p2; p3; p4; p5] t =
  match Z.shiftr (Z.land p5 0x30) 4 with
  | 1 => onHw 1 (agmFinger p1 p2 p3 p4 p5) t
  | 2 => Some {| t with agmFingerCount := Z.land p1 0x0f |}
  | _ => Some t
  end.
Proof. done. Qed.

Lemma agmPacket_ok types buf t : length buf = 6%nat -> between types t ->
  exists t', synaptics_parse_agm_packet buf t = Some t' /\ between types t'.
Proof.
  intros (p0 & p1 & p2 & p3 & p4 & p5 & ->)%packet_bytes Hb. pose proof Hb as [S L]. rewrite agmPacket_eq.
  destruct (Z.shiftr (Z.land p5 0x30) 4) as [|[q|[q|q|]|]|q]; try (by exists t).
  - eexists. split; [done|]. apply (between_rest types t); try done. apply (sh_clamped _ _ S).
  - destruct (onHw_neutral types t 1 (agmFinger p1 p2 p3 p4 p5) S) as (t' & -> & S' & R' & K'); [done|done|].
    exists t'. split; [done|]. apply (between_same types t); try done. by apply rest_last.
Qed.

(** * The work loop *)

(** ** Contacts *)

Lemma synaTransducer_slot s timestamp fingers i x y v old : slotOf (synaTransducer s timestamp fingers i x y v old) = (i, timestamp, true).
Proof. unfold slotOf, synaTransducer. by destruct (forceTouch s fingers v). Qed.

(** The fingers of [l] that touch. *)
Definition touching (t : SynapticsTouch) (l : list Z) : list Z := filter (fun j => tj t j = true) l.

Lemma fillContact_ok types s timestamp fingers t i f : shape types t -> finger_index i ->
  0 <= fl_count f < Z.of_nat (length (fl_transducers f)) ->
  exists f', fillContact s timestamp fingers t i f = Some f' /\ length (fl_transducers f') = length (fl_transducers f) /\
    forall ids, fl_count f = Z.of_nat (length ids) -> shows timestamp ids (fl_transducers f) ->
      fl_count f' = Z.of_nat (length (ids ++ touching t [i])) /\ shows timestamp (ids ++ touching t [i]) (fl_transducers f').
Proof.
  intros S Hi Hc. unfold fillContact, touching. destruct (virtAt_Some types t i S Hi) as (v & -> & [_ _ Hv] & Ev).
  cbn [mbind option_bind]. rewrite filter_cons, filter_nil, Ev. destruct (vf_touch v); cbn [negb].
  2:{ rewrite decide_False by done. exists f. split; [done|]. split; [done|]. intros ids. rewrite app_nil_r. auto. }
  rewrite decide_True by done. destruct (arr_get_Some (fl_transducers f) (fl_count f) Hc) as (old & -> & _). cbn [mbind option_bind].
  destruct (placeContact v (fl_size f)) as [[[x y] sz] changed].
  destruct (arr_get_Some (freeFingerTypes t) (vf_fingerType v)) as (b & -> & _); [by rewrite (sh_free _ _ S)|]. cbn [mbind option_bind].
  rewrite arr_set_Some by done. cbn [mbind option_bind]. eexists. split; [done|]. cbn [fl_transducers fl_count].
  split; [apply length_insert|]. intros ids Ec Hs. rewrite Ec, Nat2Z.id. split; [rewrite length_app; cbn [length]; lia|].
  apply shows_add; [done|apply synaTransducer_slot|lia].
Qed.

Lemma fillContacts_ok types n d timestamp : shape types (touches d) -> SYNAPTICS_MAX_FINGERS <= n ->
  Z.of_nat (length (ev_transducers (inputEvent d))) = n ->
  exists f, fillContacts d timestamp = Some f /\ Z.of_nat (length (fl_transducers f)) = n /\
    fl_count f = Z.of_nat (length (touched (touches d))) /\ shows timestamp (touched (touches d)) (fl_transducers f).
Proof.
  intros S Hn Hl. unfold SYNAPTICS_MAX_FINGERS in Hn. unfold fillContacts.
  set (f0 := mkFill (ev_transducers (inputEvent d)) 0 (size d) false).
  destruct (fold_opt_seqZ (fillContact (settings d) timestamp (clampedFingerCount (touches d)) (touches d))
    (fun m f => Z.of_nat (length (fl_transducers f)) = n /\ fl_count f = Z.of_nat (length (touching (touches d) (seqZ 0 m))) /\
                shows timestamp (touching (touches d) (seqZ 0 m)) (fl_transducers f)) 0 5 f0) as (f & E & H).
  - done.
  - done.
  - intros i f Hi (Hlf & Hc & Hs). pose proof (length_filter (fun j => tj (touches d) j = true) (seqZ 0 i)) as Hle.
    fold (touching (touches d) (seqZ 0 i)) in Hle. rewrite length_seqZ in Hle.
    destruct (fillContact_ok types (settings d) timestamp (clampedFingerCount (touches d)) (touches d) i f S) as (f' & -> & El & Hf);
      [done|lia|]. exists f'. split; [done|]. split; [congruence|]. destruct (Hf _ Hc Hs) as [Hc' Hs'].
    assert (Es : touching (touches d) (seqZ 0 (i + 1)) = touching (touches d) (seqZ 0 i) ++ touching (touches d) [i]).
    { unfold touching. rewrite <- filter_app. f_equal. rewrite seqZ_app by lia. done. }
    by rewrite Es.
  - by exists f.
Qed.

Lemma touched_index t : Forall finger_index (touched t).
Proof. apply Forall_forall. intros j [_ Hj]%list_elem_of_filter. by apply elem_of_seqZ in Hj. Qed.

#[export] Instance syna_tells : Tells SynaEvent := fun e => match e with SynaTouchEvent _ e => contacts_ok SYNAPTICS_MAX_FINGERS e | _ => True end.

(** ** The driver at work *)

(** The members that a packet does not change. *)
Definition syna_still (d : ApplePS2SynapticsTouchPad) : ApplePS2SynapticsTouchPad :=
  {| d with inputEvent := mkInputEvent [] 0 0; size := mkSize 0 0 0 0 0 0 0 0; touches := newTouch 2;
            lastSentFingerCount := 0; _lastExtendedButtons := 0; _lastPassthruButtons := 0 |}.

Section Work.
Context {B : Type} `{HB : PS2Bus B} `{HL : !PS2BusLaws B} (abs : Z -> Z).
#[local] Abbreviation W := (DrvWorld B ApplePS2SynapticsTouchPad SynaEvent).
#[local] Abbreviation C := (M W).
#[local] Abbreviation ends_at := (ends_at (B := B) (E := SynaEvent)).

(** No time in [T] is in the quiet time, or packets are ignored. *)
Definition awake (T : Z -> Prop) (d : ApplePS2SynapticsTouchPad) : Prop :=
  ignoreall d = true \/ forall t, T t -> quiet abs (u64 t) d = false.

Context (T : Z -> Prop) (n types : Z) (o : option Z) (d0 : ApplePS2SynapticsTouchPad) (H0 : syna_ok n types o d0).

(** The driver while it handles a packet, with what is known of the fingers. *)
Definition busy (P : SynapticsTouch -> Prop) (d : ApplePS2SynapticsTouchPad) : Prop :=
  P (touches d) /\ Z.of_nat (length (ev_transducers (inputEvent d))) = n /\ syna_still d = syna_still d0.

#[local] Abbreviation at_work := (busy (between types)).

Lemma busy_mono (P Q : SynapticsTouch -> Prop) d : (forall t, P t -> Q t) -> busy P d -> busy Q d.
Proof. intros HPQ [H1 H2]. split; auto. Qed.

Lemma busy_ok d : at_work d -> syna_ok n types o d.
Proof.
  intros (H1 & H2 & Hf). destruct H0 as [K1 K2 K3 K4 K5 K6 K7]. destruct d, d0. unfold syna_still in Hf. cbn in *.
  injection Hf as; subst. by split.
Qed.

Lemma at_next {X Y} I J (m : C X) (k : X -> C Y) : ends I I m -> (forall x, ends_at T I J (k x)) -> ends_at T I J (m ≫= k).
Proof. intros Hm. apply ends_at_bind. by apply ends_at_weak. Qed.

Lemma at_look {X Y} I J (f : ApplePS2SynapticsTouchPad -> X) (k : X -> C Y) :
  (forall d, I d -> ends_at T I J (k (f d))) -> ends_at T I J (dget f ≫= k).
Proof. intros Hk. apply ends_at_dget_bind. intros d Hd. eapply ends_at_mono; [| |by apply Hk]; [by intros d' []|done]. Qed.

Lemma at_last {X} I J (m : C X) : ends I J m -> ends_at T I J m.
Proof. apply ends_at_weak. Qed.

Lemma ends_tellSyna I e : (forall c, may_tell (e c)) -> ends (B := B) I I (tellClient e).
Proof. intros He. unfold tellClient. apply ends_dget_bind. intros d _. apply ends_weak. destruct (voodooInputInstance d); [by apply ends_tell|apply ends_ret]. Qed.

Lemma ends_touch (P Q : SynapticsTouch -> Prop) f : (forall t, P t -> Q (f t)) -> ends (B := B) (E := SynaEvent) (busy P) (busy Q) (setTouches f).
Proof. intros Hf. apply ends_dset; [|done]. intros d (H1 & H2 & H3). split; [by apply Hf|by split]. Qed.

(** *** Contacts *)

(** The fingers are assigned, but [lastFingerCount] is not yet set. *)
Definition assigned_now (t : SynapticsTouch) : Prop := shape types t /\ mapped (clampedFingerCount t) t.

Lemma assigned_sent t : assigned_now t -> between types {| t with lastFingerCount := clampedFingerCount t |}.
Proof.
  intros [S L]. assert (S' : shape types {| t with lastFingerCount := clampedFingerCount t |}) by (destruct S; by split).
  split; [done|]. by apply (mapped_same types (clampedFingerCount t) t).
Qed.

Lemma ends_sendContacts timestamp : ends (B := B) (busy assigned_now) at_work (sendContacts timestamp).
Proof.
  unfold sendContacts. apply ends_dget_bind. intros d ([S L] & Hl & Hf). apply ends_weak.
  destruct (fillContacts_ok types n d timestamp S (so_room _ _ _ _ H0) Hl) as (f & E & Hlf & Hc & Hs).
  eapply ends_deref_bind; [exact E|]. cbv zeta.
  assert (He : contacts_ok SYNAPTICS_MAX_FINGERS (mkInputEvent (fl_transducers f) (u8 (fl_count f)) timestamp)).
  { exists (touched (touches d)). cbn. pose proof (touched_le (touches d)). rewrite u8_small by lia.
    split; [done|]. split; [apply touched_NoDup|]. split; [apply touched_index|done]. }
  apply (ends_bind _ (busy assigned_now)).
  { apply ends_dset; [|done]. intros d1 (K1 & _ & K3). by split. }
  intros _. apply (ends_bind _ (busy assigned_now)).
  { apply ends_when. intros _. apply ends_dget_bind. intros d1 _. apply ends_weak. by apply ends_tellSyna. }
  intros _. apply ends_dget_bind. intros d1 _. apply ends_weak. apply (ends_bind _ (busy assigned_now)).
  { apply ends_when. intros _. by apply ends_tellSyna. }
  intros _. apply ends_dset; [|done]. intros d2 (K1 & K2 & K3). split; [by apply assigned_sent|by split].
Qed.

Lemma quiet_still t d : syna_still d = syna_still d0 -> quiet abs t d = quiet abs t d0.
Proof. intros Hf. exact (f_equal (quiet abs t) Hf). Qed.

Lemma ends_sendSyna : (forall t, T t -> quiet abs (u64 t) d0 = false) ->
  ends_at T (busy assigned_now) at_work (sendTouchData abs).
Proof.
  intros Hq. unfold sendTouchData. apply ends_at_now_bind. intros t Ht. cbv zeta. apply at_look. intros d (_ & _ & Hf).
  rewrite (quiet_still _ _ Hf), Hq by done. apply at_look. intros d1 _. apply at_last.
  destruct (negb _); [by apply ends_touch, assigned_sent|apply ends_sendContacts].
Qed.

(** *** Packets *)

Lemma ends_normal buf w : (forall t, T t -> quiet abs (u64 t) d0 = false) -> length buf = 6%nat ->
  ends_at T at_work at_work (synaptics_parse_normal_packet abs buf w).
Proof.
  intros Hq Hl. unfold synaptics_parse_normal_packet. apply at_next.
  { apply ends_dstep. intros d (H1 & H2 & H3). destruct (normalPacket_ok types (z_finger (settings d)) buf w _ Hl H1) as (t' & -> & Ht).
    cbn [mbind option_bind]. eexists. split; [done|]. by split. }
  intros _. apply at_look. intros d (H1 & H2 & H3).
  destruct (renumberFingers_ok types (size d) (touches d) H1) as (t' & send & E & S & _ & L).
  apply (ends_at_deref_bind T _ _ _ _ _ E). destruct send.
  - eapply ends_at_bind; [apply at_last, (ends_touch _ assigned_now); by intros|]. intros _. by apply ends_sendSyna.
  - eapply ends_at_bind; [apply at_last, (ends_touch _ (between types)); by intros|]. intros _. apply at_last, ends_ret.
Qed.

Lemma ends_trackpoint P dx dy b : ends (B := B) (busy P) (busy P) (sendTrackpoint dx dy b).
Proof. unfold sendTrackpoint. apply (ends_bind _ (busy P)); [apply ends_gets|]. intros t. by apply ends_tellSyna. Qed.

Lemma ends_keepTouch P f : (forall d, touches (f d) = touches d /\ inputEvent (f d) = inputEvent d /\ syna_still (f d) = syna_still d /\
    _interruptHandlerInstalled (f d) = _interruptHandlerInstalled d) -> ends (B := B) (E := SynaEvent) (busy P) (busy P) (dset f).
Proof.
  intros Hf. apply ends_dset; [|apply Hf]. intros d (H1 & H2 & H3). destruct (Hf d) as (E1 & E2 & E3 & _). unfold busy.
  by rewrite E1, E2, E3.
Qed.

Lemma extBtns_total btns buf w last : length buf = 6%nat -> exists e, synaptics_parse_ext_btns btns buf w last = Some e.
Proof. intros (p0 & p1 & p2 & p3 & p4 & p5 & ->)%packet_bytes. unfold synaptics_parse_ext_btns. cbn [arr_get]. simpl. destruct (_ || _); eauto. Qed.

Lemma ends_parseButtons P buf w b0 b3 : length buf = 6%nat -> ends (B := B) (E := SynaEvent) (busy P) (busy P) (parseButtons buf w b0 b3).
Proof.
  intros Hl. unfold parseButtons. apply ends_dget_bind. intros d _. apply ends_weak. cbv zeta. destruct (_ <? _); [|apply ends_ret].
  destruct (extBtns_total (extended_btns (_extended_id d)) buf w (_lastExtendedButtons d) Hl) as [e E].
  eapply ends_deref_bind; [exact E|]. apply (ends_bind _ (busy P)); [by apply ends_keepTouch|]. intros _. apply ends_ret.
Qed.

Lemma ends_parse buf : (forall t, T t -> quiet abs (u64 t) d0 = false) -> length buf = 6%nat ->
  ends_at T at_work at_work (synaptics_parse_hw_state abs buf).
Proof.
  intros Hq Hl. pose proof Hl as (p0 & p1 & p2 & p3 & p4 & p5 & Eb)%packet_bytes. unfold synaptics_parse_hw_state.
  eapply ends_at_deref_bind; [rewrite Eb; reflexivity|]. eapply ends_at_deref_bind; [rewrite Eb; reflexivity|]. cbv zeta.
  apply at_look. intros d _. apply at_next.
  { apply ends_when. intros _. apply ends_touch. intros t Ht. apply (between_rest types t); try done. apply (sh_clamped _ _ (proj1 Ht)). }
  intros _. apply at_next; [by apply ends_parseButtons|]. intros buttons. destruct (_ =? SYNA_W_PASSTHRU).
  - apply at_last. unfold synaptics_parse_passthru. do 3 (eapply ends_deref_bind; [rewrite Eb; reflexivity|]). cbv zeta.
    apply (ends_bind _ at_work); [by apply ends_keepTouch|]. intros _. apply ends_trackpoint.
  - apply at_look. intros d1 _. eapply ends_at_bind; [|intros _; apply at_last, ends_trackpoint]. destruct (_ =? SYNA_W_EXTENDED).
    + apply at_last, ends_dstep. intros d2 (H1 & H2 & H3). destruct (agmPacket_ok types buf _ Hl H1) as (t' & -> & Ht).
      cbn [mbind option_bind]. eexists. split; [done|]. by split.
    + by apply ends_normal.
Qed.

Lemma ends_handleSyna packet : awake T d0 -> length packet = 6%nat -> ends_at T at_work at_work (handlePacket abs packet).
Proof.
  intros Ha Hl. pose proof Hl as (p0 & p1 & p2 & p3 & p4 & p5 & Eb)%packet_bytes. unfold handlePacket.
  eapply ends_at_deref_bind; [rewrite Eb; reflexivity|]. apply at_look. intros d (_ & _ & Hf). pose proof (f_equal ignoreall Hf) as Ei.
  cbn in Ei. rewrite Ei. destruct (ignoreall d0) eqn:E; [rewrite andb_false_r; apply at_last, ends_ret|].
  destruct Ha as [Ha|Hq]; [congruence|]. apply ends_at_when. intros _. by apply ends_parse.
Qed.

End Work.

(** ** The loop *)

(** A driver outside its quiet time, with its attached mice. *)
Definition syna_work (abs : Z -> Z) (T : Z -> Prop) (n types : Z) (o : option Z) (mice : option (list Z))
    (d : ApplePS2SynapticsTouchPad) : Prop :=
  syna_ok n types o d /\ attachedHIDPointerDevices d = mice /\ awake abs T d.

Lemma awake_still abs T d d' : syna_still d' = syna_still d -> awake abs T d -> awake abs T d'.
Proof.
  intros Hf [Ha|Hq]; [left; pose proof (f_equal ignoreall Hf) as E; cbn in E; congruence|right].
  intros t Ht. rewrite <- (Hq t Ht). exact (f_equal (quiet abs (u64 t)) Hf).
Qed.

Lemma syna_setRing n types o d rb : syna_ok n types o d -> aligned SYNA_RING kPacketLength rb -> syna_ok n types o (setRing rb d).
Proof. intros [H1 H2 H3 H4 H5 H6 H7] Ha. by split. Qed.

Lemma ends_packetReady_syna {B} `{HB : PS2Bus B} abs T n types o mice :
  ends_at (B := B) T (syna_work abs T n types o mice) (syna_work abs T n types o mice) (packetReady abs).
Proof.
  destruct syna_ring_facts as [Hp Hm]. unfold packetReady.
  apply (ends_at_drainRing T _ _ kPacketLength); [exact Hp|exact Hm|done|by intros d [Hd _]; apply (so_ring _ _ _ _ Hd)|..].
  - intros d (Hd & Hmi & Ha) Hc. split; [|by split]. unfold dropFirst. apply syna_setRing; [done|].
    apply advanceTail_aligned; [done..|apply (so_ring _ _ _ _ Hd)].
  - intros rb packet Hl _ _ w Ht [(Hd & Hmi & Ha) Hr].
    eapply total_mono; [apply (ends_handleSyna abs T n types o (self w) Hd packet Ha Hl w Ht)|].
    + split; [apply (so_touches _ _ _ _ Hd)|]. split; [apply (so_transducers _ _ _ _ Hd)|done].
    + cbn beta. intros x w' (Hb & Hrest). pose proof Hb as (_ & _ & Hf). split; [|exact Hrest]. split.
      * split; [by apply (busy_ok n types o (self w))|]. split; [|by apply (awake_still abs T (self w))].
        rewrite <- Hmi. exact (f_equal attachedHIDPointerDevices Hf).
      * rewrite <- Hr. exact (f_equal _ringBuffer Hf).
Qed.
