(* ===== verification/SynapticsRun.v ===== *)
(** * The Synaptics driver from probe to stop

    The commands, the queries and the life of the driver keep its invariant, whatever the
    touchpad answers; a scale of the pad that is not zero is in place before it divides. *)
From S2P Require Import Prelude PS2Types RingBuffer RingSpec Bus KeyboardBench.
From S2P Require Import DriverWorld Talk RingLoop OSTypes Touch Trackpad Averages.
From S2P Require Import Synaptics SynapticsTouch SynapticsDriver SynapticsLinks SynapticsFingers SynapticsRenumber SynapticsSafe.

(** ** Invariants with something more *)

(** [P] looks at members that no interrupt touches. *)
Definition syna_with n types o (P : ApplePS2SynapticsTouchPad -> Prop) (d : ApplePS2SynapticsTouchPad) : Prop :=
  syna_ok n types o d /\ P (syna_frame d).

#[export] Instance syna_with_keeps n types o P : KeepsInv (syna_with n types o P).
Proof.
  split; [intros d p [Hd _]; exact (inv_port d p Hd)|]. intros d data [Hd HP].
  cbn [drv_interrupt synaptics_driver drv_device drv_installed]. unfold interruptAction.
  destruct (_interruptHandlerInstalled d) eqn:Ei; [|by exists d, kPS2IR_packetBuffering].
  destruct (syna_interrupt_ok n types o d data Hd) as (d' & r & E & Hd' & Ef). exists d', r.
  split; [done|]. split; [split; [done|by rewrite Ef]|]. split; [exact (f_equal _device Ef)|]. rewrite <- Ei.
  exact (f_equal _interruptHandlerInstalled Ef).
Qed.

(** The members that [syna_ok] looks at. *)
Definition syna_core (d : ApplePS2SynapticsTouchPad) :=
  (inputEvent d, touches d, _device d, _ringBuffer d, _packetByteCount d).

Lemma syna_core_ok n types o d d' : syna_core d' = syna_core d -> syna_ok n types o d -> syna_ok n types o d'.
Proof. intros [= E1 E2 E3 E4 E5] [H1 H2 H3 H4 H5 H6 H7]. split; by rewrite ?E1, ?E2, ?E3, ?E4, ?E5. Qed.

Lemma with_set n types o (P Q : ApplePS2SynapticsTouchPad -> Prop) f : (forall d, syna_core (f d) = syna_core d) ->
  (forall d, P (syna_frame d) -> Q (syna_frame (f d))) -> forall d, syna_with n types o P d -> syna_with n types o Q (f d).
Proof. intros Hf HPQ d [Hd HP]. split; [by apply (syna_core_ok _ _ _ d)|auto]. Qed.

Lemma syna_setDevice n types o o' d : syna_ok n types o d -> (forall q, o' = Some q -> 0 <= q < kPS2MuxMaxIdx) ->
  syna_ok n types o' {| d with _device := o' |}.
Proof. intros [H1 H2 H3 H4 H5 H6 H7] Hq. by split. Qed.

(** ** Commands *)

Section Commands.
Context {B : Type} `{HB : PS2Bus B} `{HL : !PS2BusLaws B}.
#[local] Abbreviation W := (DrvWorld B ApplePS2SynapticsTouchPad SynaEvent).
#[local] Abbreviation C := (M W).
#[local] Abbreviation asks := (asks (B := B) (E := SynaEvent)).
Context (I : ApplePS2SynapticsTouchPad -> Prop) `{!KeepsInv I} (p : Z).
Context (Hp : 0 <= p < kPS2MuxMaxIdx) (HI : forall d, I d -> _device d = Some p).

Lemma asks_submitSyna cs : Z.of_nat (length cs) < 256 -> asks I (answered cs) (submitSyna cs).
Proof. by apply (asks_request I p). Qed.

Lemma asks_threeBytes cs r k i : answered cs r -> 0 <= i -> i + 2 < Z.of_nat (length cs) -> asks I (fun _ => True) (threeBytes r k i).
Proof.
  intros Ha H0 Hi. unfold threeBytes. destruct (completed r k); [|by apply asks_ret].
  do 3 (eapply asks_seq; [apply (asks_result I cs); [done|lia]|intros ?]). by apply asks_ret.
Qed.

Lemma asks_getTouchPadData sel : asks I (fun _ => True) (getTouchPadData sel).
Proof.
  unfold getTouchPadData. eapply asks_bind; [by apply asks_submitSyna|]. intros r Hr. by eapply asks_threeBytes.
Qed.

Lemma asks_getTouchPadStatus : asks I (fun _ => True) getTouchPadStatus.
Proof. unfold getTouchPadStatus. eapply asks_bind; [by apply asks_submitSyna|]. intros r Hr. by eapply asks_threeBytes. Qed.

(** Commands whose answer does not matter. *)
Lemma asks_submit_then {X} cs (k : PS2Request -> C X) : Z.of_nat (length cs) < 256 -> (forall r, asks I (fun _ => True) (k r)) ->
  asks I (fun _ => True) (r ← submitSyna cs; k r).
Proof. intros Hc Hk. eapply asks_bind; [by apply asks_submitSyna|]. by intros r _. Qed.

Lemma asks_setTouchPadEnable_syna b : asks I (fun _ => True) (setTouchPadEnable b).
Proof. apply asks_submit_then; [by destruct b|]. intros r. by apply asks_ret. Qed.

Lemma asks_setModeByte sleep : asks I (fun _ => True) (setModeByte sleep).
Proof.
  unfold setModeByte. apply asks_dget. intros d _. destruct (_device d); [|by apply asks_ret]. apply asks_dget. intros d1 _.
  apply asks_submit_then; [done|]. intros r. by apply asks_ret.
Qed.

Lemma asks_gestureMode : asks I (fun _ => True) enterAdvancedGestureMode.
Proof.
  unfold enterAdvancedGestureMode. apply asks_dget. intros d _. destruct (_device d); [|by apply asks_ret].
  apply asks_seq; [apply asks_setModeByte|intros _]. apply asks_submit_then; [done|]. intros r. by apply asks_ret.
Qed.

Lemma asks_updateLED : asks I (fun _ => True) updateTouchpadLED.
Proof.
  unfold updateTouchpadLED. apply asks_dget. intros d _. apply asks_seq.
  - apply asks_when. intros _. apply asks_seq; [|intros _; by apply asks_ret]. apply asks_submit_then; [done|]. intros r. by apply asks_ret.
  - intros _. apply asks_dget. intros d1 _. apply asks_dget. intros d2 _. apply asks_when. intros _. by apply asks_tell.
Qed.

Lemma asks_hardwareReset : asks I (fun _ => True) doHardwareReset.
Proof. unfold doHardwareReset. apply asks_dget. intros d _. apply asks_submit_then; [done|]. intros r. by apply asks_ret. Qed.

Lemma asks_wakedelay : asks I (fun _ => True) waitWakedelay.
Proof. unfold waitWakedelay. apply asks_dget. intros d _. apply asks_sleep; exact _. Qed.

End Commands.

(** ** Queries *)

Section Queries.
Context {B : Type} `{HB : PS2Bus B} `{HL : !PS2BusLaws B} (n types p : Z) (Hp : 0 <= p < kPS2MuxMaxIdx).
#[local] Abbreviation W := (DrvWorld B ApplePS2SynapticsTouchPad SynaEvent).
#[local] Abbreviation C := (M W).
#[local] Abbreviation asks := (asks (B := B) (E := SynaEvent)).
#[local] Abbreviation leads := (leads (B := B) (E := SynaEvent)).
#[local] Abbreviation at_ P := (syna_with n types (Some p) P).

Lemma with_device P d : at_ P d -> _device d = Some p.
Proof. intros [Hd _]. apply (so_device _ _ _ _ Hd). Qed.

Lemma asks_with P f : (forall d, syna_core (f d) = syna_core d /\ _interruptHandlerInstalled (f d) = _interruptHandlerInstalled d) ->
  (forall d, P (syna_frame d) -> P (syna_frame (f d))) -> asks (at_ P) (fun _ => True) (dset f).
Proof. intros Hf HP. apply asks_dset; [|apply Hf]. apply with_set; [apply Hf|exact HP]. Qed.

(** A query whose answer and absence are stored outside the core. *)
Definition stores (f : ApplePS2SynapticsTouchPad -> ApplePS2SynapticsTouchPad) : Prop :=
  forall d, syna_core (f d) = syna_core d /\ _interruptHandlerInstalled (f d) = _interruptHandlerInstalled d.

Lemma asks_queryInto P sel f fails : (forall a b c, stores (f a b c)) -> stores fails ->
  (forall a b c d, P (syna_frame d) -> P (syna_frame (f a b c d))) -> (forall d, P (syna_frame d) -> P (syna_frame (fails d))) ->
  asks (at_ P) (fun _ => True) (queryInto sel f fails).
Proof.
  intros Hf Hn HP HQ. unfold queryInto. eapply asks_seq; [apply (asks_getTouchPadData _ p Hp (with_device P))|].
  intros [[[a b] c]|].
  - apply asks_seq; [apply asks_with; [apply Hf|apply HP]|intros _; by apply asks_ret].
  - apply asks_seq; [apply asks_with; [apply Hn|apply HQ]|intros _; by apply asks_ret].
Qed.

Definition anything (d : ApplePS2SynapticsTouchPad) : Prop := True.

(** A scale that one can divide by. *)
Definition scaled (d : ApplePS2SynapticsTouchPad) : Prop := xupmm (_scale d) <> 0 /\ yupmm (_scale d) <> 0.

Lemma leads_queryScale l : leads (at_ anything) l (fun _ => at_ scaled) l queryScale.
Proof.
  unfold queryScale, queryInto. eapply (talk_leads_bind _ _ (fun _ => at_ scaled)); [|intros x; apply leads_ret; by intros].
  eapply leads_asks; [apply (asks_getTouchPadData _ p Hp (with_device anything))|]. intros [[[a b] c]|] _.
  - eapply (talk_leads_bind _ _ (fun _ => at_ scaled)); [|intros []; by apply leads_ret]. apply leads_dset; [|done].
    apply with_set; [done|]. intros d _. unfold scaled. cbn. destruct (Z.eqb_spec a 0); [done|]. by destruct (Z.eqb_spec c 0).
  - eapply (talk_leads_bind _ _ (fun _ => at_ scaled)); [|intros []; by apply leads_ret]. apply leads_dset; [|done]. by apply with_set.
Qed.

Lemma asks_noted P k v : asks (at_ P) (fun _ => True) (noted k v).
Proof. by apply asks_tell. Qed.

Lemma asks_queryModel P : asks (at_ P) (fun _ => True) queryModel.
Proof.
  unfold queryModel. eapply asks_seq; [apply (asks_getTouchPadData _ p Hp (with_device P))|].
  intros [[[a b] c]|]; [|by apply asks_ret]. apply asks_dget. intros d _. cbv zeta.
  apply asks_seq; [apply asks_when; intros _; apply asks_noted|intros _; by apply asks_ret].
Qed.

Lemma asks_queryExtendedId : asks (at_ anything) (fun _ => True) queryExtendedId.
Proof.
  unfold queryExtendedId. apply asks_dget. intros d _. apply asks_when. intros _.
  apply asks_seq; [by apply asks_queryInto|intros _; by apply asks_ret].
Qed.

Lemma asks_queryContinued : asks (at_ scaled) (fun _ => True) queryContinued.
Proof.
  unfold queryContinued. apply asks_dget. intros d _. destruct (_ <=? _); [|by apply asks_ret].
  apply asks_seq; [by apply asks_queryInto|]. intros []; [|by apply asks_ret]. apply asks_dget. intros d1 _.
  apply asks_seq; [apply asks_when; intros _; apply asks_noted|intros _; by apply asks_ret].
Qed.

Lemma asks_queryLogic P ask sel : asks (at_ P) (fun _ => True) (queryLogic ask sel).
Proof.
  unfold queryLogic. destruct ask; [|by apply asks_ret]. eapply asks_seq; [apply (asks_getTouchPadData _ p Hp (with_device P))|].
  intros r. by apply asks_ret.
Qed.

Lemma physicalSize_total max min res : res <> 0 -> exists x, physicalSize max min res = Some x.
Proof. intros Hr. unfold physicalSize. rewrite (proj2 (Z.eqb_neq _ _) Hr). eauto. Qed.

Lemma asks_publishSize b : asks (at_ scaled) (fun _ => True) (publishSize b).
Proof.
  unfold publishSize. apply asks_dget. intros d [_ [Hx Hy]]. cbv zeta.
  destruct (physicalSize_total (logical_max_x (size d)) (if b then logical_min_x (size d) else 0) _ Hx) as [px Ex].
  destruct (physicalSize_total (logical_max_y (size d)) (if b then logical_min_y (size d) else 0) _ Hy) as [py Ey].
  do 2 (apply asks_seq; [apply asks_noted|intros _]). eapply asks_deref; [exact Ex|]. eapply asks_deref; [exact Ey|].
  apply asks_seq; [by apply asks_with|intros _]. do 2 (apply asks_seq; [apply asks_noted|intros _]). apply asks_noted.
Qed.

Lemma leads_queryCapabilities l : leads (at_ anything) l (fun _ => at_ scaled) l queryCapabilities.
Proof.
  unfold queryCapabilities. eapply leads_asks; [by apply asks_queryInto|]. intros _ _.
  eapply leads_asks; [apply asks_queryModel|]. intros model _. eapply leads_asks.
  { apply asks_when. intros _. apply asks_seq; [by apply asks_queryInto|intros _; by apply asks_ret]. }
  intros _ _. eapply leads_asks; [apply asks_queryExtendedId|]. intros _ _.
  eapply talk_leads_bind; [apply leads_queryScale|]. intros u. cbv beta.
  eapply leads_asks; [apply asks_queryContinued|]. intros [rmin rmax] _. cbv beta iota.
  eapply leads_asks; [apply asks_queryLogic|]. intros high _. eapply leads_asks; [apply asks_queryLogic|]. intros low _.
  eapply leads_asks; [by apply asks_with|]. intros _ _. eapply leads_asks; [apply asks_publishSize|]. intros _ _.
  eapply leads_asks; [unfold setTrackpointProperties; apply asks_dget; intros d _; by apply asks_tell|]. intros _ _.
  apply asks_leads, asks_noted.
Qed.

End Queries.

(** ** Settings, messages, mice *)

Section Life.
Context {B : Type} `{HB : PS2Bus B} `{HL : !PS2BusLaws B} (bootArg : string -> bool) (n types p : Z) (Hp : 0 <= p < kPS2MuxMaxIdx).
#[local] Abbreviation W := (DrvWorld B ApplePS2SynapticsTouchPad SynaEvent).
#[local] Abbreviation C := (M W).
#[local] Abbreviation asks := (asks (B := B) (E := SynaEvent)).
#[local] Abbreviation leads := (leads (B := B) (E := SynaEvent)).
#[local] Abbreviation at_ P := (syna_with n types (Some p) P).

(** What the settings, and whether packets are ignored, do not matter to. *)
Definition settled (P : ApplePS2SynapticsTouchPad -> Prop) : Prop :=
  forall d s g, P d -> P {| d with settings := s; ignoreall := g |}.

Lemma asks_tellSyna P e : (forall c, may_tell (e c)) -> asks (at_ P) (fun _ => True) (tellClient e).
Proof.
  intros He. unfold tellClient. apply asks_dget. intros d _. destruct (voodooInputInstance d); [by apply asks_tell|by apply asks_ret].
Qed.

Lemma asks_led P : asks (at_ P) (fun _ => True) updateTouchpadLED.
Proof. apply (asks_updateLED _ p Hp (with_device n types p P)). Qed.

Lemma settled_core P (f : SynapticsSettings -> SynapticsSettings) d : settled P -> at_ P d -> at_ P (onSettings f d).
Proof.
  intros HP [Hd H]. split; [by apply (syna_core_ok _ _ _ d)|]. destruct d. cbn in *. exact (HP _ _ _ H).
Qed.

Lemma asks_setPropertiesGated P config : settled P -> asks (at_ P) (fun _ => True) (setPropertiesGated bootArg config).
Proof.
  intros HP. destruct config as [c|]; [|by apply asks_ret]. cbn [setPropertiesGated].
  assert (HS : forall f d, at_ P d -> at_ P (onSettings f d)) by (intros f d; by apply settled_core).
  apply asks_seq; [apply asks_ends, ends_each; intros [name f]; by apply ends_readInt64|intros _].
  apply asks_seq; [apply asks_ends, ends_each; intros [name f]; by apply ends_readBool|intros _].
  apply asks_seq; [apply asks_ends, ends_each; intros [name f]; by apply ends_readInt32|intros _].
  apply asks_seq; [apply asks_ends, ends_each; intros [name f]; by apply ends_readLowbit|intros _].
  apply asks_dget. intros d _. apply asks_seq.
  { apply asks_when. intros _. apply asks_seq; [|intros _; apply asks_led]. apply asks_dset; [|done].
    intros d1 [Hd H]. split; [by apply (syna_core_ok _ _ _ d1)|]. exact (HP (syna_frame d1) (settings d1) _ H). }
  intros _. apply asks_seq; [apply asks_dset; [apply HS|done]|intros _].
  apply asks_seq; [unfold setTrackpointProperties; apply asks_dget; intros d1 _; by apply asks_tell|intros _]. by apply asks_tellSyna.
Qed.

Lemma asks_setProperties P props : settled P -> asks (at_ P) (fun _ => True) (setProperties bootArg props).
Proof.
  intros HP. unfold setProperties. apply asks_dget. intros d _. destruct (asDictionary props); [|by apply asks_ret].
  apply asks_when. intros _. by apply asks_setPropertiesGated.
Qed.

Lemma asks_injectSyna P a b c : asks (at_ P) (fun _ => True) (injectVersionDependentProperties a b c).
Proof.
  unfold injectVersionDependentProperties. destruct (versionProperties a b c); [|by apply asks_ret].
  apply asks_each. intros [k o]. by apply asks_tell.
Qed.

(** *** Probe *)

Definition syna_off (d : ApplePS2SynapticsTouchPad) : Prop := syna_ok n types None d.

#[export] Instance syna_off_keeps : KeepsInv syna_off := syna_ok_keeps n types None.

(** Accepted, the driver forgets its nub; otherwise it may keep it. *)
Definition syna_probed (r : ProbeResult) (d : ApplePS2SynapticsTouchPad) : Prop :=
  match r with ThisDriver => syna_off d | _ => exists o, syna_ok n types o d end.

Lemma with_none P d : at_ P d -> syna_off {| d with _device := None |}.
Proof. intros [Hd _]. by apply (syna_setDevice n types (Some p)). Qed.

Lemma leads_probe_syna a b config companion : leads syna_off false syna_probed false (probe bootArg a b p config companion).
Proof.
  assert (Hfail : forall P l r, r <> ThisDriver -> leads (at_ P) l syna_probed l (ret r)).
  { intros P l r Hr. apply leads_ret. intros d [Hd _]. by destruct r; [exists (Some p)|done|exists (Some p)]. }
  unfold probe. eapply (leads_moves _ _ (at_ anything) false).
  { apply moves_dset; [|done]. intros d Hd. split; [|done]. apply (syna_setDevice n types None); [done|by intros q [= <-]]. }
  intros _. eapply (leads_moves _ _ (at_ anything) true); [apply moves_lock; exact _|]. intros _.
  eapply (leads_moves _ _ (at_ anything) false); [apply moves_unlock; exact _|]. intros _.
  destruct (bool_decide _).
  { eapply (leads_moves _ _ syna_off false); [apply moves_dset; [apply with_none|done]|]. intros _.
    apply leads_ret. intros d Hd. by exists None. }
  eapply (leads_asks _ (fun _ => True)).
  { destruct config as [c|]; [|by apply asks_ret]. apply asks_seq; [by apply asks_setPropertiesGated|intros _; apply asks_injectSyna]. }
  intros _ _. eapply leads_asks; [by apply asks_queryInto|]. intros found _. apply leads_dget. intros d _.
  destruct (_ || _); [by apply Hfail|]. eapply talk_leads_bind; [by apply leads_queryCapabilities|]. intros u. cbv beta.
  apply leads_dget. intros d1 _. destruct (_ && _); [apply leads_dget; intros d2 _; by apply Hfail|].
  eapply (leads_moves _ _ syna_off false); [apply moves_dset; [apply with_none|done]|]. intros _. by apply leads_ret.
Qed.

(** *** At work *)

(** A started driver has a set for the mice. *)
Definition has_mice (d : ApplePS2SynapticsTouchPad) : Prop := attachedHIDPointerDevices d <> None.
#[local] Abbreviation on := (at_ has_mice).

Lemma on_settled : settled has_mice.
Proof. by intros d s g. Qed.

(** *** Messages *)

Lemma asks_keepSyna f : stores f -> (forall d, attachedHIDPointerDevices (f d) = attachedHIDPointerDevices d) ->
  asks on (fun _ => True) (dset f).
Proof. intros Hf Hm. apply asks_with; [exact Hf|]. intros d. unfold has_mice. cbn. by rewrite Hm. Qed.

Lemma asks_initTouchPad : asks on (fun _ => True) initTouchPad.
Proof.
  unfold initTouchPad. apply asks_seq.
  { apply asks_dset; [|done]. intros d [[H1 H2 H3 H4 H5 H6 H7] Hm]. split; [|done]. split; try done; cbn.
    - apply (between_rest types (touches d)); try done. apply (sh_clamped _ _ (proj1 H3)).
    - pose proof (al_ring _ _ _ H6) as [Hl _ _]. split; [split; cbn; unfold SYNA_RING, kPacketLength in *; lia|done..]. }
  intros _. apply asks_seq; [apply (asks_gestureMode _ p Hp (with_device n types p _))|intros _]. apply asks_led.
Qed.

Lemma asks_enable b : asks on (fun _ => True) (setTouchPadEnable b).
Proof. apply (asks_setTouchPadEnable_syna _ p Hp (with_device n types p _)). Qed.

Lemma asks_keyPressed pInfo : asks on (fun _ => True) (dstep (keyPressed pInfo)).
Proof.
  apply asks_ends, ends_dstep. intros d [Hd Hm]. unfold keyPressed. cbv zeta. destruct (modifierKey (adbKeyCode pInfo)) eqn:E.
  - destruct (masks_total _ E) as [m ->]. cbn [mbind option_bind]. eexists. split; [done|].
    destruct (goingDown pInfo); (split; [|done]); (split; [by apply (syna_core_ok _ _ _ d)|exact Hm]).
  - eexists. split; [done|]. split; [|done]. split; [by apply (syna_core_ok _ _ _ d)|exact Hm].
Qed.

Lemma asks_messageSyna m : asks on (fun _ => True) (message m).
Proof.
  destruct m as [|enable|reqCode|pInfo|]; cbn [message].
  - apply asks_dget. intros d _. by apply asks_ret.
  - apply asks_dget. intros d _. apply asks_seq; [|intros _; by apply asks_ret]. apply asks_when. intros _.
    apply asks_seq; [by apply asks_keepSyna|intros _; apply asks_led].
  - apply asks_seq; [|intros _; by apply asks_ret]. apply asks_when. intros _. apply asks_seq; [by apply asks_keepSyna|intros _].
    apply asks_seq; [apply asks_initTouchPad|intros _]. apply asks_seq; [apply asks_wakedelay; exact _|intros _].
    apply asks_seq; [apply asks_enable|intros _]. apply asks_led.
  - apply asks_seq; [apply asks_keyPressed|intros _; by apply asks_ret].
  - by apply asks_ret.
Qed.

Lemma asks_powerSyna what : asks on (fun _ => True) (setDevicePowerState what).
Proof.
  assert (Hmode : forall s, asks on (fun _ => True) (setModeByte s ;; ret tt)).
  { intros s. apply asks_seq; [apply (asks_setModeByte _ p Hp (with_device n types p _))|intros _; by apply asks_ret]. }
  assert (Hwait : asks on (fun _ => True) waitWakedelay) by (apply asks_wakedelay; exact _).
  unfold setDevicePowerState. apply asks_dget. intros d _. cbv zeta. destruct (_ =? _).
  - apply asks_seq; [apply asks_enable|intros _]. apply asks_when. intros _. apply Hmode.
  - apply asks_when. intros _. apply asks_seq; [apply asks_when; intros _; apply asks_seq; [exact Hwait|intros _; apply Hmode]|intros _].
    apply asks_seq; [exact Hwait|intros _]. apply asks_seq; [apply asks_initTouchPad|intros _].
    apply asks_seq; [exact Hwait|intros _]. apply asks_enable.
Qed.

Lemma asks_noticeMice e l : asks on (fun _ => True) (noticeMice e l).
Proof.
  unfold noticeMice. apply asks_dget. intros d _. apply asks_when. intros _. apply asks_seq; [by apply asks_keepSyna|intros _; apply asks_led].
Qed.

Lemma asks_hidSyna bt e service : asks on (fun _ => True) (notificationHIDAttachedHandler bt e service).
Proof.
  unfold notificationHIDAttachedHandler, notificationHIDAttachedHandlerGated. apply asks_dget. intros d _.
  apply asks_when. intros _. apply asks_dget. intros d1 _. apply asks_when. intros _. apply asks_dget. intros d2 [Hd2 Hm].
  unfold has_mice in Hm. cbn in Hm. destruct (attachedHIDPointerDevices d2) as [l|]; [|done]. eapply asks_deref; [reflexivity|].
  cbv zeta. apply asks_seq; [|intros _; apply asks_noticeMice]. by apply asks_with.
Qed.

Lemma asks_openSyna c b : asks on (fun _ => True) (handleOpen c b).
Proof. destruct c; [|by apply asks_ret]. destruct b; [|by apply asks_ret]. apply asks_seq; [by apply asks_keepSyna|intros _; by apply asks_ret]. Qed.

Lemma asks_closeSyna c : asks on (fun _ => True) (handleClose c).
Proof. apply asks_keepSyna; [intros d|intros d]; by case_bool_decide. Qed.

(** *** From start to stop *)

Lemma leads_startDevice_syna : leads (at_ anything) false (fun _ => on) false startDevice.
Proof.
  unfold startDevice. eapply (leads_moves _ _ (at_ anything) true); [apply moves_lock; exact _|]. intros _.
  apply leads_dget. intros d _. eapply (leads_asks _ (fun _ => True)).
  { apply asks_when. intros _. apply (asks_hardwareReset _ p Hp (with_device n types p _)). }
  intros _ _. eapply (leads_moves _ _ on true).
  { apply moves_dset; [|done]. by apply with_set. }
  intros _. eapply leads_asks; [apply (asks_gestureMode _ p Hp (with_device n types p _))|]. intros _ _.
  eapply (leads_moves _ _ on true).
  { apply (moves_install on). by apply with_set. }
  intros _. apply (moves_unlock on).
Qed.

Definition syna_started (ok : bool) (d : ApplePS2SynapticsTouchPad) : Prop := if ok then on d else syna_off d.

Lemma leads_start_syna workLoop gate acpi : leads syna_off false syna_started false (start p workLoop gate acpi).
Proof.
  unfold start. eapply (leads_moves _ _ (at_ anything) false).
  { apply moves_dset; [|done]. intros d Hd. split; [|done]. apply (syna_setDevice n types None); [done|by intros q [= <-]]. }
  intros _. apply leads_dget. intros d _. eapply (leads_moves _ _ (at_ anything) false); [by apply moves_tell|]. intros _.
  eapply (leads_moves _ _ (at_ anything) false); [apply moves_dset; [by apply with_set|done]|]. intros _. destruct (_ || _).
  - eapply (leads_moves _ _ syna_off false); [apply moves_dset; [apply with_none|done]|]. intros _. by apply leads_ret.
  - eapply talk_leads_bind; [apply leads_startDevice_syna|]. intros u. cbv beta.
    eapply leads_asks; [apply moves_asks; intros l; apply moves_steady; [exact _|apply law_installPower]|]. intros _ _.
    eapply leads_asks; [by apply asks_keepSyna|]. intros _ _. eapply leads_asks; [apply asks_led|]. intros _ _.
    eapply (leads_asks _ (fun _ => True)); [by apply asks_tell|]. intros _ _. by apply leads_ret.
Qed.

Definition syna_stopped (d : ApplePS2SynapticsTouchPad) : Prop := _device d = None /\ _interruptHandlerInstalled d = false.

(** A driver that takes no more bytes. *)
Definition syna_deaf (d : ApplePS2SynapticsTouchPad) : Prop := at_ anything d /\ _interruptHandlerInstalled d = false.

Lemma syna_deaf_keeps : KeepsInv syna_deaf.
Proof.
  split; [intros d q [Hd _]; exact (inv_port d q Hd)|]. intros d data [Hd Hi].
  destruct (inv_interrupt d data Hd) as (d' & r & E & Hd' & Ed & Ei). exists d', r.
  split; [done|]. split; [split; [done|]|done]. cbn [drv_installed synaptics_driver] in Ei. congruence.
Qed.

Lemma moves_lastSteps_syna : moves (B := B) (E := SynaEvent) syna_deaf false syna_stopped false
  (q ← dget _powerControlHandlerInstalled;
   when q (onController bus_uninstallPower ;; dset (fun d => {| d with _powerControlHandlerInstalled := false |})) ;;
   dset (fun d => {| d with _device := None; _provider := false |})).
Proof.
  pose proof syna_deaf_keeps as HK. apply moves_dget_bind. intros d _. apply moves_weak.
  apply (drv_moves_bind _ _ syna_deaf false); [|intros _; apply moves_dset; [by intros d1 [_ Hi]|done]].
  apply drv_moves_when. intros _. apply (drv_moves_bind _ _ syna_deaf false); [apply moves_steady; [exact _|apply law_uninstallPower]|].
  intros _. apply moves_dset; [|done]. intros d1 [Hd Hi]. split; [|done]. revert d1 Hd Hi.
  intros d1 [Hd _] _. split; [by apply (syna_core_ok _ _ _ d1)|done].
Qed.

Lemma moves_syna_stop workLoop : moves (B := B) (E := SynaEvent) on false syna_stopped false (stop workLoop).
Proof.
  assert (Hset : forall f, stores f -> asks (at_ anything) (fun _ => True) (dset f)) by (intros f Hf; by apply asks_with).
  unfold stop. apply (drv_moves_bind _ _ (at_ anything) false).
  { apply moves_ends. unfold unregisterHIDPointerNotifications. apply ends_dget_bind. intros d [Hd Hm]. apply ends_weak.
    unfold has_mice in Hm. cbn in Hm. destruct (attachedHIDPointerDevices d) as [l|]; [|done].
    eapply ends_deref_bind; [reflexivity|]. apply ends_dset; [|done]. by apply with_set. }
  intros _. apply (drv_moves_bind _ _ (at_ anything) false); [eapply asks_moves; by apply Hset|]. intros _.
  apply (drv_moves_bind _ _ (at_ anything) false); [eapply asks_moves, asks_led|]. intros _.
  apply (drv_moves_bind _ _ (at_ anything) false).
  { eapply asks_moves, (asks_setTouchPadEnable_syna _ p Hp (with_device n types p _)). }
  intros _. apply (drv_moves_bind _ _ (at_ anything) false).
  { apply drv_moves_when. intros _. eapply asks_moves. by apply Hset. }
  intros _ w Hw. apply wp_bind, wp_gets, wp_bind. eapply (wp_mono _ (fun _ w' => good syna_deaf false w')).
  2:{ intros _ w' Hw'. by apply moves_lastSteps_syna. }
  cbn [drv_installed synaptics_driver]. destruct (_interruptHandlerInstalled (self w)) eqn:Ei; cbn [when].
  - apply (moves_uninstall (at_ anything) syna_deaf false); [|done|exact Hw|exact Ei].
    intros d [Hd _]. split; [|done]. split; [by apply (syna_core_ok _ _ _ d)|done].
  - destruct Hw as [H1 H2 H3 H4 H5]. by split.
Qed.

End Life.
