(* ===== verification/SynapticsSpec.v ===== *)
(** * What the Synaptics driver promises

    Safety from [probe] to [stop] outside the quiet time, with different contacts in every
    event.  In the quiet time [sendTouchData] returns at once, before it notes the number of
    fingers: a finger lifted and put down meanwhile takes the driver out of its array, and a
    tap leaves a contact behind. *)
From S2P Require Import Prelude PS2Types RingBuffer RingSpec Bus Touch DriverWorld OSTypes KeyboardBench.
From S2P Require Import RingLoop Talk Trackpad Synaptics SynapticsTouch SynapticsDriver Averages SynapticsLinks.
From S2P Require Import SynapticsFingers SynapticsRenumber SynapticsSafe SynapticsRun.

(** * Outside the quiet time *)

(** ** Safety *)

(** What may happen between [start] and [stop], with the arguments that matter. *)
Inductive SynaOp :=
| SynaByte (data : Z)
| SynaPackets
| SynaLater (time : Z)
| SynaMessaged (m : SynaMessage)
| SynaPower (whatToDo : Z)
| SynaProperties (props : OSObject)
| SynaMouse (bt : BluetoothCodes) (e : HidEvent) (service : Z)
| SynaOpened (client : option Z) (isVoodooInput : bool)
| SynaClosed (client : option Z).

Section Life.
Context {B : Type} `{HB : PS2Bus B} (abs : Z -> Z) (bootArg : string -> bool) (n types p : Z).
#[local] Abbreviation W := (DrvWorld B ApplePS2SynapticsTouchPad SynaEvent).
#[local] Abbreviation C := (M W).

(** Not in the quiet time, or packets are ignored. *)
Definition syna_awake (w : W) : bool := ignoreall (self w) || negb (quiet abs (u64 (now w)) (self w)).

Definition syna_allowed (o : SynaOp) (w : W) : Prop := match o with SynaPackets => syna_awake w = true | _ => True end.

Definition run_syna (o : SynaOp) : C unit :=
  match o with
  | SynaByte data => interrupted data ;; ret tt
  | SynaPackets => packetReady abs
  | SynaLater t => modify (fun w => mkDrvWorld (self w) (host w) t (told w))
  | SynaMessaged m => message m ;; ret tt
  | SynaPower what => setDevicePowerState what
  | SynaProperties props => setProperties bootArg props
  | SynaMouse bt e service => notificationHIDAttachedHandler bt e service
  | SynaOpened c b => handleOpen c b ;; ret tt
  | SynaClosed c => handleClose c
  end.

(** A new driver before [probe]. *)
Record syna_new (w : W) : Prop := {
  sn_self : self w = newSynaptics n types;
  sn_told : told w = [];
  sn_host : bus_ok (host w);
  sn_lock : bus_locked (host w) = false }.

(** The worlds a driver on port [p] is in between [start] and [stop]. *)
Inductive syna_running : W -> Prop :=
| syna_at_start w0 w1 w2 major minor config companion workLoop gate acpi :
    syna_new w0 -> probe bootArg major minor p config companion w0 = Ok (w1, ThisDriver) ->
    start p workLoop gate acpi w1 = Ok (w2, true) -> syna_running w2
| syna_stepped w w' o : syna_running w -> syna_allowed o w -> run_syna o w = Ok (w', tt) -> syna_running w'.

End Life.

Section Safe.
Context {B : Type} `{HB : PS2Bus B} `{HL : !PS2BusLaws B} (abs : Z -> Z) (bootArg : string -> bool) (n types p : Z).
Context (Hp : 0 <= p < kPS2MuxMaxIdx) (Hn : SYNAPTICS_MAX_FINGERS <= n) (Htypes : typeThumb < types).
#[local] Abbreviation W := (DrvWorld B ApplePS2SynapticsTouchPad SynaEvent).
#[local] Abbreviation running := (syna_running (B := B) abs bootArg n types p).
#[local] Abbreviation on := (syna_with n types (Some p) has_mice).

Lemma syna_new_good w : syna_new n types w -> good (syna_off n types) false w.
Proof.
  intros [H1 H2 H3 H4]. split; [rewrite H1; by apply newSynaptics_ok|done|done|by rewrite H1|rewrite H2; constructor].
Qed.

Lemma syna_awake_now (w : W) : syna_awake abs w = true -> awake abs (fun t => t = now w) (self w).
Proof.
  unfold syna_awake. intros [E|E%negb_true_iff]%orb_prop; [by left|right]. by intros t ->.
Qed.

Lemma packetReady_on (w : W) : good on false w -> syna_awake abs w = true ->
  total (packetReady abs) (fun _ w' => good on false w') w.
Proof.
  intros [[Hok Hm] H2 H3 H4 H5] Ha%syna_awake_now.
  eapply total_mono; [apply (ends_packetReady_syna abs (fun t => t = now w) n types (Some p) (attachedHIDPointerDevices (self w)) w);
    [done|split; [exact Hok|split; [done|exact Ha]]]|].
  cbn beta. intros _ w' ((K1 & K2 & _) & E1 & _ & E2 & E3). split; rewrite ?E1, ?E2; auto. split; [exact K1|].
  unfold has_mice in *. cbn in *. by rewrite K2.
Qed.

Lemma run_syna_ok o (w : W) : good on false w -> syna_allowed abs o w ->
  wp (run_syna abs bootArg o) (fun _ w' => good on false w') w.
Proof.
  intros Hw Ho. assert (Hask : forall m : M W unit, asks on (fun _ => True) m -> wp m (fun _ w' => good on false w') w).
  { intros m Hm. eapply wp_mono; [by apply Hm|]. by intros _ w' []. }
  destruct o as [data| |t|m|what|props|bt e service|c b|c]; cbn [run_syna].
  - apply wp_bind. destruct Hw as [H1 H2 H3 H4 H5]. unfold wp, interrupted.
    destruct (inv_interrupt (self w) data H1) as (d' & r & E & Hd' & _ & Ei). rewrite E.
    split; try done. cbn [self]. by rewrite Ei.
  - by apply total_wp, packetReady_on.
  - apply wp_modify. by destruct Hw.
  - apply Hask. apply asks_seq; [by apply asks_messageSyna|intros _; by apply asks_ret].
  - by apply Hask, asks_powerSyna.
  - apply Hask, asks_setProperties; [done|by intros d s g].
  - by apply Hask, asks_hidSyna.
  - apply Hask. apply asks_seq; [by apply asks_openSyna|intros _; by apply asks_ret].
  - by apply Hask, asks_closeSyna.
Qed.

Lemma syna_running_good w : running w -> good on false w.
Proof.
  induction 1 as [w0 w1 w2 major minor config companion workLoop gate acpi Hnew E1 E2|w w' o _ IH Ho E].
  - pose proof (wp_ok _ _ _ _ _ (leads_probe_syna bootArg n types p Hp major minor config companion w0 (syna_new_good _ Hnew)) E1) as H1.
    exact (wp_ok _ _ _ _ _ (leads_start_syna n types p Hp workLoop gate acpi w1 H1) E2).
  - exact (wp_ok _ _ _ _ _ (run_syna_ok o w IH Ho) E).
Qed.

(** C32: the Synaptics driver is safe from [probe] to [stop] as long as its work loop does
    not run in the quiet time after a key.  Over any bus that keeps the promises of
    [PS2BusLaws], whatever the configuration and the touchpad's answers, [probe] and
    [start] crash nowhere; in every state reached from there by bytes, work-loop calls,
    the passing of time, messages, settings, attached mice, clients and power changes in any
    order, none of them leaves an array, divides by zero or uses a null pointer, and the
    work loop ends; every event that VoodooInput was sent shows at most five fingers, no
    two of them the same; and [stop] leaves the driver off its device with the lock free. *)
Theorem synaptics_safe major minor config companion (w0 : W) :
  syna_new n types w0 ->
  wp (probe bootArg major minor p config companion) (fun r w1 => r = ThisDriver -> forall workLoop gate acpi,
    wp (start p workLoop gate acpi) (fun _ _ => True) w1) w0 /\
  (forall w, running w ->
    (forall o, syna_allowed abs o w -> wp (run_syna abs bootArg o) (fun _ _ => True) w) /\
    (syna_awake abs w = true -> exists w', packetReady abs w = Ok (w', tt)) /\
    (forall c e, In (SynaTouchEvent c e) (told w) -> contacts_ok SYNAPTICS_MAX_FINGERS e) /\
    forall workLoop, wp (stop workLoop) (fun _ w' =>
      _device (self w') = None /\ bus_ok (host w') /\ bus_locked (host w') = false) w).
Proof.
  intros H0. split; [|intros w Hw%syna_running_good; split; [|split; [|split]]].
  - eapply wp_mono; [exact (leads_probe_syna bootArg n types p Hp major minor config companion w0 (syna_new_good _ H0))|].
    cbn beta. intros r w1 H1 -> workLoop gate acpi. eapply wp_mono; [by apply (leads_start_syna n types p Hp workLoop gate acpi w1 H1)|done].
  - intros o Ho. eapply wp_mono; [by apply run_syna_ok|done].
  - intros Ha. destruct (packetReady_on w Hw Ha) as (w' & [] & E & _). by exists w'.
  - intros c e He%list_elem_of_In. pose proof (gd_told _ _ _ Hw) as Ht. rewrite Forall_forall in Ht. exact (Ht _ He).
  - intros workLoop. eapply wp_mono; [by apply (moves_syna_stop n types p Hp)|]. by intros _ w' [[] ? ? ? ?].
Qed.

End Safe.

(** ** A life on the bench *)

(** A touchpad that answers each query alike. *)
#[local] Instance syna_bus : PS2Bus BenchHost := answering (answerList [0; 0; 0; 0; 0; 0; 0; 0; 0; 0; 0x52; 0x47; 0x74]).
#[local] Instance syna_laws : PS2BusLaws BenchHost := answering_laws _ (answerList_shape _).

#[local] Abbreviation BW := (DrvWorld BenchHost ApplePS2SynapticsTouchPad SynaEvent).

Definition syna_bench : BW := mkDrvWorld (newSynaptics 10 7) (mkBenchHost false false false) 600000000000 [].

Definition noArg (name : string) : bool := false.

#[export] Instance syna_allowed_dec abs o (w : BW) : Decision (syna_allowed abs o w).
Proof. destruct o; cbn [syna_allowed]; apply _. Defined.

(** Operations one after the other, as long as they are allowed and end. *)
Fixpoint syna_ops (ops : list SynaOp) (w : BW) : option BW :=
  match ops with
  | [] => Some w
  | o :: ops =>
    if bool_decide (syna_allowed id o w) then
      match run_syna id noArg o w with Ok (w', _) => syna_ops ops w' | _ => None end
    else None
  end.

Lemma syna_ops_running p ops w w' : syna_running id noArg 10 7 p w -> syna_ops ops w = Some w' -> syna_running id noArg 10 7 p w'.
Proof.
  revert w. induction ops as [|o ops IH]; intros w Hw; cbn [syna_ops]; [by intros [= <-]|].
  case_bool_decide as Ho; [|done]. destruct (run_syna id noArg o w) as [[w1 []]| |] eqn:E; [|done..].
  apply IH. by apply (syna_stepped _ _ _ _ _ w w1 o).
Qed.

(** The world after [probe] has accepted the touchpad. *)
Definition accepted {S} (r : outcome (S * ProbeResult)) : option S := match r with Ok (w, ThisDriver) => Some w | _ => None end.

Lemma accepted_bind {S X} (r : outcome (S * ProbeResult)) (k : S -> option X) x :
  (w ← accepted r; k w) = Some x -> exists w, r = Ok (w, ThisDriver) /\ k w = Some x.
Proof. destruct r as [[w []]| |]; try done. by exists w. Qed.

Definition syna_from_probe (w0 : BW) (ops : list SynaOp) : option BW :=
  w1 ← accepted (probe noArg 20 0 1 None false w0); w2 ← begun (start 1 true true true w1); syna_ops ops w2.

Lemma syna_probe_running w0 ops w : syna_new 10 7 w0 -> syna_from_probe w0 ops = Some w -> syna_running id noArg 10 7 1 w.
Proof.
  intros H0 E. unfold syna_from_probe in E. destruct (accepted_bind _ _ _ E) as (w1 & E1 & F). destruct (begun_bind _ _ _ F) as (w2 & E2 & G).
  apply (syna_ops_running 1 ops w2); [|exact G].
  exact (syna_at_start id noArg 10 7 1 w0 w1 w2 20 0 None false true true true H0 E1 E2).
Qed.

(** One finger, and none. *)
Definition touchPacket (x y : Z) : list Z := [0x90; 0x88; 0x50; 0xc0; x; y].
Definition liftPacket : list Z := [0x90; 0x88; 0x00; 0xc0; 0x00; 0x00].

(** A client, one finger that moves, a key, sleep, and a mouse that comes and goes. *)
Definition syna_life : list SynaOp :=
  SynaOpened (Some 7) true ::
  map SynaByte (touchPacket 0x10 0x20 ++ touchPacket 0x20 0x20 ++ touchPacket 0x30 0x20) ++
  [SynaPackets; SynaMouse (mkBluetoothCodes 5 1 2 3 4 5) UsbPublished 9; SynaMouse (mkBluetoothCodes 5 1 2 3 4 5) UsbTerminated 9;
   SynaMessaged (NotifyKeyPressed (mkKeyInfo 600000000000 0 true false)); SynaLater 601000000000;
   SynaPower kPS2C_DisableDevice; SynaPower kPS2C_EnableDevice; SynaMessaged (ResetTouchpad 1)].

(** The contacts of the touch events: finger, place, type. *)
Definition synaContacts (l : list SynaEvent) : list (Z * list (Z * Z * Z)) :=
  omap (fun e => match e with SynaTouchEvent _ e => Some (ev_contact_count e,
    map (fun t => (tr_secondaryId t, tc_x (tr_current t), tc_y (tr_current t))) (take (Z.to_nat (ev_contact_count e)) (ev_transducers e))) | _ => None end) l.

Lemma syna_life_run : exists w, syna_from_probe syna_bench syna_life = Some w /\
  synaContacts (told w) = [(1, [(0, 254, 581)]); (1, [(0, 262, 581)])].
Proof. eexists. split; [vm_compute; reflexivity|]. vm_compute. reflexivity. Qed.

Lemma synaptics_safe_witness : exists w, syna_from_probe syna_bench syna_life = Some w /\
  wp (stop true) (fun _ w' => _device (self w') = None /\ bus_ok (host w') /\ bus_locked (host w') = false) w.
Proof.
  assert (H0 : syna_new 10 7 syna_bench) by (by split).
  assert (H1 : 0 <= 1 < kPS2MuxMaxIdx) by done. assert (H2 : SYNAPTICS_MAX_FINGERS <= 10) by done.
  assert (H3 : typeThumb < 7) by done.
  destruct syna_life_run as (w & E & _). exists w. split; [exact E|].
  exact (proj2 (proj2 (proj2 (proj2 (synaptics_safe id noArg 10 7 1 H1 H2 H3 20 0 None false syna_bench H0) w
    (syna_probe_running _ _ _ H0 E)))) true).
Defined.

(** * In the quiet time *)

(** ** A finger lifted and put down *)

(** A normal packet, and the fingers it counts. *)
Definition packetFingers (s : SynapticsSettings) (packet : list Z) : option Z :=
  match packet with
  | [b0; b1; b2; b3; b4; b5] =>
    let w := packetW b0 b3 in
    if (b0 =? 0) || (w =? SYNA_W_EXTENDED) || (w =? SYNA_W_PASSTHRU) then None
    else Some (countFingers (z_finger s) (packetZ w packet) w 0).1
  | _ => None
  end.

(** The only finger has no virtual finger, but counts as if it were still down. *)
Definition stranded (types : Z) (t : SynapticsTouch) : Prop := shape types t /\ lastFingerCount t = 1 /\ vfi t 0 = -1.

(** Below two fingers the number from the last extended packet plays no part. *)
Lemma countFingers_any zf z w agm k : (countFingers zf z w 0).1 = k -> k < 2 -> (countFingers zf z w agm).1 = k.
Proof.
  unfold countFingers. destruct (z <? zf); [done|]. destruct (4 <=? w); [done|]. destruct (w =? 0); [cbn; lia|].
  destruct (w =? 1); [cbn; lia|done].
Qed.

Lemma renumber_lift types sz t : shape types t -> lastFingerCount t = 1 -> clampedFingerCount t = 0 ->
  exists t', renumberFingers sz t = Some (t', true) /\ stranded types t'.
Proof.
  intros S El Ec. assert (En : (clampedFingerCount t =? lastFingerCount t) = false) by (by rewrite El, Ec).
  assert (EW : waitForAgm t = false) by (unfold waitForAgm; by rewrite El, Ec).
  unfold renumberFingers. rewrite En. cbn [andb mbind option_bind]. rewrite En. cbn [andb mbind option_bind]. rewrite EW. cbn [andb]. cbv iota zeta. rewrite En.
  unfold changeFingers. rewrite El, Ec. change (1 =? 0) with false. change (1 <? 0) with false. cbv iota.
  unfold removeFingers. cbv zeta. rewrite Ec.
  set (t0 := {| (unlink t) with hadLiftFinger := _ |}).
  assert (S0 : shape types t0) by (destruct (unlink_shape types t S); by split).
  assert (E0 : lastFingerCount t0 = 1 /\ clampedFingerCount t0 = 0) by done.
  assert (P0 : vfi t0 0 = -1) by apply (unlink_vfi t 0). clearbody t0. destruct E0 as [El0 Ec0]. rewrite Ec0.
  change (seqZ 0 0) with (@nil Z). cbn [fold_opt mbind option_bind].
  destruct (freeAndMark_step types t0 S0) as (t1 & -> & S1 & R1 & P1 & _). cbn [mbind option_bind].
  rewrite (rest_clamped _ _ R1), Ec0. change (seqZ 0 0) with (@nil Z). cbn [fold_opt mbind option_bind].
  destruct (findThumb_neutral types t1 S1) as (t2 & -> & S2 & R2 & [P2 _]). cbn [mbind option_bind].
  exists t2. split; [done|]. split; [done|]. split; [by rewrite (rest_last _ _ R2), (rest_last _ _ R1)|by rewrite P2, P1].
Qed.

Lemma renumber_stranded types sz t : stranded types t -> clampedFingerCount t = 1 -> renumberFingers sz t = None.
Proof.
  intros (S & El & Ev) Ec. unfold renumberFingers. rewrite El, Ec. cbn [Z.eqb Z.leb Z.compare Pos.compare Pos.compare_cont Pos.eqb andb mbind option_bind].
  rewrite El, Ec. cbn [Z.eqb Pos.eqb andb]. unfold unpressJump. destruct (hwAt_Some types t 0 S) as (f & E0 & _ & Ef); [done|].
  rewrite E0. cbn [mbind option_bind]. unfold dist. rewrite E0, <- Ef, Ev. done.
Qed.

Section Quiet.
Context {B : Type} `{HB : PS2Bus B} `{HL : !PS2BusLaws B} (abs : Z -> Z) (n types : Z) (o : option Z).
#[local] Abbreviation W := (DrvWorld B ApplePS2SynapticsTouchPad SynaEvent).
#[local] Abbreviation C := (M W).
#[local] Abbreviation ends_at := (ends_at (B := B) (E := SynaEvent)).

Section At.
Context (T : Z -> Prop) (d0 : ApplePS2SynapticsTouchPad).
Context (Hq : forall t, T t -> quiet abs (u64 t) d0 = true) (Hi : ignoreall d0 = false).
#[local] Abbreviation busy := (busy n d0).

(** One finger is down. *)
Definition one_down (t : SynapticsTouch) : Prop := shape types t /\ lastFingerCount t = 1.

Lemma still_settings d : syna_still d = syna_still d0 -> settings d = settings d0 /\ ignoreall d = ignoreall d0.
Proof. intros Hf. pose proof (f_equal settings Hf) as E1. pose proof (f_equal ignoreall Hf) as E2. done. Qed.

(** Nothing is sent. *)
Lemma ends_quietSend P : ends_at T (busy P) (busy P) (sendTouchData abs).
Proof.
  unfold sendTouchData. apply ends_at_now_bind. intros t Ht. cbv zeta. apply at_look. intros d (_ & _ & Hf).
  rewrite (quiet_still abs d0 _ _ Hf), Hq by done. apply at_last, ends_ret.
Qed.

(** A normal packet up to [renumberFingers]. *)
Lemma ends_quietNormal (P Q R : SynapticsTouch -> Prop) buf w :
  (forall t, P t -> exists t', normalPacket (z_finger (settings d0)) buf w t = Some t' /\ Q t') ->
  (forall sz t, Q t -> exists t' send, renumberFingers sz t = Some (t', send) /\ R t') ->
  ends_at T (busy P) (busy R) (synaptics_parse_normal_packet abs buf w).
Proof.
  intros HN HR. unfold synaptics_parse_normal_packet. apply (ends_at_bind T _ (busy Q)).
  { apply at_last, ends_dstep. intros d (H1 & H2 & H3). destruct (still_settings d H3) as [Es _]. destruct (HN _ H1) as (t' & E & Ht).
    rewrite <- Es in E. rewrite E.
    cbn [mbind option_bind]. eexists. split; [done|]. split; [|done]. split; [exact Ht|]. split; [exact H2|exact H3]. }
  intros _. apply at_look. intros d (H1 & H2 & H3). destruct (HR (size d) (touches d) H1) as (t' & send & E & Ht).
  apply (ends_at_deref_bind T _ _ _ _ _ E). eapply ends_at_bind; [apply at_last, (ends_touch n d0 _ R); by intros|].
  intros _. apply ends_at_when. intros _. apply ends_quietSend.
Qed.

Lemma ends_lift packet : packetFingers (settings d0) packet = Some 0 ->
  ends_at T (busy one_down) (busy (stranded types)) (handlePacket abs packet).
Proof.
  intros Hk. destruct packet as [|p0 [|p1 [|p2 [|p3 [|p4 [|p5 []]]]]]]; try done. unfold packetFingers in Hk. cbv zeta in Hk.
  set (packet := [p0; p1; p2; p3; p4; p5]) in *. set (w := packetW p0 p3) in *.
  destruct (_ || _) eqn:Eo; [done|]. apply orb_false_elim in Eo as [Eo E3]. apply orb_false_elim in Eo as [E0 E2].
  injection Hk as Hk. unfold handlePacket. eapply ends_at_deref_bind; [reflexivity|].
  apply at_look. intros d (_ & _ & Hf). destruct (still_settings d Hf) as [_ ->]. rewrite Hi. rewrite Z.eqb_sym, E0.
  unfold synaptics_parse_hw_state. eapply ends_at_deref_bind; [reflexivity|]. eapply ends_at_deref_bind; [reflexivity|]. cbv zeta.
  fold w. apply at_look. intros d1 _. apply at_next.
  { apply ends_when. intros _. apply ends_touch. intros t [S El]. split; [destruct S; by split|done]. }
  intros _. apply at_next; [by apply ends_parseButtons|]. intros buttons. rewrite E3, E2.
  apply at_look. intros d2 _. eapply ends_at_bind; [|intros _; apply at_last, ends_trackpoint].
  apply (ends_quietNormal one_down (fun t => one_down t /\ clampedFingerCount t = 0)).
  - intros t [S El]. destruct (normalPacket_step types (z_finger (settings d0)) packet w t) as (t' & E & S' & _ & El' & Ec'); [done|done|].
    exists t'. split; [done|]. rewrite (countFingers_any _ _ _ _ 0 Hk) in Ec' by done. split; [split; [done|congruence]|done].
  - intros sz t [[S El] Ec]. destruct (renumber_lift types sz t S El Ec) as (t' & E & Ht). by exists t', true.
Qed.
End At.

Lemma touch_crashes packet (w : W) : packetFingers (settings (self w)) packet = Some 1 -> ignoreall (self w) = false ->
  stranded types (touches (self w)) -> handlePacket abs packet w = Crash.
Proof.
  intros Hk Hi Hs. destruct packet as [|p0 [|p1 [|p2 [|p3 [|p4 [|p5 []]]]]]]; try done. unfold packetFingers in Hk. cbv zeta in Hk.
  set (packet := [p0; p1; p2; p3; p4; p5]) in *. set (k := packetW p0 p3) in *.
  destruct (_ || _) eqn:Eo; [done|]. apply orb_false_elim in Eo as [Eo E3]. apply orb_false_elim in Eo as [E0 E2].
  injection Hk as Hk. unfold handlePacket. rewrite (bind_ok (deref _) _ w w p0) by done.
  rewrite (bind_ok (dget ignoreall) _ w w false) by (unfold dget, gets; by rewrite Hi). rewrite Z.eqb_sym, E0. cbn [negb andb when].
  unfold synaptics_parse_hw_state. rewrite (bind_ok (deref _) _ w w p0), (bind_ok (deref _) _ w w p3) by done. cbv zeta. fold k.
  rewrite (bind_ok (dget _) _ w w (one_btn_clickpad (_cont_caps (self w)))) by done.
  set (P := fun d => settings d = settings (self w) /\ stranded types (touches d)).
  assert (H1 : ends (B := B) (E := SynaEvent) P P (when (one_btn_clickpad (_cont_caps (self w)))
    (setTouches (fun t => {| t with _clickpad_pressed := nz (Z.land (Z.lxor p0 p3) 0x1) |})))).
  { apply ends_when. intros _. apply ends_dset; [|done]. intros d [E (S & El & Ev)]. split; [done|]. split; [destruct S; by split|done]. }
  destruct (H1 w) as (w1 & [] & E1 & [Es1 Hs1] & _); [by split|]. rewrite (bind_ok _ _ _ _ _ E1).
  assert (H2 : ends (B := B) (E := SynaEvent) P P (parseButtons packet k p0 p3)).
  { unfold parseButtons. apply ends_dget_bind. intros d _. apply ends_weak. cbv zeta. destruct (_ <? _); [|apply ends_ret].
    destruct (extBtns_total (extended_btns (_extended_id d)) packet k (_lastExtendedButtons d)) as [e E]; [done|].
    eapply ends_deref_bind; [exact E|]. apply (ends_bind _ P); [by apply ends_dset|]. intros _. apply ends_ret. }
  destruct (H2 w1) as (w2 & buttons & E2' & [Es2 Hs2] & _); [by split|]. rewrite (bind_ok _ _ _ _ _ E2'), E3, E2.
  rewrite (bind_ok (dget _) _ w2 w2 (Z.lor buttons (_lastPassthruButtons (self w2)))) by done.
  unfold synaptics_parse_normal_packet. destruct Hs2 as (S & El & Ev).
  destruct (normalPacket_step types (z_finger (settings (self w2))) packet k (touches (self w2)) eq_refl S) as (t' & E & S' & [K _] & El' & Ec').
  rewrite Es2, (countFingers_any _ _ _ _ 1 Hk) in Ec' by done.
  assert (E4 : renumberFingers (size (self w2)) t' = None).
  { apply (renumber_stranded types); [|done]. split; [done|]. split; [congruence|by rewrite K]. }
  unfold dstep, dget, dset. unfold mbind, M_bind, bind, gets, modify. cbn [self]. rewrite E. cbn. by rewrite E4.
Qed.

(** A finger that is lifted and put down again in the quiet time takes the Synaptics
    driver out of its array.  In that time [sendTouchData] returns before it notes the number
    of fingers, which stays one while the finger loses its virtual one; the next packet with
    one finger then measures the distance to virtual finger -1.  Whatever else the two packets
    say, [packetReady] crashes when they come one after the other. *)
Theorem synaptics_quiet_crash lift touch rest (w : W) :
  syna_ok n types o (self w) -> ignoreall (self w) = false -> quiet abs (u64 (now w)) (self w) = true ->
  lastFingerCount (touches (self w)) = 1 -> waitingPackets (self w) = lift :: touch :: rest ->
  packetFingers (settings (self w)) lift = Some 0 -> packetFingers (settings (self w)) touch = Some 1 ->
  packetReady abs w = Crash.
Proof.
  intros Hd Hi Hq Hl Hw Hk1 Hk2. destruct syna_ring_facts as [Hp Hm]. pose proof (so_ring _ _ _ _ Hd) as Ha.
  unfold waitingPackets in Hw. cbn [ringSize ringPacket ringOf synaptics_ring] in Hw.
  assert (Hround : forall w1 : W, aligned SYNA_RING kPacketLength (_ringBuffer (self w1)) -> forall packet rest,
    pending SYNA_RING kPacketLength (_ringBuffer (self w1)) = packet :: rest ->
    ringRound (handlePacket abs) tt w1 = (handleFirst (handlePacket abs) packet ;; ret (inl tt)) w1 /\
    pending SYNA_RING kPacketLength (advanceTail SYNA_RING kPacketLength (_ringBuffer (self w1))) = rest).
  { intros w1 Ha1 packet rest1 Hw1. rewrite ringRound_eq. cbn [ringSize ringPacket ringOf synaptics_ring].
    destruct (Z.ltb_spec (count SYNA_RING (_ringBuffer (self w1))) kPacketLength) as [Hc|Hc].
    { rewrite (pending_nil SYNA_RING kPacketLength) in Hw1; done. }
    rewrite (advanceTail_pending SYNA_RING kPacketLength) in Hw1 by done. by injection Hw1 as <- <-. }
  destruct (Hround w Ha _ _ Hw) as [R1 Hw1].
  (* the first packet *)
  assert (He : ends_at (fun t => t = now w) (busy n (self w) one_down) (busy n (self w) (stranded types)) (handlePacket abs lift)).
  { apply ends_lift; [by intros t ->|done|done]. }
  destruct (He w eq_refl) as (w1 & [] & E1 & (Hs & _ & Hf) & _).
  { split; [split; [apply (so_touches _ _ _ _ Hd)|done]|]. split; [apply (so_transducers _ _ _ _ Hd)|done]. }
  destruct (still_settings (self w) (self w1) Hf) as [Es1 Ei1]. pose proof (f_equal _ringBuffer Hf) as Er1.
  change (_ringBuffer (self w1) = _ringBuffer (self w)) in Er1.
  unfold packetReady, drainRing, loop. assert (Hfuel : exists f, Datatypes.S (ringQueued w) = Datatypes.S (Datatypes.S f)).
  { assert (Hc : kPacketLength <= count SYNA_RING (_ringBuffer (self w))).
    { apply Z.nlt_ge. intros Hc. rewrite (pending_nil SYNA_RING kPacketLength) in Hw; done. }
    change (ringQueued w) with (Z.to_nat (count SYNA_RING (_ringBuffer (self w)))).
    destruct (Z.to_nat _) as [|f] eqn:Ef; [unfold kPacketLength in Hc; lia|by exists f]. }
  destruct Hfuel as [f ->]. cbn [iter].
  set (w2 := mkDrvWorld (dropFirst (self w1)) (host w1) (now w1) (told w1)).
  assert (E2 : handleFirst (handlePacket abs) lift w = Ok (w2, tt)).
  { unfold handleFirst. by rewrite (bind_ok _ _ _ _ _ E1). }
  assert (ER1 : ringRound (handlePacket abs) tt w = Ok (w2, inl tt)) by (rewrite R1; by rewrite (bind_ok _ _ _ _ _ E2)).
  (* the second *)
  destruct (Hround w2) with (packet := touch) (rest := rest) as [R2 _].
  { cbn. rewrite Er1. by apply advanceTail_aligned. }
  { cbn. rewrite Er1. exact Hw1. }
  assert (E3 : handlePacket abs touch w2 = Crash).
  { apply touch_crashes; [cbn; by rewrite Es1|cbn; by rewrite Ei1|exact Hs]. }
  assert (E4 : ringRound (handlePacket abs) tt w2 = Crash).
  { rewrite R2. unfold handleFirst, mbind, M_bind, bind. by rewrite E3. }
  unfold mbind, M_bind, bind. by rewrite ER1, E4.
Qed.

End Quiet.


(** A finger, a key, and the finger lifted and put down. *)
Definition quiet_ops : list SynaOp :=
  map SynaByte (touchPacket 0x10 0x20 ++ touchPacket 0x10 0x20) ++
  [SynaPackets; SynaMessaged (NotifyKeyPressed (mkKeyInfo 600000000000 0 true false))] ++
  map SynaByte (liftPacket ++ touchPacket 0x10 0x20).

Definition in_quiet (w : BW) : bool :=
  negb (ignoreall (self w)) && quiet id (u64 (now w)) (self w) && (lastFingerCount (touches (self w)) =? 1) &&
  bool_decide (waitingPackets (self w) = [liftPacket; touchPacket 0x10 0x20]) &&
  bool_decide (packetFingers (settings (self w)) liftPacket = Some 0) &&
  bool_decide (packetFingers (settings (self w)) (touchPacket 0x10 0x20) = Some 1).

Lemma quiet_run : exists w, syna_from_probe syna_bench quiet_ops = Some w /\ in_quiet w = true.
Proof. eexists. split; [vm_compute; reflexivity|]. vm_compute. reflexivity. Qed.

Lemma synaptics_quiet_crash_witness : exists w, syna_from_probe syna_bench quiet_ops = Some w /\ packetReady id w = Crash.
Proof.
  assert (H0 : syna_new 10 7 syna_bench) by (by split).
  assert (H1 : 0 <= 1 < kPS2MuxMaxIdx) by done. assert (H2 : SYNAPTICS_MAX_FINGERS <= 10) by done.
  assert (H3 : typeThumb < 7) by done.
  destruct quiet_run as (w & E & Hs). exists w. split; [exact E|]. unfold in_quiet in Hs. rewrite !andb_true_iff in Hs.
  destruct Hs as [[[[[Hi%negb_true_iff Hq] Hl%Z.eqb_eq] Hw%bool_decide_eq_true] Hk1%bool_decide_eq_true] Hk2%bool_decide_eq_true].
  assert (Hg : good (syna_with 10 7 (Some 1) has_mice) false w).
  { exact (syna_running_good id noArg 10 7 1 H1 H2 H3 w (syna_probe_running _ _ _ H0 E)). }
  exact (synaptics_quiet_crash id 10 7 (Some 1) liftPacket (touchPacket 0x10 0x20) [] w (proj1 (gd_self _ _ _ Hg)) Hi Hq Hl Hw Hk1 Hk2).
Defined.

(** ** A tap leaves a contact *)

(** Operations one after the other, allowed or not. *)
Fixpoint syna_any (ops : list SynaOp) (w : BW) : option BW :=
  match ops with
  | [] => Some w
  | o :: ops => match run_syna id noArg o w with Ok (w', _) => syna_any ops w' | _ => None end
  end.

(** A key, a tap in the quiet time, and two packets without a finger a second later. *)
Definition tap_ops : list SynaOp :=
  [SynaOpened (Some 7) true; SynaMessaged (NotifyKeyPressed (mkKeyInfo 600000000000 0 true false))] ++
  map SynaByte (touchPacket 0x10 0x20 ++ liftPacket) ++ [SynaPackets; SynaLater 601000000000] ++
  map SynaByte (liftPacket ++ liftPacket) ++ [SynaPackets].

(** A tap in the quiet time leaves a contact that no finger makes: the virtual finger stays
    touched, and the packets without a finger that come after the quiet time report it. *)
Theorem quiet_tap_ghost :
  (w1 ← accepted (probe noArg 20 0 1 None false syna_bench); w2 ← begun (start 1 true true true w1); w ← syna_any tap_ops w2;
   Some (clampedFingerCount (touches (self w)), map fst (synaContacts (told w)))) = Some (0, [1; 1]).
Proof. vm_compute. reflexivity. Qed.
