(* ===== verification/SynapticsCodec.v ===== *)
(** * Bytes and packets of the Synaptics touchpad

    The interrupt routine is a machine over the bytes: it waits for a byte that can start a
    packet, drops a packet whose fourth byte cannot be one, and takes the pair AA 00 for
    a reset.  The ring holds what the machine makes of the bytes.  An encoder for the packets
    of the first finger and of the second follows, from the layout that the driver reads;
    what is encoded comes through the interrupt routine and reads back. *)
From S2P Require Import Prelude PS2Types RingBuffer RingSpec Bus Touch DriverWorld OSTypes RingLoop Trackpad.
From S2P Require Import Synaptics SynapticsTouch SynapticsDriver Averages SynapticsLinks SynapticsFingers.
From S2P Require Import SynapticsRenumber SynapticsSafe.

(** * Framing *)

(** ** The machine *)

(** The bytes of the packet so far, and the byte before. *)
Record Framer := mkFramer { fr_partial : list Z; fr_last : Z }.

(** A packet, or the marker of something else. *)
Inductive Frame := Packet (bytes : list Z) | Marker.

Definition canStart (b : Z) : bool := Z.land b 0xc8 =? 0x80.
Definition canContinue (b : Z) : bool := Z.land b 0xc8 =? 0xc0.

Definition frameByte (b : Z) (f : Framer) : Framer * option Frame :=
  if (fr_last f =? kSC_Reset) && (b =? 0) then (mkFramer [] (fr_last f), Some Marker) else
  let bad := match fr_partial f with [] => negb (canStart b) | [_; _; _] => negb (canContinue b) | _ => false end in
  if bad then (mkFramer [] b, Some Marker) else
  let p := fr_partial f ++ [b] in
  if Z.of_nat (length p) =? kPacketLength then (mkFramer [] b, Some (Packet p)) else (mkFramer p b, None).

(** A full ring drops what comes. *)
Definition enqueueFrame (q : list Frame) (o : option Frame) : list Frame :=
  match o with
  | Some x => if Z.of_nat (length q) + 1 <? SYNA_RING / kPacketLength then q ++ [x] else q
  | None => q
  end.

Fixpoint frameBytes (bytes : list Z) (s : Framer * list Frame) : Framer * list Frame :=
  match bytes with
  | [] => s
  | b :: bytes => let '(f, o) := frameByte b s.1 in frameBytes bytes (f, enqueueFrame s.2 o)
  end.

(** ** What the driver holds *)

Definition headSlot (d : ApplePS2SynapticsTouchPad) : list Z :=
  slot_at kPacketLength (m_buffer (_ringBuffer d)) (m_head (_ringBuffer d)).

Definition framerOf (d : ApplePS2SynapticsTouchPad) : Framer :=
  mkFramer (take (Z.to_nat (_packetByteCount d)) (headSlot d)) (_lastdata d).

(** A slot that starts with zero holds no packet. *)
Definition frameOf (packet : list Z) : Frame := if nth 0 packet 0 =? 0 then Marker else Packet packet.
Definition framesOf (d : ApplePS2SynapticsTouchPad) : list Frame := map frameOf (waitingPackets d).

Definition interrupts (bytes : list Z) : M ApplePS2SynapticsTouchPad unit :=
  for_each bytes (fun b => interruptOccurred b ;; ret tt).

(** The packet under way started with a byte that can start one. *)
Definition starts_well (f : Framer) : Prop := match fr_partial f with b :: _ => b <> 0 | [] => True end.

Section Bytes.
Context (n types : Z) (o : option Z).
Implicit Types (d : ApplePS2SynapticsTouchPad).

Lemma headSlot_length d : syna_ok n types o d -> length (headSlot d) = 6%nat.
Proof. intros Hd. apply (slot_length SYNA_RING kPacketLength); try done; apply (so_ring _ _ _ _ Hd). Qed.

(** A byte stored in the slot at the head. *)
Lemma put_slot (rb rb' : RingBuffer Z) i x : aligned SYNA_RING kPacketLength rb -> 0 <= i < kPacketLength -> head_set i x rb = Some rb' ->
  aligned SYNA_RING kPacketLength rb' /\ pending SYNA_RING kPacketLength rb' = pending SYNA_RING kPacketLength rb /\
  slot_at kPacketLength (m_buffer rb') (m_head rb') = <[Z.to_nat i := x]> (slot_at kPacketLength (m_buffer rb) (m_head rb)).
Proof.
  intros Ha Hi E. destruct syna_ring_facts as [Hp Hm]. split; [by destruct (head_set_aligned SYNA_RING kPacketLength _ _ _ _ Ha E)|].
  split; [by apply (head_set_pending SYNA_RING kPacketLength Hp ltac:(done) Hm _ i x)|].
  by apply (head_set_slot SYNA_RING kPacketLength Hp ltac:(done) Hm _ i x).
Qed.

(** The slot at the head is queued, unless the ring is full. *)
Lemma commit_frames (rb : RingBuffer Z) : aligned SYNA_RING kPacketLength rb ->
  map frameOf (pending SYNA_RING kPacketLength (advanceHead SYNA_RING kPacketLength rb)) =
  enqueueFrame (map frameOf (pending SYNA_RING kPacketLength rb)) (Some (frameOf (slot_at kPacketLength (m_buffer rb) (m_head rb)))).
Proof.
  intros Ha. destruct syna_ring_facts as [Hp Hm]. rewrite (advanceHead_pending SYNA_RING kPacketLength) by done. unfold enqueueFrame.
  rewrite (count_packets SYNA_RING kPacketLength) by done. rewrite length_map.
  set (m := Z.of_nat (length (pending SYNA_RING kPacketLength rb))).
  change (SYNA_RING / kPacketLength) with 32. change SYNA_RING with 192. change kPacketLength with 6.
  destruct (Z.ltb_spec (6 * m + 6) 192), (Z.ltb_spec (m + 1) 32); try lia; [by rewrite map_app|done].
Qed.

Lemma nth_lookup_0 (l : list Z) x : l !! 0%nat = Some x -> nth 0 l 0 = x.
Proof. destruct l; [done|]. by intros [= ->]. Qed.

Lemma marked_frames d0 d reason : syna_ok n types o d0 -> _ringBuffer d = _ringBuffer d0 ->
  exists d', marked reason d = Ok (d', kPS2IR_packetReady) /\ framerOf d' = mkFramer [] (_lastdata d) /\
    framesOf d' = enqueueFrame (framesOf d0) (Some Marker).
Proof.
  intros Hd Er. unfold marked, storeMarker. rewrite Er. pose proof (so_ring _ _ _ _ Hd) as Ha.
  destruct (syna_put (_ringBuffer d0) 0 0x00 Ha) as (rb1 & E1 & _); [done|]. rewrite E1. cbn [mbind option_bind].
  destruct (put_slot _ _ 0 _ Ha ltac:(done) E1) as (A1 & P1 & S1).
  destruct (syna_put rb1 1 reason A1) as (rb2 & E2 & _); [done|]. rewrite E2. cbn [mbind option_bind].
  destruct (put_slot _ _ 1 _ A1 ltac:(done) E2) as (A2 & P2 & S2). eexists. split; [reflexivity|]. split; [done|].
  unfold framesOf, waitingPackets. cbn [ringSize ringPacket ringOf synaptics_ring _ringBuffer]. rewrite commit_frames by done.
  rewrite P2, P1. f_equal. f_equal. unfold frameOf. rewrite S2, S1. pose proof (headSlot_length d0 Hd) as Hl. unfold headSlot in Hl.
  rewrite (nth_lookup_0 _ 0); [done|]. rewrite list_lookup_insert_ne by done. apply list_lookup_insert_eq. cbn. lia.
Qed.

(** The length of what is under way decides which byte comes next. *)
Lemma bad_byte d b : syna_ok n types o d ->
  match fr_partial (framerOf d) with [] => negb (canStart b) | [_; _; _] => negb (canContinue b) | _ => false end =
  ((0 =? _packetByteCount d) && negb (canStart b) || (3 =? _packetByteCount d) && negb (canContinue b)).
Proof.
  intros Hd. pose proof (headSlot_length d Hd) as Hl. pose proof (so_count _ _ _ _ Hd) as Hc. unfold kPacketLength in Hc.
  cbn [framerOf fr_partial]. generalize dependent (headSlot d). intros l Hl.
  destruct l as [|b0 [|b1 [|b2 [|b3 [|b4 [|b5 []]]]]]]; try done.
  assert (_packetByteCount d = 0 \/ _packetByteCount d = 1 \/ _packetByteCount d = 2 \/ _packetByteCount d = 3 \/
          _packetByteCount d = 4 \/ _packetByteCount d = 5) as [E|[E|[E|[E|[E|E]]]]] by lia; rewrite E; cbn; by destruct (canStart b), (canContinue b).
Qed.

Lemma framerOf_length d : syna_ok n types o d -> Z.of_nat (length (fr_partial (framerOf d))) = _packetByteCount d.
Proof.
  intros Hd. pose proof (so_count _ _ _ _ Hd) as Hc. unfold kPacketLength in Hc. cbn [framerOf fr_partial].
  rewrite length_take, (headSlot_length d Hd). lia.
Qed.

(** One byte. *)
Lemma interrupt_frames d b : syna_ok n types o d -> is_byte b -> starts_well (framerOf d) ->
  exists d' r, interruptOccurred b d = Ok (d', r) /\ starts_well (framerOf d') /\
    (framerOf d', framesOf d') = (let '(f, out) := frameByte b (framerOf d) in (f, enqueueFrame (framesOf d) out)).
Proof.
  intros Hd Hb Hw. unfold interruptOccurred, frameByte. cbv zeta. rewrite u8_small by (unfold is_byte in Hb; lia).
  rewrite (bad_byte d b Hd), length_app, Nat2Z.inj_add, (framerOf_length d Hd). cbn [length framerOf fr_last]. change (Z.of_nat 1) with 1.
  rewrite (Z.eqb_sym kSC_Reset), (Z.eqb_sym 0 b). fold (canStart b) (canContinue b).
  destruct ((_lastdata d =? kSC_Reset) && (b =? 0)).
  { destruct (marked_frames d d kSC_Reset Hd eq_refl) as (d' & -> & Ef & Eq). exists d', kPS2IR_packetReady. rewrite Ef, Eq. done. }
  set (d1 := {| d with _lastdata := b |}). cbn [_packetByteCount].
  destruct ((0 =? _packetByteCount d) && negb (canStart b)) eqn:E0; cbn [orb].
  { change (_packetByteCount d1) with (_packetByteCount d). rewrite E0.
    destruct (marked_frames d d1 0 Hd eq_refl) as (d' & -> & Ef & Eq). exists d', kPS2IR_packetReady. rewrite Ef, Eq. done. }
  change (_packetByteCount d1) with (_packetByteCount d). rewrite E0.
  destruct ((3 =? _packetByteCount d) && negb (canContinue b)) eqn:E3.
  { destruct (marked_frames d d1 3 Hd eq_refl) as (d' & -> & Ef & Eq). exists d', kPS2IR_packetReady. rewrite Ef, Eq. done. }
  pose proof (so_count _ _ _ _ Hd) as Hc. pose proof (so_ring _ _ _ _ Hd) as Ha. change (_ringBuffer d1) with (_ringBuffer d).
  destruct (syna_put (_ringBuffer d) (_packetByteCount d) b Ha Hc) as (rb & E & _). rewrite E.
  destruct (put_slot _ _ _ _ Ha Hc E) as (A1 & P1 & S1). fold (headSlot d) in S1. pose proof (headSlot_length d Hd) as Hl.
  unfold kPacketLength in Hc. rewrite u32_small by lia. rewrite (Z.eqb_sym kPacketLength).
  assert (Ht : take (Z.to_nat (_packetByteCount d + 1)) (slot_at kPacketLength (m_buffer rb) (m_head rb)) =
    take (Z.to_nat (_packetByteCount d)) (headSlot d) ++ [b]).
  { rewrite S1. replace (Z.to_nat (_packetByteCount d + 1)) with (Datatypes.S (Z.to_nat (_packetByteCount d))) by lia.
    rewrite (take_S_r _ _ b) by (apply list_lookup_insert_eq; lia). by rewrite take_insert_ge by lia. }
  (* the packet under way, with the byte *)
  assert (Hw' : starts_well (mkFramer (take (Z.to_nat (_packetByteCount d)) (headSlot d) ++ [b]) b)).
  { unfold starts_well in *. cbn [framerOf fr_partial] in *. destruct (take (Z.to_nat (_packetByteCount d)) (headSlot d)) as [|x l] eqn:El; [|exact Hw].
    cbn. assert (_packetByteCount d = 0) as Ez.
    { apply (f_equal length) in El. rewrite length_take, Hl in El. cbn in El. lia. }
    rewrite Ez in E0. cbn in E0. apply negb_false_iff in E0. intros ->. done. }
  destruct (Z.eqb_spec (_packetByteCount d + 1) kPacketLength) as [E6|E6].
  - do 2 eexists. split; [reflexivity|]. split; [done|]. f_equal. unfold framesOf at 1, waitingPackets.
    cbn [ringSize ringPacket ringOf synaptics_ring _ringBuffer]. rewrite commit_frames, P1 by done. unfold framesOf, waitingPackets.
    cbn [ringSize ringPacket ringOf synaptics_ring]. f_equal. f_equal.
    assert (Es : slot_at kPacketLength (m_buffer rb) (m_head rb) = take (Z.to_nat (_packetByteCount d)) (headSlot d) ++ [b]).
    { rewrite <- Ht, take_ge; [done|]. rewrite S1, length_insert, Hl, E6. done. }
    rewrite Es. unfold frameOf, starts_well in *. cbn [fr_partial framerOf] in *.
    destruct (take (Z.to_nat (_packetByteCount d)) (headSlot d) ++ [b]) as [|x l] eqn:El; [by apply app_nil in El as [_ ?]|].
    cbn [nth]. by rewrite (proj2 (Z.eqb_neq x 0)).
  - do 2 eexists. split; [reflexivity|].
    assert (Ef : framerOf {| d1 with _packetByteCount := _packetByteCount d + 1; _ringBuffer := rb |} =
      mkFramer (take (Z.to_nat (_packetByteCount d)) (headSlot d) ++ [b]) b).
    { unfold framerOf, headSlot at 1. cbn. by rewrite Ht. }
    split; [by rewrite Ef|]. rewrite Ef. cbn [enqueueFrame]. f_equal. unfold framesOf, waitingPackets.
    cbn [ringSize ringPacket ringOf synaptics_ring _ringBuffer]. by rewrite P1.
Qed.

(** Several bytes. *)
Lemma interrupts_frames bytes d : syna_ok n types o d -> starts_well (framerOf d) -> Forall is_byte bytes ->
  exists d', interrupts bytes d = Ok (d', tt) /\ syna_ok n types o d' /\ starts_well (framerOf d') /\ syna_frame d' = syna_frame d /\
    (framerOf d', framesOf d') = frameBytes bytes (framerOf d, framesOf d).
Proof.
  intros Hd Hw Hb. revert d Hd Hw. induction Hb as [|b bytes Hb _ IH]; intros d Hd Hw; [by exists d|].
  destruct (syna_interrupt_ok n types o d b Hd) as (d1 & r & E & Hd1 & F1).
  destruct (interrupt_frames d b Hd Hb Hw) as (d1' & r' & E' & Hw1 & V1). rewrite E in E'. injection E' as <- <-.
  destruct (IH d1 Hd1 Hw1) as (d' & E2 & Hd' & Hw' & F2 & V2). exists d'.
  split; [unfold interrupts; cbn [for_each]; by rewrite bind_assoc, (bind_ok _ _ _ _ _ E)|].
  split; [done|]. split; [done|]. split; [congruence|]. rewrite V2. cbn [frameBytes fst snd].
  destruct (frameByte b (framerOf d)) as [f out]. by rewrite V1.
Qed.

(** C33: the interrupt routine of the Synaptics driver implements the framing machine.  From
    any state of the driver, whatever bytes come, one interrupt each, none fails; afterwards
    the bytes of the packet under way are the machine's, and the ring holds, behind what
    waited before, the packets and markers that the machine made of the bytes, in order and
    each whole, except those that found the ring full; no other member changes. *)
Theorem synaptics_framing bytes d :
  syna_ok n types o d -> starts_well (framerOf d) -> Forall is_byte bytes ->
  exists d', interrupts bytes d = Ok (d', tt) /\ syna_ok n types o d' /\ starts_well (framerOf d') /\ syna_frame d' = syna_frame d /\
    (framerOf d', framesOf d') = frameBytes bytes (framerOf d, framesOf d).
Proof. apply interrupts_frames. Qed.

End Bytes.

(** Noise, the two bytes of a reset, a packet, and one whose fourth byte cannot be one. *)
Definition framed_bytes : list Z := [0x12; 0xaa; 0x00; 0x90; 0x88; 0x50; 0xc0; 0x10; 0x20; 0x90; 0x88; 0x50; 0x12].

Lemma synaptics_framing_witness : exists d', interrupts framed_bytes (newSynaptics 10 7) = Ok (d', tt) /\
  framesOf d' = [Marker; Marker; Marker; Packet [0x90; 0x88; 0x50; 0xc0; 0x10; 0x20]; Marker].
Proof.
  destruct (synaptics_framing 10 7 None framed_bytes (newSynaptics 10 7)) as (d' & E & _ & _ & _ & V).
  - by apply newSynaptics_ok.
  - vm_compute. done.
  - by repeat constructor.
  - exists d'. split; [exact E|]. apply (f_equal snd) in V. cbn [snd] in V. rewrite V. vm_compute. reflexivity.
Defined.

(** * Packets *)

(** ** Digits *)

(** The low eight bits of a coordinate, the next four, and the last. *)
Definition lowByte (x : Z) : Z := x mod 256.
Definition midNibble (x : Z) : Z := (x / 256) mod 16.
Definition topBit (x : Z) : Z := x / 4096.

Lemma digits x : 0 <= x < 8192 ->
  x = topBit x * 4096 + midNibble x * 256 + lowByte x /\ 0 <= lowByte x < 256 /\ 0 <= midNibble x < 16 /\ 0 <= topBit x < 2.
Proof. unfold lowByte, midNibble, topBit. intros H. Z.div_mod_to_equations. lia. Qed.

Lemma join13 l m t : 0 <= l < 256 -> 0 <= m < 16 -> Z.lor (Z.lor l (Z.shiftl m 8)) (Z.shiftl t 12) = t * 4096 + m * 256 + l.
Proof.
  intros Hl Hm. rewrite (Z.lor_comm l), lor_shiftl_add by (change (2 ^ 8) with 256; lia).
  rewrite Z.lor_comm, lor_shiftl_add by (change (2 ^ 8) with 256; change (2 ^ 12) with 4096; lia).
  change (2 ^ 8) with 256. change (2 ^ 12) with 4096. lia.
Qed.

(** The two halves of a byte. *)
Lemma byte_halves h l : 0 <= h < 16 -> 0 <= l < 16 ->
  Z.land (16 * h + l) 0x0f = l /\ Z.land (16 * h + l) 0xf0 = 16 * h.
Proof.
  intros Hh Hl. pose proof (for_below 256 (fun b => (Z.land b 0x0f =? b mod 16) && (Z.land b 0xf0 =? 16 * (b / 16))) ltac:(vm_compute; reflexivity)
    (16 * h + l) ltac:(lia)) as [E1%Z.eqb_eq E2%Z.eqb_eq]%andb_prop. rewrite E1, E2. Z.div_mod_to_equations. lia.
Qed.

(** ** The first finger *)

Definition firstByte (w : Z) : Z := 0x80 + 4 * (w / 2 mod 2) + 16 * (w / 4).

Definition normalBytes (x y z w : Z) : list Z :=
  [firstByte w;
   16 * midNibble y + midNibble x;
   z;
   0xc0 + 4 * (w mod 2) + 16 * topBit x + 32 * topBit y;
   lowByte x;
   lowByte y].

(** The fourth byte. *)
Lemma fourth_byte a b c : 0 <= a < 2 -> 0 <= b < 2 -> 0 <= c < 2 ->
  let b3 := 0xc0 + 4 * a + 16 * b + 32 * c in
  is_byte b3 /\ canContinue b3 = true /\ b3 <> kSC_Reset /\ Z.land b3 0x04 = 4 * a /\ Z.land b3 0x10 = 16 * b /\ Z.land b3 0x20 = 32 * c.
Proof.
  intros Ha Hb Hc. assert (a = 0 \/ a = 1) as [-> | ->] by lia; assert (b = 0 \/ b = 1) as [-> | ->] by lia;
    assert (c = 0 \/ c = 1) as [-> | ->] by lia; vm_compute; repeat split; discriminate.
Qed.

Lemma firstByte_ok w : 0 <= w < 16 ->
  is_byte (firstByte w) /\ canStart (firstByte w) = true /\ firstByte w <> kSC_Reset /\ firstByte w <> 0 /\
  forall b3, Z.land b3 0x04 = 4 * (w mod 2) -> packetW (firstByte w) b3 = w.
Proof.
  intros Hw. pose proof (for_below 16 (fun w => (0 <=? firstByte w) && (firstByte w <? 256) && canStart (firstByte w) &&
    negb (firstByte w =? kSC_Reset) && negb (firstByte w =? 0) &&
    (Z.lor (Z.lor (Z.shiftr (Z.land (firstByte w) 0x30) 2) (Z.shiftr (Z.land (firstByte w) 0x04) 1)) (Z.shiftr (4 * (w mod 2)) 2) =? w))
    ltac:(vm_compute; reflexivity) w Hw) as H. cbv beta in H. unfold is_byte. generalize dependent (firstByte w). intros b0 H.
  rewrite !andb_true_iff, !negb_true_iff, !Z.eqb_neq in H. destruct H as [[[[[H1 H2] H3] H4] H5] H6].
  split; [lia|]. split; [done|]. split; [done|]. split; [done|].
  intros b3 E. unfold packetW. rewrite E. lia.
Qed.

Lemma normalFinger_eq p0 p1 p2 p3 p4 p5 w f : 4 <= w -> normalFinger [p0; p1; p2; p3; p4; p5] w f =
  Some {| f with hw_x := signedX (normalX p1 p3 p4); hw_y := signedY (normalY p1 p3 p5); hw_z := p2; hw_w := w |}.
Proof. intros Hw. unfold normalFinger. cbn. by rewrite (proj2 (Z.leb_le 4 w) Hw). Qed.

Lemma normalBytes_read x y z w f : 0 <= x < 8192 -> 0 <= y < 8192 -> 4 <= w < 16 ->
  normalFinger (normalBytes x y z w) w f = Some {| f with hw_x := signedX x; hw_y := signedY y; hw_z := z; hw_w := w |}.
Proof.
  intros Hx Hy Hw. destruct (digits x Hx) as (Ex & X1 & X2 & X3), (digits y Hy) as (Ey & Y1 & Y2 & Y3).
  destruct (fourth_byte (w mod 2) (topBit x) (topBit y) ltac:(apply Z.mod_pos_bound; lia) X3 Y3) as (_ & _ & _ & _ & F2 & F3).
  destruct (byte_halves (midNibble y) (midNibble x) Y2 X2) as [G1 G2]. unfold normalBytes. rewrite normalFinger_eq by lia.
  unfold normalX, normalY. rewrite F2, F3, G1, G2.
  replace (Z.shiftl (16 * topBit x) 8) with (Z.shiftl (topBit x) 12) by (rewrite !Z.shiftl_mul_pow2 by done; lia).
  replace (Z.shiftl (32 * topBit y) 7) with (Z.shiftl (topBit y) 12) by (rewrite !Z.shiftl_mul_pow2 by done; lia).
  replace (Z.shiftl (16 * midNibble y) 4) with (Z.shiftl (midNibble y) 8) by (rewrite !Z.shiftl_mul_pow2 by done; lia).
  rewrite !join13 by done. by rewrite <- Ex, <- Ey.
Qed.

(** Two bytes that the interrupt routine takes for a reset. *)
Fixpoint hasReset (last : Z) (l : list Z) : bool :=
  match l with [] => false | b :: l' => (last =? kSC_Reset) && (b =? 0) || hasReset b l' end.

(** A byte of a packet. *)
Lemma frame_step b l p last q : (last =? kSC_Reset) && (b =? 0) = false ->
  match p with [] => canStart b | [_; _; _] => canContinue b | _ => true end = true -> (length p < 5)%nat ->
  frameBytes (b :: l) (mkFramer p last, q) = frameBytes l (mkFramer (p ++ [b]) b, q).
Proof.
  intros H1 H2 H3. cbn [frameBytes fst snd]. unfold frameByte. cbn [fr_last fr_partial]. rewrite H1.
  rewrite (proj2 (Z.eqb_neq _ kPacketLength)) by (rewrite length_app; cbn [length]; unfold kPacketLength; lia).
  destruct p as [|p0 [|p1 [|p2 [|p3 p]]]]; try done; by rewrite H2.
Qed.

(** Six bytes with the right first and fourth one, and no reset among them. *)
Lemma frame_six b0 b1 b2 b3 b4 b5 last q : let p := [b0; b1; b2; b3; b4; b5] in
  canStart b0 = true -> canContinue b3 = true -> hasReset last p = false -> Z.of_nat (length q) + 1 < SYNA_RING / kPacketLength ->
  frameBytes p (mkFramer [] last, q) = (mkFramer [] b5, q ++ [Packet p]).
Proof.
  intros p H0 H3 Hr Hq. subst p. cbn [hasReset] in Hr. rewrite !orb_false_iff in Hr. destruct Hr as (R0 & R1 & R2 & R3 & R4 & R5 & _).
  do 5 (rewrite frame_step by (try done; cbn; lia)). cbn [frameBytes app fst snd]. unfold frameByte. cbn [fr_last fr_partial app length].
  rewrite R5. change (Z.of_nat 6 =? kPacketLength) with true. cbn [enqueueFrame]. by rewrite (proj2 (Z.ltb_lt _ _) Hq).
Qed.

(** ** The second finger *)

(** At half the resolution: [x] and [y] of twelve bits, [z] of six. *)
Definition secondBytes (x y z : Z) : list Z :=
  [0x84; lowByte x; lowByte y; 0xc0 + 16 * (z / 16); 16 * midNibble y + midNibble x; 0x10 + z mod 16].

(** The last byte of a packet of the second finger, and its fourth. *)
Lemma second_bytes_z z : 0 <= z < 64 -> let b3 := 0xc0 + 16 * (z / 16) in let b5 := 0x10 + z mod 16 in
  is_byte b3 /\ is_byte b5 /\ canContinue b3 = true /\ b3 <> kSC_Reset /\ b3 <> 0 /\ b5 <> 0 /\ packetW 0x84 b3 = SYNA_W_EXTENDED /\
  Z.shiftr (Z.land b5 0x30) 4 = 1 /\ Z.shiftl (Z.lor (Z.land b3 0x30) (Z.land b5 0x0f)) 1 = 2 * z /\ Z.land b5 1 = z mod 2.
Proof.
  intros Hz b3 b5. pose proof (for_below 64 (fun z => let b3 := 0xc0 + 16 * (z / 16) in let b5 := 0x10 + z mod 16 in
    (0 <=? b3) && (b3 <? 256) && (0 <=? b5) && (b5 <? 256) && canContinue b3 && negb (b3 =? kSC_Reset) && negb (b3 =? 0) && negb (b5 =? 0) &&
    (packetW 0x84 b3 =? SYNA_W_EXTENDED) && (Z.shiftr (Z.land b5 0x30) 4 =? 1) &&
    (Z.shiftl (Z.lor (Z.land b3 0x30) (Z.land b5 0x0f)) 1 =? 2 * z) && (Z.land b5 1 =? z mod 2)) ltac:(vm_compute; reflexivity) z Hz) as H.
  cbv beta zeta in H. fold b3 b5 in H. clearbody b3 b5. unfold is_byte.
  rewrite !andb_true_iff, !negb_true_iff, !Z.eqb_neq, !Z.eqb_eq, !Z.leb_le, !Z.ltb_lt in H. tauto.
Qed.

Lemma agm_coordinate l m : 0 <= l < 256 -> 0 <= m < 16 -> Z.shiftl (Z.lor (Z.shiftl m 8) l) 1 = 2 * (m * 256 + l).
Proof. intros Hl Hm. rewrite lor_shiftl_add, Z.shiftl_mul_pow2 by (change (2 ^ 8) with 256; lia). change (2 ^ 8) with 256. change (2 ^ 1) with 2. lia. Qed.

Lemma odd_bits a b c : 0 <= a < 2 -> 0 <= b < 2 -> 0 <= c < 2 -> Z.lor (Z.lor (Z.shiftl a 2) (Z.shiftl b 1)) c = 4 * a + 2 * b + c.
Proof.
  intros Ha Hb Hc. assert (a = 0 \/ a = 1) as [-> | ->] by lia; assert (b = 0 \/ b = 1) as [-> | ->] by lia;
    assert (c = 0 \/ c = 1) as [-> | ->] by lia; done.
Qed.

(** The second finger of the packet for [x], [y], [z]. *)
Definition secondFinger (x y z : Z) (f : synaptics_hw_state) : synaptics_hw_state :=
  {| f with hw_x := signedX (2 * x); hw_y := signedY (2 * y); hw_z := 2 * z; hw_w := 8 + (4 * (z mod 2) + 2 * (y mod 2) + x mod 2) |}.

Lemma digits12 x : 0 <= x < 4096 -> x = midNibble x * 256 + lowByte x /\ 0 <= lowByte x < 256 /\ 0 <= midNibble x < 16 /\ lowByte x mod 2 = x mod 2.
Proof. unfold lowByte, midNibble. intros H. Z.div_mod_to_equations. lia. Qed.

Lemma secondBytes_read x y z t : 0 <= x < 4096 -> 0 <= y < 4096 -> 0 <= z < 64 ->
  synaptics_parse_agm_packet (secondBytes x y z) t = onHw 1 (secondFinger x y z) t.
Proof.
  intros Hx Hy Hz. destruct (digits12 x Hx) as (Ex & X1 & X2 & X3), (digits12 y Hy) as (Ey & Y1 & Y2 & Y3).
  destruct (second_bytes_z z Hz) as (_ & _ & _ & _ & _ & _ & _ & E1 & E2 & E3).
  destruct (byte_halves (midNibble y) (midNibble x) Y2 X2) as [G1 G2]. unfold secondBytes. rewrite agmPacket_eq, E1.
  unfold onHw. destruct (hwAt 1 t) as [f|]; [|done]. cbn [mbind option_bind]. do 4 f_equal. unfold agmFinger, secondFinger, agmX, agmY.
  rewrite E2, E3, G1, G2. replace (Z.shiftl (16 * midNibble y) 4) with (Z.shiftl (midNibble y) 8) by (rewrite !Z.shiftl_mul_pow2 by done; lia).
  rewrite !agm_coordinate, <- Ex, <- Ey by done. assert (Hodd : forall v, Z.land v 1 = v mod 2) by (intros v; by apply (land_low 1)).
  rewrite !Hodd, odd_bits by (try apply Z.mod_pos_bound; lia). by rewrite X3, Y3.
Qed.

(** ** Through the interrupt routine *)

(** The pair of low bytes that is taken for a reset. *)
Definition looksLikeReset (x y : Z) : bool := (lowByte x =? kSC_Reset) && (lowByte y =? 0).

Lemma normalBytes_frame x y z w last q : 0 <= x < 8192 -> 0 <= y < 8192 -> 0 < z < 256 -> 4 <= w < 16 -> looksLikeReset x y = false ->
  Z.of_nat (length q) + 1 < SYNA_RING / kPacketLength ->
  Forall is_byte (normalBytes x y z w) /\
  frameBytes (normalBytes x y z w) (mkFramer [] last, q) = (mkFramer [] (lowByte y), q ++ [Packet (normalBytes x y z w)]).
Proof.
  intros Hx Hy Hz Hw Hr Hq. destruct (digits x Hx) as (_ & X1 & X2 & X3), (digits y Hy) as (_ & Y1 & Y2 & Y3).
  destruct (fourth_byte (w mod 2) (topBit x) (topBit y) ltac:(apply Z.mod_pos_bound; lia) X3 Y3) as (F1 & F2 & F3 & _).
  destruct (firstByte_ok w ltac:(lia)) as (B1 & B2 & B3 & B4 & _). unfold normalBytes. split.
  - rewrite !Forall_cons, Forall_nil. unfold is_byte in *. lia.
  - apply frame_six; [done..| |done]. unfold looksLikeReset in Hr. cbn [hasReset]. rewrite Hr.
    rewrite (proj2 (Z.eqb_neq _ _) B3), (proj2 (Z.eqb_neq _ _) B4), (proj2 (Z.eqb_neq _ _) F3), (proj2 (Z.eqb_neq z 0)) by lia.
    rewrite (proj2 (Z.eqb_neq (0xc0 + _ + _ + _) 0)) by (pose proof (Z.mod_pos_bound w 2 ltac:(lia)); lia). by rewrite !andb_false_r.
Qed.

Lemma secondBytes_frame x y z last q : 0 <= x < 4096 -> 0 <= y < 4096 -> 0 <= z < 64 -> looksLikeReset x y = false ->
  Z.of_nat (length q) + 1 < SYNA_RING / kPacketLength ->
  Forall is_byte (secondBytes x y z) /\
  frameBytes (secondBytes x y z) (mkFramer [] last, q) = (mkFramer [] (0x10 + z mod 16), q ++ [Packet (secondBytes x y z)]).
Proof.
  intros Hx Hy Hz Hr Hq. destruct (digits12 x Hx) as (_ & X1 & X2 & _), (digits12 y Hy) as (_ & Y1 & Y2 & _).
  destruct (second_bytes_z z Hz) as (F1 & F2 & F3 & F4 & F5 & F6 & _). unfold secondBytes. split.
  - rewrite !Forall_cons, Forall_nil. unfold is_byte in *. lia.
  - apply frame_six; [done..| |done]. unfold looksLikeReset in Hr. cbn [hasReset]. rewrite Hr.
    rewrite (proj2 (Z.eqb_neq _ _) F4), (proj2 (Z.eqb_neq _ _) F5), (proj2 (Z.eqb_neq _ _) F6). by rewrite !andb_false_r.
Qed.



(** Of a finger at the excluded place the driver keeps nothing, and takes the packet for a
    reset. *)
Theorem place_taken_for_reset : exists d', interrupts (normalBytes 0x2aa 0x300 80 5) (newSynaptics 10 7) = Ok (d', tt) /\ framesOf d' = [Marker].
Proof. eexists. split; [vm_compute; reflexivity|]. vm_compute. reflexivity. Qed.
