(* ===== verification/Alps.v ===== *)
(** * The ALPS touchpad driver: data and bytes

    The types, tables and members of VoodooPS2ALPSGlidePoint.h and its interrupt routine.
    Pointers to member functions are names of the functions they may hold, null at first;
    a packet that the routine reads or writes through [head()] may reach past its slot,
    since the count of its bytes is only reset by the work loop. *)
From S2P Require Import Prelude PS2Types RingBuffer Bus DriverWorld RingLoop OSTypes Touch Trackpad.

(** ** Constants *)

Definition ALPS_PROTO_V1 : Z := 0x100.
Definition ALPS_PROTO_V2 : Z := 0x200.
Definition ALPS_PROTO_V3 : Z := 0x300.
Definition ALPS_PROTO_V3_RUSHMORE : Z := 0x310.
Definition ALPS_PROTO_V4 : Z := 0x400.
Definition ALPS_PROTO_V5 : Z := 0x500.
Definition ALPS_PROTO_V6 : Z := 0x600.
Definition ALPS_PROTO_V7 : Z := 0x700.
Definition ALPS_PROTO_V8 : Z := 0x800.
Definition ALPS_PROTO_V9 : Z := 0x900.

Definition MAX_TOUCHES : Z := 5.
Definition ALPS_QUIRK_TRACKSTICK_BUTTONS : Z := 1.

Definition ALPS_REG_BASE_RUSHMORE : Z := 0xc2c0.
Definition ALPS_REG_BASE_V7 : Z := 0xc2c0.
Definition ALPS_REG_BASE_PINNACLE : Z := 0x0000.

Definition ALPS_DUALPOINT : Z := 0x02.
Definition ALPS_PASS : Z := 0x04.
Definition ALPS_WHEEL : Z := 0x08.
Definition ALPS_FW_BK_1 : Z := 0x10.
Definition ALPS_FW_BK_2 : Z := 0x20.
Definition ALPS_FOUR_BUTTONS : Z := 0x40.
Definition ALPS_PS2_INTERLEAVED : Z := 0x80.
Definition ALPS_STICK_BITS : Z := 0x100.
Definition ALPS_BUTTONPAD : Z := 0x200.
Definition ALPS_DUALPOINT_WITH_PRESSURE : Z := 0x400.

Definition kPacketLength : Z := 6.
Definition kDP_CommandNibble10 : Z := 0xf2.
Definition ABS_POS_BITS : Z := 13.
Definition X_MAX_POSITIVE : Z := 8176.
Definition Y_MAX_POSITIVE : Z := 8176.
Definition XMAX : Z := 6143.
Definition YMAX : Z := 6143.

(** The ring's size. *)
Definition ALPS_RING : Z := kPacketLength * 32.

(** ** Tables *)

(** How a nibble is sent: the command, with the numbers of bytes to send and to receive above
    it, and the byte to send. *)
Record alps_nibble_commands := mkNibble { nb_command : Z; nb_data : Z }.

Definition alps_v3_nibble_commands : list alps_nibble_commands :=
  [mkNibble kDP_MouseSetPoll 0x00; mkNibble kDP_SetDefaults 0x00; mkNibble kDP_SetMouseScaling2To1 0x00;
   mkNibble (Z.lor kDP_SetMouseSampleRate 0x1000) 0x0a; mkNibble (Z.lor kDP_SetMouseSampleRate 0x1000) 0x14;
   mkNibble (Z.lor kDP_SetMouseSampleRate 0x1000) 0x28; mkNibble (Z.lor kDP_SetMouseSampleRate 0x1000) 0x3c;
   mkNibble (Z.lor kDP_SetMouseSampleRate 0x1000) 0x50; mkNibble (Z.lor kDP_SetMouseSampleRate 0x1000) 0x64;
   mkNibble (Z.lor kDP_SetMouseSampleRate 0x1000) 0xc8; mkNibble (Z.lor kDP_CommandNibble10 0x0100) 0x00;
   mkNibble (Z.lor kDP_SetMouseResolution 0x1000) 0x00; mkNibble (Z.lor kDP_SetMouseResolution 0x1000) 0x01;
   mkNibble (Z.lor kDP_SetMouseResolution 0x1000) 0x02; mkNibble (Z.lor kDP_SetMouseResolution 0x1000) 0x03;
   mkNibble kDP_SetMouseScaling1To1 0x00].

Definition alps_v4_nibble_commands : list alps_nibble_commands :=
  [mkNibble kDP_Enable 0x00; mkNibble kDP_SetDefaults 0x00; mkNibble kDP_SetMouseScaling2To1 0x00;
   mkNibble (Z.lor kDP_SetMouseSampleRate 0x1000) 0x0a; mkNibble (Z.lor kDP_SetMouseSampleRate 0x1000) 0x14;
   mkNibble (Z.lor kDP_SetMouseSampleRate 0x1000) 0x28; mkNibble (Z.lor kDP_SetMouseSampleRate 0x1000) 0x3c;
   mkNibble (Z.lor kDP_SetMouseSampleRate 0x1000) 0x50; mkNibble (Z.lor kDP_SetMouseSampleRate 0x1000) 0x64;
   mkNibble (Z.lor kDP_SetMouseSampleRate 0x1000) 0xc8; mkNibble (Z.lor kDP_CommandNibble10 0x0100) 0x00;
   mkNibble (Z.lor kDP_SetMouseResolution 0x1000) 0x00; mkNibble (Z.lor kDP_SetMouseResolution 0x1000) 0x01;
   mkNibble (Z.lor kDP_SetMouseResolution 0x1000) 0x02; mkNibble (Z.lor kDP_SetMouseResolution 0x1000) 0x03;
   mkNibble kDP_SetMouseScaling1To1 0x00].

Definition alps_v6_nibble_commands : list alps_nibble_commands :=
  [mkNibble kDP_Enable 0x00; mkNibble kDP_SetMouseSampleRate 0x0a; mkNibble kDP_SetMouseSampleRate 0x14;
   mkNibble kDP_SetMouseSampleRate 0x28; mkNibble kDP_SetMouseSampleRate 0x3c; mkNibble kDP_SetMouseSampleRate 0x50;
   mkNibble kDP_SetMouseSampleRate 0x64; mkNibble kDP_SetMouseSampleRate 0xc8; mkNibble kDP_GetId 0x00;
   mkNibble kDP_GetMouseInformation 0x00; mkNibble kDP_SetMouseResolution 0x00; mkNibble kDP_SetMouseResolution 0x01;
   mkNibble kDP_SetMouseResolution 0x02; mkNibble kDP_SetMouseResolution 0x03; mkNibble kDP_SetMouseScaling2To1 0x00;
   mkNibble kDP_SetMouseScaling1To1 0x00].

(** [alps_model_info] with its [alps_protocol_info]. *)
Record alps_model_info := mkModel { signature : list Z; mi_version : Z; mi_byte0 : Z; mi_mask0 : Z; mi_flags : Z }.

Definition passDual : Z := Z.lor ALPS_PASS ALPS_DUALPOINT.

Definition alps_model_data : list alps_model_info :=
  [mkModel [0x20; 0x02; 0x0e] ALPS_PROTO_V2 0xf8 0xf8 passDual;
   mkModel [0x22; 0x02; 0x0a] ALPS_PROTO_V2 0xf8 0xf8 passDual;
   mkModel [0x22; 0x02; 0x14] ALPS_PROTO_V2 0xff 0xff passDual;
   mkModel [0x32; 0x02; 0x14] ALPS_PROTO_V2 0xf8 0xf8 passDual;
   mkModel [0x33; 0x02; 0x0a] ALPS_PROTO_V1 0x88 0xf8 0;
   mkModel [0x52; 0x01; 0x14] ALPS_PROTO_V2 0xff 0xff (Z.lor passDual ALPS_PS2_INTERLEAVED);
   mkModel [0x53; 0x02; 0x0a] ALPS_PROTO_V2 0xf8 0xf8 0;
   mkModel [0x53; 0x02; 0x14] ALPS_PROTO_V2 0xf8 0xf8 0;
   mkModel [0x60; 0x03; 0xc8] ALPS_PROTO_V2 0xf8 0xf8 0;
   mkModel [0x62; 0x02; 0x14] ALPS_PROTO_V2 0xcf 0xcf (Z.lor passDual ALPS_PS2_INTERLEAVED);
   mkModel [0x63; 0x02; 0x0a] ALPS_PROTO_V2 0xf8 0xf8 0;
   mkModel [0x63; 0x02; 0x14] ALPS_PROTO_V2 0xf8 0xf8 0;
   mkModel [0x63; 0x02; 0x28] ALPS_PROTO_V2 0xf8 0xf8 ALPS_FW_BK_2;
   mkModel [0x63; 0x02; 0x3c] ALPS_PROTO_V2 0x8f 0x8f ALPS_WHEEL;
   mkModel [0x63; 0x02; 0x50] ALPS_PROTO_V2 0xef 0xef ALPS_FW_BK_1;
   mkModel [0x63; 0x02; 0x64] ALPS_PROTO_V2 0xf8 0xf8 0;
   mkModel [0x63; 0x03; 0xc8] ALPS_PROTO_V2 0xf8 0xf8 passDual;
   mkModel [0x73; 0x00; 0x0a] ALPS_PROTO_V2 0xf8 0xf8 ALPS_DUALPOINT;
   mkModel [0x73; 0x00; 0x14] ALPS_PROTO_V6 0xff 0xff ALPS_DUALPOINT;
   mkModel [0x73; 0x02; 0x0a] ALPS_PROTO_V2 0xf8 0xf8 0;
   mkModel [0x73; 0x02; 0x14] ALPS_PROTO_V2 0xf8 0xf8 ALPS_FW_BK_2;
   mkModel [0x73; 0x02; 0x50] ALPS_PROTO_V2 0xcf 0xcf ALPS_FOUR_BUTTONS].

(** ** Data *)

Record input_mt_pos := mkPos { mt_x : Z; mt_y : Z }.
Definition noPos : input_mt_pos := mkPos 0 0.

(** The decoded packet; [mt] has [MAX_TOUCHES] elements. *)
Record alps_fields := mkFields {
  x_map : Z; y_map : Z; fingers : Z; pressure : Z; st : input_mt_pos; mt : list input_mt_pos;
  first_mp : bool; is_mp : bool;
  f_left : bool; f_right : bool; f_middle : bool; ts_left : bool; ts_right : bool; ts_middle : bool }.

(** [memset(&f, 0, sizeof(f))] *)
Definition noFields : alps_fields := {|
  x_map := 0; y_map := 0; fingers := 0; pressure := 0; st := noPos; mt := replicate (Z.to_nat MAX_TOUCHES) noPos;
  first_mp := false; is_mp := false;
  f_left := false; f_right := false; f_middle := false; ts_left := false; ts_right := false; ts_middle := false |}.

(** Without the member [f], which nothing uses. *)
Record alps_data := mkAlpsData {
  nibble_commands : option (list alps_nibble_commands);
  addr_command : Z; proto_version : Z; byte0 : Z; mask0 : Z; dev_id : list Z; fw_ver : list Z; flags : Z;
  x_max : Z; y_max : Z; x_bits : Z; y_bits : Z; x_res : Z; y_res : Z;
  prev_fin : Z; multi_packet : Z; second_touch : Z; multi_data : list Z; quirks : Z;
  PSMOUSE_BAD_DATA : bool; pktsize : Z }.

Record alps_virtual_finger_state := mkVirtual { vf_x : Z; vf_y : Z; vf_pressure : Z; vf_touch : bool; vf_button : bool }.

(** What the three pointers to members may hold. *)
Inductive HwInit := InitV1V2 | InitV3 | InitRushmore | InitV4 | InitDolphin | InitV6 | InitV7 | InitSS4.
Inductive DecodeFields := DecodePinnacle | DecodeRushmore | DecodeDolphin | DecodeV7 | DecodeSS4.
Inductive ProcessPacket := ProcessV1V2 | ProcessV3 | ProcessV4 | ProcessV3V5 | ProcessV6 | ProcessV7 | ProcessSS4.

(** The members that settings set. *)
Record AlpsSettings := mkAlpsSettings {
  xupmm : Z; yupmm : Z;
  minXOverride : Z; minYOverride : Z; maxXOverride : Z; maxYOverride : Z;
  _forceTouchMode : Z; _forceTouchPressureThreshold : Z;
  _forceTouchCustomDownThreshold : Z; _forceTouchCustomUpThreshold : Z; _forceTouchCustomPower : Z;
  z_finger : Z; maxaftertyping : Z; wakedelay : Z;
  usb_mouse_stops_trackpad : bool; _processusbmouse : bool; _processbluetoothmouse : bool }.

(** [_cmdGate] says whether there is one, [usb_notify] and [bluetooth_notify] whether the two
    notifiers of that kind were made. *)
Record ApplePS2ALPSGlidePoint := mkAlps {
  voodooInputInstance : option Z;
  _device : option Z;
  _interruptHandlerInstalled : bool;
  _powerControlHandlerInstalled : bool;
  _ringBuffer : RingBuffer Z;
  _packetByteCount : Z;
  _cmdGate : bool;
  inputEvent : VoodooInputEvent;
  clicked : bool; b_left : bool; b_right : bool; b_middle : bool; left_ts : bool;
  margin_size_x : Z;
  logical_max_x : Z; logical_max_y : Z; physical_max_x : Z; physical_max_y : Z;
  virtualFingerStates : list alps_virtual_finger_state;
  clampedFingerCount : Z; lastFingerCount : Z; reportVoodooInput : bool;
  settings : AlpsSettings;
  lastbuttons : Z; lastTrackStickButtons : Z; lastTouchpadButtons : Z;
  keytime : Z;
  ignoreall : bool;
  attachedHIDPointerDevices : option (list Z);
  usb_notify : bool;
  bluetooth_notify : bool;
  _modifierdown : Z;
  priv : alps_data;
  hw_init : option HwInit;
  decode_fields : option DecodeFields;
  process_packet : option ProcessPacket }.

Definition newPriv : alps_data := {|
  nibble_commands := None; addr_command := 0; proto_version := 0; byte0 := 0; mask0 := 0;
  dev_id := [0; 0; 0]; fw_ver := [0; 0; 0]; flags := 0;
  x_max := 0; y_max := 0; x_bits := 0; y_bits := 0; x_res := 0; y_res := 0;
  prev_fin := 0; multi_packet := 0; second_touch := 0; multi_data := [0; 0; 0; 0; 0; 0]; quirks := 0;
  PSMOUSE_BAD_DATA := false; pktsize := 6 |}.

Definition initSettings : AlpsSettings := {|
  xupmm := 50; yupmm := 50; minXOverride := -1; minYOverride := -1; maxXOverride := -1; maxYOverride := -1;
  _forceTouchMode := FORCE_TOUCH_DISABLED; _forceTouchPressureThreshold := 100;
  _forceTouchCustomDownThreshold := 90; _forceTouchCustomUpThreshold := 20; _forceTouchCustomPower := 8;
  z_finger := 45; maxaftertyping := 100000000; wakedelay := 1000;
  usb_mouse_stops_trackpad := true; _processusbmouse := true; _processbluetoothmouse := true |}.

(** The object as constructor and [init] leave it, on memory that [OSObject] zero-fills;
    [n] is VoodooInput's [VOODOO_INPUT_MAX_TRANSDUCERS]. *)
Definition newAlps (n : Z) : ApplePS2ALPSGlidePoint := {|
  voodooInputInstance := None; _device := None;
  _interruptHandlerInstalled := false; _powerControlHandlerInstalled := false;
  _ringBuffer := mkRing (replicate (Z.to_nat ALPS_RING) 0) 0 0; _packetByteCount := 0; _cmdGate := false;
  inputEvent := mkInputEvent (replicate (Z.to_nat n) noTransducer) 0 0;
  clicked := false; b_left := false; b_right := false; b_middle := false; left_ts := false;
  margin_size_x := 0; logical_max_x := 0; logical_max_y := 0; physical_max_x := 0; physical_max_y := 0;
  virtualFingerStates := replicate (Z.to_nat MAX_TOUCHES) (mkVirtual 0 0 0 false false);
  clampedFingerCount := 0; lastFingerCount := 0; reportVoodooInput := false;
  settings := initSettings; lastbuttons := 0; lastTrackStickButtons := 0; lastTouchpadButtons := 0;
  keytime := 0; ignoreall := false; attachedHIDPointerDevices := None; usb_notify := false; bluetooth_notify := false;
  _modifierdown := 0; priv := newPriv; hw_init := None; decode_fields := None; process_packet := None |}.

(** What the driver tells VoodooInput and the I/O registry. *)
Inductive AlpsKey :=
| akLogicalMaxX | akLogicalMaxY | akPhysicalMaxX | akPhysicalMaxY | akTransform | akNamed (name : string).

Inductive AlpsValue := AlpsNumber (z : Z) | AlpsBoolean (b : bool).

Inductive AlpsEvent :=
| AlpsTouchEvent (client : Z) (e : VoodooInputEvent)
| AlpsPointer (client timestamp dx dy buttons : Z)
| AlpsScroll (client timestamp deltaAxis1 deltaAxis2 : Z)
| AlpsSet (key : AlpsKey) (v : AlpsValue)
| AlpsInject (key : string) (o : OSObject)
| AlpsRegister.

#[export] Instance alps_configured : Configured ApplePS2ALPSGlidePoint AlpsSettings AlpsEvent := {|
  onSettings f d := {| d with settings := f (settings d) |};
  numberSet name v := AlpsSet (akNamed name) (AlpsNumber v);
  number64Set name v := AlpsSet (akNamed name) (AlpsNumber v);
  booleanSet name v := AlpsSet (akNamed name) (AlpsBoolean v) |}.

(** ** Bytes from the touchpad *)

Section Bytes.
#[local] Abbreviation C := (M ApplePS2ALPSGlidePoint).

(** [packet[i]] and [packet[i] = x], where [packet] is [_ringBuffer.head()]. *)
Definition packetByte (i : Z) : C Z := rb ← gets _ringBuffer; deref (head_get i rb).
Definition storeByte (i x : Z) : C unit :=
  rb ← gets _ringBuffer; rb ← deref (head_set i x rb); modify (fun d => {| d with _ringBuffer := rb |}).

Definition setBad (b : bool) : C unit := modify (fun d => {| d with priv := {| (priv d) with PSMOUSE_BAD_DATA := b |} |}).

Definition commitPacket : C PS2InterruptResult :=
  modify (fun d => {| d with _ringBuffer := advanceHead ALPS_RING (pktsize (priv d)) (_ringBuffer d) |}) ;; ret kPS2IR_packetReady.

Definition badPacket : C PS2InterruptResult := setBad true ;; commitPacket.

(** [packet[_packetByteCount++] = data] *)
Definition appendByte (data : Z) : C unit :=
  n ← gets _packetByteCount; storeByte n data ;; modify (fun d => {| d with _packetByteCount := u32 (n + 1) |}).

(** A test that reads a byte only when its condition holds. *)
Definition byteTest (cond : bool) (i : Z) (test : Z -> bool) : C bool :=
  if cond then b ← packetByte i; ret (test b) else ret false.

(** A bare PS/2 packet, which V8 packets cannot be told from. *)
Definition bareByte (data : Z) : C PS2InterruptResult :=
  n ← gets _packetByteCount;
  if n =? 3 then badPacket else appendByte data ;; ret kPS2IR_packetBuffering.

(** The tests on the bytes so far, in the order they are made: whether one fails. *)
Definition invalidPacket : C bool :=
  n ← gets _packetByteCount;
  p ← gets priv;
  interleaved ← byteTest (nz (Z.land (flags p) ALPS_PS2_INTERLEAVED) && (4 <=? n)) 3 (fun b => Z.land b 0x0f =? 0x0f);
  if interleaved : bool then ret true else
  first ← byteTest true 0 (fun b => negb (Z.land b (mask0 p) =? byte0 p));
  if first : bool then ret true else
  high ← byteTest ((proto_version p <? ALPS_PROTO_V5) && (2 <=? n) && (n <=? pktsize p)) (n - 1) (fun b => nz (Z.land b 0x80));
  if high : bool then ret true else
  let v7 := proto_version p =? ALPS_PROTO_V7 in
  a ← byteTest (v7 && (n =? 3)) 2 (fun b => negb (Z.land b 0x40 =? 0x40));
  if a : bool then ret true else
  a ← byteTest (v7 && (n =? 4)) 3 (fun b => negb (Z.land b 0x48 =? 0x48));
  if a : bool then ret true else
  a ← byteTest (v7 && (n =? 6)) 5 (fun b => negb (Z.land b 0x40 =? 0x0));
  if a : bool then ret true else
  let v8 := proto_version p =? ALPS_PROTO_V8 in
  a ← byteTest (v8 && (n =? 4)) 3 (fun b => negb (Z.land b 0x08 =? 0x08));
  if a : bool then ret true else
  byteTest (v8 && (n =? 6)) 5 (fun b => negb (Z.land b 0x10 =? 0x0)).

Definition interruptOccurred (data : Z) : C PS2InterruptResult :=
  let data := u8 data in
  n ← gets _packetByteCount;
  when (0 =? n) (storeByte 0 data) ;;
  setBad false ;;
  p ← gets priv;
  b0 ← packetByte 0;
  if negb (proto_version p =? ALPS_PROTO_V8) && (Z.land b0 0xc8 =? 0x08) then bareByte data else
  bad ← invalidPacket;
  if bad : bool then badPacket else
  appendByte data ;;
  n ← gets _packetByteCount;
  if n =? pktsize p then commitPacket else ret kPS2IR_packetBuffering.

(** The nub passes a byte on once the driver has installed its action. *)
Definition interruptAction (data : Z) : C PS2InterruptResult :=
  i ← gets _interruptHandlerInstalled; if i : bool then interruptOccurred data else ret kPS2IR_packetBuffering.

End Bytes.

#[export] Instance alps_driver : BusDriver ApplePS2ALPSGlidePoint := {|
  drv_interrupt := interruptAction;
  drv_device := _device;
  drv_installed := _interruptHandlerInstalled |}.

#[export] Instance alps_ring : PacketRing ApplePS2ALPSGlidePoint := {|
  ringSize := ALPS_RING;
  ringPacket d := pktsize (priv d);
  ringOf := _ringBuffer;
  setRing rb d := {| d with _ringBuffer := rb |} |}.
