(* ===== verification/AlpsDecode.v ===== *)
(** * The ALPS touchpad driver: packets

    The decoders of VoodooPS2ALPSGlidePoint.cpp and the bitmaps of the semi-multitouch
    protocols.  A packet is read at constant places only, so once it is known to be long
    enough it is a function from places to bytes. *)
From S2P Require Import Prelude PS2Types RingBuffer Bus DriverWorld RingLoop OSTypes Touch Trackpad Alps.

Implicit Types (f : alps_fields) (priv : alps_data) (p : Z -> Z).

(** The bytes of a packet that is read up to the place [n - 1]; [None] is a read past its end. *)
Definition readable (n : Z) (packet : list Z) : option (Z -> Z) :=
  if n <=? Z.of_nat (length packet) then Some (fun i => nth (Z.to_nat i) packet 0) else None.

Definition mtAt (i : Z) f : input_mt_pos := nth (Z.to_nat i) (mt f) noPos.
Definition setMt (i x y : Z) f : alps_fields := {| f with mt := <[Z.to_nat i := mkPos x y]> (mt f) |}.

Definition bit (z mask : Z) : bool := nz (Z.land z mask).

(** ** Bitmaps *)

Record alps_bitmap_point := mkPoint { start_bit : Z; num_bits : Z }.
Definition noPoint : alps_bitmap_point := mkPoint 0 0.

(** [alps_get_bitmap_points]; [sc_at_high] says which of the two [point] is. *)
Record BitmapScan := mkScan { sc_low : alps_bitmap_point; sc_high : alps_bitmap_point; sc_at_high : bool; sc_fingers : Z; sc_prev : bool }.

Definition onPoint (g : alps_bitmap_point -> alps_bitmap_point) (s : BitmapScan) : BitmapScan :=
  if sc_at_high s then {| s with sc_high := g (sc_high s) |} else {| s with sc_low := g (sc_low s) |}.

(** Bit [i] of the map. *)
Definition scanBit (i : Z) (b : bool) (s : BitmapScan) : BitmapScan :=
  if b then
    let s := if sc_prev s then s else {| (onPoint (fun _ => mkPoint i 0) s) with sc_fingers := sc_fingers s + 1 |} in
    {| (onPoint (fun q => {| q with num_bits := num_bits q + 1 |}) s) with sc_prev := true |}
  else {| s with sc_at_high := sc_at_high s || sc_prev s; sc_prev := false |}.

(** A map has [n] bits at most. *)
Fixpoint scanBits (n : nat) (i map : Z) (s : BitmapScan) : BitmapScan :=
  match n with
  | O => s
  | S n => if map =? 0 then s else scanBits n (i + 1) (Z.shiftr map 1) (scanBit i (bit map 1) s)
  end.

Definition alps_get_bitmap_points (map : Z) : BitmapScan := scanBits 32 0 map (mkScan noPoint noPoint false 0 false).

(** A single contact is divided between the two points. *)
Definition divideContact (s : BitmapScan) : alps_bitmap_point * alps_bitmap_point :=
  let '(low, high) := (sc_low s, sc_high s) in
  if sc_fingers s =? 1 then
    let i := Z.quot (num_bits low - 1) 2 in
    ({| low with num_bits := num_bits low - i |}, mkPoint (start_bit low + i) (Z.max i 1))
  else (low, high).

(** A coordinate of a corner; [None] is a division by zero. *)
Definition cornerAt (max bits : Z) (q : alps_bitmap_point) : option Z :=
  if bits =? 1 then None
  else Some (u32 (Z.quot (s32 (max * (2 * start_bit q + num_bits q - 1))) (2 * (bits - 1)))).

(** The corner nearest to [st]: the first of the smallest distances. *)
Fixpoint nearestCorner (pos : input_mt_pos) (corners : list input_mt_pos) (i closest second : Z) : Z :=
  match corners with
  | [] => second
  | c :: corners' =>
    let dx := s32 (mt_x pos - mt_x c) in
    let dy := s32 (mt_y pos - mt_y c) in
    let distance := s32 (dx * dx + dy * dy) in
    if distance <? closest then nearestCorner pos corners' (i + 1) distance i
    else nearestCorner pos corners' (i + 1) closest second
  end.

(** The number of fingers, the driver's data and the fields after the call. *)
Definition alps_process_bitmap priv f : option (Z * alps_data * alps_fields) :=
  if (x_map f =? 0) || (y_map f =? 0) then Some (0, priv, f) else
  let sx := alps_get_bitmap_points (x_map f) in
  let sy := alps_get_bitmap_points (y_map f) in
  let '(x_low, x_high) := divideContact sx in
  let '(y_low, y_high) := divideContact sy in
  xl ← cornerAt (x_max priv) (x_bits priv) x_low; xh ← cornerAt (x_max priv) (x_bits priv) x_high;
  yl ← cornerAt (y_max priv) (y_bits priv) y_low; yh ← cornerAt (y_max priv) (y_bits priv) y_high;
  let flipX x := if proto_version priv =? ALPS_PROTO_V5 then u32 (x_max priv - x) else x in
  let flipY y := if (proto_version priv =? ALPS_PROTO_V3) || (proto_version priv =? ALPS_PROTO_V4) then u32 (y_max priv - y) else y in
  let corner := [mkPos (flipX xl) (flipY yl); mkPos (flipX xh) (flipY yl); mkPos (flipX xh) (flipY yh); mkPos (flipX xl) (flipY yh)] in
  let second := if second_touch priv =? -1 then Z.rem (nearestCorner (st f) corner 0 0x7fffffff (-1) + 2) 4 else second_touch priv in
  c ← arr_get corner second;
  Some (Z.max (sc_fingers sx) (sc_fingers sy), {| priv with second_touch := second |},
        setMt 1 (mt_x c) (mt_y c) (setMt 0 (mt_x (st f)) (mt_y (st f)) f)).

(** ** Versions 3 and 5 *)

Definition alps_decode_buttons_v3 p f : alps_fields :=
  {| f with f_left := bit (p 3) 0x01; f_right := bit (p 3) 0x02; f_middle := bit (p 3) 0x04;
            ts_left := bit (p 3) 0x10; ts_right := bit (p 3) 0x20; ts_middle := bit (p 3) 0x40 |}.

(** The position of a pinnacle or a rushmore touchpad. *)
Definition positionV3 p f : alps_fields :=
  alps_decode_buttons_v3 p
    {| f with st := mkPos (Z.lor (Z.lor (Z.shiftl (Z.land (p 1) 0x7f) 4) (Z.shiftr (Z.land (p 4) 0x30) 2)) (Z.shiftr (Z.land (p 0) 0x30) 4))
                          (Z.lor (Z.shiftl (Z.land (p 2) 0x7f) 4) (Z.land (p 4) 0x0f));
              pressure := Z.land (p 5) 0x7f |}.

Definition mapX p : Z :=
  Z.lor (Z.lor (Z.shiftl (Z.land (p 4) 0x7e) 8) (Z.shiftl (Z.land (p 1) 0x7f) 2)) (Z.shiftr (Z.land (p 0) 0x30) 4).
Definition mapY p : Z :=
  Z.lor (Z.lor (Z.shiftl (Z.land (p 3) 0x70) 4) (Z.shiftl (Z.land (p 2) 0x7f) 1)) (Z.land (p 4) 0x01).

Definition alps_decode_pinnacle p f : alps_fields :=
  let f := {| f with first_mp := bit (p 4) 0x40; is_mp := bit (p 0) 0x40 |} in
  if is_mp f then {| f with fingers := Z.land (p 5) 0x3 + 1; x_map := mapX p; y_map := mapY p |}
  else positionV3 p f.

Definition alps_decode_rushmore p f : alps_fields :=
  let f := {| f with first_mp := bit (p 4) 0x40; is_mp := bit (p 5) 0x40 |} in
  if is_mp f then
    {| f with fingers := Z.max (Z.land (p 5) 0x3) (Z.land (Z.shiftr (p 5) 2) 0x3) + 1;
              x_map := Z.lor (Z.shiftl (Z.land (p 5) 0x10) 11) (mapX p);
              y_map := Z.lor (Z.shiftl (Z.land (p 5) 0x20) 6) (mapY p) |}
  else positionV3 p f.

Definition dolphinPalm p : Z :=
  Z.lor (Z.lor (Z.lor (Z.lor (Z.lor (Z.lor (Z.land (p 1) 0x7f) (Z.shiftl (Z.land (p 2) 0x7f) 7)) (Z.shiftl (Z.land (p 4) 0x7f) 14))
    (Z.shiftl (Z.land (p 5) 0x7f) 21)) (Z.shiftl (Z.land (p 3) 0x07) 28)) (Z.shiftl (Z.land (p 3) 0x70) 27)) (Z.shiftl (Z.land (p 0) 0x01) 34).

Definition alps_decode_dolphin priv p f : alps_fields :=
  let f := {| f with first_mp := bit (p 0) 0x02; is_mp := bit (p 0) 0x20 |} in
  if negb (is_mp f) then
    alps_decode_buttons_v3 p
      {| f with st := mkPos (Z.lor (Z.land (p 1) 0x7f) (Z.shiftl (Z.land (p 4) 0x0f) 7)) (Z.lor (Z.land (p 2) 0x7f) (Z.shiftl (Z.land (p 4) 0xf0) 3));
                pressure := if bit (p 0) 4 then 0 else Z.land (p 5) 0x7f |}
  else
    {| f with fingers := Z.lor (Z.shiftr (Z.land (p 0) 0x6) 1) (Z.shiftr (Z.land (p 0) 0x10) 2);
              y_map := Z.land (dolphinPalm p) (Z.shiftl 1 (y_bits priv) - 1);
              x_map := Z.land (Z.shiftr (dolphinPalm p) (y_bits priv)) (Z.shiftl 1 (x_bits priv) - 1) |}.

(** ** Version 7 *)

Inductive V7_PACKET_ID := V7_PACKET_ID_IDLE | V7_PACKET_ID_TWO | V7_PACKET_ID_MULTI | V7_PACKET_ID_NEW | V7_PACKET_ID_UNKNOWN.

Definition alps_get_packet_id_v7 p : V7_PACKET_ID :=
  if bit (p 4) 0x40 then V7_PACKET_ID_TWO
  else if bit (p 4) 0x01 then V7_PACKET_ID_MULTI
  else if bit (p 0) 0x10 && negb (bit (p 4) 0x43) then V7_PACKET_ID_NEW
  else if (p 1 =? 0x00) && (p 4 =? 0x00) then V7_PACKET_ID_IDLE
  else V7_PACKET_ID_UNKNOWN.

(** The bits of [x] outside [mask]. *)
Definition without (x mask : Z) : Z := Z.land x (Z.lnot mask).

Definition alps_get_finger_coordinate_v7 p (pkt_id : V7_PACKET_ID) f : alps_fields :=
  let x0 := Z.lor (Z.lor (Z.lor (Z.shiftl (Z.land (p 2) 0x80) 4) (Z.shiftl (Z.land (p 2) 0x3F) 5)) (Z.shiftr (Z.land (p 3) 0x30) 1)) (Z.land (p 3) 0x07) in
  let y0 := Z.lor (Z.shiftl (p 1) 3) (Z.land (p 0) 0x07) in
  let x1 := Z.lor (Z.lor (Z.shiftl (Z.land (p 3) 0x80) 4) (Z.shiftl (Z.land (p 4) 0x80) 3)) (Z.shiftl (Z.land (p 4) 0x3F) 4) in
  let y1 := Z.lor (Z.shiftl (Z.land (p 5) 0x80) 3) (Z.shiftl (Z.land (p 5) 0x3F) 4) in
  let '(x1, y1) := match pkt_id with
    | V7_PACKET_ID_TWO =>
      let '(x1, y1) := (without x1 0x000F, Z.lor y1 0x000F) in
      (if (y1 =? 0x7ff) && (x1 =? 0xff0) then 0 else x1, y1)
    | V7_PACKET_ID_MULTI => (without x1 0x003F, Z.lor (Z.lor (without y1 0x0020) (Z.shiftl (Z.land (p 4) 0x02) 4)) 0x001F)
    | V7_PACKET_ID_NEW => (Z.lor (without x1 0x003F) (Z.land (p 0) 0x20), Z.lor y1 0x000F)
    | _ => (x1, y1)
    end in
  setMt 1 x1 (u32 (0x7FF - y1)) (setMt 0 x0 (u32 (0x7FF - y0)) f).

Definition touchesAt (q : input_mt_pos) : bool := negb (mt_x q =? 0) || negb (mt_y q =? 0).
Definition alps_get_mt_count f : Z := Z.of_nat (length (filter (fun q => touchesAt q = true) (mt f))).

(** [None]: nothing is reported. *)
Definition alps_decode_packet_v7 priv p f : option alps_fields :=
  let pkt_id := alps_get_packet_id_v7 p in
  match pkt_id with
  | V7_PACKET_ID_IDLE => Some f
  | V7_PACKET_ID_UNKNOWN | V7_PACKET_ID_NEW => None
  | _ =>
    let f := alps_get_finger_coordinate_v7 p pkt_id f in
    let f := {| f with fingers := match pkt_id with V7_PACKET_ID_TWO => alps_get_mt_count f | _ => 3 + Z.land (p 5) 0x03 end;
                       f_left := bit (p 0) 0x80 |} in
    let f :=
      if bit (flags priv) ALPS_BUTTONPAD then
        {| f with fingers := fingers f + (if bit (p 0) 0x20 then 1 else 0) + (if bit (p 0) 0x10 then 1 else 0) |}
      else {| f with f_right := bit (p 0) 0x20; f_middle := bit (p 0) 0x10 |} in
    Some (if (fingers f =? 1) && negb (touchesAt (mtAt 0 f)) then setMt 1 0 0 (setMt 0 (mt_x (mtAt 1 f)) (mt_y (mtAt 1 f)) f) else f)
  end.

(** ** Version 8 *)

Inductive SS4_PACKET_ID := SS4_PACKET_ID_IDLE | SS4_PACKET_ID_ONE | SS4_PACKET_ID_TWO | SS4_PACKET_ID_MULTI | SS4_PACKET_ID_STICK.

Definition SS4_MASK_NORMAL_BUTTONS : Z := 0x07.
Definition SS4_MFPACKET_NO_AX : Z := 8160.
Definition SS4_MFPACKET_NO_AY : Z := 4080.
Definition SS4_MFPACKET_NO_AX_BL : Z := 8176.
Definition SS4_MFPACKET_NO_AY_BL : Z := 4088.
Definition SS4_PLUS_MFPACKET_NO_AX : Z := 4080.
Definition SS4_PLUS_MFPACKET_NO_AX_BL : Z := 4088.

Definition IS_SS4PLUS_DEV priv : bool := bool_decide (dev_id priv = [0x73; 0x03; 0x28]).

Definition SS4_IS_IDLE_V2 p : bool :=
  (p 0 =? 0x18) && (p 1 =? 0x10) && (p 2 =? 0x00) && (Z.land (p 3) 0x88 =? 0x08) && (p 4 =? 0x10) && (p 5 =? 0x00).

Definition SS4_1F_X_V2 p : Z :=
  Z.lor (Z.lor (Z.lor (Z.land (p 0) 0x0007) (Z.land (Z.shiftl (p 1) 3) 0x0078)) (Z.land (Z.shiftl (p 1) 2) 0x0380)) (Z.land (Z.shiftl (p 2) 5) 0x1C00).
Definition SS4_1F_Y_V2 p : Z :=
  Z.lor (Z.lor (Z.lor (Z.land (p 2) 0x000F) (Z.land (Z.shiftr (p 3) 2) 0x0030)) (Z.land (Z.shiftl (p 4) 6) 0x03C0)) (Z.land (Z.shiftl (p 4) 5) 0x0C00).
Definition SS4_1F_Z_V2 p : Z := Z.lor (Z.lor (Z.land (p 5) 0x0F) (Z.land (Z.shiftr (p 5) 1) 0x70)) (Z.land (p 4) 0x80).
Definition SS4_BTN_V2 p : Z := Z.land (Z.shiftr (p 0) 5) SS4_MASK_NORMAL_BUTTONS.

Definition SS4_STD_MF_X_V2 p (i : Z) : Z := Z.lor (Z.land (Z.shiftl (p (0 + i * 3)) 5) 0x00E0) (Z.land (Z.shiftl (p (1 + i * 3)) 5) 0x1F00).
Definition SS4_PLUS_STD_MF_X_V2 p (i : Z) : Z := Z.lor (Z.land (Z.shiftl (p (0 + i * 3)) 4) 0x0070) (Z.land (Z.shiftl (p (1 + i * 3)) 4) 0x0F80).
Definition SS4_STD_MF_Y_V2 p (i : Z) : Z :=
  Z.lor (Z.lor (Z.land (Z.shiftl (p (1 + i * 3)) 3) 0x0010) (Z.land (Z.shiftl (p (2 + i * 3)) 5) 0x01E0)) (Z.land (Z.shiftl (p (2 + i * 3)) 4) 0x0E00).
Definition SS4_BTL_MF_X_V2 p (i : Z) : Z := Z.lor (SS4_STD_MF_X_V2 p i) (Z.land (Z.shiftr (p (0 + i * 3)) 3) 0x0010).
Definition SS4_PLUS_BTL_MF_X_V2 p (i : Z) : Z := Z.lor (SS4_PLUS_STD_MF_X_V2 p i) (Z.land (Z.shiftr (p (0 + i * 3)) 4) 0x0008).
Definition SS4_BTL_MF_Y_V2 p (i : Z) : Z := Z.lor (SS4_STD_MF_Y_V2 p i) (Z.land (Z.shiftr (p (0 + i * 3)) 3) 0x0008).
Definition SS4_MF_Z_V2 p (i : Z) : Z := Z.lor (Z.land (p (1 + i * 3)) 0x0001) (Z.land (Z.shiftr (p (1 + i * 3)) 1) 0x0002).
Definition SS4_IS_MF_CONTINUE p : bool := Z.land (p 2) 0x10 =? 0x10.
Definition SS4_IS_5F_DETECTED p : bool := Z.land (p 2) 0x10 =? 0x10.

Definition alps_get_pkt_id_ss4_v2 p : SS4_PACKET_ID :=
  match Z.land (p 3) 0x30 with
  | 0x00 => if SS4_IS_IDLE_V2 p then SS4_PACKET_ID_IDLE else SS4_PACKET_ID_ONE
  | 0x10 => SS4_PACKET_ID_TWO
  | 0x20 => SS4_PACKET_ID_STICK
  | 0x30 => SS4_PACKET_ID_MULTI
  | _ => SS4_PACKET_ID_IDLE
  end.

(** Finger [i] of a packet of several, as the kind of device gives it. *)
Definition multiX priv p (i : Z) : Z :=
  if bit (flags priv) ALPS_BUTTONPAD
  then if IS_SS4PLUS_DEV priv then SS4_PLUS_BTL_MF_X_V2 p i else SS4_BTL_MF_X_V2 p i
  else if IS_SS4PLUS_DEV priv then SS4_PLUS_STD_MF_X_V2 p i else SS4_STD_MF_X_V2 p i.
Definition multiY priv p (i : Z) : Z :=
  if bit (flags priv) ALPS_BUTTONPAD then SS4_BTL_MF_Y_V2 p i else SS4_STD_MF_Y_V2 p i.

(** The place of a finger that is not there. *)
Definition noDataX priv : Z :=
  if bit (flags priv) ALPS_BUTTONPAD
  then if IS_SS4PLUS_DEV priv then SS4_PLUS_MFPACKET_NO_AX_BL else SS4_MFPACKET_NO_AX_BL
  else if IS_SS4PLUS_DEV priv then SS4_PLUS_MFPACKET_NO_AX else SS4_MFPACKET_NO_AX.
Definition noDataY priv : Z := if bit (flags priv) ALPS_BUTTONPAD then SS4_MFPACKET_NO_AY_BL else SS4_MFPACKET_NO_AY.

Definition decodeOne p f : alps_fields :=
  let z := Z.land (SS4_1F_Z_V2 p * 2) 0x7f in
  {| (setMt 0 (SS4_1F_X_V2 p) (SS4_1F_Y_V2 p) f) with
     pressure := z; fingers := if 0 <? z then 1 else 0; first_mp := false; is_mp := false |}.

Definition decodeTwo priv p f : alps_fields :=
  let f := setMt 1 (multiX priv p 1) (multiY priv p 1) (setMt 0 (multiX priv p 0) (multiY priv p 0) f) in
  let f := {| f with pressure := if nz (SS4_MF_Z_V2 p 0) then 0x30 else 0; is_mp := false |} in
  if SS4_IS_MF_CONTINUE p then {| f with first_mp := true |} else {| f with fingers := 2; first_mp := false |}.

Definition decodeMulti priv p f : alps_fields :=
  let f := setMt 3 (multiX priv p 1) (multiY priv p 1) (setMt 2 (multiX priv p 0) (multiY priv p 0) f) in
  let f := {| f with first_mp := false; is_mp := true |} in
  if SS4_IS_5F_DETECTED p then {| f with fingers := 5 |}
  else if (mt_x (mtAt 3 f) =? noDataX priv) && (mt_y (mtAt 3 f) =? noDataY priv) then {| (setMt 3 0 0 f) with fingers := 3 |}
  else {| f with fingers := 4 |}.

Definition alps_decode_ss4_v2 priv p f : alps_fields :=
  let pkt_id := alps_get_pkt_id_ss4_v2 p in
  let f := match pkt_id with
    | SS4_PACKET_ID_ONE => decodeOne p f
    | SS4_PACKET_ID_TWO => decodeTwo priv p f
    | SS4_PACKET_ID_MULTI => decodeMulti priv p f
    | SS4_PACKET_ID_STICK => {| f with first_mp := false; is_mp := false |}
    | SS4_PACKET_ID_IDLE => noFields
    end in
  let b := SS4_BTN_V2 p in
  match pkt_id with
  | SS4_PACKET_ID_STICK => {| f with ts_left := bit b 0x01; ts_right := bit b 0x02; ts_middle := bit b 0x04 |}
  | _ =>
    let f := {| f with f_left := bit b 0x01 |} in
    if bit (flags priv) ALPS_BUTTONPAD then f else {| f with f_right := bit b 0x02; f_middle := bit b 0x04 |}
  end.

(** [(this->*decode_fields)(&f, packet)]; the inner [None] is the result [false]. *)
Definition decodeWith (decode : DecodeFields) priv (packet : list Z) f : option (option alps_fields) :=
  p ← readable 6 packet;
  Some match decode with
       | DecodePinnacle => Some (alps_decode_pinnacle p f)
       | DecodeRushmore => Some (alps_decode_rushmore p f)
       | DecodeDolphin => Some (alps_decode_dolphin priv p f)
       | DecodeV7 => alps_decode_packet_v7 priv p f
       | DecodeSS4 => Some (alps_decode_ss4_v2 priv p f)
       end.
