(* ===== verification/AlpsReport.v ===== *)
(** * The ALPS touchpad driver: reports

    What VoodooPS2ALPSGlidePoint.cpp makes of packets: contacts, buttons and motions for
    VoodooInput, and the work loop.  Parameters are [absolutetime_to_nanoseconds] and [uninit],
    what is in memory where a function declares [alps_fields] without setting them. *)
From S2P Require Import Prelude PS2Types RingBuffer Bus DriverWorld RingLoop OSTypes Touch Trackpad Alps AlpsDecode.

(** ** Contacts *)

(** [kMT2FingerTypeIndexFinger + (i % 4)] *)
Definition fingerTypeAt (i : Z) : MT2FingerType :=
  match Z.rem i 4 with
  | 0 => kMT2FingerTypeIndexFinger
  | 1 => kMT2FingerTypeMiddleFinger
  | 2 => kMT2FingerTypeRingFinger
  | _ => kMT2FingerTypeLittleFinger
  end.

(** A coordinate of thirteen bits; the highest values stand for negative ones. *)
Definition wrapPosition (v positive limit : Z) : Z :=
  if positive <? v then u32 (v - Z.shiftl 1 ABS_POS_BITS) else if v =? positive then limit else v.

(** Where finger [i] of a report is. *)
Definition fingerPlace (priv : alps_data) (f : alps_fields) (i : Z) : input_mt_pos :=
  if proto_version priv =? ALPS_PROTO_V8 then mtAt i f
  else if i =? 2 then mkPos (u32 (mt_x (mtAt 0 f) + 5)) (u32 (mt_y (mtAt 0 f) + 5))
  else if i =? 3 then mkPos (u32 (mt_x (mtAt 1 f) - 5)) (u32 (mt_y (mtAt 1 f) + 5))
  else mtAt i f.

(** The loop over the virtual fingers, of which four are used at most. *)
Definition placeFinger (priv : alps_data) (f : alps_fields) (i : Z) (l : list alps_virtual_finger_state) : option (list alps_virtual_finger_state) :=
  let q := fingerPlace priv f i in
  v ← arr_get l i;
  l ← arr_set l i {| v with vf_x := wrapPosition (mt_x q) X_MAX_POSITIVE XMAX; vf_y := wrapPosition (mt_y q) Y_MAX_POSITIVE YMAX;
                            vf_pressure := u8 (pressure f); vf_touch := true |};
  v0 ← arr_get l 0;
  arr_set l 0 {| v0 with vf_button := bit (flags priv) ALPS_BUTTONPAD && f_left f |}.

Definition placeFingers (priv : alps_data) (f : alps_fields) (n : Z) (l : list alps_virtual_finger_state) : option (list alps_virtual_finger_state) :=
  fold_opt (placeFinger priv f) (seqZ 0 (Z.min 4 n)) (map (fun v => {| v with vf_touch := false |}) l).

(** [supportsPressure], [isPhysicalButtonDown] and the pressure of a contact. *)
Definition forceTouch (s : AlpsSettings) (count : Z) (v : alps_virtual_finger_state) : bool * bool * Z :=
  let threshold := if _forceTouchPressureThreshold s <? vf_pressure v then 255 else 0 in
  let mode := _forceTouchMode s in
  if mode =? FORCE_TOUCH_BUTTON then (true, false, if vf_button v then 255 else 0)
  else if mode =? FORCE_TOUCH_THRESHOLD then (true, vf_button v, threshold)
  else if mode =? FORCE_TOUCH_VALUE then (true, vf_button v, vf_pressure v)
  else if mode =? FORCE_TOUCH_CUSTOM then
    (true, vf_button v,
     if negb (count =? 1) then threshold
     else customPressure (_forceTouchCustomDownThreshold s) (_forceTouchCustomUpThreshold s) (_forceTouchCustomPower s) (vf_pressure v))
  else (false, vf_button v, 0).

Definition alpsTransducer (s : AlpsSettings) (timestamp count maxy i : Z) (v : alps_virtual_finger_state) (old : VoodooInputTransducer) : VoodooInputTransducer :=
  let '(supports, down, force) := forceTouch s count v in
  {| tr_current := mkCoordinates (vf_x v) (u32 (maxy + 1 - vf_y v)) force (tc_width (tr_current old));
     tr_previous := tr_current old;
     tr_timestamp := timestamp;
     tr_isValid := true;
     tr_isPhysicalButtonDown := down;
     tr_isTransducerActive := true;
     tr_supportsPressure := supports;
     tr_secondaryId := i;
     tr_fingerType := fingerTypeAt i;
     tr_isFinger := true |}.

(** The transducers and how many of them are in use. *)
Definition fillContact (s : AlpsSettings) (timestamp count maxy : Z) (l : list alps_virtual_finger_state) (i : Z)
    (tn : list VoodooInputTransducer * Z) : option (list VoodooInputTransducer * Z) :=
  let '(ts, n) := tn in
  v ← arr_get l i;
  if negb (vf_touch v) then Some (ts, n) else
  old ← arr_get ts n;
  ts ← arr_set ts n (alpsTransducer s timestamp count maxy i v old);
  Some (ts, n + 1).

Definition fillContacts (d : ApplePS2ALPSGlidePoint) (timestamp : Z) : option (list VoodooInputTransducer * Z) :=
  '(ts, n) ← fold_opt (fillContact (settings d) timestamp (clampedFingerCount d) (logical_max_y d) (virtualFingerStates d))
    (seqZ 0 MAX_TOUCHES) (ev_transducers (inputEvent d), 0);
  ts ← (if 4 <=? n then assignThumb n ts else Some ts);
  Some (ts, n).

(** ** Buttons *)

(** What [alps_buttons] knows of the buttons of an event, and [clicked]. *)
Definition buttonEdge (prev now : bool) (mask : Z) (bc : Z * bool) : Z * bool :=
  if now && negb prev then (mask, true) else if prev && negb now then (0x00, false) else bc.

(** The members after [alps_buttons], and the buttons to send; these are not set, and not
    sent, when no button changed. *)
Definition changeButtons (f : alps_fields) (d : ApplePS2ALPSGlidePoint) : ApplePS2ALPSGlidePoint * Z :=
  let r := f_right f || ts_right f in
  let m := f_middle f || ts_middle f in
  let bc := (0, clicked d) in
  let bc := if bit (flags (priv d)) ALPS_BUTTONPAD then bc else buttonEdge (b_left d) (f_left f) 0x01 bc in
  let bc := buttonEdge (b_right d) r 0x02 bc in
  let bc := buttonEdge (b_middle d) m 0x04 bc in
  let '(buttons, clicked) := buttonEdge (left_ts d) (ts_left f) 0x01 bc in
  ({| d with b_left := f_left f; b_right := r; b_middle := m; left_ts := ts_left f; clicked := clicked |}, buttons).

Section Report.
Context {B : Type} `{PS2Bus B} (absolutetime_to_nanoseconds : Z -> Z) (uninit : ApplePS2ALPSGlidePoint -> alps_fields).
#[local] Abbreviation W := (DrvWorld B ApplePS2ALPSGlidePoint AlpsEvent).
#[local] Abbreviation C := (M W).

Definition setPriv (g : alps_data -> alps_data) : C unit := dset (fun d => {| d with priv := g (priv d) |}).

(** [messageClient] with a client that may be null. *)
Definition tellClient (e : Z -> AlpsEvent) : C unit :=
  client ← dget voodooInputInstance;
  match client with Some c => tell (e c) | None => ret tt end.

(** [voodooTrackpoint] for a motion and for a scroll wheel; both get [SInt8]s. *)
Definition trackpointMotion (x y buttons : Z) : C unit :=
  now ← gets now; tellClient (fun c => AlpsPointer c (u64 now) (s8 x) (s8 y) buttons).
Definition trackpointScroll (x y : Z) : C unit :=
  now ← gets now; tellClient (fun c => AlpsScroll c (u64 now) (- s8 y) (- s8 x)).

(** With the middle button the trackpoint scrolls. *)
Definition trackpointOrScroll (x y buttons : Z) : C unit :=
  if Z.land buttons 0x04 =? 0 then trackpointMotion x y buttons else trackpointScroll x y.

Definition alps_buttons (f : alps_fields) : C unit :=
  last_clicked ← dget clicked;
  now ← gets now;
  buttons ← dget (fun d => (changeButtons f d).2);
  dset (fun d => (changeButtons f d).1) ;;
  clicked ← dget clicked;
  when (negb (eqb last_clicked clicked)) (tellClient (fun c => AlpsPointer c (u64 now) 0 0 buttons)).

Definition sendContacts (timestamp : Z) : C unit :=
  r ← dget (fun d => fillContacts d timestamp);
  '(ts, n) ← deref r;
  let e := mkInputEvent ts (u8 n) timestamp in
  dset (fun d => {| d with inputEvent := e |}) ;;
  tellClient (fun c => AlpsTouchEvent c e) ;;
  dset (fun d => {| d with lastFingerCount := clampedFingerCount d |}).

Definition sendTouchData : C unit :=
  now ← gets now;
  let timestamp := u64 now in
  typing ← dget (fun d => u64 (absolutetime_to_nanoseconds timestamp - keytime d) <? maxaftertyping (settings d));
  if typing : bool then ret tt else
  changed ← dget (fun d => negb (lastFingerCount d =? clampedFingerCount d));
  if changed : bool then dset (fun d => {| d with lastFingerCount := clampedFingerCount d |}) else sendContacts timestamp.

Definition prepareVoodooInput (f : alps_fields) (fingers : Z) : C unit :=
  dstep (fun d => l ← placeFingers (priv d) f fingers (virtualFingerStates d);
                  Some {| d with virtualFingerStates := l; clampedFingerCount := Z.min fingers MAX_TOUCHES |}) ;;
  when (0 <? fingers) (dset (fun d => {| d with reportVoodooInput := true |})) ;;
  report ← dget reportVoodooInput;
  when report
    (idle ← dget (fun d => (fingers =? 0) && (lastFingerCount d =? 0));
     when idle (dset (fun d => {| d with reportVoodooInput := false |})) ;;
     sendTouchData).

(** ** Packets *)

(** Three buttons as bits. *)
Definition buttonBits (l r m : bool) : Z :=
  Z.lor (Z.lor (if l then 0x01 else 0) (if r then 0x02 else 0)) (if m then 0x04 else 0).

(** A packet of versions 1 and 2: buttons, place and pressure. *)
Definition positionV1V2 (version : Z) (p : Z -> Z) : (bool * bool * bool) * (Z * Z * Z) :=
  if version =? ALPS_PROTO_V1 then
    ((bit (p 2) 0x10, bit (p 2) 0x08, false),
     (Z.lor (p 1) (Z.shiftl (Z.land (p 0) 0x07) 7), Z.lor (p 4) (Z.shiftl (Z.land (p 3) 0x07) 7), p 5))
  else
    ((bit (p 3) 1, bit (p 3) 2, bit (p 3) 4),
     (Z.lor (p 1) (Z.shiftl (Z.land (p 2) 0x78) (7 - 3)), Z.lor (p 4) (Z.shiftl (Z.land (p 3) 0x70) (7 - 4)), p 5)).

Definition alps_process_packet_v1_v2 (packet : list Z) : C unit :=
  ignore ← dget ignoreall;
  if ignore : bool then ret tt else
  p ← deref (readable 6 packet);
  priv ← dget priv;
  let '((l, r, m), (x, y, z)) := positionV1V2 (proto_version priv) p in
  let ges := bit (p 2) 1 in
  let fin := bit (p 2) 2 in
  if bit (flags priv) ALPS_DUALPOINT && (z =? 127) then
    trackpointMotion (if 383 <? x then x - 768 else x) (- (if 255 <? y then y - 512 else y)) 0
  else
  let stick := bit (flags priv) ALPS_STICK_BITS in
  let buttons := buttonBits (l || stick && bit (p 0) 1) (r || stick && bit (p 0) 2) (m || stick && bit (p 0) 4) in
  let z := if ges && negb fin then 40 else z in
  setPriv (fun q => {| q with prev_fin := Z.land (p 2) 2 |}) ;;
  when (30 <? z) (trackpointMotion x y buttons) ;;
  when (bit (flags priv) ALPS_WHEEL)
    (let scrollAmount := Z.land (Z.shiftl (p 2) 1) 0x08 - Z.land (Z.shiftr (p 0) 4) 0x07 in
     when (negb (scrollAmount =? 0)) (trackpointScroll 0 (- scrollAmount))).

(** The trackstick's buttons come in its own packets once one of them has been seen there. *)
Definition alps_process_trackstick_packet_v3 (packet : list Z) : C unit :=
  p ← deref (readable 6 packet);
  priv ← dget priv;
  if negb (bit (flags priv) ALPS_DUALPOINT) then ret tt
  else if negb (bit (p 0) 0x40) then ret tt
  else if (p 1 =? 0x7f) && (p 2 =? 0x7f) && (p 4 =? 0x7f) then ret tt
  else
  let x := Z.quot (s8 (Z.lor (Z.shiftl (Z.land (p 0) 0x20) 2) (Z.land (p 1) 0x7f))) 8 in
  let y := - Z.quot (s8 (Z.lor (Z.shiftl (Z.land (p 0) 0x10) 3) (Z.land (p 2) 0x7f))) 8 in
  let '(l, r, m) := (bit (p 3) 0x01, bit (p 3) 0x02, bit (p 3) 0x04) in
  when (negb (bit (quirks priv) ALPS_QUIRK_TRACKSTICK_BUTTONS) && (l || m || r))
    (setPriv (fun q => {| q with quirks := Z.lor (quirks q) ALPS_QUIRK_TRACKSTICK_BUTTONS |})) ;;
  quirky ← dget (fun d => bit (quirks (Alps.priv d)) ALPS_QUIRK_TRACKSTICK_BUTTONS);
  let raw_buttons := if quirky : bool then buttonBits l r m else 0 in
  (if 0 =? raw_buttons then ret tt else dset (fun d => {| d with lastbuttons := raw_buttons |})) ;;
  buttons ← dget lastbuttons;
  trackpointOrScroll x y buttons.

(** [(this->*decode_fields)(&f, packet)] with a pointer that may be null; [None] is the
    result [false]. *)
Definition decodeFields (packet : list Z) (f : alps_fields) : C (option alps_fields) :=
  decode ← dget decode_fields;
  decode ← deref decode;
  priv ← dget priv;
  deref (decodeWith decode priv packet f).

(** The fields afterwards, when the result does not matter: the decoders that may give [false]
    leave them as they were. *)
Definition decodeAnyway (packet : list Z) (f : alps_fields) : C alps_fields :=
  r ← decodeFields packet f; ret (match r with Some f => f | None => f end).

(** A bitmap that follows a position: the fields of the position, and the number of fingers. *)
Definition joinBitmap (f : alps_fields) : C (alps_fields * Z) :=
  multi ← dget (fun d => multi_packet (priv d));
  if negb (nz multi) then ret (f, 0) else
  if negb (is_mp f) then setPriv (fun q => {| q with multi_packet := 0 |}) ;; ret (f, 0) else
  let n := fingers f in
  data ← dget (fun d => multi_data (priv d));
  f ← decodeAnyway data f;
  priv ← dget priv;
  '(found, q, f) ← deref (alps_process_bitmap priv f);
  setPriv (fun _ => q) ;;
  ret (f, if found =? 0 then 0 else s32 n).

(** Keep the first of two packets. *)
Definition keepPacket (packet : list Z) : C unit :=
  setPriv (fun q => {| q with multi_packet := 1; multi_data := take 6 packet |}).

(** Without a bitmap, the position alone. *)
Definition singlePosition (f : alps_fields) : alps_fields := setMt 0 (mt_x (st f)) (mt_y (st f)) f.

(** [y] counted from the other side. *)
Definition reverseY (ymax : Z) (f : alps_fields) : alps_fields :=
  setMt 1 (mt_x (mtAt 1 f)) (u32 (ymax - mt_y (mtAt 1 f))) (setMt 0 (mt_x (mtAt 0 f)) (u32 (ymax - mt_y (mtAt 0 f))) f).

Definition alps_process_touchpad_packet_v3_v5 (packet : list Z) : C unit :=
  ignore ← dget ignoreall;
  if ignore : bool then ret tt else
  f ← decodeAnyway packet noFields;
  '(f, fingers) ← joinBitmap f;
  if is_mp f then ret tt else
  multi ← dget (fun d => multi_packet (priv d));
  if negb (nz multi) && first_mp f then keepPacket packet else
  setPriv (fun q => {| q with multi_packet := 0 |}) ;;
  when (fingers <? 2) (setPriv (fun q => {| q with second_touch := -1 |})) ;;
  let '(f, fingers) := if fingers <? 2 then (singlePosition f, if 0 <? pressure f then 1 else 0) else (f, fingers) in
  ymax ← dget (fun d => y_max (priv d));
  let f := reverseY ymax f in
  prepareVoodooInput f fingers ;;
  alps_buttons f.

Definition alps_process_packet_v3 (packet : list Z) : C unit :=
  b5 ← deref (arr_get packet 5);
  if b5 =? 0x3f then alps_process_trackstick_packet_v3 packet else alps_process_touchpad_packet_v3_v5 packet.

(** The right and the middle button of the trackpoint are stored in members of one bit,
    which keep nothing of 0x02 and 0x04. *)
Definition alps_process_packet_v6 (packet : list Z) : C unit :=
  ignore ← dget ignoreall;
  if ignore : bool then ret tt else
  p ← deref (readable 6 packet);
  if p 5 =? 0x7F then
    dual ← dget (fun d => bit (flags (priv d)) ALPS_DUALPOINT);
    if negb dual then ret tt else
    let x := Z.lor (p 1) (Z.shiftl (Z.land (p 3) 0x20) 2) in
    let y := Z.lor (p 2) (Z.shiftl (Z.land (p 3) 0x40) 1) in
    let z := p 4 in
    let '(l, r, m) := (bit (Z.land (p 3) 0x01) 1, bit (Z.land (p 3) 0x02) 1, bit (Z.land (p 3) 0x04) 1) in
    dset (fun d => {| d with b_left := l; b_right := r; b_middle := m |}) ;;
    let '(x, y) := if (x =? 0x7F) && (y =? 0x7F) && (z =? 0x7F) then (0, 0) else (x, y) in
    trackpointMotion (Z.quot x 4) (Z.quot (- y) 4) (buttonBits l r m)
  else
    let x := Z.lor (p 1) (Z.shiftl (Z.land (p 3) 0x78) 4) in
    let y := Z.lor (p 2) (Z.shiftl (Z.land (p 4) 0x78) 4) in
    trackpointMotion x y (buttonBits (bit (Z.land (p 3) 0x01) 1) (bit (Z.land (p 3) 0x02) 1) false).

(** The bitmap of a version 4 packet comes in three pairs of bytes. *)
Definition mapXV4 (m : Z -> Z) : Z :=
  Z.lor (Z.lor (Z.lor (Z.shiftl (Z.land (m 2) 0x1f) 10) (Z.shiftl (Z.land (m 3) 0x60) 3)) (Z.shiftl (Z.land (m 0) 0x3f) 2)) (Z.shiftr (Z.land (m 1) 0x60) 5).
Definition mapYV4 (m : Z -> Z) : Z :=
  Z.lor (Z.lor (Z.shiftl (Z.land (m 5) 0x01) 10) (Z.shiftl (Z.land (m 3) 0x1f) 5)) (Z.land (m 1) 0x1f).

(** The fields of a version 4 packet over what was in memory. *)
Definition fieldsV4 (p : Z -> Z) (f : alps_fields) : alps_fields :=
  {| f with fingers := 0; f_left := bit (p 4) 0x01; f_right := bit (p 4) 0x02;
            st := mkPos (Z.lor (Z.lor (Z.shiftl (Z.land (p 1) 0x7f) 4) (Z.shiftr (Z.land (p 3) 0x30) 2)) (Z.shiftr (Z.land (p 0) 0x30) 4))
                        (Z.lor (Z.shiftl (Z.land (p 2) 0x7f) 4) (Z.land (p 3) 0x0f));
            pressure := Z.land (p 5) 0x7f |}.

(** The third pair completes the bitmap. *)
Definition completeV4 (f : alps_fields) : C alps_fields :=
  multi ← dget (fun d => multi_packet (priv d) + 1);
  setPriv (fun q => {| q with multi_packet := multi |}) ;;
  if multi <=? 2 then ret f else
  setPriv (fun q => {| q with multi_packet := 0 |}) ;;
  priv ← dget priv;
  m ← deref (readable 6 (multi_data priv));
  '(found, q, f) ← deref (alps_process_bitmap priv {| f with x_map := mapXV4 m; y_map := mapYV4 m |});
  setPriv (fun _ => q) ;;
  ret {| f with fingers := found |}.

Definition alps_process_packet_v4 (packet : list Z) : C unit :=
  ignore ← dget ignoreall;
  if ignore : bool then ret tt else
  f ← dget uninit;
  p ← deref (readable 8 packet);
  when (bit (p 6) 0x40) (setPriv (fun q => {| q with multi_packet := 0 |})) ;;
  multi ← dget (fun d => multi_packet (priv d));
  if 2 <? multi then ret tt else
  data ← dget (fun d => multi_data (priv d));
  data ← deref (arr_set data (2 * multi) (p 6));
  data ← deref (arr_set data (2 * multi + 1) (p 7));
  setPriv (fun q => {| q with multi_data := data |}) ;;
  f ← completeV4 (fieldsV4 p f);
  when (fingers f <? 2) (setPriv (fun q => {| q with second_touch := -1 |})) ;;
  let f := if fingers f <? 2 then {| (singlePosition f) with fingers := if 0 <? pressure f then 1 else 0 |} else f in
  prepareVoodooInput f (fingers f) ;;
  alps_buttons f.

Definition alps_process_trackstick_packet_v7 (packet : list Z) : C unit :=
  p ← deref (readable 6 packet);
  dual ← dget (fun d => bit (flags (priv d)) ALPS_DUALPOINT);
  if negb dual then ret tt else
  let x := s8 (Z.lor (Z.land (p 2) 0xbf) (Z.shiftl (Z.land (p 3) 0x10) 2)) in
  let y := - s8 (Z.lor (Z.lor (Z.land (p 3) 0x07) (Z.land (p 4) 0xb8)) (Z.shiftl (Z.land (p 3) 0x20) 1)) in
  let buttons := buttonBits (bit (p 1) 0x01) (bit (p 1) 0x02) (bit (p 1) 0x04) in
  dset (fun d => {| d with lastTrackStickButtons := buttons |}) ;;
  last ← dget lastTouchpadButtons;
  trackpointOrScroll x y (Z.lor buttons last).

Definition alps_process_touchpad_packet_v7 (packet : list Z) : C unit :=
  ignore ← dget ignoreall;
  if ignore : bool then ret tt else
  r ← decodeFields packet noFields;
  match r with
  | None => ret tt
  | Some f =>
    d ← dget id;
    let f := reverseY (y_max (priv d)) f in
    let f := if nz (_forceTouchMode (settings d)) then {| f with pressure := z_finger (settings d) |} else f in
    prepareVoodooInput f (s32 (fingers f)) ;;
    alps_buttons f
  end.

Definition alps_process_packet_v7 (packet : list Z) : C unit :=
  p ← deref (readable 6 packet);
  if (p 0 =? 0x48) && (Z.land (p 4) 0x47 =? 0x06) then alps_process_trackstick_packet_v7 packet
  else alps_process_touchpad_packet_v7 packet.

(** A version 8 packet that follows one of the same report. *)
Definition joinSS4 (f : alps_fields) : C alps_fields :=
  multi ← dget (fun d => multi_packet (priv d));
  if negb (nz multi) then ret f else
  if is_mp f then data ← dget (fun d => multi_data (priv d)); decodeAnyway data f
  else setPriv (fun q => {| q with multi_packet := 0 |}) ;; ret f.

(** The trackstick of version 8. *)
Definition trackstickSS4 (p : Z -> Z) (f : alps_fields) : C unit :=
  dual ← dget (fun d => bit (flags (priv d)) ALPS_DUALPOINT);
  if negb dual then ret tt else
  let x := s8 (Z.lor (Z.shiftl (Z.land (p 0) 1) 7) (Z.land (p 1) 0x7f)) in
  let y := s8 (Z.lor (Z.shiftl (Z.land (p 3) 1) 7) (Z.land (p 2) 0x7f)) in
  if (0x7f <=? Z.abs x) || (0x7f <=? Z.abs y) then ret tt
  else trackpointOrScroll (Z.quot x 3) (Z.quot (- y) 3) (buttonBits (ts_left f) (ts_right f) (ts_middle f)).

Definition alps_process_packet_ss4_v2 (packet : list Z) : C unit :=
  ignore ← dget ignoreall;
  if ignore : bool then ret tt else
  f ← decodeAnyway packet noFields;
  f ← joinSS4 f;
  if is_mp f then ret tt else
  multi ← dget (fun d => multi_packet (priv d));
  if negb (nz multi) && first_mp f then keepPacket packet else
  setPriv (fun q => {| q with multi_packet := 0 |}) ;;
  p ← deref (readable 6 packet);
  match alps_get_pkt_id_ss4_v2 p with
  | SS4_PACKET_ID_STICK => trackstickSS4 p f
  | _ =>
    ymax ← dget (fun d => y_max (priv d));
    let f := reverseY ymax f in
    prepareVoodooInput f (s32 (fingers f)) ;;
    alps_buttons f
  end.

(** ** The work loop *)

Definition processWith (process : ProcessPacket) (packet : list Z) : C unit :=
  match process with
  | ProcessV1V2 => alps_process_packet_v1_v2 packet
  | ProcessV3 => alps_process_packet_v3 packet
  | ProcessV4 => alps_process_packet_v4 packet
  | ProcessV3V5 => alps_process_touchpad_packet_v3_v5 packet
  | ProcessV6 => alps_process_packet_v6 packet
  | ProcessV7 => alps_process_packet_v7 packet
  | ProcessSS4 => alps_process_packet_ss4_v2 packet
  end.

(** What the loop of [packetReady] does with the packet at [tail()]. *)
Definition handlePacket (packet : list Z) : C unit :=
  bad ← dget (fun d => PSMOUSE_BAD_DATA (priv d));
  ignore ← dget ignoreall;
  when (negb bad && negb ignore) (process ← dget process_packet; process ← deref process; processWith process packet) ;;
  dset (fun d => {| d with _packetByteCount := 0 |}).

Definition packetReady : C unit := drainRing handlePacket.

End Report.
