(* ===== verification/AlpsHardware.v ===== *)
(** * The ALPS touchpad driver: commands

    The conversations of VoodooPS2ALPSGlidePoint.cpp with the touchpad: its registers, which
    are addressed and written in nibbles, the initialisation of each version of the protocol,
    and the identification.  The text of the log is left out. *)
From S2P Require Import Prelude PS2Types RingBuffer Bus DriverWorld RingLoop OSTypes Touch Trackpad Alps AlpsDecode AlpsReport.

(** What an [IOReturn] of this file may be; [NegatedIOError] is [-kIOReturnIOError]. *)
Inductive AlpsReturn := AlpsSuccess | AlpsIOError | AlpsNoDevice | AlpsNegatedIOError | AlpsInvalid.
#[global] Instance AlpsReturn_eq_dec : EqDecision AlpsReturn.
Proof. solve_decision. Defined.

Definition DOLPHIN_COUNT_PER_ELECTRODE : Z := 64.
Definition DOLPHIN_PROFILE_XOFFSET : Z := 8.
Definition DOLPHIN_PROFILE_YOFFSET : Z := 1.
Definition SS4_COUNT_PER_ELECTRODE : Z := 256.
Definition SS4_NUMSENSOR_XOFFSET : Z := 7.
Definition SS4_NUMSENSOR_YOFFSET : Z := 7.
Definition SS4_MIN_PITCH_MM : Z := 50.
Definition SS4PLUS_COUNT_PER_ELECTRODE : Z := 128.
Definition SS4PLUS_NUMSENSOR_XOFFSET : Z := 16.
Definition SS4PLUS_NUMSENSOR_YOFFSET : Z := 5.
Definition SS4PLUS_MIN_PITCH_MM : Z := 37.

(** An [int] division; [None]: by zero. *)
Definition quotient (a b : Z) : option Z := if b =? 0 then None else Some (Z.quot a b).

(** Units per millimetre from the size of the pad. *)
Definition resolutions (px py nx ny : Z) (q : alps_data) : option alps_data :=
  let x_phys := px * (nx - 1) in
  let y_phys := py * (ny - 1) in
  rx ← quotient (s32 (x_max q * 10)) x_phys;
  ry ← quotient (s32 (y_max q * 10)) y_phys;
  Some {| q with x_res := u32 rx; y_res := u32 ry |}.

(** [alps_get_v3_v7_resolution] from the two registers, whose nibbles are signed. *)
Definition lowNibble (reg : Z) : Z := Z.shiftr (s8 (Z.shiftl reg 4)) 4.
Definition highNibble (reg : Z) : Z := Z.shiftr (s8 reg) 4.
Definition resolutionV3V7 (pitch electrodes : Z) : alps_data -> option alps_data :=
  resolutions (50 + 2 * lowNibble pitch) (36 + 2 * highNibble pitch) (17 + lowNibble electrodes) (13 + highNibble electrodes).

(** The two rows of [otp]. *)
Abbreviation Otp := ((Z * Z * Z) * (Z * Z * Z))%type.

Definition alps_update_device_area_ss4_v2 (otp : Otp) (q : alps_data) : option alps_data :=
  let '((o00, o01, o02), (o10, o11, o12)) := otp in
  if IS_SS4PLUS_DEV q then
    let nx := SS4PLUS_NUMSENSOR_XOFFSET + Z.land o02 0x0F in
    let ny := SS4PLUS_NUMSENSOR_YOFFSET + Z.land (Z.shiftr o02 4) 0x0F in
    resolutions (Z.land o01 0x0F + SS4PLUS_MIN_PITCH_MM) (Z.land (Z.shiftr o01 4) 0x0F + SS4PLUS_MIN_PITCH_MM) nx ny
      {| q with x_max := (nx - 1) * SS4PLUS_COUNT_PER_ELECTRODE; y_max := (ny - 1) * SS4PLUS_COUNT_PER_ELECTRODE |}
  else
    let nx := SS4_NUMSENSOR_XOFFSET + Z.land o10 0x0F in
    let ny := SS4_NUMSENSOR_YOFFSET + Z.land (Z.shiftr o10 4) 0x0F in
    resolutions (Z.land (Z.shiftr o12 2) 0x07 + SS4_MIN_PITCH_MM) (Z.land (Z.shiftr o12 5) 0x07 + SS4_MIN_PITCH_MM) nx ny
      {| q with x_max := (nx - 1) * SS4_COUNT_PER_ELECTRODE; y_max := (ny - 1) * SS4_COUNT_PER_ELECTRODE |}.

Definition isButtonless (otp : Otp) (q : alps_data) : bool :=
  let '(_, (o10, o11, _)) := otp in
  if IS_SS4PLUS_DEV q then bit (Z.shiftr o10 1) 0x01 else bit (Z.shiftr o11 3) 0x01.

(** The dimensions of a dolphin touchpad, from the third byte of an answer. *)
Definition dolphinArea (b2 : Z) (q : alps_data) : alps_data :=
  let nx := DOLPHIN_PROFILE_XOFFSET + Z.land b2 0x0F in
  let ny := DOLPHIN_PROFILE_YOFFSET + Z.land (Z.shiftr b2 4) 0x0F in
  {| q with x_bits := nx; y_bits := ny;
            x_max := (nx - 1) * DOLPHIN_COUNT_PER_ELECTRODE; y_max := (ny - 1) * DOLPHIN_COUNT_PER_ELECTRODE |}.

Definition ack (z : Z) : PS2Command := cmd kPS2C_SendCommandAndCompareAck z.
Definition readByte : PS2Command := cmd kPS2C_ReadDataPort 0.
Definition getInfo : list PS2Command := [ack kDP_GetMouseInformation; readByte; readByte; readByte].

Section Hardware.
Context {B : Type} `{PS2Bus B}.
#[local] Abbreviation W := (DrvWorld B ApplePS2ALPSGlidePoint AlpsEvent).
#[local] Abbreviation C := (M W).

(** A request of the commands [l] in a [TPS2Request<max>]. *)
Definition submitAlps (max : Z) (l : list PS2Command) : C PS2Request :=
  if max <? Z.of_nat (length l) then crash else
  dev ← dget drv_device; p ← deref dev; requestDevice p l.

(** Three bytes of an answer. *)
Definition threeBytes (r : PS2Request) (i : Z) : C (Z * Z * Z) :=
  b0 ← commandResult r i; b1 ← commandResult r (i + 1); b2 ← commandResult r (i + 2); ret (b0, b1, b2).

Definition ps2_command (value command : Z) : C unit := submitAlps 2 [ack command; ack value] ;; ret tt.
Definition ps2_command_short (command : Z) : C unit := submitAlps 1 [ack command] ;; ret tt.
Definition ps2_commands (l : list Z) : C unit := for_each l ps2_command_short.

Definition resetMouse : C bool :=
  r ← submitAlps 3 [ack kDP_Reset; readByte; readByte];
  b1 ← commandResult r 1; b2 ← commandResult r 2;
  ret (negb (negb (b1 =? kSC_Reset) && negb (b2 =? kSC_ID))).

(** ** Registers *)

Definition alps_command_mode_send_nibble (nibble : Z) : C bool :=
  table ← dget (fun d => nibble_commands (priv d));
  table ← deref table;
  nb ← deref (arr_get table nibble);
  let send := Z.land (Z.shiftr (nb_command nb) 12) 0xf in
  let receive := Z.land (Z.shiftr (nb_command nb) 8) 0xf in
  if (1 <? send) || (2 <? send + receive + 1) then ret false else
  let cmds := [ack (Z.land (nb_command nb) 0xff)] ++ (if 0 <? send then [ack (nb_data nb)] else []) ++ replicate (Z.to_nat receive) readByte in
  r ← submitAlps 2 cmds;
  ret (completed r (Z.of_nat (length cmds))).

(** All of the nibbles, until one cannot be sent. *)
Fixpoint sendNibbles (l : list Z) : C bool :=
  match l with
  | [] => ret true
  | nibble :: l => ok ← alps_command_mode_send_nibble nibble; if ok : bool then sendNibbles l else ret false
  end.

Definition nibblesOf (z : Z) (shifts : list Z) : list Z := map (fun i => Z.land (Z.shiftr z i) 0xf) shifts.

Definition alps_command_mode_set_addr (addr : Z) : C bool :=
  command ← dget (fun d => addr_command (priv d));
  r ← submitAlps 1 [ack command];
  if completed r 1 then sendNibbles (nibblesOf addr [12; 8; 4; 0]) else ret false.

(** [None] is the result -1. *)
Definition alps_command_mode_read_reg (addr : Z) : C (option Z) :=
  ok ← alps_command_mode_set_addr addr;
  if negb ok then ret None else
  r ← submitAlps 4 getInfo;
  if negb (completed r 4) then ret None else
  '(b0, b1, b2) ← threeBytes r 1;
  ret (if addr =? Z.lor (Z.shiftl b0 8) b1 then Some b2 else None).

(** [alps_command_mode_write_reg] with a value alone, and with an address; the value is a
    [UInt8]. *)
Definition writeValue (value : Z) : C bool := sendNibbles (nibblesOf (u8 value) [4; 0]).
Definition alps_command_mode_write_reg (addr value : Z) : C bool :=
  ok ← alps_command_mode_set_addr addr; if ok : bool then writeValue value else ret false.

(** The three answers to a command that is sent three times, and whether all went well. *)
Definition alps_rpt_cmd (init_command init_arg repeated_command : Z) : C (bool * (Z * Z * Z)) :=
  let cmds := (if nz init_command then [ack kDP_SetMouseResolution; ack init_arg] else []) ++
              [ack repeated_command; ack repeated_command; ack repeated_command] ++ getInfo in
  r ← submitAlps 9 cmds;
  report ← threeBytes r (if nz init_command then 6 else 4);
  ret (completed r (Z.of_nat (length cmds)), report).

Definition alps_enter_command_mode : C bool := '(ok, _) ← alps_rpt_cmd 0 0 kDP_MouseResetWrap; ret ok.
Definition alps_exit_command_mode : C unit := ps2_command_short kDP_SetMouseStreamMode.

(** A chain of steps that ends at the first that fails. *)
Definition andThen (m k : C bool) : C bool := ok ← m; if ok : bool then k else ret false.
Definition allOf (l : list (C bool)) : C bool := fold_right andThen (ret true) l.

(** A register that is read, and written with what [g] makes of its value. *)
Definition changeReg (addr : Z) (g : Z -> Z) : C bool :=
  v ← alps_command_mode_read_reg addr;
  match v with Some v => writeValue (g v) | None => ret false end.
Definition readsReg (addr : Z) : C bool := v ← alps_command_mode_read_reg addr; ret (bool_decide (v <> None)).

(** ** Versions 1, 2 and 6 *)

Definition alps_passthrough_mode_v2 (enable : bool) : C bool :=
  let c := if enable then kDP_SetMouseScaling2To1 else kDP_SetMouseScaling1To1 in
  r ← submitAlps 4 [ack c; ack c; ack c; ack kDP_SetDefaultsAndDisable];
  ret (completed r 4).

Definition alps_absolute_mode_v1_v2 : C bool :=
  ps2_commands [kDP_SetDefaultsAndDisable; kDP_SetDefaultsAndDisable; kDP_SetDefaultsAndDisable; kDP_SetDefaultsAndDisable;
                kDP_Enable; kDP_MouseSetPoll] ;;
  ret true.

Definition alps_monitor_mode_send_word (word : Z) : C unit :=
  for_each (nibblesOf word [0; 4; 8]) (fun nibble => alps_command_mode_send_nibble nibble ;; ret tt).

Definition alps_monitor_mode_write_reg (addr value : Z) : C unit :=
  ps2_command_short kDP_Enable ;;
  alps_monitor_mode_send_word 0x0A0 ;;
  alps_monitor_mode_send_word addr ;;
  alps_monitor_mode_send_word value ;;
  ps2_command_short kDP_SetDefaultsAndDisable.

(** The second request goes on where the first one ended in the same [TPS2Request<4>]. *)
Definition alps_monitor_mode (enable : bool) : C unit :=
  ps2_command_short kDP_MouseResetWrap ;;
  when enable
    (submitAlps 4 getInfo ;;
     ps2_commands [kDP_SetDefaultsAndDisable; kDP_SetDefaultsAndDisable; kDP_SetMouseScaling2To1; kDP_SetMouseScaling1To1;
                   kDP_SetMouseScaling2To1] ;;
     submitAlps 4 (getInfo ++ getInfo) ;; ret tt).

Definition alps_absolute_mode_v6 : C unit :=
  alps_monitor_mode true ;; alps_monitor_mode_write_reg 0x000 0x181 ;; alps_monitor_mode false.

Definition alps_get_status : C (bool * (Z * Z * Z)) := alps_rpt_cmd 0 0 kDP_SetDefaultsAndDisable.

Definition alps_tap_mode (enable : bool) : C bool :=
  r ← submitAlps 8 (getInfo ++ [ack kDP_SetDefaultsAndDisable; ack kDP_SetDefaultsAndDisable;
        ack (if enable then kDP_SetMouseSampleRate else kDP_SetMouseResolution); ack (if enable then 0x0A else 0x00)]);
  if completed r 8 then '(ok, _) ← alps_get_status; ret ok else ret false.

Definition alps_hw_init_v1_v2 : C bool :=
  pass ← dget (fun d => bit (flags (priv d)) ALPS_PASS);
  allOf [(if pass : bool then alps_passthrough_mode_v2 true else ret true);
         alps_tap_mode true;
         alps_absolute_mode_v1_v2;
         (if pass : bool then alps_passthrough_mode_v2 false else ret true);
         (ps2_command_short kDP_SetMouseStreamMode ;; ret true)].

Definition alps_hw_init_v6 : C bool :=
  alps_passthrough_mode_v2 true ;;
  ps2_commands [kDP_SetMouseScaling1To1; kDP_SetMouseScaling1To1; kDP_SetMouseScaling1To1] ;;
  ps2_command 0xC8 kDP_SetMouseSampleRate ;;
  ps2_command 0x14 kDP_SetMouseSampleRate ;;
  alps_passthrough_mode_v2 false ;;
  alps_absolute_mode_v6 ;;
  ret true.

(** ** Version 3 *)

Definition alps_passthrough_mode_v3 (regBase : Z) (enable : bool) : C bool :=
  ok ← alps_enter_command_mode;
  if negb ok then ret false else
  r ← changeReg (regBase + 0x0008) (fun v => if enable then Z.lor v 0x01 else without v 0x01);
  alps_exit_command_mode ;;
  ret r.

Definition alps_absolute_mode_v3 : C bool := changeReg 0x0004 (fun v => Z.lor v 0x06).

Definition alps_probe_trackstick_v3_v7 (regBase : Z) : C AlpsReturn :=
  ok ← alps_enter_command_mode;
  v ← (if ok : bool then alps_command_mode_read_reg (regBase + 0x08) else ret None);
  alps_exit_command_mode ;;
  ret (match v with Some v => if bit v 0x80 then AlpsSuccess else AlpsNoDevice | None => AlpsIOError end).

(** The sequence that makes the trackstick send extended packets. *)
Definition extendTrackstick (regBase : Z) : C AlpsReturn :=
  r ← submitAlps 3 [ack kDP_SetMouseScaling1To1; ack kDP_SetMouseScaling1To1; ack kDP_SetMouseScaling1To1];
  if negb (completed r 3) then ret AlpsIOError else
  ok ← andThen (alps_command_mode_send_nibble 0x9) (alps_command_mode_send_nibble 0x4);
  if negb ok then ret AlpsIOError else
  ok ← allOf [alps_enter_command_mode; alps_command_mode_write_reg (regBase + 0x0008) 0x82; (alps_exit_command_mode ;; ret true)];
  ret (if ok : bool then AlpsSuccess else AlpsNegatedIOError).

Definition alps_setup_trackstick_v3 (regBase : Z) : C AlpsReturn :=
  ok ← alps_passthrough_mode_v3 regBase true;
  if negb ok then ret AlpsIOError else
  '(ok, _) ← alps_rpt_cmd 0 0 kDP_SetMouseScaling2To1;
  r ← (if negb ok then ret AlpsNoDevice else extendTrackstick regBase);
  ok ← alps_passthrough_mode_v3 regBase false;
  ret (if ok : bool then r else AlpsIOError).

(** The trackstick, if there is one; only an error of the first kind ends the initialisation. *)
Definition setupTrackstick (regBase : Z) : C bool :=
  dual ← dget (fun d => bit (flags (priv d)) ALPS_DUALPOINT);
  if dual : bool then r ← alps_setup_trackstick_v3 regBase; ret (bool_decide (r <> AlpsIOError)) else ret true.

(** What follows in command mode, which is left either way; then what follows outside. *)
Definition inCommandMode (steps : C bool) (after : C unit) : C bool :=
  ok ← steps;
  alps_exit_command_mode ;;
  if ok : bool then after ;; ret true else ret false.

Definition alps_hw_init_v3 : C bool :=
  inCommandMode
    (allOf [setupTrackstick ALPS_REG_BASE_PINNACLE; alps_enter_command_mode; alps_absolute_mode_v3;
            changeReg 0x0006 (fun v => Z.lor v 0x01);
            changeReg 0x0007 (fun v => Z.lor v 0x01);
            changeReg 0x0144 (fun _ => 0x04);
            changeReg 0x0159 (fun _ => 0x03);
            readsReg 0x0163; alps_command_mode_write_reg 0x0163 0x03;
            readsReg 0x0162; alps_command_mode_write_reg 0x0162 0x04])
    (ps2_command 0x28 kDP_SetMouseSampleRate ;; ps2_command_short kDP_Enable).

(** A register that cannot be read gives a negative number, which as a [bool] is true. *)
Definition alps_get_v3_v7_resolution (reg_pitch : Z) : C bool :=
  pitch ← alps_command_mode_read_reg reg_pitch;
  match pitch with
  | None => ret true
  | Some pitch =>
    electrodes ← alps_command_mode_read_reg (reg_pitch + 1);
    match electrodes with
    | None => ret true
    | Some electrodes =>
      dstep (fun d => q ← resolutionV3V7 pitch electrodes (priv d); Some {| d with priv := q |}) ;; ret true
    end
  end.

Definition alps_hw_init_rushmore_v3 : C bool :=
  inCommandMode
    (allOf [setupTrackstick ALPS_REG_BASE_RUSHMORE; alps_enter_command_mode; readsReg 0xc2d9;
            alps_command_mode_write_reg 0xc2cb 0x00;
            alps_get_v3_v7_resolution 0xc2da;
            changeReg 0xc2c6 (fun v => Z.land v 0xfd);
            alps_command_mode_write_reg 0xc2c9 0x64;
            changeReg 0xc2c4 (fun v => Z.lor v 0x02)])
    (ps2_command_short kDP_Enable).

(** ** Versions 4, 5, 7 and 8 *)

Definition alps_absolute_mode_v4 : C bool := changeReg 0x0004 (fun v => Z.lor v 0x02).

Definition alps_hw_init_v4 : C bool :=
  inCommandMode
    (allOf ([alps_enter_command_mode; alps_absolute_mode_v4] ++
            map (fun '(addr, value) => alps_command_mode_write_reg addr value)
              [(0x0007, 0x8c); (0x0149, 0x03); (0x0160, 0x03); (0x017f, 0x15); (0x0151, 0x01); (0x0168, 0x03);
               (0x014a, 0x03); (0x0161, 0x03)]))
    (ps2_command 0xc8 kDP_SetMouseSampleRate ;; ps2_command 0x64 kDP_SetMouseSampleRate ;; ps2_command 0x50 kDP_SetMouseSampleRate ;;
     ps2_command_short kDP_GetId ;;
     ps2_command 0x64 kDP_SetMouseSampleRate ;; ps2_command_short kDP_Enable).

Definition alps_get_otp_values_ss4_v2 (index : Z) : C (Z * Z * Z) :=
  let c := if index =? 0 then kDP_SetMouseStreamMode else kDP_MouseSetPoll in
  ps2_commands [c; c] ;;
  r ← submitAlps 4 getInfo;
  threeBytes r 1.

Definition alps_update_btn_info_ss4_v2 (otp : Otp) : C unit :=
  is_btnless ← dget (fun d => isButtonless otp (priv d));
  when is_btnless (setPriv (fun q => {| q with flags := Z.lor (flags q) ALPS_BUTTONPAD |})) ;;
  tell (AlpsSet (akNamed "Clickpad") (AlpsBoolean is_btnless)).

(** A trackstick that only a register tells of. *)
Definition hiddenTrackstick : C bool :=
  alps_exit_command_mode ;;
  ok ← alps_enter_command_mode;
  v ← (if ok : bool then alps_command_mode_read_reg 0xD7 else ret (Some 0));
  alps_exit_command_mode ;;
  ps2_command_short kDP_Enable ;;
  ret (bool_decide (v = Some 0x0C) || bool_decide (v = Some 0x1D)).

Definition alps_update_dual_info_ss4_v2 (otp : Otp) : C unit :=
  let '((o00, _, _), _) := otp in
  plus ← dget (fun d => IS_SS4PLUS_DEV (priv d));
  is_dual ← (if plus : bool then if bit (Z.shiftr o00 4) 0x01 then ret true else hiddenTrackstick else ret false);
  when is_dual (setPriv (fun q => {| q with flags := Z.lor (flags q) (Z.lor ALPS_DUALPOINT ALPS_DUALPOINT_WITH_PRESSURE) |})) ;;
  tell (AlpsSet (akNamed "Trackpoint") (AlpsBoolean is_dual)).

Definition alps_set_defaults_ss4_v2 : C unit :=
  otp1 ← alps_get_otp_values_ss4_v2 1;
  otp0 ← alps_get_otp_values_ss4_v2 0;
  let otp := (otp0, otp1) in
  dstep (fun d => q ← alps_update_device_area_ss4_v2 otp (priv d); Some {| d with priv := q |}) ;;
  alps_update_btn_info_ss4_v2 otp ;;
  alps_update_dual_info_ss4_v2 otp.

Definition alps_dolphin_get_device_area : C unit :=
  alps_enter_command_mode ;;
  ps2_commands [kDP_MouseResetWrap; kDP_MouseSetPoll; kDP_MouseSetPoll] ;;
  ps2_command 0x0a kDP_SetMouseSampleRate ;;
  ps2_command 0x0a kDP_SetMouseSampleRate ;;
  r ← submitAlps 4 getInfo;
  '(_, _, b2) ← threeBytes r 1;
  setPriv (dolphinArea b2) ;;
  alps_exit_command_mode.

Definition alps_hw_init_dolphin_v1 : C bool :=
  ps2_command_short kDP_SetMouseStreamMode ;;
  ps2_command 0x64 kDP_SetMouseSampleRate ;;
  ps2_command 0x28 kDP_SetMouseSampleRate ;;
  ps2_command_short kDP_Enable ;;
  ret true.

Definition alps_hw_init_v7 : C bool :=
  inCommandMode
    (allOf [alps_enter_command_mode; readsReg 0xc2d9; alps_get_v3_v7_resolution 0xc397;
            alps_command_mode_write_reg 0xc2c9 0x64; changeReg 0xc2c4 (fun v => Z.lor v 0x02)])
    (ps2_command 0x28 kDP_SetMouseSampleRate ;; ps2_command_short kDP_Enable).

Definition alps_hw_init_ss4_v2 : C bool :=
  ps2_commands [kDP_SetMouseStreamMode; kDP_SetMouseStreamMode] ;;
  ps2_command 0x64 kDP_SetMouseSampleRate ;;
  ps2_command 0x28 kDP_SetMouseSampleRate ;;
  alps_exit_command_mode ;;
  alps_enter_command_mode ;;
  alps_command_mode_write_reg 0x001D 0x20 ;;
  alps_exit_command_mode ;;
  ps2_command_short kDP_Enable ;;
  ret true.

(** ** Identification *)

Definition setNumber (key : AlpsKey) (z : Z) : C unit := tell (AlpsSet key (AlpsNumber z)).

Definition set_resolution : C unit :=
  dset (fun d => {| d with physical_max_x := u32 (x_max (priv d) * 4); physical_max_y := u32 (Z.quot (y_max (priv d) * 9) 2);
                           logical_max_x := u32 (x_max (priv d)); logical_max_y := u32 (y_max (priv d)) |}) ;;
  q ← dget priv;
  setNumber (akNamed "X Max") (u32 (x_max q)) ;;
  setNumber (akNamed "Y Max") (u32 (y_max q)) ;;
  when (proto_version q =? ALPS_PROTO_V7)
    (dset (fun d => {| d with margin_size_x := s32 (3 * xupmm (settings d));
                              logical_max_x := if maxXOverride (settings d) =? -1 then logical_max_x d else u32 (maxXOverride (settings d)) |})) ;;
  d ← dget id;
  setNumber akLogicalMaxX (u32 (logical_max_x d - margin_size_x d)) ;;
  setNumber akLogicalMaxY (logical_max_y d) ;;
  setNumber akPhysicalMaxX (physical_max_x d) ;;
  setNumber akPhysicalMaxY (physical_max_y d).

(** The pointers and tables of a version, before it is asked for more; a version that is not
    known leaves them as they are. *)
Definition versionPointers (version : Z) (d : ApplePS2ALPSGlidePoint) : ApplePS2ALPSGlidePoint :=
  let withTable table addr (q : alps_data) : alps_data := {| q with nibble_commands := Some table; addr_command := addr |} in
  let q := priv d in
  if (version =? ALPS_PROTO_V1) || (version =? ALPS_PROTO_V2) then
    {| d with hw_init := Some InitV1V2; process_packet := Some ProcessV1V2; priv := {| q with x_max := 1023; y_max := 767 |} |}
  else if version =? ALPS_PROTO_V3 then
    {| d with hw_init := Some InitV3; process_packet := Some ProcessV3; decode_fields := Some DecodePinnacle;
              priv := withTable alps_v3_nibble_commands kDP_MouseResetWrap q |}
  else if version =? ALPS_PROTO_V3_RUSHMORE then
    {| d with hw_init := Some InitRushmore; process_packet := Some ProcessV3; decode_fields := Some DecodeRushmore;
              priv := {| (withTable alps_v3_nibble_commands kDP_MouseResetWrap q) with x_max := 2047; y_max := 1535 |} |}
  else if version =? ALPS_PROTO_V4 then
    {| d with hw_init := Some InitV4; process_packet := Some ProcessV4;
              priv := withTable alps_v4_nibble_commands kDP_SetDefaultsAndDisable q |}
  else if version =? ALPS_PROTO_V5 then
    {| d with hw_init := Some InitDolphin; process_packet := Some ProcessV3V5; decode_fields := Some DecodeDolphin;
              priv := {| (withTable alps_v3_nibble_commands kDP_MouseResetWrap q) with
                         byte0 := 0xc8; mask0 := 0xc8; flags := 0; x_bits := 23; y_bits := 12 |} |}
  else if version =? ALPS_PROTO_V6 then
    {| d with hw_init := Some InitV6; process_packet := Some ProcessV6;
              priv := {| (withTable alps_v6_nibble_commands kDP_MouseResetWrap q) with
                         byte0 := 0xc8; mask0 := 0xc8; flags := 0; x_max := 2047; y_max := 1535 |} |}
  else if version =? ALPS_PROTO_V7 then
    {| d with hw_init := Some InitV7; process_packet := Some ProcessV7; decode_fields := Some DecodeV7;
              priv := {| (withTable alps_v3_nibble_commands kDP_MouseResetWrap q) with
                         byte0 := 0x48; mask0 := 0x48; x_max := 0xfff; y_max := 0x7ff;
                         flags := if bool_decide (fw_ver q !! 1%nat = Some 0xba) then flags q else Z.lor (flags q) ALPS_BUTTONPAD |} |}
  else if version =? ALPS_PROTO_V8 then
    {| d with hw_init := Some InitSS4; process_packet := Some ProcessSS4; decode_fields := Some DecodeSS4;
              priv := {| (withTable alps_v3_nibble_commands kDP_MouseResetWrap q) with byte0 := 0x18; mask0 := 0x18; flags := 0 |} |}
  else d.

(** A version whose trackstick can be asked for, by the base of its registers. *)
Definition trackstickBase (version : Z) : option Z :=
  if version =? ALPS_PROTO_V3 then Some ALPS_REG_BASE_PINNACLE
  else if version =? ALPS_PROTO_V3_RUSHMORE then Some ALPS_REG_BASE_RUSHMORE
  else if version =? ALPS_PROTO_V7 then Some ALPS_REG_BASE_V7 else None.

Definition probeTrackstick (regBase : Z) : C unit :=
  r ← alps_probe_trackstick_v3_v7 regBase;
  when (bool_decide (r <> AlpsSuccess)) (setPriv (fun q => {| q with flags := without (flags q) ALPS_DUALPOINT |})).

Definition set_protocol : C unit :=
  version ← dget (fun d => proto_version (priv d));
  setNumber (akNamed "ALPS Version") version ;;
  setPriv (fun q => {| q with byte0 := 0x8f; mask0 := 0x8f; flags := ALPS_DUALPOINT;
                              x_max := 2000; y_max := 1400; x_bits := 15; y_bits := 11 |}) ;;
  dset (versionPointers version) ;;
  match trackstickBase version with Some base => probeTrackstick base | None => ret tt end ;;
  when (version =? ALPS_PROTO_V5) alps_dolphin_get_device_area ;;
  when (version =? ALPS_PROTO_V8) alps_set_defaults_ss4_v2 ;;
  when (negb (version =? ALPS_PROTO_V1) || negb (version =? ALPS_PROTO_V2) || negb (version =? ALPS_PROTO_V6)) set_resolution ;;
  setNumber akTransform 0 ;;
  tell (AlpsSet (akNamed "VoodooInputSupported") (AlpsBoolean true)).

(** The model with the signature [e7]. *)
Definition modelOf (e7 : Z * Z * Z) : option alps_model_info :=
  let '(b0, b1, b2) := e7 in find (fun m => bool_decide (signature m = [b0; b1; b2])) alps_model_data.

Definition matchTable (e7 : Z * Z * Z) : C bool :=
  match modelOf e7 with
  | Some m =>
    setPriv (fun q => {| q with proto_version := mi_version m |}) ;;
    set_protocol ;;
    setPriv (fun q => {| q with flags := mi_flags m; byte0 := mi_byte0 m; mask0 := mi_mask0 m |}) ;;
    ret true
  | None => ret false
  end.

(** The version that the two reports tell of, for a touchpad that is not in the table. *)
Definition versionOf (e7 ec : Z * Z * Z) : option Z :=
  let '(a0, a1, a2) := e7 in
  let '(c0, c1, c2) := ec in
  if (a0 =? 0x73) && (a1 =? 0x02) && (a2 =? 0x64) && (c2 =? 0x8a) then Some ALPS_PROTO_V4
  else if (a0 =? 0x73) && (a1 =? 0x03) && (a2 =? 0x50) && (c0 =? 0x73) && ((c1 =? 0x01) || (c1 =? 0x02)) then Some ALPS_PROTO_V5
  else if (c0 =? 0x88) && ((Z.land c1 0xf0 =? 0xb0) || (Z.land c1 0xf0 =? 0xc0)) then Some ALPS_PROTO_V7
  else if (c0 =? 0x88) && (c1 =? 0x08) then Some ALPS_PROTO_V3_RUSHMORE
  else if (c0 =? 0x88) && (c1 =? 0x07) && (0x90 <=? c2) && (c2 <=? 0x9d) then Some ALPS_PROTO_V3
  else if (a0 =? 0x73) && (a1 =? 0x03) && ((a2 =? 0x14) || (a2 =? 0x28)) then Some ALPS_PROTO_V8
  else if (a0 =? 0x73) && (a1 =? 0x03) && (a2 =? 0xc8) then Some ALPS_PROTO_V9
  else None.

Definition bytesOf (t : Z * Z * Z) : list Z := let '(b0, b1, b2) := t in [b0; b1; b2].

(** The first report is asked for, but its answer plays no part. *)
Definition identify : C AlpsReturn :=
  alps_rpt_cmd kDP_SetMouseResolution 0 kDP_SetMouseScaling1To1 ;;
  '(ok, e7) ← alps_rpt_cmd kDP_SetMouseResolution 0 kDP_SetMouseScaling2To1;
  if negb ok then ret AlpsIOError else
  '(ok, ec) ← alps_rpt_cmd kDP_SetMouseResolution 0 kDP_MouseResetWrap;
  if negb ok then ret AlpsIOError else
  alps_exit_command_mode ;;
  found ← matchTable e7;
  if found : bool then ret AlpsSuccess else
  match versionOf e7 ec with
  | Some version =>
    setPriv (fun q => {| q with proto_version := version; dev_id := bytesOf e7; fw_ver := bytesOf ec |}) ;;
    set_protocol ;;
    ret AlpsSuccess
  | None => ret AlpsInvalid
  end.

(** [(this->*hw_init)()] with a pointer that may be null. *)
Definition initWith (i : HwInit) : C bool :=
  match i with
  | InitV1V2 => alps_hw_init_v1_v2
  | InitV3 => alps_hw_init_v3
  | InitRushmore => alps_hw_init_rushmore_v3
  | InitV4 => alps_hw_init_v4
  | InitDolphin => alps_hw_init_dolphin_v1
  | InitV6 => alps_hw_init_v6
  | InitV7 => alps_hw_init_v7
  | InitSS4 => alps_hw_init_ss4_v2
  end.

Definition deviceSpecificInit : C bool :=
  setPriv (fun q => {| q with pktsize := if proto_version q =? ALPS_PROTO_V4 then 8 else 6 |}) ;;
  init ← dget hw_init;
  init ← deref init;
  ok ← initWith init;
  if ok : bool then ret true else resetMouse ;; ret false.

End Hardware.
