(* ===== verification/AlpsDriver.v ===== *)
(** * The ALPS touchpad driver: settings, messages and life cycle

    The rest of VoodooPS2ALPSGlidePoint.cpp, in the world of [DriverWorld.v].  [bootArg] is a
    parameter, whether the kernel was started with an argument ([PE_parse_boot_argn]). *)
From S2P Require Import Prelude PS2Types RingBuffer Bus DriverWorld RingLoop OSTypes Touch Trackpad.
From S2P Require Import Alps AlpsDecode AlpsReport AlpsHardware.

(** The members and their names, in the order they are read. *)
Definition int32vars : list (string * (Z -> AlpsSettings -> AlpsSettings)) :=
  [("FingerZ"%string, fun v s => {| s with z_finger := v |});
   ("WakeDelay"%string, fun v s => {| s with wakedelay := v |});
   ("UnitsPerMMX"%string, fun v s => {| s with xupmm := v |});
   ("UnitsPerMMY"%string, fun v s => {| s with yupmm := v |});
   ("MinLogicalXOverride"%string, fun v s => {| s with minXOverride := v |});
   ("MinLogicalYOverride"%string, fun v s => {| s with minYOverride := v |});
   ("MaxLogicalXOverride"%string, fun v s => {| s with maxXOverride := v |});
   ("MaxLogicalYOverride"%string, fun v s => {| s with maxYOverride := v |});
   ("ForceTouchMode"%string, fun v s => {| s with _forceTouchMode := v |});
   ("ForceTouchPressureThreshold"%string, fun v s => {| s with _forceTouchPressureThreshold := v |});
   ("ForceTouchCustomDownThreshold"%string, fun v s => {| s with _forceTouchCustomDownThreshold := v |});
   ("ForceTouchCustomUpThreshold"%string, fun v s => {| s with _forceTouchCustomUpThreshold := v |});
   ("ForceTouchCustomPower"%string, fun v s => {| s with _forceTouchCustomPower := v |})].
Definition boolvars : list (string * (bool -> AlpsSettings -> AlpsSettings)) :=
  [("ProcessUSBMouseStopsTrackpad"%string, fun v s => {| s with _processusbmouse := v |});
   ("ProcessBluetoothMouseStopsTrackpad"%string, fun v s => {| s with _processbluetoothmouse := v |})].
Definition lowbitvars : list (string * (bool -> AlpsSettings -> AlpsSettings)) :=
  [("USBMouseStopsTrackpad"%string, fun v s => {| s with usb_mouse_stops_trackpad := v |})].
Definition int64vars : list (string * (Z -> AlpsSettings -> AlpsSettings)) :=
  [("QuietTimeAfterTyping"%string, fun v s => {| s with maxaftertyping := v |})].

(** [kPS2M_notifyKeyPressed] *)
Definition keyPressed (pInfo : PS2KeyInfo) (d : ApplePS2ALPSGlidePoint) : option ApplePS2ALPSGlidePoint :=
  let key := adbKeyCode pInfo in
  if modifierKey key then
    mask ← arr_get masks (key - 0x36);
    Some (if goingDown pInfo then {| d with _modifierdown := Z.lor (_modifierdown d) mask |}
          else {| d with _modifierdown := clear_bits (_modifierdown d) mask; keytime := ki_time pInfo |})
  else Some {| d with keytime := ki_time pInfo |}.

Inductive AlpsMessage :=
| GetDisableTouchpad | SetDisableTouchpad (enable : bool) | ResetTouchpad (reqCode : Z)
| NotifyKeyPressed (pInfo : PS2KeyInfo) | OtherMessage.

Section Driver.
Context {B : Type} `{PS2Bus B} (bootArg : string -> bool).
#[local] Abbreviation W := (DrvWorld B ApplePS2ALPSGlidePoint AlpsEvent).
#[local] Abbreviation C := (M W).

(** ** Settings *)

Definition setParamPropertiesGated (config : option OSDict) : C unit :=
  match config with
  | None => ret tt
  | Some config =>
    for_each int64vars (fun '(name, f) => readInt64 config name f) ;;
    for_each boolvars (fun '(name, f) => readBool config name f) ;;
    for_each int32vars (fun '(name, f) => readInt32 config name f) ;;
    for_each lowbitvars (fun '(name, f) => readLowbit config name f) ;;
    mice ← dget (fun d => match attachedHIDPointerDevices d with Some (_ :: _) => true | _ => false end);
    when mice (dset (fun d => {| d with ignoreall := usb_mouse_stops_trackpad (settings d) |})) ;;
    changeSettings (fun s => if (_forceTouchMode s =? FORCE_TOUCH_BUTTON) && recovery bootArg
                             then {| s with _forceTouchMode := FORCE_TOUCH_DISABLED |} else s)
  end.

Definition setProperties (props : OSObject) : C unit :=
  gate ← dget _cmdGate;
  match asDictionary props with
  | Some dict => when gate (setParamPropertiesGated (Some dict))
  | None => ret tt
  end.

(** The properties for a version of Darwin. *)
Definition injectVersionDependentProperties (version_major version_minor : Z) (config : OSDict) : C unit :=
  match versionProperties version_major version_minor config with
  | Some dict => for_each dict (fun '(key, o) => tell (AlpsInject key o))
  | None => ret tt
  end.

(** ** Messages, power, attached mice *)

Definition initTouchPad : C unit :=
  dset (fun d => {| d with _packetByteCount := 0; _ringBuffer := reset (_ringBuffer d); _modifierdown := 0 |}) ;;
  deviceSpecificInit ;; ret tt.

Definition setTouchPadEnable (enable : bool) : C unit :=
  if enable then initTouchPad else resetMouse ;; ret tt.

Definition waitWakedelay : C unit := ms ← dget (fun d => wakedelay (settings d)); onController (bus_sleep (u32 ms)).

(** A reset and a wake take the lock and identify the touchpad anew, before they initialise it. *)
Definition resetIdentify : C AlpsReturn :=
  dset (fun d => {| d with ignoreall := false |}) ;; onController bus_lock ;; resetMouse ;; waitWakedelay ;; identify.
Definition wakeIdentify : C AlpsReturn := waitWakedelay ;; onController bus_lock ;; resetMouse ;; identify.

(** The result is what [*pResult] is set to. *)
Definition message (m : AlpsMessage) : C (option bool) :=
  match m with
  | GetDisableTouchpad => ignore ← dget ignoreall; ret (Some (negb ignore))
  | SetDisableTouchpad enable =>
    dset (fun d => if eqb enable (ignoreall d) then {| d with ignoreall := negb enable |} else d) ;; ret None
  | ResetTouchpad reqCode =>
    when (reqCode =? 1) (resetIdentify ;; initTouchPad ;; onController bus_unlock) ;; ret None
  | NotifyKeyPressed pInfo => dstep (keyPressed pInfo) ;; ret None
  | OtherMessage => ret None
  end.

Definition setDevicePowerState (whatToDo : Z) : C unit :=
  if whatToDo =? kPS2C_DisableDevice then setTouchPadEnable false
  else when (whatToDo =? kPS2C_EnableDevice) (wakeIdentify ;; initTouchPad ;; onController bus_unlock).

(** The touchpad is ignored while there is a mouse. *)
Definition noticeMice (e : HidEvent) (l : list Z) : C unit :=
  stops ← dget (fun d => usb_mouse_stops_trackpad (settings d));
  when (stops && negb (eqb (published e) (bool_decide (l = [])))) (dset (fun d => {| d with ignoreall := published e |})).

Definition notificationHIDAttachedHandlerGated (bt : BluetoothCodes) (e : HidEvent) (service : Z) : C unit :=
  made ← dget (fun d => if isUsb e then usb_notify d else bluetooth_notify d);
  when made
    (attached ← dget attachedHIDPointerDevices; l ← deref attached;
     let l := hidStep bt e service l in
     dset (fun d => {| d with attachedHIDPointerDevices := Some l |}) ;;
     noticeMice e l).

Definition notificationHIDAttachedHandler (bt : BluetoothCodes) (e : HidEvent) (service : Z) : C unit :=
  gate ← dget _cmdGate; when gate (notificationHIDAttachedHandlerGated bt e service).

(** [flushCollection] on the set, which is then released. *)
Definition unregisterHIDPointerNotifications : C unit :=
  attached ← dget attachedHIDPointerDevices; deref attached ;;
  dset (fun d => {| d with attachedHIDPointerDevices := None |}).

(** ** Life cycle *)

Definition setDevice (o : option Z) : C unit := dset (fun d => {| d with _device := o |}).

(** [config]: what [makeConfigurationNode] finds, under the controller's lock. *)
Definition probe (version_major version_minor p : Z) (config : option OSDict) : C bool :=
  setDevice (Some p) ;;
  onController bus_lock ;;
  onController bus_unlock ;;
  if bool_decide ((c ← config; getBoolean c "DisableDevice") = Some true) then setDevice None ;; ret false else
  match config with
  | Some c => setParamPropertiesGated (Some c) ;; injectVersionDependentProperties version_major version_minor c
  | None => ret tt
  end ;;
  onController bus_lock ;;
  resetMouse ;;
  r ← identify;
  onController bus_unlock ;;
  setDevice None ;;
  ret (bool_decide (r = AlpsSuccess)).

Definition handleOpen (forClient : option Z) (isVoodooInput : bool) : C bool :=
  match forClient with
  | Some c => if isVoodooInput then dset (fun d => {| d with voodooInputInstance := Some c |}) ;; ret true else ret false
  | None => ret false
  end.

Definition handleIsOpen (forClient : option Z) : C bool :=
  client ← dget voodooInputInstance;
  ret (match forClient with
       | None => bool_decide (client <> None)
       | Some _ => bool_decide (client = forClient)
       end).

Definition handleClose (forClient : option Z) : C unit :=
  dset (fun d => if bool_decide (forClient = voodooInputInstance d) then {| d with voodooInputInstance := None |} else d).

(** [registerHIDPointerNotifications] *)
Definition registerHIDPointerNotifications : C unit :=
  dset (fun d => {| d with usb_notify := _processusbmouse (settings d) || usb_notify d;
                           bluetooth_notify := _processbluetoothmouse (settings d) || bluetooth_notify d |}).

(** [workLoop], [gate]: there is a work loop, a command gate can be made.  When the device
    cannot be initialised its pointer stays. *)
Definition start (p : Z) (workLoop gate : bool) : C bool :=
  setDevice (Some p) ;;
  dset (fun d => {| d with _cmdGate := gate |}) ;;
  if negb workLoop || negb gate then setDevice None ;; ret false else
  onController bus_lock ;;
  dset (fun d => {| d with attachedHIDPointerDevices := Some [] |}) ;;
  registerHIDPointerNotifications ;;
  ok ← deviceSpecificInit;
  if negb ok then onController bus_unlock ;; ret false else
  (onController bus_installInterrupt ;; dset (fun d => {| d with _interruptHandlerInstalled := true |})) ;;
  onController bus_unlock ;;
  onController bus_installPower ;;
  dset (fun d => {| d with _powerControlHandlerInstalled := true |}) ;;
  tell AlpsRegister ;;
  ret true.

Definition stop (workLoop : bool) : C unit :=
  unregisterHIDPointerNotifications ;;
  dset (fun d => {| d with ignoreall := false |}) ;;
  setTouchPadEnable false ;;
  when workLoop (dset (fun d => {| d with _cmdGate := false |})) ;;
  i ← dget drv_installed;
  when i (onController bus_uninstallInterrupt ;; dset (fun d => {| d with _interruptHandlerInstalled := false |})) ;;
  q ← dget _powerControlHandlerInstalled;
  when q (onController bus_uninstallPower ;; dset (fun d => {| d with _powerControlHandlerInstalled := false |})) ;;
  dset (fun d => {| d with _device := None |}).

End Driver.
