(* ===== verification/AlpsSafe.v ===== *)
(** * The ALPS driver stays in its arrays

    The invariant of the driver, and that a byte keeps it while the bytes of the packet
    under way are fewer than a packet has, that is, when the work loop has run since the
    last packet was complete.  Otherwise the byte is stored behind its slot.  Packets of a
    length that fits the version found are handled to their end, whatever they say, as long
    as the pad has more than one bit in each direction: the corners of a bitmap are divided
    by one less.  The contacts that VoodooInput is told are different fingers. *)
From S2P Require Import Prelude PS2Types RingBuffer RingSpec Bus Touch DriverWorld OSTypes RingLoop Trackpad.
From S2P Require Import Alps AlpsDecode AlpsReport AlpsHardware.

(** * The invariant and bytes *)

(** ** The invariant *)

(** Packets are of six or of eight bytes. *)
Definition packet_size (z : Z) : Prop := z = 6 \/ z = 8.

Lemma packet_size_facts z : packet_size z -> 0 < z < ALPS_RING /\ ALPS_RING mod z = 0.
Proof. by intros [-> | ->]. Qed.

(** The numbers that packets change. *)
Record packets_ok (q : alps_data) : Prop := {
  pk_data : length (multi_data q) = 6%nat;
  pk_multi : 0 <= multi_packet q;
  pk_second : -1 <= second_touch q <= 3 }.

(** What the pointers need: a decoder, and a table of nibbles. *)
Definition decodes (p : ProcessPacket) : bool :=
  match p with ProcessV3 | ProcessV3V5 | ProcessV7 | ProcessSS4 => true | _ => false end.

Record wired (d : ApplePS2ALPSGlidePoint) : Prop := {
  wi_decode : forall p, process_packet d = Some p -> decodes p = true -> decode_fields d <> None;
  wi_process : hw_init d <> None -> process_packet d <> None;
  wi_table : forall i, hw_init d = Some i -> i <> InitV1V2 -> nibble_commands (priv d) <> None;
  wi_size : forall t, nibble_commands (priv d) = Some t -> length t = 16%nat }.

(** [n]: VoodooInput's number; [o]: the nub. *)
Record alps_ok (n : Z) (o : option Z) (d : ApplePS2ALPSGlidePoint) : Prop := {
  ao_room : MAX_TOUCHES <= n;
  ao_transducers : Z.of_nat (length (ev_transducers (inputEvent d))) = n;
  ao_fingers : Z.of_nat (length (virtualFingerStates d)) = MAX_TOUCHES;
  ao_device : _device d = o;
  ao_port : forall p, o = Some p -> 0 <= p < kPS2MuxMaxIdx;
  ao_size : packet_size (pktsize (priv d));
  ao_ring : aligned ALPS_RING (pktsize (priv d)) (_ringBuffer d);
  ao_count : 0 <= _packetByteCount d;
  ao_packets : packets_ok (priv d);
  ao_wired : wired d }.

Lemma newAlps_ok n : MAX_TOUCHES <= n -> alps_ok n None (newAlps n).
Proof.
  intros Hn. split; try done; cbn.
  - rewrite length_replicate. unfold MAX_TOUCHES in Hn. lia.
  - by left.
Qed.

(** ** Bytes *)

(** The members an interrupt does not touch. *)
Definition alps_frame (d : ApplePS2ALPSGlidePoint) : ApplePS2ALPSGlidePoint :=
  {| d with _packetByteCount := 0; _ringBuffer := mkRing [] 0 0; priv := {| (priv d) with PSMOUSE_BAD_DATA := false |} |}.

(** The work loop has run since the last packet was complete. *)
Definition in_time (d : ApplePS2ALPSGlidePoint) : Prop := _packetByteCount d < pktsize (priv d).

Lemma frame_projections d d' : alps_frame d' = alps_frame d ->
  pktsize (priv d') = pktsize (priv d) /\ _device d' = _device d /\ _interruptHandlerInstalled d' = _interruptHandlerInstalled d.
Proof.
  intros E. split; [exact (f_equal (fun d => pktsize (priv d)) E)|]. split; [exact (f_equal _device E)|exact (f_equal _interruptHandlerInstalled E)].
Qed.

Lemma alps_frame_ok n o d d' : alps_ok n o d -> alps_frame d' = alps_frame d ->
  aligned ALPS_RING (pktsize (priv d)) (_ringBuffer d') -> 0 <= _packetByteCount d' -> alps_ok n o d'.
Proof.
  intros [H1 H2 H3 H4 H5 H6 H7 H8 [K1 K2 K3] [J1 J2 J3 J4]] Ef Ha Hc. destruct d as [? ? ? ? ? ? ? ? ? ? ? ? ? ? ? ? ? ? ? ? ? ? ? ? ? ? ? ? ? ? ? ? q ? ? ?], d' as [? ? ? ? ? ? ? ? ? ? ? ? ? ? ? ? ? ? ? ? ? ? ? ? ? ? ? ? ? ? ? ? q' ? ? ?].
  destruct q, q'. cbn in *. injection Ef as; subst. by split.
Qed.

Section Interrupt.
Context (n : Z) (o : option Z).
#[local] Abbreviation D := ApplePS2ALPSGlidePoint.

(** A step of the interrupt routine: no crash, and what the driver is afterwards. *)
Definition steps {X} (d0 : D) (P : X -> D -> Prop) (m : M D X) (d : D) : Prop :=
  exists d' x, m d = Ok (d', x) /\ P x d' /\ alps_ok n o d' /\ alps_frame d' = alps_frame d0.

Lemma steps_bind {X Y} d0 P Q (m : M D X) (k : X -> M D Y) d :
  steps d0 P m d -> (forall x d', P x d' -> alps_ok n o d' -> alps_frame d' = alps_frame d0 -> steps d0 Q (k x) d') -> steps d0 Q (m ≫= k) d.
Proof.
  intros (d1 & x & E & Hx & Hd & Ef) Hk. destruct (Hk x d1 Hx Hd Ef) as (d' & y & E' & H). exists d', y.
  by rewrite (bind_ok _ _ _ _ _ E).
Qed.

Lemma steps_ret {X} d0 (P : X -> D -> Prop) x d : P x d -> alps_ok n o d -> alps_frame d = alps_frame d0 -> steps d0 P (ret x) d.
Proof. intros Hx Hd Ef. by exists d, x. Qed.

Lemma steps_gets {X} d0 (f : D -> X) d : alps_ok n o d -> alps_frame d = alps_frame d0 -> steps d0 (fun x d' => x = f d /\ d' = d) (gets f) d.
Proof. intros Hd Ef. by exists d, (f d). Qed.

(** A place in the slot at the head. *)
Lemma packetByte_steps d0 i d : alps_ok n o d -> alps_frame d = alps_frame d0 -> 0 <= i < pktsize (priv d) ->
  steps d0 (fun _ d' => d' = d) (packetByte i) d.
Proof.
  intros Hd Ef Hi. pose proof (ao_ring _ _ _ Hd) as Ha. destruct (packet_size_facts _ (ao_size _ _ _ Hd)) as (Hp & Hm).
  destruct Ha as [[Hl Hh Ht] Ah At]. pose proof (aligned_fits ALPS_RING (pktsize (priv d)) Hp ltac:(done) Hm _ Hh Ah) as Hfit.
  destruct (arr_get_Some (m_buffer (_ringBuffer d)) (m_head (_ringBuffer d) + i)) as (b & E & _); [lia|].
  exists d, b. unfold packetByte, head_get. rewrite (bind_ok _ _ _ d (_ringBuffer d)) by done. by rewrite E.
Qed.

Lemma storeByte_steps d0 i x d : alps_ok n o d -> alps_frame d = alps_frame d0 -> 0 <= i < pktsize (priv d) ->
  steps d0 (fun _ d' => _packetByteCount d' = _packetByteCount d) (storeByte i x) d.
Proof.
  intros Hd Ef Hi. pose proof (ao_ring _ _ _ Hd) as Ha. destruct (packet_size_facts _ (ao_size _ _ _ Hd)) as (Hp & Hm).
  pose proof (head_set_spec ALPS_RING (pktsize (priv d)) Hp ltac:(done) Hm _ _ x Ha Hi) as E.
  destruct (head_set_aligned ALPS_RING (pktsize (priv d)) _ _ _ _ Ha E) as (Ha' & _).
  unfold steps, storeByte. rewrite (bind_ok _ _ _ d (_ringBuffer d)) by done. rewrite E. do 2 eexists. split; [reflexivity|]. split; [done|].
  split; [|done]. apply (alps_frame_ok n o d); [done|done|exact Ha'|exact (ao_count _ _ _ Hd)].
Qed.

Lemma setBad_steps d0 b d : alps_ok n o d -> alps_frame d = alps_frame d0 ->
  steps d0 (fun _ d' => _packetByteCount d' = _packetByteCount d) (setBad b) d.
Proof.
  intros Hd Ef. do 2 eexists. split; [reflexivity|]. split; [done|]. split; [|done].
  apply (alps_frame_ok n o d); [done|done|exact (ao_ring _ _ _ Hd)|exact (ao_count _ _ _ Hd)].
Qed.

Lemma commit_steps d0 d : alps_ok n o d -> alps_frame d = alps_frame d0 -> steps d0 (fun _ _ => True) commitPacket d.
Proof.
  intros Hd Ef. destruct (packet_size_facts _ (ao_size _ _ _ Hd)) as (Hp & Hm).
  do 2 eexists. split; [reflexivity|]. split; [done|]. split; [|done].
  apply (alps_frame_ok n o d); [done|done| |exact (ao_count _ _ _ Hd)]. by apply advanceHead_aligned; [..|exact (ao_ring _ _ _ Hd)].
Qed.

Lemma bad_steps d0 d : alps_ok n o d -> alps_frame d = alps_frame d0 -> steps d0 (fun _ _ => True) badPacket d.
Proof. intros Hd Ef. eapply steps_bind; [by apply setBad_steps|]. intros _ d' _ Hd' Ef'. by apply commit_steps. Qed.

Lemma append_steps d0 x d : alps_ok n o d -> alps_frame d = alps_frame d0 -> in_time d -> steps d0 (fun _ _ => True) (appendByte x) d.
Proof.
  intros Hd Ef Ht. unfold appendByte. pose proof (ao_count _ _ _ Hd) as Hc. eapply steps_bind; [by apply steps_gets|].
  intros c d' [-> ->] Hd' Ef'. eapply steps_bind; [by apply storeByte_steps|]. intros _ d1 _ Hd1 Ef1.
  do 2 eexists. split; [reflexivity|]. split; [done|]. split; [|done].
  apply (alps_frame_ok n o d1); [done|done|exact (ao_ring _ _ _ Hd1)|]. cbn. apply Z.mod_pos_bound. done.
Qed.

(** The tests read inside the slot. *)
Lemma test_steps d0 c i test d : alps_ok n o d -> alps_frame d = alps_frame d0 -> (c = true -> 0 <= i < pktsize (priv d)) ->
  steps d0 (fun _ d' => d' = d) (byteTest c i test) d.
Proof.
  intros Hd Ef Hi. unfold byteTest. destruct c; [|by apply steps_ret]. eapply steps_bind; [by apply packetByte_steps; [..|auto]|].
  intros b d' -> _ _. by apply steps_ret.
Qed.

Lemma tests_bind {Q} d0 c i test (k : M D bool) d : alps_ok n o d -> alps_frame d = alps_frame d0 ->
  (c = true -> 0 <= i < pktsize (priv d)) -> Q true d -> steps d0 Q k d ->
  steps d0 Q (a ← byteTest c i test; if a : bool then ret true else k) d.
Proof.
  intros Hd Ef Hi HQ Hk. eapply steps_bind; [by apply test_steps|]. intros a d' -> Hd' Ef'. destruct a; [by apply steps_ret|done].
Qed.

Lemma invalid_steps d0 d : alps_ok n o d -> alps_frame d = alps_frame d0 -> in_time d ->
  steps d0 (fun _ d' => d' = d) invalidPacket d.
Proof.
  intros Hd Ef Ht. unfold invalidPacket, in_time in *. pose proof (ao_count _ _ _ Hd) as Hc.
  assert (Hz : 6 <= pktsize (priv d)) by (destruct (ao_size _ _ _ Hd) as [-> | ->]; lia).
  eapply steps_bind; [by apply steps_gets|]. intros c d' [-> ->] _ _. eapply steps_bind; [by apply steps_gets|]. intros q d' [-> ->] _ _.
  cbv zeta. do 7 (apply tests_bind; [done|done|intros; lia|done|]). apply test_steps; [done|done|intros; lia].
Qed.

Lemma alps_interrupt_ok data d : alps_ok n o d -> in_time d -> steps d (fun _ _ => True) (interruptOccurred data) d.
Proof.
  intros Hd Ht. unfold interruptOccurred. cbv zeta. pose proof (ao_count _ _ _ Hd) as Hc.
  assert (Hz : 6 <= pktsize (priv d)) by (destruct (ao_size _ _ _ Hd) as [-> | ->]; lia).
  assert (Hin : forall d', alps_frame d' = alps_frame d -> _packetByteCount d' = _packetByteCount d -> in_time d').
  { intros d' Ef Ec. unfold in_time in *. destruct (frame_projections _ _ Ef) as (-> & _). lia. }
  eapply steps_bind; [by apply steps_gets|]. intros c d' [-> ->] _ _.
  eapply (steps_bind _ (fun _ d' => _packetByteCount d' = _packetByteCount d)).
  { destruct (Z.eqb_spec 0 (_packetByteCount d)); cbn [when]; [apply storeByte_steps; [done|done|lia]|by apply steps_ret]. }
  intros _ d1 E1 Hd1 Ef1. eapply steps_bind; [by apply setBad_steps|]. intros u2 d2 E2 Hd2 Ef2. cbv beta in E2.
  assert (Ec2 : _packetByteCount d2 = _packetByteCount d) by congruence.
  assert (Hz2 : 6 <= pktsize (priv d2)) by (destruct (frame_projections _ _ Ef2) as (-> & _); done).
  eapply steps_bind; [by apply steps_gets|]. intros q d3 [-> ->] _ _.
  eapply steps_bind; [by apply packetByte_steps; [..|lia]|]. intros b0 d3 -> _ _. destruct (_ && _).
  - unfold bareByte. eapply steps_bind; [by apply steps_gets|]. intros c d3 [-> ->] _ _. destruct (_ =? 3); [by apply bad_steps|].
    eapply steps_bind; [by apply append_steps; [..|apply Hin]|]. intros _ d3 _ Hd3 Ef3. by apply steps_ret.
  - eapply steps_bind; [by apply invalid_steps; [..|apply Hin]|]. intros bad d3 -> _ _. destruct bad; [by apply bad_steps|].
    eapply steps_bind; [by apply append_steps; [..|apply Hin]|]. intros _ d3 _ Hd3 Ef3.
    eapply steps_bind; [by apply steps_gets|]. intros c d4 [-> ->] _ _. destruct (_ =? _); [by apply commit_steps|by apply steps_ret].
Qed.

End Interrupt.

#[export] Instance alps_ring_laws : PacketRingLaws ApplePS2ALPSGlidePoint.
Proof. by split. Qed.

(** * The work loop *)

(** ** Bitmaps *)

Lemma nearestCorner_range pos l i closest second : 0 <= i -> -1 <= second < i + Z.of_nat (length l) ->
  -1 <= nearestCorner pos l i closest second < i + Z.of_nat (length l).
Proof.
  revert i closest second. induction l as [|c l IH]; intros i closest second Hi Hs; [done|]. cbn [nearestCorner length] in *. cbv zeta.
  replace (i + Z.of_nat (S (length l))) with (i + 1 + Z.of_nat (length l)) in * by lia. destruct (_ <? _); apply IH; lia.
Qed.

Lemma secondTouch_range pos corner second : length corner = 4%nat -> -1 <= second <= 3 ->
  0 <= (if second =? -1 then Z.rem (nearestCorner pos corner 0 0x7fffffff (-1) + 2) 4 else second) <= 3.
Proof.
  intros Hl Hs. destruct (Z.eqb_spec second (-1)); [|lia].
  pose proof (nearestCorner_range pos corner 0 0x7fffffff (-1)) as Hn. rewrite Hl in Hn.
  specialize (Hn ltac:(done) ltac:(lia)). pose proof (Z.rem_bound_pos (nearestCorner pos corner 0 0x7fffffff (-1) + 2) 4 ltac:(lia) ltac:(done)). lia.
Qed.

Lemma cornerAt_total max bits q : bits <> 1 -> exists z, cornerAt max bits q = Some z.
Proof. intros Hb. unfold cornerAt. rewrite (proj2 (Z.eqb_neq _ _) Hb). eauto. Qed.

(** A bitmap leaves the driver's data but for the corner. *)
Lemma bitmap_total priv f : x_bits priv <> 1 -> y_bits priv <> 1 -> -1 <= second_touch priv <= 3 ->
  exists found s f', alps_process_bitmap priv f = Some (found, {| priv with second_touch := s |}, f') /\ -1 <= s <= 3.
Proof.
  intros Hx Hy Hs. unfold alps_process_bitmap. destruct (_ || _).
  { exists 0, (second_touch priv), f. split; [by destruct priv|done]. }
  cbv zeta. destruct (divideContact (alps_get_bitmap_points (x_map f))) as [x_low x_high].
  destruct (divideContact (alps_get_bitmap_points (y_map f))) as [y_low y_high].
  destruct (cornerAt_total (x_max priv) _ x_low Hx) as [xl ->]. destruct (cornerAt_total (x_max priv) _ x_high Hx) as [xh ->].
  destruct (cornerAt_total (y_max priv) _ y_low Hy) as [yl ->]. destruct (cornerAt_total (y_max priv) _ y_high Hy) as [yh ->].
  cbn [mbind option_bind]. set (corner := [_; _; _; _]).
  pose proof (secondTouch_range (st f) corner (second_touch priv) eq_refl Hs) as Hr. revert Hr. generalize (if second_touch priv =? -1 then
    Z.rem (nearestCorner (st f) corner 0 0x7fffffff (-1) + 2) 4 else second_touch priv). intros s Hr.
  destruct (arr_get_Some corner s) as (c & -> & _); [cbn; lia|]. cbn [mbind option_bind].
  do 3 eexists. split; [reflexivity|lia].
Qed.

(** ** Contacts *)

Lemma placeFingersAlps_ok priv f n l : Z.of_nat (length l) = MAX_TOUCHES ->
  exists l', placeFingers priv f n l = Some l' /\ Z.of_nat (length l') = MAX_TOUCHES.
Proof.
  intros Hl. unfold placeFingers. set (l0 := map _ l).
  assert (H0 : Z.of_nat (length l0) = MAX_TOUCHES) by (subst l0; by rewrite length_map).
  destruct (Z.le_gt_cases (Z.min 4 n) 0) as [Hn|Hn].
  { exists l0. split; [|done]. unfold seqZ. by replace (Z.to_nat (Z.min 4 n)) with 0%nat by lia. }
  destruct (fold_opt_seqZ (placeFinger priv f) (fun _ l => Z.of_nat (length l) = MAX_TOUCHES) 0 (Z.min 4 n) l0) as (l' & E & H').
  - lia.
  - done.
  - intros i k Hi Hk. unfold placeFinger, MAX_TOUCHES in *. cbv zeta. destruct (arr_get_Some k i) as (v & -> & _); [lia|].
    cbn [mbind option_bind]. rewrite arr_set_Some by lia. cbn [mbind option_bind].
    match goal with |- context [arr_get ?k' 0] => destruct (arr_get_Some k' 0) as (v0 & -> & _); [rewrite length_insert; lia|] end.
    cbn [mbind option_bind]. rewrite arr_set_Some by (rewrite length_insert; lia). eexists. split; [done|]. by rewrite !length_insert.
  - by exists l'.
Qed.

Lemma alpsTransducer_slot s timestamp count maxy i v old : slotOf (alpsTransducer s timestamp count maxy i v old) = (i, timestamp, true).
Proof. unfold slotOf, alpsTransducer. by destruct (forceTouch s count v) as [[? ?] ?]. Qed.

(** The fingers of [js] that touch. *)
Definition touchesIn (l : list alps_virtual_finger_state) (i : Z) : bool := match arr_get l i with Some v => vf_touch v | None => false end.
Definition touchingIn (l : list alps_virtual_finger_state) (js : list Z) : list Z := filter (fun i => touchesIn l i = true) js.

Lemma fillContact_alps s timestamp count maxy l i ts m : Z.of_nat (length l) = MAX_TOUCHES -> 0 <= i < MAX_TOUCHES ->
  0 <= m < Z.of_nat (length ts) ->
  exists ts' m', fillContact s timestamp count maxy l i (ts, m) = Some (ts', m') /\ length ts' = length ts /\
    forall ids, m = Z.of_nat (length ids) -> shows timestamp ids ts ->
      m' = Z.of_nat (length (ids ++ touchingIn l [i])) /\ shows timestamp (ids ++ touchingIn l [i]) ts'.
Proof.
  intros Hl Hi Hm. unfold fillContact, touchingIn. destruct (arr_get_Some l i) as (v & Ev & _); [lia|].
  assert (Et : touchesIn l i = vf_touch v) by (unfold touchesIn; by rewrite Ev).
  rewrite Ev. cbn [mbind option_bind]. rewrite filter_cons, filter_nil, Et. destruct (vf_touch v); cbn [negb].
  2:{ rewrite decide_False by done. exists ts, m. split; [done|]. split; [done|]. intros ids. rewrite app_nil_r. auto. }
  rewrite decide_True by done. destruct (arr_get_Some ts m Hm) as (old & -> & _). cbn [mbind option_bind].
  rewrite arr_set_Some by done. cbn [mbind option_bind]. do 2 eexists. split; [done|]. split; [apply length_insert|].
  intros ids -> Hs. rewrite Nat2Z.id. split; [rewrite length_app; cbn [length]; lia|]. apply shows_add; [done|apply alpsTransducer_slot|lia].
Qed.

Lemma fillContacts_alps n d timestamp : MAX_TOUCHES <= n -> Z.of_nat (length (virtualFingerStates d)) = MAX_TOUCHES ->
  Z.of_nat (length (ev_transducers (inputEvent d))) = n ->
  exists ts m, fillContacts d timestamp = Some (ts, m) /\ Z.of_nat (length ts) = n /\
    contacts_ok MAX_TOUCHES (mkInputEvent ts (u8 m) timestamp).
Proof.
  intros Hn Hv Hl. unfold fillContacts. set (l := virtualFingerStates d) in *. unfold MAX_TOUCHES in Hn.
  destruct (fold_opt_seqZ (fillContact (settings d) timestamp (clampedFingerCount d) (logical_max_y d) l)
    (fun k '(ts, m) => Z.of_nat (length ts) = n /\ m = Z.of_nat (length (touchingIn l (seqZ 0 k))) /\ shows timestamp (touchingIn l (seqZ 0 k)) ts)
    0 MAX_TOUCHES (ev_transducers (inputEvent d), 0)) as ([ts m] & E & Hts & Hm & Hs).
  - done.
  - done.
  - intros i [ts m] Hi (Hts & Hm & Hs). pose proof (length_filter (fun i => touchesIn l i = true) (seqZ 0 i)) as Hle.
    fold (touchingIn l (seqZ 0 i)) in Hle. rewrite length_seqZ in Hle. unfold MAX_TOUCHES in Hi.
    destruct (fillContact_alps (settings d) timestamp (clampedFingerCount d) (logical_max_y d) l i ts m Hv) as (ts' & m' & -> & El & Hf);
      [done|lia|]. exists (ts', m'). split; [done|]. destruct (Hf _ Hm Hs) as [Hm' Hs'].
    assert (Es : touchingIn l (seqZ 0 (i + 1)) = touchingIn l (seqZ 0 i) ++ touchingIn l [i]).
    { unfold touchingIn. rewrite <- filter_app. f_equal. rewrite seqZ_app by lia. done. }
    rewrite Es. split; [congruence|done].
  - rewrite E. cbn [mbind option_bind]. change (0 + MAX_TOUCHES) with MAX_TOUCHES in *.
    pose proof (length_filter (fun i => touchesIn l i = true) (seqZ 0 MAX_TOUCHES)) as Hle. rewrite length_seqZ in Hle.
    fold (touchingIn l (seqZ 0 MAX_TOUCHES)) in Hle. change (Z.to_nat MAX_TOUCHES) with 5%nat in Hle.
    assert (Hth : exists ts', (if 4 <=? m then assignThumb m ts else Some ts) = Some ts' /\ length ts' = length ts /\ map slotOf ts' = map slotOf ts).
    { destruct (Z.leb_spec 4 m); [|by exists ts]. destruct (assignThumb_ok m ts) as (ts' & Et & Htl); [lia|]. exists ts'. split; [done|].
      split; [done|]. by apply (assignThumb_keeps slotOf) in Et. }
    destruct Hth as (ts' & -> & Htl & Hslots). cbn [mbind option_bind]. exists ts', m. split; [done|]. split; [congruence|].
    exists (touchingIn l (seqZ 0 MAX_TOUCHES)). cbn. split; [rewrite u8_small by lia; done|].
    split; [apply NoDup_filter, NoDup_seqZ|]. split.
    + apply Forall_forall. intros i [_ Hi%elem_of_seqZ]%list_elem_of_filter. lia.
    + unfold shows in *. rewrite <- Hs. by rewrite <- !firstn_map, Hslots.
Qed.

#[export] Instance alps_tells : Tells AlpsEvent := fun e => match e with AlpsTouchEvent _ e => contacts_ok MAX_TOUCHES e | _ => True end.

(** ** The driver at work *)

(** The members that a packet does not change. *)
Definition still_priv (q : alps_data) : alps_data :=
  {| q with prev_fin := 0; multi_packet := 0; second_touch := 0; multi_data := []; quirks := 0 |}.
Definition alps_still (d : ApplePS2ALPSGlidePoint) : ApplePS2ALPSGlidePoint :=
  {| d with inputEvent := mkInputEvent [] 0 0; clicked := false; b_left := false; b_right := false; b_middle := false; left_ts := false;
            virtualFingerStates := []; clampedFingerCount := 0; lastFingerCount := 0; reportVoodooInput := false;
            lastbuttons := 0; lastTrackStickButtons := 0; lastTouchpadButtons := 0; _packetByteCount := 0; priv := still_priv (priv d) |}.

(** ... and without the ring. *)
Definition without_ring (d : ApplePS2ALPSGlidePoint) : ApplePS2ALPSGlidePoint := {| d with _ringBuffer := mkRing [] 0 0 |}.

(** A driver whose packets are long enough, and whose pad has more than one bit each way. *)
Record fit (d : ApplePS2ALPSGlidePoint) : Prop := {
  fi_x : x_bits (priv d) <> 1;
  fi_y : y_bits (priv d) <> 1;
  fi_size : process_packet d = Some ProcessV4 -> pktsize (priv d) = 8;
  fi_process : process_packet d <> None }.

Lemma readable_Some n packet : n <= Z.of_nat (length packet) -> exists p, readable n packet = Some p.
Proof. intros Hl. unfold readable. rewrite (proj2 (Z.leb_le _ _) Hl). eauto. Qed.

Section Work.
Context {B : Type} `{HB : PS2Bus B} (abs : Z -> Z) (uninit : ApplePS2ALPSGlidePoint -> alps_fields).
#[local] Abbreviation W := (DrvWorld B ApplePS2ALPSGlidePoint AlpsEvent).
#[local] Abbreviation C := (M W).
Context (n : Z) (o : option Z) (d0 : ApplePS2ALPSGlidePoint) (H0 : alps_ok n o d0) (F0 : fit d0).

(** The driver while it handles a packet. *)
Record busy (d : ApplePS2ALPSGlidePoint) : Prop := {
  bu_transducers : Z.of_nat (length (ev_transducers (inputEvent d))) = n;
  bu_fingers : Z.of_nat (length (virtualFingerStates d)) = MAX_TOUCHES;
  bu_count : 0 <= _packetByteCount d;
  bu_packets : packets_ok (priv d);
  bu_still : alps_still d = alps_still d0 }.

#[local] Abbreviation works := (ends (B := B) (E := AlpsEvent) busy busy).

Lemma busyAlps_ok d : busy d -> alps_ok n o d.
Proof.
  intros [H1 H2 H3 H4 Hf]. destruct H0 as [K1 K2 K3 K4 K5 K6 K7 K8 K9 [J1 J2 J3 J4]]. destruct d as [? ? ? ? ? ? ? ? ? ? ? ? ? ? ? ? ? ? ? ? ? ? ? ? ? ? ? ? ? ? ? ? q ? ? ?], d0 as [? ? ? ? ? ? ? ? ? ? ? ? ? ? ? ? ? ? ? ? ? ? ? ? ? ? ? ? ? ? ? ? q0 ? ? ?].
  destruct q, q0. unfold alps_still, still_priv in Hf. cbn in *. injection Hf as; subst. by split.
Qed.

Lemma busy_start : busy d0.
Proof. destruct H0. by split. Qed.

Lemma works_seq {X Y} (m : C X) (k : X -> C Y) : works m -> (forall x, works (k x)) -> works (m ≫= k).
Proof. apply ends_bind. Qed.

Lemma works_look {X Y} (f : ApplePS2ALPSGlidePoint -> X) (k : X -> C Y) : (forall d, busy d -> works (k (f d))) -> works (dget f ≫= k).
Proof. intros Hk. apply ends_dget_bind. intros d Hd. by apply ends_weak, Hk. Qed.

(** A change of members that are free, on an array of the same length. *)
Lemma works_set f : (forall d, busy d -> alps_still (f d) = alps_still d /\ inputEvent (f d) = inputEvent d /\
    virtualFingerStates (f d) = virtualFingerStates d /\ priv (f d) = priv d /\ 0 <= _packetByteCount (f d)) ->
  (forall d, _interruptHandlerInstalled (f d) = _interruptHandlerInstalled d) -> works (dset f).
Proof.
  intros Hf Hi. apply ends_dset; [|exact Hi]. intros d Hd. destruct (Hf d Hd) as (E1 & E2 & E3 & E4 & H5). destruct Hd as [H1 H2 H3 H4 Ef].
  split; rewrite ?E1, ?E2, ?E3, ?E4; done.
Qed.

Lemma works_priv g : (forall q, packets_ok q -> packets_ok (g q) /\ still_priv (g q) = still_priv q) -> works (setPriv g).
Proof.
  intros Hg. apply ends_dset; [|done]. intros d [H1 H2 H3 H4 Ef]. destruct (Hg _ H4) as [H5 E]. split; try done.
  rewrite <- Ef. unfold alps_still. cbn [priv]. by rewrite E.
Qed.

Lemma works_tell e : (forall c, may_tell (e c)) -> works (tellClient e).
Proof. intros He. unfold tellClient. apply works_look. intros d _. destruct (voodooInputInstance d); [by apply ends_tell|apply ends_ret]. Qed.

Lemma works_motion x y b : works (trackpointMotion x y b).
Proof. unfold trackpointMotion. apply works_seq; [apply ends_gets|]. intros t. by apply works_tell. Qed.
Lemma works_scroll x y : works (trackpointScroll x y).
Proof. unfold trackpointScroll. apply works_seq; [apply ends_gets|]. intros t. by apply works_tell. Qed.
Lemma works_motionOrScroll x y b : works (trackpointOrScroll x y b).
Proof. unfold trackpointOrScroll. destruct (_ =? _); [apply works_motion|apply works_scroll]. Qed.

Lemma multi_ok m q : 0 <= m -> packets_ok q -> packets_ok {| q with multi_packet := m |} /\ still_priv {| q with multi_packet := m |} = still_priv q.
Proof. intros Hm [H1 H2 H3]. by split. Qed.

Lemma works_multi m : 0 <= m -> works (setPriv (fun q => {| q with multi_packet := m |})).
Proof. intros Hm. apply works_priv. intros q. by apply multi_ok. Qed.

Lemma works_second b : works (when b (setPriv (fun q => {| q with second_touch := -1 |}))).
Proof. apply ends_when. intros _. apply works_priv. intros q [H1 H2 H3]. split; [split; [done|done|cbn; lia]|done]. Qed.

Lemma works_buttons f : works (alps_buttons f).
Proof.
  unfold alps_buttons. apply works_look. intros d1 _. apply works_seq; [apply ends_gets|]. intros t. apply works_look. intros d2 _.
  assert (Hc : forall d, exists a b c e g, (changeButtons f d).1 = {| d with b_left := a; b_right := b; b_middle := c; left_ts := e; clicked := g |}).
  { intros d. unfold changeButtons. cbv zeta. destruct (buttonEdge (left_ts d) _ _ _). cbn [fst]. by do 5 eexists. }
  apply works_seq.
  - apply works_set; intros d; destruct (Hc d) as (a & b & c & e & g & ->); [|done]. intros Hd. by split_and!; [..|apply (bu_count d Hd)].
  - intros _. apply works_look. intros d3 _. apply ends_when. intros _. by apply works_tell.
Qed.

(** *** Contacts *)

Lemma works_sendContacts timestamp : works (sendContacts timestamp).
Proof.
  unfold sendContacts. apply works_look. intros d [H1 H2 H3 H4 H5].
  destruct (fillContacts_alps n d timestamp (ao_room _ _ _ H0) H2 H1) as (ts & m & E & Hts & He). eapply ends_deref_bind; [exact E|]. cbv zeta.
  apply works_seq.
  { apply ends_dset; [|done]. intros d1 [K1 K2 K3 K4 K5]. by split. }
  intros _. apply works_seq; [by apply works_tell|]. intros _. apply works_set; [|done]. intros d1 [K1 K2 K3 K4 K5]. by split_and!.
Qed.

Lemma works_sendTouchData : works (sendTouchData abs).
Proof.
  unfold sendTouchData. apply works_seq; [apply ends_gets|]. intros t. cbv zeta. apply works_look. intros d _.
  destruct (_ <? _); [apply ends_ret|]. apply works_look. intros d1 _. destruct (negb _); [|apply works_sendContacts].
  apply works_set; [|done]. intros d2 [K1 K2 K3 K4 K5]. by split_and!.
Qed.

Lemma works_prepare f m : works (prepareVoodooInput abs f m).
Proof.
  unfold prepareVoodooInput. apply works_seq.
  { apply ends_dstep. intros d [K1 K2 K3 K4 K5]. destruct (placeFingersAlps_ok (priv d) f m _ K2) as (l & -> & Hl). cbn [mbind option_bind].
    eexists. split; [done|]. split; [by split|done]. }
  assert (Hset : forall b, works (dset (fun d => {| d with reportVoodooInput := b |}))).
  { intros b. apply works_set; [|done]. intros d [K1 K2 K3 K4 K5]. by split_and!. }
  intros _. apply works_seq; [by apply ends_when|]. intros _. apply works_look. intros d _. apply ends_when. intros _.
  apply works_look. intros d1 _. apply works_seq; [by apply ends_when|]. intros _. apply works_sendTouchData.
Qed.

(** *** Packets *)

Lemma works_bitmap {Y} f (k : Z * alps_data * alps_fields -> C Y) d : busy d ->
  (forall found s f', -1 <= s <= 3 -> works (k (found, {| (priv d) with second_touch := s |}, f'))) ->
  works (deref (alps_process_bitmap (priv d) f) ≫= k).
Proof.
  intros Hd Hk. pose proof (f_equal (fun d => x_bits (priv d)) (bu_still _ Hd)) as Ex. pose proof (f_equal (fun d => y_bits (priv d)) (bu_still _ Hd)) as Ey.
  cbn in Ex, Ey. destruct (bitmap_total (priv d) f) as (found & s & f' & E & Hs).
  - rewrite Ex. apply (fi_x _ F0).
  - rewrite Ey. apply (fi_y _ F0).
  - apply (pk_second _ (bu_packets _ Hd)).
  - eapply ends_deref_bind; [exact E|]. by apply Hk.
Qed.

(** The driver's data after a bitmap, which was taken from the data at hand. *)
Lemma works_afterBitmap d s : busy d -> -1 <= s <= 3 -> works (setPriv (fun _ => {| (priv d) with second_touch := s |})).
Proof.
  intros Hd Hs. apply ends_dset; [|done]. intros d1 [K1 K2 K3 K4 K5]. split; try done.
  - cbn [priv]. destruct (bu_packets _ Hd) as [J1 J2 J3]. by split.
  - rewrite <- K5. pose proof (bu_still _ Hd) as Ef. pose proof (f_equal priv (eq_trans Ef (eq_sym K5))) as Ep. unfold alps_still in *. cbn [priv] in *.
    change (still_priv {| (priv d) with second_touch := s |}) with (still_priv (priv d)). by rewrite Ep.
Qed.

Lemma works_v1_v2 packet : 6 <= Z.of_nat (length packet) -> works (alps_process_packet_v1_v2 packet).
Proof.
  intros Hl. unfold alps_process_packet_v1_v2. apply works_look. intros d _. destruct (ignoreall d); [apply ends_ret|].
  destruct (readable_Some 6 packet Hl) as [p Ep]. eapply ends_deref_bind; [exact Ep|]. apply works_look. intros d1 _.
  destruct (positionV1V2 _ p) as [[[l r] m] [[x y] z]]. cbv zeta. destruct (_ && _); [apply works_motion|].
  apply works_seq; [apply works_priv; intros q [H1 H2 H3]; by split|]. intros _.
  apply works_seq; [apply ends_when; intros _; apply works_motion|]. intros _. apply ends_when. intros _.
  apply ends_when. intros _. apply works_scroll.
Qed.

Lemma works_stickV3 packet : 6 <= Z.of_nat (length packet) -> works (alps_process_trackstick_packet_v3 packet).
Proof.
  intros Hl. unfold alps_process_trackstick_packet_v3. destruct (readable_Some 6 packet Hl) as [p Ep].
  eapply ends_deref_bind; [exact Ep|]. apply works_look. intros d _. destruct (negb _); [apply ends_ret|]. destruct (negb _); [apply ends_ret|].
  destruct (_ && _); [apply ends_ret|]. cbv zeta. apply works_seq.
  { apply ends_when. intros _. apply works_priv. intros q [H1 H2 H3]. by split. }
  intros _. apply works_look. intros d1 _. cbv zeta. apply works_seq.
  { destruct (0 =? _); [apply ends_ret|]. apply works_set; [|done]. intros d2 [K1 K2 K3 K4 K5]. by split_and!. }
  intros _. apply works_look. intros d2 _. apply works_motionOrScroll.
Qed.

Lemma works_v6 packet : 6 <= Z.of_nat (length packet) -> works (alps_process_packet_v6 packet).
Proof.
  intros Hl. unfold alps_process_packet_v6. apply works_look. intros d _. destruct (ignoreall d); [apply ends_ret|].
  destruct (readable_Some 6 packet Hl) as [p Ep]. eapply ends_deref_bind; [exact Ep|]. destruct (_ =? _).
  - apply works_look. intros d1 _. destruct (negb _); [apply ends_ret|]. cbv zeta. apply works_seq.
    { apply works_set; [|done]. intros d2 [K1 K2 K3 K4 K5]. by split_and!. }
    intros _. destruct (if _ : bool then _ else _) as [x y]. apply works_motion.
  - apply works_motion.
Qed.

Lemma works_stickV7 packet : 6 <= Z.of_nat (length packet) -> works (alps_process_trackstick_packet_v7 packet).
Proof.
  intros Hl. unfold alps_process_trackstick_packet_v7. destruct (readable_Some 6 packet Hl) as [p Ep].
  eapply ends_deref_bind; [exact Ep|]. apply works_look. intros d _. destruct (negb _); [apply ends_ret|]. cbv zeta. apply works_seq.
  { apply works_set; [|done]. intros d2 [K1 K2 K3 K4 K5]. by split_and!. }
  intros _. apply works_look. intros d2 _. apply works_motionOrScroll.
Qed.

Lemma works_completeV4 f : works (completeV4 f).
Proof.
  unfold completeV4. apply works_look. intros d Hd. apply works_seq; [apply works_multi; pose proof (pk_multi _ (bu_packets _ Hd)); lia|]. intros _.
  destruct (_ <=? 2); [apply ends_ret|]. apply works_seq; [by apply works_multi|]. intros _. apply works_look. intros d1 Hd1.
  destruct (readable_Some 6 (multi_data (priv d1))) as [m Em]; [by rewrite (pk_data _ (bu_packets _ Hd1))|]. eapply ends_deref_bind; [exact Em|].
  apply works_bitmap; [done|]. intros found s f1 Hs. apply works_seq; [by apply works_afterBitmap|]. intros _. apply ends_ret.
Qed.

Lemma works_v4 packet : 8 <= Z.of_nat (length packet) -> works (alps_process_packet_v4 abs uninit packet).
Proof.
  intros Hl. unfold alps_process_packet_v4. apply works_look. intros d _. destruct (ignoreall d); [apply ends_ret|]. apply works_look. intros du _.
  destruct (readable_Some 8 packet Hl) as [p Ep]. eapply ends_deref_bind; [exact Ep|].
  apply works_seq; [apply ends_when; intros _; by apply works_multi|]. intros _. apply works_look. intros d1 Hd1.
  destruct (Z.ltb_spec 2 (multi_packet (priv d1))) as [|Hm]; [apply ends_ret|]. pose proof (pk_multi _ (bu_packets _ Hd1)) as Hm0.
  apply works_look. intros d2 Hd2. pose proof (pk_data _ (bu_packets _ Hd2)) as Hdata.
  eapply ends_deref_bind; [apply arr_set_Some; lia|]. eapply ends_deref_bind; [apply arr_set_Some; rewrite length_insert; lia|].
  apply works_seq.
  { apply works_priv. intros q [J1 J2 J3]. split; [split; [cbn; by rewrite !length_insert|done|done]|done]. }
  intros _. apply works_seq; [apply works_completeV4|]. intros f. apply works_seq; [apply works_second|]. intros _. cbv zeta.
  apply works_seq; [apply works_prepare|]. intros _. apply works_buttons.
Qed.

(** A packet that is kept has a decoder. *)
Context (decodes0 : decode_fields d0 <> None).

Lemma works_decode packet f : 6 <= Z.of_nat (length packet) -> works (decodeFields packet f).
Proof.
  intros Hl. unfold decodeFields. apply works_look. intros d Hd. pose proof (f_equal decode_fields (bu_still _ Hd)) as E. cbn in E. rewrite E.
  destruct (decode_fields d0) as [decode|]; [|done]. eapply ends_deref_bind; [reflexivity|]. apply works_look. intros d1 _.
  unfold decodeWith. destruct (readable_Some 6 packet Hl) as [p ->]. cbn [mbind option_bind deref]. apply ends_ret.
Qed.

Lemma works_decodeAnyway packet f : 6 <= Z.of_nat (length packet) -> works (decodeAnyway packet f).
Proof. intros Hl. unfold decodeAnyway. apply works_seq; [by apply works_decode|]. intros r. apply ends_ret. Qed.

Lemma data_length d : busy d -> 6 <= Z.of_nat (length (multi_data (priv d))).
Proof. intros Hd. rewrite (pk_data _ (bu_packets _ Hd)). done. Qed.

Lemma works_join f : works (joinBitmap f).
Proof.
  unfold joinBitmap. apply works_look. intros d _. destruct (negb _); [apply ends_ret|]. destruct (negb _).
  { apply works_seq; [by apply works_multi|]. intros _. apply ends_ret. }
  cbv zeta. apply works_look. intros d1 Hd1. apply works_seq; [by apply works_decodeAnyway, data_length|]. intros f1.
  apply works_look. intros d2 Hd2. apply works_bitmap; [done|]. intros found s f2 Hs. apply works_seq; [by apply works_afterBitmap|].
  intros _. apply ends_ret.
Qed.

Lemma works_keep packet : 6 <= Z.of_nat (length packet) -> works (keepPacket packet).
Proof. intros Hl. apply works_priv. intros q [H1 H2 H3]. split; [split; [cbn; rewrite length_take; lia|done|done]|done]. Qed.

Lemma works_v3_v5 packet : 6 <= Z.of_nat (length packet) -> works (alps_process_touchpad_packet_v3_v5 abs packet).
Proof.
  intros Hl. unfold alps_process_touchpad_packet_v3_v5. apply works_look. intros d _. destruct (ignoreall d); [apply ends_ret|].
  apply works_seq; [by apply works_decodeAnyway|]. intros f. apply works_seq; [apply works_join|]. intros [f1 fingers].
  destruct (is_mp f1); [apply ends_ret|]. apply works_look. intros d1 _. destruct (_ && _); [by apply works_keep|].
  apply works_seq; [by apply works_multi|]. intros _. apply works_seq; [apply works_second|]. intros _.
  destruct (if fingers <? 2 then _ else _) as [f2 m]. apply works_look. intros d2 _. cbv zeta.
  apply works_seq; [apply works_prepare|]. intros _. apply works_buttons.
Qed.

Lemma works_v7_touch packet : 6 <= Z.of_nat (length packet) -> works (alps_process_touchpad_packet_v7 abs packet).
Proof.
  intros Hl. unfold alps_process_touchpad_packet_v7. apply works_look. intros d _. destruct (ignoreall d); [apply ends_ret|].
  apply works_seq; [by apply works_decode|]. intros [f|]; [|apply ends_ret]. apply works_look. intros d1 _. cbv zeta.
  apply works_seq; [apply works_prepare|]. intros _. apply works_buttons.
Qed.

Lemma works_joinSS4 f : works (joinSS4 f).
Proof.
  unfold joinSS4. apply works_look. intros d _. destruct (negb _); [apply ends_ret|]. destruct (is_mp f).
  - apply works_look. intros d1 Hd1. by apply works_decodeAnyway, data_length.
  - apply works_seq; [by apply works_multi|]. intros _. apply ends_ret.
Qed.

Lemma works_stickSS4 p f : works (trackstickSS4 p f).
Proof.
  unfold trackstickSS4. apply works_look. intros d _. destruct (negb _); [apply ends_ret|]. cbv zeta.
  destruct (_ || _); [apply ends_ret|apply works_motionOrScroll].
Qed.

Lemma works_ss4 packet : 6 <= Z.of_nat (length packet) -> works (alps_process_packet_ss4_v2 abs packet).
Proof.
  intros Hl. unfold alps_process_packet_ss4_v2. apply works_look. intros d _. destruct (ignoreall d); [apply ends_ret|].
  apply works_seq; [by apply works_decodeAnyway|]. intros f. apply works_seq; [apply works_joinSS4|]. intros f1.
  destruct (is_mp f1); [apply ends_ret|]. apply works_look. intros d1 _. destruct (_ && _); [by apply works_keep|].
  apply works_seq; [by apply works_multi|]. intros _. destruct (readable_Some 6 packet Hl) as [p Ep]. eapply ends_deref_bind; [exact Ep|].
  assert (Ht : works (ymax ← dget (fun d => y_max (priv d)); let f := reverseY ymax f1 in prepareVoodooInput abs f (s32 (fingers f)) ;; alps_buttons f)).
  { apply works_look. intros d2 _. cbv zeta. apply works_seq; [apply works_prepare|]. intros _. apply works_buttons. }
  destruct (alps_get_pkt_id_ss4_v2 p); try exact Ht. apply works_stickSS4.
Qed.

End Work.

(** ** The loop *)

Section Loop.
Context {B : Type} `{HB : PS2Bus B} (abs : Z -> Z) (uninit : ApplePS2ALPSGlidePoint -> alps_fields) (n : Z) (o : option Z).
#[local] Abbreviation C := (M (DrvWorld B ApplePS2ALPSGlidePoint AlpsEvent)).

Lemma works_process d0 process packet : alps_ok n o d0 -> fit d0 -> process_packet d0 = Some process ->
  Z.of_nat (length packet) = pktsize (priv d0) -> ends (B := B) (busy n d0) (busy n d0) (processWith abs uninit process packet).
Proof.
  intros H0 F0 Hp Hl. assert (Hz : 6 <= Z.of_nat (length packet)) by (rewrite Hl; destruct (ao_size _ _ _ H0) as [-> | ->]; lia).
  pose proof (wi_decode _ (ao_wired _ _ _ H0) _ Hp) as Hd. destruct process; cbn [processWith decodes] in *.
  - by apply works_v1_v2.
  - unfold alps_process_packet_v3. destruct (arr_get_Some packet 5) as (b & E & _); [lia|]. eapply ends_deref_bind; [exact E|].
    destruct (_ =? _); [by apply works_stickV3|]. apply (works_v3_v5 abs n o); auto.
  - apply (works_v4 abs uninit n o); [done|done|]. by rewrite Hl, (fi_size _ F0).
  - apply (works_v3_v5 abs n o); auto.
  - by apply works_v6.
  - unfold alps_process_packet_v7. destruct (readable_Some 6 packet Hz) as [p Ep]. eapply ends_deref_bind; [exact Ep|].
    destruct (_ && _); [by apply works_stickV7|]. apply (works_v7_touch abs n o); auto.
  - apply (works_ss4 abs n o); auto.
Qed.

Lemma works_handle d0 packet : alps_ok n o d0 -> fit d0 -> Z.of_nat (length packet) = pktsize (priv d0) ->
  ends (B := B) (busy n d0) (busy n d0) (handlePacket abs uninit packet).
Proof.
  intros H0 F0 Hl. unfold handlePacket. apply works_look. intros d _. apply works_look. intros d1 _. apply works_seq.
  - apply ends_when. intros _. apply works_look. intros d2 Hd2. pose proof (f_equal process_packet (bu_still _ _ _ Hd2)) as E. cbn in E. rewrite E.
    destruct (process_packet d0) as [process|] eqn:Ep; [|by destruct (fi_process _ F0)]. eapply ends_deref_bind; [reflexivity|].
    by apply works_process.
  - intros _. apply works_set; [|done]. intros d2 [K1 K2 K3 K4 K5]. by split_and!.
Qed.

(** A driver that may handle packets, like [d] but for what packets change. *)
Definition alps_work (r : ApplePS2ALPSGlidePoint) (d : ApplePS2ALPSGlidePoint) : Prop :=
  alps_ok n o d /\ fit d /\ without_ring (alps_still d) = without_ring (alps_still r).

Lemma fit_still d d' : alps_still d' = alps_still d -> fit d -> fit d'.
Proof.
  intros E [H1 H2 H3 H4]. pose proof (f_equal priv E) as Ep. pose proof (f_equal process_packet E) as Eq. cbn in Eq.
  pose proof (f_equal x_bits Ep) as E1. pose proof (f_equal y_bits Ep) as E2. pose proof (f_equal pktsize Ep) as E3. cbn in E1, E2, E3.
  split; [congruence|congruence|by rewrite Eq, E3|congruence].
Qed.

Lemma alps_setRing d rb : alps_ok n o d -> aligned ALPS_RING (pktsize (priv d)) rb -> alps_ok n o (setRing rb d).
Proof. intros [H1 H2 H3 H4 H5 H6 H7 H8 H9 [J1 J2 J3 J4]] Ha. by split. Qed.

(** What the loop of [RingLoop.v] asks of the driver. *)
Section Work.
Context (r : ApplePS2ALPSGlidePoint) (z : Z) (Er : pktsize (priv r) = z) (Hz : packet_size z).

Lemma work_size d : alps_work r d -> pktsize (priv d) = z.
Proof. intros (_ & _ & E). rewrite <- Er. exact (f_equal (fun d => pktsize (priv d)) E). Qed.

Lemma work_ring d : alps_work r d -> aligned ALPS_RING z (_ringBuffer d).
Proof. intros Hd. rewrite <- (work_size d Hd). apply (ao_ring _ _ _ (proj1 Hd)). Qed.

Lemma work_drop d : alps_work r d -> z <= count ALPS_RING (_ringBuffer d) -> alps_work r (dropFirst d).
Proof.
  destruct (packet_size_facts _ Hz) as (Hp & Hm). intros Hw Hc. pose proof (work_size d Hw) as Es. pose proof (work_ring d Hw) as Ha.
  destruct Hw as (Hd & Hf & E). split; [|split; [by destruct Hf|exact E]].
  unfold dropFirst. apply alps_setRing; [done|]. cbn [ringPacket alps_ring ringSize ringOf] in *. rewrite Es. by apply advanceTail_aligned.
Qed.

Lemma work_handle rb packet : length packet = Z.to_nat z ->
  ends (B := B) (has_ring (alps_work r) rb) (has_ring (alps_work r) rb) (handlePacket abs uninit packet).
Proof.
  destruct (packet_size_facts _ Hz) as (Hp & _). intros Hl w [Hw Hr]. pose proof (work_size _ Hw) as Es. destruct Hw as (Hd & Hf & E).
  eapply total_mono; [apply (works_handle (self w) packet Hd Hf)|].
  - rewrite Hl, Es. lia.
  - by apply (busy_start _ o).
  - cbn beta. intros x w' (Hb & Hrest). pose proof (bu_still _ _ _ Hb) as Ef. split; [|exact Hrest]. split.
    + split; [by apply (busyAlps_ok n o (self w))|]. split; [by apply (fit_still (self w))|]. by rewrite Ef.
    + rewrite <- Hr. exact (f_equal _ringBuffer Ef).
Qed.

Lemma ends_packetReady_alps : ends (B := B) (alps_work r) (alps_work r) (packetReady abs uninit).
Proof.
  destruct (packet_size_facts _ Hz) as (Hp & Hm).
  apply (ends_drainRing _ _ z); [exact Hp|exact Hm|exact work_size|exact work_ring|exact work_drop|]. intros. by apply work_handle.
Qed.

(** The loop is a pass over the packets that wait. *)
Lemma packetReady_passes (w : DrvWorld B ApplePS2ALPSGlidePoint AlpsEvent) : alps_work r (self w) ->
  total (packetReady abs uninit) (fun _ w' => for_each (waitingPackets (self w)) (handleFirst (handlePacket abs uninit)) w = Ok (w', tt) /\
    waitingPackets (self w') = [] /\ alps_work r (self w') /\ host w' = host w) w.
Proof.
  destruct (packet_size_facts _ Hz) as (Hp & Hm).
  apply (drainRing_spec _ _ z); [exact Hp|exact Hm|exact work_size|exact work_ring|exact work_drop|]. intros. by apply work_handle.
Qed.

End Work.

End Loop.
