(* ===== verification/AlpsFound.v ===== *)
(** * The ALPS driver finds its device

    The commands of each version keep what the driver has, whatever the touchpad answers.
    The identification leaves pointers that agree with the version it found, and after the
    initialisation that follows packets have the length that the version's handler reads. *)
From S2P Require Import Prelude PS2Types RingBuffer RingSpec Bus Touch DriverWorld OSTypes RingLoop Talk.
From S2P Require Import Trackpad Alps AlpsDecode AlpsReport AlpsHardware AlpsDriver AlpsSafe.

(** * Conversations *)

(** ** Commands *)

Section Commands.
Context {B : Type} `{HB : PS2Bus B} `{HL : !PS2BusLaws B}.
#[local] Abbreviation C := (M (DrvWorld B ApplePS2ALPSGlidePoint AlpsEvent)).
#[local] Abbreviation asks := (asks (B := B) (E := AlpsEvent)).
Context (I : ApplePS2ALPSGlidePoint -> Prop) `{HU : !Undisturbed (B := B) I} (p : Z).
Context (Hp : 0 <= p < kPS2MuxMaxIdx) (HI : forall d, I d -> _device d = Some p).
#[local] Abbreviation ok m := (asks I (fun _ => True) m).

Lemma asks_submitAlps max cs : Z.of_nat (length cs) <= max -> max < 256 -> asks I (answered cs) (submitAlps max cs).
Proof.
  intros Hc Hm. unfold submitAlps. rewrite (proj2 (Z.ltb_ge _ _) Hc). apply (asks_request I p Hp); [exact HI|lia].
Qed.

(** ... whose answer does not matter. *)
Lemma asks_submitOnly {X} max cs (k : PS2Request -> C X) : Z.of_nat (length cs) <= max -> max < 256 -> (forall r, ok (k r)) ->
  ok (r ← submitAlps max cs; k r).
Proof. intros Hc Hm Hk. eapply asks_bind; [by apply asks_submitAlps|]. by intros r _. Qed.

Lemma asks_threeAlps cs r i : answered cs r -> 0 <= i -> i + 2 < Z.of_nat (length cs) -> ok (threeBytes r i).
Proof.
  intros Ha H0 Hi. unfold threeBytes. do 3 (eapply asks_seq; [apply (asks_result I cs); [done|lia]|intros ?]). by apply asks_ret.
Qed.

Lemma asks_command v c : ok (ps2_command v c).
Proof. apply asks_submitOnly; [done|done|]. intros r. by apply asks_ret. Qed.
Lemma asks_short c : ok (ps2_command_short c).
Proof. apply asks_submitOnly; [done|done|]. intros r. by apply asks_ret. Qed.
Lemma asks_commands l : ok (ps2_commands l).
Proof. apply asks_each. intros c. apply asks_short. Qed.

Lemma asks_reset : ok resetMouse.
Proof.
  unfold resetMouse. eapply asks_bind; [by apply asks_submitAlps|]. intros r Hr.
  do 2 (eapply asks_seq; [eapply asks_result; [exact Hr|done]|intros ?]). by apply asks_ret.
Qed.

Lemma asks_rpt a b c : ok (alps_rpt_cmd a b c).
Proof.
  unfold alps_rpt_cmd. cbv zeta. eapply asks_bind; [by apply asks_submitAlps; destruct (nz a)|]. intros r Hr.
  eapply asks_seq; [eapply asks_threeAlps; [exact Hr|by destruct (nz a)..]|]. intros report. by apply asks_ret.
Qed.

Lemma asks_enter : ok alps_enter_command_mode.
Proof. unfold alps_enter_command_mode. apply asks_seq; [apply asks_rpt|]. intros [b x]. by apply asks_ret. Qed.
Lemma asks_exit : ok alps_exit_command_mode.
Proof. apply asks_short. Qed.

Lemma asks_andThen m k : ok m -> ok k -> ok (andThen m k).
Proof. intros Hm Hk. unfold andThen. apply asks_seq; [done|]. intros []; [done|by apply asks_ret]. Qed.

Lemma asks_allOf l : Forall (fun m => ok m) l -> ok (allOf l).
Proof. unfold allOf. induction 1; cbn [fold_right]; [by apply asks_ret|by apply asks_andThen]. Qed.

Lemma asks_inCommandMode steps after : ok steps -> ok after -> ok (inCommandMode steps after).
Proof.
  intros Hs Ha. unfold inCommandMode. apply asks_seq; [done|]. intros b. apply asks_seq; [apply asks_exit|]. intros _.
  destruct b; [|by apply asks_ret]. apply asks_seq; [done|]. intros _. by apply asks_ret.
Qed.

Lemma asks_passV2 b : ok (alps_passthrough_mode_v2 b).
Proof. unfold alps_passthrough_mode_v2. cbv zeta. apply asks_submitOnly; [done|done|]. intros r. by apply asks_ret. Qed.

Lemma asks_tap b : ok (alps_tap_mode b).
Proof.
  unfold alps_tap_mode. apply asks_submitOnly; [by destruct b|done|]. intros r. destruct (completed r 8); [|by apply asks_ret].
  apply asks_seq; [apply asks_rpt|]. intros [x y]. by apply asks_ret.
Qed.

Lemma asks_initV1V2 : ok alps_hw_init_v1_v2.
Proof.
  unfold alps_hw_init_v1_v2. apply asks_dget. intros d _. apply asks_allOf.
  assert (Hpass : forall (c : bool) b, ok (if c then alps_passthrough_mode_v2 b else ret true)).
  { intros [] b; [apply asks_passV2|by apply asks_ret]. }
  repeat (apply Forall_cons; split); [apply Hpass|apply asks_tap| |apply Hpass| |by apply Forall_nil].
  - unfold alps_absolute_mode_v1_v2. apply asks_seq; [apply asks_commands|]. intros _. by apply asks_ret.
  - apply asks_seq; [apply asks_short|]. intros _. by apply asks_ret.
Qed.

Lemma asks_initDolphin : ok alps_hw_init_dolphin_v1.
Proof.
  unfold alps_hw_init_dolphin_v1. apply asks_seq; [apply asks_short|]. intros _. do 2 (apply asks_seq; [apply asks_command|intros _]).
  apply asks_seq; [apply asks_short|]. intros _. by apply asks_ret.
Qed.

(** *** Registers *)

Section Registers.
Context (HT : forall d, I d -> exists t, nibble_commands (priv d) = Some t /\ length t = 16%nat).

Lemma asks_nibble nibble : 0 <= nibble < 16 -> ok (alps_command_mode_send_nibble nibble).
Proof.
  intros Hn. unfold alps_command_mode_send_nibble. apply asks_dget. intros d Hd. destruct (HT d Hd) as (t & -> & Hl).
  eapply asks_deref; [reflexivity|]. destruct (arr_get_Some t nibble) as (nb & E & _); [lia|]. eapply asks_deref; [exact E|]. cbv zeta.
  set (send := Z.land _ 0xf). set (receive := Z.land (Z.shiftr _ 8) 0xf).
  assert (H1 : 0 <= send) by (by apply Z.land_nonneg; right). assert (H2 : 0 <= receive) by (by apply Z.land_nonneg; right).
  clearbody send receive. destruct (Z.ltb_spec 1 send), (Z.ltb_spec 2 (send + receive + 1)); cbn [orb]; try by apply asks_ret.
  apply asks_submitOnly; [|done|intros r; by apply asks_ret]. rewrite !length_app, length_replicate. destruct (Z.ltb_spec 0 send); cbn [length]; lia.
Qed.

Lemma asks_nibbles l : Forall (fun i => 0 <= i < 16) l -> ok (sendNibbles l).
Proof.
  induction 1 as [|i l Hi Hl IH]; cbn [sendNibbles]; [by apply asks_ret|]. apply asks_seq; [by apply asks_nibble|].
  intros []; [done|by apply asks_ret].
Qed.

Lemma nibblesOf_range z shifts : Forall (fun i => 0 <= i < 16) (nibblesOf z shifts).
Proof.
  unfold nibblesOf. apply Forall_forall. intros i (s & -> & _)%list_elem_of_fmap. change 0xf with (Z.ones 4). rewrite Z.land_ones by done.
  by apply Z.mod_pos_bound.
Qed.

Lemma asks_setAddr addr : ok (alps_command_mode_set_addr addr).
Proof.
  unfold alps_command_mode_set_addr. apply asks_dget. intros d _. apply asks_submitOnly; [done|done|]. intros r.
  destruct (completed r 1); [apply asks_nibbles, nibblesOf_range|by apply asks_ret].
Qed.

Lemma asks_readRegAlps addr : ok (alps_command_mode_read_reg addr).
Proof.
  unfold alps_command_mode_read_reg. apply asks_seq; [apply asks_setAddr|]. intros b. destruct (negb b); [by apply asks_ret|].
  eapply asks_bind; [by apply asks_submitAlps|]. intros r Hr. destruct (negb _); [by apply asks_ret|].
  eapply asks_seq; [by eapply asks_threeAlps|]. intros [[b0 b1] b2]. by apply asks_ret.
Qed.

Lemma asks_writeValue v : ok (writeValue v).
Proof. apply asks_nibbles, nibblesOf_range. Qed.

Lemma asks_writeRegAlps addr v : ok (alps_command_mode_write_reg addr v).
Proof. unfold alps_command_mode_write_reg. apply asks_seq; [apply asks_setAddr|]. intros []; [apply asks_writeValue|by apply asks_ret]. Qed.

Lemma asks_changeReg addr g : ok (changeReg addr g).
Proof. unfold changeReg. apply asks_seq; [apply asks_readRegAlps|]. intros [v|]; [apply asks_writeValue|by apply asks_ret]. Qed.

Lemma asks_readsReg addr : ok (readsReg addr).
Proof. unfold readsReg. apply asks_seq; [apply asks_readRegAlps|]. intros v. by apply asks_ret. Qed.

(** A step of a chain. *)
#[local] Ltac chain := repeat (apply Forall_cons; split); [..|by apply Forall_nil];
  first [apply asks_enter|apply asks_changeReg|apply asks_readsReg|apply asks_writeRegAlps|idtac].

Lemma asks_passV3 regBase b : ok (alps_passthrough_mode_v3 regBase b).
Proof.
  unfold alps_passthrough_mode_v3. apply asks_seq; [apply asks_enter|]. intros a. destruct (negb a); [by apply asks_ret|].
  apply asks_seq; [apply asks_changeReg|]. intros r. apply asks_seq; [apply asks_exit|]. intros _. by apply asks_ret.
Qed.

Lemma asks_probeTrackstick regBase : ok (alps_probe_trackstick_v3_v7 regBase).
Proof.
  unfold alps_probe_trackstick_v3_v7. apply asks_seq; [apply asks_enter|]. intros a.
  apply asks_seq; [destruct a; [apply asks_readRegAlps|by apply asks_ret]|]. intros v. apply asks_seq; [apply asks_exit|]. intros _. by apply asks_ret.
Qed.

Lemma asks_setupTrackstick regBase : ok (setupTrackstick regBase).
Proof.
  unfold setupTrackstick. apply asks_dget. intros d _. destruct (bit _ _); [|by apply asks_ret].
  apply asks_seq; [|intros r; by apply asks_ret]. unfold alps_setup_trackstick_v3. apply asks_seq; [apply asks_passV3|]. intros a.
  destruct (negb a); [by apply asks_ret|]. apply asks_seq; [apply asks_rpt|]. intros [b x]. apply asks_seq.
  - destruct (negb b); [by apply asks_ret|]. unfold extendTrackstick. apply asks_submitOnly; [done|done|]. intros r.
    destruct (negb _); [by apply asks_ret|]. apply asks_seq; [apply asks_andThen; by apply asks_nibble|]. intros c.
    destruct (negb c); [by apply asks_ret|]. apply asks_seq; [|intros e; by apply asks_ret]. apply asks_allOf. chain.
    apply asks_seq; [apply asks_exit|intros _; by apply asks_ret].
  - intros r. apply asks_seq; [apply asks_passV3|]. intros c. by apply asks_ret.
Qed.

Lemma asks_initV3 : ok alps_hw_init_v3.
Proof.
  apply asks_inCommandMode; [apply asks_allOf; chain; [apply asks_setupTrackstick]|].
  apply asks_seq; [apply asks_command|intros _; apply asks_short].
Qed.

Lemma asks_initV4 : ok alps_hw_init_v4.
Proof.
  apply asks_inCommandMode; [apply asks_allOf; cbn [map app]; chain|]. do 3 (apply asks_seq; [apply asks_command|intros _]).
  apply asks_seq; [apply asks_short|intros _]. apply asks_seq; [apply asks_command|intros _; apply asks_short].
Qed.

Lemma asks_initSS4 : ok alps_hw_init_ss4_v2.
Proof.
  unfold alps_hw_init_ss4_v2. apply asks_seq; [apply asks_commands|intros _]. do 2 (apply asks_seq; [apply asks_command|intros _]).
  apply asks_seq; [apply asks_exit|intros _]. apply asks_seq; [apply asks_enter|intros _]. apply asks_seq; [apply asks_writeRegAlps|intros _].
  apply asks_seq; [apply asks_exit|intros _]. apply asks_seq; [apply asks_short|intros _]. by apply asks_ret.
Qed.

(** *** Resolutions *)

Context (HR : forall d rx ry, I d -> I {| d with priv := {| (priv d) with x_res := rx; y_res := ry |} |}).

Lemma lowNibble_range reg : -8 <= lowNibble reg <= 7.
Proof. unfold lowNibble. rewrite Z.shiftr_div_pow2 by done. pose proof (s8_range (Z.shiftl reg 4)). change (2 ^ 4) with 16. split; [apply Z.div_le_lower_bound|apply Z.lt_succ_r, Z.div_lt_upper_bound]; lia. Qed.
Lemma highNibble_range reg : -8 <= highNibble reg <= 7.
Proof. unfold highNibble. rewrite Z.shiftr_div_pow2 by done. pose proof (s8_range reg). change (2 ^ 4) with 16. split; [apply Z.div_le_lower_bound|apply Z.lt_succ_r, Z.div_lt_upper_bound]; lia. Qed.

Lemma resolutions_total px py nx ny q : 0 < px -> 0 < py -> 1 < nx -> 1 < ny ->
  exists rx ry, resolutions px py nx ny q = Some {| q with x_res := rx; y_res := ry |}.
Proof.
  intros H1 H2 H3 H4. unfold resolutions, quotient. cbv zeta.
  rewrite (proj2 (Z.eqb_neq (px * (nx - 1)) 0)) by nia. rewrite (proj2 (Z.eqb_neq (py * (ny - 1)) 0)) by nia. cbn [mbind option_bind]. eauto.
Qed.

Lemma asks_resolution reg : ok (alps_get_v3_v7_resolution reg).
Proof.
  unfold alps_get_v3_v7_resolution. apply asks_seq; [apply asks_readRegAlps|]. intros [a|]; [|by apply asks_ret].
  apply asks_seq; [apply asks_readRegAlps|]. intros [b|]; [|by apply asks_ret]. apply asks_seq; [|intros _; by apply asks_ret].
  apply asks_ends, ends_dstep. intros d Hd. pose proof (lowNibble_range a). pose proof (highNibble_range a).
  pose proof (lowNibble_range b). pose proof (highNibble_range b).
  destruct (resolutions_total (50 + 2 * lowNibble a) (36 + 2 * highNibble a) (17 + lowNibble b) (13 + highNibble b) (priv d)) as (rx & ry & E);
    [lia..|]. unfold resolutionV3V7. rewrite E. cbn [mbind option_bind]. eexists. split; [done|]. split; [by apply HR|done].
Qed.

Lemma asks_initRushmore : ok alps_hw_init_rushmore_v3.
Proof.
  apply asks_inCommandMode; [apply asks_allOf; chain; [apply asks_setupTrackstick|apply asks_resolution]|apply asks_short].
Qed.

Lemma asks_initV7 : ok alps_hw_init_v7.
Proof.
  apply asks_inCommandMode; [apply asks_allOf; chain; [apply asks_resolution]|]. apply asks_seq; [apply asks_command|intros _; apply asks_short].
Qed.

End Registers.
End Commands.

(** * Identification *)

(** The pointers agree with the version; version 9 leaves them as they were. *)
Record agree (d : ApplePS2ALPSGlidePoint) : Prop := {
  ag_x : x_bits (priv d) <> 1;
  ag_v6 : hw_init d = Some InitV6 -> proto_version (priv d) = ALPS_PROTO_V6 \/ proto_version (priv d) = ALPS_PROTO_V9;
  ag_v4 : process_packet d = Some ProcessV4 -> proto_version (priv d) = ALPS_PROTO_V4 \/ proto_version (priv d) = ALPS_PROTO_V9 }.

(** A version that can be initialised, and whose bitmaps can be divided. *)
Definition startable (d : ApplePS2ALPSGlidePoint) : bool :=
  let v := proto_version (priv d) in
  negb (v =? ALPS_PROTO_V6) && negb (v =? ALPS_PROTO_V9) && negb (y_bits (priv d) =? 1).

(** The versions there are. *)
Definition versions : list Z :=
  [ALPS_PROTO_V1; ALPS_PROTO_V2; ALPS_PROTO_V3; ALPS_PROTO_V3_RUSHMORE; ALPS_PROTO_V4; ALPS_PROTO_V5; ALPS_PROTO_V6; ALPS_PROTO_V7;
   ALPS_PROTO_V8; ALPS_PROTO_V9].

Definition tabled (v : Z) : Prop := v <> ALPS_PROTO_V1 /\ v <> ALPS_PROTO_V2 /\ v <> ALPS_PROTO_V9.

Lemma trackstick_tabled v base : trackstickBase v = Some base -> tabled v.
Proof.
  unfold trackstickBase. destruct (Z.eqb_spec v ALPS_PROTO_V3) as [->|_]; [done|].
  destruct (Z.eqb_spec v ALPS_PROTO_V3_RUSHMORE) as [->|_]; [done|]. by destruct (Z.eqb_spec v ALPS_PROTO_V7) as [->|_].
Qed.

Lemma modelOf_version e7 m : modelOf e7 = Some m -> mi_version m ∈ versions.
Proof.
  unfold modelOf. destruct e7 as [[a b] c]. intros H%find_some. destruct H as [Hin _].
  repeat (destruct Hin as [<-|Hin]; [vm_compute; by repeat constructor|]). done.
Qed.

Lemma versionOf_version e7 ec v : versionOf e7 ec = Some v -> v ∈ versions.
Proof.
  unfold versionOf. destruct e7 as [[? ?] ?], ec as [[? ?] ?].
  repeat (case_match; [intros [= <-]; unfold versions; set_solver|]). done.
Qed.

#[export] Instance HwInit_eq_dec : EqDecision HwInit.
Proof. solve_decision. Defined.

(** ** What the identification keeps *)

Section Keeps.
Context (n p : Z) (Hp : 0 <= p < kPS2MuxMaxIdx).

(** A driver on its device. *)
Definition alps_with (P : ApplePS2ALPSGlidePoint -> Prop) (d : ApplePS2ALPSGlidePoint) : Prop := alps_ok n (Some p) d /\ P d.

Lemma alps_with_device P d : alps_with P d -> _device d = Some p.
Proof. intros [Hd _]. apply (ao_device _ _ _ Hd). Qed.

Lemma alps_with_port P d q : alps_with P d -> _device d = Some q -> 0 <= q < kPS2MuxMaxIdx.
Proof. intros Hd. rewrite (alps_with_device P d Hd). by intros [= <-]. Qed.

(** The members that [alps_ok] looks at. *)
Definition priv_core (q : alps_data) := (nibble_commands q, pktsize q, multi_packet q, second_touch q, multi_data q).
Definition alps_core (d : ApplePS2ALPSGlidePoint) :=
  (inputEvent d, virtualFingerStates d, _device d, _ringBuffer d, _packetByteCount d, priv_core (priv d), (hw_init d, decode_fields d, process_packet d)).

Lemma alps_core_ok o d d' : alps_core d' = alps_core d -> alps_ok n o d -> alps_ok n o d'.
Proof.
  unfold alps_core, priv_core. intros [= E1 E2 E3 E4 E5 F1 F2 F3 F4 F5 G1 G2 G3] [H1 H2 H3 H4 H5 H6 H7 H8 [K1 K2 K3] [J1 J2 J3 J4]].
  split; rewrite ?E1, ?E2, ?E3, ?E4, ?E5, ?F1, ?F2; try done.
  - split; by rewrite ?F3, ?F4, ?F5.
  - split; by rewrite ?F1, ?G1, ?G2, ?G3.
Qed.

(** [b]: there was a version before; [K]: of the ring and of the attached mice. *)
Context (b : bool) (K : RingBuffer Z -> option (list Z) -> Prop).

Record kept (d : ApplePS2ALPSGlidePoint) : Prop := {
  ke_init : b = true -> hw_init d <> None;
  ke_ring : K (_ringBuffer d) (attachedHIDPointerDevices d) }.

Definition before (d : ApplePS2ALPSGlidePoint) : Prop := agree d /\ kept d.

(** The version is known, then its pointers and tables. *)
Definition chosen (v : Z) (d : ApplePS2ALPSGlidePoint) : Prop := proto_version (priv d) = v /\ kept d.
Definition widened (v : Z) (d : ApplePS2ALPSGlidePoint) : Prop := x_bits (priv d) <> 1 /\ chosen v d.

Record pointed (v : Z) (d : ApplePS2ALPSGlidePoint) : Prop := {
  po_agree : agree d;
  po_chosen : chosen v d;
  po_init : v <> ALPS_PROTO_V9 -> hw_init d <> None;
  po_table : tabled v -> nibble_commands (priv d) <> None }.

Lemma versionPointers_wired v d : wired d -> wired (versionPointers v d).
Proof.
  intros [J1 J2 J3 J4]. unfold versionPointers. cbv zeta. repeat case_match; (split; cbn; [..|by intros t [= <-] || exact J4]);
    intros; simplify_eq; try done; eauto.
Qed.

Lemma versionPointers_ok v d : v ∈ versions -> alps_with (widened v) d -> alps_with (pointed v) (versionPointers v d).
Proof.
  intros Hv [[H1 H2 H3 H4 H5 H6 H7 H8 [K1 K2 K3] H9] [Hx [E [Hi Hk]]]]. apply (versionPointers_wired v) in H9.
  unfold versions in Hv. repeat rewrite elem_of_cons in Hv. rewrite elem_of_nil in Hv. unfold tabled.
  destruct Hv as [->|[->|[->|[->|[->|[->|[->|[->|[->|[->|[]]]]]]]]]]];
    (split; [split; done|]); (split; [split; cbn; intros; simplify_eq; auto|split; [exact E|split; cbn; auto]|by intros ?|by intros (? & ? & ?)]).
Qed.

End Keeps.

(** ** The identification *)

Section Identify.
Context {B : Type} `{HB : PS2Bus B} `{HL : !PS2BusLaws B} `{HS : !SilentBus B}.
Context (n p : Z) (Hp : 0 <= p < kPS2MuxMaxIdx) (b : bool) (K : RingBuffer Z -> option (list Z) -> Prop).
#[local] Abbreviation C := (M (DrvWorld B ApplePS2ALPSGlidePoint AlpsEvent)).
#[local] Abbreviation asks := (asks (B := B) (E := AlpsEvent)).
#[local] Abbreviation leads := (leads (B := B) (E := AlpsEvent)).
#[local] Abbreviation at_ P := (alps_with n p P).
#[local] Abbreviation ok P m := (asks (at_ P) (fun _ => True) m).

#[local] Instance alps_with_undisturbed P : Undisturbed (B := B) (at_ P).
Proof. apply silent_undisturbed. intros d q. apply (alps_with_port n p Hp). Qed.

Lemma at_nibbles v : tabled v -> forall d, at_ (pointed b K v) d -> exists t, nibble_commands (priv d) = Some t /\ length t = 16%nat.
Proof.
  intros Hv d [Hd Hq]. pose proof (po_table _ _ _ _ Hq Hv). destruct (nibble_commands (priv d)) as [t|] eqn:E; [|done].
  exists t. split; [done|]. by apply (wi_size _ (ao_wired _ _ _ Hd)).
Qed.

Lemma asks_store P f : (forall d, alps_core (f d) = alps_core d) -> (forall d, _interruptHandlerInstalled (f d) = _interruptHandlerInstalled d) ->
  (forall d, P d -> P (f d)) -> ok P (dset f).
Proof. intros Hf Hi HP. apply asks_dset; [|exact Hi]. intros d [Hd H]. split; [by apply (alps_core_ok n _ d)|auto]. Qed.

Lemma asks_privs v g : (forall q, priv_core (g q) = priv_core q /\ proto_version (g q) = proto_version q /\ (x_bits q <> 1 -> x_bits (g q) <> 1)) ->
  ok (pointed b K v) (setPriv g).
Proof.
  intros Hg. apply asks_store; [|done|].
  - intros d. unfold alps_core. cbn. by rewrite (proj1 (Hg _)).
  - intros d [[A1 A2 A3] [<- [E1 E2]] Hi Ht]. destruct (Hg (priv d)) as (Ec & Ev & Ex). unfold priv_core in Ec.
    apply (f_equal (fun x => x.1.1.1.1)) in Ec. cbn in Ec. split; [split| |..]; cbn; rewrite ?Ev, ?Ec; auto. split; [cbn; congruence|by split].
Qed.

Lemma asks_probeStick v base : tabled v -> ok (pointed b K v) (probeTrackstick base).
Proof.
  intros Hv. unfold probeTrackstick. apply asks_seq; [apply (asks_probeTrackstick _ p Hp (alps_with_device n p _) (at_nibbles v Hv))|].
  intros r. apply asks_when. intros _. apply asks_privs. by intros q.
Qed.

Lemma nibble_nonneg x m : 0 <= m -> 0 <= Z.land x m.
Proof. intros Hm. apply Z.land_nonneg. by right. Qed.

Lemma asks_dolphinArea v : ok (pointed b K v) alps_dolphin_get_device_area.
Proof.
  unfold alps_dolphin_get_device_area. pose proof (alps_with_device n p (pointed b K v)) as HI.
  apply asks_seq; [apply (asks_enter _ p Hp HI)|intros _]. apply asks_seq; [apply (asks_commands _ p Hp HI)|intros _].
  do 2 (apply asks_seq; [apply (asks_command _ p Hp HI)|intros _]). eapply asks_bind; [by apply (asks_submitAlps _ p Hp HI)|].
  intros r Hr. eapply asks_seq; [by eapply asks_threeAlps|]. intros [[b0 b1] b2]. apply asks_seq; [|intros _; apply (asks_exit _ p Hp HI)].
  apply asks_privs. intros q. split; [done|]. split; [done|]. intros _. cbn. unfold DOLPHIN_PROFILE_XOFFSET.
  pose proof (nibble_nonneg b2 0x0f ltac:(done)). lia.
Qed.

(** *** Version 8 *)

Lemma asks_otp v i : ok (pointed b K v) (alps_get_otp_values_ss4_v2 i).
Proof.
  unfold alps_get_otp_values_ss4_v2. cbv zeta. pose proof (alps_with_device n p (pointed b K v)) as HI.
  apply asks_seq; [apply (asks_commands _ p Hp HI)|intros _]. eapply asks_bind; [by apply (asks_submitAlps _ p Hp HI)|].
  intros r Hr. by eapply asks_threeAlps.
Qed.

Lemma deviceArea_total otp q : exists xm ym rx ry,
  alps_update_device_area_ss4_v2 otp q = Some {| q with x_max := xm; y_max := ym; x_res := rx; y_res := ry |}.
Proof.
  unfold alps_update_device_area_ss4_v2. destruct otp as [[[o00 o01] o02] [[o10 o11] o12]].
  assert (Hr : forall px py nx ny xm ym, 0 < px -> 0 < py -> 1 < nx -> 1 < ny ->
    exists xm' ym' rx ry, resolutions px py nx ny {| q with x_max := xm; y_max := ym |} = Some {| q with x_max := xm'; y_max := ym'; x_res := rx; y_res := ry |}).
  { intros px py nx ny xm ym H1 H2 H3 H4. destruct (resolutions_total px py nx ny {| q with x_max := xm; y_max := ym |} H1 H2 H3 H4) as (rx & ry & ->).
    by exists xm, ym, rx, ry. }
  unfold SS4PLUS_NUMSENSOR_XOFFSET, SS4PLUS_NUMSENSOR_YOFFSET, SS4PLUS_MIN_PITCH_MM, SS4_NUMSENSOR_XOFFSET, SS4_NUMSENSOR_YOFFSET, SS4_MIN_PITCH_MM.
  destruct (IS_SS4PLUS_DEV q); cbv zeta; apply Hr;
    match goal with |- context [Z.land ?x ?m] => pose proof (nibble_nonneg x m ltac:(done)); lia end.
Qed.

Lemma asks_hiddenStick v : tabled v -> ok (pointed b K v) hiddenTrackstick.
Proof.
  intros Hv. unfold hiddenTrackstick. pose proof (alps_with_device n p (pointed b K v)) as HI.
  apply asks_seq; [apply (asks_exit _ p Hp HI)|intros _]. apply asks_seq; [apply (asks_enter _ p Hp HI)|intros a].
  apply asks_seq; [destruct a; [apply (asks_readRegAlps _ p Hp HI (at_nibbles v Hv))|by apply asks_ret]|intros x].
  apply asks_seq; [apply (asks_exit _ p Hp HI)|intros _]. apply asks_seq; [apply (asks_short _ p Hp HI)|intros _]. by apply asks_ret.
Qed.

Lemma asks_defaultsSS4 v : tabled v -> ok (pointed b K v) alps_set_defaults_ss4_v2.
Proof.
  intros Hv. unfold alps_set_defaults_ss4_v2. apply asks_seq; [apply asks_otp|intros otp1]. apply asks_seq; [apply asks_otp|intros otp0]. cbv zeta.
  apply asks_seq.
  { apply asks_ends, ends_dstep. intros d [Hd Hq]. destruct (deviceArea_total (otp0, otp1) (priv d)) as (xm & ym & rx & ry & ->). cbn [mbind option_bind].
    eexists. split; [done|]. split; [|done]. split; [by apply (alps_core_ok n _ d)|]. destruct Hq as [[A1 A2 A3] [E1 [E2 E3]] Hi Ht].
    split; [by split|split; [done|by split]|done|done]. }
  intros _. apply asks_seq.
  { unfold alps_update_btn_info_ss4_v2. apply asks_dget. intros d _. apply asks_seq; [|intros _; by apply asks_tell].
    apply asks_when. intros _. apply asks_privs. by intros q. }
  intros _. unfold alps_update_dual_info_ss4_v2. destruct otp0 as [[o00 o01] o02]. apply asks_dget. intros d _. apply asks_seq.
  - destruct (IS_SS4PLUS_DEV _); [|by apply asks_ret]. destruct (bit _ _); [by apply asks_ret|by apply asks_hiddenStick].
  - intros dual. apply asks_seq; [|intros _; by apply asks_tell]. apply asks_when. intros _. apply asks_privs. by intros q.
Qed.

(** *** The protocol *)

Lemma asks_setResolution v : ok (pointed b K v) set_resolution.
Proof.
  assert (Hset : forall f, (forall d, alps_core (f d) = alps_core d /\ _interruptHandlerInstalled (f d) = _interruptHandlerInstalled d /\
      priv (f d) = priv d /\ attachedHIDPointerDevices (f d) = attachedHIDPointerDevices d) -> ok (pointed b K v) (dset f)).
  { intros f Hf. apply asks_store; [apply Hf|apply Hf|]. intros d [[A1 A2 A3] [E1 [E2 E3]] Hi Ht].
    destruct (Hf d) as (Ec & _ & Ep & Em). unfold alps_core in Ec. assert (Er := f_equal (fun x => x.1.1.1.2) Ec). assert (Ew := f_equal (fun x => x.2) Ec).
    cbn in Er, Ew. injection Ew as F1 F2 F3. split; [split| |..]; rewrite ?F1, ?F3, ?Ep; auto.
    split; [by rewrite Ep|]. split; [by rewrite F1|by rewrite Er, Em]. }
  unfold set_resolution. apply asks_seq; [by apply Hset|intros _]. apply asks_dget. intros d _.
  do 2 (apply asks_seq; [by apply asks_tell|intros _]). apply asks_seq; [apply asks_when; intros _; by apply Hset|intros _].
  apply asks_dget. intros d1 _. do 3 (apply asks_seq; [by apply asks_tell|intros _]). by apply asks_tell.
Qed.

Lemma leads_setProtocol v l : v ∈ versions -> leads (at_ (chosen b K v)) l (fun _ => at_ (pointed b K v)) l set_protocol.
Proof.
  intros Hv. unfold set_protocol. apply leads_dget. intros d [_ [Ev _]]. rewrite Ev. clear d Ev.
  eapply (leads_asks _ (fun _ => True)); [by apply asks_tell|intros _ _].
  eapply (leads_moves _ _ (at_ (widened b K v)) l).
  { apply moves_dset; [|done]. intros d [Hd [E [E1 E2]]]. split; [by apply (alps_core_ok n _ d)|]. split; [done|]. by split. }
  intros _. eapply (leads_moves _ _ (at_ (pointed b K v)) l).
  { apply moves_dset; [intros d; by apply versionPointers_ok|]. intros d. unfold versionPointers. cbv zeta. by repeat case_match. }
  intros _. eapply (leads_asks _ (fun _ => True)).
  { destruct (trackstickBase v) eqn:E; [|by apply asks_ret]. by eapply asks_probeStick, trackstick_tabled. }
  intros _ _. eapply leads_asks; [apply asks_when; intros _; apply asks_dolphinArea|intros _ _].
  eapply leads_asks; [apply asks_when; intros ->%Z.eqb_eq; by apply asks_defaultsSS4|intros _ _].
  eapply leads_asks; [apply asks_when; intros _; apply asks_setResolution|intros _ _].
  eapply (leads_asks _ (fun _ => True)); [by apply asks_tell|intros _ _]. by apply asks_leads, asks_tell.
Qed.

(** What is known after an identification that went well. *)
Definition identified (r : AlpsReturn) (d : ApplePS2ALPSGlidePoint) : Prop :=
  before b K d /\ (r = AlpsSuccess -> proto_version (priv d) <> ALPS_PROTO_V9 -> hw_init d <> None).

Lemma pointed_identified v r d : pointed b K v d -> identified r d.
Proof. intros [H1 [H2 H3] H4 H5]. split; [by split|]. intros _. by rewrite H2. Qed.

Lemma leads_matchTable e7 l : leads (at_ (before b K)) l (fun found : bool => at_ (if found then identified AlpsSuccess else before b K)) l (matchTable e7).
Proof.
  unfold matchTable. destruct (modelOf e7) as [m|] eqn:E; [|by apply leads_ret]. pose proof (modelOf_version _ _ E) as Hv.
  eapply (leads_moves _ _ (at_ (chosen b K (mi_version m))) l).
  { apply moves_dset; [|done]. intros d [Hd [_ [E1 E2]]]. split; [by apply (alps_core_ok n _ d)|]. split; [done|by split]. }
  intros _. eapply talk_leads_bind; [by apply leads_setProtocol|]. intros u. cbv beta.
  eapply leads_asks; [apply asks_privs; by intros q|intros _ _]. apply leads_ret. intros d [Hd Hq]. split; [done|by eapply pointed_identified].
Qed.

Lemma leads_identify l : leads (at_ (before b K)) l (fun r => at_ (identified r)) l identify.
Proof.
  assert (Hfail : forall r, r <> AlpsSuccess -> leads (at_ (before b K)) l (fun r => at_ (identified r)) l (ret r)).
  { intros r Hr. apply leads_ret. intros d [Hd Hq]. split; [done|]. by split. }
  unfold identify. pose proof (alps_with_device n p (before b K)) as HI.
  eapply leads_asks; [apply (asks_rpt _ p Hp HI)|intros _ _]. eapply leads_asks; [apply (asks_rpt _ p Hp HI)|intros [ok1 e7] _].
  destruct (negb ok1); [by apply Hfail|]. eapply leads_asks; [apply (asks_rpt _ p Hp HI)|intros [ok2 ec] _].
  destruct (negb ok2); [by apply Hfail|]. eapply leads_asks; [apply (asks_exit _ p Hp HI)|intros _ _].
  eapply talk_leads_bind; [apply leads_matchTable|]. intros [|]; cbv beta iota; [by apply leads_ret|].
  destruct (versionOf e7 ec) as [v|] eqn:E; [|by apply Hfail]. pose proof (versionOf_version _ _ _ E) as Hv.
  eapply (leads_moves _ _ (at_ (chosen b K v)) l).
  { apply moves_dset; [|done]. intros d [Hd [_ [E1 E2]]]. split; [by apply (alps_core_ok n _ d)|]. split; [done|by split]. }
  intros _. eapply talk_leads_bind; [by apply leads_setProtocol|]. intros u. cbv beta. apply leads_ret.
  intros d [Hd Hq]. split; [done|by eapply pointed_identified].
Qed.

(** ** The initialisation *)

(** The ring is empty, at its start. *)
Context (HK : forall rb mice, K rb mice -> m_head rb = 0 /\ m_tail rb = 0).

Definition ready (d : ApplePS2ALPSGlidePoint) : Prop := agree d /\ hw_init d <> None /\ K (_ringBuffer d) (attachedHIDPointerDevices d) /\ startable d = true.
Definition tuned (i : HwInit) (d : ApplePS2ALPSGlidePoint) : Prop := ready d /\ fit d /\ hw_init d = Some i.

Lemma fresh_aligned n' (rb : RingBuffer Z) : ring_ok ALPS_RING rb -> m_head rb = 0 -> m_tail rb = 0 -> aligned ALPS_RING n' rb.
Proof. intros Hr Eh Et. split; [done|by rewrite Eh|by rewrite Et]. Qed.

(** The length of packets is that of the version's handler. *)
Lemma sized_ok i d : at_ ready d -> hw_init d = Some i ->
  at_ (tuned i) {| d with priv := {| (priv d) with pktsize := if proto_version (priv d) =? ALPS_PROTO_V4 then 8 else 6 |} |}.
Proof.
  intros [[H1 H2 H3 H4 H5 H6 H7 H8 [K1 K2 K3] [J1 J2 J3 J4]] [[A1 A2 A3] [Hi [Hk Hs]]]] Ei.
  destruct (HK _ _ Hk) as [Eh Et]. unfold startable in Hs. cbv zeta in Hs. apply andb_prop in Hs as [[Hs6 Hs9]%andb_prop Hy].
  apply negb_true_iff in Hs6, Hs9, Hy. apply Z.eqb_neq in Hs6, Hs9, Hy.
  split.
  - split; try done; cbn; [destruct (_ =? _); [by right|by left]|]. apply fresh_aligned; [apply H7|done|done].
  - split; [|split; [split; cbn|done]].
    + split; [by split|]. split; [done|]. split; [done|]. unfold startable. cbn.
      by rewrite (proj2 (Z.eqb_neq _ _) Hs6), (proj2 (Z.eqb_neq _ _) Hs9), (proj2 (Z.eqb_neq _ _) Hy).
    + done.
    + done.
    + intros E4. by destruct (A3 E4) as [->|].
    + auto.
Qed.

Lemma tuned_startV6 d : at_ (tuned InitV6) d -> False.
Proof.
  intros [_ [[[A1 A2 A3] [Hi [Hk Hs]]] [_ Ei]]]. unfold startable in Hs. cbv zeta in Hs. by destruct (A2 Ei) as [E|E]; rewrite E in Hs.
Qed.

Lemma asks_initWith i : i <> InitV6 -> ok (tuned i) (initWith i).
Proof.
  intros H6. pose proof (alps_with_device n p (tuned i)) as HI.
  assert (HT : i <> InitV1V2 -> forall d, at_ (tuned i) d -> exists t, nibble_commands (priv d) = Some t /\ length t = 16%nat).
  { intros H1 d [Hd [_ [_ Ei]]]. pose proof (wi_table _ (ao_wired _ _ _ Hd) _ Ei H1).
    destruct (nibble_commands (priv d)) as [t|] eqn:E; [|done]. exists t. split; [done|]. by apply (wi_size _ (ao_wired _ _ _ Hd)). }
  assert (HR : forall d rx ry, at_ (tuned i) d -> at_ (tuned i) {| d with priv := {| (priv d) with x_res := rx; y_res := ry |} |}).
  { intros d rx ry [Hd [[[A1 A2 A3] Hq] [[F1 F2 F3 F4] Ei]]]. split; [by apply (alps_core_ok n _ d)|]. split; [by split|]. split; [by split|done]. }
  destruct i; cbn [initWith].
  - apply (asks_initV1V2 _ p Hp HI).
  - apply (asks_initV3 _ p Hp HI). by apply HT.
  - apply (asks_initRushmore _ p Hp HI); [by apply HT|done].
  - apply (asks_initV4 _ p Hp HI). by apply HT.
  - apply (asks_initDolphin _ p Hp HI).
  - done.
  - apply (asks_initV7 _ p Hp HI); [by apply HT|done].
  - apply (asks_initSS4 _ p Hp HI). by apply HT.
Qed.

(** A driver that is ready to work. *)
Definition working (d : ApplePS2ALPSGlidePoint) : Prop := agree d /\ hw_init d <> None /\ K (_ringBuffer d) (attachedHIDPointerDevices d) /\ fit d.

Lemma leads_init l : leads (at_ ready) l (fun _ => at_ working) l deviceSpecificInit.
Proof.
  unfold deviceSpecificInit. intros w Hw. destruct (hw_init (self w)) as [i|] eqn:Ei.
  2:{ destruct Hw as [[_ [_ [Hi _]]] _ _ _ _]. by destruct Hi. }
  assert (Hw' : good (fun d => at_ ready d /\ hw_init d = Some i) l w) by (destruct Hw; by split).
  revert w Hw' Hw Ei. intros w Hw' _ _. revert w Hw'.
  change (leads (fun d => at_ ready d /\ hw_init d = Some i) l (fun _ => at_ working) l
    (setPriv (fun q => {| q with pktsize := if proto_version q =? ALPS_PROTO_V4 then 8 else 6 |}) ;;
     init ← dget hw_init; init ← deref init; ok ← initWith init; if ok : bool then ret true else resetMouse ;; ret false)).
  eapply (leads_moves _ _ (at_ (tuned i)) l).
  { apply moves_dset; [|done]. intros d [Hd Hi]. by apply sized_ok. }
  intros _. apply leads_dget. intros d [_ [_ [_ E]]]. rewrite E. eapply leads_deref; [reflexivity|].
  assert (Hend : forall r, leads (at_ (tuned i)) l (fun _ => at_ working) l (ret r : C bool)).
  { intros r. apply leads_ret. intros d1 [Hd1 [[Q1 [Q2 [Q3 Q4]]] [F1 _]]]. split; [done|]. by split. }
  destruct (decide (i = InitV6)) as [->|H6].
  { intros w [Hw _ _ _ _]. by destruct (tuned_startV6 _ Hw). }
  eapply leads_asks; [by apply asks_initWith|]. intros [|] _; [apply Hend|].
  eapply leads_asks; [apply (asks_reset _ p Hp (alps_with_device n p _))|]. intros _ _. apply Hend.
Qed.

End Identify.
