(* ===== verification/AlpsLife.v ===== *)
(** * The ALPS driver from probe to stop

    Settings, messages, power changes and attached mice keep a started driver at work; a
    wake and a reset identify the touchpad anew, and go on when it can be started. *)
From S2P Require Import Prelude PS2Types RingBuffer RingSpec Bus.
From S2P Require Import DriverWorld Talk RingLoop OSTypes Touch Trackpad.
From S2P Require Import Alps AlpsDecode AlpsReport AlpsHardware AlpsDriver AlpsSafe AlpsFound.

(** What is known of the ring and of the attached mice: before [start], during an
    initialisation, and at work. *)
Definition fresh (rb : RingBuffer Z) (mice : option (list Z)) : Prop := m_head rb = 0 /\ m_tail rb = 0.
Definition fresh_mice (rb : RingBuffer Z) (mice : option (list Z)) : Prop := fresh rb mice /\ mice <> None.
Definition mice_only (rb : RingBuffer Z) (mice : option (list Z)) : Prop := mice <> None.

Lemma fresh_mice_fresh rb mice : fresh_mice rb mice -> m_head rb = 0 /\ m_tail rb = 0.
Proof. by intros [H _]. Qed.

Section Life.
Context {B : Type} `{HB : PS2Bus B} `{HL : !PS2BusLaws B} `{HS : !SilentBus B} (bootArg : string -> bool).
Context (n p : Z) (Hp : 0 <= p < kPS2MuxMaxIdx).
#[local] Abbreviation C := (M (DrvWorld B ApplePS2ALPSGlidePoint AlpsEvent)).
#[local] Abbreviation asks := (asks (B := B) (E := AlpsEvent)).
#[local] Abbreviation leads := (leads (B := B) (E := AlpsEvent)).
#[local] Abbreviation moves := (moves (B := B) (E := AlpsEvent)).
#[local] Abbreviation at_ P := (alps_with n p P).
#[local] Abbreviation on := (at_ (working mice_only)).

#[local] Instance life_undisturbed P : Undisturbed (B := B) (at_ P) := alps_with_undisturbed n p Hp P.

(** Off its device, before [start]. *)
Definition alps_off (d : ApplePS2ALPSGlidePoint) : Prop := alps_ok n None d /\ before false fresh d.

Definition probed (r : bool) (d : ApplePS2ALPSGlidePoint) : Prop :=
  r = true -> alps_off d /\ (proto_version (priv d) <> ALPS_PROTO_V9 -> hw_init d <> None).

Lemma alps_setDevice o o' d : alps_ok n o d -> (forall q, o' = Some q -> 0 <= q < kPS2MuxMaxIdx) -> alps_ok n o' {| d with _device := o' |}.
Proof. intros [H1 H2 H3 H4 H5 H6 H7 H8 H9 [J1 J2 J3 J4]] Hq. by split. Qed.

Lemma off_on d : alps_off d -> at_ (before false fresh) {| d with _device := Some p |}.
Proof. intros [Hd [[A1 A2 A3] [E1 E2]]]. split; [|by split]. apply (alps_setDevice None); [done|]. by intros q [= <-]. Qed.

Lemma on_off r d : at_ (identified false fresh r) d ->
  alps_off {| d with _device := None |} /\ (r = AlpsSuccess -> proto_version (priv d) <> ALPS_PROTO_V9 -> hw_init d <> None).
Proof. intros [Hd [[[A1 A2 A3] [E1 E2]] Hr]]. split; [|done]. split; [|by split]. by apply (alps_setDevice (Some p)). Qed.

(** *** Settings *)

(** Members outside the core and the pointers' data. *)
Definition aside (f : ApplePS2ALPSGlidePoint -> ApplePS2ALPSGlidePoint) : Prop := forall d,
  alps_core (f d) = alps_core d /\ priv (f d) = priv d /\ _interruptHandlerInstalled (f d) = _interruptHandlerInstalled d.

Definition blind (P : ApplePS2ALPSGlidePoint -> Prop) : Prop := forall f, aside f ->
  (forall d, attachedHIDPointerDevices (f d) = attachedHIDPointerDevices d) -> forall d, at_ P d -> at_ P (f d).

Lemma aside_pointers f d : aside f -> _ringBuffer (f d) = _ringBuffer d /\ hw_init (f d) = hw_init d /\ process_packet (f d) = process_packet d.
Proof.
  intros Hf. destruct (Hf d) as (Ec & _ & _). unfold alps_core in Ec. assert (Er := f_equal (fun x => x.1.1.1.2) Ec).
  assert (Ew := f_equal (fun x => x.2) Ec). cbn in Er, Ew. by injection Ew as F1 F2 F3.
Qed.

Lemma agree_aside f d : aside f -> agree d -> agree (f d).
Proof.
  intros Hf [A1 A2 A3]. destruct (Hf d) as (_ & Ep & _), (aside_pointers f d Hf) as (_ & E1 & E2). by split; rewrite ?Ep, ?E1, ?E2.
Qed.

Lemma blind_before b K : blind (before b K).
Proof.
  intros f Hf Hm d [Hd [Ha [E1 E2]]]. destruct (Hf d) as (Ec & Ep & _), (aside_pointers f d Hf) as (Er & Ei & _).
  split; [by apply (alps_core_ok n _ d)|]. split; [by apply agree_aside|]. split; by rewrite ?Ei, ?Er, ?Hm.
Qed.

Lemma blind_working K : blind (working K).
Proof.
  intros f Hf Hm d [Hd [Ha [Hi [Hk [F1 F2 F3 F4]]]]]. destruct (Hf d) as (Ec & Ep & _), (aside_pointers f d Hf) as (Er & Ei & Eq).
  split; [by apply (alps_core_ok n _ d)|]. split; [by apply agree_aside|]. rewrite Ei, Er, Hm. split_and!; [done..|].
  split; by rewrite ?Ep, ?Eq.
Qed.

Lemma asks_aside P f : blind P -> aside f -> (forall d, attachedHIDPointerDevices (f d) = attachedHIDPointerDevices d) ->
  asks (at_ P) (fun _ => True) (dset f).
Proof. intros HP Hf Hm. apply asks_dset; [by apply HP|apply Hf]. Qed.

Lemma asks_setParams P config : blind P -> asks (at_ P) (fun _ => True) (setParamPropertiesGated bootArg config).
Proof.
  intros HP. destruct config as [c|]; [|by apply asks_ret]. cbn [setParamPropertiesGated].
  assert (HQ : forall f d, at_ P d -> at_ P (onSettings f d)) by (intros f; by apply HP).
  apply asks_seq; [apply asks_ends, ends_each; intros [name f]; by apply ends_readInt64|intros _].
  apply asks_seq; [apply asks_ends, ends_each; intros [name f]; by apply ends_readBool|intros _].
  apply asks_seq; [apply asks_ends, ends_each; intros [name f]; by apply ends_readInt32|intros _].
  apply asks_seq; [apply asks_ends, ends_each; intros [name f]; by apply ends_readLowbit|intros _].
  apply asks_dget. intros d _. apply asks_seq; [apply asks_when; intros _; by apply asks_aside|intros _].
  apply asks_dset; [apply HQ|done].
Qed.

Lemma asks_properties P props : blind P -> asks (at_ P) (fun _ => True) (setProperties bootArg props).
Proof.
  intros HP. unfold setProperties. apply asks_dget. intros d _. destruct (asDictionary props); [|by apply asks_ret].
  apply asks_when. intros _. by apply asks_setParams.
Qed.

Lemma asks_injectAlps P a b c : asks (at_ P) (fun _ => True) (injectVersionDependentProperties a b c).
Proof.
  unfold injectVersionDependentProperties. destruct (versionProperties a b c); [|by apply asks_ret].
  apply asks_each. intros [k o]. by apply asks_tell.
Qed.

Lemma asks_resetMouseAlps P : asks (at_ P) (fun _ => True) resetMouse.
Proof. apply (asks_reset _ p Hp (alps_with_device n p P)). Qed.

Lemma asks_disable P : asks (at_ P) (fun _ => True) (setTouchPadEnable false).
Proof. cbn [setTouchPadEnable]. apply asks_seq; [apply asks_resetMouseAlps|intros _; by apply asks_ret]. Qed.

Lemma asks_waitAlps P : asks (at_ P) (fun _ => True) waitWakedelay.
Proof. unfold waitWakedelay. apply asks_dget. intros d _. apply asks_sleep; exact _. Qed.

(** *** Probe *)

Lemma leads_probe_alps a b config : leads alps_off false probed false (probe bootArg a b p config).
Proof.
  unfold probe. eapply (leads_moves _ _ (at_ (before false fresh)) false); [apply moves_dset; [apply off_on|done]|intros _].
  eapply (leads_moves _ _ _ true); [apply moves_lock; exact _|intros _].
  eapply (leads_moves _ _ _ false); [apply moves_unlock; exact _|intros _].
  destruct (bool_decide _).
  { eapply (leads_moves _ _ (fun _ => True) false); [by apply moves_dset|intros _]. by apply leads_ret. }
  eapply (leads_asks _ (fun _ => True)).
  { destruct config as [c|]; [|by apply asks_ret]. apply asks_seq; [apply asks_setParams, blind_before|intros _; apply asks_injectAlps]. }
  intros _ _. eapply (leads_moves _ _ _ true); [apply moves_lock; exact _|intros _].
  eapply leads_asks; [apply asks_resetMouseAlps|intros _ _].
  eapply talk_leads_bind; [by apply (leads_identify n p Hp false fresh)|]. intros r. cbv beta.
  eapply (leads_moves _ _ _ false); [apply moves_unlock; exact _|intros _].
  eapply (leads_moves _ _ (fun d => alps_off d /\ (r = AlpsSuccess -> proto_version (priv d) <> ALPS_PROTO_V9 -> hw_init d <> None)) false).
  { apply moves_dset; [|done]. intros d Hd. exact (on_off r d Hd). }
  intros _. apply leads_ret. intros d [Hd Hr]. intros ->%bool_decide_eq_true. auto.
Qed.

(** *** Start *)

Definition started (r : bool) (d : ApplePS2ALPSGlidePoint) : Prop := r = true -> on d.

Definition begins (d : ApplePS2ALPSGlidePoint) : Prop :=
  alps_off d /\ (proto_version (priv d) <> ALPS_PROTO_V9 -> hw_init d <> None) /\ startable d = true.

Lemma startable_v9 d : startable d = true -> proto_version (priv d) <> ALPS_PROTO_V9.
Proof. unfold startable. cbv zeta. intros Hs E. rewrite E in Hs. done. Qed.

Lemma begins_on d : begins d -> at_ (ready fresh) {| d with _device := Some p |}.
Proof.
  intros (Hd & Hi & Hs). pose proof (off_on d Hd) as [Hok [[A1 A2 A3] [E1 E2]]]. split; [done|]. split; [by split|].
  split; [by apply Hi, startable_v9|]. by split.
Qed.

Lemma leads_start_alps workLoop gate : leads begins false started false (start p workLoop gate).
Proof.
  assert (Hno : forall P l, leads P l started l (ret false : C bool)) by (intros P l; by apply leads_ret).
  unfold start. eapply (leads_moves _ _ (at_ (ready fresh)) false); [apply moves_dset; [apply begins_on|done]|intros _].
  eapply (leads_moves _ _ (at_ (ready fresh)) false).
  { apply moves_dset; [|done]. intros d [Hd [[A1 A2 A3] Hq]]. split; [by apply (alps_core_ok n _ d)|]. by split. }
  intros _. destruct (_ || _); [eapply (leads_moves _ _ (fun _ => True) false); [by apply moves_dset|intros _; apply Hno]|].
  eapply (leads_moves _ _ _ true); [apply moves_lock; exact _|intros _].
  eapply (leads_moves _ _ (at_ (ready fresh_mice)) true).
  { apply moves_dset; [|done]. intros d [Hd [[A1 A2 A3] [Hi [Hk Hs]]]]. split; [by apply (alps_core_ok n _ d)|].
    split; [by split|]. split; [done|]. split; [by split|done]. }
  intros _. eapply (leads_moves _ _ (at_ (ready fresh_mice)) true).
  { apply moves_dset; [|done]. intros d [Hd [[A1 A2 A3] Hq]]. split; [by apply (alps_core_ok n _ d)|]. by split. }
  intros _. eapply talk_leads_bind; [exact (leads_init n p Hp fresh_mice fresh_mice_fresh true)|]. intros [|]; cbv beta; cbn [negb].
  2:{ eapply (leads_moves _ _ _ false); [apply moves_unlock; exact _|intros _; apply Hno]. }
  assert (Hon : forall d, at_ (working fresh_mice) d -> on d) by (intros d [Hd (H1 & H2 & [_ H3] & H4)]; by split).
  eapply (leads_moves _ _ on true).
  { apply (moves_install (at_ (working fresh_mice)) on). intros d Hd%Hon. revert d Hd.
    intros d [Hd [[A1 A2 A3] [Hi [Hk [F1 F2 F3 F4]]]]]. split; [by apply (alps_core_ok n _ d)|]. by split_and!. }
  intros _. eapply (leads_moves _ _ on false); [apply moves_unlock; exact _|intros _].
  eapply leads_asks; [apply moves_asks; intros l; apply moves_steady; [exact _|apply law_installPower]|intros _ _].
  eapply leads_asks; [apply asks_aside; [apply blind_working|done|done]|intros _ _].
  eapply (leads_asks _ (fun _ => True)); [by apply asks_tell|intros _ _]. apply leads_ret. by intros d Hd _.
Qed.

(** *** Messages, power, mice *)

Lemma on_keep f : aside f -> (forall d, attachedHIDPointerDevices (f d) = attachedHIDPointerDevices d) -> asks on (fun _ => True) (dset f).
Proof. apply asks_aside, blind_working. Qed.

Lemma asks_keyAlps pInfo : asks on (fun _ => True) (dstep (keyPressed pInfo)).
Proof.
  assert (Hon : forall f d, aside f -> attachedHIDPointerDevices (f d) = attachedHIDPointerDevices d ->
    (forall d, attachedHIDPointerDevices (f d) = attachedHIDPointerDevices d) -> on d -> on (f d)) by (intros f d Hf _ Hm; by apply blind_working).
  apply asks_ends, ends_dstep. intros d Hd. unfold keyPressed. cbv zeta. destruct (modifierKey (adbKeyCode pInfo)) eqn:E.
  - destruct (masks_total _ E) as [m ->]. cbn [mbind option_bind]. eexists. split; [done|]. destruct (goingDown pInfo); (split; [|done]).
    + by apply (Hon (fun d => {| d with _modifierdown := Z.lor (_modifierdown d) m |})).
    + by apply (Hon (fun d => {| d with _modifierdown := clear_bits (_modifierdown d) m; keytime := ki_time pInfo |})).
  - eexists. split; [done|]. split; [|done]. by apply (Hon (fun d => {| d with keytime := ki_time pInfo |})).
Qed.

Lemma before_on d : on d -> at_ (before true mice_only) d.
Proof. intros [Hd (H1 & H2 & H3 & _)]. split; [done|]. by split. Qed.

Lemma leads_wakeIdentify : leads on false (fun r => at_ (identified true mice_only r)) true wakeIdentify.
Proof.
  apply (talk_leads_mono (at_ (before true mice_only)) _ _ (fun r => at_ (identified true mice_only r))); [apply before_on|done|].
  unfold wakeIdentify. eapply leads_asks; [apply asks_waitAlps|intros _ _].
  eapply (leads_moves _ _ _ true); [apply moves_lock; exact _|intros _]. eapply leads_asks; [apply asks_resetMouseAlps|intros _ _].
  by apply (leads_identify n p Hp true mice_only).
Qed.

Lemma leads_resetIdentify : leads on false (fun r => at_ (identified true mice_only r)) true resetIdentify.
Proof.
  apply (talk_leads_mono (at_ (before true mice_only)) _ _ (fun r => at_ (identified true mice_only r))); [apply before_on|done|].
  unfold resetIdentify. eapply leads_asks; [apply asks_aside; [apply blind_before|done|done]|intros _ _].
  eapply (leads_moves _ _ _ true); [apply moves_lock; exact _|intros _]. eapply leads_asks; [apply asks_resetMouseAlps|intros _ _].
  eapply leads_asks; [apply asks_waitAlps|intros _ _]. by apply (leads_identify n p Hp true mice_only).
Qed.

(** An identification that leaves a version that can be started. *)
Definition restarts (r : AlpsReturn) (d : ApplePS2ALPSGlidePoint) : Prop := at_ (identified true mice_only r) d /\ startable d = true.

Lemma leads_initTouchPad r : leads (restarts r) true (fun _ => on) true initTouchPad.
Proof.
  unfold initTouchPad. eapply (leads_moves _ _ (at_ (ready fresh_mice)) true).
  { apply moves_dset; [|done]. intros d [[[H1 H2 H3 H4 H5 H6 H7 H8 H9 [J1 J2 J3 J4]] [[[A1 A2 A3] [E1 E2]] _]] Hs].
    pose proof (al_ring _ _ _ H7) as [Hl _ _]. split.
    - by split.
    - split; [by split|]. split; [by apply E1|]. split; [by split|exact Hs]. }
  intros _. eapply talk_leads_bind; [exact (leads_init n p Hp fresh_mice fresh_mice_fresh true)|]. intros r1. cbv beta.
  apply leads_ret. intros d [Hd (K1 & K2 & [_ K3] & K4)]. by split.
Qed.

(** What follows an identification. *)
Lemma wp_restart (m : C AlpsReturn) w : leads on false (fun r => at_ (identified true mice_only r)) true m -> good on false w ->
  (forall w' r, m w = Ok (w', r) -> startable (self w') = true) ->
  wp (m ;; initTouchPad ;; onController bus_unlock) (fun _ w' => good on false w') w.
Proof.
  intros Hm Hw Hs. apply wp_bind. pose proof (Hm w Hw) as H1. unfold wp in H1 |- *. destruct (m w) as [[w1 r]| |] eqn:E; [|done..].
  assert (H2 : good (restarts r) true w1) by (destruct H1; split; try done; split; [done|by apply (Hs w1 r)]).
  apply (talk_leads_bind (restarts r) true (fun _ => on) true (fun _ => on) false initTouchPad (fun _ => onController bus_unlock)); [| |exact H2].
  - exact (leads_initTouchPad r).
  - intros u. apply (moves_unlock on).
Qed.

(** A message other than a reset. *)
Lemma asks_messageAlps m : (forall reqCode, m = ResetTouchpad reqCode -> (reqCode =? 1) = false) -> asks on (fun _ => True) (message m).
Proof.
  intros Hm. destruct m as [|enable|reqCode|pInfo|]; cbn [message].
  - apply asks_dget. intros d _. by apply asks_ret.
  - apply asks_seq; [|intros _; by apply asks_ret]. apply on_keep; intros d; by destruct (eqb _ _).
  - rewrite (Hm reqCode eq_refl). apply asks_seq; [by apply asks_ret|intros _; by apply asks_ret].
  - apply asks_seq; [apply asks_keyAlps|intros _; by apply asks_ret].
  - by apply asks_ret.
Qed.

(** A power change other than a wake. *)
Lemma asks_powerAlps what : (what =? kPS2C_EnableDevice) = false -> asks on (fun _ => True) (setDevicePowerState what).
Proof.
  intros Hw. unfold setDevicePowerState. rewrite Hw. destruct (what =? kPS2C_DisableDevice); [apply asks_disable|]. by apply asks_ret.
Qed.

Lemma asks_noticeAlps e l : asks on (fun _ => True) (noticeMice e l).
Proof. unfold noticeMice. apply asks_dget. intros d _. apply asks_when. intros _. by apply on_keep. Qed.

Lemma asks_hidAlps bt e service : asks on (fun _ => True) (notificationHIDAttachedHandler bt e service).
Proof.
  unfold notificationHIDAttachedHandler, notificationHIDAttachedHandlerGated. apply asks_dget. intros d _.
  apply asks_when. intros _. apply asks_dget. intros d1 _. apply asks_when. intros _. apply asks_dget. intros d2 [_ (_ & _ & Hm & _)].
  unfold mice_only in Hm. destruct (attachedHIDPointerDevices d2) as [l|]; [|done]. eapply asks_deref; [reflexivity|].
  cbv zeta. apply asks_seq; [|intros _; apply asks_noticeAlps]. apply asks_dset; [|done].
  intros d3 [Hd [[A1 A2 A3] [Hi [Hk [F1 F2 F3 F4]]]]]. split; [by apply (alps_core_ok n _ d3)|]. by split_and!.
Qed.

Lemma asks_openAlps c b : asks on (fun _ => True) (handleOpen c b).
Proof. destruct c; [|by apply asks_ret]. destruct b; [|by apply asks_ret]. apply asks_seq; [by apply on_keep|intros _; by apply asks_ret]. Qed.

Lemma asks_closeAlps c : asks on (fun _ => True) (handleClose c).
Proof. apply on_keep; intros d; by case_bool_decide. Qed.

(** *** Stop *)

Definition anything (d : ApplePS2ALPSGlidePoint) : Prop := True.

Lemma blind_anything : blind anything.
Proof. intros f Hf _ d [Hd _]. split; [|done]. destruct (Hf d) as (Ec & _). by apply (alps_core_ok n _ d). Qed.

Definition alps_stopped (d : ApplePS2ALPSGlidePoint) : Prop := _device d = None /\ _interruptHandlerInstalled d = false.

(** A driver that takes no more bytes. *)
Definition deaf (d : ApplePS2ALPSGlidePoint) : Prop := _interruptHandlerInstalled d = false.

Lemma moves_lastSteps_alps : moves (at_ deaf) false alps_stopped false
  (q ← dget _powerControlHandlerInstalled;
   when q (onController bus_uninstallPower ;; dset (fun d => {| d with _powerControlHandlerInstalled := false |})) ;;
   dset (fun d => {| d with _device := None |})).
Proof.
  apply moves_dget_bind. intros d _. apply moves_weak.
  apply (drv_moves_bind _ _ (at_ deaf) false); [|intros _; apply moves_dset; [by intros d1 [_ Hi]|done]].
  apply drv_moves_when. intros _. apply (drv_moves_bind _ _ (at_ deaf) false); [apply moves_steady; [exact _|apply law_uninstallPower]|].
  intros _. apply moves_dset; [|done]. intros d1 [Hd Hi]. split; [by apply (alps_core_ok n _ d1)|exact Hi].
Qed.

Lemma moves_stop_alps workLoop : moves on false alps_stopped false (stop workLoop).
Proof.
  assert (Hset : forall f, aside f -> (forall d, attachedHIDPointerDevices (f d) = attachedHIDPointerDevices d) ->
    moves (at_ anything) false (at_ anything) false (dset f)) by (intros f Hf Hm; eapply asks_moves, asks_aside; [apply blind_anything|done|done]).
  unfold stop. apply (drv_moves_bind _ _ (at_ anything) false).
  { apply moves_ends. unfold unregisterHIDPointerNotifications. apply ends_dget_bind. intros d [Hd (_ & _ & Hm & _)]. apply ends_weak.
    unfold mice_only in Hm. destruct (attachedHIDPointerDevices d) as [l|]; [|done].
    eapply ends_deref_bind; [reflexivity|]. apply ends_dset; [|done]. intros d1 [Hd1 _]. split; [by apply (alps_core_ok n _ d1)|done]. }
  intros _. apply (drv_moves_bind _ _ (at_ anything) false); [by apply Hset|]. intros _.
  apply (drv_moves_bind _ _ (at_ anything) false); [eapply asks_moves, asks_disable|]. intros _.
  apply (drv_moves_bind _ _ (at_ anything) false); [apply drv_moves_when; intros _; by apply Hset|].
  intros _ w Hw. apply wp_bind, wp_gets, wp_bind. eapply (wp_mono _ (fun _ w' => good (at_ deaf) false w')).
  2:{ intros _ w' Hw'. by apply moves_lastSteps_alps. }
  cbn [drv_installed alps_driver]. destruct (_interruptHandlerInstalled (self w)) eqn:Ei; cbn [when].
  - apply (moves_uninstall (at_ anything) (at_ deaf) false); [|done|exact Hw|exact Ei].
    intros d [Hd _]. split; [by apply (alps_core_ok n _ d)|done].
  - destruct Hw as [[H0 _] H2 H3 H4 H5]. by split.
Qed.

End Life.
