(* ===== verification/AlpsSpec.v ===== *)
(** * What the ALPS driver promises

    Safety from [probe] to [stop], for the versions that can be started and as long as the
    work loop runs in time; and what happens otherwise. *)
From S2P Require Import Prelude PS2Types RingBuffer RingSpec Bus KeyboardBench.
From S2P Require Import DriverWorld Talk RingLoop OSTypes Touch Trackpad.
From S2P Require Import Alps AlpsDecode AlpsReport AlpsHardware AlpsDriver AlpsSafe AlpsFound AlpsLife.

(** ** Safety *)

(** What may happen between [start] and [stop], with the arguments that matter. *)
Inductive AlpsOp :=
| AlpsByte (data : Z)
| AlpsPackets
| AlpsLater (time : Z)
| AlpsMessaged (m : AlpsMessage)
| AlpsPower (whatToDo : Z)
| AlpsProperties (props : OSObject)
| AlpsMouse (bt : BluetoothCodes) (e : HidEvent) (service : Z)
| AlpsOpened (client : option Z) (isVoodooInput : bool)
| AlpsClosed (client : option Z).

Section Life.
Context {B : Type} `{HB : PS2Bus B} (abs : Z -> Z) (uninit : ApplePS2ALPSGlidePoint -> alps_fields) (bootArg : string -> bool) (n p : Z).
#[local] Abbreviation W := (DrvWorld B ApplePS2ALPSGlidePoint AlpsEvent).
#[local] Abbreviation C := (M W).

(** The touchpad that was identified can be started. *)
Definition leavesStartable (r : outcome (W * AlpsReturn)) : bool :=
  match r with Ok (w, _) => startable (self w) | _ => true end.

Definition isReset (m : AlpsMessage) : bool := match m with ResetTouchpad reqCode => reqCode =? 1 | _ => false end.

(** A byte arrives when the work loop has run since the last complete packet; a reset and a
    wake find a version that can be started. *)
Definition alps_allowed (o : AlpsOp) (w : W) : bool :=
  match o with
  | AlpsByte _ => _packetByteCount (self w) <? pktsize (priv (self w))
  | AlpsMessaged m => negb (isReset m) || leavesStartable (resetIdentify w)
  | AlpsPower what => negb (what =? kPS2C_EnableDevice) || leavesStartable (wakeIdentify w)
  | _ => true
  end.

Definition run_alps (o : AlpsOp) : C unit :=
  match o with
  | AlpsByte data => interrupted data ;; ret tt
  | AlpsPackets => packetReady abs uninit
  | AlpsLater t => modify (fun w => mkDrvWorld (self w) (host w) t (told w))
  | AlpsMessaged m => message m ;; ret tt
  | AlpsPower what => setDevicePowerState what
  | AlpsProperties props => setProperties bootArg props
  | AlpsMouse bt e service => notificationHIDAttachedHandler bt e service
  | AlpsOpened c b => handleOpen c b ;; ret tt
  | AlpsClosed c => handleClose c
  end.

(** A new driver before [probe]. *)
Record alps_new (w : W) : Prop := {
  an_self : self w = newAlps n;
  an_told : told w = [];
  an_host : bus_ok (host w);
  an_lock : bus_locked (host w) = false }.

(** The worlds a driver on port [p] is in between [start] and [stop]. *)
Inductive alps_running : W -> Prop :=
| alps_at_start w0 w1 w2 major minor config workLoop gate :
    alps_new w0 -> probe bootArg major minor p config w0 = Ok (w1, true) -> startable (self w1) = true ->
    start p workLoop gate w1 = Ok (w2, true) -> alps_running w2
| alps_stepped w w' o : alps_running w -> alps_allowed o w = true -> run_alps o w = Ok (w', tt) -> alps_running w'.

End Life.

Section Safe.
Context {B : Type} `{HB : PS2Bus B} `{HL : !PS2BusLaws B} `{HS : !SilentBus B}.
Context (abs : Z -> Z) (uninit : ApplePS2ALPSGlidePoint -> alps_fields) (bootArg : string -> bool) (n p : Z).
Context (Hp : 0 <= p < kPS2MuxMaxIdx) (Hn : MAX_TOUCHES <= n).
#[local] Abbreviation W := (DrvWorld B ApplePS2ALPSGlidePoint AlpsEvent).
#[local] Abbreviation running := (alps_running (B := B) abs uninit bootArg n p).
#[local] Abbreviation on := (alps_with n p (working mice_only)).

#[local] Instance spec_undisturbed P : Undisturbed (B := B) (alps_with n p P) := alps_with_undisturbed n p Hp P.

Lemma alps_new_good w : alps_new n w -> good (alps_off n) false w.
Proof.
  intros [H1 H2 H3 H4]. split; [rewrite H1|done|done|by rewrite H1|rewrite H2; constructor].
  split; [by apply newAlps_ok|]. by split.
Qed.

Lemma alps_off_port : forall d q, alps_off n d -> _device d = Some q -> 0 <= q < kPS2MuxMaxIdx.
Proof. intros d q [Hd _]. by rewrite (ao_device _ _ _ Hd). Qed.

(** A byte changes the frame's members only. *)
Lemma frame_working d d' : alps_frame d' = alps_frame d -> working mice_only d -> working mice_only d'.
Proof.
  intros E ([A1 A2 A3] & Hi & Hm & [F1 F2 F3 F4]). pose proof (f_equal priv E) as Ep. pose proof (f_equal hw_init E) as E1.
  pose proof (f_equal process_packet E) as E2. pose proof (f_equal attachedHIDPointerDevices E) as E3. cbn in Ep, E1, E2, E3.
  pose proof (f_equal x_bits Ep) as P1. pose proof (f_equal y_bits Ep) as P2. pose proof (f_equal pktsize Ep) as P3.
  pose proof (f_equal proto_version Ep) as P4. cbn in P1, P2, P3, P4. unfold mice_only in *.
  split; [split|split; [|split; [|split]]]; rewrite ?E1, ?E2, ?E3, ?P1, ?P2, ?P3, ?P4; done.
Qed.

Lemma byte_on data (w : W) : good on false w -> _packetByteCount (self w) < pktsize (priv (self w)) ->
  wp (interrupted data ;; ret tt) (fun _ w' => good on false w') w.
Proof.
  intros [[Hd Hw] H2 H3 H4 H5] Ht. apply wp_bind. unfold wp, interrupted. cbn [drv_interrupt alps_driver]. unfold interruptAction.
  rewrite (bind_ok _ _ _ (self w) (_interruptHandlerInstalled (self w))) by done. destruct (_interruptHandlerInstalled (self w)) eqn:Ei.
  - destruct (alps_interrupt_ok n (Some p) data (self w) Hd Ht) as (d' & r & E & _ & Hd' & Ef). rewrite E. cbn.
    split; cbn; [split; [done|by apply (frame_working (self w))]|done|done| |done]. intros _. apply H4. exact Ei.
  - cbn. destruct w. cbn in *. split; try done; by split.
Qed.

Lemma still_working d d' : without_ring (alps_still d') = without_ring (alps_still d) -> fit d' -> working mice_only d -> working mice_only d'.
Proof.
  intros E Hf ([A1 A2 A3] & Hi & Hm & _). pose proof (f_equal priv E) as Ep. pose proof (f_equal hw_init E) as E1.
  pose proof (f_equal process_packet E) as E2. pose proof (f_equal attachedHIDPointerDevices E) as E3. cbn in Ep, E1, E2, E3.
  pose proof (f_equal x_bits Ep) as P1. pose proof (f_equal proto_version Ep) as P4. cbn in P1, P4. unfold mice_only in *.
  split; [split|split; [|split]]; rewrite ?E1, ?E2, ?E3, ?P1, ?P4; done.
Qed.

Lemma packets_on (w : W) : good on false w -> total (packetReady abs uninit) (fun _ w' => good on false w') w.
Proof.
  intros [[Hd Hw] H2 H3 H4 H5]. pose proof Hw as (_ & _ & _ & Hf).
  eapply total_mono; [apply (ends_packetReady_alps abs uninit n (Some p) (self w) (pktsize (priv (self w))) eq_refl (ao_size _ _ _ Hd) w)|].
  - by split.
  - cbn beta. intros _ w' ((K1 & K2 & K3) & E1 & _ & E2 & E3). split; rewrite ?E1, ?E2; auto. split; [done|by apply (still_working (self w))].
Qed.

Lemma run_alps_ok o (w : W) : good on false w -> alps_allowed o w = true -> wp (run_alps abs uninit bootArg o) (fun _ w' => good on false w') w.
Proof.
  intros Hw Ho. assert (Hask : forall m : M W unit, asks on (fun _ => True) m -> wp m (fun _ w' => good on false w') w).
  { intros m Hm. eapply wp_mono; [by apply Hm|]. by intros _ w' []. }
  assert (Hstart : forall m : M W AlpsReturn, leavesStartable (m w) = true -> forall w' r, m w = Ok (w', r) -> startable (self w') = true).
  { intros m Hm w' r E. by rewrite E in Hm. }
  destruct o as [data| |t|m|what|props|bt e service|c b|c]; cbn [run_alps alps_allowed] in *.
  - apply byte_on; [done|by apply Z.ltb_lt].
  - by apply total_wp, packets_on.
  - apply wp_modify. by destruct Hw.
  - destruct (isReset m) eqn:Em.
    + destruct m as [| |r| |]; try done. apply Z.eqb_eq in Em as ->. cbn [message Z.eqb Pos.eqb when]. apply wp_bind, wp_bind.
      eapply wp_mono; [apply (wp_restart n p Hp _ w (leads_resetIdentify n p Hp) Hw); by apply Hstart|]. by intros u w' Hw'.
    + apply Hask. apply asks_seq; [|intros _; by apply asks_ret]. apply asks_messageAlps. by intros r ->.
  - destruct (what =? kPS2C_EnableDevice) eqn:E; [|by apply Hask, asks_powerAlps]. apply Z.eqb_eq in E as ->.
    apply (wp_restart n p Hp _ w (leads_wakeIdentify n p Hp) Hw). by apply Hstart.
  - apply Hask, asks_properties, blind_working.
  - by apply Hask, asks_hidAlps.
  - apply Hask. apply asks_seq; [by apply asks_openAlps|intros _; by apply asks_ret].
  - by apply Hask, asks_closeAlps.
Qed.

Lemma alps_running_good w : running w -> good on false w.
Proof.
  induction 1 as [w0 w1 w2 major minor config workLoop gate Hnew E1 Hs E2|w w' o _ IH Ho E].
  - pose proof (wp_ok _ _ _ _ _ (leads_probe_alps bootArg n p Hp major minor config w0 (alps_new_good _ Hnew)) E1) as [H1 H2 H3 H4 H5].
    assert (H6 : good (begins n) false w1) by (destruct (H1 eq_refl); split; try done; by split).
    pose proof (wp_ok _ _ _ _ _ (leads_start_alps n p Hp workLoop gate w1 H6) E2) as [G1 G2 G3 G4 G5]. split; auto.
  - exact (wp_ok _ _ _ _ _ (run_alps_ok o w IH Ho) E).
Qed.


End Safe.

(** ** A life on the bench *)

(** A touchpad that answers the second and the third report of the identification with [e7]
    and [ec], and a question for information with [info]. *)
Definition answerPad (e7 ec info : list Z) (r : PS2Request) : PS2Request :=
  let c2 := match arr_get (commands r) 2 with Some c => inOrOut c | None => 0 end in
  if Z.of_nat (length (commands r)) =? 9 then
    answerList ([0; 0; 0; 0; 0; 0] ++ (if c2 =? kDP_SetMouseScaling2To1 then e7 else ec)) r
  else answerList (0 :: info) r.

Lemma answerPad_shape e7 ec info r : map command (commands (answerPad e7 ec info r)) = map command (commands r) /\
  commandsCount (answerPad e7 ec info r) = commandsCount r.
Proof. unfold answerPad. cbv zeta. destruct (_ =? _); apply answerList_shape. Qed.

Definition noArg (name : string) : bool := false.
Definition noMemory (d : ApplePS2ALPSGlidePoint) : alps_fields := noFields.

#[local] Abbreviation BW := (DrvWorld BenchHost ApplePS2ALPSGlidePoint AlpsEvent).

Definition alps_bench : BW := mkDrvWorld (newAlps 10) (mkBenchHost false false false) 600000000000 [].

Section Bench.
Context (e7 ec info : list Z).
#[local] Instance alps_bus : PS2Bus BenchHost := answering (answerPad e7 ec info).

(** Operations one after the other, as long as they are allowed and end. *)
Fixpoint alps_ops (ops : list AlpsOp) (w : BW) : option BW :=
  match ops with
  | [] => Some w
  | o :: ops =>
    if alps_allowed o w then
      match run_alps id noMemory noArg o w with Ok (w', _) => alps_ops ops w' | _ => None end
    else None
  end.

Lemma alps_ops_running p ops w w' : alps_running id noMemory noArg 10 p w -> alps_ops ops w = Some w' -> alps_running id noMemory noArg 10 p w'.
Proof.
  revert w. induction ops as [|o ops IH]; intros w Hw; cbn [alps_ops]; [by intros [= <-]|].
  destruct (alps_allowed o w) eqn:Ho; [|done]. destruct (run_alps id noMemory noArg o w) as [[w1 []]| |] eqn:E; [|done..].
  apply IH. by apply (alps_stepped _ _ _ _ _ w w1 o).
Qed.

Definition alps_from_probe (ops : list AlpsOp) : option BW :=
  w1 ← begun (probe noArg 20 0 1 None alps_bench);
  if startable (self w1) then w2 ← begun (start 1 true true w1); alps_ops ops w2 else None.

Lemma alps_bench_new : alps_new 10 alps_bench.
Proof. by split. Qed.

Lemma alps_probe_running ops w : alps_from_probe ops = Some w -> alps_running id noMemory noArg 10 1 w.
Proof.
  intros E. unfold alps_from_probe in E. destruct (begun_bind _ _ _ E) as (w1 & E1 & F).
  destruct (startable (self w1)) eqn:Es; [|done]. destruct (begun_bind _ _ _ F) as (w2 & E2 & G).
  apply (alps_ops_running 1 ops w2); [|exact G].
  exact (alps_at_start id noMemory noArg 10 1 _ w1 w2 20 0 None true true alps_bench_new E1 Es E2).
Qed.

(** [start] after a [probe] that accepts the touchpad. *)
Definition alps_started : outcome (BW * bool) :=
  match probe noArg 20 0 1 None alps_bench with Ok (w1, true) => start 1 true true w1 | r => r end.

End Bench.

#[local] Instance alps_bench_laws e7 ec info : @PS2BusLaws BenchHost (alps_bus e7 ec info) := answering_laws _ (answerPad_shape e7 ec info).
#[local] Instance alps_bench_silent e7 ec info : @SilentBus BenchHost (alps_bus e7 ec info).
Proof. by intros b _. Qed.

(** Version 8: one finger that moves. *)
Definition pad8 : list Z := [0x73; 0x03; 0x14].
Definition fingerPacket (x y : Z) : list Z := [0x18; x; y; 0x08; 0x11; 0x20].

(** A client, one finger that moves, a key, a mouse that comes and goes, sleep, a reset. *)
Definition alps_life : list AlpsOp :=
  AlpsOpened (Some 7) true ::
  (map AlpsByte (fingerPacket 0x11 0x24) ++ [AlpsPackets]) ++ (map AlpsByte (fingerPacket 0x12 0x24) ++ [AlpsPackets]) ++
  (map AlpsByte (fingerPacket 0x13 0x24) ++ [AlpsPackets]) ++
  [AlpsMouse (mkBluetoothCodes 5 1 2 3 4 5) UsbPublished 9; AlpsMouse (mkBluetoothCodes 5 1 2 3 4 5) UsbTerminated 9;
   AlpsMessaged (NotifyKeyPressed (mkKeyInfo 600000000000 0 true false)); AlpsLater 601000000000;
   AlpsPower kPS2C_DisableDevice; AlpsPower kPS2C_EnableDevice; AlpsMessaged (ResetTouchpad 1)].

(** The contacts of the touch events: finger and place. *)
Definition alpsContacts (l : list AlpsEvent) : list (Z * list (Z * Z * Z)) :=
  omap (fun e => match e with AlpsTouchEvent _ e => Some (ev_contact_count e,
    map (fun t => (tr_secondaryId t, tc_x (tr_current t), tc_y (tr_current t))) (take (Z.to_nat (ev_contact_count e)) (ev_transducers e))) | _ => None end) l.

Lemma alps_life_run : exists w, alps_from_probe pad8 [0; 0; 0] [0; 0; 0] alps_life = Some w /\
  alpsContacts (told w) = [(1, [(0, 1040, 69)]); (1, [(0, 1048, 69)])].
Proof. eexists. split; [vm_compute; reflexivity|]. vm_compute. reflexivity. Qed.


(** ** What safety assumes *)

(** After 31 packets, bytes that the work loop does not look at in time are stored behind the
    ring: the count of the bytes so far is only set back by the work loop, and the first
    byte of an old packet lets them pass. *)
Definition manyPackets (k : nat) : list Z := concat (replicate k (fingerPacket 0x11 0x24)).
Definition beforeLate : list AlpsOp := concat (replicate 31 (map AlpsByte (fingerPacket 0x11 0x24) ++ [AlpsPackets])).

Lemma late_work_loop_overruns : exists w, alps_from_probe pad8 [0; 0; 0] [0; 0; 0] beforeLate = Some w /\
  for_each (manyPackets 33) (fun data => interruptAction data ;; ret tt) (self w) = Crash.
Proof. eexists. split; [vm_compute; reflexivity|]. vm_compute. reflexivity. Qed.

(** Version 6 overruns a request when it is initialised, and version 9 has no
    initialisation to call. *)
Lemma version6_start_crashes : alps_started [0x73; 0x00; 0x14] [0; 0; 0] [0; 0; 0] = Crash.
Proof. by vm_compute. Qed.

Lemma version9_start_crashes : alps_started [0x73; 0x03; 0xc8] [0; 0; 0] [0; 0; 0] = Crash.
Proof. by vm_compute. Qed.

(** A touchpad of version 5 that tells of one line in a direction: a bitmap divides by zero. *)
Definition bitmapPackets : list Z := [0xca; 0x10; 0x10; 0x00; 0x00; 0x20] ++ [0xe8; 0x03; 0x00; 0x00; 0x00; 0x00].

(** The packets of six bytes in [l], each one followed by the work loop. *)
Fixpoint playPackets {B} `{PS2Bus B} (k : nat) (l : list Z) (w : DrvWorld B ApplePS2ALPSGlidePoint AlpsEvent) : outcome (DrvWorld B ApplePS2ALPSGlidePoint AlpsEvent * unit) :=
  match k with
  | O => Ok (w, tt)
  | S k => (for_each (take 6 l) (fun data => interrupted data ;; ret tt) ;; packetReady id noMemory ;; playPackets k (drop 6 l)) w
  end.

Lemma one_line_divides_by_zero : exists w, alps_started [0x73; 0x03; 0x50] [0x73; 0x01; 0x00] [0; 0; 0] = Ok (w, true) /\
  @playPackets BenchHost (alps_bus [0x73; 0x03; 0x50] [0x73; 0x01; 0x00] [0; 0; 0]) 2 bitmapPackets w = Crash.
Proof. eexists. split; [vm_compute; reflexivity|]. vm_compute. reflexivity. Qed.
