(* ===== verification/AlpsCodec.v ===== *)
(** * The packets of the ALPS touchpads

    Bitmaps: a touchpad of the semi-multitouch protocols tells for each line of its two
    directions whether it is touched; the driver finds the runs of touched lines, counts them,
    and keeps the first and the last.  Packets: an encoder for those of version 8 that tell
    of one finger, from the layout that the driver reads; what is encoded comes through the
    interrupt routine and reads back. *)
From stdpp Require Import sorting.
From S2P Require Import Prelude PS2Types RingBuffer RingSpec Bus Touch DriverWorld OSTypes KeyboardBench RingLoop Trackpad.
From S2P Require Import Alps AlpsDecode AlpsReport AlpsHardware AlpsSafe.

(** * Bitmaps *)

(** ** Runs of ones *)

Implicit Types (q : alps_bitmap_point) (rs : list alps_bitmap_point).

Definition runEnd q : Z := start_bit q + num_bits q.
Definition covers (j : Z) q : Prop := start_bit q <= j < runEnd q.

(** [rs]: the maximal runs of ones of a number, from the lowest: they cover its ones, and
    there is a zero between one and the next. *)
Record runs_of (map : Z) rs : Prop := {
  ru_ones : forall j, 0 <= j -> Z.testbit map j = true <-> Exists (covers j) rs;
  ru_sizes : Forall (fun q => 0 <= start_bit q /\ 0 < num_bits q) rs;
  ru_apart : StronglySorted (fun q q' => runEnd q < start_bit q') rs }.

(** What the driver keeps of them. *)
Definition firstRun rs : alps_bitmap_point := hd noPoint rs.
Definition lastRun rs : alps_bitmap_point := if (length rs <? 2)%nat then noPoint else List.last rs noPoint.

(** ** The scan *)

(** The scan has seen [i] bits; [rs] are the runs, the latest one first. *)
Record scannedRuns (map i : Z) (s : BitmapScan) (rs : list alps_bitmap_point) : Prop := {
  sn_ones : forall j, 0 <= j < i -> Z.testbit map j = true <-> Exists (covers j) rs;
  sn_sizes : Forall (fun q => 0 <= start_bit q /\ 0 < num_bits q /\ runEnd q <= i) rs;
  sn_apart : StronglySorted (fun q q' => runEnd q' < start_bit q) rs;
  sn_open : if sc_prev s then exists q rs', rs = q :: rs' /\ runEnd q = i else Forall (fun q => runEnd q < i) rs;
  sn_fingers : sc_fingers s = Z.of_nat (length rs);
  sn_low : sc_low s = List.last rs noPoint;
  sn_high : sc_high s = match rs with q :: _ :: _ => q | _ => noPoint end;
  sn_at : sc_at_high s = ((if sc_prev s then 1 else 0) <? length rs)%nat }.

Lemma scan_start map : scannedRuns map 0 (mkScan noPoint noPoint false 0 false) [].
Proof. split; try done; [lia|constructor..]. Qed.

(** A bit after those seen is in no run. *)
Lemma not_covered i rs : Forall (fun q => 0 <= start_bit q /\ 0 < num_bits q /\ runEnd q <= i) rs -> ~ Exists (covers i) rs.
Proof. intros H He. rewrite Exists_exists in He. destruct He as (q & Hq & Hc). rewrite Forall_forall in H. apply H in Hq. unfold covers in Hc. lia. Qed.

Lemma scan_zero map i s rs : 0 <= i -> Z.testbit map i = false -> scannedRuns map i s rs -> scannedRuns map (i + 1) (scanBit i false s) rs.
Proof.
  intros Hi Hb [H1 H2 H3 H4 H5 H6 H7 H8]. split; cbn; try done.
  - intros j Hj. destruct (Z.eq_dec j i) as [->|Hne]; [|apply H1; lia]. rewrite Hb. split; [done|]. by intros He%not_covered.
  - eapply Forall_impl; [exact H2|]. cbn. lia.
  - eapply Forall_impl; [exact H2|]. cbn. lia.
  - rewrite H8. destruct (sc_prev s); [|by rewrite orb_false_r]. destruct H4 as (q & rs' & -> & _). cbn. by rewrite orb_true_r.
Qed.

(** A one after a zero starts a run. *)
Lemma scan_first map i s rs : 0 <= i -> Z.testbit map i = true -> sc_prev s = false -> scannedRuns map i s rs ->
  scannedRuns map (i + 1) (scanBit i true s) (mkPoint i 1 :: rs).
Proof.
  intros Hi Hb Hp [H1 H2 H3 H4 H5 H6 H7 H8]. destruct s as [low high at_high fingers prev]. cbn [sc_low sc_high sc_at_high sc_fingers sc_prev] in *. subst prev at_high fingers.
  assert (E : scanBit i true (mkScan low high (0 <? length rs)%nat (Z.of_nat (length rs)) false) =
    mkScan (List.last (mkPoint i 1 :: rs) noPoint) (match rs with [] => noPoint | _ => mkPoint i 1 end) (1 <? S (length rs))%nat (Z.of_nat (S (length rs))) true).
  { destruct rs as [|q rs]; cbn in *; [by subst|]. unfold scanBit, onPoint. cbn. subst low. f_equal. lia. }
  rewrite E. split; cbn [sc_low sc_high sc_at_high sc_fingers sc_prev]; try done.
  - intros j Hj. rewrite Exists_cons. unfold covers at 1, runEnd. cbn [start_bit num_bits]. destruct (Z.eq_dec j i) as [->|Hne].
    + rewrite Hb. split; [left; lia|done].
    + rewrite (H1 j) by lia. split; [auto|]. intros [?|?]; [lia|done].
  - constructor; [unfold runEnd; cbn; lia|]. eapply Forall_impl; [exact H2|]. cbn. lia.
  - constructor; [done|]. eapply Forall_impl; [exact H4|]. done.
  - by exists (mkPoint i 1), rs.
Qed.

(** Another one makes the latest run longer. *)
Lemma scan_more map i s q rs : 0 <= i -> Z.testbit map i = true -> sc_prev s = true -> scannedRuns map i s (q :: rs) ->
  scannedRuns map (i + 1) (scanBit i true s) ({| q with num_bits := num_bits q + 1 |} :: rs).
Proof.
  intros Hi Hb Hp [H1 H2 H3 H4 H5 H6 H7 H8]. destruct s as [low high at_high fingers prev]. cbn [sc_low sc_high sc_at_high sc_fingers sc_prev] in *. subst prev at_high fingers low.
  destruct H4 as (q' & rs' & [= <- <-] & Eq). apply Forall_cons in H2 as [Hq H2]. apply StronglySorted_cons in H3 as [H3' H3].
  set (q' := {| q with num_bits := num_bits q + 1 |}).
  assert (E : scanBit i true (mkScan (List.last (q :: rs) noPoint) high (1 <? length (q :: rs))%nat (Z.of_nat (length (q :: rs))) true) =
    mkScan (List.last (q' :: rs) noPoint) (match rs with [] => noPoint | _ => q' end) (1 <? S (length rs))%nat (Z.of_nat (S (length rs))) true).
  { destruct rs as [|r rs]; cbn in *; subst high; done. }
  rewrite E. split; cbn [sc_low sc_high sc_at_high sc_fingers sc_prev]; try done.
  - intros j Hj. rewrite Exists_cons. unfold covers at 1. unfold runEnd in *. cbn [start_bit num_bits q']. destruct (Z.eq_dec j i) as [->|Hne].
    + rewrite Hb. split; [left; lia|done].
    + rewrite (H1 j), Exists_cons by lia. unfold covers at 1, runEnd. intuition lia.
  - constructor; [unfold runEnd in *; cbn; lia|]. eapply Forall_impl; [exact H2|]. cbn. lia.
  - by apply StronglySorted_cons.
  - exists q', rs. split; [done|]. unfold runEnd in *. cbn. lia.
Qed.

Lemma scan_bit map i s rs : 0 <= i -> scannedRuns map i s rs -> exists rs', scannedRuns map (i + 1) (scanBit i (Z.testbit map i) s) rs'.
Proof.
  intros Hi Hs. destruct (Z.testbit map i) eqn:Hb; [|by exists rs; apply scan_zero].
  destruct (sc_prev s) eqn:Hp; [|by eexists; apply scan_first].
  pose proof (sn_open _ _ _ _ Hs) as Ho. rewrite Hp in Ho. destruct Ho as (q & rs' & -> & _). by eexists; apply scan_more.
Qed.

(** The scan goes on until no ones are left. *)
Lemma scan_all map k i s rs : 0 <= i -> scannedRuns map i s rs -> 0 <= map < 2 ^ (i + Z.of_nat k) ->
  exists i' rs', scannedRuns map i' (scanBits k i (Z.shiftr map i) s) rs' /\ 0 <= i' /\ Z.shiftr map i' = 0.
Proof.
  revert i s rs. induction k as [|k IH]; intros i s rs Hi Hs Hm; cbn [scanBits].
  - exists i, rs. split; [done|]. split; [done|]. rewrite Z.shiftr_div_pow2 by done. apply Z.div_small. by rewrite Z.add_0_r in Hm.
  - destruct (Z.eqb_spec (Z.shiftr map i) 0) as [E|_]; [by exists i, rs|].
    assert (Eb : bit (Z.shiftr map i) 1 = Z.testbit map i).
    { unfold bit, nz. change 1 with (Z.ones 1). rewrite Z.land_ones, <- Z.bit0_mod by done. rewrite Z.shiftr_spec, Z.add_0_l by done. by destruct (Z.testbit map i). }
    rewrite Eb, Z.shiftr_shiftr by done. destruct (scan_bit map i s rs Hi Hs) as [rs1 H1]. apply (IH (i + 1) _ rs1); [lia|done|].
    by replace (i + 1 + Z.of_nat k) with (i + Z.of_nat (S k)) by lia.
Qed.

Lemma reverse_exists (P : alps_bitmap_point -> Prop) rs : Exists P (reverse rs) <-> Exists P rs.
Proof. rewrite !Exists_exists. by setoid_rewrite elem_of_reverse. Qed.

Lemma sorted_reverse rs : StronglySorted (fun q q' => runEnd q' < start_bit q) rs -> StronglySorted (fun q q' => runEnd q < start_bit q') (reverse rs).
Proof.
  induction 1 as [|q rs Hs IH Hq]; [constructor|]. rewrite reverse_cons. apply StronglySorted_app_2; [|done|by repeat constructor].
  intros a b' Ha Hb%list_elem_of_singleton. subst b'. rewrite elem_of_reverse in Ha. rewrite Forall_forall in Hq. exact (Hq _ Ha).
Qed.

(** C37: the scan of a bitmap finds the runs of touched lines.  For every map of at most 32
    bits there are the maximal runs of its ones, which cover exactly the ones and are
    apart; the driver counts as many fingers as there are runs, its lower point is the
    first of them, and its higher point the last, if there are two or more; without ones
    there is no finger. *)
Theorem bitmap_points_are_runs map : 0 <= map < 2 ^ 32 ->
  exists rs, runs_of map rs /\
    let s := alps_get_bitmap_points map in
    sc_fingers s = Z.of_nat (length rs) /\ sc_low s = firstRun rs /\ sc_high s = lastRun rs /\ (map = 0 <-> rs = []).
Proof.
  intros Hm. destruct (scan_all map 32 0 _ [] ltac:(done) (scan_start map) Hm) as (i & rs & [H1 H2 H3 H4 H5 H6 H7 _] & Hi & Hz).
  exists (reverse rs). cbv zeta. unfold alps_get_bitmap_points. rewrite Z.shiftr_0_r in *. set (s := scanBits 32 0 map _) in *.
  assert (Hr : runs_of map (reverse rs)).
  { split.
    - intros j Hj. rewrite reverse_exists. destruct (Z.lt_ge_cases j i) as [Hl|Hg]; [by apply H1|].
      assert (E : Z.testbit map j = false).
      { replace j with (j - i + i) by lia. rewrite <- Z.shiftr_spec by lia. by rewrite Hz, Z.bits_0. }
      rewrite E. split; [done|]. intros (q & Hq & Hc)%Exists_exists. rewrite Forall_forall in H2. apply H2 in Hq. unfold covers in Hc. lia.
    - apply Forall_reverse. eapply Forall_impl; [exact H2|]. cbn. lia.
    - by apply sorted_reverse. }
  split; [done|]. rewrite length_reverse. split; [done|]. split; [|split].
  - rewrite H6. unfold firstRun. destruct rs as [|q rs _] using rev_ind; [done|]. by rewrite last_last, reverse_app.
  - rewrite H7. unfold lastRun. rewrite length_reverse. destruct rs as [|q [|q' rs]]; [done|done|]. cbn [length]. by rewrite reverse_cons, last_last.
  - split.
    + intros ->. destruct rs as [|q rs]; [done|]. apply Forall_cons in H2 as [(Hq1 & Hq2 & _) _].
      pose proof (proj2 (ru_ones _ _ Hr (start_bit q) Hq1)) as E. rewrite Z.bits_0 in E. discriminate E. apply reverse_exists. left. unfold covers, runEnd. lia.
    + intros E. apply (f_equal reverse) in E. rewrite reverse_involutive in E. subst rs. apply Z.bits_inj'. intros j Hj. rewrite Z.bits_0.
      destruct (Z.testbit map j) eqn:Eb; [|done]. apply (ru_ones _ _ Hr j Hj) in Eb. by apply Exists_nil in Eb.
Qed.

(** Two lines touched together and another one, in a map of eleven lines. *)
Lemma bitmap_points_are_runs_witness : exists rs, runs_of 0x206 rs /\ sc_fingers (alps_get_bitmap_points 0x206) = Z.of_nat (length rs) /\
  sc_low (alps_get_bitmap_points 0x206) = mkPoint 1 2 /\ sc_high (alps_get_bitmap_points 0x206) = mkPoint 9 1.
Proof.
  destruct (bitmap_points_are_runs 0x206) as (rs & Hr & E & _); [done|]. exists rs. split; [exact Hr|]. split; [exact E|]. split; reflexivity.
Defined.

(** * Packets of one finger *)

(** ** The fields *)

(** The fields of a byte, as the driver masks and shifts them. *)
Definition fieldsOf (b : Z) : bool :=
  (Z.land b 0x0007 =? b mod 8) && (Z.land (Z.shiftl b 3) 0x0078 =? 8 * (b mod 16)) && (Z.land (Z.shiftl b 2) 0x0380 =? 128 * (b / 32)) &&
  (Z.land (Z.shiftl b 5) 0x1C00 =? 1024 * (b / 32)) && (Z.land b 0x0F =? b mod 16) && (Z.land (Z.shiftr b 2) 0x0030 =? 16 * (b / 64)) &&
  (Z.land (Z.shiftl b 6) 0x03C0 =? 64 * (b mod 16)) && (Z.land (Z.shiftl b 5) 0x0C00 =? 1024 * (b / 32 mod 4)) &&
  (Z.land (Z.shiftr b 1) 0x70 =? 16 * (b / 32)) && (Z.land b 0x80 =? 128 * (b / 128)) && (Z.land (Z.shiftr b 5) SS4_MASK_NORMAL_BUTTONS =? b / 32).

Lemma byte_fields b : is_byte b -> fieldsOf b = true.
Proof. intros Hb. apply (for_below 256 fieldsOf); [vm_compute; reflexivity|exact Hb]. Qed.

(** A digit below the bits of [a]. *)
Lemma lor_digit k a b : 0 <= k -> 0 <= a < 2 ^ k -> Z.lor a (2 ^ k * b) = 2 ^ k * b + a.
Proof. intros Hk Ha. rewrite Z.lor_comm, Z.mul_comm, <- Z.shiftl_mul_pow2, lor_shiftl_add by done. by rewrite Z.shiftl_mul_pow2. Qed.

(** A finger at [x] and [y], of thirteen and of twelve bits, with the pressure [z] and the
    buttons [b]. *)
Definition onePacket (x y z b : Z) : list Z :=
  [32 * b + 0x18 + x mod 8;
   32 * (x / 128 mod 8) + x / 8 mod 16;
   32 * (x / 1024) + y mod 16;
   64 * (y / 16 mod 4) + 8;
   128 * (z / 128) + 32 * (y / 1024) + y / 64 mod 16;
   32 * (z / 16 mod 8) + z mod 16].

Section Codec.
Context (x y z b : Z) (Hx : 0 <= x < 8192) (Hy : 0 <= y < 4096) (Hz : 0 <= z < 256) (Hb : 0 <= b < 8).

Lemma onePacket_bytes : Forall is_byte (onePacket x y z b).
Proof. unfold onePacket. rewrite !Forall_cons, Forall_nil. unfold is_byte. Z.div_mod_to_equations. lia. Qed.

(** The places of the packet. *)
Definition placeOf (i : Z) : Z := nth (Z.to_nat i) (onePacket x y z b) 0.

Lemma place_fields i : fieldsOf (placeOf i) = true.
Proof.
  apply byte_fields. unfold placeOf. pose proof onePacket_bytes as Hp. rewrite Forall_forall in Hp.
  destruct (Nat.lt_ge_cases (Z.to_nat i) (length (onePacket x y z b))) as [Hi|Hi]; [by apply Hp, list_elem_of_In, nth_In|].
  rewrite nth_overflow by done. done.
Qed.

(** What the fields of a place are. *)
Ltac fields i := let F := fresh in pose proof (place_fields i) as F; unfold fieldsOf in F; rewrite !andb_true_iff, !Z.eqb_eq in F;
  repeat match type of F with _ /\ _ => let E := fresh in destruct F as [F E]; rewrite ?E; clear E end; rewrite ?F; clear F.

Lemma read_x : SS4_1F_X_V2 placeOf = x.
Proof.
  unfold SS4_1F_X_V2. fields 0. fields 1. fields 2.
  change (placeOf 0) with (32 * b + 0x18 + x mod 8). change (placeOf 1) with (32 * (x / 128 mod 8) + x / 8 mod 16). change (placeOf 2) with (32 * (x / 1024) + y mod 16).
  rewrite (lor_digit 3), (lor_digit 7), (lor_digit 10) by (Z.div_mod_to_equations; lia). Z.div_mod_to_equations. lia.
Qed.

Lemma read_y : SS4_1F_Y_V2 placeOf = y.
Proof.
  unfold SS4_1F_Y_V2. fields 2. fields 3. fields 4.
  change (placeOf 2) with (32 * (x / 1024) + y mod 16). change (placeOf 3) with (64 * (y / 16 mod 4) + 8).
  change (placeOf 4) with (128 * (z / 128) + 32 * (y / 1024) + y / 64 mod 16).
  rewrite (lor_digit 4), (lor_digit 6), (lor_digit 10) by (Z.div_mod_to_equations; lia). Z.div_mod_to_equations. lia.
Qed.

Lemma read_z : SS4_1F_Z_V2 placeOf = z.
Proof.
  unfold SS4_1F_Z_V2. fields 4. fields 5.
  change (placeOf 4) with (128 * (z / 128) + 32 * (y / 1024) + y / 64 mod 16). change (placeOf 5) with (32 * (z / 16 mod 8) + z mod 16).
  rewrite (lor_digit 4), (lor_digit 7) by (Z.div_mod_to_equations; lia). Z.div_mod_to_equations. lia.
Qed.

Lemma read_buttons : SS4_BTN_V2 placeOf = b.
Proof. unfold SS4_BTN_V2. fields 0. change (placeOf 0) with (32 * b + 0x18 + x mod 8). Z.div_mod_to_equations. lia. Qed.

(** The fourth byte, and the packet tells of one finger. *)
Lemma place_3 : Z.land (placeOf 3) 0x30 = 0 /\ Z.land (placeOf 3) 0x08 = 0x08.
Proof.
  change (placeOf 3) with (64 * (y / 16 mod 4) + 8). assert (0 <= y / 16 mod 4 < 4) as H by (Z.div_mod_to_equations; lia).
  generalize dependent (y / 16 mod 4). intros k H. assert (k = 0 \/ k = 1 \/ k = 2 \/ k = 3) as [-> |[-> |[-> | ->]]] by lia; done.
Qed.

Lemma place_0 : Z.land (placeOf 0) 0x18 = 0x18.
Proof.
  change (placeOf 0) with (32 * b + 0x18 + x mod 8).
  pose proof (for_below 256 (fun c => negb (c mod 32 / 8 =? 3) || (Z.land c 0x18 =? 0x18)) ltac:(vm_compute; reflexivity) (32 * b + 0x18 + x mod 8)
    ltac:(Z.div_mod_to_equations; lia)) as H. cbv beta in H.
  replace ((32 * b + 0x18 + x mod 8) mod 32 / 8 =? 3) with true in H by (symmetry; rewrite Z.eqb_eq; Z.div_mod_to_equations; lia). by apply Z.eqb_eq in H.
Qed.

Lemma one_id : alps_get_pkt_id_ss4_v2 placeOf = SS4_PACKET_ID_ONE.
Proof.
  unfold alps_get_pkt_id_ss4_v2. rewrite (proj1 place_3). unfold SS4_IS_IDLE_V2. change (placeOf 4) with (128 * (z / 128) + 32 * (y / 1024) + y / 64 mod 16).
  replace (128 * (z / 128) + 32 * (y / 1024) + y / 64 mod 16 =? 0x10) with false by (symmetry; rewrite Z.eqb_neq; Z.div_mod_to_equations; lia).
  by rewrite andb_false_r.
Qed.

(** What the packet says. *)
Definition oneFields (q : alps_data) : alps_fields :=
  let f := {| (setMt 0 x y noFields) with pressure := (2 * z) mod 128; fingers := if 0 <? (2 * z) mod 128 then 1 else 0; f_left := bit b 0x01 |} in
  if bit (flags q) ALPS_BUTTONPAD then f else {| f with f_right := bit b 0x02; f_middle := bit b 0x04 |}.

Lemma onePacket_decodes (q : alps_data) : decodeWith DecodeSS4 q (onePacket x y z b) noFields = Some (Some (oneFields q)).
Proof.
  unfold decodeWith. change (readable 6 (onePacket x y z b)) with (Some placeOf). cbn [mbind option_bind]. do 2 f_equal.
  unfold alps_decode_ss4_v2. rewrite one_id, read_buttons. unfold decodeOne. rewrite read_x, read_y, read_z.
  change 0x7f with (Z.ones 7). rewrite Z.land_ones, (Z.mul_comm z) by done. change (2 ^ 7) with 128. unfold oneFields.
  destruct (bit (flags q) ALPS_BUTTONPAD); reflexivity.
Qed.

End Codec.

(** ** Through the interrupt routine *)

Definition alpsSlot (d : ApplePS2ALPSGlidePoint) : list Z := slot_at (pktsize (priv d)) (m_buffer (_ringBuffer d)) (m_head (_ringBuffer d)).

(** The bytes of the packet under way. *)
Definition underWay (d : ApplePS2ALPSGlidePoint) : list Z := take (Z.to_nat (_packetByteCount d)) (alpsSlot d).

(** What [identify] sets for version 8. *)
Record version8 (d : ApplePS2ALPSGlidePoint) : Prop := {
  v8_version : proto_version (priv d) = ALPS_PROTO_V8;
  v8_mask : mask0 (priv d) = 0x18;
  v8_byte : byte0 (priv d) = 0x18;
  v8_size : pktsize (priv d) = 6;
  v8_flags : Z.land (flags (priv d)) ALPS_PS2_INTERLEAVED = 0 }.

Section Interrupts.
Context (n : Z) (o : option Z).
Implicit Types (d : ApplePS2ALPSGlidePoint).

Lemma alpsSlot_length d : alps_ok n o d -> version8 d -> length (alpsSlot d) = 6%nat.
Proof.
  intros Hd Hv. pose proof (ao_ring _ _ _ Hd) as Ha. unfold alpsSlot. rewrite (v8_size _ Hv) in *.
  apply (slot_length ALPS_RING 6); try done; apply Ha.
Qed.

Lemma packetByte_at d i : alps_ok n o d -> version8 d -> 0 <= i < 6 -> packetByte i d = Ok (d, nth (Z.to_nat i) (alpsSlot d) 0).
Proof.
  intros Hd Hv Hi. pose proof (alpsSlot_length d Hd Hv) as Hl. destruct (packetByte_steps n o d i d Hd eq_refl) as (d' & v & E & -> & _).
  { rewrite (v8_size _ Hv). lia. }
  rewrite E. do 2 f_equal. unfold packetByte in E. rewrite (bind_ok _ _ _ d (_ringBuffer d)) in E by done.
  unfold head_get, deref in E. destruct (arr_get _ _) as [v'|] eqn:Eg; [|done]. injection E as ->. unfold arr_get in Eg.
  destruct (Z.ltb_spec (m_head (_ringBuffer d) + i) 0); [done|]. symmetry. apply nth_lookup_Some with (i := Z.to_nat i). unfold alpsSlot, slot_at.
  rewrite (v8_size _ Hv), lookup_take_lt, lookup_drop by lia. rewrite <- Eg. f_equal. pose proof (ok_head _ _ (al_ring _ _ _ (ao_ring _ _ _ Hd))). lia.
Qed.

(** A byte stored in the slot at the head. *)
Lemma storeByte_at d i v : alps_ok n o d -> version8 d -> 0 <= i < 6 -> exists rb,
  storeByte i v d = Ok ({| d with _ringBuffer := rb |}, tt) /\ aligned ALPS_RING 6 rb /\
  waitingPackets {| d with _ringBuffer := rb |} = waitingPackets d /\ alpsSlot {| d with _ringBuffer := rb |} = <[Z.to_nat i := v]> (alpsSlot d).
Proof.
  intros Hd Hv Hi. pose proof (ao_ring _ _ _ Hd) as Ha. rewrite (v8_size _ Hv) in Ha.
  pose proof (head_set_spec ALPS_RING 6 ltac:(done) ltac:(done) ltac:(done) _ _ v Ha Hi) as E.
  destruct (head_set_aligned ALPS_RING 6 _ _ _ _ Ha E) as (Ha' & _). eexists. split; [|split; [exact Ha'|split]].
  - unfold storeByte. rewrite (bind_ok _ _ _ d (_ringBuffer d)) by done. by rewrite E.
  - unfold waitingPackets. cbn [ringSize ringPacket ringOf alps_ring _ringBuffer priv]. rewrite (v8_size _ Hv).
    by apply (head_set_pending ALPS_RING 6 ltac:(done) ltac:(done) ltac:(done) _ i v).
  - unfold alpsSlot. cbn [_ringBuffer priv]. rewrite (v8_size _ Hv).
    by apply (head_set_slot ALPS_RING 6 ltac:(done) ltac:(done) ltac:(done) _ i v).
Qed.

(** The tests that a packet must pass: its first byte, and, once there are five, its fourth. *)
Definition passes (l : list Z) : bool :=
  (Z.land (nth 0 l 0) 0x18 =? 0x18) && (negb (Z.of_nat (length l) =? 5) || (Z.land (nth 3 l 0) 0x08 =? 0x08)).

Lemma byteTest_at d c i test : alps_ok n o d -> version8 d -> (c = true -> 0 <= i < 6 /\ test (nth (Z.to_nat i) (alpsSlot d) 0) = false) ->
  byteTest c i test d = Ok (d, false).
Proof.
  intros Hd Hv Hc. unfold byteTest. destruct c; [|done]. destruct (Hc eq_refl) as [Hi E].
  by rewrite (bind_ok _ _ _ _ _ (packetByte_at d i Hd Hv Hi)), E.
Qed.

Lemma valid_at d l : alps_ok n o d -> version8 d -> _packetByteCount d < 6 -> passes l = true -> Z.of_nat (length l) = _packetByteCount d + 1 ->
  (forall i, (i <= 3)%nat -> (i = 0 \/ i < length l - 1)%nat -> nth i (alpsSlot d) 0 = nth i l 0) -> invalidPacket d = Ok (d, false).
Proof.
  intros Hd Hv Hc Hl Hn Hs. destruct Hv as [V1 V2 V3 V4 V5]. pose proof (Build_version8 d V1 V2 V3 V4 V5) as Hv.
  pose proof (ao_count _ _ _ Hd) as H0. unfold passes in Hl. rewrite andb_true_iff, orb_true_iff, negb_true_iff, !Z.eqb_eq in Hl. destruct Hl as [L0 L3].
  unfold invalidPacket. rewrite (bind_ok _ _ _ d (_packetByteCount d)), (bind_ok _ _ _ d (priv d)) by done.
  rewrite V1, V2, V3, V4, V5. cbv zeta. change (nz 0) with false. cbn [andb].
  repeat (rewrite (bind_ok _ _ _ d false) by (apply byteTest_at; [done|done|];
    first [done | intros _; split; [done|]; change (Z.to_nat 0) with 0%nat; rewrite Hs by lia; by rewrite L0 |
      rewrite andb_true_iff, Z.eqb_eq; intros [_ E4]; split; [done|]; change (Z.to_nat 3) with 3%nat; rewrite Hs by lia;
      destruct L3 as [L3|L3]; [rewrite Z.eqb_neq in L3; lia|by rewrite L3]])).
  apply byteTest_at; [done|done|]. rewrite andb_true_iff, Z.eqb_eq. lia.
Qed.

(** The same packet under way over the same packets that wait. *)
Lemma version8_frame d d' : alps_frame d' = alps_frame d -> version8 d -> version8 d'.
Proof.
  intros E [V1 V2 V3 V4 V5]. pose proof (f_equal priv E) as Ep. cbn in Ep.
  pose proof (f_equal proto_version Ep) as P1. pose proof (f_equal mask0 Ep) as P2. pose proof (f_equal byte0 Ep) as P3.
  pose proof (f_equal pktsize Ep) as P4. pose proof (f_equal flags Ep) as P5. cbn in P1, P2, P3, P4, P5. split; [by rewrite P1|by rewrite P2|by rewrite P3|by rewrite P4|by rewrite P5].
Qed.

(** The first byte is stored before it is tested. *)
Lemma first_stored d v : alps_ok n o d -> version8 d -> _packetByteCount d < 6 ->
  let d1 rb := {| d with _ringBuffer := rb; priv := {| (priv d) with PSMOUSE_BAD_DATA := false |} |} in
  exists rb, (when (0 =? _packetByteCount d) (storeByte 0 v) ;; setBad false) d = Ok (d1 rb, tt) /\ aligned ALPS_RING 6 rb /\
    waitingPackets (d1 rb) = waitingPackets d /\ underWay (d1 rb) = underWay d /\
    (_packetByteCount d = 0 -> nth 0 (alpsSlot (d1 rb)) 0 = v).
Proof.
  intros Hd Hv Hc d1. pose proof (ao_count _ _ _ Hd) as H0. pose proof (alpsSlot_length d Hd Hv) as Hl.
  destruct (Z.eqb_spec 0 (_packetByteCount d)) as [E|E]; cbn [when].
  - destruct (storeByte_at d 0 v Hd Hv ltac:(done)) as (rb & Er & Ha & Hw & Hs). exists rb. rewrite (bind_ok _ _ _ _ _ Er).
    split; [reflexivity|]. split; [done|]. split; [exact Hw|]. split; [unfold underWay; cbn; by rewrite <- E|].
    intros _. change (alpsSlot (d1 rb)) with (alpsSlot {| d with _ringBuffer := rb |}). rewrite Hs. destruct (alpsSlot d); [discriminate Hl|reflexivity].
  - exists (_ringBuffer d). split; [reflexivity|]. pose proof (ao_ring _ _ _ Hd) as Ha. rewrite (v8_size _ Hv) in Ha.
    split; [done|]. split; [done|]. split; [done|]. lia.
Qed.

(** A byte stored behind those under way. *)
Lemma append_at d v : alps_ok n o d -> version8 d -> _packetByteCount d < 6 -> exists rb,
  let d' := {| d with _ringBuffer := rb; _packetByteCount := _packetByteCount d + 1 |} in
  appendByte v d = Ok (d', tt) /\ aligned ALPS_RING 6 rb /\ waitingPackets d' = waitingPackets d /\ underWay d' = underWay d ++ [v].
Proof.
  intros Hd Hv Hc. pose proof (ao_count _ _ _ Hd) as H0. pose proof (alpsSlot_length d Hd Hv) as Hl.
  destruct (storeByte_at d (_packetByteCount d) v Hd Hv ltac:(lia)) as (rb & Er & Ha & Hw & Hs). exists rb. cbv zeta.
  split; [|split; [exact Ha|split; [exact Hw|]]].
  - unfold appendByte. rewrite (bind_ok _ _ _ d (_packetByteCount d)), (bind_ok _ _ _ _ _ Er) by done. cbn. by rewrite u32_small by lia.
  - unfold underWay. change (alpsSlot {| d with _ringBuffer := rb; _packetByteCount := _packetByteCount d + 1 |}) with (alpsSlot {| d with _ringBuffer := rb |}).
    rewrite Hs. cbn [_packetByteCount]. replace (Z.to_nat (_packetByteCount d + 1)) with (Datatypes.S (Z.to_nat (_packetByteCount d))) by lia.
    rewrite (take_S_r _ _ v) by (apply list_lookup_insert_eq; lia). by rewrite take_insert_ge by lia.
Qed.

(** The packet at the head is queued while there is room. *)
Lemma commit_waiting8 d : aligned ALPS_RING 6 (_ringBuffer d) -> pktsize (priv d) = 6 ->
  Z.of_nat (length (waitingPackets d)) + 1 < ALPS_RING / kPacketLength ->
  waitingPackets {| d with _ringBuffer := advanceHead ALPS_RING (pktsize (priv d)) (_ringBuffer d) |} = waitingPackets d ++ [alpsSlot d].
Proof.
  intros Ha Hp Hr. rewrite Hp. unfold waitingPackets, alpsSlot in *. cbn [ringSize ringPacket ringOf alps_ring _ringBuffer priv] in *. rewrite Hp in *.
  rewrite (advanceHead_pending ALPS_RING 6) by done. rewrite (count_packets ALPS_RING 6) by done.
  rewrite (proj2 (Z.ltb_lt _ _)); [done|]. change (ALPS_RING / kPacketLength) with 32 in Hr. change ALPS_RING with 192 in *. lia.
Qed.

(** A byte of a packet. *)
Lemma byte_at d v l : alps_ok n o d -> version8 d -> _packetByteCount d < 6 -> is_byte v -> l = underWay d ++ [v] -> passes l = true ->
  exists d' r, interruptOccurred v d = Ok (d', r) /\ PSMOUSE_BAD_DATA (priv d') = false /\ _packetByteCount d' = _packetByteCount d + 1 /\
    if _packetByteCount d + 1 =? 6
    then Z.of_nat (length (waitingPackets d)) + 1 < ALPS_RING / kPacketLength -> waitingPackets d' = waitingPackets d ++ [l]
    else waitingPackets d' = waitingPackets d /\ underWay d' = l.
Proof.
  intros Hd Hv Hc Hb El Hp. pose proof (ao_count _ _ _ Hd) as H0. pose proof (alpsSlot_length d Hd Hv) as Hsl.
  destruct (first_stored d v Hd Hv Hc) as (rb & E1 & Ha & Hw & Hu & Hfirst).
  set (d1 := {| d with _ringBuffer := rb; priv := {| (priv d) with PSMOUSE_BAD_DATA := false |} |}) in *.
  assert (Ef : alps_frame d1 = alps_frame d) by reflexivity.
  assert (Hd1 : alps_ok n o d1) by (apply (alps_frame_ok n o d); [exact Hd|exact Ef|rewrite (v8_size _ Hv); exact Ha|exact H0]).
  pose proof (version8_frame d d1 Ef Hv) as Hv1. pose proof (alpsSlot_length d1 Hd1 Hv1) as Hsl1.
  assert (Hlen : Z.of_nat (length l) = _packetByteCount d + 1).
  { rewrite El, length_app. unfold underWay. rewrite length_take, Hsl. cbn. lia. }
  unfold interruptOccurred. cbv zeta. rewrite u8_small by exact Hb. rewrite (bind_ok _ _ _ d (_packetByteCount d)) by done.
  rewrite <- bind_assoc, (bind_ok _ _ _ _ _ E1), (bind_ok _ _ _ d1 (priv d1)) by done.
  rewrite (bind_ok _ _ _ _ _ (packetByte_at d1 0 Hd1 Hv1 ltac:(done))). rewrite (v8_version _ Hv1). cbn [Z.eqb Pos.eqb negb andb ALPS_PROTO_V8].
  rewrite (bind_ok _ _ _ d1 false).
  2: { apply (valid_at d1 l Hd1 Hv1 Hc Hp Hlen). intros i Hi Hi'. destruct (Z.eqb_spec (_packetByteCount d) 0) as [E0|E0].
       - assert (i = 0%nat) as -> by lia. rewrite (Hfirst E0), El. unfold underWay. by rewrite E0.
       - assert (i < Z.to_nat (_packetByteCount d))%nat as Hj by lia. rewrite El, <- Hu, app_nth1 by (unfold underWay; rewrite length_take; change (_packetByteCount d1) with (_packetByteCount d); lia).
         unfold underWay. change (_packetByteCount d1) with (_packetByteCount d). by rewrite nth_firstn, (proj2 (Nat.ltb_lt _ _) Hj). }
  cbn match. destruct (append_at d1 v Hd1 Hv1 Hc) as (rb2 & E2 & Ha2 & Hw2 & Hu2). rewrite (bind_ok _ _ _ _ _ E2).
  set (d2 := {| d1 with _ringBuffer := rb2; _packetByteCount := _packetByteCount d1 + 1 |}) in *.
  rewrite (bind_ok _ _ _ d2 (_packetByteCount d + 1)) by done. rewrite (v8_size _ Hv1). rewrite Hu in Hu2. rewrite Hw in Hw2.
  destruct (Z.eqb_spec (_packetByteCount d + 1) 6) as [E6|E6].
  - do 2 eexists. split; [reflexivity|]. split; [done|]. split; [done|]. intros Hr.
    etransitivity; [exact (commit_waiting8 d2 Ha2 (v8_size _ Hv1) ltac:(rewrite Hw2; exact Hr))|]. rewrite Hw2, El. do 2 f_equal. rewrite <- Hu2.
    unfold underWay. change (_packetByteCount d2) with (_packetByteCount d + 1). rewrite E6, firstn_all2; [done|].
    unfold alpsSlot. rewrite (v8_size _ Hv1 : pktsize (priv d2) = 6). pose proof Ha2 as [[] ? ?].
    rewrite (slot_length ALPS_RING 6) by done. done.
  - do 2 eexists. split; [reflexivity|]. split; [done|]. split; [done|]. split; [exact Hw2|]. by rewrite Hu2, El.
Qed.

Lemma passes_prefix (l l' : list Z) : l <> [] -> Z.land (nth 0 (l ++ l') 0) 0x18 = 0x18 -> Z.land (nth 3 (l ++ l') 0) 0x08 = 0x08 -> passes l = true.
Proof.
  intros Hl H0 H3. unfold passes. rewrite app_nth1 in H0 by (destruct l; [done|cbn; lia]). rewrite H0. cbn [Z.eqb Pos.eqb andb].
  destruct (Z.eqb_spec (Z.of_nat (length l)) 5) as [E|E]; [|done]. rewrite app_nth1 in H3 by lia. by rewrite H3.
Qed.

(** The bytes that are left of a packet. *)
Lemma bytes_at rest d : alps_ok n o d -> version8 d -> _interruptHandlerInstalled d = true -> Forall is_byte rest -> rest <> [] ->
  let p := underWay d ++ rest in length p = 6%nat -> Z.land (nth 0 p 0) 0x18 = 0x18 -> Z.land (nth 3 p 0) 0x08 = 0x08 ->
  Z.of_nat (length (waitingPackets d)) + 1 < ALPS_RING / kPacketLength ->
  exists d', for_each rest (fun b => drv_interrupt b ;; ret tt) d = Ok (d', tt) /\ alps_ok n o d' /\ alps_frame d' = alps_frame d /\
    PSMOUSE_BAD_DATA (priv d') = false /\ waitingPackets d' = waitingPackets d ++ [p].
Proof.
  intros Hd Hv Hi Hb. revert d Hd Hv Hi. induction Hb as [|v rest Hb Hr IH]; intros d Hd Hv Hi Hne p Hp H0 H3 Hroom; [done|].
  subst p. pose proof (ao_count _ _ _ Hd) as Hc. pose proof (alpsSlot_length d Hd Hv) as Hsl.
  assert (Hu : length (underWay d) = Nat.min (Z.to_nat (_packetByteCount d)) 6) by (unfold underWay; by rewrite length_take, Hsl).
  rewrite length_app in Hp. cbn [length] in Hp. assert (Hc6 : _packetByteCount d < 6) by lia.
  assert (Hin : in_time d) by (unfold in_time; rewrite (v8_size _ Hv); lia).
  replace (underWay d ++ v :: rest) with ((underWay d ++ [v]) ++ rest) in * by (by rewrite <- app_assoc).
  assert (Hl : underWay d ++ [v] <> []) by (by destruct (underWay d)).
  destruct (byte_at d v _ Hd Hv Hc6 Hb eq_refl (passes_prefix _ _ Hl H0 H3)) as (d1 & r & E & Hbad & Hcount & Hthen).
  destruct (alps_interrupt_ok n o v d Hd Hin) as (d1' & r' & E' & _ & Hd1 & Hf1). rewrite E in E'. injection E' as <- <-.
  assert (Ed : drv_interrupt v d = Ok (d1, r)) by (cbn; unfold interruptAction; rewrite (bind_ok _ _ _ d true) by (unfold gets; by rewrite Hi); exact E).
  assert (Hi1 : _interruptHandlerInstalled d1 = true) by (rewrite <- Hi; exact (f_equal _interruptHandlerInstalled Hf1)).
  clear E. rename Ed into E. cbn [for_each]. rewrite bind_assoc, (bind_ok _ _ _ _ _ E), (bind_ok _ _ _ d1 tt) by done.
  destruct rest as [|v' rest].
  - assert (_packetByteCount d + 1 = 6) as E6 by (cbn [length] in Hp; lia). rewrite E6 in Hthen. cbn [Z.eqb Pos.eqb] in Hthen.
    exists d1. rewrite app_nil_r. split; [done|]. split; [done|]. split; [done|]. split; [done|]. apply Hthen. exact Hroom.
  - assert (_packetByteCount d + 1 <> 6) as E6 by (cbn [length] in Hp; lia). rewrite (proj2 (Z.eqb_neq _ _) E6) in Hthen. destruct Hthen as [Hw Hu1].
    destruct (IH d1 Hd1 (version8_frame _ _ Hf1 Hv) Hi1 ltac:(done)) as (d' & E2 & Hd' & Hf & Hb' & Hw'); rewrite ?Hu1, ?Hw; try done.
    { rewrite !length_app. cbn [length] in *. lia. }
    exists d'. rewrite Hu1, Hw in Hw'. split; [exact E2|]. split; [exact Hd'|]. split; [by rewrite Hf|]. by split.
Qed.

End Interrupts.

(** ** To VoodooInput *)

Section Reported.
Context {B : Type} `{HB : PS2Bus B} (abs : Z -> Z) (uninit : ApplePS2ALPSGlidePoint -> alps_fields).
#[local] Abbreviation W := (DrvWorld B ApplePS2ALPSGlidePoint AlpsEvent).

(** The first finger takes its place and the others are lifted. *)
Lemma one_placed priv f l : length l = 5%nat -> exists v l', placeFingers priv f 1 l = Some (v :: l') /\ length l' = 4%nat /\
  vf_touch v = true /\ Forall (fun v => vf_touch v = false) l' /\
  vf_x v = wrapPosition (mt_x (fingerPlace priv f 0)) X_MAX_POSITIVE XMAX /\ vf_y v = wrapPosition (mt_y (fingerPlace priv f 0)) Y_MAX_POSITIVE YMAX.
Proof.
  intros Hl. destruct l as [|v0 [|v1 [|v2 [|v3 [|v4 []]]]]]; try done. do 2 eexists. split; [reflexivity|]. split; [reflexivity|].
  split; [reflexivity|]. split; [by repeat constructor|]. by split.
Qed.

Lemma contact_filled s timestamp count maxy l i v t ts : arr_get l i = Some v -> vf_touch v = true ->
  fillContact s timestamp count maxy l i (t :: ts, 0) = Some (alpsTransducer s timestamp count maxy i v t :: ts, 1).
Proof.
  intros E Hv. unfold fillContact. rewrite E. cbn [mbind option_bind]. rewrite Hv. cbn [negb].
  change (arr_get (t :: ts) 0) with (Some t). cbn [mbind option_bind]. by rewrite arr_set_Some by (cbn; lia).
Qed.

Lemma contact_skipped s timestamp count maxy l i v a : arr_get l i = Some v -> vf_touch v = false -> fillContact s timestamp count maxy l i a = Some a.
Proof. intros E Hv. unfold fillContact. destruct a. rewrite E. cbn [mbind option_bind]. by rewrite Hv. Qed.

Lemma one_filled d timestamp v l' t ts : virtualFingerStates d = v :: l' -> length l' = 4%nat -> vf_touch v = true ->
  Forall (fun v => vf_touch v = false) l' -> ev_transducers (inputEvent d) = t :: ts ->
  fillContacts d timestamp = Some (alpsTransducer (settings d) timestamp (clampedFingerCount d) (logical_max_y d) 0 v t :: ts, 1).
Proof.
  intros Ev Hl Hv Hl' Et. unfold fillContacts. rewrite Ev, Et. destruct l' as [|v1 [|v2 [|v3 [|v4 []]]]]; try done.
  rewrite !Forall_cons in Hl'. destruct Hl' as (H1 & H2 & H3 & H4 & _). change (seqZ 0 MAX_TOUCHES) with [0; 1; 2; 3; 4]. cbn [fold_opt].
  rewrite (contact_filled _ _ _ _ _ 0 v) by done. cbn [mbind option_bind].
  rewrite (contact_skipped _ _ _ _ _ 1 v1) by done. cbn [mbind option_bind]. rewrite (contact_skipped _ _ _ _ _ 2 v2) by done. cbn [mbind option_bind].
  rewrite (contact_skipped _ _ _ _ _ 3 v3) by done. cbn [mbind option_bind]. by rewrite (contact_skipped _ _ _ _ _ 4 v4).
Qed.

(** What one finger needs to be reported at once: it was there before, and no key was
    pressed lately. *)
Record ready_for_one (c : Z) (w : W) : Prop := {
  ro_client : voodooInputInstance (self w) = Some c;
  ro_last : lastFingerCount (self w) = 1;
  ro_quiet : maxaftertyping (settings (self w)) <= u64 (abs (u64 (now w)) - keytime (self w)) }.

Lemma one_prepared c f (w : W) : ready_for_one c w -> length (virtualFingerStates (self w)) = 5%nat ->
  ev_transducers (inputEvent (self w)) <> [] -> exists w' e v t ts,
  prepareVoodooInput abs f 1 w = Ok (w', tt) /\ told w' = told w ++ [AlpsTouchEvent c e] /\
  ev_transducers e = alpsTransducer (settings (self w)) (u64 (now w)) 1 (logical_max_y (self w)) 0 v t :: ts /\ ev_contact_count e = 1 /\
  vf_x v = wrapPosition (mt_x (fingerPlace (priv (self w)) f 0)) X_MAX_POSITIVE XMAX /\
  vf_y v = wrapPosition (mt_y (fingerPlace (priv (self w)) f 0)) Y_MAX_POSITIVE YMAX.
Proof.
  intros [R1 R2 R3] Hl Ht. destruct (one_placed (priv (self w)) f _ Hl) as (v & l' & Ep & Hl' & Hv & Hr & Hx & Hy).
  destruct (ev_transducers (inputEvent (self w))) as [|t ts] eqn:Et; [done|]. clear Ht.
  set (d1 := {| (self w) with virtualFingerStates := v :: l'; clampedFingerCount := 1; reportVoodooInput := true |}).
  set (w1 := {| w with self := d1 |}).
  pose proof (one_filled d1 (u64 (now w)) v l' t ts eq_refl Hl' Hv Hr Et) as Ef.
  set (e := mkInputEvent (alpsTransducer (settings d1) (u64 (now w)) (clampedFingerCount d1) (logical_max_y d1) 0 v t :: ts) (u8 1) (u64 (now w))).
  exists {| w1 with self := {| d1 with inputEvent := e; lastFingerCount := 1 |}; told := told w ++ [AlpsTouchEvent c e] |}, e, v, t, ts.
  split; [|done]. unfold prepareVoodooInput.
  rewrite (bind_ok (dstep _) _ _ {| w with self := {| (self w) with virtualFingerStates := v :: l'; clampedFingerCount := 1 |} |} tt).
  2: { unfold dstep. rewrite (bind_ok (dget _) _ w w (Some {| (self w) with virtualFingerStates := v :: l'; clampedFingerCount := 1 |})); [done|].
       unfold dget, gets. by rewrite Ep. }
  change (0 <? 1) with true. cbn [when]. rewrite (bind_ok (dset _) _ _ w1 tt), (bind_ok (dget _) _ w1 w1 true) by done. cbn [when].
  rewrite (bind_ok (dget _) _ w1 w1 false) by done. cbn [when]. rewrite (bind_ok _ _ w1 w1 tt) by done. unfold sendTouchData.
  rewrite (bind_ok (gets _) _ w1 w1 (now w)) by done. cbv zeta. rewrite (bind_ok (dget _) _ w1 w1 false).
  2: { unfold dget, gets. do 2 f_equal. by apply Z.ltb_ge. }
  cbn match. rewrite (bind_ok (dget _) _ w1 w1 false).
  2: { unfold dget, gets. cbn [self w1 d1 lastFingerCount clampedFingerCount]. by rewrite R2. }
  cbn match. unfold sendContacts. rewrite (bind_ok (dget _) _ w1 w1 (fillContacts d1 (u64 (now w)))) by done. rewrite Ef.
  rewrite (bind_ok (deref _) _ w1 w1 (alpsTransducer (settings d1) (u64 (now w)) (clampedFingerCount d1) (logical_max_y d1) 0 v t :: ts, 1)) by done.
  cbv zeta. fold e. rewrite (bind_ok (dset _) _ w1 {| w1 with self := {| d1 with inputEvent := e |} |} tt) by done.
  unfold tellClient. rewrite bind_assoc, (bind_ok (dget _) _ _ {| w1 with self := {| d1 with inputEvent := e |} |} (Some c)).
  2: { unfold dget, gets. cbn [self voodooInputInstance d1]. by rewrite R1. }
  reflexivity.
Qed.

(** The buttons are told after the contacts, if at all. *)
Definition noTouch (e : AlpsEvent) : bool := match e with AlpsTouchEvent _ _ => false | _ => true end.

Lemma buttons_told f (w : W) : exists w' l, alps_buttons f w = Ok (w', tt) /\ told w' = told w ++ l /\ forallb noTouch l = true.
Proof.
  unfold alps_buttons. rewrite (bind_ok (dget _) _ w w (clicked (self w))), (bind_ok (gets _) _ w w (now w)) by done.
  rewrite (bind_ok (dget _) _ w w (changeButtons f (self w)).2) by done. set (w1 := {| w with self := (changeButtons f (self w)).1 |}).
  rewrite (bind_ok (dset _) _ w w1 tt), (bind_ok (dget _) _ w1 w1 (clicked (self w1))) by done.
  destruct (negb _); cbn [when]; [|exists w1, []; by rewrite app_nil_r].
  unfold tellClient. rewrite (bind_ok (dget _) _ w1 w1 (voodooInputInstance (self w1))) by done.
  destruct (voodooInputInstance (self w1)) as [c|]; [|exists w1, []; by rewrite app_nil_r].
  by exists {| w1 with told := told w ++ [AlpsPointer c (u64 (now w)) 0 0 (changeButtons f (self w)).2] |}, [AlpsPointer c (u64 (now w)) 0 0 (changeButtons f (self w)).2].
Qed.

Context (x y z b : Z) (Hx : 0 <= x < X_MAX_POSITIVE) (Hz : 0 <= z < 256) (Hpress : 0 < (2 * z) mod 128) (Hb : 0 <= b < 8).

(** A driver of version 8 at work, between two reports. *)
Record at_work8 (d : ApplePS2ALPSGlidePoint) : Prop := {
  w8_version : version8 d;
  w8_process : process_packet d = Some ProcessSS4;
  w8_decode : decode_fields d = Some DecodeSS4;
  w8_multi : multi_packet (priv d) = 0;
  w8_heeded : ignoreall d = false;
  w8_area : logical_max_y d = y_max (priv d);
  w8_height : 0 <= y_max (priv d) < 4096 }.

Lemma one_handled c (w : W) : at_work8 (self w) -> ready_for_one c w -> length (virtualFingerStates (self w)) = 5%nat ->
  ev_transducers (inputEvent (self w)) <> [] -> PSMOUSE_BAD_DATA (priv (self w)) = false -> 0 <= y <= y_max (priv (self w)) ->
  exists w' e l t ts, handlePacket abs uninit (onePacket x y z b) w = Ok (w', tt) /\ told w' = told w ++ AlpsTouchEvent c e :: l /\
    forallb noTouch l = true /\ ev_contact_count e = 1 /\ ev_transducers e = t :: ts /\
    tc_x (tr_current t) = x /\ tc_y (tr_current t) = y + 1 /\ slotOf t = (0, u64 (now w), true) /\ _packetByteCount (self w') = 0.
Proof.
  intros [[V1 V2 V3 V4 V5] Wp Wd Wm Wi Wa Wh] Hr Hl Ht Hbad Hy. unfold X_MAX_POSITIVE in Hx.
  set (f := oneFields x y z b (priv (self w))).
  assert (Ef : is_mp f = false /\ first_mp f = false /\ mtAt 0 f = mkPos x y /\ fingers f = 1).
  { unfold f, oneFields. rewrite (proj2 (Z.ltb_lt _ _) Hpress). by destruct (bit (flags (priv (self w))) ALPS_BUTTONPAD). }
  destruct Ef as (Em & Efm & Ep & En).
  set (w1 := {| w with self := {| (self w) with priv := {| (priv (self w)) with multi_packet := 0 |} |} |}).
  set (f' := reverseY (y_max (priv (self w))) f).
  assert (Ef' : mtAt 0 f' = mkPos x (u32 (y_max (priv (self w)) - y))).
  { unfold f', reverseY. rewrite Ep. unfold f, oneFields. by destruct (bit (flags (priv (self w))) ALPS_BUTTONPAD). }
  assert (Hr1 : ready_for_one c w1) by (destruct Hr; by split).
  destruct (one_prepared c f' w1 Hr1 Hl Ht) as (w2 & e & v & t & ts & E2 & T2 & Ee & Ec & Vx & Vy).
  destruct (buttons_told f' w2) as (w3 & l & E3 & T3 & L3).
  exists {| w3 with self := {| (self w3) with _packetByteCount := 0 |} |}, e, l. do 2 eexists.
  split; [|split; [by rewrite T3, T2, <- app_assoc|split; [done|split; [done|split; [exact Ee|]]]]].
  - unfold handlePacket. rewrite (bind_ok (dget _) _ w w false) by (unfold dget, gets; by rewrite Hbad).
    rewrite (bind_ok (dget _) _ w w false) by (unfold dget, gets; by rewrite Wi). cbn [negb andb when].
    rewrite (bind_ok _ _ w w3 tt); [done|].
    rewrite (bind_ok (dget _) _ w w (Some ProcessSS4)) by (unfold dget, gets; by rewrite Wp). rewrite (bind_ok (deref _) _ w w ProcessSS4) by done.
    cbn [processWith]. unfold alps_process_packet_ss4_v2. rewrite (bind_ok (dget _) _ w w false) by (unfold dget, gets; by rewrite Wi). cbn match.
    rewrite (bind_ok (decodeAnyway _ _) _ w w f).
    2: { unfold decodeAnyway. rewrite (bind_ok _ _ w w (Some f)); [done|]. unfold decodeFields.
         rewrite (bind_ok (dget _) _ w w (Some DecodeSS4)) by (unfold dget, gets; by rewrite Wd). rewrite (bind_ok (deref _) _ w w DecodeSS4) by done.
         rewrite (bind_ok (dget _) _ w w (priv (self w))) by done. rewrite onePacket_decodes by lia. done. }
    rewrite (bind_ok (joinSS4 _) _ w w f).
    2: { unfold joinSS4. rewrite (bind_ok (dget _) _ w w 0) by (unfold dget, gets; by rewrite Wm). done. }
    rewrite Em, Efm. rewrite (bind_ok (dget _) _ w w 0) by (unfold dget, gets; by rewrite Wm). change (negb (nz 0) && false) with false. cbn match.
    rewrite (bind_ok (setPriv _) _ w w1 tt) by done. change (readable 6 (onePacket x y z b)) with (Some (placeOf x y z b)).
    rewrite (bind_ok (deref _) _ w1 w1 (placeOf x y z b)) by done. rewrite one_id by lia.
    rewrite (bind_ok (dget _) _ w1 w1 (y_max (priv (self w)))) by done. cbv zeta. fold f'.
    replace (s32 (fingers f')) with 1 by (unfold f', reverseY; cbn [fingers setMt]; by rewrite En).
    rewrite (bind_ok _ _ w1 w2 tt) by exact E2. exact E3.
  - assert (Efp : fingerPlace (priv (self w1)) f' 0 = mkPos x (u32 (y_max (priv (self w)) - y))).
    { unfold fingerPlace. cbn [w1 self priv proto_version]. by rewrite V1. }
    rewrite Efp in Vx, Vy. cbn [mt_x mt_y] in Vx, Vy. rewrite u32_small in Vy by lia. unfold wrapPosition, X_MAX_POSITIVE, Y_MAX_POSITIVE in Vx, Vy.
    rewrite (proj2 (Z.ltb_ge _ _)), (proj2 (Z.eqb_neq _ _)) in Vx by lia. rewrite (proj2 (Z.ltb_ge _ _)), (proj2 (Z.eqb_neq _ _)) in Vy by lia.
    unfold alpsTransducer. destruct (forceTouch _ _ _) as [[s1 s2] s3]. cbn [tr_current tc_x tc_y].
    split; [done|]. split; [|done]. rewrite Vy. cbn [w1 self logical_max_y]. rewrite Wa, u32_small by lia. lia.
Qed.

Context (n : Z) (o : option Z) (Hn : MAX_TOUCHES <= n).

Lemma at_work8_frame d d' : alps_frame d' = alps_frame d -> at_work8 d -> at_work8 d'.
Proof.
  intros E [W1 W2 W3 W4 W5 W6 W7]. pose proof (f_equal priv E) as Ep. pose proof (f_equal multi_packet Ep) as P1. pose proof (f_equal y_max Ep) as P2.
  pose proof (f_equal process_packet E) as E1. pose proof (f_equal decode_fields E) as E2. pose proof (f_equal ignoreall E) as E3.
  pose proof (f_equal logical_max_y E) as E4. cbn in P1, P2, E1, E2, E3, E4.
  split; [by apply (version8_frame d)|by rewrite E1|by rewrite E2|by rewrite P1|by rewrite E3|by rewrite E4, P2|by rewrite P2].
Qed.


End Reported.

(** A driver of version 8 at work, with a pad of 2048 lines. *)
Definition driver8 : ApplePS2ALPSGlidePoint :=
  {| (newAlps 10) with
     voodooInputInstance := Some 7; _device := Some 1; _interruptHandlerInstalled := true; lastFingerCount := 1; logical_max_y := 2047;
     priv := {| newPriv with nibble_commands := Some alps_v3_nibble_commands; proto_version := ALPS_PROTO_V8; byte0 := 0x18; mask0 := 0x18;
                             x_max := 4095; y_max := 2047 |};
     hw_init := Some InitSS4; decode_fields := Some DecodeSS4; process_packet := Some ProcessSS4 |}.

Lemma driver8_ok : alps_ok 10 (Some 1) driver8 /\ fit driver8 /\ at_work8 driver8.
Proof.
  split; [|split; [by split|by split]]. destruct (newAlps_ok 10 ltac:(done)) as [A1 A2 A3 A4 A5 A6 A7 A8 A9 A10].
  split; [exact A1|exact A2|exact A3|done|by intros p [= <-]|exact A6|exact A7|exact A8|by destruct A9|].
  split; cbn; [by intros p [= <-]|done|done|by intros t [= <-]].
Qed.

#[local] Instance codec_bus : PS2Bus BenchHost := answering (answerAll 0).
Definition finger8_world : DrvWorld BenchHost ApplePS2ALPSGlidePoint AlpsEvent :=
  mkDrvWorld driver8 (mkBenchHost false false false) 600000000000 [].

